(* ===== verification/_CoqProject ===== *)
-Q . S2P
Prelude.v
GoStd.v
Float64.v
Digits.v
SdkInt.v
Decimal.v
Coin.v
CoinFacts.v
CoinProps.v
DecCoin.v
DecCoinProps.v
Vesting.v
VestingFacts.v
MultiSig.v
Chain.v
Bank.v
BankFacts.v
Keepers.v
BankInst.v
BankRun.v
Delegation.v
BankProps.v
AccountFacts.v
Wire.v
Proto.v
WireMsg.v
SdkMsgs.v
TxProto.v
Unknown.v
Store.v
CacheIter.v
KVStore.v
CacheKV.v
CacheKVFacts.v
CacheKVProps.v
PrefixKV.v
Address.v
VestingProps.v
VestingBank.v
Tx.v
TxCodec.v
Reward.v
RewardMsgs.v
Descriptors.v
InterfaceRegistry.v
TxDecoder.v
TxDecoderFacts.v
TxDecoderProps.v
RewardFacts.v
Gas.v
BaseApp.v
ABCI.v
ABCIProps.v
RewardProps.v
RewardOps.v
RewardRun.v
RewardEnergy.v
RewardList.v
Modules.v
Context.v
Feegrant.v
Ante.v
ClientTx.v
ClientProps.v
AnteFacts.v
FeegrantProps.v
AnteProps.v
RewardAccounts.v
Node.v
AppCodec.v
CodecExamples.v
NodeProps.v
Broadcaster.v
Results.v
BroadcasterProps.v
BridgeNode.v
Bridge.v
BridgeProps.v
