(* ===== verification/Prelude.v ===== *)
(** * A verification development for the mobile REC block chain

    The repository is a block chain for renewable energy certificates (RECs):
    a copy of the Cosmos SDK under src/cosmos with modules of its own.  Full
    nodes run a bridge (fullnode_bridge) that collects votes on energy
    measurements, and signs and sends transactions for them.  x/reward keeps
    RECs as collateral and issues the coin aeil against them, x/mapping knows
    the devices and x/light_tx takes in measurements.  The modules use the bank
    (x/bank), accounts (x/auth), fee allowances (x/feegrant) and the integer,
    decimal and coin types of the SDK (types/).  Transactions arrive in blocks
    (baseapp/abci.go); each runs through the ante handler (x/auth/ante), which
    checks signatures and takes the fee, and then through its messages, on a
    branch of the store ([runTx], baseapp/baseapp.go).

    ** How code is rendered

    Go code that can fail returns an [outcome]: a value, an error or a panic.
    Stateful code is a function [M S A] that returns the outcome together with
    the state it leaves, also on failure; [commit] is the branching of a store
    that is written back on success only.  Go strings and byte slices are
    [string]s, machine integers are [Z] with their wrap-around written out,
    big.Int is [Z] with the bit-length tests of the code, a store is a [gmap].
    The energies x/reward stores are float64 values that are whole numbers;
    they are kept as [Z] with the rounding of the 53-bit format ([F64] in
    GoStd).  The bridge and the client compute with float64 proper (Float64,
    over the Standard Library's binary floats).

    Loops that are not structural take fuel: the length of the input for the
    protobuf decoders and the search for unknown fields, the length of the
    slice for the binary search, 10 bytes
    for a varint, 64 rounds for a power, 100 for a root (the bound in the
    code), three rounds for padding a key to a multiple of four; a lemma beside
    each states that the fuel is enough.  Two loops can run for ever: the
    query of the node list, whose walk answers [None] when the fuel ends, and
    the bridge's wait for a block, which gives up after a number of polls that
    is a parameter.

    Code that is not in the repository is a parameter: bech32, hashes and
    signature schemes, the keyring, the parsing functions of protowire and the
    registry of message types, the gas a transaction has used.  What is relied
    on is a named hypothesis or a class with laws, and the witnesses
    instantiate it.

    ** Files

    - Prelude, GoStd, Float64, Digits: outcomes, the state monad, triples,
      tactics and hints; Go's strings, big integers, floats; decimal digits.
    - SdkInt (types/int.go), Decimal (types/decimal.go), Coin with CoinFacts and
      CoinProps (types/coin.go), DecCoin with DecCoinProps (types/dec_coin.go,
      types/denom.go).
    - Vesting with VestingFacts and VestingProps (x/auth/vesting/types): the
      vesting account types; VestingBank (x/auth/vesting, on the chain).
    - Chain and AccountFacts (x/auth/keeper, x/auth/types), Bank with BankFacts,
      BankInst, BankRun, Delegation and BankProps (x/bank/keeper, x/bank/types);
      Keepers is
      the interface x/reward sees, a class of operations with its laws,
      discharged in BankInst; BankRun adds when the operations succeed.
    - Store (store/types/utils.go), Gas (store/types/gas.go, store/gaskv),
      KVStore (the store interface as a class with laws, store/dbadapter),
      CacheIter and CacheKV with CacheKVFacts and CacheKVProps (store/cachekv),
      PrefixKV (store/prefix).
    - Wire and Proto (x/reward/types/*.pb.go): the generated codecs, bytes and
      stored messages.  WireMsg: a codec as a class with laws, the encoders and
      handlers of a field, and the tactics that prove the laws of a message;
      SdkMsgs (Any, Coin, keys and the messages of x/bank, x/feegrant and
      x/mapping), RewardMsgs (x/reward) and TxProto (types/tx/tx.pb.go) are its
      instances, a module per message.
    - Unknown (codec/unknownproto) with Descriptors, the fields of the messages;
      InterfaceRegistry (codec/types/interface_registry.go, the [RegisterInterfaces]
      of the modules).
    - MultiSig (crypto/types, crypto/keys/multisig), Tx (types/tx, x/auth/tx,
      x/auth/signing), TxCodec (types/tx/tx.pb.go, x/auth/tx).
    - TxDecoder with TxDecoderFacts and TxDecoderProps (x/auth/tx/decoder.go):
      from bytes to transactions, over the class of what an interface packs;
      AppCodec gives its instances for the keys and messages of the application,
      CodecExamples a concrete parser and registry; Results (types/result.go,
      [runMsgs] of baseapp/baseapp.go) is the data of a result.
    - Address (types/address.go), Reward (x/reward/keeper, x/reward/types),
      Modules (x/mapping, x/light_tx).
    - RewardFacts, RewardProps, RewardOps, RewardRun, RewardEnergy, RewardList,
      RewardAccounts: theorems on x/reward over the interface of the bank and
      over runs of transactions.
    - BaseApp (baseapp/baseapp.go: [runTx]), ABCI with ABCIProps
      (baseapp/abci.go: blocks and commits).
    - Context, Ante with AnteFacts and AnteProps (x/auth/ante), Feegrant with
      FeegrantProps (x/feegrant).
    - Node with NodeProps (simapp/app.go): the application, every module behind
      the ante handler.
    - ClientTx with ClientProps (client/tx, client/broadcast.go): building,
      signing and broadcasting.
    - Broadcaster with BroadcasterProps (fullnode_bridge/tx): the bridge's
      transactions over an interface to a node; BridgeNode discharges the
      interface with the application behind the block calls.
    - Bridge with BridgeProps (fullnode_bridge/consumer): votes, timers, queue.

    ** Theorems

    - Solvency ([NodeProps], [RewardProps]): along any transactions without
      [MsgRemoveCollateral] the issued aeil never exceeds 1,000,000 per REC held,
      and equals the bank's supply of aeil when only aeil is burnt.
      [RewardOps.RemoveCollateral_breaks_solvency] shows why the one message is
      left out.
    - The bridge ([BridgeProps], [BroadcasterProps], [BridgeNode]): however its
      goroutines interleave, votes are settled once and the cached sequence
      stays the one of the chain; and three ways in which it pays or records
      the wrong thing.
    - Authentication ([AnteProps], [NodeProps], [MultiSig], [ClientProps],
      [TxCodec]): only transactions signed by all their signers run, none runs
      twice, a threshold is a threshold, the client's signatures verify, and a
      signature is for one transaction, chain and account.
    - Transactions on the wire ([TxDecoderProps]): the decoder gives back what
      was encoded, never panics on any bytes, and accepts a transaction padded
      with bytes nobody signed; the registries stay consistent; the bridge reads
      the certificates that a burn returned ([Results]).
    - Vesting ([VestingProps], [VestingBank]): schedules split the original
      coins and only ever release them, delegations are tracked exactly, the
      balance always covers what is locked and exactly the rest can be spent.
    - Fees and gas ([AnteProps], [FeegrantProps], [Gas]): fees are moved and
      allowances respected, failed transactions pay, gas is bounded.
    - Blocks ([ABCIProps]): a block is its transactions in order, and the
      mempool has no influence on it.  Transactions are atomic ([BaseApp]).
    - Operations of x/reward: what issuing, burning, distributing, reporting
      energy, creating RECs and appending nodes do to every balance and every
      key, when they are refused and when they succeed.
    - Branched and prefixed stores behave as maps ([CacheKVProps], [PrefixKV]).
    - The bank conserves coins and keeps its supply equal to the balances.
    - Codecs decode what they encode and are total on arbitrary bytes.
    - Coin sets, decimals and integers: exactness, canonical forms, rounding,
      order, text round trips.

    ** Not modelled

    The command line, REST and server, connections to message brokers and the
    JSON of their messages, amino and JSON codecs, cryptography and the
    persistent trees: input and output, reflection, or third-party code.  The
    cached value of an [Any], which only saves decoding it again.  The codecs
    of x/light_tx and of the fee allowances, which contain floats and times of
    third-party packages.  The remaining
    modules of the SDK (staking, gov, distribution and so on), on which the
    modules of this repository do not depend.  Events, telemetry and snapshots
    at the block interface.
*)

From Stdlib Require Import ZArith Lia Ascii String.
From stdpp Require Import base tactics option list strings gmap sorting.

#[global] Set Default Proof Using "Type".

(** ** Outcomes of Go code

    A Go function that can fail returns a value, returns an [error], or
    panics.  The three cases are kept apart because the callers treat them
    differently: an error is propagated by an early return, a panic unwinds
    to the [recover] of [runTx]. *)
Inductive outcome (A : Type) : Type :=
  | Ok (a : A)
  | Err (e : string)
  | Panic (e : string).
Arguments Ok {A} a.
Arguments Err {A} e.
Arguments Panic {A} e.

#[global] Instance outcome_ret : MRet outcome := @Ok.

#[global] Instance outcome_bind : MBind outcome := λ A B f m,
  match m with
  | Ok a => f a
  | Err e => Err e
  | Panic e => Panic e
  end.

#[global] Instance outcome_fmap : FMap outcome := λ A B f m,
  match m with
  | Ok a => Ok (f a)
  | Err e => Err e
  | Panic e => Panic e
  end.

Definition is_ok {A} (o : outcome A) : bool :=
  match o with Ok _ => true | _ => false end.

(** [fail_if b e] is the early return [if b { return e }]. *)
Definition fail_if (b : bool) (e : string) : outcome unit :=
  if b then Err e else Ok ().

(** [panic_if b e] is [if b { panic(e) }]. *)
Definition panic_if (b : bool) (e : string) : outcome unit :=
  if b then Panic e else Ok ().

(** A failed lookup of an [option] turned into an error or a panic. *)
Definition or_err {A} (o : option A) (e : string) : outcome A :=
  match o with Some a => Ok a | None => Err e end.

Definition or_panic {A} (o : option A) (e : string) : outcome A :=
  match o with Some a => Ok a | None => Panic e end.

(** [must o] is the Go idiom [if err != nil { panic(err) }]. *)
Definition must {A} (o : outcome A) : outcome A :=
  match o with Err e => Panic e | _ => o end.

(** ** Stateful Go code

    Keepers and handlers mutate a store that survives an error return: only
    the transaction runner discards it.  So a stateful operation returns its
    outcome together with the state it leaves, in all three cases. *)
Definition M (S A : Type) : Type := S → outcome A * S.

#[global] Instance M_ret {S} : MRet (M S) := λ A a s, (Ok a, s).

#[global] Instance M_bind {S} : MBind (M S) := λ A B f m s,
  match m s with
  | (Ok a, s') => f a s'
  | (Err e, s') => (Err e, s')
  | (Panic e, s') => (Panic e, s')
  end.

Definition lift {S A} (o : outcome A) : M S A := λ s, (o, s).
Definition gets {S A} (f : S → A) : M S A := λ s, (Ok (f s), s).
Definition modify {S} (f : S → S) : M S unit := λ s, (Ok (), f s).

(** Running an operation of a component inside a larger state. *)
Definition zoom {S T A} (get : S → T) (set : T → S → S) (m : M T A) : M S A :=
  λ s, let '(o, t) := m (get s) in (o, set t s).

(** [commit m] keeps the state of [m] only when [m] returns normally; it is
    the branching of a store before a call and the write-back after it. *)
Definition commit {S A} (m : M S A) : M S A := λ s,
  match m s with
  | (Ok a, s') => (Ok a, s')
  | (o, _) => (o, s)
  end.

(** A loop over a slice, stopping at the first error or panic. *)
Fixpoint for_each {S A} (f : A → M S unit) (l : list A) : M S unit :=
  match l with
  | [] => mret ()
  | x :: l' => f x ≫= λ _, for_each f l'
  end.

Fixpoint fold_out {A B} (f : B → A → outcome B) (b : B) (l : list A) : outcome B :=
  match l with
  | [] => Ok b
  | x :: l' => b' ← f b x; fold_out f b' l'
  end.

(** Loops that return [false] (or [true]) at the first element that decides. *)
Fixpoint all_out {A} (f : A → outcome bool) (l : list A) : outcome bool :=
  match l with
  | [] => Ok true
  | x :: l' => b ← f x; if b : bool then all_out f l' else Ok false
  end.

Fixpoint any_out {A} (f : A → outcome bool) (l : list A) : outcome bool :=
  match l with
  | [] => Ok false
  | x :: l' => b ← f x; if b : bool then Ok true else any_out f l'
  end.

(** ** Reasoning about outcomes and stateful code *)

Lemma bind_Ok {A B} (m : outcome A) (f : A → outcome B) b :
  m ≫= f = Ok b ↔ ∃ a, m = Ok a ∧ f a = Ok b.
Proof. destruct m; split; naive_solver. Qed.

Lemma bind_run {A B} (m : outcome A) (f : A → outcome B) a :
  m = Ok a → m ≫= f = f a.
Proof. by intros ->. Qed.

Lemma fmap_Ok {A B} (m : outcome A) (f : A → B) b :
  f <$> m = Ok b ↔ ∃ a, m = Ok a ∧ b = f a.
Proof. destruct m; split; naive_solver. Qed.

Lemma fail_if_Ok b e u : fail_if b e = Ok u ↔ b = false.
Proof. destruct b, u; naive_solver. Qed.

Lemma panic_if_Ok b e u : panic_if b e = Ok u ↔ b = false.
Proof. destruct b, u; naive_solver. Qed.

Lemma or_err_Ok {A} (o : option A) e a : or_err o e = Ok a ↔ o = Some a.
Proof. destruct o; naive_solver. Qed.

Lemma or_panic_Ok {A} (o : option A) e a : or_panic o e = Ok a ↔ o = Some a.
Proof. destruct o; naive_solver. Qed.

Lemma must_Ok {A} (o : outcome A) a : must o = Ok a ↔ o = Ok a.
Proof. destruct o; naive_solver. Qed.

Lemma Mbind_Ok {S A B} (m : M S A) (f : A → M S B) s b s' :
  (m ≫= f) s = (Ok b, s') ↔ ∃ a s1, m s = (Ok a, s1) ∧ f a s1 = (Ok b, s').
Proof.
  unfold mbind, M_bind. destruct (m s) as [[a|e|e] s1]; split; naive_solver.
Qed.

Lemma lift_Ok {S A} (o : outcome A) (s : S) a s' :
  lift o s = (Ok a, s') ↔ o = Ok a ∧ s' = s.
Proof. unfold lift. naive_solver. Qed.

Lemma gets_Ok {S A} (f : S → A) s a s' :
  gets f s = (Ok a, s') ↔ a = f s ∧ s' = s.
Proof. unfold gets. naive_solver. Qed.

Lemma modify_Ok {S} (f : S → S) s u s' :
  modify f s = (Ok u, s') ↔ s' = f s.
Proof. unfold modify. destruct u. naive_solver. Qed.

Lemma mret_Ok {S A} (a : A) (s : S) b s' :
  (mret a : M S A) s = (Ok b, s') ↔ b = a ∧ s' = s.
Proof. unfold mret, M_ret. naive_solver. Qed.

Lemma zoom_Ok {S T A} (get : S → T) (set : T → S → S) (m : M T A) s a s' :
  zoom get set m s = (Ok a, s') ↔ ∃ t, m (get s) = (Ok a, t) ∧ s' = set t s.
Proof. unfold zoom. destruct (m (get s)) as [o t]. naive_solver. Qed.

Lemma commit_Ok {S A} (m : M S A) s a s' :
  commit m s = (Ok a, s') ↔ m s = (Ok a, s').
Proof. unfold commit. destruct (m s) as [[]?]; naive_solver. Qed.

(** Equation forms, to run a composed operation forward. *)
Lemma Mbind_run {S A B} (m : M S A) (f : A → M S B) s a s1 :
  m s = (Ok a, s1) → (m ≫= f) s = f a s1.
Proof. intros H. unfold mbind, M_bind. by rewrite H. Qed.

Lemma gets_bind {S A B} (f : S → A) (k : A → M S B) s : (gets f ≫= k) s = k (f s) s.
Proof. done. Qed.
Lemma lift_bind {S A B} (a : A) (k : A → M S B) s : (lift (Ok a) ≫= k) s = k a s.
Proof. done. Qed.
Lemma modify_bind {S B} (f : S → S) (k : () → M S B) s : (modify f ≫= k) s = k () (f s).
Proof. done. Qed.
Lemma mret_bind {S A B} (a : A) (k : A → M S B) s : ((mret a : M S A) ≫= k) s = k a s.
Proof. done. Qed.

Lemma all_out_run {A} (f : A → outcome bool) (g : A → bool) l :
  Forall (λ x, f x = Ok (g x)) l → all_out f l = Ok (forallb g l).
Proof.
  induction 1 as [|x l H _ IH]; simpl; [done|]. rewrite H. simpl. by destruct (g x).
Qed.

Lemma any_out_run {A} (f : A → outcome bool) (g : A → bool) l :
  Forall (λ x, f x = Ok (g x)) l → any_out f l = Ok (existsb g l).
Proof.
  induction 1 as [|x l H _ IH]; simpl; [done|]. rewrite H. simpl. by destruct (g x).
Qed.

(** Running an operation on a concrete state: only the outcome is evaluated. *)
Lemma run_ok {S A} (m : M S A) s a : fst (m s) = Ok a → m s = (Ok a, snd (m s)).
Proof. destruct (m s). simpl. by intros ->. Qed.
Lemma run_err {S A} (m : M S A) s e : fst (m s) = Err e → m s = (Err e, snd (m s)).
Proof. destruct (m s). simpl. by intros ->. Qed.

(** [inv_ok] opens every [... = Ok _] hypothesis about a composed
    operation into one equation per step. *)
Ltac inv_ok_step :=
  match goal with
  | H : mbind _ _ = Ok _ |- _ => apply bind_Ok in H as (?&?&?)
  | H : fmap _ _ = Ok _ |- _ => apply fmap_Ok in H as (?&?&?)
  | H : fail_if _ _ = Ok _ |- _ => apply fail_if_Ok in H
  | H : panic_if _ _ = Ok _ |- _ => apply panic_if_Ok in H
  | H : or_err _ _ = Ok _ |- _ => apply or_err_Ok in H
  | H : or_panic _ _ = Ok _ |- _ => apply or_panic_Ok in H
  | H : must _ = Ok _ |- _ => apply (proj1 (must_Ok _ _)) in H
  | H : mbind _ _ _ = (Ok _, _) |- _ => apply Mbind_Ok in H as (?&?&?&?)
  | H : lift _ _ = (Ok _, _) |- _ => apply lift_Ok in H as [? ?]
  | H : gets _ _ = (Ok _, _) |- _ => apply gets_Ok in H as [? ?]
  | H : modify _ _ = (Ok _, _) |- _ => apply modify_Ok in H
  | H : mret _ _ = (Ok _, _) |- _ => apply mret_Ok in H as [? ?]
  | H : zoom _ _ _ _ = (Ok _, _) |- _ => apply zoom_Ok in H as (?&?&?)
  | H : mret _ = Ok _ |- _ => injection H as H
  | H : Ok _ = Ok _ |- _ => injection H as H
  end.
Ltac inv_ok := repeat (inv_ok_step; simplify_eq/=).

(** An assertion kept by an operation whatever its outcome. *)
Definition preserves {S A} (I : S → Prop) (m : M S A) : Prop :=
  ∀ s, I s → I (m s).2.

Create HintDb chain discriminated.

Lemma preserves_ret {S A} (I : S → Prop) (a : A) : preserves I (mret a : M S A).
Proof. intros s. done. Qed.

Lemma preserves_lift {S A} (I : S → Prop) (o : outcome A) : preserves I (lift o).
Proof. intros s. done. Qed.

Lemma preserves_gets {S A} (I : S → Prop) (f : S → A) : preserves I (gets f).
Proof. intros s. done. Qed.

Lemma preserves_modify {S} (I : S → Prop) (f : S → S) :
  (∀ s, I s → I (f s)) → preserves I (modify f).
Proof. intros H s. apply H. Qed.

Lemma preserves_bind {S A B} (I : S → Prop) (m : M S A) (f : A → M S B) :
  preserves I m → (∀ a, preserves I (f a)) → preserves I (m ≫= f).
Proof.
  intros Hm Hf s Hs. specialize (Hm s Hs). unfold mbind, M_bind.
  destruct (m s) as [[a|e|e] s1]; simpl in *; auto. by apply Hf.
Qed.

Lemma preserves_for_each {S A} (I : S → Prop) (f : A → M S unit) l :
  (∀ x, preserves I (f x)) → preserves I (for_each f l).
Proof.
  intros Hf. induction l as [|x l IH]; simpl; [apply preserves_ret|].
  by apply preserves_bind.
Qed.

Lemma preserves_commit {S A} (I : S → Prop) (m : M S A) :
  (∀ s a s', I s → m s = (Ok a, s') → I s') → preserves I (commit m).
Proof.
  intros H s Hs. unfold commit.
  destruct (m s) as [[a|e|e] s1] eqn:E; simpl; eauto.
Qed.

#[export] Hint Resolve preserves_ret preserves_lift preserves_gets
  preserves_bind preserves_for_each : chain.

(** A relation between the states before and after an operation that
    succeeds. *)
Definition steps {S A} (R : S → S → Prop) (m : M S A) : Prop :=
  ∀ s a s', m s = (Ok a, s') → R s s'.

Section steps.
Context {S : Type} (R : S → S → Prop) {Hpre : PreOrder R}.

Lemma steps_ret {A} (a : A) : steps R (mret a : M S A).
Proof using Hpre. by intros s b s' [-> ->]%mret_Ok. Qed.
Lemma steps_lift {A} (o : outcome A) : steps R (lift o).
Proof using Hpre. by intros s b s' [_ ->]%lift_Ok. Qed.
Lemma steps_gets {A} (f : S → A) : steps R (gets f).
Proof using Hpre. by intros s b s' [_ ->]%gets_Ok. Qed.
Lemma steps_modify (f : S → S) : (∀ s, R s (f s)) → steps R (modify f).
Proof. by intros H s b s' ->%modify_Ok. Qed.
Lemma steps_bind {A B} (m : M S A) (f : A → M S B) :
  steps R m → (∀ a, steps R (f a)) → steps R (m ≫= f).
Proof using Hpre. intros Hm Hf s b s' (a & s1 & H1 & H2)%Mbind_Ok. transitivity s1; [by eapply Hm|by eapply Hf]. Qed.
Lemma steps_for_each {A} (f : A → M S ()) l : (∀ x, steps R (f x)) → steps R (for_each f l).
Proof using Hpre. intros Hf. induction l; simpl; [apply steps_ret|by apply steps_bind]. Qed.
End steps.

(** [stepping] reduces a claim about a composed operation to its parts. *)
Ltac stepping :=
  repeat match goal with
  | |- steps _ (mbind _ _) => apply steps_bind; [typeclasses eauto| |intros ?]
  | |- steps _ (mret _) => apply steps_ret; typeclasses eauto
  | |- steps _ (lift _) => apply steps_lift; typeclasses eauto
  | |- steps _ (gets _) => apply steps_gets; typeclasses eauto
  | |- steps _ (for_each _ _) => apply steps_for_each; [typeclasses eauto|intros ?]
  | |- steps _ (if ?b then _ else _) => destruct b
  | |- steps _ (match ?o with _ => _ end) => destruct o
  end.

(** Triples: from a state in [P], [Q] holds of a result and [E] of the state
    an error leaves; of a panic nothing is said. *)
Definition hoare {S A} (P : S → Prop) (m : M S A) (Q : A → S → Prop) (E : S → Prop) : Prop :=
  ∀ s, P s → match m s with (Ok a, s') => Q a s' | (Err _, s') => E s' | (Panic _, _) => True end.

Section hoare.
Context {S : Type}.
Implicit Types P E I : S → Prop.

Lemma hoare_weaken {A} P P' (m : M S A) (Q Q' : A → S → Prop) E E' :
  hoare P m Q E → (∀ s, P' s → P s) → (∀ a s, Q a s → Q' a s) → (∀ s, E s → E' s) → hoare P' m Q' E'.
Proof.
  intros H HP HQ HE s Hs. specialize (H s (HP s Hs)). destruct (m s) as [[a|e|e] s']; auto.
Qed.
Lemma hoare_bind {A B} P (m : M S A) (f : A → M S B) Q R E :
  hoare P m Q E → (∀ a, hoare (Q a) (f a) R E) → hoare P (m ≫= f) R E.
Proof.
  intros Hm Hf s Hs. specialize (Hm s Hs). unfold mbind, M_bind. destruct (m s) as [[a|e|e] s']; [|done..].
  by apply Hf.
Qed.
Lemma hoare_gets {A} P (f : S → A) E : hoare P (gets f) (λ a s, P s ∧ a = f s) E.
Proof. by intros s Hs. Qed.
Lemma hoare_modify P (f : S → S) E : hoare (λ s, P (f s)) (modify f) (λ _ s, P s) E.
Proof. by intros s Hs. Qed.
Lemma hoare_lift {A} I (o : outcome A) : hoare I (lift o) (λ a s, I s ∧ o = Ok a) I.
Proof. intros s Hs. by destruct o. Qed.
Lemma hoare_ret {A} (a : A) (Q : A → S → Prop) E : hoare (Q a) (mret a) Q E.
Proof. by intros s Hs. Qed.
Lemma hoare_run_lift {A B} P (a : A) (f : A → M S B) Q E : hoare P (f a) Q E → hoare P (lift (Ok a) ≫= f) Q E.
Proof. done. Qed.
Lemma hoare_pure {A} (φ : Prop) P (m : M S A) Q E : (φ → hoare P m Q E) → hoare (λ s, P s ∧ φ) m Q E.
Proof. intros H s [Hs Hφ]. by apply H. Qed.
End hoare.
