(* ===== verification/GoStd.v ===== *)
(** * The parts of Go and its standard library the sources use

    Byte strings and their order, [strings.HasPrefix] and friends,
    [math/big.Int.SetString] and [String], machine integers, and [float64]
    restricted to the integer values that x/reward computes with. *)

From Stdlib Require Import ZArith Lia Ascii String.
From stdpp Require Import base tactics option list strings.
From S2P Require Import Prelude.

Local Open Scope Z_scope.

(** ** Byte strings *)
Module Str.

(** [a < b] on Go strings: bytewise lexicographic. *)
Definition ltb (a b : string) : bool := String.ltb a b.

Definition lt (a b : string) : Prop := ltb a b = true.

(** [strings.HasPrefix]. *)
Definition has_prefix (s p : string) : bool := String.prefix p s.

Fixpoint drop (n : nat) (s : string) : string :=
  match n, s with
  | O, _ => s
  | S n', String _ s' => drop n' s'
  | S _, EmptyString => ""
  end.

Fixpoint take (n : nat) (s : string) : string :=
  match n, s with
  | S n', String c s' => String c (take n' s')
  | _, _ => ""
  end.

(** [strings.HasSuffix]: the last [len(suffix)] bytes are [suffix]. *)
Definition has_suffix (s suf : string) : bool :=
  (String.length suf <=? String.length s)%nat &&
  String.eqb (drop (String.length s - String.length suf) s) suf.

(** [strings.TrimPrefix]. *)
Definition trim_prefix (s p : string) : string :=
  if has_prefix s p then drop (String.length p) s else s.

(** [strings.Contains]. *)
Fixpoint contains (s sub : string) : bool :=
  has_prefix s sub ||
  match s with
  | EmptyString => false
  | String _ s' => contains s' sub
  end.

(** [strings.Split] with a one-byte separator. *)
Fixpoint split (sep : ascii) (s : string) : list string :=
  match s with
  | EmptyString => [""]
  | String c s' =>
      if Ascii.eqb c sep then "" :: split sep s'
      else match split sep s' with
           | [] => [String c ""]
           | x :: l => String c x :: l
           end
  end.

(** [strings.Join]. *)
Fixpoint join (sep : string) (l : list string) : string :=
  match l with
  | [] => ""
  | [x] => x
  | x :: l' => x +:+ sep +:+ join sep l'
  end.

Definition byte (n : N) : ascii := ascii_of_N n.

(** The UTF-8 encodings of the code points [unicode.IsSpace] accepts. *)
Definition spaces : list string :=
  [ String (byte 9) ""; String (byte 10) ""; String (byte 11) "";
    String (byte 12) ""; String (byte 13) ""; " " ] ++
  ((λ n, String (byte 194) (String (byte n) "")) <$> [133; 160]%N) ++
  [String (byte 225) (String (byte 154) (String (byte 128) ""))] ++
  ((λ n, String (byte 226) (String (byte 128) (String (byte n) ""))) <$>
     [128; 129; 130; 131; 132; 133; 134; 135; 136; 137; 138; 168; 169; 175]%N) ++
  [String (byte 226) (String (byte 129) (String (byte 159) ""));
   String (byte 227) (String (byte 128) (String (byte 128) ""))].

Fixpoint trim_left_fuel (n : nat) (s : string) : string :=
  match n with
  | O => s
  | S n' =>
      match list_find (λ sp, has_prefix s sp = true) spaces with
      | Some (_, sp) => trim_left_fuel n' (drop (String.length sp) s)
      | None => s
      end
  end.

Fixpoint trim_right_fuel (n : nat) (s : string) : string :=
  match n with
  | O => s
  | S n' =>
      match list_find (λ sp, has_suffix s sp = true) spaces with
      | Some (_, sp) =>
          trim_right_fuel n' (take (String.length s - String.length sp) s)
      | None => s
      end
  end.

(** [strings.TrimSpace]; every round removes a byte, so the length is
    enough fuel. *)
Definition trim_space (s : string) : string :=
  let s' := trim_left_fuel (String.length s) s in
  trim_right_fuel (String.length s') s'.

Example trim_space_ex : trim_space (" " +:+ "10aeil" +:+ String (byte 10) "") = "10aeil".
Proof. reflexivity. Qed.

(** *** Facts *)

Lemma app_assoc a b c : (a +:+ b) +:+ c = a +:+ (b +:+ c).
Proof. induction a as [|x a IH]; [done|]. unfold String.append in *; fold String.append in *.
  by f_equal. Qed.

Lemma app_nil_r a : a +:+ "" = a.
Proof. induction a as [|x a IH]; [done|]. unfold String.append in *; fold String.append in *.
  by f_equal. Qed.

Lemma app_cons x a b : String x a +:+ b = String x (a +:+ b).
Proof. done. Qed.

Lemma length_app a b : String.length (a +:+ b) = (String.length a + String.length b)%nat.
Proof. induction a as [|x a IH]; [done|]. rewrite app_cons. simpl. by rewrite IH. Qed.

Lemma app_inj_l p a b : p +:+ a = p +:+ b → a = b.
Proof. induction p as [|x p IH]; [done|]. rewrite !app_cons. intros [=]. auto. Qed.

Lemma drop_app a b : drop (String.length a) (a +:+ b) = b.
Proof. induction a as [|x a IH]; [done|]. by rewrite app_cons. Qed.

Lemma take_app a b : take (String.length a) (a +:+ b) = a.
Proof. induction a as [|x a IH]; simpl; [by destruct b|]. by rewrite IH. Qed.

Lemma take_drop n s : take n s +:+ drop n s = s.
Proof.
  revert s. induction n as [|n IH]; intros [|c s]; simpl; try done.
  by rewrite app_cons, IH.
Qed.

Lemma has_prefix_spec s p : has_prefix s p = true ↔ ∃ r, s = p +:+ r.
Proof.
  unfold has_prefix. revert s. induction p as [|x p IH]; intros s.
  - split; [by exists s|]. by destruct s.
  - destruct s as [|y s]; simpl.
    + split; [done|]. by intros [r ?].
    + destruct (ascii_dec x y) as [->|Hne].
      * rewrite IH. split; intros [r Hr].
        -- exists r. by rewrite app_cons, Hr.
        -- rewrite app_cons in Hr. injection Hr as ->. by exists r.
      * split; [done|]. intros [r Hr]. rewrite app_cons in Hr. congruence.
Qed.

Lemma has_prefix_app p r : has_prefix (p +:+ r) p = true.
Proof. apply has_prefix_spec. eauto. Qed.

Lemma has_suffix_spec s suf : has_suffix s suf = true ↔ ∃ r, s = r +:+ suf.
Proof.
  unfold has_suffix. rewrite andb_true_iff, Nat.leb_le, String.eqb_eq. split.
  - intros [_ H]. exists (take (String.length s - String.length suf) s).
    rewrite <-(take_drop (String.length s - String.length suf) s) at 1. by rewrite H.
  - intros [r ->]. rewrite length_app. split; [lia|].
    replace (_ + _ - _)%nat with (String.length r) by lia. apply drop_app.
Qed.

Lemma trim_prefix_app p r : trim_prefix (p +:+ r) p = r.
Proof. unfold trim_prefix. by rewrite has_prefix_app, drop_app. Qed.

(** Two prefixes of one string are comparable. *)
Lemma prefix_comparable p q r r' :
  p +:+ r = q +:+ r' → has_prefix p q = true ∨ has_prefix q p = true.
Proof.
  rewrite !has_prefix_spec.
  revert q. induction p as [|x p IH]; intros q Heq.
  - right. by exists q.
  - destruct q as [|y q]; [left; by eexists|].
    rewrite !app_cons in Heq. injection Heq as -> Heq.
    destruct (IH q Heq) as [[z ->]|[z ->]]; [left|right]; by exists z.
Qed.

(** *** The order of byte strings *)

Lemma compare_refl a : (a ?= a)%string = Eq.
Proof.
  induction a as [|x a IH]; simpl; [done|].
  unfold Ascii.compare. by rewrite N.compare_refl.
Qed.

Lemma lt_irrefl a : ¬ lt a a.
Proof. unfold lt, ltb, String.ltb. by rewrite compare_refl. Qed.

Lemma lt_not_eq a b : lt a b → a ≠ b.
Proof. intros H ->. by apply lt_irrefl in H. Qed.

Lemma lt_trans a b c : lt a b → lt b c → lt a c.
Proof.
  unfold lt, ltb, String.ltb. revert b c.
  induction a as [|x a IH]; intros [|y b] [|z c]; simpl; try done.
  unfold Ascii.compare.
  destruct (N.compare_spec (N_of_ascii x) (N_of_ascii y)) as [E1|E1|E1]; try done;
  destruct (N.compare_spec (N_of_ascii y) (N_of_ascii z)) as [E2|E2|E2]; try done;
  destruct (N.compare_spec (N_of_ascii x) (N_of_ascii z)) as [E3|E3|E3]; try done;
  try lia. apply IH.
Qed.

Lemma lt_trichotomy a b : lt a b ∨ a = b ∨ lt b a.
Proof.
  unfold lt, ltb, String.ltb.
  rewrite (String.compare_antisym b a).
  destruct (a ?= b)%string eqn:E; simpl; auto.
  apply String.compare_eq_iff in E. auto.
Qed.

Lemma lt_asym a b : lt a b → ¬ lt b a.
Proof. intros H1 H2. apply (lt_irrefl a). by eapply lt_trans. Qed.

(** What [strings.Compare] returns, as a relation. *)
Lemma compare_spec a b :
  CompareSpec (a = b) (lt a b) (lt b a) (a ?= b)%string.
Proof.
  destruct (a ?= b)%string eqn:E; constructor.
  - by apply String.compare_eq_iff.
  - unfold lt, ltb, String.ltb. by rewrite E.
  - unfold lt, ltb, String.ltb. rewrite String.compare_antisym. by rewrite E.
Qed.

Lemma ltb_lt a b : ltb a b = true ↔ lt a b.
Proof. done. Qed.

Lemma leb_lt a b : String.leb a b = negb (ltb b a).
Proof.
  unfold String.leb, ltb, String.ltb. rewrite (String.compare_antisym b a).
  by destruct (a ?= b)%string.
Qed.

End Str.

(** ** Machine integers *)

Definition wrap64 (x : Z) : Z := (x + 2 ^ 63) mod 2 ^ 64 - 2 ^ 63.
Definition wrapu64 (x : Z) : Z := x mod 2 ^ 64.

Definition is_int64 (x : Z) : bool := (- 2 ^ 63 <=? x) && (x <? 2 ^ 63).
Definition is_uint64 (x : Z) : bool := (0 <=? x) && (x <? 2 ^ 64).

Lemma wrap64_id x : is_int64 x = true → wrap64 x = x.
Proof.
  unfold is_int64, wrap64. rewrite andb_true_iff, Z.leb_le, Z.ltb_lt.
  intros [? ?]. rewrite Z.mod_small; lia.
Qed.

Lemma wrap64_wrapu64 x : is_int64 x = true → wrap64 (wrapu64 x) = x.
Proof.
  intros H. rewrite <-(wrap64_id x H) at 2. unfold wrap64, wrapu64.
  by rewrite Z.add_mod_idemp_l by lia.
Qed.
Lemma wrapu64_id x : is_uint64 x = true → wrapu64 x = x.
Proof.
  unfold is_uint64, wrapu64. rewrite andb_true_iff, Z.leb_le, Z.ltb_lt.
  intros [? ?]. by apply Z.mod_small.
Qed.

(** ** [math/big.Int]: reading and printing *)
Module Big.

(** [BitLen] of the absolute value. *)
Definition bitlen (x : Z) : Z := if x =? 0 then 0 else Z.log2 (Z.abs x) + 1.

Lemma bitlen_le x n : 0 <= n → bitlen x <= n ↔ Z.abs x < 2 ^ n.
Proof.
  intros Hn. unfold bitlen. destruct (Z.eqb_spec x 0) as [->|Hx].
  - simpl. split; [|lia]. intros _. apply Z.pow_pos_nonneg; lia.
  - split; intros H.
    + apply Z.log2_lt_pow2; lia.
    + apply Z.log2_lt_pow2 in H; lia.
Qed.

Lemma bitlen_nonneg x : 0 <= bitlen x.
Proof. unfold bitlen. case_match; [lia|]. pose proof (Z.log2_nonneg (Z.abs x)). lia. Qed.

(** *** [SetString]

    The reader keeps the last character class seen, because an underscore is
    legal only after a digit, and only in base 0. *)
Inductive prev_char := PDot | PDigit | PSep.

Record scan_state := mkScan {
  sc_val : Z; sc_count : Z; sc_prev : prev_char; sc_inval : bool }.

Definition digit_val (c : ascii) : Z :=
  let n := Z.of_N (N_of_ascii c) in
  if (48 <=? n) && (n <=? 57) then n - 48
  else if (97 <=? n) && (n <=? 122) then n - 97 + 10
  else if (65 <=? n) && (n <=? 90) then n - 65 + 10
  else 63.

Definition is_digit_prev (p : prev_char) : bool :=
  match p with PDigit => true | _ => false end.

Fixpoint scan_loop (base0 : bool) (b : Z) (st : scan_state) (s : string)
    : scan_state * string :=
  match s with
  | EmptyString => (st, "")
  | String c r =>
      if base0 && Ascii.eqb c "_" then
        scan_loop base0 b
          (mkScan (sc_val st) (sc_count st) PSep
             (sc_inval st || negb (is_digit_prev (sc_prev st)))) r
      else
        let d := digit_val c in
        if b <=? d then (st, s)
        else scan_loop base0 b
               (mkScan (sc_val st * b + d) (sc_count st + 1) PDigit (sc_inval st)) r
  end.

(** The result of [nat.scan] without fractions: the value and what is left
    unread, or nothing for a syntax error. *)
Definition scan_finish (octal_prefix : bool) (res : scan_state * string)
    : option (Z * string) :=
  let '(st, rest) := res in
  let sep_err := sc_inval st || match sc_prev st with PSep => true | _ => false end in
  if sep_err then None
  else if sc_count st =? 0 then if octal_prefix then Some (0, rest) else None
  else Some (sc_val st, rest).

Definition nat_scan (base : Z) (s : string) : option (Z * string) :=
  let start p := mkScan 0 0 p false in
  if base =? 0 then
    match s with
    | String "0" EmptyString => scan_finish false (mkScan 0 1 PDigit false, "")
    | String "0" (String c r) =>
        if Ascii.eqb c "b" || Ascii.eqb c "B" then
          scan_finish false (scan_loop true 2 (start PDigit) r)
        else if Ascii.eqb c "o" || Ascii.eqb c "O" then
          scan_finish false (scan_loop true 8 (start PDigit) r)
        else if Ascii.eqb c "x" || Ascii.eqb c "X" then
          scan_finish false (scan_loop true 16 (start PDigit) r)
        else scan_finish true (scan_loop true 8 (start PDigit) (String c r))
    | _ => scan_finish false (scan_loop true 10 (start PDot) s)
    end
  else scan_finish false (scan_loop false base (start PDot) s).

(** [new(big.Int).SetString(s, base)]: an optional sign, a magnitude, and
    nothing after it. *)
Definition SetString (s : string) (base : Z) : option Z :=
  let go (neg : bool) (s : string) :=
    match nat_scan base s with
    | Some (v, EmptyString) => Some (if neg then - v else v)
    | _ => None
    end in
  match s with
  | EmptyString => None
  | String "-" r => go true r
  | String "+" r => go false r
  | _ => go false s
  end.

Example SetString_dec : SetString "-120" 0 = Some (-120).
Proof. reflexivity. Qed.
Example SetString_octal : SetString "0120" 0 = Some 80.
Proof. reflexivity. Qed.
Example SetString_hex : SetString "0x1_f" 0 = Some 31.
Proof. reflexivity. Qed.
Example SetString_bad : SetString "09" 0 = None ∧ SetString "1__0" 0 = None ∧
  SetString "" 0 = None ∧ SetString "-" 0 = None ∧ SetString "0120" 10 = Some 120.
Proof. repeat split; reflexivity. Qed.

(** *** [String] *)
Definition digit_char (d : Z) : ascii := ascii_of_N (Z.to_N (48 + d)).

Fixpoint print_aux (fuel : nat) (n : Z) (acc : string) : string :=
  match fuel with
  | O => acc
  | S f =>
      let acc' := String (digit_char (n mod 10)) acc in
      if n / 10 =? 0 then acc' else print_aux f (n / 10) acc'
  end.

(** A number has at most as many decimal digits as bits. *)
Definition print_nonneg (n : Z) : string := print_aux (S (Z.to_nat (Z.log2 n))) n "".

Definition to_string (z : Z) : string :=
  if z <? 0 then String "-" (print_nonneg (- z)) else print_nonneg z.

Example to_string_ex : to_string (-1000000) = "-1000000" ∧ to_string 0 = "0".
Proof. split; reflexivity. Qed.

(** *** Printing then reading *)

Lemma digit_char_code d : 0 <= d < 10 → Z.of_N (N_of_ascii (digit_char d)) = 48 + d.
Proof.
  intros H. unfold digit_char. rewrite N_ascii_embedding by lia. lia.
Qed.

Lemma digit_val_char d : 0 <= d < 10 → digit_val (digit_char d) = d.
Proof.
  intros H. unfold digit_val. rewrite digit_char_code by done.
  rewrite !(proj2 (Z.leb_le _ _)) by lia. simpl. lia.
Qed.

Lemma digit_char_neq d c : 0 <= d < 10 →
  (N_of_ascii c < 48 ∨ 57 < N_of_ascii c)%N → digit_char d ≠ c.
Proof. intros H Hc <-. pose proof (digit_char_code d H). lia. Qed.

Lemma scan_step base0 b st d r : 0 <= d < 10 → 10 <= b →
  scan_loop base0 b st (String (digit_char d) r) =
  scan_loop base0 b (mkScan (sc_val st * b + d) (sc_count st + 1) PDigit (sc_inval st)) r.
Proof.
  intros Hd Hb. simpl.
  destruct (Ascii.eqb_spec (digit_char d) "_") as [E|_].
  { exfalso. revert E. apply digit_char_neq; [done|]. right. done. }
  rewrite andb_false_r, digit_val_char by done.
  by rewrite (proj2 (Z.leb_gt _ _)) by lia.
Qed.

Lemma scan_print base0 fuel n acc st :
  0 <= n < 2 ^ Z.of_nat fuel → (0 < fuel)%nat →
  ∃ k, 1 <= k ∧
    scan_loop base0 10 st (print_aux fuel n acc) =
    scan_loop base0 10
      (mkScan (sc_val st * 10 ^ k + n) (sc_count st + k) PDigit (sc_inval st)) acc.
Proof.
  revert n acc st. induction fuel as [|f IH]; intros n acc st Hn Hf; [lia|].
  simpl. pose proof (Z.mod_pos_bound n 10 ltac:(lia)) as Hm.
  pose proof (Z.div_mod n 10 ltac:(lia)) as Hdm.
  destruct (Z.eqb_spec (n / 10) 0) as [E|E].
  - exists 1. split; [lia|]. rewrite scan_step by lia. do 2 f_equal. lia.
  - rewrite Nat2Z.inj_succ, Z.pow_succ_r in Hn by lia.
    assert (0 <= n / 10 < 2 ^ Z.of_nat f) as Hq.
    { split; [apply Z.div_pos; lia|]. apply Z.div_lt_upper_bound; lia. }
    destruct (IH (n / 10) (String (digit_char (n mod 10)) acc) st Hq) as (k & Hk & ->).
    { destruct f; [|lia]. simpl in Hq. lia. }
    exists (k + 1). split; [lia|]. rewrite scan_step by lia. do 2 f_equal; simpl; [|lia].
    rewrite Z.pow_add_r, Z.pow_1_r by lia. lia.
Qed.

Lemma print_fuel n : 0 <= n → n < 2 ^ Z.of_nat (S (Z.to_nat (Z.log2 n))).
Proof.
  intros Hn. rewrite Nat2Z.inj_succ, Z2Nat.id by apply Z.log2_nonneg.
  destruct (Z.eq_dec n 0) as [->|]; [done|]. apply Z.log2_spec. lia.
Qed.

(** The printed form starts with a digit, and with [0] only for zero. *)
Lemma print_head fuel n acc : 0 <= n < 2 ^ Z.of_nat fuel → (0 < fuel)%nat →
  ∃ d r, print_aux fuel n acc = String (digit_char d) r ∧ 0 <= d < 10 ∧
         (n <> 0 → d <> 0).
Proof.
  revert n acc. induction fuel as [|f IH]; intros n acc Hn Hf; [lia|].
  simpl. pose proof (Z.mod_pos_bound n 10 ltac:(lia)).
  pose proof (Z.div_mod n 10 ltac:(lia)).
  destruct (Z.eqb_spec (n / 10) 0) as [E|E].
  - exists (n mod 10), acc. split; [done|]. lia.
  - rewrite Nat2Z.inj_succ, Z.pow_succ_r in Hn by lia.
    assert (0 <= n / 10 < 2 ^ Z.of_nat f) as Hq.
    { split; [apply Z.div_pos; lia|]. apply Z.div_lt_upper_bound; lia. }
    destruct (IH (n / 10) (String (digit_char (n mod 10)) acc) Hq) as (d & r & -> & ? & ?).
    { destruct f; [|lia]. simpl in Hq. lia. }
    exists d, r. split; [done|]. auto.
Qed.

Lemma nat_scan_print base n : base = 0 ∨ base = 10 → 0 <= n →
  nat_scan base (print_nonneg n) = Some (n, "").
Proof.
  intros Hb Hn. destruct (Z.eq_dec n 0) as [->|Hn0].
  { destruct Hb as [-> | ->]; reflexivity. }
  unfold print_nonneg. pose proof (print_fuel n Hn) as Hlt.
  set (fuel := S _) in *. assert (0 < fuel)%nat as Hf by (unfold fuel; lia).
  clearbody fuel.
  assert (∀ base0 p, scan_finish false
     (scan_loop base0 10 (mkScan 0 0 p false) (print_aux fuel n "")) = Some (n, "")) as Hrun.
  { intros base0 p.
    destruct (scan_print base0 fuel n "" (mkScan 0 0 p false) (conj Hn Hlt) Hf)
      as (k & Hk & ->). simpl. by rewrite (proj2 (Z.eqb_neq _ _)) by lia. }
  unfold nat_scan. destruct Hb as [-> | ->]; [|apply Hrun]. simpl.
  destruct (print_head fuel n "" (conj Hn Hlt) Hf) as (d & r & Hpr & Hd & Hd0).
  rewrite Hpr in *.
  assert (∃ c, digit_char d = c ∧ c ≠ "0"%char) as (c & Hc & Hc0).
  { eexists; split; [done|]. intros E.
    pose proof (digit_char_code d Hd) as Hcode. rewrite E in Hcode.
    change (N_of_ascii "0"%char) with 48%N in Hcode. specialize (Hd0 Hn0). lia. }
  rewrite Hc in *. specialize (Hrun true PDot).
  destruct c as [[] [] [] [] [] [] [] []]; try exact Hrun. done.
Qed.

(** [SetString] reads back what [String] prints, in base 0 and in base 10. *)
Theorem SetString_to_string base z : base = 0 ∨ base = 10 →
  SetString (to_string z) base = Some z.
Proof.
  intros Hb. unfold to_string. destruct (Z.ltb_spec z 0) as [Hz|Hz].
  - unfold SetString. rewrite nat_scan_print by (done || lia). f_equal. lia.
  - pose proof (nat_scan_print base z Hb Hz) as Hs.
    destruct (print_head _ z "" (conj Hz (print_fuel z Hz)) ltac:(lia))
      as (d & r & Hpr & Hd & _).
    unfold print_nonneg in *. rewrite Hpr in *. unfold SetString.
    assert (digit_char d ≠ "-"%char ∧ digit_char d ≠ "+"%char) as [Hm Hp].
    { split; apply digit_char_neq; try done; left; done. }
    destruct (digit_char d) as [[] [] [] [] [] [] [] []]; first [done | by rewrite Hs].
Qed.

End Big.

(** ** [float64] on integer values

    x/reward only stores sums and differences of converted [int64] values in
    [float64] variables.  Such a value is an integer, so it is represented by
    that integer; every operation rounds its exact result to 53 significant
    bits, ties to even, as IEEE 754 prescribes. *)
Module F64.

(** Rounding of the quotient [num / den] of two non-negative integers. *)
Definition round_div (num den : Z) : Z :=
  let q := num / den in
  let r := num mod den in
  if (den <? 2 * r) || ((den =? 2 * r) && Z.odd q) then q + 1 else q.

Definition round (z : Z) : Z :=
  let a := Z.abs z in
  if a <? 2 ^ 53 then z
  else let e := Z.log2 a - 52 in Z.sgn z * (round_div a (2 ^ e) * 2 ^ e).

Definition of_int64 (x : Z) : Z := round x.
Definition add (a b : Z) : Z := round (a + b).
Definition sub (a b : Z) : Z := round (a - b).

(** The exponent of the last bit of the quotient [a / b]. *)
Definition div_exp (a b : Z) : Z :=
  let e0 := Z.log2 a - Z.log2 b - 52 in
  if a * 2 ^ (Z.max 0 (- e0)) <? b * 2 ^ (Z.max 0 e0) * 2 ^ 52 then e0 - 1 else e0.

(** [int64(a / b)] for [0 < b]: the quotient is rounded to 53 bits, then
    truncated toward zero. *)
Definition div_trunc (a b : Z) : Z :=
  let n := Z.abs a in
  if n =? 0 then 0
  else
    let e := div_exp n b in
    Z.sgn a *
    (if 0 <=? e then round_div n (b * 2 ^ e) * 2 ^ e
     else round_div (n * 2 ^ (- e)) b / 2 ^ (- e)).

(** [fmt.Sprintf("%f", x)] of an integer value. *)
Definition print (x : Z) : string := Big.to_string x +:+ ".000000".

Example div_trunc_ex : div_trunc 2500000 1000000 = 2 ∧ div_trunc 999999 1000000 = 0 ∧
  div_trunc (-1500000) 1000000 = -1.
Proof. repeat split; vm_compute; reflexivity. Qed.

Lemma round_small z : Z.abs z < 2 ^ 53 → round z = z.
Proof. intros H. unfold round. by rewrite (proj2 (Z.ltb_lt _ _)). Qed.

Lemma round_div_cases num den : 0 < den →
  round_div num den = num / den ∨
  (round_div num den = num / den + 1 ∧ den <= 2 * (num mod den)).
Proof.
  intros Hd. unfold round_div.
  destruct (Z.ltb_spec den (2 * (num mod den))); simpl; [right; lia|].
  destruct (Z.eqb_spec den (2 * (num mod den))); simpl; [|by left].
  destruct (Z.odd _); [right; lia|by left].
Qed.

(** With at least [k] fractional bits and [den < 2^(k+1)], rounding cannot
    reach the next integer. *)
Lemma round_div_trunc num den k : 0 <= num → 0 < den → 0 <= k → den < 2 ^ (k + 1) →
  round_div (num * 2 ^ k) den / 2 ^ k = num / den.
Proof.
  intros Hn Hd Hk Hden. rewrite Z.pow_add_r, Z.pow_1_r in Hden by lia.
  set (p := 2 ^ k) in *. assert (0 < p) as Hp by (apply Z.pow_pos_nonneg; lia).
  assert (num * p / den / p = num / den) as Hfl.
  { rewrite Z.div_div by lia. rewrite (Z.mul_comm den p).
    rewrite (Z.mul_comm num p). by rewrite Z.div_mul_cancel_l by lia. }
  destruct (round_div_cases (num * p) den Hd) as [->|[-> Hr]]; [done|].
  pose proof (Z.div_mod (num * p) den ltac:(lia)) as E1.
  pose proof (Z.mod_pos_bound (num * p) den Hd) as B1.
  set (q := num * p / den) in *. set (r := (num * p) mod den) in *.
  pose proof (Z.div_mod num den ltac:(lia)) as E2.
  pose proof (Z.mod_pos_bound num den Hd) as B2.
  set (n := num / den) in *. set (m := num mod den) in *.
  assert (q + 1 < (n + 1) * p) as Hlt.
  { (* num <= (n+1)*den - 1 *)
    assert (num <= (n + 1) * den - 1) as Hub by lia.
    assert (num * p <= ((n + 1) * den - 1) * p) by nia.
    assert (den * q + r <= (n + 1) * p * den - p) by nia.
    assert (2 * (den * (q + 1)) < 2 * ((n + 1) * p * den)) by nia.
    nia. }
  assert (n * p <= q) as Hge.
  { rewrite <-Hfl. pose proof (Z.mul_div_le q p Hp). lia. }
  symmetry. apply Z.div_unique with (q + 1 - n * p); lia.
Qed.

(** The number of RECs AddEnergy computes is the exact quotient while the
    accumulated energy is below 2^52 Wh. *)
Theorem div_trunc_exact a : 0 <= a < 2 ^ 52 → div_trunc a 1000000 = a / 1000000.
Proof.
  intros Ha. unfold div_trunc. rewrite Z.abs_eq by lia.
  destruct (Z.eqb_spec a 0) as [->|Ha0]; [done|].
  rewrite Z.sgn_pos, Z.mul_1_l by lia.
  assert (div_exp a 1000000 <= -19) as He.
  { unfold div_exp. change (Z.log2 1000000) with 19.
    assert (Z.log2 a < 52) by (apply Z.log2_lt_pow2; lia). case_match; lia. }
  rewrite (proj2 (Z.leb_gt _ _)) by lia.
  apply round_div_trunc; try lia.
  apply Z.lt_le_trans with (2 ^ 20); [done|]. apply Z.pow_le_mono_r; lia.
Qed.

End F64.

(** ** [base64.StdEncoding] *)
Module Base64.

Definition alphabet : string := "ABCDEFGHIJKLMNOPQRSTUVWXYZabcdefghijklmnopqrstuvwxyz0123456789+/".
Definition digit (n : N) : ascii := default "="%char (String.get (N.to_nat (N.land n 63)) alphabet).

Fixpoint EncodeToString (s : string) : string :=
  match s with
  | EmptyString => ""
  | String a EmptyString =>
      let v := N.shiftl (N_of_ascii a) 16 in
      String (digit (N.shiftr v 18)) (String (digit (N.shiftr v 12)) "==")
  | String a (String b EmptyString) =>
      let v := N.lor (N.shiftl (N_of_ascii a) 16) (N.shiftl (N_of_ascii b) 8) in
      String (digit (N.shiftr v 18)) (String (digit (N.shiftr v 12)) (String (digit (N.shiftr v 6)) "="))
  | String a (String b (String c s)) =>
      let v := N.lor (N.shiftl (N_of_ascii a) 16) (N.lor (N.shiftl (N_of_ascii b) 8) (N_of_ascii c)) in
      String (digit (N.shiftr v 18)) (String (digit (N.shiftr v 12)) (String (digit (N.shiftr v 6))
        (String (digit v) (EncodeToString s))))
  end.

Example encode_ex : EncodeToString "Many hands" = "TWFueSBoYW5kcw==" ∧ EncodeToString "go?" = "Z28/".
Proof. vm_compute. split; reflexivity. Qed.

End Base64.
