(* ===== verification/Float64.v ===== *)
(** * float64

    Go's [float64] as the IEEE binary64 values of the Standard Library
    ([SpecFloat], with round to nearest even), and the conversions the sources
    use.  Converting a value that the target cannot hold is left open by the
    language; here it is what amd64 does. *)

From Stdlib Require Import ZArith Lia Ascii String SpecFloat.
From stdpp Require Import base tactics option list strings.
From S2P Require Import Prelude GoStd.

Local Open Scope Z_scope.

Module Float64.

Abbreviation float64 := spec_float.

Definition prec : Z := 53.
Definition emax : Z := 1024.

(** [float64(z)]. *)
Definition of_Z (z : Z) : float64 := binary_normalize prec emax z 0 false.
Definition mul (a b : float64) : float64 := SFmul prec emax a b.
Definition div (a b : float64) : float64 := SFdiv prec emax a b.
(** A literal [num/den]: the nearest float64. *)
Definition lit (num den : Z) : float64 := div (of_Z num) (of_Z den).

(** [a <= b], false when one is not a number. *)
Definition leb (a b : float64) : bool := SFleb a b.

(** The integer part, towards zero; nothing for infinities and NaN. *)
Definition trunc (f : float64) : option Z :=
  match f with
  | S754_zero _ => Some 0
  | S754_finite s m e =>
      let a := if 0 <=? e then Z.pos m * 2 ^ e else Z.pos m / 2 ^ (- e) in
      Some (if s then - a else a)
  | _ => None
  end.

(** [math.Round] followed by the conversion: half away from zero. *)
Definition round (f : float64) : option Z :=
  match f with
  | S754_zero _ => Some 0
  | S754_finite s m e =>
      let a := if 0 <=? e then Z.pos m * 2 ^ e else (2 * Z.pos m + 2 ^ (- e)) / 2 ^ (- e + 1) in
      Some (if s then - a else a)
  | _ => None
  end.

(** ** strconv.ParseFloat *)

(** The float64 nearest to [num/den]: the quotient to more than 64 bits with
    a last bit for what is left, rounded once. *)
Definition of_ratio (neg : bool) (num den : Z) : float64 :=
  let s := Z.max 0 (70 + Z.log2 den - Z.log2 num) in
  let '(q, r) := Z.div_eucl (num * 2 ^ s) den in
  let m := 2 * q + (if r =? 0 then 0 else 1) in
  if m =? 0 then S754_zero neg
  else binary_normalize prec emax (if neg then - m else m) (- s - 1) neg.

Definition lower (c : ascii) : ascii :=
  let n := N_of_ascii c in if (65 <=? n)%N && (n <=? 90)%N then ascii_of_N (n + 32) else c.
Fixpoint eq_fold (s t : string) : bool :=
  match s, t with
  | EmptyString, EmptyString => true
  | String a s, String b t => Ascii.eqb (lower a) b && eq_fold s t
  | _, _ => false
  end.
Definition digit_val (base : Z) (c : ascii) : option Z :=
  let n := Z.of_N (N_of_ascii (lower c)) in
  if (48 <=? n) && (n <=? 57) then Some (n - 48)
  else if (base =? 16) && (97 <=? n) && (n <=? 102) then Some (n - 87)
  else None.

(** The digits of the mantissa: value, how many, how many after the point. *)
Record mantissa := mkMantissa { m_val : Z; m_digits : bool; m_frac : Z; m_dot : bool; m_under : bool }.
Fixpoint read_mantissa (base : Z) (s : string) (m : mantissa) : mantissa * string :=
  match s with
  | EmptyString => (m, "")
  | String c r =>
      if Ascii.eqb c "_" then read_mantissa base r (mkMantissa (m_val m) (m_digits m) (m_frac m) (m_dot m) true)
      else if Ascii.eqb c "." then
        if m_dot m then (m, s) else read_mantissa base r (mkMantissa (m_val m) (m_digits m) (m_frac m) true (m_under m))
      else match digit_val base c with
           | Some d => read_mantissa base r (mkMantissa (m_val m * base + d) true
                         (if m_dot m then m_frac m + 1 else m_frac m) (m_dot m) (m_under m))
           | None => (m, s)
           end
  end.
(** The digits of the exponent, which stops growing at 10000. *)
Fixpoint read_exp (s : string) (e : Z) (under : bool) : Z * bool * string :=
  match s with
  | EmptyString => (e, under, "")
  | String c r =>
      if Ascii.eqb c "_" then read_exp r e true
      else match digit_val 10 c with
           | Some d => read_exp r (if e <? 10000 then e * 10 + d else e) under
           | None => (e, under, s)
           end
  end.

(** Underscores separate digits, or follow a base prefix.  [i] is what was
    seen: the start, a digit, an underscore, another character. *)
Inductive seen := SStart | SDigit | SUnder | SOther.
Fixpoint underscore_loop (hex : bool) (s : string) (i : seen) : bool :=
  match s with
  | EmptyString => match i with SUnder => false | _ => true end
  | String c r =>
      match digit_val (if hex then 16 else 10) c with
      | Some _ => underscore_loop hex r SDigit
      | None =>
          if Ascii.eqb c "_" then match i with SDigit => underscore_loop hex r SUnder | _ => false end
          else match i with SUnder => false | _ => underscore_loop hex r SOther end
      end
  end.
Definition cut_sign (s : string) : bool * string :=
  match s with
  | String "-" r => (true, r)
  | String "+" r => (false, r)
  | _ => (false, s)
  end.
Definition underscoreOK (s : string) : bool :=
  match (cut_sign s).2 with
  | String "0" (String c r as t) =>
      let c := lower c in
      if Ascii.eqb c "b" || Ascii.eqb c "o" || Ascii.eqb c "x" then underscore_loop (Ascii.eqb c "x") r SDigit
      else underscore_loop false (String "0" t) SStart
  | t => underscore_loop false t SStart
  end.

Definition readFloat (s : string) : option float64 :=
  let '(neg, t) := cut_sign s in
  let '(base, t) := match t with
                    | String "0" (String c (String _ _ as r)) => if Ascii.eqb (lower c) "x" then (16, r) else (10, t)
                    | _ => (10, t)
                    end in
  let '(m, t) := read_mantissa base t (mkMantissa 0 false 0 false false) in
  if negb (m_digits m) then None
  else
    let exp := match t with
               | String c r =>
                   if Ascii.eqb (lower c) (if base =? 16 then "p" else "e") then
                     let '(eneg, r) := cut_sign r in
                     match r with
                     | String d _ => match digit_val 10 d with
                                     | Some _ => let '(e, u, rest) := read_exp r 0 false in Some (if eneg then - e else e, u, rest)
                                     | None => None
                                     end
                     | EmptyString => None
                     end
                   else if base =? 16 then None else Some (0, false, t)
               | EmptyString => if base =? 16 then None else Some (0, false, t)
               end in
    match exp with
    | Some (e, u, EmptyString) =>
        if (m_under m || u) && negb (underscoreOK s) then None
        else
          let '(b, e) := if base =? 16 then (2, e - 4 * m_frac m) else (10, e - m_frac m) in
          Some (if 0 <=? e then of_ratio neg (m_val m * b ^ e) 1 else of_ratio neg (m_val m) (b ^ (- e)))
    | _ => None
    end.

(** The value alone: zero after a syntax error, an infinity out of range. *)
Definition ParseFloat (s : string) : float64 :=
  let '(neg, t) := cut_sign s in
  if eq_fold t "inf" || eq_fold t "infinity" then S754_infinity neg
  else if eq_fold s "nan" then S754_nan
  else default (S754_zero false) (readFloat s).

Definition minInt64 : Z := - 2 ^ 63.

(** [int64(x)] of an integral value. *)
Definition to_int64 (o : option Z) : Z :=
  match o with Some z => if is_int64 z then z else minInt64 | None => minInt64 end.

(** [uint64(x)]. *)
Definition to_uint64 (o : option Z) : Z :=
  match o with
  | Some z => if is_int64 z then wrapu64 z else if is_uint64 z then z else 2 ^ 63
  | None => 2 ^ 63
  end.

(** ** Examples *)

Lemma trunc_ex : map trunc [of_Z 0; of_Z 7; mul (of_Z 100000) (lit 13 10); lit 7 2; lit (-7) 2; of_Z (2 ^ 53 + 1); div (of_Z 1) (of_Z 0)] =
  [Some 0; Some 7; Some 130000; Some 3; Some (-3); Some (2 ^ 53); None].
Proof. vm_compute. reflexivity. Qed.
Lemma round_ex : map round [lit 5 2; lit (-5) 2; lit 24 10; of_Z 12; lit 1 2; lit 499999999999999944 1000000000000000000] =
  [Some 3; Some (-3); Some 2; Some 12; Some 1; Some 0].
Proof. vm_compute. reflexivity. Qed.

Lemma ParseFloat_ex :
  map (λ s, to_int64 (round (mul (ParseFloat s) (of_Z 1000000))))
    ["1"; "0.5"; "1.234567"; "1e-6"; "-2.5"; "1_000.5"; "_1"; "0x1p-1"; "0x1.8"; "abc"; ""; "1e400"; ".25"; "12."; "1e"] =
  [1000000; 500000; 1234567; 1; -2500000; 1000500000; 0; 500000; 0; 0; 0; minInt64; 250000; 12000000; 0] ∧
  map (λ s, ParseFloat s) ["0.1"; "1e23"; "-0"; "+Inf"; "NaN"; "4.9e-324"; "2e-324"] =
  [lit 1 10; S754_finite false 5960464477539062 24; S754_zero true; S754_infinity false; S754_nan;
   S754_finite false 1 (-1074); S754_zero false].
Proof. vm_compute. split; reflexivity. Qed.

(** The gas of a simulation fits. *)
Lemma to_uint64_range o : 0 <= to_uint64 o < 2 ^ 64.
Proof.
  unfold to_uint64. destruct o as [z|]; [|lia]. destruct (is_int64 z) eqn:E1.
  - unfold wrapu64. apply Z.mod_pos_bound. lia.
  - destruct (is_uint64 z) eqn:E2; [|lia]. unfold is_uint64 in E2. lia.
Qed.

Lemma to_int64_range o : - 2 ^ 63 <= to_int64 o < 2 ^ 63.
Proof.
  unfold to_int64, minInt64. destruct o as [z|]; [|lia]. destruct (is_int64 z) eqn:E1; [|lia].
  unfold is_int64 in E1. lia.
Qed.

End Float64.
