(* ===== verification/Digits.v ===== *)
(** * Decimal digit strings

    The value of a string of decimal digits, how it is read by
    [big.Int.SetString], printed by [big.Int.String], padded by [fmt.Sprintf]
    and ordered bytewise. *)

From Stdlib Require Import ZArith Lia Ascii String.
From stdpp Require Import base tactics option list strings.
From S2P Require Import Prelude GoStd.

Local Open Scope Z_scope.

(** Every byte of a string satisfies a predicate. *)
Fixpoint sforall (P : ascii → bool) (s : string) : bool :=
  match s with
  | EmptyString => true
  | String c r => P c && sforall P r
  end.

Definition is_digit (c : ascii) : bool :=
  let n := Z.of_N (N_of_ascii c) in (48 <=? n) && (n <=? 57).

Definition digits (s : string) : bool := sforall is_digit s.

Definition dval (c : ascii) : Z := Z.of_N (N_of_ascii c) - 48.

Fixpoint dec_val (acc : Z) (s : string) : Z :=
  match s with
  | EmptyString => acc
  | String c r => dec_val (acc * 10 + dval c) r
  end.

(** [fmt.Sprintf] with the verb [%0<n>s] on the empty string. *)
Fixpoint zeros (n : nat) : string :=
  match n with O => "" | S n' => String "0" (zeros n') end.

(** [fmt.Sprintf("%0<n>s", s)]: zero-padding on the left to width [n]. *)
Definition pad0 (n : nat) (s : string) : string :=
  zeros (n - String.length s) +:+ s.

Lemma sforall_app P a b : sforall P (a +:+ b) = sforall P a && sforall P b.
Proof.
  induction a as [|c a IH]; [done|]. rewrite Str.app_cons. simpl.
  by rewrite IH, andb_assoc.
Qed.

Lemma sforall_impl (P Q : ascii → bool) s :
  (∀ c, P c = true → Q c = true) → sforall P s = true → sforall Q s = true.
Proof.
  intros H. induction s as [|c s IH]; simpl; [done|].
  rewrite !andb_true_iff. naive_solver.
Qed.

Lemma sforall_take_drop P n s : sforall P s = true →
  sforall P (Str.take n s) = true ∧ sforall P (Str.drop n s) = true.
Proof.
  intros H. rewrite <-(Str.take_drop n s), sforall_app, andb_true_iff in H. done.
Qed.

Lemma dec_val_app acc a b : dec_val acc (a +:+ b) = dec_val (dec_val acc a) b.
Proof.
  revert acc. induction a as [|c a IH]; intros acc; [done|].
  rewrite Str.app_cons. simpl. apply IH.
Qed.

Lemma dec_val_lin acc s :
  dec_val acc s = acc * 10 ^ Z.of_nat (String.length s) + dec_val 0 s.
Proof.
  revert acc. induction s as [|c s IH]; intros acc; [simpl; lia|].
  cbn [dec_val]. rewrite IH, (IH (0 * 10 + dval c)).
  change (String.length (String c s)) with (S (String.length s)).
  rewrite Nat2Z.inj_succ, Z.pow_succ_r by lia. lia.
Qed.

Lemma is_digit_dval c : is_digit c = true → 0 <= dval c < 10.
Proof. unfold is_digit, dval. rewrite andb_true_iff, !Z.leb_le. lia. Qed.

Lemma is_digit_char c : is_digit c = true → c = Big.digit_char (dval c).
Proof.
  intros H. pose proof (is_digit_dval c H) as Hd. unfold Big.digit_char.
  replace (48 + dval c) with (Z.of_N (N_of_ascii c)) by (unfold dval; lia).
  by rewrite N2Z.id, ascii_N_embedding.
Qed.

Lemma digit_char_is_digit d : 0 <= d < 10 → is_digit (Big.digit_char d) = true.
Proof.
  intros H. unfold is_digit. rewrite Big.digit_char_code by done.
  rewrite andb_true_iff, !Z.leb_le. lia.
Qed.

Lemma dval_digit_char d : 0 <= d < 10 → dval (Big.digit_char d) = d.
Proof. intros H. unfold dval. rewrite Big.digit_char_code by done. lia. Qed.

(** A digit is none of the bytes outside ['0'..'9']. *)
Lemma is_digit_neq c d : is_digit c = true → is_digit d = false → c ≠ d.
Proof. intros H1 H2 ->. congruence. Qed.

Lemma zeros_length n : String.length (zeros n) = n.
Proof. induction n; simpl; auto. Qed.

Lemma zeros_digits n : digits (zeros n) = true.
Proof. induction n; simpl; auto. Qed.

Lemma dec_val_zeros n : dec_val 0 (zeros n) = 0.
Proof. induction n; simpl; auto. Qed.

Lemma dec_val_zeros_acc n acc : dec_val acc (zeros n) = acc * 10 ^ Z.of_nat n.
Proof.
  revert acc. induction n as [|n IH]; intros acc; [simpl; lia|].
  rewrite Nat2Z.inj_succ, Z.pow_succ_r by lia.
  change (zeros (S n)) with (String "0" (zeros n)).
  change (dec_val acc (String "0" (zeros n))) with (dec_val (acc * 10 + 0) (zeros n)).
  rewrite IH. lia.
Qed.

(** Reading. *)
Lemma scan_digits base0 s st : digits s = true → s ≠ "" →
  Big.scan_loop base0 10 st s =
  (Big.mkScan (dec_val (Big.sc_val st) s)
     (Big.sc_count st + Z.of_nat (String.length s)) Big.PDigit (Big.sc_inval st), "").
Proof.
  revert st. induction s as [|c s IH]; intros st Hd Hne; [done|].
  simpl in Hd. apply andb_true_iff in Hd as [Hc Hd].
  rewrite (is_digit_char c Hc) at 1. rewrite Big.scan_step by (by apply is_digit_dval || lia).
  destruct s as [|c' s'].
  - done.
  - rewrite IH by done. cbn [dec_val Big.sc_val Big.sc_count Big.sc_inval].
    do 2 f_equal. simpl String.length. lia.
Qed.

Lemma SetString_digits s : digits s = true → s ≠ "" →
  Big.SetString s 10 = Some (dec_val 0 s).
Proof.
  intros Hd Hne.
  assert (Big.nat_scan 10 s = Some (dec_val 0 s, "")) as Hs.
  { unfold Big.nat_scan. simpl. rewrite scan_digits by done. simpl.
    rewrite (proj2 (Z.eqb_neq _ _)); [done|]. destruct s; [done|]. simpl. lia. }
  destruct s as [|c s]; [done|]. simpl in Hd. apply andb_true_iff in Hd as [Hc _].
  assert (c ≠ "-"%char ∧ c ≠ "+"%char) as [Hm Hp].
  { split; by apply is_digit_neq. }
  unfold Big.SetString.
  destruct c as [[] [] [] [] [] [] [] []]; first [done | by rewrite Hs].
Qed.

(** Printing. *)
Lemma print_aux_spec fuel n acc : 0 <= n < 2 ^ Z.of_nat fuel → (0 < fuel)%nat →
  ∃ t, Big.print_aux fuel n acc = t +:+ acc ∧ digits t = true ∧ dec_val 0 t = n ∧ t ≠ "".
Proof.
  revert n acc. induction fuel as [|f IH]; intros n acc Hn Hf; [lia|].
  simpl. pose proof (Z.mod_pos_bound n 10 ltac:(lia)) as Hm.
  pose proof (Z.div_mod n 10 ltac:(lia)) as Hdm.
  destruct (Z.eqb_spec (n / 10) 0) as [E|E].
  - exists (String (Big.digit_char (n mod 10)) ""). unfold digits. cbn [sforall dec_val].
    rewrite digit_char_is_digit, dval_digit_char by done. split_and!; (done || lia).
  - rewrite Nat2Z.inj_succ, Z.pow_succ_r in Hn by lia.
    assert (0 <= n / 10 < 2 ^ Z.of_nat f) as Hq.
    { split; [apply Z.div_pos; lia|]. apply Z.div_lt_upper_bound; lia. }
    destruct (IH (n / 10) (String (Big.digit_char (n mod 10)) acc) Hq)
      as (t & -> & Ht & Hv & Hne).
    { destruct f; [|lia]. simpl in Hq. lia. }
    exists (t +:+ String (Big.digit_char (n mod 10)) "").
    rewrite Str.app_assoc. split; [done|]. unfold digits in *.
    rewrite sforall_app, Ht, dec_val_app, Hv. cbn [sforall dec_val].
    rewrite digit_char_is_digit, dval_digit_char by done.
    split_and!; [done|lia|]. by destruct t.
Qed.

Lemma print_nonneg_spec n : 0 <= n →
  digits (Big.print_nonneg n) = true ∧ dec_val 0 (Big.print_nonneg n) = n ∧
  Big.print_nonneg n ≠ "".
Proof.
  intros Hn. destruct (print_aux_spec _ n "" (conj Hn (Big.print_fuel n Hn)) ltac:(lia))
    as (t & Ht & ?). unfold Big.print_nonneg. rewrite Ht, Str.app_nil_r. done.
Qed.

Lemma to_string_nonneg n : 0 <= n → Big.to_string n = Big.print_nonneg n.
Proof. intros H. unfold Big.to_string. by rewrite (proj2 (Z.ltb_ge _ _)). Qed.

(** A digit string without leading zero, of value below [10 ^ n], has at most
    [n] digits. *)
Lemma dec_val_bound acc s : digits s = true →
  acc * 10 ^ Z.of_nat (String.length s) <= dec_val acc s <
  (acc + 1) * 10 ^ Z.of_nat (String.length s).
Proof.
  revert acc. induction s as [|c s IH]; intros acc Hd; [simpl; lia|].
  simpl in Hd. apply andb_true_iff in Hd as [Hc Hd]. apply is_digit_dval in Hc.
  specialize (IH (acc * 10 + dval c) Hd). cbn [dec_val].
  change (String.length (String c s)) with (S (String.length s)).
  rewrite Nat2Z.inj_succ, Z.pow_succ_r by lia.
  pose proof (Z.pow_pos_nonneg 10 (Z.of_nat (String.length s)) ltac:(lia) ltac:(lia)).
  nia.
Qed.

(** ** Splitting at a separator *)
Lemma split_none sep s : sforall (λ c, negb (Ascii.eqb c sep)) s = true →
  Str.split sep s = [s].
Proof.
  induction s as [|c s IH]; simpl; [done|]. rewrite andb_true_iff, negb_true_iff.
  intros [-> H]. by rewrite IH.
Qed.

Lemma split_app sep a b : sforall (λ c, negb (Ascii.eqb c sep)) a = true →
  Str.split sep (a +:+ String sep b) = a :: Str.split sep b.
Proof.
  induction a as [|c a IH]; intros H; simpl.
  - by rewrite Ascii.eqb_refl.
  - simpl in H. apply andb_true_iff in H as [Hc H]. apply negb_true_iff in Hc.
    rewrite Hc, IH by done. done.
Qed.

Lemma digits_no_sep sep s : is_digit sep = false → digits s = true →
  sforall (λ c, negb (Ascii.eqb c sep)) s = true.
Proof.
  intros Hsep. apply sforall_impl. intros c Hc. apply negb_true_iff.
  apply Ascii.eqb_neq. by apply is_digit_neq.
Qed.

(** ** Bytewise order of digit strings of one length *)
Lemma digits_order a b : String.length a = String.length b →
  digits a = true → digits b = true → dec_val 0 a < dec_val 0 b → Str.lt a b.
Proof.
  intros Hl Ha Hb. assert (∀ acc acc', acc <= acc' → acc' <= acc →
    dec_val acc a < dec_val acc' b → Str.lt a b) as Hgen; [|by apply Hgen].
  revert b Hl Ha Hb. induction a as [|x a IH]; intros [|y b] Hl Ha Hb acc acc' H1 H2 Hv;
    simpl in *; try done; [lia|].
  apply andb_true_iff in Ha as [Hx Ha], Hb as [Hy Hb]. injection Hl as Hl.
  pose proof (dec_val_bound (acc * 10 + dval x) a Ha) as Hba.
  pose proof (dec_val_bound (acc' * 10 + dval y) b Hb) as Hbb. rewrite Hl in Hba.
  pose proof (Z.pow_pos_nonneg 10 (Z.of_nat (String.length b)) ltac:(lia) ltac:(lia)).
  assert (dval x <= dval y) as Hle by nia.
  unfold Str.lt, Str.ltb, String.ltb. simpl. unfold Ascii.compare, dval in *.
  destruct (N.compare_spec (N_of_ascii x) (N_of_ascii y)) as [E|E|E]; [|done|lia].
  assert (acc = acc') as -> by lia. rewrite E in Hv.
  apply (IH b Hl Ha Hb (acc' * 10 + dval y) (acc' * 10 + dval y)); try lia.
  unfold dval. done.
Qed.

(** A common prefix does not change the order. *)
Lemma lt_app_l p a b : Str.lt (p +:+ a) (p +:+ b) ↔ Str.lt a b.
Proof.
  unfold Str.lt, Str.ltb, String.ltb. induction p as [|c p IH]; [done|].
  rewrite !Str.app_cons. simpl. unfold Ascii.compare. rewrite N.compare_refl. apply IH.
Qed.

(** Strings that differ in a prefix of equal length are ordered by it. *)
Lemma lt_app_r a b x y : String.length a = String.length b → Str.lt a b →
  Str.lt (a +:+ x) (b +:+ y).
Proof.
  unfold Str.lt, Str.ltb, String.ltb.
  revert b. induction a as [|c a IH]; intros [|d b] Hl; try done.
  rewrite !Str.app_cons. simpl. injection Hl as Hl. unfold Ascii.compare.
  destruct (N.compare_spec (N_of_ascii c) (N_of_ascii d)); try done. by apply IH.
Qed.

(** Digit strings of one length with one value are equal. *)
Lemma digits_inj a b : String.length a = String.length b →
  digits a = true → digits b = true → dec_val 0 a = dec_val 0 b → a = b.
Proof.
  intros Hl Ha Hb. generalize 0. revert b Hl Ha Hb.
  induction a as [|x a IH]; intros [|y b] Hl Ha Hb acc Hv; simpl in *; try done.
  apply andb_true_iff in Ha as [Hx Ha], Hb as [Hy Hb]. injection Hl as Hl.
  pose proof (dec_val_bound (acc * 10 + dval x) a Ha) as Hba.
  pose proof (dec_val_bound (acc * 10 + dval y) b Hb) as Hbb. rewrite Hl in Hba.
  pose proof (Z.pow_pos_nonneg 10 (Z.of_nat (String.length b)) ltac:(lia) ltac:(lia)).
  assert (dval x = dval y) as E by nia.
  rewrite E in Hv. f_equal; [|by eapply IH].
  rewrite (is_digit_char x Hx), (is_digit_char y Hy). by rewrite E.
Qed.

Lemma print_nonneg_length n k : 0 <= n < 10 ^ Z.of_nat k → (0 < k)%nat →
  (String.length (Big.print_nonneg n) <= k)%nat.
Proof.
  intros Hn Hk. destruct (Z.eq_dec n 0) as [->|Hn0]; [simpl; lia|].
  destruct (print_nonneg_spec n ltac:(lia)) as (Hd & Hv & _).
  destruct (Big.print_head _ n "" (conj (proj1 Hn) (Big.print_fuel n (proj1 Hn))) ltac:(lia))
    as (d & r & Hpr & Hdr & Hne).
  unfold Big.print_nonneg in *. rewrite Hpr in *. unfold digits in Hd. simpl in Hd.
  apply andb_true_iff in Hd as [_ Hd]. cbn [dec_val] in Hv.
  rewrite dval_digit_char in Hv by done.
  pose proof (dec_val_bound (0 * 10 + d) r Hd) as [Hlo _].
  change (String.length (String (Big.digit_char d) r)) with (S (String.length r)).
  destruct (Nat.le_gt_cases (S (String.length r)) k) as [|Hgt]; [done|exfalso].
  assert (10 ^ Z.of_nat k <= 10 ^ Z.of_nat (String.length r)) as Hp
    by (apply Z.pow_le_mono_r; lia).
  specialize (Hne Hn0). nia.
Qed.

Lemma length_take_drop n s : (n <= String.length s)%nat →
  String.length (Str.take n s) = n ∧
  String.length (Str.drop n s) = (String.length s - n)%nat.
Proof.
  revert s. induction n as [|n IH]; intros [|c s] H; simpl in *; try lia.
  destruct (IH s ltac:(lia)). lia.
Qed.

Lemma pad0_digits n s : digits s = true → digits (pad0 n s) = true.
Proof. intros H. unfold pad0, digits in *. rewrite sforall_app, H. by rewrite zeros_digits. Qed.

Lemma dec_val_pad0 n s : dec_val 0 (pad0 n s) = dec_val 0 s.
Proof. unfold pad0. by rewrite dec_val_app, dec_val_zeros. Qed.

Lemma pad0_length n s : (String.length s <= n)%nat → String.length (pad0 n s) = n.
Proof. intros H. unfold pad0. rewrite Str.length_app, zeros_length. lia. Qed.

(** A byte string starting with a dash precedes one starting with a digit. *)
Lemma digit_after_dash c s r : is_digit c = true → Str.lt (String "-" r) (String c s).
Proof.
  unfold is_digit. rewrite andb_true_iff, !Z.leb_le. intros Hc.
  unfold Str.lt, Str.ltb, String.ltb. simpl. unfold Ascii.compare.
  rewrite (proj2 (N.compare_lt_iff _ _)); [done|]. change (N_of_ascii "-") with 45%N. lia.
Qed.
