(* ===== verification/SdkInt.v ===== *)
(** * types/int.go: the 256-bit integer [Int]

    An [Int] is modelled by the integer it holds; every operation of the
    source either returns such an integer or panics.  The nil [Int] that
    [NewIntFromString] leaves behind on failure is the [None] of its result. *)

From Stdlib Require Import ZArith Lia Ascii String.
From stdpp Require Import base tactics option list strings.
From S2P Require Import Prelude GoStd.

Local Open Scope Z_scope.

Module Int.

Definition maxBitLen : Z := 256.

(** The invariant of the type: -(2^256 - 1) .. 2^256 - 1. *)
Definition valid (i : Z) : Prop := Z.abs i < 2 ^ 256.

Definition overflows (i : Z) : bool := maxBitLen <? Big.bitlen i.

Definition NewInt (n : Z) : Z := n.
Definition ZeroInt : Z := 0.
Definition OneInt : Z := 1.

Definition NewIntFromBigInt (i : Z) : outcome Z :=
  if overflows i then Panic "NewIntFromBigInt() out of bound" else Ok i.

Definition NewIntFromString (s : string) : option Z :=
  match Big.SetString s 0 with
  | None => None
  | Some i => if overflows i then None else Some i
  end.

Definition NewIntWithDecimal (n dec : Z) : outcome Z :=
  if dec <? 0 then Panic "NewIntWithDecimal() decimal is negative"
  else
    let i := n * 10 ^ dec in
    if overflows i then Panic "NewIntWithDecimal() out of bound" else Ok i.

Definition Int64 (i : Z) : outcome Z :=
  if negb (is_int64 i) then Panic "Int64() out of bound" else Ok i.

Definition Uint64 (i : Z) : outcome Z :=
  if negb (is_uint64 i) then Panic "Uint64() out of bounds" else Ok i.

Definition IsZero (i : Z) : bool := Z.sgn i =? 0.
Definition IsNegative (i : Z) : bool := Z.sgn i =? -1.
Definition IsPositive (i : Z) : bool := Z.sgn i =? 1.
Definition Sign (i : Z) : Z := Z.sgn i.

Definition Equal (i i2 : Z) : bool := i =? i2.
Definition GT (i i2 : Z) : bool := i2 <? i.
Definition GTE (i i2 : Z) : bool := i2 <=? i.
Definition LT (i i2 : Z) : bool := i <? i2.
Definition LTE (i i2 : Z) : bool := i <=? i2.

Definition Add (i i2 : Z) : outcome Z :=
  let res := i + i2 in
  if overflows res then Panic "Int overflow" else Ok res.

Definition Sub (i i2 : Z) : outcome Z :=
  let res := i - i2 in
  if overflows res then Panic "Int overflow" else Ok res.

Definition Mul (i i2 : Z) : outcome Z :=
  if maxBitLen <? Big.bitlen i + Big.bitlen i2 - 1 then Panic "Int overflow"
  else
    let res := i * i2 in
    if overflows res then Panic "Int overflow" else Ok res.

(** [big.Int.Quo] truncates toward zero. *)
Definition Quo (i i2 : Z) : outcome Z :=
  if Z.sgn i2 =? 0 then Panic "Division by zero" else Ok (Z.quot i i2).

(** [big.Int.Mod] is the Euclidean modulus: never negative. *)
Definition Mod (i i2 : Z) : outcome Z :=
  if Sign i2 =? 0 then Panic "division-by-zero" else Ok (i mod Z.abs i2).

Definition Neg (i : Z) : Z := - i.
Definition Abs (i : Z) : Z := Z.abs i.

Definition MinInt (i1 i2 : Z) : Z := if i2 <? i1 then i2 else i1.
Definition MaxInt (i i2 : Z) : Z := if i <? i2 then i2 else i.

(** [String] and the protobuf text form [Marshal] are the decimal text. *)
Definition to_String (i : Z) : string := Big.to_string i.
Definition Marshal (i : Z) : string := Big.to_string i.

(** [Unmarshal]; on empty input the receiver keeps its value, here the nil
    [Int] of a fresh variable. *)
Definition Unmarshal (data : string) : outcome (option Z) :=
  match data with
  | EmptyString => Ok None
  | _ =>
      match Big.SetString data 0 with
      | None => Err "math/big: cannot unmarshal into a *big.Int"
      | Some i => if overflows i then Err "integer out of range" else Ok (Some i)
      end
  end.

(** ** Facts *)

Lemma overflows_false i : overflows i = false ↔ valid i.
Proof.
  unfold overflows, valid, maxBitLen. rewrite Z.ltb_ge.
  apply (Big.bitlen_le i 256). lia.
Qed.

Lemma overflows_true i : overflows i = true ↔ ¬ valid i.
Proof. rewrite <-overflows_false. destruct (overflows i); naive_solver. Qed.

Lemma IsZero_true i : IsZero i = true ↔ i = 0.
Proof. unfold IsZero. rewrite Z.eqb_eq. lia. Qed.
Lemma IsZero_false i : IsZero i = false ↔ i <> 0.
Proof. rewrite <-IsZero_true. destruct (IsZero i); naive_solver. Qed.
Lemma IsNegative_true i : IsNegative i = true ↔ i < 0.
Proof. unfold IsNegative. rewrite Z.eqb_eq. lia. Qed.
Lemma IsNegative_false i : IsNegative i = false ↔ 0 <= i.
Proof. unfold IsNegative. rewrite Z.eqb_neq. lia. Qed.
Lemma IsPositive_true i : IsPositive i = true ↔ 0 < i.
Proof. unfold IsPositive. rewrite Z.eqb_eq. lia. Qed.
Lemma IsPositive_false i : IsPositive i = false ↔ i <= 0.
Proof. unfold IsPositive. rewrite Z.eqb_neq. lia. Qed.

(** [Add] and [Sub] return the exact result or panic. *)
Lemma Add_Ok i i2 r : Add i i2 = Ok r ↔ r = i + i2 ∧ valid r.
Proof.
  unfold Add. destruct (overflows (i + i2)) eqn:E.
  - apply overflows_true in E. naive_solver.
  - apply overflows_false in E. naive_solver.
Qed.

Lemma Sub_Ok i i2 r : Sub i i2 = Ok r ↔ r = i - i2 ∧ valid r.
Proof.
  unfold Sub. destruct (overflows (i - i2)) eqn:E.
  - apply overflows_true in E. naive_solver.
  - apply overflows_false in E. naive_solver.
Qed.

Lemma Sub_nonneg i i2 : valid i → 0 <= i2 <= i → Sub i i2 = Ok (i - i2).
Proof. intros ? ?. apply Sub_Ok. unfold valid in *. lia. Qed.

(** The early bit-length test of [Mul] never rejects a product in range. *)
Lemma Mul_early i i2 : i <> 0 → i2 <> 0 →
  maxBitLen < Big.bitlen i + Big.bitlen i2 - 1 → ¬ valid (i * i2).
Proof.
  intros Hi Hi2. unfold maxBitLen, Big.bitlen, valid.
  rewrite (proj2 (Z.eqb_neq i 0)), (proj2 (Z.eqb_neq i2 0)) by done.
  intros H. pose proof (Z.log2_spec (Z.abs i) ltac:(lia)) as [H1 _].
  pose proof (Z.log2_spec (Z.abs i2) ltac:(lia)) as [H2 _].
  pose proof (Z.log2_nonneg (Z.abs i)). pose proof (Z.log2_nonneg (Z.abs i2)).
  rewrite Z.abs_mul.
  assert (2 ^ 256 <= 2 ^ Z.log2 (Z.abs i) * 2 ^ Z.log2 (Z.abs i2)).
  { rewrite <-Z.pow_add_r by lia. apply Z.pow_le_mono_r; lia. }
  assert (2 ^ Z.log2 (Z.abs i) * 2 ^ Z.log2 (Z.abs i2) <= Z.abs i * Z.abs i2).
  { apply Z.mul_le_mono_nonneg; try done; apply Z.pow_nonneg; lia. }
  lia.
Qed.

Lemma Mul_Ok i i2 r : valid i → valid i2 →
  Mul i i2 = Ok r ↔ r = i * i2 ∧ valid r.
Proof.
  intros Hi Hi2. unfold Mul.
  destruct (Z.ltb_spec maxBitLen (Big.bitlen i + Big.bitlen i2 - 1)) as [H|H].
  - split; [done|]. intros [-> Hv]. exfalso.
    apply overflows_false in Hi, Hi2. unfold overflows in *.
    apply Z.ltb_ge in Hi, Hi2.
    destruct (Z.eq_dec i 0) as [->|]; [unfold maxBitLen, Big.bitlen in *; simpl in *; lia|].
    destruct (Z.eq_dec i2 0) as [->|]; [unfold maxBitLen, Big.bitlen in *; simpl in *; lia|].
    by apply (Mul_early i i2).
  - destruct (overflows (i * i2)) eqn:E.
    + apply overflows_true in E. naive_solver.
    + apply overflows_false in E. naive_solver.
Qed.

Lemma Quo_Ok i i2 r : Quo i i2 = Ok r ↔ i2 <> 0 ∧ r = Z.quot i i2.
Proof.
  unfold Quo. destruct (Z.eqb_spec (Z.sgn i2) 0) as [E|E].
  - apply (proj1 (Z.sgn_null_iff _)) in E. split; [done|by intros [? _]].
  - rewrite Z.sgn_null_iff in E. split; [by intros [= <-]|by intros [_ ->]].
Qed.

Lemma Quo_pos i i2 : 0 <= i → 0 < i2 → Quo i i2 = Ok (i / i2).
Proof. intros. apply Quo_Ok. split; [lia|]. symmetry. apply Z.quot_div_nonneg; lia. Qed.

Lemma Int64_Ok i r : Int64 i = Ok r ↔ r = i ∧ - 2 ^ 63 <= i < 2 ^ 63.
Proof.
  unfold Int64, is_int64.
  destruct (Z.leb_spec (- 2 ^ 63) i), (Z.ltb_spec i (2 ^ 63)); simpl; split;
    try naive_solver; intros [_ ?]; lia.
Qed.

Lemma NewIntFromString_valid s i : NewIntFromString s = Some i → valid i.
Proof.
  unfold NewIntFromString. destruct (Big.SetString s 0); [|done].
  case_match eqn:E; [done|]. intros [= ->]. by apply overflows_false.
Qed.

Lemma NewIntFromString_String i : valid i → NewIntFromString (to_String i) = Some i.
Proof.
  intros Hi. unfold NewIntFromString, to_String.
  rewrite Big.SetString_to_string by auto. by rewrite (proj2 (overflows_false i)).
Qed.

End Int.

(** ** Properties *)

(** Every arithmetic operation of [Int] that returns keeps the 256-bit
    range, and returns the exact integer result. *)
Theorem Int_arith_exact (i j : Z) : Int.valid i → Int.valid j →
  (∀ r, Int.Add i j = Ok r ↔ r = i + j ∧ Int.valid r) ∧
  (∀ r, Int.Sub i j = Ok r ↔ r = i - j ∧ Int.valid r) ∧
  (∀ r, Int.Mul i j = Ok r ↔ r = i * j ∧ Int.valid r) ∧
  (∀ r, Int.Quo i j = Ok r → r = Z.quot i j ∧ Int.valid r) ∧
  (∀ r, Int.Mod i j = Ok r → 0 <= r < Z.abs j ∧ (i - r) mod j = 0).
Proof.
  intros Hi Hj. split_and!.
  - intros r. apply Int.Add_Ok.
  - intros r. apply Int.Sub_Ok.
  - intros r. by apply Int.Mul_Ok.
  - intros r [Hj0 ->]%Int.Quo_Ok. split; [done|]. unfold Int.valid in *.
    rewrite <-Z.quot_abs by done. apply Z.le_lt_trans with (Z.abs i); [|done].
    apply Z.quot_le_upper_bound; nia.
  - intros r. unfold Int.Mod, Int.Sign.
    destruct (Z.eqb_spec (Z.sgn j) 0) as [|Hs]; [done|]. intros [= <-].
    rewrite Z.sgn_null_iff in Hs. split; [apply Z.mod_pos_bound; lia|].
    pose proof (Z.div_mod i (Z.abs j) ltac:(lia)) as E.
    apply Z.mod_divide; [done|].
    exists (i / Z.abs j * Z.sgn j). nia.
Qed.

Lemma Int_arith_exact_witness :
  Int.Mul (2 ^ 200) 5 = Ok (2 ^ 200 * 5) ∧ ¬ Int.valid (2 ^ 200 * 2 ^ 100).
Proof.
  split; [|unfold Int.valid; vm_compute; discriminate].
  apply (proj1 (proj2 (proj2 (Int_arith_exact (2 ^ 200) 5
    ltac:(unfold Int.valid; vm_compute; reflexivity)
    ltac:(unfold Int.valid; vm_compute; reflexivity))))).
  split; [reflexivity|]. unfold Int.valid; vm_compute; reflexivity.
Defined.

(** An [Int] in range survives printing and reading back, both as text and
    as the protobuf custom type. *)
Theorem Int_text_roundtrip (i : Z) : Int.valid i →
  Int.NewIntFromString (Int.to_String i) = Some i ∧
  Int.Unmarshal (Int.Marshal i) = Ok (Some i).
Proof.
  intros Hi. split; [by apply Int.NewIntFromString_String|].
  unfold Int.Unmarshal, Int.Marshal.
  pose proof (Big.SetString_to_string 0 i ltac:(by left)) as Hs.
  destruct (Big.to_string i) eqn:E; [done|].
  by rewrite Hs, (proj2 (Int.overflows_false i)).
Qed.

Lemma Int_text_roundtrip_witness :
  Int.Unmarshal (Int.Marshal (-250)) = Ok (Some (-250)).
Proof.
  apply (proj2 (Int_text_roundtrip (-250) ltac:(unfold Int.valid; vm_compute; reflexivity))).
Defined.
