(* ===== verification/Decimal.v ===== *)
(** * types/decimal.go: the fixed-point decimal [Dec]

    A [Dec] is modelled by the integer it holds, the decimal scaled by
    [10 ^ Precision].  Operations that can overflow 316 bits or divide by
    zero return an [outcome]. *)

From Stdlib Require Import ZArith Lia Ascii String.
From stdpp Require Import base tactics option list strings.
From S2P Require Import Prelude GoStd Digits SdkInt.

Local Open Scope Z_scope.

Module Dec.

Definition Precision : Z := 18.
Definition DecimalPrecisionBits : Z := 60.
Definition maxDecBitLen : Z := Int.maxBitLen + DecimalPrecisionBits.
Definition maxApproxRootIterations : nat := 100.

Definition precisionReuse : Z := 10 ^ Precision.
Definition fivePrecision : Z := Z.quot precisionReuse 2.

Definition overflows (i : Z) : bool := maxDecBitLen <? Big.bitlen i.
Definition valid (i : Z) : Prop := Z.abs i < 2 ^ 316.

(** The result check shared by the arithmetic operations. *)
Definition checked (i : Z) : outcome Z :=
  if overflows i then Panic "Int overflow" else Ok i.

Definition ZeroDec : Z := 0.
Definition OneDec : Z := precisionReuse.
Definition SmallestDec : Z := 1.

Definition calcPrecisionMultiplier (prec : Z) : outcome Z :=
  if Precision <? prec then Panic "too much precision" else
  let zerosToAdd := Precision - prec in
  Ok (10 ^ zerosToAdd).

(** The table the package's [init] fills for [0 .. Precision]. *)
Definition precisionMultipliers : list (outcome Z) :=
  (λ n, calcPrecisionMultiplier (Z.of_nat n)) <$> seq 0 (S (Z.to_nat Precision)).

Definition precisionMultiplier (prec : Z) : outcome Z :=
  if Precision <? prec then Panic "too much precision"
  else if prec <? 0 then Panic "index out of range"
  else match precisionMultipliers !! Z.to_nat prec with
       | Some o => o
       | None => Panic "index out of range"
       end.

Definition NewDecFromBigIntWithPrec (i prec : Z) : outcome Z :=
  m ← precisionMultiplier prec; Ok (i * m).
Definition NewDecFromBigInt (i : Z) : outcome Z := NewDecFromBigIntWithPrec i 0.
Definition NewDecWithPrec (i prec : Z) : outcome Z :=
  m ← precisionMultiplier prec; Ok (i * m).
Definition NewDec (i : Z) : outcome Z := NewDecWithPrec i 0.
Definition NewDecFromIntWithPrec (i prec : Z) : outcome Z :=
  m ← precisionMultiplier prec; Ok (i * m).
Definition NewDecFromInt (i : Z) : outcome Z := NewDecFromIntWithPrec i 0.

Definition NewDecFromStr (str : string) : outcome Z :=
  match str with
  | EmptyString => Err "decimal string cannot be empty"
  | String c rest =>
      let neg := Ascii.eqb c "-" in
      let str := if neg then rest else str in
      match str with
      | EmptyString => Err "decimal string cannot be empty"
      | _ =>
          let finish (combinedStr : string) (lenDecs : nat) : outcome Z :=
            if Precision <? Z.of_nat lenDecs then Err "invalid precision" else
            let zerosToAdd := (Z.to_nat Precision - lenDecs)%nat in
            let combinedStr := combinedStr +:+ zeros zerosToAdd in
            match Big.SetString combinedStr 10 with
            | None => Err "failed to set decimal string"
            | Some combined =>
                if overflows combined then Err "decimal out of range"
                else Ok (if neg then - combined else combined)
            end in
          match Str.split "." str with
          | [] => Panic "index out of range"
          | [whole] => finish whole 0%nat
          | [whole; frac] =>
              if String.eqb frac "" || String.eqb whole ""
              then Err "invalid decimal length"
              else finish (whole +:+ frac) (String.length frac)
          | _ => Err "invalid decimal string"
          end
      end
  end.

Definition MustNewDecFromStr (s : string) : outcome Z := must (NewDecFromStr s).

Definition IsZero (d : Z) : bool := Z.sgn d =? 0.
Definition IsNegative (d : Z) : bool := Z.sgn d =? -1.
Definition IsPositive (d : Z) : bool := Z.sgn d =? 1.
Definition Equal (d d2 : Z) : bool := d =? d2.
Definition GT (d d2 : Z) : bool := d2 <? d.
Definition GTE (d d2 : Z) : bool := d2 <=? d.
Definition LT (d d2 : Z) : bool := d <? d2.
Definition LTE (d d2 : Z) : bool := d <=? d2.
Definition Neg (d : Z) : Z := - d.
Definition Abs (d : Z) : Z := Z.abs d.

(** Chopping the last [Precision] digits: bankers rounding, rounding up and
    truncation.  The recursive call of the first on a negative argument is on
    its opposite, which is positive. *)
Definition chop_nonneg (d : Z) : Z :=
  let quo := Z.quot d precisionReuse in
  let rem := Z.rem d precisionReuse in
  if Z.sgn rem =? 0 then quo
  else match rem ?= fivePrecision with
       | Lt => quo
       | Gt => quo + 1
       | Eq => if Z.even quo then quo else quo + 1
       end.

Definition chopPrecisionAndRound (d : Z) : Z :=
  if Z.sgn d =? -1 then - chop_nonneg (- d) else chop_nonneg d.

Definition chopPrecisionAndTruncate (d : Z) : Z := Z.quot d precisionReuse.

Definition chopPrecisionAndRoundUp (d : Z) : Z :=
  if Z.sgn d =? -1 then - chopPrecisionAndTruncate (- d)
  else
    let quo := Z.quot d precisionReuse in
    let rem := Z.rem d precisionReuse in
    if Z.sgn rem =? 0 then quo else quo + 1.

Definition Add (d d2 : Z) : outcome Z := checked (d + d2).
Definition Sub (d d2 : Z) : outcome Z := checked (d - d2).
Definition Mul (d d2 : Z) : outcome Z := checked (chopPrecisionAndRound (d * d2)).
Definition MulTruncate (d d2 : Z) : outcome Z :=
  checked (chopPrecisionAndTruncate (d * d2)).
Definition MulInt (d i : Z) : outcome Z := checked (d * i).
Definition MulInt64 (d i : Z) : outcome Z := checked (d * i).

(** [big.Int.Quo], which panics on a zero divisor. *)
Definition big_quo (a b : Z) : outcome Z :=
  if b =? 0 then Panic "division by zero" else Ok (Z.quot a b).

Definition Quo (d d2 : Z) : outcome Z :=
  let mul := d * precisionReuse * precisionReuse in
  quo ← big_quo mul d2; checked (chopPrecisionAndRound quo).
Definition QuoTruncate (d d2 : Z) : outcome Z :=
  let mul := d * precisionReuse * precisionReuse in
  quo ← big_quo mul d2; checked (chopPrecisionAndTruncate quo).
Definition QuoRoundUp (d d2 : Z) : outcome Z :=
  let mul := d * precisionReuse * precisionReuse in
  quo ← big_quo mul d2; checked (chopPrecisionAndRoundUp quo).
Definition QuoInt (d i : Z) : outcome Z := big_quo d i.
Definition QuoInt64 (d i : Z) : outcome Z := big_quo d i.

(** The loop of [Power]: the counter is a [uint64] that is halved, so 64
    rounds are enough (see [power_loop_fuel]). *)
Fixpoint power_loop (fuel : nat) (i d tmp : Z) : outcome Z :=
  match fuel with
  | O => Panic "power: out of fuel"
  | S f =>
      if i <=? 1 then Mul d tmp
      else
        tmp' ← (if i mod 2 =? 0 then Ok tmp else Mul tmp d);
        d' ← Mul d d;
        power_loop f (i / 2) d' tmp'
  end.

Definition Power (d power : Z) : outcome Z :=
  if power =? 0 then Ok OneDec else power_loop 65 power d OneDec.

Fixpoint root_loop (iters : nat) (root d guess delta : Z) : outcome Z :=
  match iters with
  | O => Ok guess
  | S n =>
      if negb (GT (Abs delta) SmallestDec) then Ok guess else
      prev ← Power guess (root - 1);
      let prev := if IsZero prev then SmallestDec else prev in
      q ← Quo d prev;
      s ← Sub q guess;
      delta ← QuoInt s root;
      guess ← Add guess delta;
      root_loop n root d guess delta
  end.

(** [ApproxRoot] recovers from every panic and reports an error. *)
Definition recovered {A} (o : outcome A) : outcome A :=
  match o with Panic _ => Err "out of bounds" | _ => o end.

Definition root_nonneg (d root : Z) : outcome Z :=
  if (root =? 1) || IsZero d || Equal d OneDec then Ok d
  else if root =? 0 then Ok OneDec
  else recovered (root_loop maxApproxRootIterations root d OneDec OneDec).

Definition ApproxRoot (d root : Z) : outcome Z :=
  if IsNegative d
  then recovered (a ← MulInt64 d (-1); r ← root_nonneg a root; MulInt64 r (-1))
  else root_nonneg d root.

Definition ApproxSqrt (d : Z) : outcome Z := ApproxRoot d 2.

Definition IsInteger (d : Z) : bool := Z.sgn (Z.rem d precisionReuse) =? 0.

Definition to_String (d : Z) : string :=
  let isNeg := IsNegative d in
  let d := if isNeg then Neg d else d in
  let bzInt := Big.to_string d in
  let inputSize := String.length bzInt in
  let prec := Z.to_nat Precision in
  let bzStr :=
    if (inputSize <=? prec)%nat
    then "0." +:+ zeros (prec - inputSize) +:+ bzInt
    else let decPointPlace := (inputSize - prec)%nat in
         Str.take decPointPlace bzInt +:+ "." +:+ Str.drop decPointPlace bzInt in
  if isNeg then "-" +:+ bzStr else bzStr.

Definition RoundInt64 (d : Z) : outcome Z :=
  let chopped := chopPrecisionAndRound d in
  if negb (is_int64 chopped) then Panic "Int64() out of bound" else Ok chopped.
Definition RoundInt (d : Z) : outcome Z := Int.NewIntFromBigInt (chopPrecisionAndRound d).
Definition TruncateInt64 (d : Z) : outcome Z :=
  let chopped := chopPrecisionAndTruncate d in
  if negb (is_int64 chopped) then Panic "Int64() out of bound" else Ok chopped.
Definition TruncateInt (d : Z) : outcome Z :=
  Int.NewIntFromBigInt (chopPrecisionAndTruncate d).
Definition TruncateDec (d : Z) : outcome Z :=
  NewDecFromBigInt (chopPrecisionAndTruncate d).

Definition Ceil (d : Z) : outcome Z :=
  let quo := Z.quot d precisionReuse in
  let rem := Z.rem d precisionReuse in
  if rem =? 0 then NewDecFromBigInt quo
  else if Z.sgn rem =? -1 then NewDecFromBigInt quo
  else NewDecFromBigInt (quo + 1).

Definition MaxSortableDec : outcome Z := Quo OneDec SmallestDec.

Definition ValidSortableDec (dec : Z) : outcome bool :=
  m ← MaxSortableDec; Ok (LTE (Abs dec) m).

Definition SortableDecBytes (dec : Z) : outcome string :=
  v ← ValidSortableDec dec;
  _ ← panic_if (negb v) "dec must be within bounds";
  m ← MaxSortableDec;
  let width := Z.to_nat (Precision * 2 + 1) in
  Ok (if Equal dec m then "max"
      else if Equal dec (Neg m) then "--"
      else if IsNegative dec then "-" +:+ pad0 width (to_String (Abs dec))
      else pad0 width (to_String dec)).

Definition Marshal (d : Z) : string := Big.to_string d.

Definition Unmarshal (data : string) : outcome (option Z) :=
  match data with
  | EmptyString => Ok None
  | _ =>
      match Big.SetString data 0 with
      | None => Err "math/big: cannot unmarshal into a *big.Int"
      | Some i => if overflows i then Err "decimal out of range" else Ok (Some i)
      end
  end.

Definition DecsEqual (d1s d2s : list Z) : bool :=
  (length d1s =? length d2s)%nat && forallb (λ '(x, y), Equal x y) (zip d1s d2s).

Definition MinDec (d1 d2 : Z) : Z := if LT d1 d2 then d1 else d2.
Definition MaxDec (d1 d2 : Z) : Z := if LT d1 d2 then d2 else d1.

(** ** Facts *)

Lemma precisionReuse_val : precisionReuse = 1000000000000000000.
Proof. reflexivity. Qed.
Lemma fivePrecision_val : fivePrecision = 500000000000000000.
Proof. reflexivity. Qed.

Lemma dec_in_range i : overflows i = false ↔ valid i.
Proof.
  unfold overflows, valid. rewrite Z.ltb_ge. apply (Big.bitlen_le i 316). lia.
Qed.

Lemma checked_Ok i r : checked i = Ok r ↔ r = i ∧ valid i.
Proof.
  unfold checked. destruct (overflows i) eqn:E.
  - split; [done|]. intros [_ Hv]. apply dec_in_range in Hv. congruence.
  - apply dec_in_range in E. naive_solver.
Qed.

Lemma checked_valid i : valid i → checked i = Ok i.
Proof. intros. by apply checked_Ok. Qed.

Lemma valid_le a b : valid b → Z.abs a <= Z.abs b → valid a.
Proof. unfold valid. lia. Qed.

(** Rounding to the nearest multiple, ties to even. *)
Definition nearest_even (d r : Z) : Prop :=
  2 * Z.abs (d - r * precisionReuse) <= precisionReuse ∧
  (2 * Z.abs (d - r * precisionReuse) = precisionReuse → Z.Even r).

Lemma nearest_even_unique d r r' : nearest_even d r → nearest_even d r' → r = r'.
Proof.
  unfold nearest_even. rewrite precisionReuse_val. intros [H1 E1] [H2 E2].
  destruct (Z.eq_dec r r') as [|Hne]; [done|exfalso].
  assert (r' = r + 1 ∨ r = r' + 1) as Hadj by lia.
  assert (Z.Even r ∧ Z.Even r') as [[x ->] [y ->]] by (split; [apply E1|apply E2]; lia).
  lia.
Qed.

Lemma nearest_even_opp d r : nearest_even d r → nearest_even (- d) (- r).
Proof.
  unfold nearest_even. intros [H E].
  replace (- d - - r * precisionReuse) with (- (d - r * precisionReuse)) by lia.
  rewrite Z.abs_opp. split; [done|]. intros H'. destruct (E H') as [x ->].
  exists (- x). lia.
Qed.

Lemma chop_nonneg_nearest d : 0 <= d → nearest_even d (chop_nonneg d).
Proof.
  intros Hd. unfold chop_nonneg.
  pose proof (Z.quot_rem' d precisionReuse) as Hqr.
  pose proof (Z.rem_bound_pos d precisionReuse Hd ltac:(done)) as Hb.
  revert Hqr Hb. generalize (Z.quot d precisionReuse), (Z.rem d precisionReuse).
  intros q r. unfold nearest_even. rewrite fivePrecision_val, precisionReuse_val.
  intros -> Hb. destruct (Z.eqb_spec (Z.sgn r) 0) as [E|E].
  { assert (r = 0) as -> by lia. split; lia. }
  destruct (Z.compare_spec r 500000000000000000) as [->|Hlt|Hgt]; [|split; lia|split; lia].
  destruct (Z.even q) eqn:Ev; (split; [lia|]); intros _.
  - by apply Z.even_spec.
  - apply Z.even_spec. by rewrite Z.even_add, Ev.
Qed.

Lemma chopPrecisionAndRound_nearest d : nearest_even d (chopPrecisionAndRound d).
Proof.
  unfold chopPrecisionAndRound. destruct (Z.eqb_spec (Z.sgn d) (-1)) as [E|E].
  - rewrite <-(Z.opp_involutive d) at 1. apply nearest_even_opp, chop_nonneg_nearest. lia.
  - apply chop_nonneg_nearest. lia.
Qed.

Lemma chop_multiple i : chopPrecisionAndRound (i * precisionReuse) = i.
Proof.
  apply (nearest_even_unique (i * precisionReuse)); [apply chopPrecisionAndRound_nearest|].
  unfold nearest_even. rewrite precisionReuse_val. split; lia.
Qed.

Lemma truncate_multiple i : chopPrecisionAndTruncate (i * precisionReuse) = i.
Proof. by apply Z.quot_mul. Qed.

(** Multiplication of whole decimals is exact. *)
Lemma Mul_whole a b : valid (a * b * precisionReuse) →
  Mul (a * precisionReuse) (b * precisionReuse) = Ok (a * b * precisionReuse).
Proof.
  intros Hv. unfold Mul.
  replace (a * precisionReuse * (b * precisionReuse))
    with (a * b * precisionReuse * precisionReuse) by lia.
  rewrite chop_multiple. by apply checked_valid.
Qed.

Lemma precisionMultiplier_Ok prec : 0 <= prec <= Precision →
  precisionMultiplier prec = Ok (10 ^ (Precision - prec)).
Proof.
  intros H. unfold precisionMultiplier, Precision in *.
  rewrite (proj2 (Z.ltb_ge _ _)), (proj2 (Z.ltb_ge prec 0)) by lia.
  unfold precisionMultipliers. rewrite list_lookup_fmap.
  rewrite lookup_seq_lt by (unfold Precision; lia). simpl.
  unfold calcPrecisionMultiplier, Precision. rewrite Z2Nat.id by lia.
  by rewrite (proj2 (Z.ltb_ge _ _)) by lia.
Qed.

Lemma NewDecFromInt_run i : NewDecFromInt i = Ok (i * precisionReuse).
Proof. reflexivity. Qed.
Lemma NewDecFromBigInt_run i : NewDecFromBigInt i = Ok (i * precisionReuse).
Proof. reflexivity. Qed.

Lemma Int_to_Dec_valid i : Int.valid i → valid (i * precisionReuse).
Proof.
  unfold Int.valid, valid. rewrite precisionReuse_val, Z.abs_mul. intros H.
  change (2 ^ 316) with (2 ^ 256 * 2 ^ 60). 
  apply Z.lt_le_trans with (2 ^ 256 * Z.abs 1000000000000000000).
  - apply Z.mul_lt_mono_pos_r; lia.
  - apply Z.mul_le_mono_nonneg_l; lia.
Qed.

(** *** [Power] *)

(** Powers below the exponent stay in range. *)
Lemma pow_valid k m n : 0 <= m <= n → valid (k ^ n * precisionReuse) →
  valid (k ^ m * precisionReuse).
Proof.
  intros Hmn Hv. destruct (Z.eq_dec k 0) as [->|Hk].
  - destruct (Z.eq_dec m 0) as [->|]; [done|].
    rewrite Z.pow_0_l by lia. done.
  - apply (valid_le _ _ Hv). rewrite !Z.abs_mul, !Z.abs_pow.
    apply Z.mul_le_mono_nonneg_r; [done|]. apply Z.pow_le_mono_r; lia.
Qed.

Lemma power_loop_whole fuel : ∀ i k j t n,
  1 <= i < 2 ^ Z.of_nat fuel → (0 < fuel)%nat → 0 <= t → 0 < j → t + j * i = n →
  valid (k ^ n * precisionReuse) →
  power_loop fuel i (k ^ j * precisionReuse) (k ^ t * precisionReuse) =
  Ok (k ^ n * precisionReuse).
Proof.
  induction fuel as [|f IH]; intros i k j t n Hi Hf Ht Hj Hn Hv; [lia|]. simpl.
  assert (∀ a b, 0 <= a → 0 <= b → a + b <= n →
    Mul (k ^ a * precisionReuse) (k ^ b * precisionReuse) =
    Ok (k ^ (a + b) * precisionReuse)) as Hmul.
  { intros a b Ha Hb Hab. rewrite Mul_whole; rewrite <-Z.pow_add_r by lia; [done|].
    apply (pow_valid _ _ n); [lia|done]. }
  destruct (Z.leb_spec i 1) as [Hi1|Hi1].
  { rewrite Hmul by nia. do 3 f_equal. nia. }
  rewrite Nat2Z.inj_succ, Z.pow_succ_r in Hi by lia.
  pose proof (Z.div_mod i 2 ltac:(lia)) as Hdm.
  pose proof (Z.mod_pos_bound i 2 ltac:(lia)) as Hm.
  assert (1 <= i / 2 < 2 ^ Z.of_nat f) as Hi2.
  { split; [lia|]. apply Z.div_lt_upper_bound; lia. }
  assert (0 < f)%nat as Hf'. { destruct f; [simpl in Hi2; lia|lia]. }
  rewrite (Hmul j j) by nia. 
  destruct (Z.eqb_spec (i mod 2) 0) as [E|E].
  - change (power_loop f (i / 2) (k ^ (j + j) * precisionReuse) (k ^ t * precisionReuse)
            = Ok (k ^ n * precisionReuse)).
    apply IH; try done; nia.
  - rewrite (Hmul t j) by nia.
    change (power_loop f (i / 2) (k ^ (j + j) * precisionReuse) (k ^ (t + j) * precisionReuse)
            = Ok (k ^ n * precisionReuse)).
    apply IH; try done; nia.
Qed.

(** *** Text *)

(** The printed form of a non-negative decimal: whole part, point, eighteen
    decimals. *)
Lemma to_String_parts d : 0 <= d → ∃ w f,
  to_String d = w +:+ "." +:+ f ∧ digits w = true ∧ digits f = true ∧ w ≠ "" ∧
  String.length f = 18%nat ∧ dec_val 0 (w +:+ f) = d ∧
  (d < 10 ^ 36 → (String.length w <= 18)%nat).
Proof.
  intros Hd. unfold to_String, IsNegative.
  rewrite (proj2 (Z.eqb_neq (Z.sgn d) (-1))) by lia.
  rewrite to_string_nonneg by done.
  destruct (print_nonneg_spec d Hd) as (Hdig & Hval & Hne).
  pose proof (λ H, print_nonneg_length d 36 H ltac:(lia)) as Hlen.
  set (t := Big.print_nonneg d) in *. clearbody t.
  change (Z.to_nat Precision) with 18%nat.
  destruct (Nat.leb_spec (String.length t) 18) as [Hl|Hl].
  - exists "0", (zeros (18 - String.length t) +:+ t). split; [done|].
    unfold digits in *. rewrite sforall_app, Hdig, Str.length_app, zeros_length.
    fold (digits (zeros (18 - String.length t))). rewrite zeros_digits.
    split_and!; try done; [lia| |simpl; lia].
    change (dec_val 0 (pad0 18 t) = d). by rewrite dec_val_pad0.
  - set (k := (String.length t - 18)%nat).
    destruct (length_take_drop k t ltac:(lia)) as [Hlt Hld].
    destruct (sforall_take_drop _ k t Hdig) as [Hdt Hdd].
    exists (Str.take k t), (Str.drop k t). rewrite Str.take_drop.
    split_and!; try done; try lia.
    intros E. rewrite E in Hlt. simpl in Hlt. lia.
Qed.

(** [NewDecFromStr] on a whole part and a full set of decimals. *)
Lemma NewDecFromStr_parts (neg : bool) w f :
  digits w = true → digits f = true → w ≠ "" → String.length f = 18%nat →
  valid (dec_val 0 (w +:+ f)) →
  NewDecFromStr ((if neg then "-" else "") +:+ w +:+ "." +:+ f) =
  Ok (if neg then - dec_val 0 (w +:+ f) else dec_val 0 (w +:+ f)).
Proof.
  intros Hw Hf Hne Hlen Hv.
  assert (Str.split "." (w +:+ "." +:+ f) = [w; f]) as Hsplit.
  { change ("." +:+ f) with (String "." f).
    rewrite split_app, split_none; [done|by apply digits_no_sep..]. }
  assert (Big.SetString ((w +:+ f) +:+ zeros (18 - String.length f)) 10 =
          Some (dec_val 0 (w +:+ f))) as Hset.
  { rewrite Hlen. rewrite Str.app_nil_r. apply SetString_digits.
    - unfold digits in *. by rewrite sforall_app, Hw, Hf.
    - by destruct w. }
  apply dec_in_range in Hv.
  assert (String.eqb f "" || String.eqb w "" = false) as Hemp.
  { apply orb_false_iff. split; apply String.eqb_neq; [by intros ->|done]. }
  assert (∃ c s, w +:+ "." +:+ f = String c s ∧ Ascii.eqb c "-" = false) as (c & s & Hcs & Hc).
  { destruct w as [|c w]; [done|]. exists c, (w +:+ "." +:+ f). split; [done|].
    unfold digits in Hw. simpl in Hw. apply andb_true_iff in Hw as [Hw _].
    apply Ascii.eqb_neq. by apply is_digit_neq. }
  rewrite Hcs in *. destruct neg.
  - change ("-" +:+ String c s) with (String "-" (String c s)).
    unfold NewDecFromStr. rewrite Ascii.eqb_refl, Hsplit, Hemp.
    change (Z.to_nat Precision) with 18%nat. rewrite Hset, Hv, Hlen. done.
  - change ("" +:+ String c s) with (String c s).
    unfold NewDecFromStr. rewrite Hc, Hsplit, Hemp.
    change (Z.to_nat Precision) with 18%nat. rewrite Hset, Hv, Hlen. done.
Qed.

Lemma to_String_neg d : d < 0 → to_String d = "-" +:+ to_String (- d).
Proof.
  intros H. unfold to_String, IsNegative.
  rewrite (proj2 (Z.eqb_eq (Z.sgn d) (-1))), (proj2 (Z.eqb_neq (Z.sgn (- d)) (-1))) by lia.
  done.
Qed.

Lemma NewDecFromStr_to_String d : valid d → NewDecFromStr (to_String d) = Ok d.
Proof.
  intros Hv. destruct (Z.lt_ge_cases d 0) as [Hd|Hd].
  - rewrite to_String_neg by done.
    destruct (to_String_parts (- d) ltac:(lia)) as (w & f & -> & ? & ? & ? & ? & Hval & _).
    rewrite (NewDecFromStr_parts true) by (try done; rewrite Hval; unfold valid in *; lia).
    rewrite Hval. f_equal. lia.
  - destruct (to_String_parts d Hd) as (w & f & -> & ? & ? & ? & ? & Hval & _).
    etrans; [apply (NewDecFromStr_parts false w f); by rewrite ?Hval|]. by rewrite Hval.
Qed.

(** *** Sortable bytes *)

Lemma MaxSortableDec_val : MaxSortableDec = Ok (10 ^ 36).
Proof. reflexivity. Qed.

(** The bytes of a decimal strictly inside the bounds, and of the bounds. *)
Definition sort_body (d : Z) : string := pad0 37 (to_String d).

Lemma SortableDecBytes_run d : Z.abs d <= 10 ^ 36 → SortableDecBytes d =
  Ok (if d =? 10 ^ 36 then "max" else if d =? - 10 ^ 36 then "--"
      else if d <? 0 then "-" +:+ sort_body (- d) else sort_body d).
Proof.
  intros H. unfold SortableDecBytes, ValidSortableDec. rewrite MaxSortableDec_val.
  unfold LTE, Abs, mbind, outcome_bind, panic_if.
  rewrite (proj2 (Z.leb_le _ _)) by done. cbn [negb]. unfold Equal, Neg, IsNegative, sort_body.
  change (Z.to_nat (Precision * 2 + 1)) with 37%nat. f_equal.
  repeat (case_match; try done); rewrite ?Z.eqb_eq, ?Z.eqb_neq, ?Z.ltb_lt, ?Z.ltb_ge in *;
    try lia. by rewrite Z.abs_neq by lia.
Qed.

(** The body is an eighteen-digit whole part, the point and the decimals. *)
Lemma sort_body_parts d : 0 <= d < 10 ^ 36 → ∃ w f,
  sort_body d = w +:+ "." +:+ f ∧ digits w = true ∧ digits f = true ∧
  String.length w = 18%nat ∧ String.length f = 18%nat ∧ dec_val 0 (w +:+ f) = d.
Proof.
  intros [Hd Hlt]. destruct (to_String_parts d Hd) as (w & f & Hs & Hw & Hf & _ & Hlf & Hv & Hl).
  specialize (Hl Hlt). exists (pad0 18 w), f. unfold sort_body. rewrite Hs.
  split_and!; try done.
  - unfold pad0. rewrite !Str.length_app, Hlf, Str.app_assoc.
    replace (37 - (String.length w + (String.length "." + 18)))%nat
      with (18 - String.length w)%nat by (simpl; lia). done.
  - by apply pad0_digits.
  - by apply pad0_length.
  - by rewrite dec_val_app, dec_val_pad0, <-dec_val_app.
Qed.

Lemma sort_body_lt d d' : 0 <= d < 10 ^ 36 → 0 <= d' < 10 ^ 36 → d < d' →
  Str.lt (sort_body d) (sort_body d').
Proof.
  intros H H' Hlt.
  destruct (sort_body_parts d H) as (w & f & -> & Hw & Hf & Hlw & Hlf & Hv).
  destruct (sort_body_parts d' H') as (w' & f' & -> & Hw' & Hf' & Hlw' & Hlf' & Hv').
  rewrite dec_val_app in Hv, Hv'.
  pose proof (dec_val_bound (dec_val 0 w) f Hf) as Hb.
  pose proof (dec_val_bound (dec_val 0 w') f' Hf') as Hb'.
  rewrite Hlf in Hb. rewrite Hlf' in Hb'.
  destruct (Z.lt_trichotomy (dec_val 0 w) (dec_val 0 w')) as [Hc|[Hc|Hc]]; [| |nia].
  - apply lt_app_r; [congruence|]. apply digits_order; congruence.
  - assert (w = w') as -> by (apply digits_inj; congruence).
    rewrite !lt_app_l. apply digits_order; try congruence.
    rewrite (dec_val_lin _ f), Hlf in Hv. rewrite (dec_val_lin _ f'), Hlf' in Hv'. lia.
Qed.

(** A body starts with a digit. *)
Lemma sort_body_head d : 0 <= d < 10 ^ 36 → ∃ c s, sort_body d = String c s ∧ is_digit c = true.
Proof.
  intros H. destruct (sort_body_parts d H) as (w & f & -> & Hw & _ & Hlw & _).
  destruct w as [|c w]; [done|]. exists c, (w +:+ "." +:+ f). split; [done|].
  unfold digits in Hw. simpl in Hw. by apply andb_true_iff in Hw as [? _].
Qed.

End Dec.

(** ** Properties *)

(** [Mul] returns the product rounded to eighteen decimals, to the nearest
    and on ties to the even one, exactly when that fits 316 bits; [Quo] is
    within half a unit of the last place (plus the truncated intermediate
    digit) of the exact quotient; the truncating forms never exceed the exact
    result in magnitude. *)
Theorem Dec_mul_quo_rounding (a b : Z) :
  (∀ r, Dec.Mul a b = Ok r ↔ Dec.nearest_even (a * b) r ∧ Dec.valid r) ∧
  (∀ r, Dec.Quo a b = Ok r → b <> 0 ∧ Dec.valid r ∧
     2 * Z.abs (a * Dec.precisionReuse * Dec.precisionReuse - r * Dec.precisionReuse * b)
     <= (Dec.precisionReuse + 2) * Z.abs b) ∧
  (∀ r, Dec.MulTruncate a b = Ok r →
     Z.abs (r * Dec.precisionReuse) <= Z.abs (a * b) ∧
     Z.abs (a * b - r * Dec.precisionReuse) < Dec.precisionReuse).
Proof.
  split_and!.
  - intros r. unfold Dec.Mul. rewrite Dec.checked_Ok.
    pose proof (Dec.chopPrecisionAndRound_nearest (a * b)) as Hn. split.
    + intros [-> Hv]. done.
    + intros [Hr Hv]. by rewrite (Dec.nearest_even_unique _ _ _ Hr Hn) in *.
  - intros r H. unfold Dec.Quo, Dec.big_quo in H.
    destruct (Z.eqb_spec b 0) as [|Hb]; [done|]. simpl in H.
    apply Dec.checked_Ok in H as [-> Hv]. split_and!; [done|done|].
    set (X := a * Dec.precisionReuse * Dec.precisionReuse).
    pose proof (Dec.chopPrecisionAndRound_nearest (Z.quot X b)) as [Hn _].
    set (r := Dec.chopPrecisionAndRound _) in *.
    pose proof (Z.quot_rem' X b) as Hqr. pose proof (Z.rem_bound_abs X b Hb) as Hrb.
    replace (X - r * Dec.precisionReuse * b)
      with (b * (Z.quot X b - r * Dec.precisionReuse) + Z.rem X b) by lia.
    pose proof (Z.abs_triangle (b * (Z.quot X b - r * Dec.precisionReuse)) (Z.rem X b)) as Ht.
    rewrite Z.abs_mul in Ht. nia.
  - intros r H. apply Dec.checked_Ok in H as [-> _].
    unfold Dec.chopPrecisionAndTruncate.
    pose proof (Z.quot_rem' (a * b) Dec.precisionReuse) as Hqr.
    pose proof (Z.rem_bound_abs (a * b) Dec.precisionReuse ltac:(done)) as Hrb.
    pose proof (Z.rem_sign_mul (a * b) Dec.precisionReuse ltac:(done)) as Hs.
    revert Hqr Hrb Hs. rewrite Dec.precisionReuse_val.
    generalize (Z.quot (a * b) 1000000000000000000), (Z.rem (a * b) 1000000000000000000).
    intros q m Hqr Hrb Hs. destruct (Z.lt_trichotomy m 0) as [|[|]]; nia.
Qed.

(** A 256-bit integer turned into a decimal is in range, and truncating or
    rounding it back gives the same integer; [Ceil] is the least whole
    decimal not below its argument. *)
Theorem Dec_int_conversions (i d : Z) : Int.valid i →
  (∃ x, Dec.NewDecFromInt i = Ok x ∧ Dec.valid x ∧ Dec.IsInteger x = true ∧
        Dec.TruncateInt x = Ok i ∧ Dec.RoundInt x = Ok i ∧ Dec.Ceil x = Ok x) ∧
  (∃ n, Dec.Ceil d = Ok (n * Dec.precisionReuse) ∧
        (n - 1) * Dec.precisionReuse < d <= n * Dec.precisionReuse).
Proof.
  intros Hi. split.
  - exists (i * Dec.precisionReuse). split; [apply Dec.NewDecFromInt_run|].
    split; [by apply Dec.Int_to_Dec_valid|].
    assert (Z.rem (i * Dec.precisionReuse) Dec.precisionReuse = 0) as Hrem.
    { by apply Z.rem_mul. }
    assert (Int.NewIntFromBigInt i = Ok i) as Hn.
    { unfold Int.NewIntFromBigInt. by rewrite (proj2 (Int.overflows_false i)). }
    unfold Dec.IsInteger, Dec.TruncateInt, Dec.RoundInt, Dec.Ceil.
    rewrite Hrem, Dec.chop_multiple, Dec.truncate_multiple, Hn. simpl.
    rewrite Dec.NewDecFromBigInt_run. unfold Dec.precisionReuse at 1.
    rewrite Z.quot_mul by done. done.
  - unfold Dec.Ceil. rewrite !Dec.NewDecFromBigInt_run.
    pose proof (Z.quot_rem' d Dec.precisionReuse) as Hqr.
    pose proof (Z.rem_bound_abs d Dec.precisionReuse ltac:(done)) as Hrb.
    revert Hqr Hrb. rewrite Dec.precisionReuse_val.
    generalize (Z.quot d 1000000000000000000), (Z.rem d 1000000000000000000).
    intros q m Hqr Hrb. destruct (Z.eqb_spec m 0); [exists q; split; [done|lia]|].
    destruct (Z.eqb_spec (Z.sgn m) (-1)); [exists q|exists (q + 1)]; (split; [done|lia]).
Qed.

Lemma Dec_int_conversions_witness :
  ∃ x, Dec.NewDecFromInt 7 = Ok x ∧ Dec.TruncateInt x = Ok 7.
Proof.
  destruct (Dec_int_conversions 7 (-1) ltac:(unfold Int.valid; vm_compute; reflexivity))
    as [(x & ? & _ & _ & ? & _) _]. exists x. split; assumption.
Defined.

(** Raising a whole decimal to a [uint64] power by repeated squaring
    terminates and is exact whenever the result fits, with no intermediate
    overflow. *)
Theorem Dec_power_exact (k n : Z) : 0 <= n < 2 ^ 64 →
  Dec.valid (k ^ n * Dec.precisionReuse) →
  Dec.Power (k * Dec.precisionReuse) n = Ok (k ^ n * Dec.precisionReuse).
Proof.
  intros Hn Hv. unfold Dec.Power. destruct (Z.eqb_spec n 0) as [->|Hn0]; [done|].
  rewrite <-(Z.pow_1_r k) at 1.
  change Dec.OneDec with (k ^ 0 * Dec.precisionReuse).
  apply Dec.power_loop_whole; try done; try lia.
Qed.

Lemma Dec_power_exact_witness :
  Dec.Power (3 * Dec.precisionReuse) 13 = Ok (1594323 * Dec.precisionReuse).
Proof.
  apply (Dec_power_exact 3 13); [lia|unfold Dec.valid; vm_compute; reflexivity].
Defined.

(** Printing a decimal and parsing the text gives the decimal back. *)
Theorem Dec_text_roundtrip (d : Z) : Dec.valid d →
  Dec.NewDecFromStr (Dec.to_String d) = Ok d ∧
  Dec.Unmarshal (Dec.Marshal d) = Ok (Some d).
Proof.
  intros Hv. split; [by apply Dec.NewDecFromStr_to_String|].
  unfold Dec.Unmarshal, Dec.Marshal.
  pose proof (Big.SetString_to_string 0 d ltac:(by left)) as Hs.
  destruct (Big.to_string d) eqn:E; [done|].
  by rewrite Hs, (proj2 (Dec.dec_in_range d)).
Qed.

Lemma Dec_text_roundtrip_witness :
  Dec.NewDecFromStr (Dec.to_String (-1500000000000000000)) = Ok (-1500000000000000000)
  ∧ Dec.to_String (-1500000000000000000) = "-1.500000000000000000".
Proof.
  split; [|vm_compute; reflexivity].
  apply (Dec_text_roundtrip (-1500000000000000000)).
  unfold Dec.valid; vm_compute; reflexivity.
Defined.

(** The sortable bytes order decimals as their values do whenever the
    greater one is not negative, so negatives come before positives and the
    bounds come first and last; two negative decimals are ordered backwards. *)
Theorem Dec_sortable_order (d d' : Z) : - 10 ^ 36 <= d < d' → d' <= 10 ^ 36 →
  ∃ b b', Dec.SortableDecBytes d = Ok b ∧ Dec.SortableDecBytes d' = Ok b' ∧
    (0 <= d' ∨ d = - 10 ^ 36 → Str.lt b b') ∧
    (- 10 ^ 36 < d ∧ d' < 0 → Str.lt b' b).
Proof.
  intros Hd Hd'. rewrite !Dec.SortableDecBytes_run by lia. do 2 eexists. do 2 (split; [done|]).
  rewrite (proj2 (Z.eqb_neq d (10 ^ 36))), (proj2 (Z.eqb_neq d' (- 10 ^ 36))) by lia.
  split.
  - intros Hc. destruct (Z.eqb_spec d' (10 ^ 36)) as [->|Hn].
    + destruct (Z.eqb_spec d (- 10 ^ 36)); [done|]. destruct (Z.ltb_spec d 0); [done|].
      destruct (Dec.sort_body_head d) as (c & s & -> & Hdig); [lia|].
      unfold is_digit in Hdig. rewrite andb_true_iff, !Z.leb_le in Hdig.
      unfold Str.lt, Str.ltb, String.ltb. simpl. unfold Ascii.compare.
      rewrite (proj2 (N.compare_lt_iff _ _)); [done|]. change (N_of_ascii "m") with 109%N. lia.
    + destruct (Z.eqb_spec d (- 10 ^ 36)) as [->|Hn'].
      * destruct (Z.ltb_spec d' 0).
        { change "--" with ("-" +:+ "-"). apply lt_app_l.
          destruct (Dec.sort_body_head (- d')) as (c & s & -> & Hdig); [lia|].
          by apply digit_after_dash. }
        destruct (Dec.sort_body_head d') as (c & s & -> & Hdig); [lia|].
        by apply digit_after_dash.
      * destruct Hc as [Hc|]; [|done]. rewrite (proj2 (Z.ltb_ge d' 0)) by done.
        destruct (Z.ltb_spec d 0); [|apply Dec.sort_body_lt; lia].
        destruct (Dec.sort_body_head d') as (c & s & -> & Hdig); [lia|].
        by apply digit_after_dash.
  - intros [H1 H2]. rewrite (proj2 (Z.eqb_neq d' (10 ^ 36))), (proj2 (Z.eqb_neq d (- 10 ^ 36))),
      (proj2 (Z.ltb_lt d 0)), (proj2 (Z.ltb_lt d' 0)) by lia.
    apply lt_app_l, Dec.sort_body_lt; lia.
Qed.

Lemma Dec_sortable_order_witness :
  ∃ b b', Dec.SortableDecBytes (-2) = Ok b ∧ Dec.SortableDecBytes (-1) = Ok b' ∧ Str.lt b' b.
Proof.
  destruct (Dec_sortable_order (-2) (-1) ltac:(lia) ltac:(lia)) as (b & b' & ? & ? & _ & H).
  exists b, b'. split; [assumption|]. split; [assumption|]. apply H. lia.
Defined.
