(* ===== verification/Coin.v ===== *)
(** * types/coin.go: [Coin] and the coin set [Coins]

    A set is the slice of its coins.  The two places where the source
    rearranges a slice in place ([Sort], and the slice [removeZeroCoins]
    returns unchanged) are modelled by the value that is returned.  The
    merge loop and the binary search are shared with types/dec_coin.go, whose
    coins have the same two fields. *)

From Stdlib Require Import ZArith Lia Ascii String.
From stdpp Require Import base tactics option list sorting strings.
From S2P Require Import Prelude GoStd Digits SdkInt.

Local Open Scope Z_scope.

Record Coin := mkCoin { Denom : string; Amount : Z }.

#[global] Instance Coin_eq_dec : EqDecision Coin.
Proof. solve_decision. Defined.

(** ** Denominations: [[a-zA-Z][a-zA-Z0-9/-]{2,127}] *)
Definition is_letter (c : ascii) : bool :=
  let n := N_of_ascii c in
  ((65 <=? n) && (n <=? 90) || (97 <=? n) && (n <=? 122))%N.

Definition is_denom_char (c : ascii) : bool :=
  is_letter c || is_digit c || Ascii.eqb c "/" || Ascii.eqb c "-".

Definition reDnm (denom : string) : bool :=
  match denom with
  | EmptyString => false
  | String c r =>
      is_letter c && sforall is_denom_char r &&
      (2 <=? String.length r)%nat && (String.length r <=? 127)%nat
  end.

Definition ValidateDenom (denom : string) : outcome unit :=
  fail_if (negb (reDnm denom)) "invalid denom".

Definition mustValidateDenom (denom : string) : outcome unit :=
  must (ValidateDenom denom).

(** ** Routines shared by [Coins] and [DecCoins] *)
Module CoinSet.
Section ops.
(** The checked addition of the amounts. *)
Context (add : Z → Z → outcome Z).

Definition isZero (c : Coin) : bool := Z.sgn (Amount c) =? 0.

(** The loop of [safeAdd] from the two current positions on. *)
Fixpoint merge_add (a : list Coin) : list Coin → outcome (list Coin) :=
  fix go (b : list Coin) : outcome (list Coin) :=
    match a, b with
    | [], _ => Ok (filter (λ c, isZero c = false) b)
    | _, [] => Ok (filter (λ c, isZero c = false) a)
    | coinA :: a', coinB :: b' =>
        match (Denom coinA ?= Denom coinB)%string with
        | Lt =>
            sum ← merge_add a' b;
            Ok (if isZero coinA then sum else coinA :: sum)
        | Eq =>
            amt ← add (Amount coinA) (Amount coinB);
            let res := mkCoin (Denom coinA) amt in
            sum ← merge_add a' b';
            Ok (if isZero res then sum else res :: sum)
        | Gt =>
            sum ← go b';
            Ok (if isZero coinB then sum else coinB :: sum)
        end
    end.
End ops.

(** The binary search for the amount of a denomination.  Every round drops
    at least one coin, so the length is enough fuel. *)
Fixpoint search (fuel : nat) (coins : list Coin) (denom : string) : Z :=
  match fuel with
  | O => 0
  | S f =>
      match coins with
      | [] => 0
      | [coin] => if String.eqb (Denom coin) denom then Amount coin else 0
      | _ =>
          let midIdx := (length coins / 2)%nat in
          match coins !! midIdx with
          | None => 0
          | Some coin =>
              if Str.ltb denom (Denom coin) then search f (take midIdx coins) denom
              else if String.eqb denom (Denom coin) then Amount coin
              else search f (drop (S midIdx) coins) denom
          end
      end
  end.

Definition amount_of (coins : list Coin) (denom : string) : Z :=
  search (S (length coins)) coins denom.

(** The loop of [Validate] after the first coin. *)
Fixpoint validate_rest (lowDenom : string) (seenDenoms : list string)
    (coins : list Coin) : outcome unit :=
  match coins with
  | [] => Ok ()
  | coin :: rest =>
      _ ← fail_if (bool_decide (Denom coin ∈ seenDenoms)) "duplicate denomination";
      _ ← ValidateDenom (Denom coin);
      _ ← fail_if (negb (Str.ltb lowDenom (Denom coin))) "denomination is not sorted";
      _ ← fail_if (negb (Z.sgn (Amount coin) =? 1)) "coin amount is not positive";
      validate_rest (Denom coin) (Denom coin :: seenDenoms) rest
  end.

Definition validate_one (coin : Coin) : outcome unit :=
  _ ← ValidateDenom (Denom coin);
  fail_if (negb (Z.sgn (Amount coin) =? 1)) "coin amount is not positive".

Definition validate (coins : list Coin) : outcome unit :=
  match coins with
  | [] => Ok ()
  | [coin] => validate_one coin
  | coin :: rest =>
      _ ← validate_one coin;
      validate_rest (Denom coin) [Denom coin] rest
  end.

(** [sort.Sort] by denomination.  On equal denominations Go promises no
    order; the sets in which there are any are rejected by [Validate]. *)
Definition denom_le (a b : Coin) : Prop := Str.ltb (Denom b) (Denom a) = false.

#[global] Instance denom_le_dec a b : Decision (denom_le a b).
Proof. unfold denom_le. apply _. Defined.

Definition sort (coins : list Coin) : list Coin := merge_sort denom_le coins.

End CoinSet.

(** ** [Coin] *)
Module Coin1.

Definition Validate (coin : Coin) : outcome unit :=
  _ ← ValidateDenom (Denom coin);
  fail_if (Int.IsNegative (Amount coin)) "negative coin amount".

Definition NewCoin (denom : string) (amount : Z) : outcome Coin :=
  let coin := mkCoin denom amount in
  _ ← must (Validate coin);
  Ok coin.

Definition NewInt64Coin (denom : string) (amount : Z) : outcome Coin :=
  NewCoin denom (Int.NewInt amount).

Definition to_String (coin : Coin) : string :=
  Int.to_String (Amount coin) +:+ Denom coin.

Definition IsValid (coin : Coin) : bool := is_ok (Validate coin).
Definition IsZero (coin : Coin) : bool := Int.IsZero (Amount coin).
Definition IsPositive (coin : Coin) : bool := Int.Sign (Amount coin) =? 1.
Definition IsNegative (coin : Coin) : bool := Int.Sign (Amount coin) =? -1.

Definition same_denom (coin other : Coin) : outcome unit :=
  panic_if (negb (String.eqb (Denom coin) (Denom other))) "invalid coin denominations".

Definition IsGTE (coin other : Coin) : outcome bool :=
  _ ← same_denom coin other; Ok (negb (Int.LT (Amount coin) (Amount other))).
Definition IsLT (coin other : Coin) : outcome bool :=
  _ ← same_denom coin other; Ok (Int.LT (Amount coin) (Amount other)).
Definition IsEqual (coin other : Coin) : outcome bool :=
  _ ← same_denom coin other; Ok (Int.Equal (Amount coin) (Amount other)).

Definition AddAmount (coin : Coin) (amount : Z) : outcome Coin :=
  mkCoin (Denom coin) <$> Int.Add (Amount coin) amount.
Definition Add (coin coinB : Coin) : outcome Coin :=
  _ ← same_denom coin coinB; AddAmount coin (Amount coinB).

Definition SubAmount (coin : Coin) (amount : Z) : outcome Coin :=
  r ← Int.Sub (Amount coin) amount;
  let res := mkCoin (Denom coin) r in
  _ ← panic_if (IsNegative res) "negative coin amount";
  Ok res.
Definition Sub (coin coinB : Coin) : outcome Coin :=
  _ ← same_denom coin coinB; SubAmount coin (Amount coinB).

End Coin1.

(** ** [Coins] *)
Module Coins.

Definition Sort (coins : list Coin) : list Coin := CoinSet.sort coins.

Definition removeZeroCoins (coins : list Coin) : list Coin :=
  if existsb Coin1.IsZero coins
  then filter (λ c, Coin1.IsZero c = false) coins
  else coins.

Definition sanitizeCoins (coins : list Coin) : list Coin :=
  let newCoins := removeZeroCoins coins in
  if (length newCoins =? 0)%nat then [] else Sort newCoins.

Definition Validate (coins : list Coin) : outcome unit := CoinSet.validate coins.
Definition IsValid (coins : list Coin) : bool := is_ok (Validate coins).

Definition NewCoins (coins : list Coin) : outcome (list Coin) :=
  let newCoins := sanitizeCoins coins in
  _ ← must (Validate newCoins);
  Ok newCoins.

Definition to_String (coins : list Coin) : string :=
  Str.join "," (Coin1.to_String <$> coins).

Fixpoint isSorted (coins : list Coin) : bool :=
  match coins with
  | c :: ((c' :: _) as rest) =>
      negb (Str.ltb (Denom c') (Denom c)) && isSorted rest
  | _ => true
  end.

Definition safeAdd (coins coinsB : list Coin) : outcome (list Coin) :=
  _ ← panic_if (negb (isSorted coins)) "Coins (self) must be sorted";
  _ ← panic_if (negb (isSorted coinsB)) "Wrong argument: coins must be sorted";
  CoinSet.merge_add Int.Add coins coinsB.

Definition Add (coins coinsB : list Coin) : outcome (list Coin) := safeAdd coins coinsB.

Definition negative (coins : list Coin) : list Coin :=
  (λ coin, mkCoin (Denom coin) (Int.Neg (Amount coin))) <$> coins.

Definition IsAnyNegative (coins : list Coin) : bool := existsb Coin1.IsNegative coins.

Definition SafeSub (coins coinsB : list Coin) : outcome (list Coin * bool) :=
  diff ← safeAdd coins (negative coinsB);
  Ok (diff, IsAnyNegative diff).

Definition Sub (coins coinsB : list Coin) : outcome (list Coin) :=
  '(diff, hasNeg) ← SafeSub coins coinsB;
  _ ← panic_if hasNeg "negative coin amount";
  Ok diff.

Definition AmountOfNoDenomValidation (coins : list Coin) (denom : string) : Z :=
  CoinSet.amount_of coins denom.

Definition AmountOf (coins : list Coin) (denom : string) : outcome Z :=
  _ ← mustValidateDenom denom;
  Ok (AmountOfNoDenomValidation coins denom).

Definition DenomsSubsetOf (coins coinsB : list Coin) : outcome bool :=
  if (length coinsB <? length coins)%nat then Ok false
  else all_out (λ coin, amt ← AmountOf coinsB (Denom coin); Ok (negb (Int.IsZero amt))) coins.

(** The list [Max] builds before it calls [NewCoins]. *)
Fixpoint max_loop (a : list Coin) : list Coin → list Coin :=
  fix go (b : list Coin) : list Coin :=
    match a, b with
    | [], _ => b
    | _, [] => a
    | coinA :: a', coinB :: b' =>
        match (Denom coinA ?= Denom coinB)%string with
        | Lt => coinA :: max_loop a' b
        | Eq => (if Int.GT (Amount coinB) (Amount coinA) then coinB else coinA)
                :: max_loop a' b'
        | Gt => coinB :: go b'
        end
    end.

Definition Max (coins coinsB : list Coin) : outcome (list Coin) :=
  NewCoins (max_loop coins coinsB).

Fixpoint min_loop (a : list Coin) : list Coin → list Coin :=
  fix go (b : list Coin) : list Coin :=
    match a, b with
    | [], _ | _, [] => []
    | coinA :: a', coinB :: b' =>
        match (Denom coinA ?= Denom coinB)%string with
        | Lt => min_loop a' b
        | Eq =>
            let minCoin := if Int.LT (Amount coinB) (Amount coinA) then coinB else coinA in
            if Coin1.IsZero minCoin then min_loop a' b' else minCoin :: min_loop a' b'
        | Gt => go b'
        end
    end.

Definition Min (coins coinsB : list Coin) : outcome (list Coin) :=
  NewCoins (min_loop coins coinsB).

Definition IsAllGT (coins coinsB : list Coin) : outcome bool :=
  if (length coins =? 0)%nat then Ok false
  else if (length coinsB =? 0)%nat then Ok true
  else
    sub ← DenomsSubsetOf coinsB coins;
    if negb sub then Ok false
    else all_out (λ coinB, amountA ← AmountOf coins (Denom coinB);
                           Ok (Int.GT amountA (Amount coinB))) coinsB.

Definition IsAllGTE (coins coinsB : list Coin) : outcome bool :=
  if (length coinsB =? 0)%nat then Ok true
  else if (length coins =? 0)%nat then Ok false
  else all_out (λ coinB, amt ← AmountOf coins (Denom coinB);
                         Ok (negb (Int.GT (Amount coinB) amt))) coinsB.

Definition IsAllLT (coins coinsB : list Coin) : outcome bool := IsAllGT coinsB coins.
Definition IsAllLTE (coins coinsB : list Coin) : outcome bool := IsAllGTE coinsB coins.

Definition IsAnyGT (coins coinsB : list Coin) : outcome bool :=
  if (length coinsB =? 0)%nat then Ok false
  else any_out (λ coin, amt ← AmountOf coinsB (Denom coin);
                        Ok (Int.GT (Amount coin) amt && negb (Int.IsZero amt))) coins.

Definition IsAnyGTE (coins coinsB : list Coin) : outcome bool :=
  if (length coinsB =? 0)%nat then Ok false
  else any_out (λ coin, amt ← AmountOf coinsB (Denom coin);
                        Ok (Int.GTE (Amount coin) amt && negb (Int.IsZero amt))) coins.

Definition IsZero (coins : list Coin) : bool := forallb Coin1.IsZero coins.
Definition Empty (coins : list Coin) : bool := (length coins =? 0)%nat.

Definition IsEqual (coins coinsB : list Coin) : outcome bool :=
  if negb (length coins =? length coinsB)%nat then Ok false
  else all_out (λ '(c, c'), Coin1.IsEqual c c') (zip (Sort coins) (Sort coinsB)).

Definition IsAllPositive (coins : list Coin) : bool :=
  negb (length coins =? 0)%nat && forallb Coin1.IsPositive coins.

End Coins.
