(* ===== verification/CoinFacts.v ===== *)
(** * Coin sets: the amounts they denote

    [sum_of d coins] is the total amount of denomination [d] in a slice of
    coins, the reference against which the merge loops, the binary search and
    the comparisons of types/coin.go are proved.  [wf] is what [Validate]
    accepts. *)

From Stdlib Require Import ZArith Lia Ascii String.
From stdpp Require Import base tactics option list sorting strings.
From S2P Require Import Prelude GoStd Digits SdkInt Coin.

Local Open Scope Z_scope.

Definition coin_lt (a b : Coin) : Prop := Str.lt (Denom a) (Denom b).

#[global] Instance coin_lt_trans : Transitive coin_lt.
Proof. intros a b c. apply Str.lt_trans. Qed.
#[global] Instance coin_lt_antisymm : AntiSymm (=) coin_lt.
Proof. intros a b H1 H2. by destruct (Str.lt_asym _ _ H1). Qed.

Abbreviation ssorted := (StronglySorted coin_lt).

Definition nonzero (c : Coin) : Prop := Amount c <> 0.

Definition coin_ok (c : Coin) : Prop := reDnm (Denom c) = true ∧ 0 < Amount c.

(** What a valid coin set is. *)
Definition wf (coins : list Coin) : Prop := ssorted coins ∧ Forall coin_ok coins.

(** Every amount fits the 256 bits of [Int]. *)
Definition in_range (coins : list Coin) : Prop := Forall (λ c, Int.valid (Amount c)) coins.

Fixpoint sum_of (d : string) (coins : list Coin) : Z :=
  match coins with
  | [] => 0
  | c :: rest => (if String.eqb (Denom c) d then Amount c else 0) + sum_of d rest
  end.

Lemma isZero_true c : CoinSet.isZero c = true ↔ Amount c = 0.
Proof. apply Int.IsZero_true. Qed.
Lemma isZero_false c : CoinSet.isZero c = false ↔ nonzero c.
Proof. apply Int.IsZero_false. Qed.

Lemma sum_of_app d a b : sum_of d (a ++ b) = sum_of d a + sum_of d b.
Proof. induction a as [|c a IH]; simpl; [done|]. rewrite IH. lia. Qed.

Lemma sum_of_perm d a b : a ≡ₚ b → sum_of d a = sum_of d b.
Proof. induction 1; simpl; lia. Qed.

Lemma sum_of_filter d a :
  sum_of d (filter (λ c, CoinSet.isZero c = false) a) = sum_of d a.
Proof.
  induction a as [|c a IH]; [done|]. rewrite filter_cons. case_decide as H; simpl; [lia|].
  apply not_false_is_true, isZero_true in H. rewrite IH, H. by case_match.
Qed.

Lemma sum_of_notin d a : (∀ c, c ∈ a → Denom c ≠ d) → sum_of d a = 0.
Proof.
  induction a as [|c a IH]; intros H; [done|]. simpl.
  rewrite (proj2 (String.eqb_neq _ _)) by (apply H; left).
  rewrite IH; [lia|]. intros c' Hc'. apply H. by right.
Qed.

Lemma sum_of_lt d a : Forall (λ c, Str.lt d (Denom c)) a → sum_of d a = 0.
Proof.
  rewrite Forall_forall. intros H. apply sum_of_notin. intros c Hc <-.
  by apply (Str.lt_irrefl (Denom c)), H.
Qed.

Lemma sum_of_gt d a : Forall (λ c, Str.lt (Denom c) d) a → sum_of d a = 0.
Proof.
  rewrite Forall_forall. intros H. apply sum_of_notin. intros c Hc <-.
  by apply (Str.lt_irrefl (Denom c)), H.
Qed.

Lemma sum_of_elem c a : ssorted a → c ∈ a → sum_of (Denom c) a = Amount c.
Proof.
  induction 1 as [|c' a Hs IH Hlt]; [by intros ?%elem_of_nil|].
  intros [->|Hc]%elem_of_cons; simpl.
  - rewrite String.eqb_refl, sum_of_lt; [lia|done].
  - rewrite Forall_forall in Hlt. specialize (Hlt c Hc).
    rewrite (proj2 (String.eqb_neq _ _)) by (by apply Str.lt_not_eq).
    rewrite IH by done. lia.
Qed.

Lemma sum_of_nonneg d a : Forall (λ c, 0 <= Amount c) a → 0 <= sum_of d a.
Proof. induction 1; simpl; [done|]. case_match; lia. Qed.

Lemma wf_nonneg a : wf a → Forall (λ c, 0 <= Amount c) a.
Proof. intros [_ H]. eapply Forall_impl; [done|]. intros c [_ ?]. lia. Qed.

Lemma wf_sum_nonneg d a : wf a → 0 <= sum_of d a.
Proof. intros H. by apply sum_of_nonneg, wf_nonneg. Qed.

Lemma wf_nonzero a : wf a → Forall nonzero a.
Proof. intros [_ H]. eapply Forall_impl; [done|]. intros c [_ ?]. unfold nonzero. lia. Qed.

Lemma wf_cons c a : wf (c :: a) ↔ coin_ok c ∧ Forall (coin_lt c) a ∧ wf a.
Proof.
  unfold wf. rewrite Forall_cons. split.
  - intros [[??]%StronglySorted_inv [??]]. done.
  - intros (?&?&?&?). split; [by constructor|done].
Qed.

Lemma sum_of_valid d a : ssorted a → in_range a → Int.valid (sum_of d a).
Proof.
  intros Hs Hr. destruct (decide (Exists (λ c, Denom c = d) a)) as [H|H].
  - apply Exists_exists in H as (c & Hc & <-). rewrite sum_of_elem by done.
    by eapply Forall_forall in Hr.
  - rewrite sum_of_notin; [done|]. intros c Hc E. apply H, Exists_exists. eauto.
Qed.

(** Coin sets in canonical form are determined by the amounts. *)
Lemma canonical_ext a b : ssorted a → ssorted b → Forall nonzero a → Forall nonzero b →
  (∀ d, sum_of d a = sum_of d b) → a = b.
Proof.
  intros Ha. revert b. induction Ha as [|c a Ha IH Hc]; intros b Hb Hza Hzb H.
  - destruct b as [|c' b]; [done|exfalso]. apply Forall_cons in Hzb as [Hz _].
    apply Hz. rewrite <-(sum_of_elem c' (c' :: b)) by (done || left). by rewrite <-H.
  - destruct Hb as [|c' b Hb Hc'].
    { exfalso. apply Forall_cons in Hza as [Hz _]. apply Hz.
      rewrite <-(sum_of_elem c (c :: a)) by (by constructor || left). by rewrite H. }
    apply Forall_cons in Hza as [Hz Hza], Hzb as [Hz' Hzb].
    pose proof (sum_of_elem c (c :: a) ltac:(by constructor) ltac:(left)) as Ec.
    pose proof (sum_of_elem c' (c' :: b) ltac:(by constructor) ltac:(left)) as Ec'.
    destruct (Str.lt_trichotomy (Denom c) (Denom c')) as [L|[E|L]].
    + exfalso. apply Hz. rewrite <-Ec, H. apply sum_of_lt. constructor; [done|].
      eapply Forall_impl; [exact Hc'|]. intros x Hx. by eapply Str.lt_trans.
    + assert (c = c') as <-.
      { destruct c as [d1 a1], c' as [d2 a2]; simpl in *. subst d2. f_equal.
        rewrite <-Ec, <-Ec'. apply H. }
      f_equal. apply IH; try done. intros d. specialize (H d). simpl in H. lia.
    + exfalso. apply Hz'. rewrite <-Ec', <-H. apply sum_of_lt. constructor; [done|].
      eapply Forall_impl; [exact Hc|]. intros x Hx. by eapply Str.lt_trans.
Qed.

Lemma Forall_filter_sub (P Q : Coin → Prop) `{∀ c, Decision (P c)} a :
  Forall Q a → Forall Q (filter P a).
Proof. rewrite !Forall_forall. intros H' c [_ Hc]%list_elem_of_filter. auto. Qed.

Lemma ssorted_filter (P : Coin → Prop) `{∀ c, Decision (P c)} a :
  ssorted a → ssorted (filter P a).
Proof.
  induction 1 as [|c a _ IH Hc]; [constructor|]. rewrite filter_cons.
  case_decide; [|done]. constructor; [done|]. by apply Forall_filter_sub.
Qed.

(** ** The merge loop *)
Section merge.
Context (add : Z → Z → outcome Z).

Lemma merge_add_nil_r a :
  CoinSet.merge_add add a [] = Ok (filter (λ c, CoinSet.isZero c = false) a).
Proof. by destruct a. Qed.

Lemma merge_add_cons ca a cb b :
  CoinSet.merge_add add (ca :: a) (cb :: b) =
  match (Denom ca ?= Denom cb)%string with
  | Lt => sum ← CoinSet.merge_add add a (cb :: b);
          Ok (if CoinSet.isZero ca then sum else ca :: sum)
  | Eq => amt ← add (Amount ca) (Amount cb);
          sum ← CoinSet.merge_add add a b;
          Ok (if CoinSet.isZero (mkCoin (Denom ca) amt) then sum
              else mkCoin (Denom ca) amt :: sum)
  | Gt => sum ← CoinSet.merge_add add (ca :: a) b;
          Ok (if CoinSet.isZero cb then sum else cb :: sum)
  end.
Proof. done. Qed.

(** The merge returns when the additions of matching amounts do. *)
Lemma merge_add_total a b :
  (∀ ca cb, ca ∈ a → cb ∈ b → Denom ca = Denom cb →
     ∃ r, add (Amount ca) (Amount cb) = Ok r) →
  ∃ s, CoinSet.merge_add add a b = Ok s.
Proof.
  revert b. induction a as [|ca a IHa]; [by intros b _; destruct b; eexists|].
  induction b as [|cb b IHb]; intros H; [rewrite merge_add_nil_r; by eexists|].
  rewrite merge_add_cons. destruct (Str.compare_spec (Denom ca) (Denom cb)) as [E|L|L].
  - destruct (H ca cb ltac:(left) ltac:(left) E) as [r ->].
    destruct (IHa b) as [s ->]; [|by eexists].
    intros x y Hx Hy. apply H; by right.
  - destruct (IHa (cb :: b)) as [s ->]; [|by eexists].
    intros x y Hx Hy. apply H; [by right|done].
  - destruct IHb as [s ->]; [|by eexists].
    intros x y Hx Hy. apply H; [done|by right].
Qed.

Context (add_exact : ∀ x y r, add x y = Ok r → r = x + y).

(** What is known of a sum of two slices. *)
Definition is_sum (a b s : list Coin) : Prop :=
  (∀ d, sum_of d s = sum_of d a + sum_of d b) ∧
  (∀ P : string → Prop, Forall (λ c, P (Denom c)) a → Forall (λ c, P (Denom c)) b →
     Forall (λ c, P (Denom c)) s) ∧
  Forall nonzero s ∧
  (ssorted a → ssorted b → ssorted s).

Lemma is_sum_filter a b : a = [] ∨ b = [] →
  is_sum a b (filter (λ c, CoinSet.isZero c = false) (a ++ b)).
Proof.
  intros He. unfold is_sum. split_and!.
  - intros d. by rewrite sum_of_filter, sum_of_app.
  - intros P Ha Hb. apply Forall_filter_sub, Forall_app. done.
  - apply Forall_forall. intros c [Hc _]%list_elem_of_filter. by apply isZero_false.
  - intros Ha Hb. apply ssorted_filter.
    destruct He as [-> | ->]; [done|]. by rewrite app_nil_r.
Qed.

(** One round of the loop: the coin [c] of the front, then the rest. *)
Lemma is_sum_step (c : Coin) a b a' b' s :
  is_sum a' b' s →
  (∀ d, sum_of d a + sum_of d b =
        (if String.eqb (Denom c) d then Amount c else 0) + (sum_of d a' + sum_of d b')) →
  (∀ P : string → Prop, Forall (λ c, P (Denom c)) a → Forall (λ c, P (Denom c)) b →
     P (Denom c) ∧ Forall (λ c, P (Denom c)) a' ∧ Forall (λ c, P (Denom c)) b') →
  (ssorted a → ssorted b → ssorted a' ∧ ssorted b' ∧
     Forall (coin_lt c) a' ∧ Forall (coin_lt c) b') →
  is_sum a b (if CoinSet.isZero c then s else c :: s).
Proof.
  intros (Hs & HP & Hz & Hso) H1 H2 H3. unfold is_sum.
  destruct (CoinSet.isZero c) eqn:Ez.
  - apply isZero_true in Ez. split_and!; try done.
    + intros d. rewrite H1, Hs, Ez. case_match; lia.
    + intros P Ha Hb. destruct (H2 P Ha Hb) as (_ & ? & ?). by apply HP.
    + intros Ha Hb. destruct (H3 Ha Hb) as (? & ? & _). by apply Hso.
  - apply isZero_false in Ez. split_and!.
    + intros d. rewrite H1. simpl. by rewrite Hs.
    + intros P Ha Hb. destruct (H2 P Ha Hb) as (? & ? & ?). constructor; [done|]. by apply HP.
    + by constructor.
    + intros Ha Hb. destruct (H3 Ha Hb) as (? & ? & Hla & Hlb).
      constructor; [by apply Hso|]. by apply (HP (Str.lt (Denom c))).
Qed.

Lemma coin_lt_forall_trans c c' a : coin_lt c c' → Forall (coin_lt c') a → Forall (coin_lt c) a.
Proof. intros H Ha. eapply Forall_impl; [exact Ha|]. intros x. by apply coin_lt_trans. Qed.

Lemma merge_add_is_sum a b s : CoinSet.merge_add add a b = Ok s → is_sum a b s.
Proof using add_exact.
  revert b s. induction a as [|ca a IHa].
  { intros b s. destruct b; intros [= <-]; apply (is_sum_filter []); by left. }
  induction b as [|cb b IHb]; intros s.
  { rewrite merge_add_nil_r. intros [= <-]. rewrite <-(app_nil_r (ca :: a)) at 2.
    apply is_sum_filter. by right. }
  rewrite merge_add_cons. destruct (Str.compare_spec (Denom ca) (Denom cb)) as [E|L|L];
    intros H; inv_ok.
  - match goal with H : add _ _ = Ok _ |- _ => apply add_exact in H as -> end.
    eapply is_sum_step; [by eapply IHa| | |].
    + intros d. cbn [sum_of Denom Amount]. rewrite <-E. destruct (String.eqb (Denom ca) d); lia.
    + intros P [??]%Forall_cons [??]%Forall_cons. done.
    + intros [??]%StronglySorted_inv [? Hb]%StronglySorted_inv. split_and!; try done.
      eapply Forall_impl; [exact Hb|]. intros x. unfold coin_lt. simpl. by rewrite E.
  - eapply is_sum_step; [by eapply IHa| | |].
    + intros d. simpl. lia.
    + intros P [??]%Forall_cons Hb. done.
    + intros [??]%StronglySorted_inv Hb. split_and!; try done.
      constructor; [done|]. apply StronglySorted_inv in Hb as [_ Hb].
      by eapply coin_lt_forall_trans.
  - eapply is_sum_step; [by eapply IHb| | |].
    + intros d. simpl. lia.
    + intros P Ha [??]%Forall_cons. done.
    + intros Ha [??]%StronglySorted_inv. split_and!; try done.
      constructor; [done|]. apply StronglySorted_inv in Ha as [_ Ha].
      by eapply coin_lt_forall_trans.
Qed.
End merge.

(** ** [Validate] decides [wf] *)

Lemma ValidateDenom_Ok d u : ValidateDenom d = Ok u ↔ reDnm d = true.
Proof. unfold ValidateDenom. rewrite fail_if_Ok, negb_false_iff. done. Qed.

Lemma mustValidateDenom_Ok d u : mustValidateDenom d = Ok u ↔ reDnm d = true.
Proof. unfold mustValidateDenom. rewrite must_Ok. apply ValidateDenom_Ok. Qed.

Lemma positive_Ok z : negb (Z.sgn z =? 1) = false ↔ 0 < z.
Proof. rewrite negb_false_iff. apply Int.IsPositive_true. Qed.

Lemma validate_one_Ok c u : CoinSet.validate_one c = Ok u ↔ coin_ok c.
Proof.
  unfold CoinSet.validate_one, coin_ok. split.
  - intros H. inv_ok. destruct u. rewrite ValidateDenom_Ok, positive_Ok in *. done.
  - intros [H1 H2]. rewrite (proj2 (ValidateDenom_Ok _ ()) H1). simpl.
    apply fail_if_Ok, positive_Ok. done.
Qed.

Lemma validate_rest_Ok low seen a u :
  (∀ d, d ∈ seen → d = low ∨ Str.lt d low) →
  CoinSet.validate_rest low seen a = Ok u ↔
  Forall (λ c, Str.lt low (Denom c)) a ∧ wf a.
Proof.
  destruct u. revert low seen. induction a as [|c a IH]; intros low seen Hseen.
  { split; [|done]. intros _. split; [done|]. split; constructor. }
  assert (Str.lt low (Denom c) →
    ∀ d, d ∈ Denom c :: seen → d = Denom c ∨ Str.lt d (Denom c)) as Hseen'.
  { intros Hlt d [->|Hd]%elem_of_cons; [by left|]. right.
    destruct (Hseen d Hd) as [-> |]; [done|]. by eapply Str.lt_trans. }
  simpl. split.
  - intros H. inv_ok. rewrite ?ValidateDenom_Ok, ?positive_Ok, ?negb_false_iff in *.
    match goal with H : CoinSet.validate_rest _ _ _ = _ |- _ =>
      apply IH in H as [Hl Hw]; [|by apply Hseen'] end.
    split; [|apply wf_cons; done]. constructor; [done|].
    eapply Forall_impl; [exact Hl|]. intros y Hy. by eapply Str.lt_trans.
  - intros [[Hlt Hl]%Forall_cons (Hok & Hc & Hw)%wf_cons].
    rewrite bool_decide_false; simpl.
    2:{ intros Hin. destruct (Hseen _ Hin) as [E|L].
        - rewrite E in Hlt. by apply Str.lt_irrefl in Hlt.
        - by apply (Str.lt_asym _ _ L). }
    destruct Hok as [Hd Hp]. rewrite (proj2 (ValidateDenom_Ok _ ()) Hd). simpl.
    unfold Str.lt in Hlt. rewrite Hlt, (proj2 (positive_Ok _) Hp). simpl.
    apply IH; [by apply Hseen'|done].
Qed.

Lemma Validate_wf a u : Coins.Validate a = Ok u ↔ wf a.
Proof.
  unfold Coins.Validate, CoinSet.validate. destruct u, a as [|c [|c' a]].
  - split; [|done]. intros _. split; constructor.
  - rewrite validate_one_Ok, wf_cons. split; [|by intros [? _]].
    intros H. split_and!; [done|constructor|]. split; constructor.
  - assert (∀ d, d ∈ [Denom c] → d = Denom c ∨ Str.lt d (Denom c)) as Hs.
    { intros d Hd%list_elem_of_singleton. by left. }
    rewrite wf_cons. split.
    + intros (u & H1%validate_one_Ok & H2)%bind_Ok. by apply validate_rest_Ok in H2.
    + intros (Hc & Hl & Hw). apply bind_Ok. exists ().
      split; [by apply validate_one_Ok|by apply validate_rest_Ok].
Qed.

(** ** The binary search *)

Lemma search_sum fuel a d : ssorted a → (length a < fuel)%nat →
  CoinSet.search fuel a d = sum_of d a.
Proof.
  revert a. induction fuel as [|f IH]; intros a Hs Hl; [lia|].
  destruct a as [|c [|c' a]]; [done|simpl; case_match; lia|].
  cbn [CoinSet.search]. set (l := c :: c' :: a) in *.
  assert (length l / 2 < length l)%nat as Hmid.
  { apply Nat.div_lt; simpl; lia. }
  destruct (lookup_lt_is_Some_2 l (length l / 2) Hmid) as [m Hm]. rewrite Hm.
  set (k := (length l / 2)%nat) in *. clearbody l k. clear c c' a.
  pose proof (take_drop_middle l k m Hm) as Hl'.
  rewrite <-Hl' in Hs. apply StronglySorted_app in Hs as (Hcross & Hst & Hsd).
  apply StronglySorted_inv in Hsd as [Hsd Hmd].
  assert (sum_of d l = sum_of d (take k l) +
    ((if String.eqb (Denom m) d then Amount m else 0) + sum_of d (drop (S k) l))) as Hsum.
  { by rewrite <-Hl' at 1; rewrite sum_of_app. }
  rewrite Hsum. unfold Str.ltb at 1.
  assert (Forall (λ c, Str.lt (Denom c) (Denom m)) (take k l)) as Htm.
  { apply Forall_forall. intros c Hc. apply Hcross; [done|]. left. }
  change (String.ltb d (Denom m)) with (Str.ltb d (Denom m)).
  destruct (Str.ltb d (Denom m)) eqn:E; [|destruct (String.eqb_spec d (Denom m)) as [->|Hne]].
  - rewrite IH by (rewrite ?length_take; done || lia).
    rewrite (proj2 (String.eqb_neq (Denom m) d)) by (intros <-; by apply Str.lt_irrefl in E).
    rewrite (sum_of_lt d (drop _ _)); [lia|].
    eapply Forall_impl; [exact Hmd|]. intros x Hx. by eapply Str.lt_trans.
  - rewrite String.eqb_refl, (sum_of_gt _ (take _ _)), (sum_of_lt _ (drop _ _)) by done. lia.
  - rewrite IH by (rewrite ?length_drop; done || lia).
    rewrite (proj2 (String.eqb_neq (Denom m) d)) by congruence.
    rewrite (sum_of_gt d (take _ _)); [lia|].
    destruct (Str.lt_trichotomy d (Denom m)) as [L|[?|L]]; [by rewrite L in E|done|].
    eapply Forall_impl; [exact Htm|]. intros x Hx. by apply (Str.lt_trans _ (Denom m)).
Qed.

Lemma AmountOf_sum a d : ssorted a → Coins.AmountOfNoDenomValidation a d = sum_of d a.
Proof. intros H. apply search_sum; [done|lia]. Qed.

Lemma AmountOf_run a d : ssorted a → reDnm d = true → Coins.AmountOf a d = Ok (sum_of d a).
Proof.
  intros Hs Hd. unfold Coins.AmountOf. rewrite (proj2 (mustValidateDenom_Ok d ())) by done.
  simpl. by rewrite AmountOf_sum.
Qed.

(** ** Sorting and [NewCoins] *)

#[global] Instance denom_le_trans : Transitive CoinSet.denom_le.
Proof.
  intros a b c. unfold CoinSet.denom_le. intros H1 H2.
  destruct (Str.ltb (Denom c) (Denom a)) eqn:E; [|done]. exfalso.
  destruct (Str.lt_trichotomy (Denom b) (Denom a)) as [L|[Eq|L]].
  - by rewrite L in H1.
  - rewrite Eq in H2. congruence.
  - assert (Str.lt (Denom c) (Denom b)) as L' by (by eapply Str.lt_trans). by rewrite L' in H2.
Qed.

#[global] Instance denom_le_total : Total CoinSet.denom_le.
Proof.
  intros a b. unfold CoinSet.denom_le.
  destruct (Str.ltb (Denom b) (Denom a)) eqn:E; [right|by left].
  destruct (Str.ltb (Denom a) (Denom b)) eqn:E'; [|done].
  by destruct (Str.lt_asym (Denom a) (Denom b)).
Qed.

Lemma sort_perm a : CoinSet.sort a ≡ₚ a.
Proof. apply merge_sort_Permutation. Qed.

Lemma ssorted_NoDup a : ssorted a → NoDup (Denom <$> a).
Proof.
  induction 1 as [|c a _ IH Hc]; simpl; constructor; [|done].
  rewrite list_elem_of_fmap. intros (c' & E & Hin). rewrite Forall_forall in Hc.
  specialize (Hc c' Hin). unfold coin_lt in Hc. rewrite E in Hc. by apply Str.lt_irrefl in Hc.
Qed.

(** Sorted with distinct denominations is strictly sorted. *)
Lemma sort_ssorted a : NoDup (Denom <$> a) → ssorted (CoinSet.sort a).
Proof.
  intros Hnd. rewrite <-(sort_perm a) in Hnd.
  assert (StronglySorted CoinSet.denom_le (CoinSet.sort a)) as Hs.
  { apply StronglySorted_merge_sort; apply _. }
  induction Hs as [|c l Hs IH Hc]; [constructor|]. simpl in Hnd.
  apply NoDup_cons in Hnd as [Hni Hnd]. constructor; [by apply IH|].
  apply Forall_forall. intros c' Hc'. rewrite Forall_forall in Hc. specialize (Hc c' Hc').
  destruct (Str.lt_trichotomy (Denom c) (Denom c')) as [L|[E|L]]; [done| |].
  - destruct Hni. rewrite E. by apply list_elem_of_fmap_2.
  - unfold CoinSet.denom_le in Hc. by rewrite L in Hc.
Qed.

Lemma sort_id a : ssorted a → CoinSet.sort a = a.
Proof.
  intros H. apply (StronglySorted_unique coin_lt); [|done|apply sort_perm].
  by apply sort_ssorted, ssorted_NoDup.
Qed.

Lemma removeZeroCoins_filter a :
  Coins.removeZeroCoins a = filter (λ c, CoinSet.isZero c = false) a.
Proof.
  unfold Coins.removeZeroCoins. destruct (existsb Coin1.IsZero a) eqn:E; [done|].
  induction a as [|c a IH]; [done|]. simpl in E. apply orb_false_iff in E as [Ec E].
  rewrite filter_cons_True by done. by rewrite <-IH.
Qed.

Lemma sanitizeCoins_sort a :
  Coins.sanitizeCoins a = CoinSet.sort (filter (λ c, CoinSet.isZero c = false) a).
Proof.
  unfold Coins.sanitizeCoins. rewrite removeZeroCoins_filter.
  by destruct (filter _ a).
Qed.

Lemma NewCoins_Ok a s : Coins.NewCoins a = Ok s → wf s ∧ ∀ d, sum_of d s = sum_of d a.
Proof.
  unfold Coins.NewCoins. intros (u & Hv & [= <-])%bind_Ok.
  apply (proj1 (must_Ok _ _)), Validate_wf in Hv. split; [done|]. intros d. rewrite sanitizeCoins_sort.
  by rewrite (sum_of_perm d _ _ (sort_perm _)), sum_of_filter.
Qed.

(** A slice that is strictly sorted, with valid denominations and no negative
    amount, is accepted. *)
Lemma NewCoins_run a : ssorted a →
  Forall (λ c, reDnm (Denom c) = true ∧ 0 <= Amount c) a →
  Coins.NewCoins a = Ok (filter (λ c, CoinSet.isZero c = false) a).
Proof.
  intros Hs Hok. unfold Coins.NewCoins. rewrite sanitizeCoins_sort.
  rewrite sort_id by (by apply ssorted_filter).
  set (l := filter _ a). assert (wf l) as Hw.
  { split; [by apply ssorted_filter|]. apply Forall_forall.
    intros c [Hz Hc]%list_elem_of_filter. rewrite Forall_forall in Hok.
    destruct (Hok c Hc). apply isZero_false in Hz. unfold nonzero, coin_ok in *. split; [done|lia]. }
  apply bind_Ok. exists (). split; [|done]. by apply (proj2 (must_Ok _ _)), Validate_wf.
Qed.

Lemma filter_nonzero_id a : Forall nonzero a → filter (λ c, CoinSet.isZero c = false) a = a.
Proof.
  induction 1 as [|c a Hz _ IH]; [done|]. rewrite filter_cons_True; [by rewrite IH|].
  by apply isZero_false.
Qed.

Lemma NewCoins_wf a : wf a → Coins.NewCoins a = Ok a.
Proof.
  intros Hw. rewrite NewCoins_run.
  - by rewrite filter_nonzero_id by (by apply wf_nonzero).
  - apply Hw.
  - destruct Hw as [_ Hw]. eapply Forall_impl; [exact Hw|]. intros c [? ?]. split; [done|lia].
Qed.

(** ** Addition and subtraction *)

Lemma isSorted_ssorted a : ssorted a → Coins.isSorted a = true.
Proof.
  induction 1 as [|c a Hs IH Hc]; [done|]. simpl. destruct a as [|c' a]; [done|].
  apply Forall_cons in Hc as [Hc _]. apply andb_true_iff. split; [|done].
  apply negb_true_iff. destruct (Str.ltb (Denom c') (Denom c)) eqn:E; [|done].
  by destruct (Str.lt_asym (Denom c) (Denom c')).
Qed.

Lemma safeAdd_run a b : ssorted a → ssorted b →
  Coins.safeAdd a b = CoinSet.merge_add Int.Add a b.
Proof.
  intros Ha Hb. unfold Coins.safeAdd. by rewrite !isSorted_ssorted by done.
Qed.

Lemma Int_Add_exact x y r : Int.Add x y = Ok r → r = x + y.
Proof. by intros [? _]%Int.Add_Ok. Qed.

(** The sum of two sets returns when every total fits 256 bits. *)
Lemma safeAdd_total a b : ssorted a → ssorted b →
  (∀ d, Int.valid (sum_of d a + sum_of d b)) → ∃ s, Coins.safeAdd a b = Ok s.
Proof.
  intros Ha Hb Hv. rewrite safeAdd_run by done. apply merge_add_total.
  intros ca cb Hca Hcb E. exists (Amount ca + Amount cb). apply Int.Add_Ok. split; [done|].
  specialize (Hv (Denom ca)). rewrite sum_of_elem in Hv by done. rewrite E in Hv.
  by rewrite sum_of_elem in Hv.
Qed.

Lemma safeAdd_spec a b s : ssorted a → ssorted b → Coins.safeAdd a b = Ok s →
  (∀ d, sum_of d s = sum_of d a + sum_of d b) ∧ Forall nonzero s ∧ ssorted s ∧
  (∀ P : string → Prop, Forall (λ c, P (Denom c)) a → Forall (λ c, P (Denom c)) b →
     Forall (λ c, P (Denom c)) s).
Proof.
  intros Ha Hb H. rewrite safeAdd_run in H by done.
  apply merge_add_is_sum in H as (?&?&?&?); [|exact Int_Add_exact]. auto.
Qed.

(** A canonical slice of valid denominations with no negative total is [wf]. *)
Lemma canonical_wf s : ssorted s → Forall nonzero s →
  Forall (λ c, reDnm (Denom c) = true) s → (∀ d, 0 <= sum_of d s) → wf s.
Proof.
  intros Hs Hz Hd Hn. split; [done|]. rewrite Forall_forall in Hz, Hd |- *.
  intros c Hc. specialize (Hn (Denom c)). rewrite sum_of_elem in Hn by done.
  specialize (Hz c Hc). unfold nonzero, coin_ok in *. split; [auto|lia].
Qed.

Lemma wf_denoms a : wf a → Forall (λ c, reDnm (Denom c) = true) a.
Proof. intros [_ H]. eapply Forall_impl; [exact H|]. by intros c [? _]. Qed.

Lemma safeAdd_wf a b s : wf a → wf b → Coins.safeAdd a b = Ok s →
  wf s ∧ ∀ d, sum_of d s = sum_of d a + sum_of d b.
Proof.
  intros Ha Hb H. destruct (safeAdd_spec a b s (proj1 Ha) (proj1 Hb) H) as (Hs & Hz & Hso & HP).
  split; [|done]. apply canonical_wf; try done.
  - apply (HP (λ d, reDnm d = true)); by apply wf_denoms.
  - intros d. rewrite Hs. pose proof (wf_sum_nonneg d a Ha).
    pose proof (wf_sum_nonneg d b Hb). lia.
Qed.

Lemma negative_ssorted a : ssorted a → ssorted (Coins.negative a).
Proof.
  induction 1 as [|c a _ IH Hc]; simpl; constructor; [done|].
  apply Forall_fmap. eapply Forall_impl; [exact Hc|]. done.
Qed.

Lemma negative_sum d a : sum_of d (Coins.negative a) = - sum_of d a.
Proof.
  induction a as [|c a IH]; [done|]. simpl. rewrite IH. unfold Int.Neg.
  destruct (String.eqb (Denom c) d); lia.
Qed.

Lemma IsAnyNegative_false s : Coins.IsAnyNegative s = false ↔ Forall (λ c, 0 <= Amount c) s.
Proof.
  unfold Coins.IsAnyNegative. induction s as [|c s IH]; [by split|]. simpl.
  rewrite orb_false_iff, IH, Forall_cons. unfold Coin1.IsNegative, Int.Sign.
  change (Z.sgn (Amount c) =? -1) with (Int.IsNegative (Amount c)).
  by rewrite Int.IsNegative_false.
Qed.

(** [SafeSub] of two valid sets always returns; the flag tells whether some
    denomination went below zero. *)
Lemma SafeSub_spec a b : wf a → wf b → in_range a → in_range b →
  ∃ diff neg, Coins.SafeSub a b = Ok (diff, neg) ∧ ssorted diff ∧ Forall nonzero diff ∧
    (∀ d, sum_of d diff = sum_of d a - sum_of d b) ∧
    Forall (λ c, reDnm (Denom c) = true) diff ∧
    (neg = false ↔ ∀ d, sum_of d b <= sum_of d a).
Proof.
  intros Ha Hb Hra Hrb. pose proof (negative_ssorted b (proj1 Hb)) as Hnb.
  destruct (safeAdd_total a (Coins.negative b) (proj1 Ha) Hnb) as [s Hs].
  { intros d. rewrite negative_sum. pose proof (wf_sum_nonneg d a Ha).
    pose proof (wf_sum_nonneg d b Hb). pose proof (sum_of_valid d a (proj1 Ha) Hra).
    pose proof (sum_of_valid d b (proj1 Hb) Hrb). unfold Int.valid in *. lia. }
  destruct (safeAdd_spec _ _ _ (proj1 Ha) Hnb Hs) as (Hsum & Hz & Hso & HP).
  exists s, (Coins.IsAnyNegative s). unfold Coins.SafeSub. rewrite Hs.
  assert (∀ d, sum_of d s = sum_of d a - sum_of d b) as Hd.
  { intros d. rewrite Hsum, negative_sum. lia. }
  split_and!; try done.
  - apply (HP (λ d, reDnm d = true)); [by apply wf_denoms|].
    apply Forall_fmap. by apply wf_denoms in Hb.
  - rewrite IsAnyNegative_false. split.
    + intros Hn d. pose proof (sum_of_nonneg d s Hn) as H. rewrite Hd in H. lia.
    + intros H. apply Forall_forall. intros c Hc. specialize (H (Denom c)).
      specialize (Hd (Denom c)). rewrite (sum_of_elem c s) in Hd by done. lia.
Qed.

(** ** Comparison *)

Lemma IsAllGTE_spec a b : ssorted a → wf b → Forall (λ c, 0 <= Amount c) a →
  ∃ r, Coins.IsAllGTE a b = Ok r ∧ (r = true ↔ ∀ d, sum_of d b <= sum_of d a).
Proof.
  intros Ha Hb Hna. unfold Coins.IsAllGTE.
  destruct b as [|cb b].
  { exists true. split; [done|]. split; [|done]. intros _ d. simpl. by apply sum_of_nonneg. }
  simpl length at 1. cbn [Nat.eqb]. destruct a as [|ca a].
  { exists false. split; [done|]. split; [done|]. intros H. specialize (H (Denom cb)).
    rewrite (sum_of_elem cb) in H by (apply Hb || left).
    destruct Hb as [_ [[_ ?] _]%Forall_cons]. simpl in H. lia. }
  simpl length at 1. cbn [Nat.eqb]. set (l := ca :: a) in *. set (m := cb :: b) in *.
  clearbody l m. clear ca a cb b.
  rewrite (all_out_run _ (λ c, negb (Int.GT (Amount c) (sum_of (Denom c) l)))).
  2:{ pose proof (wf_denoms m Hb) as Hd. eapply Forall_impl; [exact Hd|].
      intros c Hc. by rewrite AmountOf_run. }
  eexists. split; [done|]. rewrite forallb_forall. split.
  - intros H d. destruct (decide (Exists (λ c, Denom c = d) m)) as [He|He].
    + apply Exists_exists in He as (c & Hc & <-). rewrite (sum_of_elem c m) by (done || apply Hb).
      specialize (H c (proj1 (list_elem_of_In _ _) Hc)). unfold Int.GT in H.
      rewrite negb_true_iff, Z.ltb_ge in H. done.
    + rewrite (sum_of_notin d m); [by apply sum_of_nonneg|].
      intros c Hc E. apply He, Exists_exists. eauto.
  - intros H c Hc%list_elem_of_In. unfold Int.GT. rewrite negb_true_iff, Z.ltb_ge.
    rewrite <-(sum_of_elem c m) by (done || apply Hb). apply H.
Qed.

(** ** [Max] and [Min] *)

(** The front coin of a strictly sorted slice, seen from any denomination. *)
Lemma sum_of_head d c a : ssorted (c :: a) →
  (d = Denom c ∧ sum_of d (c :: a) = Amount c ∧ sum_of d a = 0) ∨
  (d ≠ Denom c ∧ sum_of d (c :: a) = sum_of d a).
Proof.
  intros [_ Hc]%StronglySorted_inv. simpl. destruct (String.eqb_spec (Denom c) d) as [<-|H].
  - left. rewrite sum_of_lt by done. split_and!; (done || lia).
  - right. split; [congruence|]. lia.
Qed.

(** A denomination below the front one has no amount. *)
Lemma sum_of_below c c' a : coin_lt c c' → ssorted (c' :: a) →
  Forall (coin_lt c) (c' :: a) ∧ sum_of (Denom c) (c' :: a) = 0.
Proof.
  intros Hlt [_ Ha]%StronglySorted_inv.
  assert (Forall (coin_lt c) (c' :: a)) as H by (constructor; [done|]; by eapply coin_lt_forall_trans).
  split; [done|]. by apply sum_of_lt.
Qed.

Lemma max_loop_cons ca a cb b :
  Coins.max_loop (ca :: a) (cb :: b) =
  match (Denom ca ?= Denom cb)%string with
  | Lt => ca :: Coins.max_loop a (cb :: b)
  | Eq => (if Int.GT (Amount cb) (Amount ca) then cb else ca) :: Coins.max_loop a b
  | Gt => cb :: Coins.max_loop (ca :: a) b
  end.
Proof. done. Qed.

Lemma min_loop_cons ca a cb b :
  Coins.min_loop (ca :: a) (cb :: b) =
  match (Denom ca ?= Denom cb)%string with
  | Lt => Coins.min_loop a (cb :: b)
  | Eq => let minCoin := if Int.LT (Amount cb) (Amount ca) then cb else ca in
          if Coin1.IsZero minCoin then Coins.min_loop a b else minCoin :: Coins.min_loop a b
  | Gt => Coins.min_loop (ca :: a) b
  end.
Proof. done. Qed.

Lemma max_loop_from (P : Coin → Prop) a b :
  Forall P a → Forall P b → Forall P (Coins.max_loop a b).
Proof.
  revert b. induction a as [|ca a IHa]; [by intros []|].
  induction b as [|cb b IHb]; [done|]. intros Ha Hb. simpl.
  pose proof Ha as [Pa Ha']%Forall_cons. pose proof Hb as [Pb Hb']%Forall_cons.
  destruct (Denom ca ?= Denom cb)%string.
  - constructor; [by case_match|by apply IHa].
  - constructor; [done|by apply IHa].
  - constructor; [done|by apply IHb].
Qed.

Lemma max_loop_spec a b : ssorted a → ssorted b →
  Forall (λ c, 0 <= Amount c) a → Forall (λ c, 0 <= Amount c) b →
  ssorted (Coins.max_loop a b) ∧
  ∀ d, sum_of d (Coins.max_loop a b) = Z.max (sum_of d a) (sum_of d b).
Proof.
  revert b. induction a as [|ca a IHa].
  { intros b _ Hb _ Hnb. destruct b as [|cb b]; [done|]. split; [done|]. intros d.
    pose proof (sum_of_nonneg d _ Hnb). change (sum_of d []) with 0.
    change (Coins.max_loop [] (cb :: b)) with (cb :: b). lia. }
  induction b as [|cb b IHb]; intros Ha Hb Hna Hnb.
  { split; [done|]. intros d. pose proof (sum_of_nonneg d _ Hna). change (sum_of d []) with 0.
    change (Coins.max_loop (ca :: a) []) with (ca :: a). lia. }
  pose proof Ha as [Hsa Hla]%StronglySorted_inv. pose proof Hb as [Hsb Hlb]%StronglySorted_inv.
  pose proof Hna as [Pa Hna']%Forall_cons. pose proof Hnb as [Pb Hnb']%Forall_cons.
  simpl in Pa, Pb. rewrite max_loop_cons. destruct (Str.compare_spec (Denom ca) (Denom cb)) as [E|L|L].
  - destruct (IHa b) as [Hs Hm]; try done. set (c := if Int.GT _ _ then cb else ca).
    assert (Denom c = Denom ca ∧ Amount c = Z.max (Amount ca) (Amount cb)) as [Hd Hamt].
    { unfold c, Int.GT. destruct (Z.ltb_spec (Amount ca) (Amount cb)); split; try done; lia. }
    split.
    + constructor; [done|]. unfold coin_lt. rewrite Hd.
      apply (max_loop_from (coin_lt ca)); [done|]. eapply Forall_impl; [exact Hlb|].
      intros x. unfold coin_lt. by rewrite E.
    + intros d. specialize (Hm d). cbn [sum_of]. rewrite Hd, Hamt, Hm, <-E.
      destruct (String.eqb_spec (Denom ca) d) as [<-|]; [|lia].
      rewrite (sum_of_lt _ a), (sum_of_lt _ b) by (exact Hla || (rewrite E; exact Hlb)). lia.
  - destruct (IHa (cb :: b)) as [Hs Hm]; try done.
    destruct (sum_of_below ca cb b L Hb) as [Hlt H0]. split.
    + constructor; [done|]. by apply (max_loop_from (coin_lt ca)).
    + intros d. specialize (Hm d).
      change (sum_of d (ca :: Coins.max_loop a (cb :: b))) with
        ((if String.eqb (Denom ca) d then Amount ca else 0) + sum_of d (Coins.max_loop a (cb :: b))).
      rewrite Hm. destruct (sum_of_head d ca a Ha) as [(-> & -> & ->)|(Hne & ->)].
      * rewrite String.eqb_refl, H0. lia.
      * rewrite (proj2 (String.eqb_neq _ _)) by congruence. lia.
  - destruct IHb as [Hs Hm]; try done.
    destruct (sum_of_below cb ca a L Ha) as [Hlt H0]. split.
    + constructor; [done|]. by apply (max_loop_from (coin_lt cb)).
    + intros d. specialize (Hm d).
      change (sum_of d (cb :: Coins.max_loop (ca :: a) b)) with
        ((if String.eqb (Denom cb) d then Amount cb else 0) + sum_of d (Coins.max_loop (ca :: a) b)).
      rewrite Hm. destruct (sum_of_head d cb b Hb) as [(-> & -> & ->)|(Hne & ->)].
      * rewrite String.eqb_refl, H0. lia.
      * rewrite (proj2 (String.eqb_neq _ _)) by congruence. lia.
Qed.

Lemma min_loop_from (P : Coin → Prop) a b :
  Forall P a → Forall P b → Forall P (Coins.min_loop a b).
Proof.
  revert b. induction a as [|ca a IHa]; [by intros []|].
  induction b as [|cb b IHb]; [done|]. intros Ha Hb. simpl.
  pose proof Ha as [Pa Ha']%Forall_cons. pose proof Hb as [Pb Hb']%Forall_cons.
  destruct (Denom ca ?= Denom cb)%string; [|by apply IHa|by apply IHb].
  case_match; [by apply IHa|]. constructor; [by case_match|by apply IHa].
Qed.

Lemma min_loop_spec a b : ssorted a → ssorted b →
  Forall (λ c, 0 <= Amount c) a → Forall (λ c, 0 <= Amount c) b →
  ssorted (Coins.min_loop a b) ∧
  ∀ d, sum_of d (Coins.min_loop a b) = Z.min (sum_of d a) (sum_of d b).
Proof.
  revert b. induction a as [|ca a IHa].
  { intros b _ Hb _ Hnb. assert (Coins.min_loop [] b = []) as -> by (by destruct b).
    split; [constructor|]. intros d. pose proof (sum_of_nonneg d _ Hnb). simpl. lia. }
  induction b as [|cb b IHb]; intros Ha Hb Hna Hnb.
  { split; [constructor|]. intros d. pose proof (sum_of_nonneg d _ Hna).
    change (sum_of d (Coins.min_loop (ca :: a) [])) with 0. change (sum_of d []) with 0. lia. }
  pose proof Ha as [Hsa Hla]%StronglySorted_inv. pose proof Hb as [Hsb Hlb]%StronglySorted_inv.
  pose proof Hna as [Pa Hna']%Forall_cons. pose proof Hnb as [Pb Hnb']%Forall_cons.
  simpl in Pa, Pb. rewrite min_loop_cons. cbv zeta. destruct (Str.compare_spec (Denom ca) (Denom cb)) as [E|L|L].
  - destruct (IHa b) as [Hs Hm]; try done. set (c := if Int.LT _ _ then cb else ca).
    assert (Denom c = Denom ca ∧ Amount c = Z.min (Amount ca) (Amount cb)) as [Hd Hamt].
    { unfold c, Int.LT. destruct (Z.ltb_spec (Amount cb) (Amount ca)); split; try done; lia. }
    clearbody c.
    assert (∀ d, sum_of d (c :: Coins.min_loop a b) =
                 Z.min (sum_of d (ca :: a)) (sum_of d (cb :: b))) as Hsum.
    { intros d. specialize (Hm d). cbn [sum_of]. rewrite Hd, Hamt, Hm, <-E.
      destruct (String.eqb_spec (Denom ca) d) as [<-|]; [|lia].
      rewrite (sum_of_lt _ a), (sum_of_lt _ b) by (exact Hla || (rewrite E; exact Hlb)). lia. }
    destruct (Coin1.IsZero c) eqn:Ez.
    + apply Int.IsZero_true in Ez. split; [done|]. intros d. rewrite <-Hsum. simpl.
      rewrite Ez. by case_match.
    + split; [|done]. constructor; [done|]. unfold coin_lt. rewrite Hd.
      apply (min_loop_from (coin_lt ca)); [done|]. eapply Forall_impl; [exact Hlb|].
      intros x. unfold coin_lt. by rewrite E.
  - destruct (IHa (cb :: b)) as [Hs Hm]; try done.
    destruct (sum_of_below ca cb b L Hb) as [Hlt H0]. split; [done|]. intros d. rewrite Hm.
    destruct (sum_of_head d ca a Ha) as [(-> & -> & ->)|(Hne & ->)]; [|done].
    rewrite H0. lia.
  - destruct IHb as [Hs Hm]; try done.
    destruct (sum_of_below cb ca a L Ha) as [Hlt H0]. split; [done|]. intros d.
    etrans; [apply Hm|].
    destruct (sum_of_head d cb b Hb) as [(-> & -> & ->)|(Hne & ->)]; [|done].
    rewrite H0. lia.
Qed.

Lemma wf_ok_weak a : wf a → Forall (λ c, reDnm (Denom c) = true ∧ 0 <= Amount c) a.
Proof. intros [_ H]. eapply Forall_impl; [exact H|]. intros c [? ?]. split; [done|lia]. Qed.

Lemma Max_run a b : wf a → wf b →
  ∃ m, Coins.Max a b = Ok m ∧ wf m ∧ ∀ d, sum_of d m = Z.max (sum_of d a) (sum_of d b).
Proof.
  intros Ha Hb. destruct (max_loop_spec a b) as [Hs Hm]; try apply Ha; try apply Hb;
    try (by apply wf_nonneg).
  unfold Coins.Max. rewrite (NewCoins_run _ Hs) by (by apply max_loop_from; apply wf_ok_weak).
  eexists. split; [done|].
  destruct (NewCoins_Ok (Coins.max_loop a b) _ (NewCoins_run _ Hs
    ltac:(by apply max_loop_from; apply wf_ok_weak))) as [Hw Hsum].
  split; [done|]. intros d. by rewrite Hsum.
Qed.

Lemma Min_run a b : wf a → wf b →
  ∃ m, Coins.Min a b = Ok m ∧ wf m ∧ ∀ d, sum_of d m = Z.min (sum_of d a) (sum_of d b).
Proof.
  intros Ha Hb. destruct (min_loop_spec a b) as [Hs Hm]; try apply Ha; try apply Hb;
    try (by apply wf_nonneg).
  unfold Coins.Min. rewrite (NewCoins_run _ Hs) by (by apply min_loop_from; apply wf_ok_weak).
  eexists. split; [done|].
  destruct (NewCoins_Ok (Coins.min_loop a b) _ (NewCoins_run _ Hs
    ltac:(by apply min_loop_from; apply wf_ok_weak))) as [Hw Hsum].
  split; [done|]. intros d. by rewrite Hsum.
Qed.

(** Validated sets are equal exactly when their amounts are. *)
Lemma wf_ext a b : wf a → wf b → (∀ d, sum_of d a = sum_of d b) → a = b.
Proof.
  intros Ha Hb. apply canonical_ext; try apply Ha; try apply Hb; by apply wf_nonzero.
Qed.

Lemma IsEqual_refl a : ssorted a → Coins.IsEqual a a = Ok true.
Proof.
  intros Ha. unfold Coins.IsEqual. rewrite Nat.eqb_refl. cbn [negb].
  unfold Coins.Sort. rewrite sort_id by done. clear Ha. induction a as [|c a IH]; [done|].
  change (zip (c :: a) (c :: a)) with ((c, c) :: zip a a). cbn [all_out].
  assert (Coin1.IsEqual c c = Ok true) as ->; [|exact IH].
  unfold Coin1.IsEqual, Coin1.same_denom, Int.Equal. by rewrite String.eqb_refl, Z.eqb_refl.
Qed.

(** Amounts of a sum come from the arguments or from a checked addition. *)
Lemma merge_add_amounts (add : Z → Z → outcome Z) (P : Z → Prop) a b s :
  (∀ x y r, add x y = Ok r → P r) → CoinSet.merge_add add a b = Ok s →
  Forall (λ c, P (Amount c)) a → Forall (λ c, P (Amount c)) b →
  Forall (λ c, P (Amount c)) s.
Proof.
  intros Hadd. revert b s. induction a as [|ca a IHa].
  { intros b s. destruct b; intros [= <-] _ Hb; [done|]. by apply Forall_filter_sub. }
  induction b as [|cb b IHb]; intros s.
  { rewrite merge_add_nil_r. intros [= <-] Ha _. by apply Forall_filter_sub. }
  intros H Ha Hb. pose proof Ha as [Pa Ha']%Forall_cons. pose proof Hb as [Pb Hb']%Forall_cons.
  rewrite merge_add_cons in H. destruct (Denom ca ?= Denom cb)%string.
  - apply bind_Ok in H as (r & Hr & (s' & Hs & [= <-])%bind_Ok).
    case_match; [by eapply IHa|]. constructor; [by eapply Hadd|by eapply IHa].
  - apply bind_Ok in H as (s' & Hs & [= <-]). case_match; [by eapply IHa|].
    constructor; [done|by eapply IHa].
  - apply bind_Ok in H as (s' & Hs & [= <-]). case_match; [by eapply IHb|].
    constructor; [done|by eapply IHb].
Qed.

Lemma safeAdd_in_range a b s : ssorted a → ssorted b → in_range a → in_range b →
  Coins.safeAdd a b = Ok s → in_range s.
Proof.
  intros Ha Hb Hra Hrb H. rewrite safeAdd_run in H by done.
  eapply (merge_add_amounts Int.Add Int.valid); try done. by intros x y r [_ ?]%Int.Add_Ok.
Qed.

(** If one sum returns, so does every sum of sets with the same totals. *)
Lemma add_total_of_sum a b x y s : wf a → wf b → in_range a → in_range b → wf x → wf y →
  (∀ d, sum_of d x + sum_of d y = sum_of d a + sum_of d b) →
  Coins.Add a b = Ok s → ∃ s', Coins.Add x y = Ok s'.
Proof.
  intros Ha Hb Hra Hrb Hx Hy Hd Hs. apply safeAdd_total; [apply Hx|apply Hy|].
  intros d. rewrite Hd. pose proof (safeAdd_in_range a b s (proj1 Ha) (proj1 Hb) Hra Hrb Hs) as Hr.
  destruct (safeAdd_wf a b s Ha Hb Hs) as [Hw Hsum]. rewrite <-Hsum.
  apply sum_of_valid; [apply Hw|done].
Qed.

(** ** Single coins *)

Lemma NewCoin_Ok d z c : Coin1.NewCoin d z = Ok c ↔ c = mkCoin d z ∧ reDnm d = true ∧ 0 <= z.
Proof.
  unfold Coin1.NewCoin, Coin1.Validate. simpl. split.
  - intros H. inv_ok. rewrite ValidateDenom_Ok in *. rewrite Int.IsNegative_false in *. done.
  - intros (-> & Hd & Hz). rewrite (proj2 (ValidateDenom_Ok d ())) by done. simpl.
    by rewrite (proj2 (Int.IsNegative_false z)).
Qed.

Lemma NewCoin_run d z : reDnm d = true → 0 <= z → Coin1.NewCoin d z = Ok (mkCoin d z).
Proof. intros. by apply NewCoin_Ok. Qed.

Lemma sum_of_cons d c l : sum_of d (c :: l) = sum_of d [c] + sum_of d l.
Proof. simpl. lia. Qed.
