(* ===== verification/CoinProps.v ===== *)
(** * Properties of coin sets

    The contracts that the comments of types/coin.go state for [Add], [Sub],
    [AmountOf], [NewCoins], [Max] and [Min], with [IsValid] and [AmountOf]
    themselves as the observations. *)

From Stdlib Require Import ZArith Lia Ascii String.
From stdpp Require Import base tactics option list sorting strings.
From S2P Require Import Prelude GoStd Digits SdkInt Coin CoinFacts.

Local Open Scope Z_scope.

Lemma IsValid_wf a : Coins.IsValid a = true ↔ wf a.
Proof.
  unfold Coins.IsValid. rewrite <-(Validate_wf a ()).
  destruct (Coins.Validate a) as [[]| |]; naive_solver.
Qed.

(** The amount of a denomination, as the code reports it. *)
Notation "a .[ d ]" := (Coins.AmountOfNoDenomValidation a d)
  (at level 1, left associativity, format "a .[ d ]").

(** A linear scan for the first coin of a denomination. *)
Definition lookup_amount (a : list Coin) (d : string) : Z :=
  match list_find (λ c, Denom c = d) a with
  | Some (_, c) => Amount c
  | None => 0
  end.

Lemma lookup_amount_sum a d : ssorted a → lookup_amount a d = sum_of d a.
Proof.
  intros Hs. unfold lookup_amount. destruct (list_find _ a) as [[i c]|] eqn:E.
  - apply list_find_Some in E as (Hi & <- & _).
    symmetry. apply sum_of_elem; [done|]. by eapply list_elem_of_lookup_2.
  - symmetry. apply sum_of_notin. intros c Hc Hd.
    apply list_find_None in E. rewrite Forall_forall in E. by apply (E c).
Qed.

(** Small sets for the witnesses. *)
Definition set1 : list Coin := [mkCoin "aeil" 3; mkCoin "mcnl" 5].
Definition set2 : list Coin := [mkCoin "aeil" 2; mkCoin "stake" 7].

(** Coin sets whose amounts fit an [int64] fit an [Int]. *)
Lemma in_range_small a : Forall (λ c, Z.abs (Amount c) < 2 ^ 63) a → in_range a.
Proof.
  intros H. eapply Forall_impl; [exact H|].
  intros c Hc. unfold Int.valid. assert (2 ^ 63 < 2 ^ 256) by done. simpl in Hc. lia.
Qed.



(** [Add] of two valid sets returns a valid set whose amount of every
    denomination is the sum, unless some total exceeds 256 bits, in which case
    it panics. *)
Theorem Coins_Add_correct (a b : list Coin) :
  Coins.IsValid a = true → Coins.IsValid b = true →
  ((∀ d, Int.valid (a.[d] + b.[d])) → ∃ s, Coins.Add a b = Ok s) ∧
  (∀ s, Coins.Add a b = Ok s →
     Coins.IsValid s = true ∧ ∀ d, s.[d] = a.[d] + b.[d]).
Proof.
  intros Ha%IsValid_wf Hb%IsValid_wf. split.
  - intros H. apply safeAdd_total; [apply Ha|apply Hb|]. intros d. specialize (H d).
    by rewrite !AmountOf_sum in H by (apply Ha || apply Hb).
  - intros s Hs. apply safeAdd_wf in Hs as [Hw Hsum]; try done. split; [by apply IsValid_wf|].
    intros d. rewrite !AmountOf_sum by (apply Ha || apply Hb || apply Hw). apply Hsum.
Qed.

Lemma Coins_Add_correct_witness :
  Coins.Add set1 set2 = Ok [mkCoin "aeil" 5; mkCoin "mcnl" 5; mkCoin "stake" 7] ∧
  Coins.IsValid [mkCoin "aeil" 5; mkCoin "mcnl" 5; mkCoin "stake" 7] = true.
Proof.
  split; [reflexivity|].
  apply (Coins_Add_correct set1 set2); reflexivity.
Defined.

(** [Sub] of valid sets never overflows; it returns the valid set of the
    differences exactly when the first set covers the second ([IsAllGTE]), and
    panics otherwise. *)
Theorem Coins_Sub_correct (a b : list Coin) :
  Coins.IsValid a = true → Coins.IsValid b = true → in_range a → in_range b →
  (Coins.IsAllGTE a b = Ok true ∧
   ∃ s, Coins.Sub a b = Ok s ∧ Coins.IsValid s = true ∧ ∀ d, s.[d] = a.[d] - b.[d]) ∨
  (Coins.IsAllGTE a b = Ok false ∧ Coins.Sub a b = Panic "negative coin amount").
Proof.
  intros Ha%IsValid_wf Hb%IsValid_wf Hra Hrb.
  destruct (SafeSub_spec a b Ha Hb Hra Hrb) as (s & neg & Hs & Hso & Hz & Hd & Hden & Hneg).
  destruct (IsAllGTE_spec a b (proj1 Ha) Hb (wf_nonneg a Ha)) as (r & Hr & Hrs).
  unfold Coins.Sub. rewrite Hs, Hr. destruct neg.
  - right. split; [|done]. f_equal. apply not_true_is_false. intros H. discriminate (proj2 Hneg (proj1 Hrs H)).
  - left. destruct Hneg as [Hneg _]. specialize (Hneg eq_refl).
    split; [f_equal; by apply Hrs|]. exists s. split; [done|].
    assert (wf s) as Hw.
    { apply canonical_wf; try done. intros d. rewrite Hd. specialize (Hneg d). lia. }
    split; [by apply IsValid_wf|]. intros d.
    rewrite !AmountOf_sum by (apply Ha || apply Hb || done). apply Hd.
Qed.

Lemma Coins_Sub_correct_witness :
  (Coins.IsAllGTE set1 set2 = Ok true ∧
   ∃ s, Coins.Sub set1 set2 = Ok s ∧ Coins.IsValid s = true ∧
        ∀ d, s.[d] = set1.[d] - set2.[d]) ∨
  (Coins.IsAllGTE set1 set2 = Ok false ∧ Coins.Sub set1 set2 = Panic "negative coin amount").
Proof.
  apply (Coins_Sub_correct set1 set2); try reflexivity;
    apply in_range_small; repeat constructor.
Defined.

(** C40: [NewCoins] returns a valid set with the amounts of its arguments, and
    the order of the arguments does not matter. *)
Theorem NewCoins_canonical (a b s : list Coin) :
  Coins.NewCoins a = Ok s → a ≡ₚ b →
  Coins.IsValid s = true ∧ (∀ d, s.[d] = sum_of d a) ∧ Coins.NewCoins b = Ok s.
Proof.
  intros H Hp. destruct (NewCoins_Ok a s H) as [Hw Hsum].
  split_and!; [by apply IsValid_wf|intros d; rewrite AmountOf_sum by apply Hw; apply Hsum|].
  assert (s = CoinSet.sort (filter (λ c, CoinSet.isZero c = false) a)) as Es.
  { unfold Coins.NewCoins in H. apply bind_Ok in H as (u & _ & [= <-]). apply sanitizeCoins_sort. }
  assert (filter (λ c, CoinSet.isZero c = false) a ≡ₚ
          filter (λ c, CoinSet.isZero c = false) b) as Hpf by (by rewrite Hp).
  assert (CoinSet.sort (filter (λ c, CoinSet.isZero c = false) b) = s) as Eb.
  { apply (StronglySorted_unique coin_lt).
    - apply sort_ssorted. rewrite <-Hpf, <-(sort_perm (filter _ a)), <-Es.
      apply ssorted_NoDup, Hw.
    - apply Hw.
    - by rewrite sort_perm, Es, sort_perm. }
  unfold Coins.NewCoins. rewrite sanitizeCoins_sort, Eb.
  apply bind_Ok. exists (). split; [|done]. by apply (proj2 (must_Ok _ _)), Validate_wf.
Qed.

Lemma NewCoins_canonical_witness :
  Coins.NewCoins [mkCoin "mcnl" 5; mkCoin "zero" 0; mkCoin "aeil" 3] = Ok set1.
Proof.
  apply (NewCoins_canonical [mkCoin "aeil" 3; mkCoin "mcnl" 5; mkCoin "zero" 0] _ set1).
  - reflexivity.
  - etransitivity; [apply perm_swap|]. apply perm_skip, perm_swap.
Defined.

(** The laws stated in the comments of [Max] and [Min]: they are the least
    upper and the greatest lower bound of the two sets under [IsAllLTE], and
    [a.Add(b)] equals [a.Min(b).Add(a.Max(b))]. *)
Theorem Coins_max_min_laws (a b c : list Coin) :
  Coins.IsValid a = true → Coins.IsValid b = true → Coins.IsValid c = true →
  in_range a → in_range b →
  ∃ hi lo, Coins.Max a b = Ok hi ∧ Coins.Min a b = Ok lo ∧
    Coins.IsValid hi = true ∧ Coins.IsValid lo = true ∧
    Coins.IsAllLTE a hi = Ok true ∧ Coins.IsAllLTE b hi = Ok true ∧
    Coins.IsAllLTE lo a = Ok true ∧ Coins.IsAllLTE lo b = Ok true ∧
    (Coins.IsAllLTE hi c = Ok true ↔
       Coins.IsAllLTE a c = Ok true ∧ Coins.IsAllLTE b c = Ok true) ∧
    (Coins.IsAllLTE c lo = Ok true ↔
       Coins.IsAllLTE c a = Ok true ∧ Coins.IsAllLTE c b = Ok true) ∧
    (∀ s, Coins.Add a b = Ok s → ∃ s', Coins.Add lo hi = Ok s' ∧ Coins.IsEqual s s' = Ok true).
Proof.
  intros Ha%IsValid_wf Hb%IsValid_wf Hc%IsValid_wf Hra Hrb.
  destruct (Max_run a b Ha Hb) as (hi & Hhi & Hwh & Hsh).
  destruct (Min_run a b Ha Hb) as (lo & Hlo & Hwl & Hsl).
  assert (∀ x y, wf x → wf y →
    Coins.IsAllLTE x y = Ok true ↔ ∀ d, sum_of d x <= sum_of d y) as Hle.
  { intros x y Hx Hy. unfold Coins.IsAllLTE.
    destruct (IsAllGTE_spec y x (proj1 Hy) Hx (wf_nonneg y Hy)) as (r & -> & <-). naive_solver. }
  exists hi, lo. rewrite !IsValid_wf, !Hle by done. split_and!; try done.
  1-4: intros d; rewrite ?Hsh, ?Hsl; lia.
  1-2: split; [intros H; split; intros d; specialize (H d); rewrite ?Hsh, ?Hsl in H; lia
              |intros [H1 H2] d; specialize (H1 d); specialize (H2 d); rewrite ?Hsh, ?Hsl; lia].
  intros s Hs. destruct (safeAdd_spec a b s (proj1 Ha) (proj1 Hb) Hs) as (Hsum & Hz & Hso & _).
  destruct (safeAdd_wf a b s Ha Hb Hs) as [Hws _].
  destruct (add_total_of_sum a b lo hi s) as (s' & Hs'); try done.
  { intros d. rewrite Hsh, Hsl. lia. }
  exists s'. split; [done|]. destruct (safeAdd_wf lo hi s' Hwl Hwh Hs') as [Hw' Hsum'].
  assert (s = s') as <-; [|by apply IsEqual_refl].
  apply wf_ext; try done. intros d. rewrite Hsum, Hsum', Hsh, Hsl. lia.
Qed.

Lemma Coins_max_min_laws_witness :
  ∃ hi lo, Coins.Max set1 set2 = Ok hi ∧ Coins.Min set1 set2 = Ok lo ∧
    Coins.IsAllLTE set1 hi = Ok true ∧ Coins.IsAllLTE lo set1 = Ok true.
Proof.
  destruct (Coins_max_min_laws set1 set2 [] eq_refl eq_refl eq_refl
    ltac:(apply in_range_small; repeat constructor)
    ltac:(apply in_range_small; repeat constructor))
    as (hi & lo & Hhi & Hlo & _ & _ & H1 & _ & H2 & _).
  exists hi, lo. repeat split; assumption.
Defined.
