(* ===== verification/DecCoin.v ===== *)
(** * types/dec_coin.go and types/denom.go

    [DecCoin] has the fields of [Coin] with a [Dec] amount, so the record is
    shared; the registry of denomination units, a package variable in the
    source, is an explicit state. *)

From Stdlib Require Import ZArith Lia Ascii String.
From stdpp Require Import base tactics option list gmap sorting strings.
From S2P Require Import Prelude GoStd Digits SdkInt Decimal Coin.

Local Open Scope Z_scope.

(** The amount is the integer of the [Dec]. *)
Definition DecCoin : Type := Coin.

Module DecCoin1.

Definition ToDec (i : Z) : outcome Z := Dec.NewDecFromInt i.

Definition NewDecCoin (denom : string) (amount : Z) : outcome DecCoin :=
  coin ← Coin1.NewCoin denom amount;
  mkCoin (Denom coin) <$> ToDec (Amount coin).

Definition NewDecCoinFromDec (denom : string) (amount : Z) : outcome DecCoin :=
  _ ← mustValidateDenom denom;
  _ ← panic_if (Dec.IsNegative amount) "negative decimal coin amount";
  Ok (mkCoin denom amount).

Definition NewDecCoinFromCoin (coin : Coin) : outcome DecCoin :=
  _ ← must (Coin1.Validate coin);
  mkCoin (Denom coin) <$> ToDec (Amount coin).

Definition IsZero (coin : DecCoin) : bool := Dec.IsZero (Amount coin).
Definition IsPositive (coin : DecCoin) : bool := Dec.IsPositive (Amount coin).
Definition IsNegative (coin : DecCoin) : bool := Dec.IsNegative (Amount coin).

Definition same_denom (coin other : DecCoin) : outcome unit :=
  panic_if (negb (String.eqb (Denom coin) (Denom other))) "invalid coin denominations".

Definition IsGTE (coin other : DecCoin) : outcome bool :=
  _ ← same_denom coin other; Ok (negb (Dec.LT (Amount coin) (Amount other))).
Definition IsLT (coin other : DecCoin) : outcome bool :=
  _ ← same_denom coin other; Ok (Dec.LT (Amount coin) (Amount other)).
Definition IsEqual (coin other : DecCoin) : outcome bool :=
  _ ← same_denom coin other; Ok (Dec.Equal (Amount coin) (Amount other)).

Definition Add (coin coinB : DecCoin) : outcome DecCoin :=
  _ ← panic_if (negb (String.eqb (Denom coin) (Denom coinB))) "coin denom different";
  mkCoin (Denom coin) <$> Dec.Add (Amount coin) (Amount coinB).

Definition Sub (coin coinB : DecCoin) : outcome DecCoin :=
  _ ← panic_if (negb (String.eqb (Denom coin) (Denom coinB))) "coin denom different";
  r ← Dec.Sub (Amount coin) (Amount coinB);
  let res := mkCoin (Denom coin) r in
  _ ← panic_if (IsNegative res) "negative decimal coin amount";
  Ok res.

Definition TruncateDecimal (coin : DecCoin) : outcome (Coin * DecCoin) :=
  truncated ← Dec.TruncateInt (Amount coin);
  t ← ToDec truncated;
  change ← Dec.Sub (Amount coin) t;
  c ← Coin1.NewCoin (Denom coin) truncated;
  d ← NewDecCoinFromDec (Denom coin) change;
  Ok (c, d).

Definition to_String (coin : DecCoin) : string :=
  Dec.to_String (Amount coin) +:+ Denom coin.

Definition Validate (coin : DecCoin) : outcome unit :=
  _ ← ValidateDenom (Denom coin);
  fail_if (IsNegative coin) "decimal coin amount cannot be negative".

Definition IsValid (coin : DecCoin) : bool := is_ok (Validate coin).

End DecCoin1.

Module DecCoins.

Definition removeZeroDecCoins (coins : list DecCoin) : list DecCoin :=
  filter (λ c, DecCoin1.IsZero c = false) coins.

Definition Sort (coins : list DecCoin) : list DecCoin := CoinSet.sort coins.

Definition Validate (coins : list DecCoin) : outcome unit := CoinSet.validate coins.
Definition IsValid (coins : list DecCoin) : bool := is_ok (Validate coins).

Definition sanitizeDecCoins (decCoins : list DecCoin) : list DecCoin :=
  let newDecCoins := removeZeroDecCoins decCoins in
  if (length newDecCoins =? 0)%nat then [] else Sort newDecCoins.

Definition NewDecCoins (decCoins : list DecCoin) : outcome (list DecCoin) :=
  let newDecCoins := sanitizeDecCoins decCoins in
  _ ← must (Validate newDecCoins);
  Ok newDecCoins.

(** The result slice is allocated with the length of the argument, before
    zero coins are removed; the slots not overwritten keep the zero
    [DecCoin], here [None]. *)
Fixpoint from_coins (newCoins : list Coin) : outcome (list DecCoin) :=
  match newCoins with
  | [] => Ok []
  | coin :: rest =>
      c ← DecCoin1.NewDecCoinFromCoin coin;
      l ← from_coins rest;
      Ok (c :: l)
  end.

Definition NewDecCoinsFromCoins (coins : list Coin) : outcome (list (option DecCoin)) :=
  newCoins ← Coins.NewCoins coins;
  l ← from_coins newCoins;
  Ok ((Some <$> l) ++ replicate (length coins - length l) None).

Definition to_String (coins : list DecCoin) : string :=
  Str.join "," (DecCoin1.to_String <$> coins).

Definition safeAdd (coins coinsB : list DecCoin) : outcome (list DecCoin) :=
  CoinSet.merge_add Dec.Add coins coinsB.

Definition Add (coins coinsB : list DecCoin) : outcome (list DecCoin) := safeAdd coins coinsB.

Definition negative (coins : list DecCoin) : list DecCoin :=
  (λ coin, mkCoin (Denom coin) (Dec.Neg (Amount coin))) <$> coins.

Definition IsAnyNegative (coins : list DecCoin) : bool := existsb DecCoin1.IsNegative coins.

Definition SafeSub (coins coinsB : list DecCoin) : outcome (list DecCoin * bool) :=
  diff ← safeAdd coins (negative coinsB);
  Ok (diff, IsAnyNegative diff).

Definition Sub (coins coinsB : list DecCoin) : outcome (list DecCoin) :=
  '(diff, hasNeg) ← SafeSub coins coinsB;
  _ ← panic_if hasNeg "negative coin amount";
  Ok diff.

Definition AmountOf (coins : list DecCoin) (denom : string) : outcome Z :=
  _ ← mustValidateDenom denom;
  Ok (CoinSet.amount_of coins denom).

Fixpoint intersect_loop (coins coinsB : list DecCoin) : outcome (list DecCoin) :=
  match coins with
  | [] => Ok []
  | coin :: rest =>
      amt ← AmountOf coinsB (Denom coin);
      l ← intersect_loop rest coinsB;
      Ok (mkCoin (Denom coin) (Dec.MinDec (Amount coin) amt) :: l)
  end.

Definition Intersect (coins coinsB : list DecCoin) : outcome (list DecCoin) :=
  removeZeroDecCoins <$> intersect_loop coins coinsB.

(** The loop shared by [MulDec], [MulDecTruncate], [QuoDec] and
    [QuoDecTruncate]. *)
Definition scale_step (op : Z → Z → outcome Z) (d : Z) (res : list DecCoin)
    (coin : DecCoin) : outcome (list DecCoin) :=
  amt ← op (Amount coin) d;
  let product := mkCoin (Denom coin) amt in
  if DecCoin1.IsZero product then Ok res else Add res [product].

Definition MulDec (coins : list DecCoin) (d : Z) : outcome (list DecCoin) :=
  fold_out (scale_step Dec.Mul d) [] coins.
Definition MulDecTruncate (coins : list DecCoin) (d : Z) : outcome (list DecCoin) :=
  fold_out (scale_step Dec.MulTruncate d) [] coins.
Definition QuoDec (coins : list DecCoin) (d : Z) : outcome (list DecCoin) :=
  _ ← panic_if (Dec.IsZero d) "invalid zero decimal";
  fold_out (scale_step Dec.Quo d) [] coins.
Definition QuoDecTruncate (coins : list DecCoin) (d : Z) : outcome (list DecCoin) :=
  _ ← panic_if (Dec.IsZero d) "invalid zero decimal";
  fold_out (scale_step Dec.QuoTruncate d) [] coins.

Definition truncate_step (acc : list Coin * list DecCoin) (coin : DecCoin)
    : outcome (list Coin * list DecCoin) :=
  let '(truncatedCoins, changeCoins) := acc in
  '(truncated, change) ← DecCoin1.TruncateDecimal coin;
  t ← (if Coin1.IsZero truncated then Ok truncatedCoins
       else Coins.Add truncatedCoins [truncated]);
  c ← (if DecCoin1.IsZero change then Ok changeCoins
       else Add changeCoins [change]);
  Ok (t, c).

Definition TruncateDecimal (coins : list DecCoin) : outcome (list Coin * list DecCoin) :=
  fold_out truncate_step ([], []) coins.

Definition IsEqual (coins coinsB : list DecCoin) : outcome bool :=
  if negb (length coins =? length coinsB)%nat then Ok false
  else all_out (λ '(c, c'), DecCoin1.IsEqual c c') (zip (Sort coins) (Sort coinsB)).

Definition IsZero (coins : list DecCoin) : bool := forallb DecCoin1.IsZero coins.
Definition Empty (coins : list DecCoin) : bool := (length coins =? 0)%nat.
Definition IsAllPositive (coins : list DecCoin) : bool :=
  negb (length coins =? 0)%nat && forallb DecCoin1.IsPositive coins.

End DecCoins.

(** ** types/denom.go: the registry of units *)
Module Denoms.

Record registry := mkRegistry { denomUnits : gmap string Z; baseDenom : string }.

Definition empty_registry : registry := mkRegistry ∅ "".

Definition RegisterDenom (denom : string) (unit : Z) : M registry () := λ r,
  match ValidateDenom denom with
  | Ok _ =>
      match denomUnits r !! denom with
      | Some _ => (Err "denom already registered", r)
      | None =>
          let units := <[denom := unit]> (denomUnits r) in
          if String.eqb (baseDenom r) "" then (Ok (), mkRegistry units denom)
          else match units !! baseDenom r with
               | None => (Panic "nil pointer dereference", mkRegistry units (baseDenom r))
               | Some u =>
                   (Ok (), mkRegistry units (if Dec.LT unit u then denom else baseDenom r))
               end
      end
  | Err e => (Err e, r)
  | Panic e => (Panic e, r)
  end.

Definition GetDenomUnit (r : registry) (denom : string) : option Z :=
  if reDnm denom then denomUnits r !! denom else None.

Definition GetBaseDenom (r : registry) : outcome string :=
  if String.eqb (baseDenom r) "" then Err "no denom is registered" else Ok (baseDenom r).

Definition ConvertCoin (r : registry) (coin : Coin) (denom : string) : outcome Coin :=
  _ ← ValidateDenom denom;
  srcUnit ← or_err (GetDenomUnit r (Denom coin)) "source denom not registered";
  dstUnit ← or_err (GetDenomUnit r denom) "destination denom not registered";
  if Dec.Equal srcUnit dstUnit then Coin1.NewCoin denom (Amount coin)
  else
    d ← DecCoin1.ToDec (Amount coin);
    m ← Dec.Mul d srcUnit;
    q ← Dec.Quo m dstUnit;
    t ← Dec.TruncateInt q;
    Coin1.NewCoin denom t.

Definition ConvertDecCoin (r : registry) (coin : DecCoin) (denom : string) : outcome DecCoin :=
  _ ← ValidateDenom denom;
  srcUnit ← or_err (GetDenomUnit r (Denom coin)) "source denom not registered";
  dstUnit ← or_err (GetDenomUnit r denom) "destination denom not registered";
  if Dec.Equal srcUnit dstUnit then DecCoin1.NewDecCoinFromDec denom (Amount coin)
  else
    m ← Dec.Mul (Amount coin) srcUnit;
    q ← Dec.Quo m dstUnit;
    DecCoin1.NewDecCoinFromDec denom q.

(** Keep the argument when the computation reports an error. *)
Definition or_keep {A} (a : A) (o : outcome A) : outcome A :=
  match o with Err _ => Ok a | _ => o end.

Definition NormalizeCoin (r : registry) (coin : Coin) : outcome Coin :=
  or_keep coin (base ← GetBaseDenom r; ConvertCoin r coin base).

Definition NormalizeDecCoin (r : registry) (coin : DecCoin) : outcome DecCoin :=
  or_keep coin (base ← GetBaseDenom r; ConvertDecCoin r coin base).

Fixpoint NormalizeCoins (r : registry) (coins : list DecCoin) : outcome (list Coin) :=
  match coins with
  | [] => Ok []
  | coin :: rest =>
      n ← NormalizeDecCoin r coin;
      '(newCoin, _) ← DecCoin1.TruncateDecimal n;
      l ← NormalizeCoins r rest;
      Ok (newCoin :: l)
  end.

End Denoms.

(** ** Parsing *)
Module Parse.

(** The longest prefix of bytes that satisfy a predicate. *)
Fixpoint span (P : ascii → bool) (s : string) : string * string :=
  match s with
  | EmptyString => ("", "")
  | String c r => if P c then let '(a, b) := span P r in (String c a, b) else ("", s)
  end.

(** [[[:space:]]] of RE2. *)
Definition is_space (c : ascii) : bool :=
  let n := N_of_ascii c in ((9 <=? n) && (n <=? 13) || (n =? 32))%N.

(** [reDecCoin]: digits with an optional fraction, or a fraction alone, then
    white space, then a denomination.  The bytes after the amount cannot
    continue it, so the longest match is the only one. *)
Definition reDecCoin (s : string) : option (string * string) :=
  let finish (amt rest : string) :=
    let '(_, denom) := span is_space rest in
    if reDnm denom then Some (amt, denom) else None in
  let '(whole, rest) := span is_digit s in
  if Str.has_prefix rest "." then
    let '(frac, rest') := span is_digit (Str.drop 1 rest) in
    if String.eqb frac "" then None else finish (whole +:+ "." +:+ frac) rest'
  else if String.eqb whole "" then None else finish whole rest.

Definition ParseDecCoin (coinStr : string) : outcome DecCoin :=
  let coinStr := Str.trim_space coinStr in
  '(amountStr, denomStr) ← or_err (reDecCoin coinStr) "invalid decimal coin expression";
  amount ← Dec.NewDecFromStr amountStr;
  _ ← ValidateDenom denomStr;
  DecCoin1.NewDecCoinFromDec denomStr amount.

Fixpoint parse_all (coinStrs : list string) : outcome (list DecCoin) :=
  match coinStrs with
  | [] => Ok []
  | s :: rest => c ← ParseDecCoin s; l ← parse_all rest; Ok (c :: l)
  end.

Definition ParseDecCoins (coinsStr : string) : outcome (list DecCoin) :=
  let coinsStr := Str.trim_space coinsStr in
  if (String.length coinsStr =? 0)%nat then Ok []
  else
    decCoins ← parse_all (Str.split "," coinsStr);
    let newDecCoins := DecCoins.sanitizeDecCoins decCoins in
    _ ← DecCoins.Validate newDecCoins;
    Ok newDecCoins.

Definition ParseCoinNormalized (r : Denoms.registry) (coinStr : string) : outcome Coin :=
  decCoin ← ParseDecCoin coinStr;
  n ← Denoms.NormalizeDecCoin r decCoin;
  '(coin, _) ← DecCoin1.TruncateDecimal n;
  Ok coin.

Definition ParseCoinsNormalized (r : Denoms.registry) (coinStr : string) : outcome (list Coin) :=
  coins ← ParseDecCoins coinStr;
  Denoms.NormalizeCoins r coins.

End Parse.
