(* ===== verification/DecCoinProps.v ===== *)
(** * Properties of decimal coins, units and the coin syntax *)

From Stdlib Require Import ZArith Lia Ascii String.
From stdpp Require Import base tactics option list gmap sorting strings.
From S2P Require Import Prelude GoStd Digits SdkInt Decimal Coin CoinFacts CoinProps DecCoin.

Local Open Scope Z_scope.

Local Abbreviation P := Dec.precisionReuse.

(** ** Splitting decimals into whole coins and change *)

Lemma merge_add_snoc add t x : Forall (λ y, coin_lt y x) t → Forall nonzero t → nonzero x →
  CoinSet.merge_add add t [x] = Ok (t ++ [x]).
Proof.
  intros Ht Hz Hx. induction t as [|c t IH].
  - change (Ok (filter (λ c, CoinSet.isZero c = false) [x]) = Ok [x]).
    by rewrite filter_nonzero_id by (by constructor).
  - apply Forall_cons in Ht as [Hc Ht], Hz as [Hzc Hz]. rewrite merge_add_cons.
    destruct (Str.compare_spec (Denom c) (Denom x)) as [E|L|L].
    + unfold coin_lt in Hc. rewrite E in Hc. by apply Str.lt_irrefl in Hc.
    + rewrite IH by done. simpl. by rewrite (proj2 (isZero_false c)).
    + by destruct (Str.lt_asym _ _ Hc).
Qed.

(** Decimal amounts whose whole part fits an [Int]. *)
Definition whole_ok (c : DecCoin) : Prop := Amount c < 2 ^ 256 * P.

Lemma TruncateDecimal_run c : coin_ok c → whole_ok c →
  DecCoin1.TruncateDecimal c =
  Ok (mkCoin (Denom c) (Amount c / P), mkCoin (Denom c) (Amount c mod P)).
Proof.
  intros [Hd Hp] Hw. unfold whole_ok in Hw. unfold DecCoin1.TruncateDecimal.
  assert (0 <= Amount c / P < 2 ^ 256) as Hq.
  { split; [apply Z.div_pos; [lia|done]|]. apply Z.div_lt_upper_bound; [done|lia]. }
  pose proof (Z.div_mod (Amount c) P ltac:(done)) as Hdm.
  pose proof (Z.mod_pos_bound (Amount c) P ltac:(done)) as Hm.
  rewrite (bind_run _ _ (Amount c / P)).
  2:{ unfold Dec.TruncateInt, Dec.chopPrecisionAndTruncate.
      rewrite Z.quot_div_nonneg by (done || lia).
      unfold Int.NewIntFromBigInt. rewrite (proj2 (Int.overflows_false _)); [done|].
      unfold Int.valid. lia. }
  rewrite (bind_run _ _ (Amount c / P * P)) by apply Dec.NewDecFromInt_run.
  rewrite (bind_run _ _ (Amount c mod P)).
  2:{ unfold Dec.Sub. replace (Amount c - Amount c / P * P) with (Amount c mod P) by lia.
      apply Dec.checked_valid. unfold Dec.valid. assert (P < 2 ^ 316) by done. lia. }
  assert (mustValidateDenom (Denom c) = Ok ()) as Hv by (by apply mustValidateDenom_Ok).
  rewrite (bind_run _ _ (mkCoin (Denom c) (Amount c / P))).
  2:{ unfold Coin1.NewCoin, Coin1.Validate. cbn [Denom Amount].
      rewrite (proj2 (ValidateDenom_Ok (Denom c) ())) by done.
      rewrite (proj2 (Int.IsNegative_false _)) by lia. done. }
  rewrite (bind_run _ _ (mkCoin (Denom c) (Amount c mod P))); [done|].
  unfold DecCoin1.NewDecCoinFromDec. rewrite Hv.
  unfold Dec.IsNegative. change (Z.sgn (Amount c mod P) =? -1) with (Int.IsNegative (Amount c mod P)).
  by rewrite (proj2 (Int.IsNegative_false _)) by lia.
Qed.

(** Appending a coin above all others, unless it is zero. *)
Definition snoc_nz (t : list Coin) (c : Coin) : list Coin :=
  if CoinSet.isZero c then t else t ++ [c].

Lemma snoc_nz_wf t c : wf t → Forall (λ y, coin_lt y c) t → reDnm (Denom c) = true →
  0 <= Amount c → wf (snoc_nz t c) ∧
  (∀ d, sum_of d (snoc_nz t c) = sum_of d t + sum_of d [c]) ∧
  (∀ Q : string → Prop, Forall (λ y, Q (Denom y)) t → Q (Denom c) →
     Forall (λ y, Q (Denom y)) (snoc_nz t c)).
Proof.
  intros [Hs Hok] Hlt Hd Hn. unfold snoc_nz. destruct (CoinSet.isZero c) eqn:E.
  - apply isZero_true in E. split_and!; [by split| |done].
    intros d. simpl. rewrite E. case_match; lia.
  - apply isZero_false in E. unfold nonzero in E. split_and!.
    + split.
      * apply StronglySorted_app. split_and!; [|done|repeat constructor].
        intros x y Hx ->%list_elem_of_singleton. by eapply Forall_forall in Hlt.
      * apply Forall_app. split; [done|]. repeat constructor; [done|lia].
    + intros d. by rewrite sum_of_app.
    + intros Q Ht Hc. apply Forall_app. split; [done|]. by constructor.
Qed.

Lemma truncate_step_run t ch c : wf t → wf ch → coin_ok c → whole_ok c →
  Forall (λ y, coin_lt y c) t → Forall (λ y, coin_lt y c) ch →
  DecCoins.truncate_step (t, ch) c =
  Ok (snoc_nz t (mkCoin (Denom c) (Amount c / P)), snoc_nz ch (mkCoin (Denom c) (Amount c mod P))).
Proof.
  intros Ht Hch Hc Hw Hlt Hlch. unfold DecCoins.truncate_step.
  rewrite TruncateDecimal_run by done. simpl. unfold snoc_nz.
  change (Coin1.IsZero ?x) with (CoinSet.isZero x). change (DecCoin1.IsZero ?x) with (CoinSet.isZero x).
  assert (∀ u z, wf u → Forall (λ y, coin_lt y c) u → CoinSet.isZero (mkCoin (Denom c) z) = false →
    ∀ add, CoinSet.merge_add add u [mkCoin (Denom c) z] = Ok (u ++ [mkCoin (Denom c) z])) as Hadd.
  { intros u z Hu Hlu Hz add. apply merge_add_snoc; [done|by apply wf_nonzero|by apply isZero_false]. }
  destruct (CoinSet.isZero (mkCoin (Denom c) (Amount c / P))) eqn:E1; simpl.
  - destruct (CoinSet.isZero (mkCoin (Denom c) (Amount c mod P))) eqn:E2; [done|].
    unfold DecCoins.Add, DecCoins.safeAdd. by rewrite Hadd.
  - unfold Coins.Add. rewrite safeAdd_run by (first [apply Ht | by repeat constructor]).
    rewrite Hadd by done. simpl.
    destruct (CoinSet.isZero (mkCoin (Denom c) (Amount c mod P))) eqn:E2; [done|].
    unfold DecCoins.Add, DecCoins.safeAdd. by rewrite Hadd.
Qed.

Lemma truncate_fold l : ∀ t ch, wf l → Forall whole_ok l → wf t → wf ch →
  (∀ x y, x ∈ t → y ∈ l → coin_lt x y) → (∀ x y, x ∈ ch → y ∈ l → coin_lt x y) →
  ∃ t' ch', fold_out DecCoins.truncate_step (t, ch) l = Ok (t', ch') ∧ wf t' ∧ wf ch' ∧
    (∀ d, sum_of d t' = sum_of d t + sum_of d l / P) ∧
    (∀ d, sum_of d ch' = sum_of d ch + sum_of d l mod P).
Proof.
  induction l as [|c l IH]; intros t ch Hl Hw Ht Hch Hlt Hlch.
  { exists t, ch. split_and!; try done; intros d; simpl; rewrite Z.add_0_r; done. }
  apply wf_cons in Hl as (Hc & Hcl & Hl). apply Forall_cons in Hw as [Hwc Hw].
  assert (Forall (λ y, coin_lt y c) t ∧ Forall (λ y, coin_lt y c) ch) as [Hft Hfch].
  { split; apply Forall_forall; intros x Hx; [apply Hlt|apply Hlch]; done || left. }
  cbn [fold_out].
  rewrite (bind_run _ _ _ (truncate_step_run t ch c Ht Hch Hc Hwc Hft Hfch)).
  pose proof (Z.mod_pos_bound (Amount c) P ltac:(done)).
  pose proof (Z.div_pos (Amount c) P ltac:(destruct Hc; lia) ltac:(done)).
  pose proof Hc as [Hd Hpos].
  destruct (snoc_nz_wf t (mkCoin (Denom c) (Amount c / P))) as (Ht' & Hst & HQt); try done.
  destruct (snoc_nz_wf ch (mkCoin (Denom c) (Amount c mod P))) as (Hch' & Hsch & HQch);
    try done; [simpl; lia|].
  assert (∀ y, y ∈ l → coin_lt c y) as Hcy by (by apply Forall_forall).
  destruct (IH _ _ Hl Hw Ht' Hch') as (t' & ch' & Hrun & ? & ? & Hst' & Hsch').
  1,2: intros x y Hx Hy; specialize (Hcy y Hy); unfold coin_lt in *;
    revert x Hx; apply Forall_forall.
  - apply (HQt (λ z, Str.lt z (Denom y))); [|done].
    apply Forall_forall. intros x Hx. apply Hlt; [done|by right].
  - apply (HQch (λ z, Str.lt z (Denom y))); [|done].
    apply Forall_forall. intros x Hx. apply Hlch; [done|by right].
  - exists t', ch'. split_and!; try done; intros d.
    + rewrite Hst', Hst. cbn [sum_of Denom Amount]. destruct (String.eqb_spec (Denom c) d) as [<-|].
      * rewrite (sum_of_lt _ l) by done. rewrite !Z.add_0_r. change (0 / P) with 0. lia.
      * rewrite !Z.add_0_l. lia.
    + rewrite Hsch', Hsch. cbn [sum_of Denom Amount]. destruct (String.eqb_spec (Denom c) d) as [<-|].
      * rewrite (sum_of_lt _ l) by done. rewrite !Z.add_0_r. change (0 mod P) with 0. lia.
      * rewrite !Z.add_0_l. lia.
Qed.

(** [DecCoins.TruncateDecimal] loses nothing: it returns a valid set of
    whole coins and a valid set of change below one, which together are the
    argument, denomination by denomination. *)
Theorem DecCoins_TruncateDecimal_split (l : list DecCoin) :
  DecCoins.IsValid l = true → Forall whole_ok l →
  ∃ t ch, DecCoins.TruncateDecimal l = Ok (t, ch) ∧
    Coins.IsValid t = true ∧ DecCoins.IsValid ch = true ∧
    ∀ d, t.[d] * P + CoinSet.amount_of ch d = CoinSet.amount_of l d ∧
         0 <= CoinSet.amount_of ch d < P.
Proof.
  intros Hl%IsValid_wf Hw.
  destruct (truncate_fold l [] [] Hl Hw) as (t & ch & Hrun & Ht & Hch & Hst & Hsch);
    try (split; constructor); try (by intros x y ?%elem_of_nil).
  exists t, ch. split; [done|]. split; [by apply IsValid_wf|]. split; [by apply IsValid_wf|].
  intros d. change (CoinSet.amount_of ?x d) with (x.[d]).
  rewrite !AmountOf_sum by (apply Ht || apply Hch || apply Hl).
  rewrite Hst, Hsch. simpl sum_of. rewrite !Z.add_0_l.
  pose proof (Z.div_mod (sum_of d l) P ltac:(done)).
  pose proof (Z.mod_pos_bound (sum_of d l) P ltac:(done)). lia.
Qed.

Lemma DecCoins_TruncateDecimal_split_witness :
  ∃ t ch, DecCoins.TruncateDecimal [mkCoin "aeil" 1500000000000000000] = Ok (t, ch) ∧
    Coins.IsValid t = true.
Proof.
  destruct (DecCoins_TruncateDecimal_split [mkCoin "aeil" 1500000000000000000] eq_refl
    ltac:(constructor; [vm_compute; reflexivity|constructor])) as (t & ch & H & H' & _).
  exists t, ch. split; assumption.
Defined.

(** [NewDecCoinsFromCoins] leaves empty entries behind exactly when it is
    given a zero coin, because the result is sized before zero coins are
    removed. *)
Theorem NewDecCoinsFromCoins_holes (coins : list Coin) (l : list (option DecCoin)) :
  DecCoins.NewDecCoinsFromCoins coins = Ok l →
  length l = length coins ∧ (None ∈ l ↔ ∃ c, c ∈ coins ∧ Amount c = 0).
Proof.
  unfold DecCoins.NewDecCoinsFromCoins.
  intros (new & Hnew & (dl & Hdl & [= <-])%bind_Ok)%bind_Ok.
  assert (length dl = length new) as Hl.
  { clear Hnew. revert dl Hdl. induction new as [|c new IH]; simpl; intros dl Hdl; [by inv_ok|].
    apply bind_Ok in Hdl as (x & _ & (y & Hy & [= <-])%bind_Ok). simpl. f_equal. auto. }
  assert (new = CoinSet.sort (filter (λ c, CoinSet.isZero c = false) coins)) as ->.
  { unfold Coins.NewCoins in Hnew. apply bind_Ok in Hnew as (_ & _ & [= <-]).
    apply sanitizeCoins_sort. }
  rewrite sort_perm in Hl. rewrite length_app, length_fmap, length_replicate.
  pose proof (length_filter (λ c, CoinSet.isZero c = false) coins) as Hle. split; [lia|].
  rewrite elem_of_app, list_elem_of_fmap, elem_of_replicate. split.
  - intros [(? & ? & _)|[_ Hn]]; [done|].
    destruct (decide (Exists (λ c, Amount c = 0) coins)) as [He|He].
    { by apply Exists_exists in He. }
    rewrite filter_nonzero_id in Hl; [lia|]. apply Forall_forall. intros c Hc E.
    apply He, Exists_exists. eauto.
  - intros (c & Hc & E). right. split; [done|].
    assert (length (filter (λ c, CoinSet.isZero c = false) coins) < length coins)%nat; [|lia].
    apply (length_filter_lt _ _ c); [done|]. rewrite isZero_false. unfold nonzero. lia.
Qed.

Lemma NewDecCoinsFromCoins_holes_witness :
  None ∈ [Some (mkCoin "aeil" 3000000000000000000); (None : option DecCoin)].
Proof.
  apply (NewDecCoinsFromCoins_holes [mkCoin "mcnl" 0; mkCoin "aeil" 3]); [reflexivity|].
  exists (mkCoin "mcnl" 0). split; [left|reflexivity].
Defined.

(** ** The unit registry *)

(** The base denomination is registered with the least unit, and is empty
    only for the empty registry. *)
Definition registry_ok (r : Denoms.registry) : Prop :=
  if String.eqb (Denoms.baseDenom r) "" then Denoms.denomUnits r = ∅
  else ∃ u, Denoms.denomUnits r !! Denoms.baseDenom r = Some u ∧
            ∀ d u', Denoms.denomUnits r !! d = Some u' → u <= u'.

Lemma RegisterDenom_ok r denom unit : registry_ok r →
  registry_ok (Denoms.RegisterDenom denom unit r).2 ∧
  ∀ e, (Denoms.RegisterDenom denom unit r).1 ≠ Panic e.
Proof.
  unfold registry_ok, Denoms.RegisterDenom, ValidateDenom. intros H.
  destruct (reDnm denom) eqn:Hd; simpl; [|done].
  assert (String.eqb denom "" = false) as Hne by (by destruct denom).
  destruct (Denoms.denomUnits r !! denom) eqn:Hl; [done|].
  destruct (String.eqb (Denoms.baseDenom r) "") eqn:Hb; simpl.
  - rewrite Hne, H. split; [|done]. exists unit. split; [apply lookup_insert_eq|].
    intros d u' [[_ ->]|[_ ?]]%lookup_insert_Some; [lia|done].
  - destruct H as (u & Hu & Hmin).
    rewrite lookup_insert_ne by congruence. rewrite Hu. simpl. split; [|done].
    unfold Dec.LT. destruct (Z.ltb_spec unit u).
    + rewrite Hne. exists unit. split; [apply lookup_insert_eq|].
      intros d u' [[_ ->]|[_ Hl']]%lookup_insert_Some; [lia|]. apply Hmin in Hl'. lia.
    + rewrite Hb. exists u. split; [by rewrite lookup_insert_ne by congruence|].
      intros d u' [[_ ->]|[_ Hl']]%lookup_insert_Some; [lia|]. by apply Hmin in Hl'.
Qed.

(** A start-up sequence of registrations. *)
Fixpoint register_all (l : list (string * Z)) (r : Denoms.registry) : Denoms.registry :=
  match l with
  | [] => r
  | (d, u) :: l' => register_all l' (Denoms.RegisterDenom d u r).2
  end.

(** Whatever is registered, in whatever order and with whatever failures,
    [GetBaseDenom] names a registered denomination of least unit as soon as one
    is registered, and registration never panics. *)
Theorem base_denom_least (l : list (string * Z)) (b : string) :
  Denoms.GetBaseDenom (register_all l Denoms.empty_registry) = Ok b →
  ∃ u, Denoms.denomUnits (register_all l Denoms.empty_registry) !! b = Some u ∧
    (∀ d u', Denoms.GetDenomUnit (register_all l Denoms.empty_registry) d = Some u' → u <= u') ∧
    ∀ d u e, (Denoms.RegisterDenom d u (register_all l Denoms.empty_registry)).1 ≠ Panic e.
Proof.
  assert (∀ r, registry_ok r → registry_ok (register_all l r)) as Hall.
  { induction l as [|[d u] l IH]; intros r Hr; [done|]. simpl.
    apply IH. by apply RegisterDenom_ok. }
  specialize (Hall Denoms.empty_registry eq_refl).
  set (r := register_all _ _) in *. clearbody r.
  unfold Denoms.GetBaseDenom. pose proof Hall as Hok. unfold registry_ok in Hall.
  destruct (String.eqb _ ""); [done|]. intros [= <-]. destruct Hall as (u & Hu & Hmin).
  exists u. split_and!; [done| |].
  - intros d u'. unfold Denoms.GetDenomUnit. destruct (reDnm d); [apply Hmin|done].
  - intros d v e. by apply RegisterDenom_ok.
Qed.

Lemma base_denom_least_witness :
  ∃ u, Denoms.denomUnits (register_all [("rec", 10); ("aeil", 1)] Denoms.empty_registry)
         !! "aeil" = Some u.
Proof.
  destruct (base_denom_least [("rec", 10); ("aeil", 1)] "aeil" eq_refl) as (u & H & _).
  exists u. exact H.
Defined.

(** ** The coin syntax *)

(** Bytes that occur in printed coin sets. *)
Definition plain (c : ascii) : bool :=
  is_denom_char c || Ascii.eqb c "." || Ascii.eqb c ",".

Lemma spaces_not_plain sp : sp ∈ Str.spaces → sforall plain sp = false.
Proof.
  assert (forallb (λ sp, negb (sforall plain sp)) Str.spaces = true) as H by reflexivity.
  intros Hsp%list_elem_of_In. by apply negb_true_iff, (proj1 (forallb_forall _ _) H).
Qed.

Lemma trim_space_plain s : sforall plain s = true → Str.trim_space s = s.
Proof.
  intros H. pose proof spaces_not_plain as Hsp.
  assert (∀ n, Str.trim_left_fuel n s = s) as Hleft.
  { intros [|n]; [done|]. cbn [Str.trim_left_fuel].
    destruct (list_find (λ sp, Str.has_prefix s sp = true) Str.spaces) as [[i sp]|] eqn:E; [|done].
    apply list_find_Some in E as (Hi & Hp & _). apply Str.has_prefix_spec in Hp as [r Hr].
    rewrite Hr, sforall_app, (Hsp sp) in H; [done|]. by eapply list_elem_of_lookup_2. }
  assert (∀ n, Str.trim_right_fuel n s = s) as Hright.
  { intros [|n]; [done|]. cbn [Str.trim_right_fuel].
    destruct (list_find (λ sp, Str.has_suffix s sp = true) Str.spaces) as [[i sp]|] eqn:E; [|done].
    apply list_find_Some in E as (Hi & Hp & _). apply Str.has_suffix_spec in Hp as [r Hr].
    rewrite Hr, sforall_app, (Hsp sp), andb_false_r in H; [done|].
    by eapply list_elem_of_lookup_2. }
  unfold Str.trim_space. by rewrite Hleft, Hright.
Qed.

Lemma span_all (Q : ascii → bool) a b : sforall Q a = true →
  (∀ c r, b = String c r → Q c = false) → Parse.span Q (a +:+ b) = (a, b).
Proof.
  intros Ha Hb. induction a as [|c a IH].
  - destruct b as [|c b]; [done|]. simpl. by rewrite (Hb c b).
  - simpl in Ha. apply andb_true_iff in Ha as [Hc Ha]. rewrite Str.app_cons. simpl.
    by rewrite Hc, IH.
Qed.

Lemma letter_facts c : is_letter c = true →
  is_digit c = false ∧ Parse.is_space c = false ∧ c ≠ "."%char.
Proof.
  unfold is_letter, is_digit, Parse.is_space.
  rewrite orb_true_iff, !andb_true_iff, !N.leb_le. intros H. split_and!.
  - apply andb_false_iff. rewrite !Z.leb_gt. lia.
  - apply orb_false_iff. rewrite andb_false_iff, !N.leb_gt, N.eqb_neq. lia.
  - intros ->. change (N_of_ascii ".") with 46%N in H. lia.
Qed.

Lemma reDnm_head d : reDnm d = true →
  sforall is_denom_char d = true ∧ ∃ c r, d = String c r ∧ is_letter c = true.
Proof.
  destruct d as [|c r]; [done|]. unfold reDnm. rewrite !andb_true_iff.
  intros [[[Hc Hr] _] _]. split; [|by eauto]. simpl. rewrite Hr. unfold is_denom_char.
  by rewrite Hc.
Qed.

(** A whole amount followed by a denomination is read as the two. *)
Lemma reDecCoin_whole w d : digits w = true → w ≠ "" → reDnm d = true →
  Parse.reDecCoin (w +:+ d) = Some (w, d).
Proof.
  intros Hw Hne Hd. destruct (reDnm_head d Hd) as (_ & c & r & -> & Hc).
  destruct (letter_facts c Hc) as (Hdig & Hsp & Hdot).
  unfold Parse.reDecCoin. rewrite (span_all is_digit w) by (done || naive_solver).
  assert (Parse.span Parse.is_space (String c r) = ("", String c r)) as Hspan.
  { simpl. by rewrite Hsp. }
  assert (Str.has_prefix (String c r) "." = false) as ->.
  { apply not_true_is_false. intros [x [= ->]]%Str.has_prefix_spec. done. }
  rewrite (proj2 (String.eqb_neq w "")), Hspan by done. by rewrite Hd.
Qed.

(** [NewDecFromStr] on a digit string without a point. *)
Lemma NewDecFromStr_whole w : digits w = true → w ≠ "" →
  Dec.valid (dec_val 0 w * P) → Dec.NewDecFromStr w = Ok (dec_val 0 w * P).
Proof.
  intros Hw Hne Hv. apply Dec.dec_in_range in Hv.
  assert (Big.SetString (w +:+ zeros 18) 10 = Some (dec_val 0 w * P)) as Hset.
  { rewrite SetString_digits.
    - by rewrite dec_val_app, dec_val_zeros_acc.
    - unfold digits in *. by rewrite sforall_app, Hw.
    - by destruct w. }
  assert (Str.split "." w = [w]) as Hsp by (apply split_none; by apply digits_no_sep).
  destruct w as [|c w]; [by destruct Hne|]. unfold Dec.NewDecFromStr.
  assert (Ascii.eqb c "-" = false) as ->.
  { unfold digits in Hw. simpl in Hw. apply andb_true_iff in Hw as [Hc _].
    apply Ascii.eqb_neq. by apply is_digit_neq. }
  rewrite Hsp. change (Z.to_nat Dec.Precision - 0)%nat with 18%nat. by rewrite Hset, Hv.
Qed.

(** A coin of the kind the code prints and stores. *)
Definition printable (c : Coin) : Prop := coin_ok c ∧ Amount c < 2 ^ 256.

Lemma printable_dec c : printable c → Dec.valid (Amount c * P).
Proof. intros [[_ ?] ?]. apply Dec.Int_to_Dec_valid. unfold Int.valid. lia. Qed.

Lemma coin_text c : 0 <= Amount c →
  Coin1.to_String c = Big.print_nonneg (Amount c) +:+ Denom c.
Proof. intros H. unfold Coin1.to_String, Int.to_String. by rewrite to_string_nonneg. Qed.

Lemma digits_plain w : digits w = true → sforall plain w = true.
Proof.
  apply sforall_impl. intros c Hc. unfold plain, is_denom_char. rewrite Hc.
  by rewrite orb_true_r.
Qed.

Lemma denom_plain d : reDnm d = true → sforall plain d = true.
Proof.
  intros [H _]%reDnm_head. revert H. apply sforall_impl. intros c Hc.
  unfold plain. by rewrite Hc.
Qed.

Lemma ParseDecCoin_print c : printable c →
  Parse.ParseDecCoin (Coin1.to_String c) = Ok (mkCoin (Denom c) (Amount c * P)).
Proof.
  intros Hp. pose proof (printable_dec c Hp) as Hv. destruct Hp as [[Hd Hpos] _].
  destruct (print_nonneg_spec (Amount c) ltac:(lia)) as (Hdig & Hval & Hne).
  rewrite coin_text by lia. set (w := Big.print_nonneg (Amount c)) in *. clearbody w.
  unfold Parse.ParseDecCoin. rewrite trim_space_plain.
  2:{ rewrite sforall_app, digits_plain, denom_plain by done. done. }
  rewrite reDecCoin_whole by done. cbn [or_err mbind outcome_bind].
  rewrite (bind_run _ _ (Amount c * P)).
  2:{ rewrite <-Hval. apply NewDecFromStr_whole; try done. by rewrite Hval. }
  rewrite (bind_run _ _ ()) by (by apply ValidateDenom_Ok).
  unfold DecCoin1.NewDecCoinFromDec.
  rewrite (bind_run _ _ ()) by (by apply mustValidateDenom_Ok).
  unfold Dec.IsNegative. change (Z.sgn ?x =? -1) with (Int.IsNegative x).
  rewrite (proj2 (Int.IsNegative_false _)); [done|]. apply Z.mul_nonneg_nonneg; [lia|done].
Qed.

Lemma Truncate_whole c : printable c →
  DecCoin1.TruncateDecimal (mkCoin (Denom c) (Amount c * P)) = Ok (c, mkCoin (Denom c) 0).
Proof.
  intros [[Hd Hpos] Hlt]. rewrite TruncateDecimal_run.
  - cbn [Denom Amount]. rewrite Z.div_mul, Z.mod_mul by done. by destruct c.
  - split; [done|]. cbn [Amount]. apply Z.mul_pos_pos; [lia|done].
  - unfold whole_ok. cbn [Amount]. apply Z.mul_lt_mono_pos_r; done.
Qed.

(** Scaling a set to decimals. *)
Definition to_dec (c : Coin) : DecCoin := mkCoin (Denom c) (Amount c * P).

Lemma to_dec_wf a : wf a → wf (to_dec <$> a).
Proof.
  intros [Hs Hok]. split.
  - induction Hs as [|c a Hs IH Hc]; simpl; constructor.
    + apply IH. by apply Forall_cons in Hok as [_ ?].
    + apply Forall_fmap. eapply Forall_impl; [exact Hc|]. done.
  - apply Forall_fmap. eapply Forall_impl; [exact Hok|]. intros c [? ?]. split; [done|].
    simpl. apply Z.mul_pos_pos; [lia|done].
Qed.

Lemma split_join l : l ≠ [] →
  Forall (λ s, sforall (λ c, negb (Ascii.eqb c ",")) s = true) l →
  Str.split "," (Str.join "," l) = l.
Proof.
  intros Hne H. induction H as [|s l Hs Hl IH]; [done|].
  destruct l as [|s' l]; [simpl; by apply split_none|].
  change (Str.join "," (s :: s' :: l)) with (s +:+ String "," (Str.join "," (s' :: l))).
  rewrite split_app by done. f_equal. by apply IH.
Qed.

Lemma parse_all_print a : Forall printable a →
  Parse.parse_all (Coin1.to_String <$> a) = Ok (to_dec <$> a).
Proof.
  induction 1 as [|c a Hc _ IH]; [done|].
  change (Parse.parse_all (Coin1.to_String <$> c :: a)) with
    (x ← Parse.ParseDecCoin (Coin1.to_String c);
     l ← Parse.parse_all (Coin1.to_String <$> a); Ok (x :: l)).
  rewrite (bind_run _ _ _ (ParseDecCoin_print c Hc)). by rewrite (bind_run _ _ _ IH).
Qed.

Lemma NormalizeCoins_whole a : Forall printable a →
  Denoms.NormalizeCoins Denoms.empty_registry (to_dec <$> a) = Ok a.
Proof.
  induction 1 as [|c a Hc _ IH]; [done|].
  change (Denoms.NormalizeCoins Denoms.empty_registry (to_dec <$> c :: a)) with
    ('(newCoin, _) ← DecCoin1.TruncateDecimal (to_dec c);
     l ← Denoms.NormalizeCoins Denoms.empty_registry (to_dec <$> a);
     Ok (newCoin :: l)).
  unfold to_dec at 1. rewrite (bind_run _ _ _ (Truncate_whole c Hc)).
  by rewrite (bind_run _ _ _ IH).
Qed.

Lemma printable_plain c : printable c → sforall plain (Coin1.to_String c) = true ∧
  sforall (λ x, negb (Ascii.eqb x ",")) (Coin1.to_String c) = true ∧ Coin1.to_String c ≠ "".
Proof.
  intros [[Hd Hpos] _]. rewrite coin_text by lia.
  destruct (print_nonneg_spec (Amount c) ltac:(lia)) as (Hdig & _ & Hne).
  rewrite !sforall_app, digits_plain, denom_plain by done. split; [done|].
  rewrite digits_no_sep by done. split; [|by destruct (Big.print_nonneg _)].
  destruct (reDnm_head _ Hd) as [Hdc _]. revert Hdc. apply sforall_impl.
  intros x Hx. apply negb_true_iff, Ascii.eqb_neq. by intros ->.
Qed.

Lemma join_plain l : Forall (λ s, sforall plain s = true) l →
  sforall plain (Str.join "," l) = true.
Proof.
  induction 1 as [|s l Hs Hl IH]; [done|]. destruct l as [|s' l]; [done|].
  change (Str.join "," (s :: s' :: l)) with (s +:+ String "," (Str.join "," (s' :: l))).
  rewrite sforall_app, Hs. exact IH.
Qed.

(** The text of a valid coin set parses back to the set (with no unit
    registered), for one coin and for a comma-separated list. *)
Theorem Coins_text_roundtrip (a : list Coin) :
  Coins.IsValid a = true → in_range a →
  Parse.ParseCoinsNormalized Denoms.empty_registry (Coins.to_String a) = Ok a ∧
  Forall (λ c, Parse.ParseCoinNormalized Denoms.empty_registry (Coin1.to_String c) = Ok c) a.
Proof.
  intros Hw%IsValid_wf Hr.
  assert (Forall printable a) as Hp.
  { apply Forall_forall. intros c Hc. destruct Hw as [_ Hok].
    unfold in_range in Hr. rewrite Forall_forall in Hok, Hr.
    split; [auto|]. specialize (Hr c Hc). specialize (Hok c Hc) as [_ ?].
    unfold Int.valid in Hr. lia. }
  split.
  - unfold Parse.ParseCoinsNormalized, Parse.ParseDecCoins, Coins.to_String.
    rewrite trim_space_plain.
    2:{ apply join_plain, Forall_fmap. eapply Forall_impl; [exact Hp|].
        intros c Hc. apply (printable_plain c Hc). }
    destruct a as [|c0 a0]; [done|]. set (a := c0 :: a0) in *.
    assert ((String.length (Str.join "," (Coin1.to_String <$> a)) =? 0)%nat = false) as ->.
    { pose proof Hp as [Hp0 _]%Forall_cons. destruct (printable_plain c0 Hp0) as (_ & _ & Hne).
      apply Nat.eqb_neq. subst a. rewrite fmap_cons.
      destruct (Coin1.to_String c0) eqn:E; [done|]. by destruct (Coin1.to_String <$> a0). }
    rewrite split_join; [|done|].
    2:{ apply Forall_fmap. eapply Forall_impl; [exact Hp|]. intros c Hc.
        apply (printable_plain c Hc). }
    rewrite (bind_run _ _ (to_dec <$> a)); [by apply NormalizeCoins_whole|].
    rewrite (bind_run _ _ _ (parse_all_print a Hp)). pose proof (to_dec_wf a Hw) as Hwd.
    assert (DecCoins.sanitizeDecCoins (to_dec <$> a) = to_dec <$> a) as ->.
    { etrans; [|apply (sort_id (to_dec <$> a)), Hwd].
      rewrite <-(filter_nonzero_id (to_dec <$> a)) at 2 by (by apply wf_nonzero).
      unfold DecCoins.sanitizeDecCoins, DecCoins.removeZeroDecCoins.
      change (λ c, DecCoin1.IsZero c = false) with (λ c, CoinSet.isZero c = false).
      by destruct (filter _ _). }
    rewrite (bind_run _ _ ()); [done|]. by apply Validate_wf.
  - eapply Forall_impl; [exact Hp|]. intros c Hc. unfold Parse.ParseCoinNormalized.
    rewrite (bind_run _ _ _ (ParseDecCoin_print c Hc)).
    rewrite (bind_run _ _ (mkCoin (Denom c) (Amount c * P))) by done.
    by rewrite (bind_run _ _ _ (Truncate_whole c Hc)).
Qed.

Lemma Coins_text_roundtrip_witness :
  Parse.ParseCoinsNormalized Denoms.empty_registry "3aeil,5mcnl" = Ok set1.
Proof.
  apply (Coins_text_roundtrip set1); [reflexivity|].
  apply in_range_small; repeat constructor.
Defined.
