(* ===== verification/Vesting.v ===== *)
(** * x/auth/vesting: vesting accounts

    The four vesting account types of types/vesting_account.go and their
    periods (types/period.go).  The embedded [BaseAccount] is the account the
    chain keeps the vesting data with, so a value here is what a vesting
    account adds to it.  Times are Unix seconds at int64 width; a nil and an
    empty set of coins are both the empty list. *)

From Stdlib Require Import ZArith Lia Ascii String.
From stdpp Require Import base tactics option list sorting strings.
From S2P Require Import Prelude GoStd Digits SdkInt Decimal Coin CoinFacts.

Local Open Scope Z_scope.

Module Vesting.

Record Period := mkPeriod { p_Length : Z; p_Amount : list Coin }.

Record BaseVestingAccount := mkBase {
  OriginalVesting : list Coin;
  DelegatedFree : list Coin;
  DelegatedVesting : list Coin;
  EndTime : Z }.

Inductive VestingAccount :=
  | ContinuousVestingAccount (bva : BaseVestingAccount) (StartTime : Z)
  | PeriodicVestingAccount (bva : BaseVestingAccount) (StartTime : Z) (VestingPeriods : list Period)
  | DelayedVestingAccount (bva : BaseVestingAccount)
  | PermanentLockedAccount (bva : BaseVestingAccount).

(** The embedded [BaseVestingAccount], and an account with another one. *)
Definition base (v : VestingAccount) : BaseVestingAccount :=
  match v with
  | ContinuousVestingAccount b _ | PeriodicVestingAccount b _ _
  | DelayedVestingAccount b | PermanentLockedAccount b => b
  end.
Definition with_base (b : BaseVestingAccount) (v : VestingAccount) : VestingAccount :=
  match v with
  | ContinuousVestingAccount _ st => ContinuousVestingAccount b st
  | PeriodicVestingAccount _ st ps => PeriodicVestingAccount b st ps
  | DelayedVestingAccount _ => DelayedVestingAccount b
  | PermanentLockedAccount _ => PermanentLockedAccount b
  end.

(** ** Periods *)

Definition TotalLength (ps : list Period) : Z :=
  foldl (λ total p, wrap64 (total + p_Length p)) 0 ps.

Definition TotalAmount (ps : list Period) : outcome (list Coin) :=
  fold_out (λ total p, Coins.Add total (p_Amount p)) [] ps.

(** ** Constructors *)

Definition NewBaseVestingAccount (originalVesting : list Coin) (endTime : Z)
    : outcome BaseVestingAccount :=
  free ← Coins.NewCoins [];
  vesting ← Coins.NewCoins [];
  Ok (mkBase originalVesting free vesting endTime).

Definition NewContinuousVestingAccountRaw (bva : BaseVestingAccount) (startTime : Z)
    : VestingAccount := ContinuousVestingAccount bva startTime.
Definition NewContinuousVestingAccount (originalVesting : list Coin) (startTime endTime : Z)
    : VestingAccount := ContinuousVestingAccount (mkBase originalVesting [] [] endTime) startTime.

Definition NewPeriodicVestingAccountRaw (bva : BaseVestingAccount) (startTime : Z)
    (periods : list Period) : VestingAccount := PeriodicVestingAccount bva startTime periods.
Definition NewPeriodicVestingAccount (originalVesting : list Coin) (startTime : Z)
    (periods : list Period) : VestingAccount :=
  let endTime := foldl (λ e p, wrap64 (e + p_Length p)) startTime periods in
  PeriodicVestingAccount (mkBase originalVesting [] [] endTime) startTime periods.

Definition NewDelayedVestingAccountRaw (bva : BaseVestingAccount) : VestingAccount :=
  DelayedVestingAccount bva.
Definition NewDelayedVestingAccount (originalVesting : list Coin) (endTime : Z) : VestingAccount :=
  DelayedVestingAccount (mkBase originalVesting [] [] endTime).

Definition NewPermanentLockedAccount (coins : list Coin) : VestingAccount :=
  PermanentLockedAccount (mkBase coins [] [] 0).

(** ** Schedules *)

(** The loop that vests a share [s] of every original coin. *)
Fixpoint vest_share (s : Z) (original : list Coin) : outcome (list Coin) :=
  match original with
  | [] => Ok []
  | ovc :: rest =>
      amt ← Dec.NewDecFromInt (Amount ovc);
      m ← Dec.Mul amt s;
      vestedAmt ← Dec.RoundInt m;
      c ← Coin1.NewCoin (Denom ovc) vestedAmt;
      cs ← vest_share s rest;
      Ok (c :: cs)
  end.

Definition Continuous_GetVestedCoins (cva : BaseVestingAccount) (StartTime blockTime : Z)
    : outcome (list Coin) :=
  if blockTime <=? StartTime then Ok []
  else if EndTime cva <=? blockTime then Ok (OriginalVesting cva)
  else
    let x := wrap64 (blockTime - StartTime) in
    let y := wrap64 (EndTime cva - StartTime) in
    dx ← Dec.NewDec x;
    dy ← Dec.NewDec y;
    s ← Dec.Quo dx dy;
    vest_share s (OriginalVesting cva).

(** The loop over the periods, up to the first one that is not over. *)
Fixpoint vest_periods (blockTime currentPeriodStartTime : Z) (vestedCoins : list Coin)
    (periods : list Period) : outcome (list Coin) :=
  match periods with
  | [] => Ok vestedCoins
  | period :: rest =>
      let x := wrap64 (blockTime - currentPeriodStartTime) in
      if x <? p_Length period then Ok vestedCoins
      else
        vestedCoins ← Coins.Add vestedCoins (p_Amount period);
        vest_periods blockTime (wrap64 (currentPeriodStartTime + p_Length period)) vestedCoins rest
  end.

Definition Periodic_GetVestedCoins (pva : BaseVestingAccount) (StartTime : Z)
    (VestingPeriods : list Period) (blockTime : Z) : outcome (list Coin) :=
  if blockTime <=? StartTime then Ok []
  else if EndTime pva <=? blockTime then Ok (OriginalVesting pva)
  else vest_periods blockTime StartTime [] VestingPeriods.

Definition Delayed_GetVestedCoins (dva : BaseVestingAccount) (blockTime : Z)
    : outcome (list Coin) :=
  if EndTime dva <=? blockTime then Ok (OriginalVesting dva) else Ok [].

Definition GetVestedCoins (v : VestingAccount) (blockTime : Z) : outcome (list Coin) :=
  match v with
  | ContinuousVestingAccount b st => Continuous_GetVestedCoins b st blockTime
  | PeriodicVestingAccount b st ps => Periodic_GetVestedCoins b st ps blockTime
  | DelayedVestingAccount b => Delayed_GetVestedCoins b blockTime
  | PermanentLockedAccount _ => Ok []
  end.

Definition GetVestingCoins (v : VestingAccount) (blockTime : Z) : outcome (list Coin) :=
  match v with
  | PermanentLockedAccount b => Ok (OriginalVesting b)
  | _ => vested ← GetVestedCoins v blockTime; Coins.Sub (OriginalVesting (base v)) vested
  end.

Definition LockedCoinsFromVesting (bva : BaseVestingAccount) (vestingCoins : list Coin)
    : outcome (list Coin) :=
  m ← Coins.Min vestingCoins (DelegatedVesting bva);
  Coins.Sub vestingCoins m.

Definition LockedCoins (v : VestingAccount) (blockTime : Z) : outcome (list Coin) :=
  vesting ← GetVestingCoins v blockTime;
  LockedCoinsFromVesting (base v) vesting.

(** ** Delegations *)

(** One round of [BaseVestingAccount.TrackDelegation]. *)
Definition track_delegation (balance vestingCoins : list Coin) (bva : BaseVestingAccount)
    (coin : Coin) : outcome BaseVestingAccount :=
  baseAmt ← Coins.AmountOf balance (Denom coin);
  vestingAmt ← Coins.AmountOf vestingCoins (Denom coin);
  delVestingAmt ← Coins.AmountOf (DelegatedVesting bva) (Denom coin);
  _ ← panic_if (Int.IsZero (Amount coin) || Int.LT baseAmt (Amount coin))
        "delegation attempt with zero coins or insufficient funds";
  left ← Int.Sub vestingAmt delVestingAmt;
  let x := Int.MinInt (Int.MaxInt left Int.ZeroInt) (Amount coin) in
  y ← Int.Sub (Amount coin) x;
  bva ← (if Int.IsZero x then Ok bva
         else xCoin ← Coin1.NewCoin (Denom coin) x;
              dv ← Coins.Add (DelegatedVesting bva) [xCoin];
              Ok (mkBase (OriginalVesting bva) (DelegatedFree bva) dv (EndTime bva)));
  if Int.IsZero y then Ok bva
  else yCoin ← Coin1.NewCoin (Denom coin) y;
       df ← Coins.Add (DelegatedFree bva) [yCoin];
       Ok (mkBase (OriginalVesting bva) df (DelegatedVesting bva) (EndTime bva)).

Definition Base_TrackDelegation (balance vestingCoins amount : list Coin)
    (bva : BaseVestingAccount) : outcome BaseVestingAccount :=
  fold_out (track_delegation balance vestingCoins) bva amount.

(** One round of [BaseVestingAccount.TrackUndelegation]. *)
Definition track_undelegation (bva : BaseVestingAccount) (coin : Coin)
    : outcome BaseVestingAccount :=
  _ ← panic_if (Int.IsZero (Amount coin)) "undelegation attempt with zero coins";
  delegatedFree ← Coins.AmountOf (DelegatedFree bva) (Denom coin);
  delegatedVesting ← Coins.AmountOf (DelegatedVesting bva) (Denom coin);
  let x := Int.MinInt delegatedFree (Amount coin) in
  rest ← Int.Sub (Amount coin) x;
  let y := Int.MinInt delegatedVesting rest in
  bva ← (if Int.IsZero x then Ok bva
         else xCoin ← Coin1.NewCoin (Denom coin) x;
              df ← Coins.Sub (DelegatedFree bva) [xCoin];
              Ok (mkBase (OriginalVesting bva) df (DelegatedVesting bva) (EndTime bva)));
  if Int.IsZero y then Ok bva
  else yCoin ← Coin1.NewCoin (Denom coin) y;
       dv ← Coins.Sub (DelegatedVesting bva) [yCoin];
       Ok (mkBase (OriginalVesting bva) (DelegatedFree bva) dv (EndTime bva)).

Definition Base_TrackUndelegation (amount : list Coin) (bva : BaseVestingAccount)
    : outcome BaseVestingAccount := fold_out track_undelegation bva amount.

Definition TrackDelegation (blockTime : Z) (balance amount : list Coin) (v : VestingAccount)
    : outcome VestingAccount :=
  vesting ← GetVestingCoins v blockTime;
  b ← Base_TrackDelegation balance vesting amount (base v);
  Ok (with_base b v).

Definition TrackUndelegation (amount : list Coin) (v : VestingAccount) : outcome VestingAccount :=
  b ← Base_TrackUndelegation amount (base v); Ok (with_base b v).

(** ** Validation *)

Definition GetStartTime (v : VestingAccount) : Z :=
  match v with
  | ContinuousVestingAccount _ st | PeriodicVestingAccount _ st _ => st
  | _ => 0
  end.

Definition GetEndTime (v : VestingAccount) : Z :=
  match v with PermanentLockedAccount _ => 0 | _ => EndTime (base v) end.

(** [base_account] is the result of validating the embedded [BaseAccount]. *)
Definition Base_Validate (base_account : outcome ()) (bva : BaseVestingAccount) : outcome () :=
  le ← Coins.IsAllLTE (DelegatedVesting bva) (OriginalVesting bva);
  _ ← fail_if (negb le) "delegated vesting amount cannot be greater than original vesting amount";
  base_account.

Definition Validate (base_account : outcome ()) (v : VestingAccount) : outcome () :=
  match v with
  | ContinuousVestingAccount b st =>
      _ ← fail_if (EndTime b <=? st) "vesting start-time cannot be before end-time";
      Base_Validate base_account b
  | PeriodicVestingAccount b st ps =>
      _ ← fail_if (EndTime b <=? st) "vesting start-time cannot be before end-time";
      originalVesting ← Coins.NewCoins [];
      '(endTime, originalVesting) ← fold_out (λ '(e, o) p,
          let e := wrap64 (e + p_Length p) in
          o ← Coins.Add o (p_Amount p); Ok (e, o)) (st, originalVesting) ps;
      _ ← fail_if (negb (endTime =? EndTime b))
            "vesting end time does not match length of all vesting periods";
      eq ← Coins.IsEqual originalVesting (OriginalVesting b);
      _ ← fail_if (negb eq)
            "original vesting coins does not match the sum of all coins in vesting periods";
      Base_Validate base_account b
  | DelayedVestingAccount b => Base_Validate base_account b
  | PermanentLockedAccount b =>
      _ ← fail_if (0 <? EndTime b) "permanently vested accounts cannot have an end-time";
      Base_Validate base_account b
  end.

End Vesting.
