(* ===== verification/VestingFacts.v ===== *)
(** * Facts about vesting accounts

    The schedules of the four account types, the coins they lock and the
    effect of tracking delegations, in terms of the amount of every
    denomination. *)

From Stdlib Require Import ZArith Lia Ascii String.
From stdpp Require Import base tactics option list sorting strings.
From S2P Require Import Prelude GoStd Digits SdkInt Decimal Coin CoinFacts Vesting.

Local Open Scope Z_scope.

Module VestingFacts.
Import Vesting.

(** ** Coin sets *)

(** The coins of a set that another one bounds are in range. *)
Lemma in_range_le a b : ssorted a → in_range a → wf b → (∀ d, sum_of d b <= sum_of d a) → in_range b.
Proof.
  intros Ha Hr Hb Hle. apply Forall_forall. intros c Hc.
  pose proof (sum_of_valid (Denom c) a Ha Hr) as Hv. specialize (Hle (Denom c)).
  rewrite (sum_of_elem c b) in Hle by (done || apply Hb).
  destruct Hb as [_ Hb]. rewrite Forall_forall in Hb. destruct (Hb c Hc) as [_ ?].
  unfold Int.valid in *. lia.
Qed.

(** Subtracting a sorted set that holds no more of any denomination. *)
Lemma Sub_run a b : wf a → in_range a → ssorted b → Forall (λ c, reDnm (Denom c) = true) b →
  (∀ d, 0 <= sum_of d b <= sum_of d a) →
  ∃ r, Coins.Sub a b = Ok r ∧ wf r ∧ in_range r ∧ ∀ d, sum_of d r = sum_of d a - sum_of d b.
Proof.
  intros Ha Hr Hb Hd Hle. pose proof (negative_ssorted b Hb) as Hnb.
  destruct (safeAdd_total a (Coins.negative b) (proj1 Ha) Hnb) as [s Hs].
  { intros d. rewrite negative_sum. pose proof (Hle d).
    pose proof (sum_of_valid d a (proj1 Ha) Hr). unfold Int.valid in *. lia. }
  destruct (safeAdd_spec _ _ _ (proj1 Ha) Hnb Hs) as (Hsum & Hz & Hso & HP).
  assert (∀ d, sum_of d s = sum_of d a - sum_of d b) as Hd'.
  { intros d. rewrite Hsum, negative_sum. lia. }
  assert (wf s) as Hw.
  { apply canonical_wf; [done|done| |intros d; rewrite Hd'; specialize (Hle d); lia].
    apply (HP (λ d, reDnm d = true)); [by apply wf_denoms|]. by apply Forall_fmap. }
  exists s. split_and!; [|done| |done].
  - unfold Coins.Sub, Coins.SafeSub. rewrite Hs. simpl.
    by rewrite (proj2 (IsAnyNegative_false s) (wf_nonneg s Hw)).
  - apply (in_range_le a); [apply Ha|done|done|]. intros d. rewrite Hd'. specialize (Hle d). lia.
Qed.

(** What a subtraction that returns says. *)
Lemma set_Sub_Ok a b r : wf a → wf b → in_range a → in_range b → Coins.Sub a b = Ok r →
  wf r ∧ in_range r ∧ ∀ d, sum_of d r = sum_of d a - sum_of d b.
Proof.
  intros Ha Hb Hra Hrb H. destruct (SafeSub_spec a b Ha Hb Hra Hrb) as (x & neg & Hs & _ & _ & _ & _ & Hn).
  unfold Coins.Sub in H. rewrite Hs in H. simpl in H.
  destruct neg; [done|]. pose proof (proj1 Hn eq_refl) as Hle.
  destruct (Sub_run a b Ha Hra (proj1 Hb) (wf_denoms b Hb)) as (r' & Hr' & Hw & Hi & Hd).
  { intros d. split; [by apply wf_sum_nonneg|done]. }
  unfold Coins.Sub in Hr'. rewrite Hs in Hr'. simpl in Hr', H. by simplify_eq.
Qed.

Lemma set_Add_Ok a b r : wf a → wf b → in_range a → in_range b → Coins.Add a b = Ok r →
  wf r ∧ in_range r ∧ ∀ d, sum_of d r = sum_of d a + sum_of d b.
Proof.
  intros Ha Hb Hra Hrb H. destruct (safeAdd_wf a b r Ha Hb H) as [Hw Hd].
  split_and!; [done| |done]. exact (safeAdd_in_range a b r (proj1 Ha) (proj1 Hb) Hra Hrb H).
Qed.

Lemma wf_nil : wf [].
Proof. split; constructor. Qed.
Lemma in_range_nil : in_range [].
Proof. constructor. Qed.

(** The set of one coin. *)
Lemma wf_single d x : reDnm d = true → 0 < x → wf [mkCoin d x].
Proof. intros Hd Hx. split; repeat constructor; done. Qed.
Lemma in_range_single d x : Int.valid x → in_range [mkCoin d x].
Proof. intros. by repeat constructor. Qed.

Lemma IsEqual_true a b : wf a → wf b → Coins.IsEqual a b = Ok true → a = b.
Proof.
  intros Ha Hb. unfold Coins.IsEqual, Coins.Sort. rewrite (sort_id a), (sort_id b) by (apply Ha || apply Hb).
  destruct (Nat.eqb_spec (length a) (length b)) as [Hl|]; [|done]. cbn [negb]. clear Ha Hb.
  revert b Hl. induction a as [|[d x] a IH]; intros [|[d' x'] b] Hl H; try done.
  change (zip (mkCoin d x :: a) (mkCoin d' x' :: b)) with ((mkCoin d x, mkCoin d' x') :: zip a b) in H.
  cbn [all_out] in H. unfold Coin1.IsEqual, Coin1.same_denom, Int.Equal in H. simpl in H.
  destruct (String.eqb_spec d d') as [->|]; [|done]. simpl in H.
  destruct (Z.eqb_spec x x') as [->|]; [|done]. simpl in H. f_equal. apply IH; [by injection Hl|done].
Qed.

(** ** Rounding *)

Lemma chop_mono d d' : d <= d' → Dec.chopPrecisionAndRound d <= Dec.chopPrecisionAndRound d'.
Proof.
  intros Hd. pose proof (Dec.chopPrecisionAndRound_nearest d) as [H1 E1].
  pose proof (Dec.chopPrecisionAndRound_nearest d') as [H2 E2].
  revert H1 E1 H2 E2. generalize (Dec.chopPrecisionAndRound d), (Dec.chopPrecisionAndRound d').
  rewrite Dec.precisionReuse_val. intros r r' H1 E1 H2 E2.
  destruct (Z.le_gt_cases r r') as [|Hgt]; [done|exfalso].
  assert (Z.Even r ∧ Z.Even r') as [[x ->] [y ->]] by (split; [apply E1|apply E2]; lia). lia.
Qed.

Lemma chop_zero : Dec.chopPrecisionAndRound 0 = 0.
Proof. reflexivity. Qed.

(** The share [s] of an amount, rounded twice as the code does. *)
Definition share (s a : Z) : Z :=
  Dec.chopPrecisionAndRound (Dec.chopPrecisionAndRound (a * Dec.precisionReuse * s)).

Lemma share_zero s : share s 0 = 0.
Proof. reflexivity. Qed.

Lemma share_inner s a : 0 <= a → 0 <= s <= Dec.precisionReuse →
  0 <= Dec.chopPrecisionAndRound (a * Dec.precisionReuse * s) <= a * Dec.precisionReuse.
Proof.
  intros Ha Hs. split.
  - rewrite <-chop_zero. apply chop_mono. apply Z.mul_nonneg_nonneg; [|lia]. apply Z.mul_nonneg_nonneg; [lia|done].
  - rewrite <-(Dec.chop_multiple (a * Dec.precisionReuse)) at 2. apply chop_mono.
    apply Z.mul_le_mono_nonneg_l; [|lia]. apply Z.mul_nonneg_nonneg; [lia|done].
Qed.

Lemma share_bounds s a : 0 <= a → 0 <= s <= Dec.precisionReuse → 0 <= share s a <= a.
Proof.
  intros Ha Hs. destruct (share_inner s a Ha Hs) as [H0 H1]. unfold share. split.
  - rewrite <-chop_zero at 1. by apply chop_mono.
  - rewrite <-(Dec.chop_multiple a) at 2. by apply chop_mono.
Qed.

Lemma share_mono s s' a : 0 <= a → s <= s' → share s a <= share s' a.
Proof.
  intros Ha Hs. apply chop_mono, chop_mono, Z.mul_le_mono_nonneg_l; [|done].
  apply Z.mul_nonneg_nonneg; [done|done].
Qed.

(** ** The continuous schedule *)

Definition shares (s : Z) (l : list Coin) : list Coin :=
  (λ c, mkCoin (Denom c) (share s (Amount c))) <$> l.

Lemma vest_share_run s l : 0 <= s <= Dec.precisionReuse → wf l → in_range l →
  vest_share s l = Ok (shares s l).
Proof.
  intros Hs. induction l as [|c l IH]; intros Hw Hr; [done|].
  apply wf_cons in Hw as ([Hd Hc] & _ & Hw). apply Forall_cons in Hr as [Hv Hr].
  assert (0 <= Amount c) as Ha by lia.
  destruct (share_inner s (Amount c) Ha Hs) as [H0 H1].
  destruct (share_bounds s (Amount c) Ha Hs) as [H2 H3].
  assert (Dec.Mul (Amount c * Dec.precisionReuse) s =
    Ok (Dec.chopPrecisionAndRound (Amount c * Dec.precisionReuse * s))) as Hm.
  { apply Dec.checked_valid. eapply Dec.valid_le; [by apply Dec.Int_to_Dec_valid|]. lia. }
  assert (Dec.RoundInt (Dec.chopPrecisionAndRound (Amount c * Dec.precisionReuse * s)) =
    Ok (share s (Amount c))) as Hi.
  { unfold Dec.RoundInt, Int.NewIntFromBigInt. fold (share s (Amount c)).
    by rewrite (proj2 (Int.overflows_false _)) by (unfold Int.valid in *; lia). }
  cbn [vest_share]. rewrite (bind_run _ _ _ (Dec.NewDecFromInt_run _)), (bind_run _ _ _ Hm), (bind_run _ _ _ Hi),
    (bind_run _ _ _ (NewCoin_run _ _ Hd H2)), (bind_run _ _ _ (IH Hw Hr)). done.
Qed.

Lemma shares_sorted s l : ssorted l → ssorted (shares s l).
Proof.
  induction 1 as [|c l _ IH Hc]; simpl; constructor; [done|].
  apply Forall_fmap. eapply Forall_impl; [exact Hc|]. done.
Qed.

Lemma shares_denoms s l : Forall (λ c, reDnm (Denom c) = true) l →
  Forall (λ c, reDnm (Denom c) = true) (shares s l).
Proof. intros H. apply Forall_fmap. eapply Forall_impl; [exact H|]. done. Qed.

Lemma shares_sum s l d : ssorted l → sum_of d (shares s l) = share s (sum_of d l).
Proof.
  induction l as [|c l IH]; intros Hs; [done|]. pose proof Hs as [Hl Hc]%StronglySorted_inv.
  simpl. rewrite (IH Hl). destruct (String.eqb_spec (Denom c) d) as [<-|]; [|done].
  rewrite (sum_of_lt (Denom c) l); [|exact Hc]. by rewrite share_zero, !Z.add_0_r.
Qed.

(** The share of a schedule that has run for [x] of its [y] seconds. *)
Definition progress (x y : Z) : Z :=
  Dec.chopPrecisionAndRound
    (Z.quot (x * Dec.precisionReuse * Dec.precisionReuse * Dec.precisionReuse) (y * Dec.precisionReuse)).

Lemma progress_mono x x' y : 0 <= x <= x' → 0 < y → progress x y <= progress x' y.
Proof.
  intros Hx Hy. apply chop_mono, Z.quot_le_mono; [|].
  all: rewrite Dec.precisionReuse_val; lia.
Qed.

Lemma progress_bounds x y : 0 <= x <= y → 0 < y → 0 <= progress x y <= Dec.precisionReuse.
Proof.
  intros Hx Hy. split.
  - change 0 with (Dec.chopPrecisionAndRound 0). apply chop_mono, Z.quot_pos;
      rewrite Dec.precisionReuse_val; lia.
  - transitivity (progress y y); [apply progress_mono; lia|]. unfold progress.
    replace (y * Dec.precisionReuse * Dec.precisionReuse * Dec.precisionReuse)
      with (Dec.precisionReuse * Dec.precisionReuse * (y * Dec.precisionReuse)) by lia.
    rewrite Z.quot_mul by (rewrite Dec.precisionReuse_val; lia). by rewrite Dec.chop_multiple.
Qed.

Lemma Quo_progress x y : 0 <= x <= y → 0 < y →
  Dec.Quo (x * Dec.precisionReuse) (y * Dec.precisionReuse) = Ok (progress x y).
Proof.
  intros Hx Hy. pose proof (progress_bounds x y Hx Hy). unfold Dec.Quo, Dec.big_quo.
  rewrite (proj2 (Z.eqb_neq _ _)) by (rewrite Dec.precisionReuse_val; lia). simpl.
  apply Dec.checked_valid. fold (progress x y). unfold Dec.valid.
  rewrite Dec.precisionReuse_val in *. lia.
Qed.

(** ** Well-formed accounts *)

Definition coins_ok (l : list Coin) : Prop := wf l ∧ in_range l.

Lemma coins_ok_nil : coins_ok [].
Proof. split; [apply wf_nil|apply in_range_nil]. Qed.

Definition base_ok (b : BaseVestingAccount) : Prop :=
  coins_ok (OriginalVesting b) ∧ coins_ok (DelegatedFree b) ∧ coins_ok (DelegatedVesting b).

Definition period_ok (p : Period) : Prop := coins_ok (p_Amount p) ∧ 0 <= p_Length p.

Fixpoint total_length (ps : list Period) : Z :=
  match ps with [] => 0 | p :: ps => p_Length p + total_length ps end.
Fixpoint total_amount (d : string) (ps : list Period) : Z :=
  match ps with [] => 0 | p :: ps => sum_of d (p_Amount p) + total_amount d ps end.

(** Fields of the types the code gives them: valid sets of coins, times after
    the epoch whose sums are int64 values. *)
Definition fields_ok (v : VestingAccount) : Prop :=
  base_ok (base v) ∧ 0 <= GetStartTime v ∧ EndTime (base v) < 2 ^ 63 ∧
  match v with
  | PeriodicVestingAccount _ st ps => Forall period_ok ps ∧ st + total_length ps < 2 ^ 63
  | _ => True
  end.

(** ... and an account the code's own validation accepts. *)
Definition account_ok (v : VestingAccount) : Prop := fields_ok v ∧ Validate (Ok ()) v = Ok ().

(** The block times of the chain. *)
Definition in_time (t : Z) : Prop := 0 <= t < 2 ^ 63.

Lemma in_time_wrap t : in_time t → wrap64 t = t.
Proof. intros Ht. apply wrap64_id. unfold is_int64, in_time in *. apply andb_true_iff. rewrite Z.leb_le, Z.ltb_lt. lia. Qed.

Lemma total_length_nonneg ps : Forall period_ok ps → 0 <= total_length ps.
Proof. induction 1 as [|p ps [_ Hp] _ IH]; simpl; lia. Qed.
Lemma total_amount_nonneg d ps : Forall period_ok ps → 0 <= total_amount d ps.
Proof.
  induction 1 as [|p ps [[Hw _] _] _ IH]; simpl; [lia|]. pose proof (wf_sum_nonneg d _ Hw). lia.
Qed.

(** The loop of [Validate] adds up the lengths and the amounts. *)
Lemma periods_fold ps : ∀ e o r, Forall period_ok ps → 0 <= e → e + total_length ps < 2 ^ 63 → coins_ok o →
  fold_out (λ '(e, o) p, let e := wrap64 (e + p_Length p) in
              o ← Coins.Add o (p_Amount p); Ok (e, o)) (e, o) ps = Ok r →
  r.1 = e + total_length ps ∧ coins_ok r.2 ∧ ∀ d, sum_of d r.2 = sum_of d o + total_amount d ps.
Proof.
  induction ps as [|p ps IH]; intros e o r Hps He Hlt Ho H; cbn [fold_out total_length total_amount] in *.
  { simplify_eq. simpl. split_and!; [lia|done|]. intros d. lia. }
  apply Forall_cons in Hps as [[[Hw Hr] Hl] Hps]. pose proof (total_length_nonneg ps Hps).
  apply bind_Ok in H as ([e' o'] & (o1 & Ha & [= <- <-])%bind_Ok & H).
  rewrite in_time_wrap in H by (unfold in_time; lia).
  destruct (set_Add_Ok _ _ _ (proj1 Ho) Hw (proj2 Ho) Hr Ha) as (Hw1 & Hr1 & Hs1).
  destruct (IH (e + p_Length p) o1 r Hps ltac:(lia) ltac:(lia) (conj Hw1 Hr1) H) as (-> & Ho' & Hs').
  split_and!; [lia|done|]. intros d. rewrite Hs', Hs1. lia.
Qed.

Lemma Base_Validate_Ok b : base_ok b → Base_Validate (Ok ()) b = Ok () →
  ∀ d, sum_of d (DelegatedVesting b) <= sum_of d (OriginalVesting b).
Proof.
  intros ([Hw Hr] & _ & [Hw' Hr']) H. unfold Base_Validate, Coins.IsAllLTE in H.
  destruct (IsAllGTE_spec (OriginalVesting b) (DelegatedVesting b) (proj1 Hw) Hw' (wf_nonneg _ Hw))
    as (r & Hrun & Hiff). rewrite (bind_run _ _ _ Hrun) in H. destruct r; [|done]. by apply Hiff.
Qed.

Lemma Base_Validate_run b : base_ok b →
  (∀ d, sum_of d (DelegatedVesting b) <= sum_of d (OriginalVesting b)) → Base_Validate (Ok ()) b = Ok ().
Proof.
  intros ([Hw Hr] & _ & [Hw' Hr']) Hle. unfold Base_Validate, Coins.IsAllLTE.
  destruct (IsAllGTE_spec (OriginalVesting b) (DelegatedVesting b) (proj1 Hw) Hw' (wf_nonneg _ Hw))
    as (r & Hrun & Hiff). rewrite (bind_run _ _ _ Hrun). by rewrite (proj2 Hiff Hle).
Qed.

(** What validation establishes. *)
Lemma Validate_base v : account_ok v → Base_Validate (Ok ()) (base v) = Ok ().
Proof.
  intros [_ H]. destruct v as [b st|b st ps|b|b]; cbn [Validate base] in *; [| |done|];
    repeat match goal with H : _ ≫= _ = Ok _ |- _ => apply bind_Ok in H as (? & ? & H) end; [done| |done].
  case_match. repeat match goal with H : _ ≫= _ = Ok _ |- _ => apply bind_Ok in H as (? & ? & H) end. done.
Qed.

Lemma Validate_periods b st ps : account_ok (PeriodicVestingAccount b st ps) →
  EndTime b = st + total_length ps ∧ ∀ d, total_amount d ps = sum_of d (OriginalVesting b).
Proof.
  intros [(([Hw Hr] & _) & Hst & _ & Hps & Hlt) H]. cbn [Validate base GetStartTime] in *.
  apply bind_Ok in H as (? & _ & H).
  apply bind_Ok in H as (o0 & [= <-] & H). apply bind_Ok in H as (r & Hf & H).
  destruct (periods_fold ps st [] r Hps Hst Hlt coins_ok_nil Hf) as (He & [Hw' _] & Hs).
  destruct r as [e o]. cbn [fst snd] in *.
  apply bind_Ok in H as (? & Hfi & H). apply fail_if_Ok, negb_false_iff, Z.eqb_eq in Hfi.
  apply bind_Ok in H as (eq & Heq & H). apply bind_Ok in H as (? & Hn & H). apply fail_if_Ok, negb_false_iff in Hn as ->.
  apply IsEqual_true in Heq as ->; [|done..]. split; [lia|]. intros d. rewrite Hs. simpl. lia.
Qed.

(** ** The periodic schedule *)

Lemma vest_periods_run t ps : in_time t → ∀ cur acc, Forall period_ok ps → 0 <= cur →
  cur + total_length ps < 2 ^ 63 → coins_ok acc →
  (∀ d, Int.valid (sum_of d acc + total_amount d ps)) →
  ∃ r, vest_periods t cur acc ps = Ok r ∧ coins_ok r ∧
    ∀ d, sum_of d acc <= sum_of d r <= sum_of d acc + total_amount d ps.
Proof.
  intros Ht. induction ps as [|p ps IH]; intros cur acc Hps Hc Hlt Ha Hv.
  { exists acc. split_and!; [done|done|]. intros d. simpl. lia. }
  apply Forall_cons in Hps as [[[Hw Hr] Hl] Hps]. cbn [vest_periods total_length total_amount] in *.
  pose proof (total_length_nonneg ps Hps) as Hn. pose proof (λ d, total_amount_nonneg d ps Hps) as Hn'.
  case_match.
  { exists acc. split_and!; [done|done|]. intros d. specialize (Hn' d). pose proof (wf_sum_nonneg d _ Hw). lia. }
  destruct (safeAdd_total acc (p_Amount p) (proj1 (proj1 Ha)) (proj1 Hw)) as [acc' Hacc].
  { intros d. specialize (Hv d). specialize (Hn' d). pose proof (wf_sum_nonneg d _ Hw).
    pose proof (wf_sum_nonneg d _ (proj1 Ha)). unfold Int.valid in *. lia. }
  rewrite (bind_run _ _ _ Hacc), in_time_wrap by (unfold in_time; lia).
  destruct (set_Add_Ok _ _ _ (proj1 Ha) Hw (proj2 Ha) Hr Hacc) as (Hw1 & Hr1 & Hs1).
  destruct (IH (cur + p_Length p) acc') as (r & Hrun & Hok & Hb); [done|lia|lia|done| |].
  { intros d. rewrite Hs1. specialize (Hv d). by rewrite <-Z.add_assoc. }
  exists r. split_and!; [done|done|]. intros d. specialize (Hb d). rewrite Hs1 in Hb.
  pose proof (wf_sum_nonneg d _ Hw). lia.
Qed.

(** Later, more periods are over. *)
Lemma vest_periods_mono t t' ps : in_time t → in_time t' → t <= t' → ∀ cur acc r r',
  Forall period_ok ps → 0 <= cur → cur + total_length ps < 2 ^ 63 → coins_ok acc →
  (∀ d, Int.valid (sum_of d acc + total_amount d ps)) →
  vest_periods t cur acc ps = Ok r → vest_periods t' cur acc ps = Ok r' →
  ∀ d, sum_of d r <= sum_of d r'.
Proof.
  intros Ht Ht' Hle. induction ps as [|p ps IH]; intros cur acc r r' Hps Hc Hlt Ha Hv H H'.
  { cbn in H, H'. by simplify_eq. }
  pose proof Hps as Hps0. apply Forall_cons in Hps as [[[Hw Hr] Hl] Hps].
  pose proof (total_length_nonneg ps Hps) as Hn. cbn [total_length total_amount] in Hlt, Hv.
  destruct (vest_periods_run t' (p :: ps) Ht' cur acc Hps0 Hc) as (r2 & Hr2 & _ & Hb);
    [done|done|done|]. rewrite Hr2 in H'. injection H' as ->.
  revert H Hr2. cbn [vest_periods].
  assert (wrap64 (t - cur) <= wrap64 (t' - cur)) as Hwr.
  { unfold in_time in *. rewrite !wrap64_id; [lia|..]; unfold is_int64;
      rewrite andb_true_iff, Z.leb_le, Z.ltb_lt; lia. }
  destruct (Z.ltb_spec (wrap64 (t - cur)) (p_Length p)) as [|Hge].
  { intros [= <-] _ d. apply Hb. }
  rewrite (proj2 (Z.ltb_ge _ _)) by lia. intros (acc' & Hacc & H)%bind_Ok.
  rewrite (bind_run _ _ _ Hacc). revert H. rewrite in_time_wrap by (unfold in_time; lia). intros H H'.
  destruct (set_Add_Ok _ _ _ (proj1 Ha) Hw (proj2 Ha) Hr Hacc) as (Hw1 & Hr1 & Hs1).
  apply (IH (cur + p_Length p) acc'); [done|lia|lia|done| |done|done].
  intros d. rewrite Hs1. specialize (Hv d). by rewrite <-Z.add_assoc.
Qed.

Lemma periods_fit b st ps : account_ok (PeriodicVestingAccount b st ps) →
  Forall period_ok ps ∧ 0 <= st ∧ st + total_length ps < 2 ^ 63 ∧
  (∀ d, Int.valid (sum_of d [] + total_amount d ps)).
Proof.
  intros Hok. destruct (Validate_periods _ _ _ Hok) as [_ Hs].
  destruct Hok as [(([Hw Hr] & _) & Hst & _ & Hps & Hlt) _]. split_and!; try done.
  intros d. simpl. rewrite Hs. apply sum_of_valid; [apply Hw|done].
Qed.

(** ** All schedules *)

(** A part of the original coins: sorted, of valid denominations, and no more
    than the original amount of any of them. *)
Definition part_of (original l : list Coin) : Prop :=
  ssorted l ∧ Forall (λ c, reDnm (Denom c) = true) l ∧
  ∀ d, 0 <= sum_of d l <= sum_of d original.

Lemma part_nil a : wf a → part_of a [].
Proof.
  intros Ha. split_and!; [constructor|constructor|]. intros d. simpl.
  pose proof (wf_sum_nonneg d a Ha). lia.
Qed.
Lemma part_all a : wf a → part_of a a.
Proof.
  intros Ha. split_and!; [apply Ha|by apply wf_denoms|]. intros d.
  pose proof (wf_sum_nonneg d a Ha). lia.
Qed.

(** Between its start and its end a continuous account vests the share of the
    time that has passed. *)
Lemma continuous_run b st t : account_ok (ContinuousVestingAccount b st) → st < t < EndTime b →
  Continuous_GetVestedCoins b st t = Ok (shares (progress (t - st) (EndTime b - st)) (OriginalVesting b)).
Proof.
  intros [(([Hw Hr] & _) & Hst & He & _) _] [Ht Ht']. cbn [base GetStartTime] in *.
  unfold Continuous_GetVestedCoins.
  rewrite (proj2 (Z.leb_gt _ _) Ht), (proj2 (Z.leb_gt _ _) Ht').
  rewrite !in_time_wrap by (unfold in_time; lia).
  change (Dec.NewDec ?x) with (Ok (x * Dec.precisionReuse)).
  pose proof (Quo_progress (t - st) (EndTime b - st) ltac:(lia) ltac:(lia)) as Hq.
  transitivity (vest_share (progress (t - st) (EndTime b - st)) (OriginalVesting b));
    [exact (bind_run _ _ _ Hq)|].
  apply vest_share_run; [|done|done]. apply progress_bounds; lia.
Qed.

Lemma vested_run v t : account_ok v → in_time t →
  ∃ l, GetVestedCoins v t = Ok l ∧ part_of (OriginalVesting (base v)) l.
Proof.
  intros Hok Ht. pose proof Hok as [(([Hw Hr] & _) & Hst & _) _].
  pose proof (part_nil _ Hw) as Hnil. pose proof (part_all _ Hw) as Hall.
  destruct v as [b st|b st ps|b|b]; cbn [GetVestedCoins base GetStartTime] in *.
  - destruct (Z.leb_spec t st) as [Hle|Hgt].
    { exists []. unfold Continuous_GetVestedCoins. by rewrite (proj2 (Z.leb_le _ _) Hle). }
    destruct (Z.leb_spec (EndTime b) t) as [Hle|Hlt].
    { eexists. unfold Continuous_GetVestedCoins.
      by rewrite (proj2 (Z.leb_gt _ _) Hgt), (proj2 (Z.leb_le _ _) Hle). }
    rewrite (continuous_run b st t Hok) by done. eexists. split; [done|].
    split_and!; [apply shares_sorted, Hw|by apply shares_denoms, wf_denoms|].
    intros d. rewrite shares_sum by apply Hw. apply share_bounds; [by apply wf_sum_nonneg|].
    apply progress_bounds; lia.
  - unfold Periodic_GetVestedCoins. do 2 (case_match; [by eexists|]).
    destruct (periods_fit b st ps Hok) as (Hps & _ & Hlt & Hv).
    destruct (Validate_periods _ _ _ Hok) as [_ Hs].
    destruct (vest_periods_run t ps Ht st [] Hps Hst Hlt coins_ok_nil Hv) as (r & Hrun & [Hwr _] & Hb).
    exists r. split; [done|]. split_and!; [apply Hwr|by apply wf_denoms|]. intros d. specialize (Hb d).
    simpl in Hb. rewrite Hs in Hb. done.
  - unfold Delayed_GetVestedCoins. case_match; by eexists.
  - by eexists.
Qed.

Lemma vested_mono v t t' l l' : account_ok v → in_time t → in_time t' → t <= t' →
  GetVestedCoins v t = Ok l → GetVestedCoins v t' = Ok l' → ∀ d, sum_of d l <= sum_of d l'.
Proof.
  intros Hok Ht Ht' Hle H H' d.
  destruct (vested_run v t Hok Ht) as (l1 & Hl1 & _ & _ & Hb).
  destruct (vested_run v t' Hok Ht') as (l2 & Hl2 & _ & _ & Hb').
  rewrite H in Hl1. rewrite H' in Hl2. injection Hl1 as <-. injection Hl2 as <-.
  specialize (Hb d). specialize (Hb' d).
  pose proof Hok as [(([Hw Hr] & _) & Hst & _) _].
  destruct v as [b st|b st ps|b|b]; cbn [GetVestedCoins base GetStartTime] in *.
  - destruct (Z.leb_spec t st) as [Hs|Hs].
    { revert H. unfold Continuous_GetVestedCoins. rewrite (proj2 (Z.leb_le _ _) Hs). intros [= <-]. simpl. lia. }
    destruct (Z.leb_spec (EndTime b) t') as [He|He].
    { revert H'. unfold Continuous_GetVestedCoins. rewrite (proj2 (Z.leb_gt t' st)), (proj2 (Z.leb_le _ _) He) by lia.
      intros [= <-]. lia. }
    rewrite (continuous_run b st) in H, H' by (done || lia). simplify_eq.
    rewrite !shares_sum by apply Hw. apply share_mono; [lia|]. apply progress_mono; lia.
  - revert H H'. unfold Periodic_GetVestedCoins.
    destruct (Z.leb_spec t st) as [?|Hs]; [intros [= <-]; simpl; lia|].
    rewrite (proj2 (Z.leb_gt t' st)) by lia.
    destruct (Z.leb_spec (EndTime b) t') as [He|He]; [intros _ [= <-]; lia|].
    rewrite (proj2 (Z.leb_gt (EndTime b) t)) by lia. intros H H'.
    destruct (periods_fit b st ps Hok) as (Hps & _ & Hlt & Hv).
    exact (vest_periods_mono t t' ps Ht Ht' Hle st [] l l' Hps Hst Hlt coins_ok_nil Hv H H' d).
  - revert H H'. unfold Delayed_GetVestedCoins.
    destruct (Z.leb_spec (EndTime b) t'); [intros _ [= <-]; lia|].
    rewrite (proj2 (Z.leb_gt _ t)) by lia. intros [= <-] [= <-]. done.
  - by simplify_eq.
Qed.

(** The coins still vesting are the rest of the original ones. *)
Lemma vesting_run v t : account_ok v → in_time t → ∃ vested l,
  GetVestedCoins v t = Ok vested ∧ GetVestingCoins v t = Ok l ∧ coins_ok l ∧
  ∀ d, sum_of d l = sum_of d (OriginalVesting (base v)) - sum_of d vested.
Proof.
  intros Hok Ht. destruct (vested_run v t Hok Ht) as (l & Hl & Hs & Hd & Hb).
  pose proof Hok as [([[Hw Hr] _] & _) _].
  destruct (Sub_run _ l Hw Hr Hs Hd Hb) as (r & Hsub & Hwr & Hrr & Hsum).
  exists l. destruct v as [b st|b st ps|b|b];
    try (exists r; cbn [GetVestingCoins]; by rewrite (bind_run _ _ _ Hl)).
  exists (OriginalVesting b). injection Hl as <-. split_and!; [done|done|done|]. intros d. simpl. lia.
Qed.

(** The lock on a denomination: what is vesting and not delegated. *)
Definition lock (vesting delegated : Z) : Z := Z.max (vesting - delegated) 0.

Lemma LockedCoinsFromVesting_run b l : base_ok b → coins_ok l →
  ∃ r, LockedCoinsFromVesting b l = Ok r ∧ coins_ok r ∧
    ∀ d, sum_of d r = lock (sum_of d l) (sum_of d (DelegatedVesting b)).
Proof.
  intros (_ & _ & [Hw Hr]) [Hwl Hrl]. unfold LockedCoinsFromVesting.
  destruct (Min_run l (DelegatedVesting b) Hwl Hw) as (m & Hm & Hwm & Hsm).
  rewrite (bind_run _ _ _ Hm).
  destruct (Sub_run l m Hwl Hrl (proj1 Hwm) (wf_denoms m Hwm)) as (r & Hrun & Hwr & Hrr & Hs).
  { intros d. rewrite Hsm. pose proof (wf_sum_nonneg d l Hwl). pose proof (wf_sum_nonneg d _ Hw). lia. }
  exists r. split_and!; [done|done|]. intros d. rewrite Hs, Hsm. unfold lock. lia.
Qed.

Lemma locked_run v t l : account_ok v → in_time t → GetVestingCoins v t = Ok l → coins_ok l →
  ∃ r, LockedCoins v t = Ok r ∧ coins_ok r ∧
    ∀ d, sum_of d r = lock (sum_of d l) (sum_of d (DelegatedVesting (base v))).
Proof.
  intros [(Hb & _) _] Ht Hl Hok. unfold LockedCoins. rewrite (bind_run _ _ _ Hl).
  by apply LockedCoinsFromVesting_run.
Qed.

(** ** Delegations *)

Lemma AmountOf_Ok l d x : wf l → Coins.AmountOf l d = Ok x → x = sum_of d l.
Proof.
  intros Hl H. unfold Coins.AmountOf in H. apply bind_Ok in H as (? & Hd & [= <-]).
  apply AmountOf_sum, Hl.
Qed.

Lemma MinInt_min a b : Int.MinInt a b = Z.min a b.
Proof. unfold Int.MinInt. destruct (Z.ltb_spec b a); lia. Qed.
Lemma MaxInt_max a b : Int.MaxInt a b = Z.max a b.
Proof. unfold Int.MaxInt. destruct (Z.ltb_spec a b); lia. Qed.

(** The part of a delegation of [D] that counts as vesting coins. *)
Definition from_vesting (V DV D : Z) : Z := Z.min (lock V DV) D.

(** The account after a delegation of [D], denomination by denomination. *)
Record delegated (V D : string → Z) (b b' : BaseVestingAccount) : Prop := {
  dl_ok : base_ok b';
  dl_original : OriginalVesting b' = OriginalVesting b;
  dl_end : EndTime b' = EndTime b;
  dl_vesting d : sum_of d (DelegatedVesting b') =
    sum_of d (DelegatedVesting b) + from_vesting (V d) (sum_of d (DelegatedVesting b)) (D d);
  dl_free d : sum_of d (DelegatedFree b') =
    sum_of d (DelegatedFree b) + (D d - from_vesting (V d) (sum_of d (DelegatedVesting b)) (D d)) }.

(** Adding one coin to a set, unless its amount is zero. *)
Definition bump (l : list Coin) (d : string) (x : Z) : outcome (list Coin) :=
  if Int.IsZero x then Ok l else c ← Coin1.NewCoin d x; Coins.Add l [c].
Definition drop (l : list Coin) (d : string) (x : Z) : outcome (list Coin) :=
  if Int.IsZero x then Ok l else c ← Coin1.NewCoin d x; Coins.Sub l [c].

Lemma single_sum d x d' : sum_of d' [mkCoin d x] = if String.eqb d d' then x else 0.
Proof. simpl. lia. Qed.

Lemma bump_Ok l d x r : coins_ok l → reDnm d = true → 0 <= x → Int.valid x → bump l d x = Ok r →
  coins_ok r ∧ ∀ d', sum_of d' r = sum_of d' l + sum_of d' [mkCoin d x].
Proof.
  intros [Hw Hr] Hd Hx Hv. unfold bump. destruct (Int.IsZero x) eqn:E.
  { apply Int.IsZero_true in E as ->. intros [= <-]. split; [done|]. intros d'. rewrite single_sum. case_match; lia. }
  apply Int.IsZero_false in E. rewrite (bind_run _ _ _ (NewCoin_run d x Hd Hx)). intros H.
  destruct (set_Add_Ok l [mkCoin d x] r) as (? & ? & ?); try done;
    [apply wf_single; (done || lia)|by apply in_range_single].
Qed.

Lemma drop_Ok l d x r : coins_ok l → reDnm d = true → 0 <= x → Int.valid x → drop l d x = Ok r →
  coins_ok r ∧ ∀ d', sum_of d' r = sum_of d' l - sum_of d' [mkCoin d x].
Proof.
  intros [Hw Hr] Hd Hx Hv. unfold drop. destruct (Int.IsZero x) eqn:E.
  { apply Int.IsZero_true in E as ->. intros [= <-]. split; [done|]. intros d'. rewrite single_sum. case_match; lia. }
  apply Int.IsZero_false in E. rewrite (bind_run _ _ _ (NewCoin_run d x Hd Hx)). intros H.
  destruct (set_Sub_Ok l [mkCoin d x] r) as (? & ? & ?); try done;
    [apply wf_single; (done || lia)|by apply in_range_single].
Qed.

Lemma bump_total l d x : coins_ok l → reDnm d = true → 0 <= x → Int.valid (sum_of d l + x) →
  ∃ r, bump l d x = Ok r.
Proof.
  intros [Hw Hr] Hd Hx Hv. unfold bump. destruct (Int.IsZero x) eqn:E; [by eexists|].
  apply Int.IsZero_false in E. rewrite (bind_run _ _ _ (NewCoin_run d x Hd Hx)).
  apply safeAdd_total; [apply Hw|apply wf_single; (done || lia)|].
  intros d'. rewrite single_sum. destruct (String.eqb_spec d d') as [<-|]; [done|].
  rewrite Z.add_0_r. apply sum_of_valid; [apply Hw|done].
Qed.

Lemma drop_total l d x : coins_ok l → reDnm d = true → 0 <= x <= sum_of d l →
  ∃ r, drop l d x = Ok r.
Proof.
  intros [Hw Hr] Hd Hx. unfold drop. destruct (Int.IsZero x) eqn:E; [by eexists|].
  apply Int.IsZero_false in E. rewrite (bind_run _ _ _ (NewCoin_run d x Hd (proj1 Hx))).
  assert (wf [mkCoin d x]) as Hs by (apply wf_single; (done || lia)).
  destruct (Sub_run l [mkCoin d x] Hw Hr (proj1 Hs) (wf_denoms _ Hs)) as (r & Hrun & _); [|by exists r].
  intros d'. rewrite single_sum. destruct (String.eqb_spec d d') as [<-|]; [done|].
  pose proof (wf_sum_nonneg d' l Hw). lia.
Qed.

(** A coin of a valid set in range. *)
Definition coin_fits (c : Coin) : Prop := coin_ok c ∧ Int.valid (Amount c).

Lemma coins_ok_fits l : coins_ok l → Forall coin_fits l.
Proof. intros [[_ H] Hr]. by apply Forall_and. Qed.

Lemma coins_sum_range l d : coins_ok l → 0 <= sum_of d l ∧ Int.valid (sum_of d l).
Proof. intros [Hw Hr]. split; [by apply wf_sum_nonneg|apply sum_of_valid; [apply Hw|done]]. Qed.

(** A round of [TrackDelegation] as a computation on the two sets. *)
Lemma track_delegation_run bal vest b c : wf bal → coins_ok vest → base_ok b → coin_fits c →
  let x := from_vesting (sum_of (Denom c) vest) (sum_of (Denom c) (DelegatedVesting b)) (Amount c) in
  track_delegation bal vest b c =
    if sum_of (Denom c) bal <? Amount c
    then Panic "delegation attempt with zero coins or insufficient funds"
    else dv ← bump (DelegatedVesting b) (Denom c) x;
         df ← bump (DelegatedFree b) (Denom c) (Amount c - x);
         Ok (mkBase (OriginalVesting b) df dv (EndTime b)).
Proof.
  intros Hb Hv (Ho & Hf & Hd) [[Hre Hc] Hvc] x. unfold track_delegation.
  rewrite !(AmountOf_run _ (Denom c)) by (done || apply Hb || apply Hv || apply Hd). cbn.
  rewrite (proj2 (Int.IsZero_false (Amount c))) by lia. unfold Int.LT. cbn [orb].
  destruct (Z.ltb_spec (sum_of (Denom c) bal) (Amount c)) as [|Hge]; [done|]. cbn.
  destruct (coins_sum_range vest (Denom c) Hv) as [? Hr1].
  destruct (coins_sum_range _ (Denom c) Hd) as [? Hr2].
  assert (Int.Sub (sum_of (Denom c) vest) (sum_of (Denom c) (DelegatedVesting b)) =
    Ok (sum_of (Denom c) vest - sum_of (Denom c) (DelegatedVesting b))) as ->.
  { apply Int.Sub_Ok. split; [done|]. unfold Int.valid in *. lia. }
  cbn. rewrite MaxInt_max, MinInt_min. change (Z.min (Z.max _ _) (Amount c)) with x.
  assert (0 <= x <= Amount c) as Hx by (unfold x, from_vesting, lock; lia).
  rewrite Int.Sub_nonneg by (done || lia). cbn. unfold bump.
  destruct b as [ov df dv e]. cbn [DelegatedVesting DelegatedFree OriginalVesting EndTime].
  destruct (Int.IsZero x), (Int.IsZero (Amount c - x)); cbn;
    rewrite ?NewCoin_run by (done || lia); cbn; [done|done|..];
    by destruct (Coins.Add dv _).
Qed.

Lemma track_undelegation_run b c : base_ok b → coin_fits c →
  let x := Z.min (sum_of (Denom c) (DelegatedFree b)) (Amount c) in
  let y := Z.min (sum_of (Denom c) (DelegatedVesting b)) (Amount c - x) in
  track_undelegation b c =
    df ← drop (DelegatedFree b) (Denom c) x;
    dv ← drop (DelegatedVesting b) (Denom c) y;
    Ok (mkBase (OriginalVesting b) df dv (EndTime b)).
Proof.
  intros (Ho & Hf & Hd) [[Hre Hc] Hvc] x y. unfold track_undelegation.
  rewrite (proj2 (Int.IsZero_false (Amount c))) by lia. cbn.
  rewrite !(AmountOf_run _ (Denom c)) by (done || apply Hf || apply Hd). cbn.
  destruct (coins_sum_range _ (Denom c) Hf) as [? Hr1].
  destruct (coins_sum_range _ (Denom c) Hd) as [? Hr2].
  rewrite !MinInt_min. fold x.
  assert (0 <= x <= Amount c) as Hx by (unfold x; lia).
  rewrite Int.Sub_nonneg by (done || lia). cbn. rewrite MinInt_min. fold y.
  assert (0 <= y) as Hy by (unfold y; lia). unfold drop.
  destruct b as [ov df dv e]. cbn [DelegatedVesting DelegatedFree OriginalVesting EndTime].
  destruct (Int.IsZero x), (Int.IsZero y); cbn;
    rewrite ?NewCoin_run by (done || lia); cbn; [done|done|..];
    by destruct (Coins.Sub df _).
Qed.

(** The account after an undelegation of [D]: the free part first. *)
Record undelegated (D : string → Z) (b b' : BaseVestingAccount) : Prop := {
  ul_ok : base_ok b';
  ul_original : OriginalVesting b' = OriginalVesting b;
  ul_end : EndTime b' = EndTime b;
  ul_free d : sum_of d (DelegatedFree b') =
    sum_of d (DelegatedFree b) - Z.min (sum_of d (DelegatedFree b)) (D d);
  ul_vesting d : sum_of d (DelegatedVesting b') =
    sum_of d (DelegatedVesting b) -
    Z.min (sum_of d (DelegatedVesting b)) (D d - Z.min (sum_of d (DelegatedFree b)) (D d)) }.

Lemma track_delegation_Ok bal vest b c b' : wf bal → coins_ok vest → base_ok b → coin_fits c →
  track_delegation bal vest b c = Ok b' →
  Amount c <= sum_of (Denom c) bal ∧ delegated (λ d, sum_of d vest) (λ d, sum_of d [c]) b b'.
Proof.
  intros Hb Hv Hok Hc H. rewrite track_delegation_run in H by done.
  destruct (Z.ltb_spec (sum_of (Denom c) bal) (Amount c)) as [|Hge]; [done|].
  split; [done|]. pose proof Hok as (Ho & Hf & Hd). pose proof Hc as [[Hre Hpos] Hvc].
  set (x := from_vesting _ _ _) in H.
  assert (0 <= x <= Amount c) as Hx by (unfold x, from_vesting, lock; lia).
  apply bind_Ok in H as (dv & Hdv & (df & Hdf & [= <-])%bind_Ok).
  apply bump_Ok in Hdv as [Hdv Hs1]; [|done|done|lia|unfold Int.valid in *; lia].
  apply bump_Ok in Hdf as [Hdf Hs2]; [|done|done|lia|unfold Int.valid in *; lia].
  destruct c as [dn am]. cbn [Denom Amount] in *.
  split; cbn [OriginalVesting DelegatedFree DelegatedVesting EndTime]; [done|done|done|..];
    intros d; rewrite ?Hs1, ?Hs2, !single_sum; destruct (String.eqb_spec dn d) as [<-|]; fold x; try lia;
    unfold from_vesting, lock; lia.
Qed.

Lemma track_undelegation_Ok b c b' : base_ok b → coin_fits c → track_undelegation b c = Ok b' →
  undelegated (λ d, sum_of d [c]) b b'.
Proof.
  intros Hok Hc H. rewrite track_undelegation_run in H by done.
  pose proof Hok as (Ho & Hf & Hd). pose proof Hc as [[Hre Hpos] Hvc].
  destruct (coins_sum_range _ (Denom c) Hf) as [? Hr1].
  destruct (coins_sum_range _ (Denom c) Hd) as [? Hr2].
  set (x := Z.min (sum_of _ _) (Amount c)) in H. set (y := Z.min _ (Amount c - x)) in H.
  assert (0 <= x <= Amount c ∧ 0 <= y <= Amount c) as [Hx Hy] by lia.
  apply bind_Ok in H as (df & Hdf & (dv & Hdv & [= <-])%bind_Ok).
  apply drop_Ok in Hdf as [Hdf Hs1]; [|done|done|lia|unfold Int.valid in *; lia].
  apply drop_Ok in Hdv as [Hdv Hs2]; [|done|done|lia|unfold Int.valid in *; lia].
  destruct c as [dn am]. cbn [Denom Amount] in *.
  split; cbn [OriginalVesting DelegatedFree DelegatedVesting EndTime]; [done|done|done|..];
    intros d; rewrite ?Hs1, ?Hs2, !single_sum; destruct (String.eqb_spec dn d) as [<-|]; try lia;
    pose proof (coins_sum_range _ d Hf); pose proof (coins_sum_range _ d Hd); lia.
Qed.

(** Rounds on different denominations add up. *)
Lemma delegated_trans V D1 D2 b b1 b2 : (∀ d, 0 <= D1 d ∧ 0 <= D2 d ∧ (D1 d = 0 ∨ D2 d = 0)) →
  delegated V D1 b b1 → delegated V D2 b1 b2 → delegated V (λ d, D1 d + D2 d) b b2.
Proof.
  intros HD [H1 Ho1 He1 Hv1 Hf1] [H2 Ho2 He2 Hv2 Hf2]. split; [done|congruence|congruence|..];
    intros d; specialize (Hv1 d); specialize (Hf1 d); specialize (HD d);
    rewrite ?Hv2, ?Hf2, ?Hv1, ?Hf1; unfold from_vesting, lock in *; lia.
Qed.

Lemma undelegated_trans D1 D2 b b1 b2 : base_ok b →
  (∀ d, 0 <= D1 d ∧ 0 <= D2 d ∧ (D1 d = 0 ∨ D2 d = 0)) →
  undelegated D1 b b1 → undelegated D2 b1 b2 → undelegated (λ d, D1 d + D2 d) b b2.
Proof.
  intros (_ & Hf & Hv) HD [H1 Ho1 He1 Hf1 Hv1] [H2 Ho2 He2 Hf2 Hv2]. split; [done|congruence|congruence|..];
    intros d; specialize (Hv1 d); specialize (Hf1 d); specialize (HD d);
    pose proof (coins_sum_range _ d Hf); pose proof (coins_sum_range _ d Hv);
    rewrite ?Hv2, ?Hf2, ?Hv1, ?Hf1; lia.
Qed.

(** The head of a set and its tail share no denomination. *)
Lemma head_tail_apart c l : coins_ok (c :: l) →
  coin_fits c ∧ coins_ok l ∧
  ∀ d, 0 <= sum_of d [c] ∧ 0 <= sum_of d l ∧ (sum_of d [c] = 0 ∨ sum_of d l = 0).
Proof.
  intros [Hw Hr]. apply Forall_cons in Hr as [Hv Hr]. pose proof Hw as (Hc & Hlt & Hwl)%wf_cons.
  split_and!; [done|done|]. intros d. pose proof (wf_sum_nonneg d l Hwl). destruct Hc as [_ Hc]. destruct c as [dn am].
  rewrite single_sum. cbn [Amount] in Hc. destruct (String.eqb_spec dn d) as [<-|]; [|split_and!; auto; lia].
  split_and!; [lia|done|]. right. by apply sum_of_lt.
Qed.

Lemma delegated_nil V b : base_ok b → delegated V (λ _, 0) b b.
Proof. intros Hok. split; [done|done|done|..]; intros d; unfold from_vesting, lock; lia. Qed.
Lemma undelegated_nil b : base_ok b → undelegated (λ _, 0) b b.
Proof.
  intros Hok. pose proof Hok as (_ & Hf & Hv). split; [done|done|done|..]; intros d;
    pose proof (coins_sum_range _ d Hf); pose proof (coins_sum_range _ d Hv); lia.
Qed.

Lemma delegated_ext V D D' b b' : (∀ d, D d = D' d) → delegated V D b b' → delegated V D' b b'.
Proof. intros He [H1 H2 H3 H4 H5]. split; [done..| |]; intros d; rewrite <-He; auto. Qed.
Lemma undelegated_ext D D' b b' : (∀ d, D d = D' d) → undelegated D b b' → undelegated D' b b'.
Proof. intros He [H1 H2 H3 H4 H5]. split; [done..| |]; intros d; rewrite <-He; auto. Qed.

Lemma Base_TrackDelegation_Ok bal vest l : wf bal → coins_ok vest → coins_ok l → ∀ b b', base_ok b →
  Base_TrackDelegation bal vest l b = Ok b' →
  (∀ d, sum_of d l <= sum_of d bal) ∧ delegated (λ d, sum_of d vest) (λ d, sum_of d l) b b'.
Proof.
  intros Hb Hv. unfold Base_TrackDelegation. induction l as [|c l IH]; intros Hl b b' Hok H; cbn [fold_out] in H.
  { injection H as <-. split; [|by apply delegated_nil]. intros d. simpl. by apply wf_sum_nonneg. }
  destruct (head_tail_apart c l Hl) as (Hc & Hl' & Hap).
  apply bind_Ok in H as (b1 & H1 & H).
  destruct (track_delegation_Ok bal vest b c b1 Hb Hv Hok Hc H1) as [Hle Hd1].
  destruct (IH Hl' b1 b' (dl_ok _ _ _ _ Hd1) H) as [Hle2 Hd2]. split.
  - intros d. specialize (Hap d). specialize (Hle2 d). pose proof (wf_sum_nonneg d bal Hb).
    destruct c as [dn am]. rewrite single_sum in Hap. cbn [sum_of Denom Amount] in *. destruct (String.eqb_spec dn d) as [E|E]; [rewrite <-E in *|]; lia.
  - eapply delegated_ext; [|exact (delegated_trans _ _ _ _ _ _ Hap Hd1 Hd2)]. intros d. simpl. lia.
Qed.

Lemma Base_TrackUndelegation_Ok l : coins_ok l → ∀ b b', base_ok b →
  Base_TrackUndelegation l b = Ok b' → undelegated (λ d, sum_of d l) b b'.
Proof.
  unfold Base_TrackUndelegation. induction l as [|c l IH]; intros Hl b b' Hok H; cbn [fold_out] in H.
  { injection H as <-. by apply undelegated_nil. }
  destruct (head_tail_apart c l Hl) as (Hc & Hl' & Hap).
  apply bind_Ok in H as (b1 & H1 & H).
  pose proof (track_undelegation_Ok b c b1 Hok Hc H1) as Hd1.
  pose proof (IH Hl' b1 b' (ul_ok _ _ _ Hd1) H) as Hd2.
  eapply undelegated_ext; [|exact (undelegated_trans _ _ _ _ _ Hok Hap Hd1 Hd2)]. intros d. simpl. lia.
Qed.

(** ** Tracking keeps accounts well-formed *)

Lemma base_with_base b v : base (with_base b v) = b.
Proof. by destruct v. Qed.

Lemma with_base_vested b v t : OriginalVesting b = OriginalVesting (base v) → EndTime b = EndTime (base v) →
  GetVestedCoins (with_base b v) t = GetVestedCoins v t.
Proof.
  intros Ho He. destruct v; cbn [base with_base GetVestedCoins] in *;
    unfold Continuous_GetVestedCoins, Periodic_GetVestedCoins, Delayed_GetVestedCoins; by rewrite ?Ho, ?He.
Qed.

Lemma with_base_vesting b v t : OriginalVesting b = OriginalVesting (base v) → EndTime b = EndTime (base v) →
  GetVestingCoins (with_base b v) t = GetVestingCoins v t.
Proof.
  intros Ho He. pose proof (with_base_vested b v t Ho He) as Hv.
  destruct v; cbn [with_base GetVestingCoins base] in *; rewrite ?Hv, Ho; done.
Qed.

Lemma with_base_ok b v : account_ok v → base_ok b → OriginalVesting b = OriginalVesting (base v) →
  EndTime b = EndTime (base v) → (∀ d, sum_of d (DelegatedVesting b) <= sum_of d (OriginalVesting b)) →
  account_ok (with_base b v).
Proof.
  intros Hok Hb Ho He Hle. pose proof (Base_Validate_run b Hb Hle) as Hv'.
  pose proof (Validate_base v Hok) as Hv0. destruct Hok as [(_ & Hst & Hend & Hps) Hv]. split.
  - destruct v; cbn [with_base base GetStartTime] in *; unfold fields_ok; cbn [base GetStartTime]; by rewrite He.
  - destruct v; cbn [with_base Validate base] in *; rewrite ?Ho, ?He, ?Hv'; rewrite ?Hv0 in Hv; done.
Qed.

Lemma TrackDelegation_Ok v t bal l v' vest : account_ok v → in_time t → wf bal → coins_ok l →
  GetVestingCoins v t = Ok vest → TrackDelegation t bal l v = Ok v' →
  account_ok v' ∧ v' = with_base (base v') v ∧ (∀ d, sum_of d l <= sum_of d bal) ∧
  delegated (λ d, sum_of d vest) (λ d, sum_of d l) (base v) (base v').
Proof.
  intros Hok Ht Hb Hl Hg H. destruct (vesting_run v t Hok Ht) as (vd & vest' & Hvd & Hg' & Hvok & Hvs).
  rewrite Hg in Hg'. injection Hg' as <-. destruct (vested_run v t Hok Ht) as (vd' & Hvd' & _ & _ & Hrange).
  rewrite Hvd in Hvd'. injection Hvd' as <-.
  unfold TrackDelegation in H. rewrite (bind_run _ _ _ Hg) in H. apply bind_Ok in H as (b' & Hb' & [= <-]).
  pose proof Hok as [[Hbok _] _].
  destruct (Base_TrackDelegation_Ok bal vest l Hb Hvok Hl _ _ Hbok Hb') as [Hle Hd].
  rewrite base_with_base. split_and!; [|done|done|done].
  destruct Hd as [Hok' Ho He Hdv Hdf]. apply with_base_ok; try done. intros d. rewrite Hdv, Ho.
  pose proof (Base_Validate_Ok _ Hbok (Validate_base v Hok) d). specialize (Hvs d). specialize (Hrange d).
  unfold from_vesting, lock. lia.
Qed.

Lemma TrackUndelegation_Ok v l v' : account_ok v → coins_ok l → TrackUndelegation l v = Ok v' →
  account_ok v' ∧ v' = with_base (base v') v ∧ undelegated (λ d, sum_of d l) (base v) (base v').
Proof.
  intros Hok Hl H. unfold TrackUndelegation in H. apply bind_Ok in H as (b' & Hb' & [= <-]).
  pose proof Hok as [[Hbok _] _].
  pose proof (Base_TrackUndelegation_Ok l Hl _ _ Hbok Hb') as Hd.
  rewrite base_with_base. split_and!; [|done|done].
  destruct Hd as [Hok' Ho He Hdf Hdv]. apply with_base_ok; try done. intros d. rewrite Hdv, Ho.
  pose proof (Base_Validate_Ok _ Hbok (Validate_base v Hok) d). pose proof (coins_sum_range l d Hl).
  pose proof (coins_sum_range _ d (proj1 (proj2 Hbok))). pose proof (coins_sum_range _ d (proj2 (proj2 Hbok))). lia.
Qed.

(** ** Tracking returns *)

Lemma track_delegation_total bal vest b c : wf bal → coins_ok vest → base_ok b → coin_fits c →
  Amount c <= sum_of (Denom c) bal → Int.valid (sum_of (Denom c) (DelegatedFree b) + Amount c) →
  ∃ b', track_delegation bal vest b c = Ok b'.
Proof.
  intros Hb Hv Hok Hc Hle Hfit. rewrite track_delegation_run by done.
  rewrite (proj2 (Z.ltb_ge _ _) Hle). pose proof Hok as (Ho & Hf & Hd). destruct Hc as [[Hre Hpos] Hvc].
  destruct (coins_sum_range vest (Denom c) Hv). destruct (coins_sum_range _ (Denom c) Hd).
  destruct (coins_sum_range _ (Denom c) Hf). set (x := from_vesting _ _ _).
  assert (0 <= x <= Amount c ∧ x <= lock (sum_of (Denom c) vest) (sum_of (Denom c) (DelegatedVesting b))) as [Hx Hx']
    by (unfold x, from_vesting, lock; lia).
  destruct (bump_total (DelegatedVesting b) (Denom c) x) as [dv ->]; [done|done|lia| |].
  { unfold lock, Int.valid in *. lia. }
  destruct (bump_total (DelegatedFree b) (Denom c) (Amount c - x)) as [df Hdf]; [done|done|lia| |].
  { unfold Int.valid in *. lia. }
  cbn. rewrite Hdf. by eexists.
Qed.

Lemma track_undelegation_total b c : base_ok b → coin_fits c → ∃ b', track_undelegation b c = Ok b'.
Proof.
  intros Hok Hc. rewrite track_undelegation_run by done. pose proof Hok as (Ho & Hf & Hd).
  destruct Hc as [[Hre Hpos] Hvc]. destruct (coins_sum_range _ (Denom c) Hd). destruct (coins_sum_range _ (Denom c) Hf).
  edestruct (drop_total (DelegatedFree b) (Denom c)) as [df ->]; [done|done|split; [|apply Z.le_min_l]; lia|].
  cbn. edestruct (drop_total (DelegatedVesting b) (Denom c)) as [dv ->]; [done|done|split; [|apply Z.le_min_l]; lia|].
  by eexists.
Qed.

Lemma Base_TrackDelegation_total bal vest l : wf bal → coins_ok vest → coins_ok l → ∀ b, base_ok b →
  (∀ d, sum_of d l <= sum_of d bal) → (∀ d, Int.valid (sum_of d (DelegatedFree b) + sum_of d l)) →
  ∃ b', Base_TrackDelegation bal vest l b = Ok b'.
Proof.
  intros Hb Hv. unfold Base_TrackDelegation. induction l as [|c l IH]; intros Hl b Hok Hle Hfit; [by eexists|].
  destruct (head_tail_apart c l Hl) as (Hc & Hl' & Hap). cbn [fold_out].
  pose proof Hc as [[_ Hpos] _].
  assert (sum_of (Denom c) (c :: l) = Amount c) as Hsum by (apply sum_of_elem; [apply Hl|left]).
  destruct (track_delegation_total bal vest b c Hb Hv Hok Hc) as [b1 H1]; [by rewrite <-Hsum|by rewrite <-Hsum|].
  rewrite (bind_run _ _ _ H1). destruct (track_delegation_Ok bal vest b c b1 Hb Hv Hok Hc H1) as [_ Hd1].
  apply IH; [done|by eapply dl_ok|..].
  - intros d. specialize (Hle d). specialize (Hap d). rewrite sum_of_cons in Hle. lia.
  - intros d. rewrite (dl_free _ _ _ _ Hd1). specialize (Hfit d). specialize (Hap d). rewrite sum_of_cons in Hfit.
    pose proof (coins_sum_range _ d (proj1 (proj2 Hok))). unfold from_vesting, lock, Int.valid in *. lia.
Qed.

Lemma Base_TrackUndelegation_total l : coins_ok l → ∀ b, base_ok b →
  ∃ b', Base_TrackUndelegation l b = Ok b'.
Proof.
  unfold Base_TrackUndelegation. induction l as [|c l IH]; intros Hl b Hok; [by eexists|].
  destruct (head_tail_apart c l Hl) as (Hc & Hl' & _). cbn [fold_out].
  destruct (track_undelegation_total b c Hok Hc) as [b1 H1]. rewrite (bind_run _ _ _ H1).
  apply IH; [done|]. by eapply ul_ok, track_undelegation_Ok.
Qed.

(** A delegation that exceeds the balance of some denomination panics. *)
Lemma Base_TrackDelegation_short bal vest l : wf bal → coins_ok vest → coins_ok l → ∀ b, base_ok b →
  (∀ d, Int.valid (sum_of d (DelegatedFree b) + sum_of d l)) → (∃ d, sum_of d bal < sum_of d l) →
  Base_TrackDelegation bal vest l b = Panic "delegation attempt with zero coins or insufficient funds".
Proof.
  intros Hb Hv. unfold Base_TrackDelegation. induction l as [|c l IH]; intros Hl b Hok Hfit [d Hd].
  { simpl in Hd. pose proof (wf_sum_nonneg d bal Hb). lia. }
  destruct (head_tail_apart c l Hl) as (Hc & Hl' & Hap). cbn [fold_out].
  assert (sum_of (Denom c) (c :: l) = Amount c) as Hsum by (apply sum_of_elem; [apply Hl|left]).
  destruct (Z.ltb_spec (sum_of (Denom c) bal) (Amount c)) as [Hlt|Hge].
  { rewrite track_delegation_run by done. by rewrite (proj2 (Z.ltb_lt _ _) Hlt). }
  destruct (track_delegation_total bal vest b c Hb Hv Hok Hc Hge) as [b1 H1]; [by rewrite <-Hsum|].
  rewrite (bind_run _ _ _ H1). destruct (track_delegation_Ok bal vest b c b1 Hb Hv Hok Hc H1) as [_ Hd1].
  apply IH; [done|by eapply dl_ok|..].
  - intros d'. rewrite (dl_free _ _ _ _ Hd1). specialize (Hfit d'). specialize (Hap d'). rewrite sum_of_cons in Hfit.
    pose proof (coins_sum_range _ d' (proj1 (proj2 Hok))). unfold from_vesting, lock, Int.valid in *. lia.
  - exists d. specialize (Hap d). pose proof (wf_sum_nonneg d bal Hb). rewrite sum_of_cons in Hd.
    destruct c as [dn am]. rewrite single_sum in *. cbn [Denom Amount] in *. destruct (String.eqb_spec dn d) as [E|]; [|lia].
    rewrite E in *. lia.
Qed.

End VestingFacts.
