(* ===== verification/MultiSig.v ===== *)
(** * Multisignatures: crypto/types/compact_bit_array.go,
      crypto/types/multisig, crypto/keys/multisig, x/auth/signing/verify.go

    A multisignature carries a bit array that says which of the keys signed,
    and the signatures of those keys in order.  Verifying a signature with a
    plain key is cryptography and a parameter, as are the bytes to sign. *)

From Stdlib Require Import ZArith Lia Ascii String.
From stdpp Require Import base tactics option list strings sorting.
From S2P Require Import Prelude GoStd.

Local Open Scope Z_scope.

(** ** Compact bit arrays *)
Module BitArray.

Record CompactBitArray := mkBitArray { ExtraBitsStored : Z; Elems : list Z }.

Definition MaxInt32 : Z := 2 ^ 31 - 1.

Definition NewCompactBitArray (bits : Z) : option CompactBitArray :=
  if bits <=? 0 then None
  else
    let nElems := Z.quot (wrap64 (bits + 7)) 8 in
    if (nElems <=? 0) || (MaxInt32 <? nElems) then None
    else Some (mkBitArray (bits mod 8) (replicate (Z.to_nat nElems) 0)).

Definition len (bA : CompactBitArray) : Z := Z.of_nat (length (Elems bA)).

Definition Count (bA : option CompactBitArray) : Z :=
  match bA with
  | None => 0
  | Some bA =>
      if ExtraBitsStored bA =? 0 then len bA * 8
      else (len bA - 1) * 8 + ExtraBitsStored bA
  end.

(** [bA.Elems[n]], which panics out of range. *)
Definition elem (bA : CompactBitArray) (n : Z) : outcome Z :=
  or_panic (if n <? 0 then None else Elems bA !! Z.to_nat n) "index out of range".

Definition mask (i : Z) : Z := Z.shiftl 1 (7 - i mod 8).

Definition GetIndex (bA : option CompactBitArray) (i : Z) : outcome bool :=
  match bA with
  | None => Ok false
  | Some b =>
      if (i <? 0) || (Count bA <=? i) then Ok false
      else
        e ← elem b (Z.shiftr i 3);
        Ok (0 <? Z.land e (mask i))
  end.

Definition SetIndex (bA : option CompactBitArray) (i : Z) (v : bool)
    : outcome (bool * option CompactBitArray) :=
  match bA with
  | None => Ok (false, None)
  | Some b =>
      if (i <? 0) || (Count bA <=? i) then Ok (false, bA)
      else
        e ← elem b (Z.shiftr i 3);
        let e := if v then Z.lor e (mask i) else Z.ldiff e (mask i) in
        Ok (true, Some (mkBitArray (ExtraBitsStored b) (<[Z.to_nat (Z.shiftr i 3) := e]> (Elems b))))
  end.

(** [bits.OnesCount8]. *)
Definition OnesCount8 (x : Z) : Z :=
  Z.of_nat (length (filter (λ j, Z.testbit x j = true) [0; 1; 2; 3; 4; 5; 6; 7])).

(** The loop of [NumTrueBitsBefore] from element [n] on. *)
Fixpoint count_loop (index : Z) (elems : list Z) (n onesCount : Z) : outcome Z :=
  match elems with
  | [] => Panic "index out of range"
  | e :: rest =>
      if index <=? n * 8 + 7
      then Ok (onesCount + OnesCount8 (Z.shiftr e (7 - Z.rem index 8 + 1)))
      else count_loop index rest (n + 1) (onesCount + OnesCount8 e)
  end.

Definition NumTrueBitsBefore (bA : option CompactBitArray) (index : Z) : outcome Z :=
  let max := Count bA in
  let index := if max <? index then max else index in
  match bA with
  | None => Panic "nil pointer dereference"
  | Some b => count_loop index (Elems b) 0 0
  end.

(** ** Facts *)

Definition is_byte (e : Z) : Prop := 0 <= e < 256.

(** The bit at place [i], by definition. *)
Definition bit_at (elems : list Z) (i : Z) : bool :=
  match elems !! Z.to_nat (i / 8) with Some e => 0 <? Z.land e (mask i) | None => false end.
Definition ones (elems : list Z) (k : Z) : Z :=
  Z.of_nat (length (filter (λ i, bit_at elems i = true) (seqZ 0 k))).

(** Shifting a byte keeps its first bits. *)
Lemma OnesCount8_shift e r : is_byte e → 0 <= r <= 8 →
  OnesCount8 (Z.shiftr e (8 - r)) = Z.of_nat (length (filter (λ j, (0 <? Z.land e (mask j)) = true) (seqZ 0 r))).
Proof.
  intros He Hr.
  assert (forallb (λ e, forallb (λ r, OnesCount8 (Z.shiftr e (8 - r)) =?
    Z.of_nat (length (filter (λ j, (0 <? Z.land e (mask j)) = true) (seqZ 0 r)))) (seqZ 0 9)) (seqZ 0 256) = true) as Hall
    by (vm_compute; reflexivity).
  rewrite forallb_forall in Hall. specialize (Hall e). rewrite <- list_elem_of_In, elem_of_seqZ in Hall.
  specialize (Hall ltac:(unfold is_byte in He; lia)). rewrite forallb_forall in Hall.
  specialize (Hall r). rewrite <- list_elem_of_In, elem_of_seqZ in Hall.
  by apply Z.eqb_eq, Hall; lia.
Qed.

Lemma filter_seqZ_shift (P : Z → Prop) (Q : Z → Prop) `{∀ x, Decision (P x), ∀ x, Decision (Q x)} a r :
  (∀ j, 0 <= j < r → P (a + j) ↔ Q j) →
  length (filter P (seqZ a r)) = length (filter Q (seqZ 0 r)).
Proof.
  intros HPQ. assert (seqZ a r = Z.add a <$> seqZ 0 r) as -> by (by rewrite fmap_add_seqZ, Z.add_0_r).
  assert (∀ l, (∀ j, j ∈ l → 0 <= j < r) → length (filter P (Z.add a <$> l)) = length (filter Q l)) as Hl.
  { induction l as [|x l IH]; intros Hin; [done|]. rewrite fmap_cons, !filter_cons.
    pose proof (HPQ x ltac:(apply Hin; left)) as Hx. pose proof (IH ltac:(intros; apply Hin; by right)).
    destruct (decide (P (a + x))), (decide (Q x)); simpl; try tauto; lia. }
  apply Hl. intros j ?%elem_of_seqZ. lia.
Qed.

Lemma ones_step elems n e r : elems !! n = Some e → is_byte e → 0 <= r <= 8 →
  ones elems (8 * Z.of_nat n + r) = ones elems (8 * Z.of_nat n) + OnesCount8 (Z.shiftr e (8 - r)).
Proof.
  intros He Hb Hr. unfold ones. rewrite OnesCount8_shift by done.
  rewrite seqZ_app by lia. rewrite filter_app, length_app, Nat2Z.inj_add. do 2 f_equal.
  rewrite Z.add_0_l. apply filter_seqZ_shift. intros j Hj. unfold bit_at, mask.
  replace ((8 * Z.of_nat n + j) / 8) with (Z.of_nat n) by (rewrite Z.mul_comm, Z.div_add_l by lia; rewrite (Z.div_small j) by lia; lia).
  rewrite Nat2Z.id, He, (Z.mul_comm 8), Z.add_comm, Z.mod_add by lia. done.
Qed.

Lemma count_loop_spec pre elems index : Forall is_byte (pre ++ elems) → 8 * Z.of_nat (length pre) <= index →
  count_loop index elems (Z.of_nat (length pre)) (ones (pre ++ elems) (8 * Z.of_nat (length pre))) =
  if index <? 8 * Z.of_nat (length (pre ++ elems)) then Ok (ones (pre ++ elems) index) else Panic "index out of range".
Proof.
  revert pre. induction elems as [|e elems IH]; intros pre Hb Hi; cbn [count_loop].
  { rewrite app_nil_r. by rewrite (proj2 (Z.ltb_ge _ _)) by lia. }
  assert ((pre ++ e :: elems) !! length pre = Some e) as He by by apply list_lookup_middle.
  assert (is_byte e) as Hbe by (by eapply Forall_lookup_1 in He).
  rewrite length_app in *. cbn [length] in *. destruct (Z.leb_spec index (Z.of_nat (length pre) * 8 + 7)) as [Hle|Hgt].
  - rewrite (proj2 (Z.ltb_lt _ _)) by lia. f_equal.
    set (r := index - 8 * Z.of_nat (length pre)).
    assert (Z.rem index 8 = r) as ->.
    { rewrite Z.rem_mod_nonneg by lia. replace index with (r + Z.of_nat (length pre) * 8) by lia.
      rewrite Z.mod_add by lia. apply Z.mod_small. lia. }
    replace (7 - r + 1) with (8 - r) by lia. rewrite <- (ones_step _ _ e) by (done || lia). f_equal. lia.
  - specialize (IH (pre ++ [e])). rewrite <- app_assoc in IH. cbn [app] in IH.
    rewrite !length_app in IH. cbn [length] in IH. rewrite <- IH by (done || lia).
    f_equal; [lia|]. replace (8 * Z.of_nat (length pre + 1)) with (8 * Z.of_nat (length pre) + 8) by lia.
    rewrite (ones_step _ _ e) by (done || lia). by rewrite Z.sub_diag, Z.shiftr_0_r.
Qed.

(** The count is right, and panics past the last byte. *)
Lemma NumTrueBitsBefore_spec b index : Forall is_byte (Elems b) → 0 <= index <= Count (Some b) →
  NumTrueBitsBefore (Some b) index =
  if index <? 8 * len b then Ok (ones (Elems b) index) else Panic "index out of range".
Proof.
  intros Hb Hi. unfold NumTrueBitsBefore. rewrite (proj2 (Z.ltb_ge _ _)) by lia.
  apply (count_loop_spec []); [done|simpl; lia].
Qed.

Lemma GetIndex_spec b i : 0 <= i < Count (Some b) → i < 8 * len b →
  GetIndex (Some b) i = Ok (bit_at (Elems b) i).
Proof.
  intros Hi Hl. unfold GetIndex. rewrite (proj2 (Z.ltb_ge i 0)), (proj2 (Z.leb_gt _ _)) by lia. cbn [orb].
  unfold elem, bit_at. rewrite Z.shiftr_div_pow2 by lia. change (2 ^ 3) with 8.
  assert (0 <= i / 8) by (apply Z.div_pos; lia). assert (i / 8 < len b) by (apply Z.div_lt_upper_bound; lia).
  rewrite (proj2 (Z.ltb_ge _ _)) by lia.
  destruct (lookup_lt_is_Some_2 (Elems b) (Z.to_nat (i / 8))) as [e He]; [unfold len in *; lia|].
  by rewrite He.
Qed.

End BitArray.

Module MultiSig.
Import BitArray.

(** ** Keys and signatures *)

#[warnings="-register-all"]
Inductive PubKey :=
  | secp256k1_PubKey (key : string)
  | secp256r1_PubKey (key : string)
  | ed25519_PubKey (key : string)
  | LegacyAminoPubKey (Threshold : Z) (PubKeys : list PubKey)
  | other_PubKey (key : string).

Definition SIGN_MODE_LEGACY_AMINO_JSON : Z := 127.

(** A [signing.SignatureData]; [NoData] is a nil one. *)
#[warnings="-register-all"]
Inductive SignatureData :=
  | NoData
  | SingleSignatureData (SignMode : Z) (Signature : string)
  | MultiSignatureData (bits : option CompactBitArray) (Signatures : list SignatureData).

Lemma SignatureData_nested_ind (Q : SignatureData → Prop) :
  Q NoData → (∀ mode sig, Q (SingleSignatureData mode sig)) →
  (∀ bA sigs, Forall Q sigs → Q (MultiSignatureData bA sigs)) → ∀ d, Q d.
Proof.
  intros H1 H2 H3. fix IH 1. intros [|mode sig|bA sigs]; [done|done|]. apply H3.
  induction sigs as [|d sigs IHs]; constructor; [apply IH|exact IHs].
Qed.

Section verify.
(** [PubKey.VerifySignature] of the plain keys. *)
Context (plain_verify : PubKey → string → string → bool).

Definition key_verify (pk : PubKey) (msg sig : string) : outcome bool :=
  match pk with
  | LegacyAminoPubKey _ _ => Panic "not implemented"
  | _ => Ok (plain_verify pk msg sig)
  end.

(** [getSignBytes]: the bytes to sign in a mode. *)
Context (getSignBytes : Z → outcome string).

(** The loop over the keys; [check] has one verifier per signature. *)
Fixpoint verify_loop (bA : option CompactBitArray) (i : Z) (pubKeys : list PubKey)
    (check : list (PubKey → outcome ())) : outcome () :=
  match pubKeys with
  | [] => Ok ()
  | pk :: pubKeys =>
      b ← GetIndex bA i;
      if b : bool then
        match check with
        | [] => Panic "index out of range"
        | c :: check => _ ← c pk; verify_loop bA (i + 1) pubKeys check
        end
      else verify_loop bA (i + 1) pubKeys check
  end.

Definition verify_multi (Threshold : Z) (pubKeys : list PubKey) (bA : option CompactBitArray)
    (check : list (PubKey → outcome ())) : outcome () :=
  let size := Count bA in
  let nsigs := Z.of_nat (length check) in
  _ ← fail_if (negb (Z.of_nat (length pubKeys) =? size)) "bit array size is incorrect";
  _ ← fail_if ((nsigs <? Threshold) || (size <? nsigs)) "signature size is incorrect";
  n ← NumTrueBitsBefore bA size;
  _ ← fail_if (n <? Threshold) "not enough signatures set";
  verify_loop bA 0 pubKeys check.

(** One signature of the loop, with the key at its place. *)
Fixpoint verify_one (si : SignatureData) (pk : PubKey) : outcome () :=
  match si with
  | NoData => Err "improper signature data type"
  | SingleSignatureData mode sig =>
      msg ← getSignBytes mode;
      ok ← key_verify pk msg sig;
      fail_if (negb ok) "unable to verify signature"
  | MultiSignatureData bA sigs =>
      match pk with
      | LegacyAminoPubKey t keys => verify_multi t keys bA (map verify_one sigs)
      | _ => Err "unable to parse pubkey"
      end
  end.

Definition VerifyMultisignature (Threshold : Z) (pubKeys : list PubKey)
    (bA : option CompactBitArray) (sigs : list SignatureData) : outcome () :=
  verify_multi Threshold pubKeys bA (map verify_one sigs).

Definition VerifySignature (pubKey : PubKey) (sigData : SignatureData) : outcome () :=
  match sigData with
  | SingleSignatureData mode sig =>
      signBytes ← getSignBytes mode;
      ok ← key_verify pubKey signBytes sig;
      fail_if (negb ok) "unable to verify single signer signature"
  | MultiSignatureData bA sigs =>
      match pubKey with
      | LegacyAminoPubKey t keys => VerifyMultisignature t keys bA sigs
      | _ => Err "expected multisig.PubKey"
      end
  | NoData => Err "unexpected SignatureData"
  end.
End verify.

(** ** Building a multisignature *)

Definition NewMultisig (n : Z) : option CompactBitArray * list SignatureData :=
  (NewCompactBitArray n, []).

(** [AddSignature]; the dummy element and the copy of the source insert at
    [newSigIndex]. *)
Definition AddSignature (bA : option CompactBitArray) (sigs : list SignatureData)
    (sig : SignatureData) (index : Z) : outcome (option CompactBitArray * list SignatureData) :=
  newSigIndex ← NumTrueBitsBefore bA index;
  present ← GetIndex bA index;
  let n := Z.to_nat newSigIndex in
  if present : bool then
    _ ← panic_if (negb (n <? length sigs)%nat) "index out of range";
    Ok (bA, <[n := sig]> sigs)
  else
    '(_, bA) ← SetIndex bA index true;
    if (n =? length sigs)%nat then Ok (bA, sigs ++ [sig])
    else
      _ ← panic_if (negb (n <? S (length sigs))%nat) "slice bounds out of range";
      Ok (bA, take n sigs ++ sig :: drop n sigs).

(** ** What an accepted multisignature holds *)

(** The keys whose bit is set, with their places. *)
Fixpoint signed (elems : list Z) (i : Z) (keys : list PubKey) : list (Z * PubKey) :=
  match keys with
  | [] => []
  | k :: keys =>
      if bit_at elems i then (i, k) :: signed elems (i + 1) keys else signed elems (i + 1) keys
  end.

Lemma signed_length elems i keys :
  Z.of_nat (length (signed elems i keys)) =
  Z.of_nat (length (filter (λ j, bit_at elems j = true) (seqZ i (Z.of_nat (length keys))))).
Proof.
  revert i. induction keys as [|k keys IH]; intros i; [done|]. cbn [signed length].
  rewrite seqZ_cons by lia. rewrite filter_cons. replace (Z.pred (Z.of_nat (S (length keys)))) with (Z.of_nat (length keys)) by lia.
  replace (Z.succ i) with (i + 1) by lia. specialize (IH (i + 1)).
  destruct (bit_at elems i); case_decide; try done; simpl; lia.
Qed.

Lemma signed_elem elems i keys j k : (j, k) ∈ signed elems i keys →
  i <= j ∧ keys !! Z.to_nat (j - i) = Some k ∧ bit_at elems j = true.
Proof.
  revert i. induction keys as [|k' keys IH]; intros i; cbn [signed]; [by intros ?%not_elem_of_nil|].
  assert ((j, k) ∈ signed elems (i + 1) keys → i <= j ∧ (k' :: keys) !! Z.to_nat (j - i) = Some k ∧ bit_at elems j = true) as Hrec.
  { intros (Hj & Hk & Hb)%IH. split_and!; [lia| |done].
    replace (Z.to_nat (j - i)) with (S (Z.to_nat (j - (i + 1)))) by lia. done. }
  destruct (bit_at elems i) eqn:E; [|done]. intros [[= -> ->]|Hin]%elem_of_cons; [|by apply Hrec].
  by rewrite Z.sub_diag.
Qed.

Lemma signed_sorted elems i keys : StronglySorted Z.lt (signed elems i keys).*1.
Proof.
  revert i. induction keys as [|k keys IH]; intros i; cbn [signed]; [constructor|].
  destruct (bit_at elems i); [|by apply IH]. rewrite fmap_cons. constructor; [by apply IH|].
  apply Forall_forall. intros j ([j' k'] & -> & (Hj & _)%signed_elem)%list_elem_of_fmap. cbn. lia.
Qed.

(** The loop succeeds when each set bit has its own accepted signature. *)
Lemma verify_loop_Ok b i keys check : 0 <= i → i + Z.of_nat (length keys) <= Count (Some b) →
  i + Z.of_nat (length keys) <= 8 * len b →
  let ps := signed (Elems b) i keys in
  verify_loop (Some b) i keys check = Ok () ↔
  (length ps <= length check)%nat ∧ Forall2 (λ p c, c p.2 = Ok ()) ps (take (length ps) check).
Proof.
  revert i check. induction keys as [|k keys IH]; intros i check Hi Hc Hl; cbn [verify_loop signed length] in *.
  { split; [split; [lia|constructor]|done]. }
  rewrite GetIndex_spec by lia. cbn [mbind outcome_bind].
  destruct (bit_at (Elems b) i); [|by apply IH; lia].
  destruct check as [|c check]; cbn [length take]; [split; [done|lia]|].
  rewrite bind_Ok. setoid_rewrite IH; [|lia..]. rewrite Forall2_cons. cbn [snd]. split.
  - intros ([] & Hk & Hle & Hf). split_and!; [lia|done|done].
  - intros (Hle & Hk & Hf). exists (). split_and!; [done|lia|done].
Qed.

Lemma verify_multi_Ok t keys b check : Forall is_byte (Elems b) →
  let ps := signed (Elems b) 0 keys in
  verify_multi t keys (Some b) check = Ok () ↔
  Count (Some b) = Z.of_nat (length keys) ∧ Z.of_nat (length keys) < 8 * len b ∧
  t <= Z.of_nat (length ps) ∧ (length ps <= length check <= length keys)%nat ∧
  Forall2 (λ p c, c p.2 = Ok ()) ps (take (length ps) check).
Proof.
  intros Hb ps. unfold verify_multi.
  assert (Count (Some b) = Z.of_nat (length keys) → Z.of_nat (length keys) < 8 * len b →
    NumTrueBitsBefore (Some b) (Count (Some b)) = Ok (Z.of_nat (length ps))) as Hn.
  { intros Hc Hl. rewrite NumTrueBitsBefore_spec, Hc, (proj2 (Z.ltb_lt _ _)) by (done || lia).
    f_equal. unfold ps. by rewrite signed_length. }
  split.
  - intros ([] & H1%fail_if_Ok & ([] & H2%fail_if_Ok & (n & H3 & ([] & H4%fail_if_Ok & H5)%bind_Ok)%bind_Ok)%bind_Ok)%bind_Ok.
    apply negb_false_iff, Z.eqb_eq in H1. apply orb_false_iff in H2 as [H2 H2'].
    rewrite NumTrueBitsBefore_spec in H3 by (done || lia).
    destruct (Z.ltb_spec (Count (Some b)) (8 * len b)) as [Hl|]; [|done]. rewrite <- H1 in Hl.
    specialize (Hn (eq_sym H1) Hl). rewrite NumTrueBitsBefore_spec, <- H1, (proj2 (Z.ltb_lt _ _)) in Hn by (done || lia).
    apply verify_loop_Ok in H5 as [H5 H6]; [|lia..]. rewrite <- H1 in H3.
    injection H3 as H3. injection Hn as Hn. apply Z.ltb_ge in H4, H2, H2'. split_and!; try done; lia.
  - intros (Hc & Hl & Ht & Hlen & Hf). rewrite Hc, Z.eqb_refl. cbn [negb fail_if].
    cbn [mbind outcome_bind]. rewrite (proj2 (Z.ltb_ge (Z.of_nat (length check)) _)), (proj2 (Z.ltb_ge _ (Z.of_nat (length check)))) by lia.
    cbn [orb fail_if mbind outcome_bind]. rewrite <- Hc, Hn by done.
    cbn [mbind outcome_bind]. rewrite (proj2 (Z.ltb_ge _ _)) by lia. cbn [fail_if mbind outcome_bind].
    apply verify_loop_Ok; [lia..|]. split; [exact (proj1 Hlen)|exact Hf].
Qed.

(** C28: a multisignature is accepted exactly when the bit array has one bit per
    key (and a spare one in its last byte), at least the threshold of the keys
    are marked, and the marked keys, which stand at distinct places, each have
    their own signature, in order, that verifies. *)
Theorem multisig_threshold plain_verify getSignBytes t keys b sigs : Forall is_byte (Elems b) →
  let ps := signed (Elems b) 0 keys in
  (VerifyMultisignature plain_verify getSignBytes t keys (Some b) sigs = Ok () ↔
   Count (Some b) = Z.of_nat (length keys) ∧ Z.of_nat (length keys) < 8 * len b ∧
   t <= Z.of_nat (length ps) ∧ (length ps <= length sigs <= length keys)%nat ∧
   Forall2 (λ p s, verify_one plain_verify getSignBytes s p.2 = Ok ()) ps (take (length ps) sigs)) ∧
  StronglySorted Z.lt ps.*1 ∧
  (∀ i k, (i, k) ∈ ps → 0 <= i ∧ keys !! Z.to_nat i = Some k ∧ bit_at (Elems b) i = true).
Proof.
  intros Hb ps. split; [|split; [apply signed_sorted|]].
  - unfold VerifyMultisignature. rewrite verify_multi_Ok by done. rewrite length_map, firstn_map, Forall2_fmap_r. done.
  - intros i k (Hi & Hk & Hbit)%signed_elem. rewrite Z.sub_0_r in Hk. done.
Qed.

Definition toy_verify (pk : PubKey) (msg sig : string) : bool :=
  match pk with secp256k1_PubKey k => String.eqb sig (k +:+ msg) | _ => false end.
Definition toy_bytes (mode : Z) : outcome string := Ok "!".

Lemma multisig_threshold_witness :
  VerifyMultisignature toy_verify toy_bytes 2
    [secp256k1_PubKey "a"; secp256k1_PubKey "b"; secp256k1_PubKey "c"]
    (Some (mkBitArray 3 [160])) [SingleSignatureData 1 "a!"; SingleSignatureData 1 "c!"] = Ok ().
Proof.
  apply (multisig_threshold toy_verify toy_bytes 2
    [secp256k1_PubKey "a"; secp256k1_PubKey "b"; secp256k1_PubKey "c"] (mkBitArray 3 [160])).
  - constructor; [split; [discriminate|reflexivity]|constructor].
  - split; [reflexivity|]. split; [reflexivity|]. split; [discriminate|].
    split; [split; apply Nat.leb_le; reflexivity|]. repeat constructor.
Defined.

(** No multisignature of an account with 8, 16, 24, ... keys is ever
    accepted: [NumTrueBitsBefore], asked for the bits before the end of an array
    that fills its last byte, reads the byte after it and panics. *)
Theorem multisig_eight_keys_refused plain_verify getSignBytes t keys b sigs :
  Forall is_byte (Elems b) → 0 <= ExtraBitsStored b → keys ≠ [] → (length keys mod 8 = 0)%nat →
  VerifyMultisignature plain_verify getSignBytes t keys (Some b) sigs ≠ Ok () ∧
  (Count (Some b) = Z.of_nat (length keys) → t <= Z.of_nat (length sigs) <= Z.of_nat (length keys) →
   VerifyMultisignature plain_verify getSignBytes t keys (Some b) sigs = Panic "index out of range").
Proof.
  intros Hb He Hk Hm. assert (¬ (Count (Some b) = Z.of_nat (length keys) ∧ Z.of_nat (length keys) < 8 * len b)) as Hno.
  { intros [Hc Hl]. unfold Count in Hc. apply Nat.Div0.div_exact in Hm.
    destruct (Z.eqb_spec (ExtraBitsStored b) 0); lia. }
  unfold VerifyMultisignature. split; [rewrite verify_multi_Ok by done; tauto|].
  intros Hc Ht. unfold verify_multi. rewrite length_map, Hc, Z.eqb_refl. cbn [negb fail_if mbind outcome_bind].
  rewrite (proj2 (Z.ltb_ge (Z.of_nat (length sigs)) _)), (proj2 (Z.ltb_ge _ (Z.of_nat (length sigs)))) by lia.
  cbn [orb fail_if mbind outcome_bind]. rewrite <- Hc, NumTrueBitsBefore_spec by (done || lia).
  by rewrite (proj2 (Z.ltb_ge _ _)) by lia.
Qed.

Lemma multisig_eight_keys_refused_witness :
  VerifyMultisignature toy_verify toy_bytes 8 (replicate 8 (secp256k1_PubKey "a"))
    (Some (mkBitArray 0 [255])) (replicate 8 (SingleSignatureData 1 "a!")) = Panic "index out of range".
Proof.
  refine (proj2 (multisig_eight_keys_refused toy_verify toy_bytes 8 (replicate 8 (secp256k1_PubKey "a"))
    (mkBitArray 0 [255]) (replicate 8 (SingleSignatureData 1 "a!")) _ _ _ _) _ _).
  - constructor; [split; [discriminate|reflexivity]|constructor].
  - discriminate.
  - discriminate.
  - reflexivity.
  - reflexivity.
  - split; discriminate.
Defined.

End MultiSig.
