(* ===== verification/Chain.v ===== *)
(** * The state the keepers share, and x/auth

    Events of the context's event manager, the block header fields the keepers
    read, and the account keeper of x/auth.  Addresses are byte strings; their
    bech32 text comes from a library and is a parameter. *)

From Stdlib Require Import ZArith Lia Ascii String.
From stdpp Require Import base tactics option list gmap sorting strings.
From S2P Require Import Prelude GoStd Digits SdkInt Coin Vesting MultiSig.

Local Open Scope Z_scope.

(** A value given to [json.Marshal]; the text it is rendered to is left out. *)
#[warnings="-register-all"]
Inductive json :=
  | JStr (s : string)
  | JInt (z : Z)
  | JArr (l : list json)
  | JObj (l : list (string * json)).

Inductive attr := AStr (s : string) | AJson (j : json).

Record Event := mkEvent { ev_type : string; ev_attrs : list (string * attr) }.

(** ** Accounts *)

(** The methods of an [AccountI] value that the keepers use: a module account
    also has a name and permissions, a vesting account its vesting data. *)
Record Account := mkAccount {
  acc_address : string;
  acc_number : Z;
  acc_module : option (string * list string);
  acc_vesting : option Vesting.VestingAccount;
  acc_pubkey : option MultiSig.PubKey;
  acc_sequence : Z }.

(** The part of the context the auth and bank keepers read and write. *)
Record Chain := mkChain {
  accounts : gmap string Account;
  globalAccountNumber : option Z;
  balances : gmap (string * string) Z;
  supply : gmap string Z;
  blockHeight : Z;
  blockTime : Z;
  events : list Event }.

Definition set_accounts a s := mkChain a (globalAccountNumber s) (balances s) (supply s)
  (blockHeight s) (blockTime s) (events s).
Definition set_accnum n s := mkChain (accounts s) n (balances s) (supply s)
  (blockHeight s) (blockTime s) (events s).
Definition set_balances b s := mkChain (accounts s) (globalAccountNumber s) b (supply s)
  (blockHeight s) (blockTime s) (events s).
Definition set_supply u s := mkChain (accounts s) (globalAccountNumber s) (balances s) u
  (blockHeight s) (blockTime s) (events s).
Definition set_events e s := mkChain (accounts s) (globalAccountNumber s) (balances s) (supply s)
  (blockHeight s) (blockTime s) e.

(** [ctx.EventManager().EmitEvent]. *)
Definition EmitEvent (e : Event) : M Chain () := modify (λ s, set_events (events s ++ [e]) s).
Definition EmitEvents (l : list Event) : M Chain () := modify (λ s, set_events (events s ++ l) s).

(** What the application gives the keepers when it builds them: for each
    module its account address and permissions, and the addresses that may
    not receive funds. *)
Record Config := mkConfig {
  permAddrs : gmap string (string * list string);
  blockedAddrs : gset string }.

Section auth.
Context (cfg : Config).

Definition HasAccount (addr : string) : M Chain bool :=
  gets (λ s, bool_decide (is_Some (accounts s !! addr))).

Definition GetAccount (addr : string) : M Chain (option Account) :=
  gets (λ s, accounts s !! addr).

Definition SetAccount (acc : Account) : M Chain () :=
  modify (λ s, set_accounts (<[acc_address acc := acc]> (accounts s)) s).

Definition GetNextAccountNumber : M Chain Z := λ s,
  let accNumber := default 0 (globalAccountNumber s) in
  (Ok accNumber, set_accnum (Some (wrapu64 (accNumber + 1))) s).

Definition NewAccount (acc : Account) : M Chain Account :=
  n ← GetNextAccountNumber;
  mret (mkAccount (acc_address acc) n (acc_module acc) (acc_vesting acc) (acc_pubkey acc) (acc_sequence acc)).

(** The prototype of the application is the base account. *)
Definition NewAccountWithAddress (addr : string) : M Chain Account :=
  NewAccount (mkAccount addr 0 None None None 0).

Definition GetModuleAddress (moduleName : string) : option string :=
  fst <$> permAddrs cfg !! moduleName.

Definition GetModuleAddressAndPermissions (moduleName : string)
    : option (string * list string) := permAddrs cfg !! moduleName.

Definition validatePermissions (permissions : list string) : outcome () :=
  fail_if (existsb (λ perm, String.eqb (Str.trim_space perm) "") permissions)
    "module permission is empty".

Definition GetModuleAccountAndPermissions (moduleName : string)
    : M Chain (option Account * list string) :=
  match GetModuleAddressAndPermissions moduleName with
  | None => mret (None, [])
  | Some (addr, perms) =>
      acc ← GetAccount addr;
      match acc with
      | Some a =>
          _ ← lift (panic_if (bool_decide (acc_module a = None)) "account is not a module account");
          mret (Some a, perms)
      | None =>
          _ ← lift (must (validatePermissions perms));
          macc ← NewAccount (mkAccount addr 0 (Some (moduleName, perms)) None None 0);
          _ ← SetAccount macc;
          mret (Some macc, perms)
      end
  end.

Definition GetModuleAccount (moduleName : string) : M Chain (option Account) :=
  r ← GetModuleAccountAndPermissions moduleName; mret (fst r).

Definition HasPermission (acc : Account) (permission : string) : bool :=
  match acc_module acc with
  | Some (_, perms) => existsb (String.eqb permission) perms
  | None => false
  end.

Definition Minter : string := "minter".
Definition Burner : string := "burner".
Definition Staking : string := "staking".

(** A vesting account with its vesting data replaced. *)
Definition set_vesting (v : Vesting.VestingAccount) (acc : Account) : Account :=
  mkAccount (acc_address acc) (acc_number acc) (acc_module acc) (Some v) (acc_pubkey acc)
    (acc_sequence acc).

End auth.
