(* ===== verification/Bank.v ===== *)
(** * x/bank: balances, supply, transfers, minting and burning

    The balance of a denomination is stored per account and denomination, the
    zero balance by absence, as in keeper/send.go and keeper/view.go. *)

From Stdlib Require Import ZArith Lia Ascii String.
From stdpp Require Import base tactics option list gmap sorting strings.
From S2P Require Import Prelude GoStd Digits SdkInt Coin Vesting Chain.

Local Open Scope Z_scope.

(** ** Store keys (types/key.go, types/address/store_key.go) *)
Definition byteN (n : nat) : ascii := ascii_of_nat n.

Definition LengthPrefix (bz : string) : outcome string :=
  let bzLen := String.length bz in
  if (bzLen =? 0)%nat then Ok bz
  else if (255 <? bzLen)%nat then Err "address length should be max 255 bytes"
  else Ok (String (byteN bzLen) bz).

Definition MustLengthPrefix (bz : string) : outcome string := must (LengthPrefix bz).

Definition BalancesPrefix : string := String (byteN 2) "".
Definition SupplyKey : string := String (byteN 0) "".

Definition CreateAccountBalancesPrefix (addr : string) : outcome string :=
  p ← MustLengthPrefix addr; Ok (BalancesPrefix +:+ p).

Definition AddressFromBalancesStore (key : string) : outcome string :=
  match key with
  | EmptyString => Err "invalid key"
  | String addrLen rest =>
      let bound := nat_of_ascii addrLen in
      if (String.length rest <? bound)%nat then Err "invalid key"
      else Ok (Str.take bound rest)
  end.

(** The full key of a balance. *)
Definition balance_key (addr denom : string) : outcome string :=
  p ← CreateAccountBalancesPrefix addr; Ok (p +:+ denom).

Section bank.
Context (cfg : Config).
(** [AccAddress.String], the bech32 text of an address. *)
Context (addr_String : string → string).

(** ** Views *)

(** [getAccountStore] panics when the address is too long for a key. *)
Definition getAccountStore (addr : string) : outcome () :=
  _ ← CreateAccountBalancesPrefix addr; Ok ().

Definition GetBalance (addr denom : string) : M Chain Coin := λ s,
  ((_ ← getAccountStore addr;
    match balances s !! (addr, denom) with
    | None => Coin1.NewCoin denom Int.ZeroInt
    | Some amount => Ok (mkCoin denom amount)
    end), s).

Definition HasBalance (addr : string) (amt : Coin) : M Chain bool :=
  b ← GetBalance addr (Denom amt); lift (Coin1.IsGTE b amt).

Definition LockedCoins (addr : string) : M Chain (list Coin) := λ s,
  match accounts s !! addr with
  | Some a =>
      match acc_vesting a with
      | Some vacc => (Vesting.LockedCoins vacc (blockTime s), s)
      | None => (Ok [], s)
      end
  | None => (Ok [], s)
  end.

(** ** Balances *)

Definition put_balance (addr denom : string) (amount : Z) (s : Chain) : Chain :=
  set_balances
    (if Int.IsZero amount then delete (addr, denom) (balances s)
     else <[(addr, denom) := amount]> (balances s)) s.

Definition setBalance (addr : string) (balance : Coin) : M Chain () :=
  _ ← lift (fail_if (negb (Coin1.IsValid balance)) "invalid coins");
  _ ← lift (getAccountStore addr);
  modify (put_balance addr (Denom balance) (Amount balance)).

Definition initBalances (addr : string) (coins : list Coin) : M Chain () :=
  _ ← lift (getAccountStore addr);
  for_each (λ balance,
    _ ← lift (fail_if (negb (Coin1.IsValid balance)) "invalid coins");
    if Coin1.IsZero balance then mret ()
    else modify (λ s, set_balances (<[(addr, Denom balance) := Amount balance]> (balances s)) s))
    coins.

Definition coin_event (ty key : string) (addr : string) (amt : list Coin) : Event :=
  mkEvent ty [(key, AStr (addr_String addr)); ("amount", AStr (Coins.to_String amt))].

Definition sub_one (lockedCoins : list Coin) (addr : string) (coin : Coin) : M Chain () :=
  balance ← GetBalance addr (Denom coin);
  lockedAmt ← lift (Coins.AmountOf lockedCoins (Denom coin));
  locked ← lift (Coin1.NewCoin (Denom coin) lockedAmt);
  spendable ← lift (Coin1.Sub balance locked);
  r ← lift (Coins.SafeSub [spendable] [coin]);
  _ ← lift (fail_if (snd r) "insufficient funds");
  newBalance ← lift (Coin1.Sub balance coin);
  setBalance addr newBalance.

Definition subUnlockedCoins (addr : string) (amt : list Coin) : M Chain () :=
  _ ← lift (fail_if (negb (Coins.IsValid amt)) "invalid coins");
  lockedCoins ← LockedCoins addr;
  _ ← for_each (sub_one lockedCoins addr) amt;
  EmitEvent (coin_event "coin_spent" "spender" addr amt).

Definition add_one (addr : string) (coin : Coin) : M Chain () :=
  balance ← GetBalance addr (Denom coin);
  newBalance ← lift (Coin1.Add balance coin);
  setBalance addr newBalance.

Definition addCoins (addr : string) (amt : list Coin) : M Chain () :=
  _ ← lift (fail_if (negb (Coins.IsValid amt)) "invalid coins");
  _ ← for_each (add_one addr) amt;
  EmitEvent (coin_event "coin_received" "receiver" addr amt).

(** Create the recipient's account if it does not exist. *)
Definition touch_account (addr : string) : M Chain () :=
  accExists ← HasAccount addr;
  if accExists : bool then mret ()
  else acc ← NewAccountWithAddress addr; SetAccount acc.

Definition SendCoins (fromAddr toAddr : string) (amt : list Coin) : M Chain () :=
  _ ← subUnlockedCoins fromAddr amt;
  _ ← addCoins toAddr amt;
  _ ← touch_account toAddr;
  EmitEvents [
    mkEvent "transfer" [("recipient", AStr (addr_String toAddr));
                        ("sender", AStr (addr_String fromAddr));
                        ("amount", AStr (Coins.to_String amt))];
    mkEvent "message" [("sender", AStr (addr_String fromAddr))]].

Definition BlockedAddr (addr : string) : bool := bool_decide (addr ∈ blockedAddrs cfg).

Definition SendCoinsFromModuleToAccount (senderModule recipientAddr : string)
    (amt : list Coin) : M Chain () :=
  senderAddr ← lift (or_panic (GetModuleAddress cfg senderModule) "module account does not exist");
  _ ← lift (fail_if (BlockedAddr recipientAddr) "not allowed to receive funds");
  SendCoins senderAddr recipientAddr amt.

Definition SendCoinsFromModuleToModule (senderModule recipientModule : string)
    (amt : list Coin) : M Chain () :=
  senderAddr ← lift (or_panic (GetModuleAddress cfg senderModule) "module account does not exist");
  r ← GetModuleAccount cfg recipientModule;
  recipientAcc ← lift (or_panic r "module account does not exist");
  SendCoins senderAddr (acc_address recipientAcc) amt.

Definition SendCoinsFromAccountToModule (senderAddr recipientModule : string)
    (amt : list Coin) : M Chain () :=
  r ← GetModuleAccount cfg recipientModule;
  recipientAcc ← lift (or_panic r "module account does not exist");
  SendCoins senderAddr (acc_address recipientAcc) amt.

(** ** Delegations *)

(** [trackDelegation] and [trackUndelegation]: a vesting account records the
    change; any other account is left as it is. *)
Definition track (f : Vesting.VestingAccount → outcome Vesting.VestingAccount) (addr : string)
    : M Chain () :=
  r ← GetAccount addr;
  acc ← lift (or_err r "account does not exist");
  match acc_vesting acc with
  | Some vacc => vacc ← lift (f vacc); SetAccount (set_vesting vacc acc)
  | None => mret ()
  end.

Definition trackDelegation (addr : string) (balance amt : list Coin) : M Chain () :=
  time ← gets blockTime; track (Vesting.TrackDelegation time balance amt) addr.

Definition trackUndelegation (addr : string) (amt : list Coin) : M Chain () :=
  track (Vesting.TrackUndelegation amt) addr.

(** The loop of [DelegateCoins], which returns the balances it found. *)
Fixpoint delegate_loop (addr : string) (found : list Coin) (amt : list Coin)
    : M Chain (list Coin) :=
  match amt with
  | [] => mret found
  | coin :: rest =>
      balance ← GetBalance addr (Denom coin);
      low ← lift (Coin1.IsLT balance coin);
      _ ← lift (fail_if low "insufficient funds");
      found ← lift (Coins.Add found [balance]);
      newBalance ← lift (Coin1.Sub balance coin);
      _ ← setBalance addr newBalance;
      delegate_loop addr found rest
  end.

Definition DelegateCoins (delegatorAddr moduleAccAddr : string) (amt : list Coin) : M Chain () :=
  r ← GetAccount moduleAccAddr;
  _ ← lift (or_err r "module account does not exist");
  _ ← lift (fail_if (negb (Coins.IsValid amt)) "invalid coins");
  none ← lift (Coins.NewCoins []);
  found ← delegate_loop delegatorAddr none amt;
  _ ← trackDelegation delegatorAddr found amt;
  _ ← EmitEvent (coin_event "coin_spent" "spender" delegatorAddr amt);
  addCoins moduleAccAddr amt.

Definition UndelegateCoins (moduleAccAddr delegatorAddr : string) (amt : list Coin) : M Chain () :=
  r ← GetAccount moduleAccAddr;
  _ ← lift (or_err r "module account does not exist");
  _ ← lift (fail_if (negb (Coins.IsValid amt)) "invalid coins");
  _ ← subUnlockedCoins moduleAccAddr amt;
  _ ← trackUndelegation delegatorAddr amt;
  addCoins delegatorAddr amt.

Definition DelegateCoinsFromAccountToModule (senderAddr recipientModule : string)
    (amt : list Coin) : M Chain () :=
  r ← GetModuleAccount cfg recipientModule;
  recipientAcc ← lift (or_panic r "module account does not exist");
  _ ← lift (panic_if (negb (HasPermission recipientAcc Staking)) "no permission to receive delegated coins");
  DelegateCoins senderAddr (acc_address recipientAcc) amt.

Definition UndelegateCoinsFromModuleToAccount (senderModule recipientAddr : string)
    (amt : list Coin) : M Chain () :=
  r ← GetModuleAccount cfg senderModule;
  acc ← lift (or_panic r "module account does not exist");
  _ ← lift (panic_if (negb (HasPermission acc Staking)) "no permission to undelegate coins");
  UndelegateCoins (acc_address acc) recipientAddr amt.

(** ** Supply *)

Definition GetSupply (denom : string) : M Chain Coin :=
  gets (λ s, mkCoin denom (default 0 (supply s !! denom))).

Definition HasSupply (denom : string) : M Chain bool :=
  gets (λ s, bool_decide (is_Some (supply s !! denom))).

Definition setSupply (coin : Coin) : M Chain () :=
  modify (λ s, set_supply
    (if Coin1.IsZero coin then delete (Denom coin) (supply s)
     else <[Denom coin := Amount coin]> (supply s)) s).

Definition mint_one (amount : Coin) : M Chain () :=
  sup ← GetSupply (Denom amount);
  sup' ← lift (Coin1.Add sup amount);
  setSupply sup'.

(** The keeper of the application has no minting restriction installed. *)
Definition MintCoins (moduleName : string) (amounts : list Coin) : M Chain () :=
  r ← GetModuleAccount cfg moduleName;
  acc ← lift (or_panic r "module account does not exist");
  _ ← lift (panic_if (negb (HasPermission acc Minter)) "no permission to mint tokens");
  _ ← addCoins (acc_address acc) amounts;
  _ ← for_each mint_one amounts;
  EmitEvent (coin_event "coinbase" "minter" (acc_address acc) amounts).

Definition burn_one (amount : Coin) : M Chain () :=
  sup ← GetSupply (Denom amount);
  sup' ← lift (Coin1.Sub sup amount);
  setSupply sup'.

Definition BurnCoins (moduleName : string) (amounts : list Coin) : M Chain () :=
  r ← GetModuleAccount cfg moduleName;
  acc ← lift (or_panic r "module account does not exist");
  _ ← lift (panic_if (negb (HasPermission acc Burner)) "no permission to burn tokens");
  _ ← subUnlockedCoins (acc_address acc) amounts;
  _ ← for_each burn_one amounts;
  EmitEvent (coin_event "burn" "burner" (acc_address acc) amounts).

(** ** The message server *)

(** [AccAddressFromBech32] and the [SendEnabled] parameter are given by the
    caller. *)
Context (AccAddressFromBech32 : string → outcome string).
Context (SendEnabledDenom : string → bool).

Definition IsSendEnabledCoins (coins : list Coin) : outcome () :=
  fail_if (existsb (λ c, negb (SendEnabledDenom (Denom c))) coins)
    "transfers are currently disabled".

Definition Send (fromAddress toAddress : string) (amount : list Coin) : M Chain () :=
  _ ← lift (IsSendEnabledCoins amount);
  from ← lift (AccAddressFromBech32 fromAddress);
  to ← lift (AccAddressFromBech32 toAddress);
  _ ← lift (fail_if (BlockedAddr to) "not allowed to receive funds");
  _ ← SendCoins from to amount;
  EmitEvent (mkEvent "message" [("module", AStr "bank")]).

End bank.
