(* ===== verification/BankFacts.v ===== *)
(** * What the bank operations do to balances, totals and supply

    Every operation that returns is summarised by the change it makes to each
    balance, to the total of each denomination over all accounts and to the
    recorded supply; the summaries compose by addition. *)

From Stdlib Require Import ZArith Lia Ascii String.
From stdpp Require Import base tactics option list gmap sorting strings.
From S2P Require Import Prelude GoStd Digits SdkInt Coin CoinFacts CoinProps Chain Bank.

Local Open Scope Z_scope.

Definition bal (s : Chain) (a d : string) : Z := default 0 (balances s !! (a, d)).
Definition sup (s : Chain) (d : string) : Z := default 0 (supply s !! d).

(** The sum of all balances of a denomination. *)
Definition total_of (b : gmap (string * string) Z) (d : string) : Z :=
  map_fold (λ k z acc, (if String.eqb k.2 d then z else 0) + acc) 0 b.
Definition total (s : Chain) (d : string) : Z := total_of (balances s) d.

(** What holds of every state the keepers build: stored amounts are positive
    and in range, accounts are stored under their address. *)
Record chain_ok (s : Chain) : Prop := {
  ok_bal : ∀ k z, balances s !! k = Some z → 0 < z ∧ Int.valid z;
  ok_sup : ∀ d z, supply s !! d = Some z → 0 < z ∧ Int.valid z;
  ok_acc : ∀ a acc, accounts s !! a = Some acc → acc_address acc = a }.

(** The change an operation makes. *)
Record change (s s' : Chain) (dB : string → string → Z) (dT dS : string → Z) : Prop := {
  ch_bal : ∀ a d, bal s' a d = bal s a d + dB a d;
  ch_total : ∀ d, total s' d = total s d + dT d;
  ch_sup : ∀ d, sup s' d = sup s d + dS d }.

Definition at_addr (addr : string) (f : string → Z) (a d : string) : Z :=
  if String.eqb a addr then f d else 0.

Lemma change_refl s : change s s (λ _ _, 0) (λ _, 0) (λ _, 0).
Proof. split; intros; lia. Qed.

Lemma change_trans s1 s2 s3 dB dT dS dB' dT' dS' :
  change s1 s2 dB dT dS → change s2 s3 dB' dT' dS' →
  change s1 s3 (λ a d, dB a d + dB' a d) (λ d, dT d + dT' d) (λ d, dS d + dS' d).
Proof.
  intros [H1 H2 H3] [H1' H2' H3']. split; intros.
  - rewrite H1', H1. lia.
  - rewrite H2', H2. lia.
  - rewrite H3', H3. lia.
Qed.

Lemma change_ext s s' dB dT dS dB' dT' dS' : change s s' dB dT dS →
  (∀ a d, dB a d = dB' a d) → (∀ d, dT d = dT' d) → (∀ d, dS d = dS' d) →
  change s s' dB' dT' dS'.
Proof. intros [H1 H2 H3] E1 E2 E3. split; intros; rewrite <-?E1, <-?E2, <-?E3; auto. Qed.

(** States that agree on balances and supply. *)
Lemma change_same s s' : balances s' = balances s → supply s' = supply s →
  change s s' (λ _ _, 0) (λ _, 0) (λ _, 0).
Proof. intros Hb Hs. split; intros; unfold bal, total, sup; rewrite ?Hb, ?Hs; lia. Qed.

(** ** Totals *)

Lemma total_of_comm d (k1 k2 : string * string) (z1 z2 acc : Z) :
  (if String.eqb k1.2 d then z1 else 0) + ((if String.eqb k2.2 d then z2 else 0) + acc) =
  (if String.eqb k2.2 d then z2 else 0) + ((if String.eqb k1.2 d then z1 else 0) + acc).
Proof. lia. Qed.

Lemma total_of_insert b k z d : b !! k = None →
  total_of (<[k := z]> b) d = (if String.eqb k.2 d then z else 0) + total_of b d.
Proof.
  intros Hk. unfold total_of. rewrite map_fold_insert_L; [done| |done].
  intros. apply total_of_comm.
Qed.

Lemma total_of_delete b k d :
  total_of (delete k b) d = total_of b d - (if String.eqb k.2 d then default 0 (b !! k) else 0).
Proof.
  destruct (b !! k) as [z|] eqn:E; simpl.
  - rewrite <-(insert_delete_id b k z E) at 2. rewrite total_of_insert by apply lookup_delete_eq. lia.
  - rewrite delete_id by done. case_match; lia.
Qed.

Lemma total_of_put b k z d :
  total_of (<[k := z]> b) d =
  total_of b d - (if String.eqb k.2 d then default 0 (b !! k) else 0)
  + (if String.eqb k.2 d then z else 0).
Proof.
  rewrite <-insert_delete_eq, total_of_insert by apply lookup_delete_eq.
  rewrite total_of_delete. lia.
Qed.

(** ** Primitive updates *)

Lemma bal_put s addr denom amount a d :
  bal (put_balance addr denom amount s) a d =
  if String.eqb a addr && String.eqb d denom then amount else bal s a d.
Proof.
  unfold bal, put_balance. simpl.
  destruct (String.eqb_spec a addr) as [->|Ha]; [destruct (String.eqb_spec d denom) as [->|Hd]|]; simpl.
  - destruct (Int.IsZero amount) eqn:E.
    + apply Int.IsZero_true in E as ->. by rewrite lookup_delete_eq.
    + by rewrite lookup_insert_eq.
  - destruct (Int.IsZero amount); rewrite ?lookup_delete_ne, ?lookup_insert_ne by congruence; done.
  - destruct (Int.IsZero amount); rewrite ?lookup_delete_ne, ?lookup_insert_ne by congruence; done.
Qed.

Lemma total_put s addr denom amount d :
  total (put_balance addr denom amount s) d =
  total s d + (if String.eqb denom d then amount - bal s addr denom else 0).
Proof.
  unfold total, put_balance, bal. simpl. destruct (Int.IsZero amount) eqn:E.
  - apply Int.IsZero_true in E as ->. rewrite total_of_delete. simpl. case_match; lia.
  - rewrite total_of_put. simpl. case_match; lia.
Qed.

(** Setting a balance to an amount changes it and the total by the same. *)
Lemma change_put s addr denom amount :
  let δ := amount - bal s addr denom in
  change s (put_balance addr denom amount s)
    (at_addr addr (λ d, if String.eqb denom d then δ else 0))
    (λ d, if String.eqb denom d then δ else 0) (λ _, 0).
Proof.
  intros δ. split.
  - intros a d. rewrite bal_put. unfold at_addr, δ.
    destruct (String.eqb_spec a addr) as [->|]; simpl; [|lia].
    destruct (String.eqb_spec d denom) as [->|Hne]; [rewrite String.eqb_refl; lia|].
    rewrite (proj2 (String.eqb_neq denom d)) by congruence. lia.
  - intros d. apply total_put.
  - intros d. unfold sup, put_balance. simpl. lia.
Qed.

Lemma chain_ok_put s addr denom amount : chain_ok s → 0 <= amount → Int.valid amount →
  chain_ok (put_balance addr denom amount s).
Proof.
  intros [Hb Hs Ha] Hn Hv. split; [|done|done]. intros k z. unfold put_balance. simpl.
  destruct (Int.IsZero amount) eqn:E.
  - rewrite lookup_delete_Some. intros [_ H]. eauto.
  - apply Int.IsZero_false in E. rewrite lookup_insert_Some.
    intros [[_ <-]|[_ H]]; [|eauto]. split; [lia|done].
Qed.

Lemma bal_range s a d : chain_ok s → 0 <= bal s a d ∧ Int.valid (bal s a d).
Proof.
  intros [Hb _ _]. unfold bal. destruct (balances s !! (a, d)) as [z|] eqn:E; simpl.
  - apply Hb in E. split; [lia|apply E].
  - split; [lia|done].
Qed.

Lemma sup_range s d : chain_ok s → 0 <= sup s d ∧ Int.valid (sup s d).
Proof.
  intros [_ Hs _]. unfold sup. destruct (supply s !! d) as [z|] eqn:E; simpl.
  - apply Hs in E. split; [lia|apply E].
  - split; [lia|done].
Qed.

(** ** Single steps *)

Lemma GetBalance_Ok addr d s c s' :
  GetBalance addr d s = (Ok c, s') → s' = s ∧ c = mkCoin d (bal s addr d).
Proof.
  unfold GetBalance. intros [= H <-]. split; [done|]. inv_ok. unfold bal.
  destruct (balances s !! (addr, d)); simpl; [by inv_ok|]. by apply NewCoin_Ok in H0 as [? _].
Qed.

(** The same operations run forward. *)
Lemma getAccountStore_run addr : (String.length addr <= 255)%nat → getAccountStore addr = Ok ().
Proof.
  intros H. unfold getAccountStore, CreateAccountBalancesPrefix, MustLengthPrefix, LengthPrefix.
  destruct (String.length addr =? 0)%nat; [done|]. by rewrite (proj2 (Nat.ltb_ge 255 _)).
Qed.

Lemma GetBalance_run addr d s : (String.length addr <= 255)%nat → reDnm d = true →
  GetBalance addr d s = (Ok (mkCoin d (bal s addr d)), s).
Proof.
  intros Ha Hd. unfold GetBalance. rewrite (bind_run _ _ _ (getAccountStore_run addr Ha)).
  unfold bal. destruct (balances s !! (addr, d)); [done|]. by rewrite NewCoin_run.
Qed.

Lemma Coin_IsNegative_false c : 0 <= Amount c → Coin1.IsNegative c = false.
Proof. apply Int.IsNegative_false. Qed.

Lemma SubCoin_run d x y : Int.valid x → 0 <= y <= x →
  Coin1.Sub (mkCoin d x) (mkCoin d y) = Ok (mkCoin d (x - y)).
Proof.
  intros Hv H. unfold Coin1.Sub, Coin1.same_denom, Coin1.SubAmount. cbn [Denom Amount].
  rewrite String.eqb_refl. rewrite (bind_run _ _ ()) by done.
  rewrite (bind_run _ _ _ (Int.Sub_nonneg x y Hv H)).
  rewrite Coin_IsNegative_false by (simpl; lia). done.
Qed.

(** [SafeSub] of single coins of one denomination. *)
Lemma SafeSub_one d x y : Int.valid x → Int.valid y → 0 <= x → 0 <= y → x ≠ y →
  Coins.SafeSub [mkCoin d x] [mkCoin d y] = Ok ([mkCoin d (x - y)], x <? y).
Proof.
  intros Hx Hy H0 H1 Hne. unfold Coins.SafeSub. rewrite safeAdd_run by (repeat constructor).
  rewrite (bind_run _ _ [mkCoin d (x - y)]).
  - f_equal. f_equal. unfold Coins.IsAnyNegative. cbn [existsb]. rewrite orb_false_r.
    change (Coin1.IsNegative (mkCoin d (x - y))) with (Int.IsNegative (x - y)).
    destruct (Z.ltb_spec x y); [apply Int.IsNegative_true|apply Int.IsNegative_false]; lia.
  - change (Coins.negative [mkCoin d y]) with [mkCoin d (- y)]. rewrite merge_add_cons.
    cbn [Denom Amount]. destruct (Str.compare_spec d d) as [_|L|L]; try by apply Str.lt_irrefl in L.
    rewrite (bind_run _ _ (x - y)).
    + rewrite (bind_run _ _ []) by done.
      by rewrite (proj2 (isZero_false _)) by (unfold nonzero; simpl; lia).
    + apply Int.Add_Ok. split; [lia|]. unfold Int.valid in *. lia.
Qed.

Lemma SubCoin_Ok c c' r : Coin1.Sub c c' = Ok r →
  Denom c = Denom c' ∧ r = mkCoin (Denom c) (Amount c - Amount c') ∧
  0 <= Amount r ∧ Int.valid (Amount r).
Proof.
  unfold Coin1.Sub, Coin1.same_denom, Coin1.SubAmount.
  intros (u & Hd%panic_if_Ok & (x & Hx & (u' & Hn%panic_if_Ok & [= <-])%bind_Ok)%bind_Ok)%bind_Ok.
  apply negb_false_iff, String.eqb_eq in Hd. apply Int.Sub_Ok in Hx as [-> Hv].
  change (Int.IsNegative (Amount c - Amount c') = false) in Hn.
  by apply Int.IsNegative_false in Hn.
Qed.

Lemma AddCoin_Ok c c' r : Coin1.Add c c' = Ok r →
  Denom c = Denom c' ∧ r = mkCoin (Denom c) (Amount c + Amount c') ∧ Int.valid (Amount r).
Proof.
  unfold Coin1.Add, Coin1.same_denom, Coin1.AddAmount.
  intros (u & Hd%panic_if_Ok & (x & Hx & ->)%fmap_Ok)%bind_Ok.
  apply negb_false_iff, String.eqb_eq in Hd. by apply Int.Add_Ok in Hx as [-> Hv].
Qed.

Lemma setBalance_Ok addr c s u s' : setBalance addr c s = (Ok u, s') →
  s' = put_balance addr (Denom c) (Amount c) s ∧ 0 <= Amount c.
Proof.
  unfold setBalance. intros H. inv_ok. split; [done|].
  apply negb_false_iff in H. unfold Coin1.IsValid, Coin1.Validate in H.
  destruct (ValidateDenom (Denom c)); simpl in H; try done.
  destruct (Int.IsNegative (Amount c)) eqn:E; [done|]. by apply Int.IsNegative_false in E.
Qed.

(** ** Loops over a coin set *)

Lemma sub_one_Ok locked addr c s u s' : chain_ok s → sub_one locked addr c s = (Ok u, s') →
  chain_ok s' ∧ Amount c <= bal s addr (Denom c) ∧
  change s s' (at_addr addr (λ d, - sum_of d [c])) (λ d, - sum_of d [c]) (λ _, 0).
Proof.
  intros Hok H. unfold sub_one in H. inv_ok.
  repeat match goal with
  | H : GetBalance _ _ _ = (Ok _, _) |- _ => apply GetBalance_Ok in H as [-> ->]
  | H : Coin1.Sub _ c = Ok _ |- _ => apply SubCoin_Ok in H as (_ & -> & ? & ?)
  | H : setBalance _ _ _ = (Ok _, _) |- _ => apply setBalance_Ok in H as [-> _]
  end. simpl in *.
  split_and!; [by apply chain_ok_put|lia|].
  eapply change_ext; [apply change_put| | |done]; intros; unfold at_addr; simpl;
    rewrite ?Z.add_0_r; repeat case_match; lia.
Qed.

Lemma add_one_Ok addr c s u s' : chain_ok s → 0 <= Amount c → add_one addr c s = (Ok u, s') →
  chain_ok s' ∧ change s s' (at_addr addr (λ d, sum_of d [c])) (λ d, sum_of d [c]) (λ _, 0).
Proof.
  intros Hok Hc H. unfold add_one in H. inv_ok.
  repeat match goal with
  | H : GetBalance _ _ _ = (Ok _, _) |- _ => apply GetBalance_Ok in H as [-> ->]
  | H : Coin1.Add _ c = Ok _ |- _ => apply AddCoin_Ok in H as (_ & -> & ?)
  | H : setBalance _ _ _ = (Ok _, _) |- _ => apply setBalance_Ok in H as [-> ?]
  end. simpl in *. split; [by apply chain_ok_put|].
  eapply change_ext; [apply change_put| | |done]; intros; unfold at_addr; simpl;
    rewrite ?Z.add_0_r; repeat case_match; lia.
Qed.

(** The effect of adding [σ] times a coin set to the balances of an account,
    and [τ] times to the supply. *)
Definition moves (addr : string) (σ τ : Z) (l : list Coin) (s s' : Chain) : Prop :=
  change s s' (at_addr addr (λ d, σ * sum_of d l)) (λ d, σ * sum_of d l) (λ d, τ * sum_of d l).

Lemma sub_one_moves locked addr c s u s' : 0 <= Amount c → chain_ok s →
  sub_one locked addr c s = (Ok u, s') → chain_ok s' ∧ moves addr (-1) 0 [c] s s'.
Proof.
  intros _ Ht Hc. destruct (sub_one_Ok _ _ _ _ _ _ Ht Hc) as (? & _ & Hch).
  split; [done|]. eapply change_ext; [exact Hch|..]; intros; unfold at_addr; repeat case_match; lia.
Qed.

Lemma add_one_moves addr c s u s' : 0 <= Amount c → chain_ok s →
  add_one addr c s = (Ok u, s') → chain_ok s' ∧ moves addr 1 0 [c] s s'.
Proof.
  intros Hn Ht Hc. destruct (add_one_Ok _ _ _ _ _ Ht Hn Hc) as (? & Hch).
  split; [done|]. eapply change_ext; [exact Hch|..]; intros; unfold at_addr; repeat case_match; lia.
Qed.

(** A loop whose rounds each have the effect of their coin has the effect of
    the set. *)
Lemma loop_moves (step : Coin → M Chain ()) (I : Coin → Prop) addr σ τ :
  (∀ c s u s', I c → chain_ok s → step c s = (Ok u, s') →
     chain_ok s' ∧ moves addr σ τ [c] s s') →
  ∀ l s u s', Forall I l → chain_ok s → for_each step l s = (Ok u, s') →
    chain_ok s' ∧ moves addr σ τ l s s'.
Proof.
  intros Hstep l. induction l as [|c l IH]; intros s u s' HI Hok H.
  { simpl in H. inv_ok. split; [done|]. eapply change_ext; [apply change_refl|..];
      intros; unfold at_addr; simpl; repeat case_match; lia. }
  apply Forall_cons in HI as [Hc HI]. simpl in H. inv_ok.
  destruct (Hstep _ _ _ _ Hc Hok H) as [Hok1 H1].
  match goal with Hl : for_each _ _ _ = _ |- _ => destruct (IH _ _ _ HI Hok1 Hl) as [Hok2 H2] end.
  split; [done|]. eapply change_ext; [by eapply change_trans|..]; intros; unfold at_addr;
    rewrite (sum_of_cons _ c l); repeat case_match; lia.
Qed.

Lemma change_supply s d z : 
  change s (set_supply (if Int.IsZero z then delete d (supply s) else <[d := z]> (supply s)) s)
    (λ _ _, 0) (λ _, 0) (λ d', if String.eqb d d' then z - sup s d else 0).
Proof.
  split; [intros; unfold bal; simpl; lia|intros; unfold total; simpl; lia|].
  intros d'. unfold sup. simpl. destruct (String.eqb_spec d d') as [<-|Hne].
  - destruct (Int.IsZero z) eqn:E.
    + apply Int.IsZero_true in E as ->. rewrite lookup_delete_eq. simpl. lia.
    + rewrite lookup_insert_eq. simpl. lia.
  - destruct (Int.IsZero z); rewrite ?lookup_delete_ne, ?lookup_insert_ne by done; lia.
Qed.

Lemma chain_ok_supply s d z : chain_ok s → 0 <= z → Int.valid z →
  chain_ok (set_supply (if Int.IsZero z then delete d (supply s) else <[d := z]> (supply s)) s).
Proof.
  intros [Hb Hs Ha] Hz Hv. split; [done| |done]. intros d' z'. simpl.
  destruct (Int.IsZero z) eqn:E.
  - rewrite lookup_delete_Some. intros [_ H]. eauto.
  - apply Int.IsZero_false in E. rewrite lookup_insert_Some.
    intros [[_ <-]|[_ H]]; [|eauto]. split; [lia|done].
Qed.

Lemma mint_one_Ok addr c s u s' : 0 <= Amount c → chain_ok s → mint_one c s = (Ok u, s') →
  chain_ok s' ∧ moves addr 0 1 [c] s s'.
Proof.
  intros Hc Hok H. unfold mint_one, GetSupply in H. inv_ok.
  match goal with H : Coin1.Add _ c = Ok _ |- _ => apply AddCoin_Ok in H as (_ & -> & ?) end.
  unfold setSupply, Coin1.IsZero in *. inv_ok. change (default 0 (supply ?x !! ?d)) with (sup x d) in *.
  pose proof (sup_range s (Denom c) Hok).
  split; [apply chain_ok_supply; (done || lia)|].
  eapply change_ext; [apply change_supply|..]; intros; unfold at_addr; simpl;
    rewrite ?Z.add_0_r; repeat case_match; lia.
Qed.

Lemma burn_one_Ok addr c s u s' : 0 <= Amount c → chain_ok s → burn_one c s = (Ok u, s') →
  chain_ok s' ∧ moves addr 0 (-1) [c] s s'.
Proof.
  intros Hc Hok H. unfold burn_one, GetSupply in H. inv_ok.
  match goal with H : Coin1.Sub _ c = Ok _ |- _ => apply SubCoin_Ok in H as (_ & -> & ? & ?) end.
  unfold setSupply, Coin1.IsZero in *. inv_ok. change (default 0 (supply ?x !! ?d)) with (sup x d) in *.
  split; [by apply chain_ok_supply|].
  eapply change_ext; [apply change_supply|..]; intros; unfold at_addr; simpl;
    rewrite ?Z.add_0_r; repeat case_match; lia.
Qed.

(** ** Operations *)
Section ops.
Context (cfg : Config) (addr_String : string → string).

Lemma moves_same addr s s' l : balances s' = balances s → supply s' = supply s →
  moves addr 0 0 l s s'.
Proof.
  intros. eapply change_ext; [by apply change_same|..]; intros; unfold at_addr; simpl;
    repeat case_match; lia.
Qed.

Lemma IsValid_wf_false a : negb (Coins.IsValid a) = false → wf a.
Proof. intros H%negb_false_iff. by apply IsValid_wf. Qed.

(** Emitting events changes no account, balance or supply. *)
Lemma chain_ok_events e s : chain_ok s → chain_ok (set_events e s).
Proof. intros [? ? ?]. by split. Qed.

Lemma moves_events addr σ τ l e s s' : moves addr σ τ l s s' → moves addr σ τ l s (set_events e s').
Proof. intros [H1 H2 H3]. by split. Qed.

Lemma subUnlockedCoins_Ok addr amt s u s' : chain_ok s →
  subUnlockedCoins addr_String addr amt s = (Ok u, s') →
  wf amt ∧ chain_ok s' ∧ moves addr (-1) 0 amt s s'.
Proof.
  intros Hok H. unfold subUnlockedCoins, EmitEvent in H.
  apply Mbind_Ok in H as (v & s1 & [Hv ->]%lift_Ok & H). apply fail_if_Ok, IsValid_wf_false in Hv.
  apply Mbind_Ok in H as (locked & s2 & Hl & H).
  assert (s2 = s) as ->.
  { revert Hl. unfold LockedCoins. repeat case_match; congruence. }
  apply Mbind_Ok in H as (v' & s3 & Hloop & H). apply modify_Ok in H as ->.
  apply (loop_moves _ (λ c, 0 <= Amount c) addr (-1) 0) in Hloop as [Hok3 Hm];
    [|intros; by eapply sub_one_moves|by apply wf_nonneg|done].
  split_and!; [done|by apply chain_ok_events|by apply moves_events].
Qed.

Lemma addCoins_Ok addr amt s u s' : chain_ok s →
  addCoins addr_String addr amt s = (Ok u, s') →
  wf amt ∧ chain_ok s' ∧ moves addr 1 0 amt s s'.
Proof.
  intros Hok H. unfold addCoins, EmitEvent in H.
  apply Mbind_Ok in H as (v & s1 & [Hv ->]%lift_Ok & H). apply fail_if_Ok, IsValid_wf_false in Hv.
  apply Mbind_Ok in H as (v' & s3 & Hloop & H). apply modify_Ok in H as ->.
  apply (loop_moves _ (λ c, 0 <= Amount c) addr 1 0) in Hloop as [Hok3 Hm];
    [|intros; by eapply add_one_moves|by apply wf_nonneg|done].
  split_and!; [done|by apply chain_ok_events|by apply moves_events].
Qed.

(** Creating accounts leaves the money alone. *)
Definition only_accounts (s s' : Chain) : Prop :=
  balances s' = balances s ∧ supply s' = supply s.

Lemma touch_account_Ok addr s u s' : chain_ok s → touch_account addr s = (Ok u, s') →
  chain_ok s' ∧ only_accounts s s'.
Proof.
  intros Hok H. unfold touch_account, HasAccount in H. inv_ok. case_match; inv_ok; [done|].
  unfold NewAccountWithAddress, NewAccount, GetNextAccountNumber, SetAccount in *. inv_ok.
  split; [|done]. destruct Hok as [Hb Hs Ha]. split; [done|done|].
  intros a acc. simpl. rewrite lookup_insert_Some. intros [[<- <-]|[_ ?]]; [done|auto].
Qed.

Lemma GetModuleAccount_Ok name s acc s' : chain_ok s →
  GetModuleAccount cfg name s = (Ok (Some acc), s') →
  chain_ok s' ∧ only_accounts s s' ∧ GetModuleAddress cfg name = Some (acc_address acc).
Proof.
  intros Hok H. unfold GetModuleAccount, GetModuleAccountAndPermissions in H.
  unfold GetModuleAddress, GetModuleAddressAndPermissions in *.
  destruct (permAddrs cfg !! name) as [[addr perms]|]; [|by inv_ok].
  unfold GetAccount in H. inv_ok. simpl. destruct (accounts _ !! addr) as [a|] eqn:E; inv_ok.
  - destruct Hok as [Hb Hs Ha]. split_and!; [done|done|]. by rewrite (Ha _ _ E).
  - unfold NewAccount, GetNextAccountNumber, SetAccount in *. inv_ok.
    split_and!; [|done|done]. destruct Hok as [Hb Hs Ha]. split; [done|done|].
    intros a' acc'. simpl. rewrite lookup_insert_Some. intros [[<- <-]|[_ ?]]; [done|auto].
Qed.
End ops.
