(* ===== verification/Keepers.v ===== *)
(** * What x/reward expects of the bank and of the context

    [BankKeeper] has the methods of the interface in x/reward/types/codec.go
    (with the account keeper's [GetModuleAddress] of expected_keepers.go and
    the context's event manager and header); [BankLaws] is the contract under
    which x/reward is verified.  The module Bank discharges it in
    [BankInst]. *)

From Stdlib Require Import ZArith Lia Ascii String.
From stdpp Require Import base tactics option list gmap strings.
From S2P Require Import Prelude GoStd Digits SdkInt Coin CoinFacts Chain.

Local Open Scope Z_scope.

Class BankKeeper (B : Type) := {
  bk_GetBalance : string → string → M B Coin;
  bk_SendCoinsFromModuleToAccount : string → string → list Coin → M B ();
  bk_SendCoinsFromAccountToModule : string → string → list Coin → M B ();
  bk_MintCoins : string → list Coin → M B ();
  bk_BurnCoins : string → list Coin → M B ();
  bk_GetModuleAddress : string → option string;
  bk_EmitEvents : list Event → M B ();
  bk_BlockHeight : B → Z;
  bk_BlockTime : B → Z }.

(** The change of every balance when an account receives [f d] of each
    denomination [d]. *)
Definition gets_coins (addr : string) (f : string → Z) (a d : string) : Z :=
  if String.eqb a addr then f d else 0.

Class BankLaws (B : Type) `{BankKeeper B} := {
  (** the states the bank builds, and what they hold *)
  bk_ok : B → Prop;
  bk_bal : B → string → string → Z;
  bk_sup : B → string → Z;

  bk_GetBalance_law b a d c b' : bk_GetBalance a d b = (Ok c, b') →
    b' = b ∧ c = mkCoin d (bk_bal b a d);

  bk_bal_range b a d : bk_ok b → 0 <= bk_bal b a d ∧ Int.valid (bk_bal b a d);
  bk_sup_range b d : bk_ok b → 0 <= bk_sup b d ∧ Int.valid (bk_sup b d);

  bk_send_from_law b m a l u b' : bk_ok b →
    bk_SendCoinsFromModuleToAccount m a l b = (Ok u, b') →
    ∃ ma, bk_GetModuleAddress m = Some ma ∧ wf l ∧ bk_ok b' ∧
      (∀ x d, bk_bal b' x d = bk_bal b x d + gets_coins ma (λ d, - sum_of d l) x d
                                           + gets_coins a (λ d, sum_of d l) x d) ∧
      (∀ d, bk_sup b' d = bk_sup b d);

  bk_send_to_law b a m l u b' : bk_ok b →
    bk_SendCoinsFromAccountToModule a m l b = (Ok u, b') →
    ∃ ma, bk_GetModuleAddress m = Some ma ∧ wf l ∧ bk_ok b' ∧
      (∀ x d, bk_bal b' x d = bk_bal b x d + gets_coins a (λ d, - sum_of d l) x d
                                           + gets_coins ma (λ d, sum_of d l) x d) ∧
      (∀ d, bk_sup b' d = bk_sup b d);

  bk_mint_law b m l u b' : bk_ok b → bk_MintCoins m l b = (Ok u, b') →
    ∃ ma, bk_GetModuleAddress m = Some ma ∧ wf l ∧ bk_ok b' ∧
      (∀ x d, bk_bal b' x d = bk_bal b x d + gets_coins ma (λ d, sum_of d l) x d) ∧
      (∀ d, bk_sup b' d = bk_sup b d + sum_of d l);

  bk_burn_law b m l u b' : bk_ok b → bk_BurnCoins m l b = (Ok u, b') →
    ∃ ma, bk_GetModuleAddress m = Some ma ∧ wf l ∧ bk_ok b' ∧
      (∀ x d, bk_bal b' x d = bk_bal b x d + gets_coins ma (λ d, - sum_of d l) x d) ∧
      (∀ d, bk_sup b' d = bk_sup b d - sum_of d l) ∧
      (∀ d, sum_of d l <= bk_sup b d);

  bk_emit_law b l u b' : bk_EmitEvents l b = (Ok u, b') →
    (bk_ok b → bk_ok b') ∧ (∀ x d, bk_bal b' x d = bk_bal b x d) ∧
    (∀ d, bk_sup b' d = bk_sup b d) }.
