(* ===== verification/BankInst.v ===== *)
(** * The bank keeper implements what x/reward expects; conservation *)

From Stdlib Require Import ZArith Lia Ascii String.
From stdpp Require Import base tactics option list gmap strings.
From S2P Require Import Prelude GoStd Digits SdkInt Coin CoinFacts CoinProps Chain Bank BankFacts Keepers.

Local Open Scope Z_scope.

Section inst.
Context (cfg : Config) (addr_String : string → string).

#[local] Instance Bank_keeper : BankKeeper Chain := {
  bk_GetBalance := GetBalance;
  bk_SendCoinsFromModuleToAccount := SendCoinsFromModuleToAccount cfg addr_String;
  bk_SendCoinsFromAccountToModule := SendCoinsFromAccountToModule cfg addr_String;
  bk_MintCoins := MintCoins cfg addr_String;
  bk_BurnCoins := BurnCoins cfg addr_String;
  bk_GetModuleAddress := GetModuleAddress cfg;
  bk_EmitEvents := EmitEvents;
  bk_BlockHeight := blockHeight;
  bk_BlockTime := blockTime }.

(** What a transfer does. *)
Lemma SendCoins_Ok from to amt s u s' : chain_ok s →
  SendCoins addr_String from to amt s = (Ok u, s') →
  wf amt ∧ chain_ok s' ∧
  change s s' (λ a d, at_addr from (λ d, - sum_of d amt) a d + at_addr to (λ d, sum_of d amt) a d)
    (λ _, 0) (λ _, 0).
Proof.
  intros Hok H. unfold SendCoins, EmitEvents in H.
  apply Mbind_Ok in H as (u1 & s1 & H1 & H). apply Mbind_Ok in H as (u2 & s2 & H2 & H).
  apply Mbind_Ok in H as (u3 & s3 & H3 & H). apply modify_Ok in H as ->.
  apply subUnlockedCoins_Ok in H1 as (Hw & Hok1 & M1); [|done].
  apply addCoins_Ok in H2 as (_ & Hok2 & M2); [|done].
  apply touch_account_Ok in H3 as (Hok3 & Hb & Hs); [|done].
  split_and!; [done|by apply chain_ok_events|].
  pose proof (change_trans _ _ _ _ _ _ _ _ _ (change_trans _ _ _ _ _ _ _ _ _ M1 M2)
    (change_same s2 (set_events (events s3 ++ [
      mkEvent "transfer" [("recipient", AStr (addr_String to)); ("sender", AStr (addr_String from));
                          ("amount", AStr (Coins.to_String amt))];
      mkEvent "message" [("sender", AStr (addr_String from))]]) s3) Hb Hs)) as Hc.
  eapply change_ext; [exact Hc|..]; intros; unfold at_addr; repeat case_match; lia.
Qed.

Lemma ToAccount_Ok m to amt s u s' : chain_ok s →
  SendCoinsFromModuleToAccount cfg addr_String m to amt s = (Ok u, s') →
  ∃ ma, GetModuleAddress cfg m = Some ma ∧ (to ∉ blockedAddrs cfg) ∧
    SendCoins addr_String ma to amt s = (Ok u, s').
Proof.
  intros Hok H. unfold SendCoinsFromModuleToAccount in H.
  apply Mbind_Ok in H as (ma & s1 & [Hm%or_panic_Ok ->]%lift_Ok & H).
  apply Mbind_Ok in H as (v & s2 & [Hb%fail_if_Ok ->]%lift_Ok & H).
  exists ma. split_and!; [done| |done]. by apply bool_decide_eq_false in Hb.
Qed.

(** The prologue that fetches a module account. *)
Lemma module_account_Ok {A} m (k : Account → M Chain A) s a s' : chain_ok s →
  (r ← GetModuleAccount cfg m; acc ← lift (or_panic r "module account does not exist"); k acc) s
    = (Ok a, s') →
  ∃ acc s1, GetModuleAddress cfg m = Some (acc_address acc) ∧ chain_ok s1 ∧
    only_accounts s s1 ∧ k acc s1 = (Ok a, s').
Proof.
  intros Hok H. apply Mbind_Ok in H as (r & s1 & Hr & H).
  apply Mbind_Ok in H as (acc & s2 & [Ho%or_panic_Ok ->]%lift_Ok & H). subst r.
  apply GetModuleAccount_Ok in Hr as (? & ? & ?); [|done]. eauto 10.
Qed.

Lemma MintCoins_Ok m l s u s' : chain_ok s → MintCoins cfg addr_String m l s = (Ok u, s') →
  ∃ ma, GetModuleAddress cfg m = Some ma ∧ wf l ∧ chain_ok s' ∧ moves ma 1 1 l s s'.
Proof.
  intros Hok H. apply module_account_Ok in H as (acc & s1 & Hm & Hok1 & [Hb Hs] & H); [|done].
  exists (acc_address acc). split; [done|].
  apply Mbind_Ok in H as (v & s2 & [_ ->]%lift_Ok & H).
  apply Mbind_Ok in H as (v1 & s3 & H1 & H). apply Mbind_Ok in H as (v2 & s4 & H2 & H).
  unfold EmitEvent in H. apply modify_Ok in H as ->.
  apply addCoins_Ok in H1 as (Hw & Hok3 & M1); [|done].
  apply (loop_moves _ (λ c, 0 <= Amount c) (acc_address acc) 0 1) in H2 as [Hok4 M2];
    [|intros; by eapply mint_one_Ok|by apply wf_nonneg|done].
  split_and!; [done|by apply chain_ok_events|]. apply moves_events.
  eapply change_ext; [eapply change_trans; [exact (change_same s s1 Hb Hs)|
    eapply change_trans; [exact M1|exact M2]]|..]; intros; unfold at_addr; repeat case_match; lia.
Qed.

Lemma BurnCoins_Ok m l s u s' : chain_ok s → BurnCoins cfg addr_String m l s = (Ok u, s') →
  ∃ ma, GetModuleAddress cfg m = Some ma ∧ wf l ∧ chain_ok s' ∧ moves ma (-1) (-1) l s s'.
Proof.
  intros Hok H. apply module_account_Ok in H as (acc & s1 & Hm & Hok1 & [Hb Hs] & H); [|done].
  exists (acc_address acc). split; [done|].
  apply Mbind_Ok in H as (v & s2 & [_ ->]%lift_Ok & H).
  apply Mbind_Ok in H as (v1 & s3 & H1 & H). apply Mbind_Ok in H as (v2 & s4 & H2 & H).
  unfold EmitEvent in H. apply modify_Ok in H as ->.
  apply subUnlockedCoins_Ok in H1 as (Hw & Hok3 & M1); [|done].
  apply (loop_moves _ (λ c, 0 <= Amount c) (acc_address acc) 0 (-1)) in H2 as [Hok4 M2];
    [|intros; by eapply burn_one_Ok|by apply wf_nonneg|done].
  split_and!; [done|by apply chain_ok_events|]. apply moves_events.
  eapply change_ext; [eapply change_trans; [exact (change_same s s1 Hb Hs)|
    eapply change_trans; [exact M1|exact M2]]|..]; intros; unfold at_addr; repeat case_match; lia.
Qed.

(** The implementation discharges the contract. *)
#[local] Instance Bank_laws : BankLaws Chain.
Proof.
  refine (Build_BankLaws Chain _ chain_ok bal sup _ _ _ _ _ _ _ _).
  - intros b a d c b' H. by apply GetBalance_Ok in H.
  - apply bal_range.
  - apply sup_range.
  - intros b m a l u b' Hok H.
    destruct (ToAccount_Ok _ _ _ _ _ _ Hok H) as (ma & Hm & _ & Hs).
    destruct (SendCoins_Ok _ _ _ _ _ _ Hok Hs) as (Hw & Hok' & [Hb _ Hsu]).
    exists ma. split_and!; try done.
    + intros x d. rewrite Hb. unfold at_addr, gets_coins. lia.
    + intros d. rewrite Hsu. lia.
  - intros b a m l u b' Hok H.
    apply module_account_Ok in H as (acc & s1 & Hm & Hok1 & [Hbe Hse] & H); [|done].
    destruct (SendCoins_Ok _ _ _ _ _ _ Hok1 H) as (Hw & Hok' & [Hb _ Hsu]).
    exists (acc_address acc). split_and!; try done.
    + intros x d. rewrite Hb. unfold bal. rewrite Hbe. unfold at_addr, gets_coins. lia.
    + intros d. rewrite Hsu. unfold sup. rewrite Hse. lia.
  - intros b m l u b' Hok H. destruct (MintCoins_Ok _ _ _ _ _ Hok H) as (ma & Hm & Hw & Hok' & [Hb _ Hsu]).
    exists ma. split_and!; try done.
    + intros x d. rewrite Hb. unfold at_addr, gets_coins. case_match; lia.
    + intros d. rewrite Hsu. lia.
  - intros b m l u b' Hok H. destruct (BurnCoins_Ok _ _ _ _ _ Hok H) as (ma & Hm & Hw & Hok' & [Hb _ Hsu]).
    exists ma. split_and!; try done.
    intros d. pose proof (sup_range b' d Hok') as [? _]. rewrite Hsu in *. lia.
  - intros b l u b' H. apply modify_Ok in H as ->. split_and!; [apply chain_ok_events|done|done].
Defined.

End inst.

(** ** Properties *)

(** A transfer that succeeds moves exactly the amount from sender to
    recipient, changes no other balance, no total and no supply; it creates or
    destroys nothing. *)
Theorem SendCoins_conserves (addr_String : string → string) (s s' : Chain)
    (from to : string) (amt : list Coin) (u : ()) :
  chain_ok s → SendCoins addr_String from to amt s = (Ok u, s') →
  Coins.IsValid amt = true ∧ chain_ok s' ∧
  (∀ d, total s' d = total s d ∧ sup s' d = sup s d) ∧
  (from ≠ to → ∀ d, bal s' from d = bal s from d - amt.[d] ∧ bal s' to d = bal s to d + amt.[d]) ∧
  (from = to → ∀ d, bal s' from d = bal s from d) ∧
  (∀ a d, a ≠ from → a ≠ to → bal s' a d = bal s a d).
Proof.
  intros Hok H. apply SendCoins_Ok in H as (Hw & Hok' & [Hb Ht Hs]); [|done].
  split; [by apply IsValid_wf|]. split; [done|]. split; [intros d; rewrite Ht, Hs; lia|].
  unfold at_addr in Hb. split_and!.
  - intros Hne d. rewrite !Hb, !String.eqb_refl, (proj2 (String.eqb_neq _ _)),
      (proj2 (String.eqb_neq to from)) by congruence.
    rewrite AmountOf_sum by apply Hw. lia.
  - intros <- d. rewrite Hb, String.eqb_refl. lia.
  - intros a d H1 H2. rewrite Hb, !(proj2 (String.eqb_neq _ _)) by done. lia.
Qed.

(** Two accounts and some money, to run the operations on. *)
Definition demo_chain : Chain :=
  mkChain (<["alice" := mkAccount "alice" 1 None None None 0]> ∅) (Some 2)
    (<[("alice", "aeil") := 10]> ∅) (<["aeil" := 10]> ∅) 7 0 [].

Lemma demo_chain_ok : chain_ok demo_chain.
Proof.
  split; simpl.
  - intros k z. rewrite lookup_insert_Some. intros [[_ <-]|[_ H]]; [split; [lia|done]|done].
  - intros k z. rewrite lookup_insert_Some. intros [[_ <-]|[_ H]]; [split; [lia|done]|done].
  - intros k z. rewrite lookup_insert_Some. intros [[<- <-]|[_ H]]; [done|done].
Qed.

Lemma SendCoins_conserves_witness :
  total (snd (SendCoins id "alice" "bob" [mkCoin "aeil" 4] demo_chain)) "aeil" =
  total demo_chain "aeil".
Proof.
  pose proof (SendCoins_conserves id demo_chain _ "alice" "bob" [mkCoin "aeil" 4] () demo_chain_ok
    (run_ok (SendCoins id "alice" "bob" [mkCoin "aeil" 4]) demo_chain ()
       ltac:(vm_compute; reflexivity))) as H.
  destruct H as (_ & _ & H & _). exact (proj1 (H "aeil")).
Defined.
