(* ===== verification/BankRun.v ===== *)
(** * When the operations of the bank succeed

    The converse of BankFacts: conditions under which transfers, mints and
    burns return normally.  [BankProgress] states them for a client of the
    keeper, next to the laws of [BankLaws]. *)

From Stdlib Require Import ZArith Lia Ascii String.
From stdpp Require Import base tactics option list gmap strings.
From S2P Require Import Prelude GoStd Digits SdkInt Coin CoinFacts CoinProps.
From S2P Require Import Chain Bank BankFacts Keepers BankInst.

Local Open Scope Z_scope.

(** ** The contract *)

Class BankProgress (B : Type) `{BankLaws B} := {
  (** the account of a module exists or can be made, and may mint and burn *)
  bk_ready : string → B → Prop;
  (** an account all of whose coins can be spent *)
  bk_pays : B → string → Prop;
  (** an address that may be paid *)
  bk_takes : string → Prop;

  bk_mint_progress b m ma l : bk_ok b → bk_ready m b → bk_GetModuleAddress m = Some ma → wf l →
    (∀ d, Int.valid (bk_bal b ma d + sum_of d l)) → (∀ d, Int.valid (bk_sup b d + sum_of d l)) →
    ∃ b', bk_MintCoins m l b = (Ok (), b') ∧ bk_ready m b' ∧ bk_pays b' ma;

  bk_send_from_progress b m ma a l : bk_ok b → bk_GetModuleAddress m = Some ma →
    bk_pays b ma → bk_takes a → wf l →
    (∀ d, sum_of d l <= bk_bal b ma d) → (∀ d, Int.valid (bk_bal b a d + sum_of d l)) →
    ∃ b', bk_SendCoinsFromModuleToAccount m a l b = (Ok (), b');

  bk_send_to_progress b a m ma l : bk_ok b → bk_ready m b → bk_GetModuleAddress m = Some ma →
    bk_pays b a → wf l →
    (∀ d, sum_of d l <= bk_bal b a d) → (∀ d, Int.valid (bk_bal b ma d + sum_of d l)) →
    ∃ b', bk_SendCoinsFromAccountToModule a m l b = (Ok (), b') ∧ bk_ready m b';

  bk_burn_progress b m ma l : bk_ok b → bk_ready m b → bk_GetModuleAddress m = Some ma → wf l →
    (∀ d, sum_of d l <= bk_bal b ma d) → (∀ d, sum_of d l <= bk_sup b d) →
    ∃ b', bk_BurnCoins m l b = (Ok (), b') }.

(** ** One coin *)

Lemma IsValid_run c : reDnm (Denom c) = true → 0 <= Amount c → Coin1.IsValid c = true.
Proof.
  intros Hd Ha. unfold Coin1.IsValid, Coin1.Validate.
  rewrite (bind_run _ _ () (proj2 (ValidateDenom_Ok _ _) Hd)).
  by rewrite (proj2 (Int.IsNegative_false _) Ha).
Qed.

Lemma setBalance_run addr c s : (String.length addr <= 255)%nat → reDnm (Denom c) = true →
  0 <= Amount c → setBalance addr c s = (Ok (), put_balance addr (Denom c) (Amount c) s).
Proof.
  intros Hl Hd Ha. unfold setBalance. rewrite IsValid_run by done. cbn [negb fail_if].
  rewrite lift_bind, getAccountStore_run by done. by rewrite lift_bind.
Qed.

Lemma AddCoin_run d x y : Int.valid (x + y) →
  Coin1.Add (mkCoin d x) (mkCoin d y) = Ok (mkCoin d (x + y)).
Proof.
  intros Hv. unfold Coin1.Add, Coin1.same_denom, Coin1.AddAmount. cbn [Denom Amount].
  rewrite String.eqb_refl. rewrite (bind_run _ _ ()) by done.
  by rewrite (proj2 (Int.Add_Ok x y (x + y))).
Qed.

Lemma add_one_run addr c s : chain_ok s → (String.length addr <= 255)%nat → coin_ok c →
  Int.valid (bal s addr (Denom c) + Amount c) →
  ∃ s', add_one addr c s = (Ok (), s') ∧ accounts s' = accounts s.
Proof.
  intros Hok Hl [Hd Ha] Hv. destruct c as [d y]. cbn [Denom Amount] in *.
  pose proof (bal_range s addr d Hok) as [Hb _]. unfold add_one. cbn [Denom].
  rewrite (Mbind_run _ _ _ _ _ (GetBalance_run addr d s Hl Hd)), AddCoin_run by done.
  rewrite lift_bind. rewrite setBalance_run by (simpl; (done || lia)). eauto.
Qed.

(** [SafeSub] of single coins, equal amounts included. *)
Lemma SafeSub_enough d x y : Int.valid x → 0 <= y <= x →
  ∃ l, Coins.SafeSub [mkCoin d x] [mkCoin d y] = Ok (l, false).
Proof.
  intros Hx Hy. assert (Int.valid y) by (unfold Int.valid in *; lia).
  destruct (decide (x = y)) as [<-|Hne].
  - exists []. unfold Coins.SafeSub. rewrite safeAdd_run by (repeat constructor).
    rewrite (bind_run _ _ []); [done|].
    change (Coins.negative [mkCoin d x]) with [mkCoin d (- x)]. rewrite merge_add_cons.
    cbn [Denom Amount]. destruct (Str.compare_spec d d) as [_|L|L]; try by apply Str.lt_irrefl in L.
    rewrite (bind_run _ _ 0); [|apply Int.Add_Ok; split; [lia|done]].
    by rewrite (bind_run _ _ []).
  - eexists. rewrite SafeSub_one by (done || lia). by rewrite (proj2 (Z.ltb_ge _ _)) by lia.
Qed.

Lemma sub_one_run addr c s : chain_ok s → (String.length addr <= 255)%nat → coin_ok c →
  Amount c <= bal s addr (Denom c) →
  ∃ s', sub_one [] addr c s = (Ok (), s') ∧ accounts s' = accounts s.
Proof.
  intros Hok Hl [Hd Ha] Hle. destruct c as [d y]. cbn [Denom Amount] in *.
  pose proof (bal_range s addr d Hok) as [Hb Hv]. unfold sub_one. cbn [Denom].
  rewrite (Mbind_run _ _ _ _ _ (GetBalance_run addr d s Hl Hd)).
  rewrite AmountOf_run by (constructor || done). cbn [sum_of]. rewrite lift_bind.
  rewrite NewCoin_run by done. rewrite lift_bind. rewrite (SubCoin_run d (bal s addr d) 0) by (done || lia).
  rewrite lift_bind, Z.sub_0_r.
  destruct (SafeSub_enough d (bal s addr d) y) as [l ->]; [done|lia|].
  rewrite lift_bind. cbn [snd fail_if]. rewrite lift_bind.
  rewrite SubCoin_run by (done || lia). rewrite lift_bind.
  rewrite setBalance_run by (simpl; (done || lia)). eauto.
Qed.

Lemma mint_one_run c s : chain_ok s → Int.valid (sup s (Denom c) + Amount c) →
  ∃ s', mint_one c s = (Ok (), s') ∧ accounts s' = accounts s.
Proof.
  intros Hok Hv. destruct c as [d y]. cbn [Denom Amount] in *. unfold mint_one, GetSupply.
  rewrite gets_bind. cbn [Denom]. change (default 0 (supply s !! d)) with (sup s d).
  rewrite AddCoin_run by done. rewrite lift_bind. unfold setSupply, modify. eauto.
Qed.

Lemma burn_one_run c s : chain_ok s → 0 <= Amount c <= sup s (Denom c) →
  ∃ s', burn_one c s = (Ok (), s') ∧ accounts s' = accounts s.
Proof.
  intros Hok Hv. destruct c as [d y]. cbn [Denom Amount] in *. unfold burn_one, GetSupply.
  pose proof (sup_range s d Hok) as [_ Hs].
  rewrite gets_bind. cbn [Denom]. change (default 0 (supply s !! d)) with (sup s d).
  rewrite SubCoin_run by done. rewrite lift_bind. unfold setSupply, modify. eauto.
Qed.

(** ** Coin sets *)

(** A loop succeeds when each round would from the start: the denominations
    of a set are distinct, so earlier rounds do not disturb later ones. *)
Lemma loop_runs (step : Coin → M Chain ()) (need : Z → Z → Coin → Prop) addr σ τ :
  (∀ c s u s', 0 <= Amount c → chain_ok s → step c s = (Ok u, s') →
     chain_ok s' ∧ moves addr σ τ [c] s s') →
  (∀ c s, chain_ok s → coin_ok c → need (bal s addr (Denom c)) (sup s (Denom c)) c →
     ∃ s', step c s = (Ok (), s') ∧ accounts s' = accounts s) →
  ∀ l s, wf l → chain_ok s →
    Forall (λ c, need (bal s addr (Denom c)) (sup s (Denom c)) c) l →
    ∃ s', for_each step l s = (Ok (), s') ∧ accounts s' = accounts s.
Proof.
  intros Heff Hrun l. induction l as [|c l IH]; intros s Hw Hok Hn; [by exists s|].
  apply wf_cons in Hw as (Hc & Hlt & Hw). apply Forall_cons in Hn as [Hnc Hn].
  destruct (Hrun c s Hok Hc Hnc) as (s1 & Hs1 & Hacc).
  destruct (Heff c s () s1) as [Hok1 [Hb _ Hsu]]; [destruct Hc; lia|done|done|].
  destruct (IH s1 Hw Hok1) as (s2 & Hs2 & Hacc2).
  - rewrite !Forall_forall in *. intros c' Hc'.
    assert (sum_of (Denom c') [c] = 0) as Hz.
    { apply sum_of_gt. constructor; [by apply Hlt|done]. }
    rewrite Hb, Hsu, Hz. unfold at_addr. rewrite Hz, !Z.mul_0_r.
    replace (if String.eqb addr addr then 0 else 0) with 0 by (by case_match).
    rewrite !Z.add_0_r. by apply Hn.
  - exists s2. split; [|congruence]. simpl. by rewrite (Mbind_run _ _ _ _ _ Hs1).
Qed.

Section ops.
Context (cfg : Config) (addr_String : string → string).

Lemma wf_IsValid l : wf l → negb (Coins.IsValid l) = false.
Proof. intros H. by rewrite (proj2 (IsValid_wf l) H). Qed.

(** The amounts of a set as a function. *)
Lemma wf_amounts (P : string → Z → Prop) l : wf l → (∀ d, P d (sum_of d l)) →
  Forall (λ c, P (Denom c) (Amount c)) l.
Proof.
  intros [Hs _] HP. apply Forall_forall. intros c Hc. rewrite <-(sum_of_elem c l Hs Hc). apply HP.
Qed.

Lemma addCoins_run addr l s : chain_ok s → (String.length addr <= 255)%nat → wf l →
  (∀ d, Int.valid (bal s addr d + sum_of d l)) →
  ∃ s', addCoins addr_String addr l s = (Ok (), s') ∧ accounts s' = accounts s.
Proof.
  intros Hok Hl Hw Hv. unfold addCoins. rewrite wf_IsValid by done. cbn [fail_if]. rewrite lift_bind.
  destruct (loop_runs (add_one addr) (λ b _ c, Int.valid (b + Amount c)) addr 1 0) with (l := l) (s := s)
    as (s1 & Hs1 & Ha); [| |done|done| |].
  - intros. by eapply add_one_moves.
  - intros. by apply add_one_run.
  - by apply (wf_amounts (λ d a, Int.valid (bal s addr d + a))).
  - rewrite (Mbind_run _ _ _ _ _ Hs1). unfold EmitEvent, modify. eauto.
Qed.

Definition unlocked (s : Chain) (addr : string) : Prop :=
  (String.length addr <= 255)%nat ∧
  ∀ acc, accounts s !! addr = Some acc → acc_vesting acc = None.

Lemma LockedCoins_run addr s : unlocked s addr → LockedCoins addr s = (Ok [], s).
Proof.
  intros [_ H]. unfold LockedCoins. destruct (accounts s !! addr) as [a|]; [|done].
  by rewrite (H a eq_refl).
Qed.

Lemma subUnlockedCoins_run addr l s : chain_ok s → unlocked s addr → wf l →
  (∀ d, sum_of d l <= bal s addr d) →
  ∃ s', subUnlockedCoins addr_String addr l s = (Ok (), s') ∧ accounts s' = accounts s.
Proof.
  intros Hok Hu Hw Hle. unfold subUnlockedCoins. rewrite wf_IsValid by done. cbn [fail_if].
  rewrite lift_bind, (Mbind_run _ _ _ _ _ (LockedCoins_run addr s Hu)).
  destruct (loop_runs (sub_one [] addr) (λ b _ c, Amount c <= b) addr (-1) 0) with (l := l) (s := s)
    as (s1 & Hs1 & Ha); [| |done|done| |].
  - intros. by eapply sub_one_moves.
  - intros. apply sub_one_run; try done. apply Hu.
  - by apply (wf_amounts (λ d a, a <= bal s addr d)).
  - rewrite (Mbind_run _ _ _ _ _ Hs1). unfold EmitEvent, modify. eauto.
Qed.

(** Accounts are added, never changed. *)
Definition grows (s s' : Chain) : Prop :=
  ∀ a acc, accounts s !! a = Some acc → accounts s' !! a = Some acc.

Lemma touch_account_run addr s : ∃ s', touch_account addr s = (Ok (), s') ∧ grows s s'.
Proof.
  unfold touch_account, HasAccount. rewrite gets_bind.
  destruct (accounts s !! addr) as [a|] eqn:E.
  - rewrite bool_decide_true by eauto. exists s. by split; [|intros ??].
  - rewrite bool_decide_false by (by intros [? ?]). eexists. split; [reflexivity|].
    intros a acc Ha. simpl. rewrite lookup_insert_ne; [done|congruence].
Qed.

(** A transfer succeeds when the sender's unlocked balance covers it and the
    recipient's balance does not overflow. *)
Lemma SendCoins_run from to l s : chain_ok s → unlocked s from → (String.length to <= 255)%nat →
  wf l → (∀ d, sum_of d l <= bal s from d) → (∀ d, Int.valid (bal s to d + sum_of d l)) →
  ∃ s', SendCoins addr_String from to l s = (Ok (), s') ∧ grows s s'.
Proof.
  intros Hok Hu Hto Hw Hle Hv. unfold SendCoins.
  destruct (subUnlockedCoins_run from l s) as (s1 & H1 & A1); [done..|].
  rewrite (Mbind_run _ _ _ _ _ H1).
  destruct (subUnlockedCoins_Ok _ _ _ _ _ _ Hok H1) as (_ & Hok1 & [Hb1 _ _]).
  destruct (addCoins_run to l s1) as (s2 & H2 & A2); [done..| |].
  { intros d. rewrite Hb1. unfold at_addr. pose proof (wf_sum_nonneg d l Hw).
    pose proof (bal_range s from d Hok). specialize (Hv d). specialize (Hle d).
    destruct (String.eqb_spec to from) as [->|]; [|by rewrite Z.add_0_r].
    replace (bal s from d + -1 * sum_of d l + sum_of d l) with (bal s from d) by lia. apply H0. }
  rewrite (Mbind_run _ _ _ _ _ H2).
  destruct (touch_account_run to s2) as (s3 & H3 & A3). rewrite (Mbind_run _ _ _ _ _ H3).
  eexists. split; [reflexivity|]. intros a acc Ha. simpl. apply A3. by rewrite A2, A1.
Qed.

(** ** Module accounts *)

Definition may_mint_and_burn (acc : Account) : Prop :=
  acc_vesting acc = None ∧ HasPermission acc Minter = true ∧ HasPermission acc Burner = true.

Definition module_ready (m : string) (s : Chain) : Prop :=
  ∃ ma perms, permAddrs cfg !! m = Some (ma, perms) ∧ (String.length ma <= 255)%nat ∧
    validatePermissions perms = Ok () ∧
    existsb (String.eqb Minter) perms = true ∧ existsb (String.eqb Burner) perms = true ∧
    ∀ acc, accounts s !! ma = Some acc → may_mint_and_burn acc.

Lemma GetModuleAccount_run m s : chain_ok s → module_ready m s →
  ∃ acc s', GetModuleAccount cfg m s = (Ok (Some acc), s') ∧ may_mint_and_burn acc ∧
    accounts s' !! acc_address acc = Some acc ∧ module_ready m s' ∧
    (∀ a, unlocked s a → unlocked s' a) ∧ (String.length (acc_address acc) <= 255)%nat.
Proof.
  intros Hok (ma & perms & Hp & Hl & Hv & Hm & Hb & Hacc).
  unfold GetModuleAccount, GetModuleAccountAndPermissions, GetModuleAddressAndPermissions.
  rewrite Hp. unfold GetAccount. destruct (accounts s !! ma) as [acc|] eqn:E.
  - pose proof (Hacc acc eq_refl) as Hmb. exists acc, s.
    pose proof (ok_acc s Hok ma acc E) as Hma. split_and!; try done.
    + rewrite (Mbind_run _ _ _ (Some acc, perms) s); [done|]. rewrite gets_bind, E.
      rewrite bool_decide_false; [cbn [panic_if]; by rewrite lift_bind|].
      destruct Hmb as (_ & Hx & _). unfold HasPermission in Hx. by destruct (acc_module acc).
    + by rewrite Hma.
    + exists ma, perms. split_and!; try done. intros a' Ha'. apply Hacc. congruence.
    + by rewrite Hma.
  - eexists (mkAccount ma _ (Some (m, perms)) None None 0), _. split.
    { unfold mbind, M_bind, gets, lift. rewrite E, Hv. reflexivity. }
    cbn [acc_address]. split; [by split_and!|]. split; [apply lookup_insert_eq|]. split_and!.
    + exists ma, perms. split_and!; try done. intros a'. simpl. rewrite lookup_insert_eq.
      intros [= <-]. by split_and!.
    + intros a [Ha Hu]. split; [done|]. intros acc'. simpl. rewrite lookup_insert_Some.
      intros [[<- <-]|[_ H]]; [done|by apply Hu].
    + done.
Qed.

(** Once its account exists, a module stays ready while accounts grow. *)
Lemma module_ready_grows m s s' acc : module_ready m s →
  GetModuleAddress cfg m = Some (acc_address acc) → accounts s !! acc_address acc = Some acc →
  grows s s' → module_ready m s'.
Proof.
  intros (ma & perms & Hp & Hl & Hv & Hm & Hb & Hacc) Hma Ha Hg. exists ma, perms.
  split_and!; try done. intros acc'. unfold GetModuleAddress in Hma. rewrite Hp in Hma.
  injection Hma as ->. rewrite (Hg _ _ Ha). intros [= <-]. by apply Hacc.
Qed.

(** The prologue of the module operations, run forward. *)
Lemma module_account_run {A} m (k : Account → M Chain A) s : chain_ok s → module_ready m s →
  ∃ acc s1, (r ← GetModuleAccount cfg m; acc ← lift (or_panic r "module account does not exist");
             k acc) s = k acc s1 ∧ may_mint_and_burn acc ∧
    chain_ok s1 ∧ only_accounts s s1 ∧ GetModuleAddress cfg m = Some (acc_address acc) ∧
    accounts s1 !! acc_address acc = Some acc ∧ module_ready m s1 ∧
    (∀ a, unlocked s a → unlocked s1 a) ∧ (String.length (acc_address acc) <= 255)%nat.
Proof.
  intros Hok Hr. destruct (GetModuleAccount_run m s Hok Hr) as (acc & s1 & H1 & Hmb & Ha & Hr1 & Hu & Hl).
  destruct (GetModuleAccount_Ok _ _ _ _ _ Hok H1) as (Hok1 & Ho & Hma).
  exists acc, s1. rewrite (Mbind_run _ _ _ _ _ H1). cbn [or_panic]. by rewrite lift_bind.
Qed.

Lemma MintCoins_run m ma l s : chain_ok s → module_ready m s → GetModuleAddress cfg m = Some ma →
  wf l → (∀ d, Int.valid (bal s ma d + sum_of d l)) → (∀ d, Int.valid (sup s d + sum_of d l)) →
  ∃ s', MintCoins cfg addr_String m l s = (Ok (), s') ∧ module_ready m s' ∧ unlocked s' ma.
Proof.
  intros Hok Hr Hma Hw Hb Hs. unfold MintCoins.
  destruct (module_account_run m (λ acc,
    _ ← lift (panic_if (negb (HasPermission acc Minter)) "no permission to mint tokens");
    _ ← addCoins addr_String (acc_address acc) l;
    _ ← for_each mint_one l;
    EmitEvent (coin_event addr_String "coinbase" "minter" (acc_address acc) l)) s)
    as (acc & s1 & -> & (Hlk & Hmt & Hbn) & Hok1 & [Eb Es] & Hma' & Ha & Hr1 & _ & Hl); [done..|].
  assert (ma = acc_address acc) as -> by congruence. rewrite Hmt. cbn [negb panic_if].
  rewrite lift_bind.
  destruct (addCoins_run (acc_address acc) l s1) as (s2 & H2 & A2); [done..| |].
  { intros d. unfold bal. rewrite Eb. apply Hb. }
  rewrite (Mbind_run _ _ _ _ _ H2).
  destruct (addCoins_Ok _ _ _ _ _ _ Hok1 H2) as (_ & Hok2 & [_ _ Hs2]).
  destruct (loop_runs mint_one (λ _ u c, Int.valid (u + Amount c)) (acc_address acc) 0 1) with (l := l) (s := s2)
    as (s3 & H3 & A3); [| |done|done| |].
  - intros. by eapply mint_one_Ok.
  - intros. by apply mint_one_run.
  - apply (wf_amounts (λ d a, Int.valid (sup s2 d + a))); [done|]. intros d. rewrite Hs2.
    replace (sup s1 d + 0 * sum_of d l) with (sup s1 d) by lia. unfold sup. rewrite Es. apply Hs.
  - rewrite (Mbind_run _ _ _ _ _ H3). eexists. split; [reflexivity|].
    assert (∀ e, grows s1 (set_events e s3)) as Hg by (intros e x y; simpl; by rewrite A3, A2).
    split; [by eapply module_ready_grows|]. split; [done|]. intros y. simpl. rewrite A3, A2, Ha.
    by intros [= <-].
Qed.

Lemma BurnCoins_run m ma l s : chain_ok s → module_ready m s → GetModuleAddress cfg m = Some ma →
  wf l → (∀ d, sum_of d l <= bal s ma d) → (∀ d, sum_of d l <= sup s d) →
  ∃ s', BurnCoins cfg addr_String m l s = (Ok (), s').
Proof.
  intros Hok Hr Hma Hw Hb Hs. unfold BurnCoins.
  destruct (module_account_run m (λ acc,
    _ ← lift (panic_if (negb (HasPermission acc Burner)) "no permission to burn tokens");
    _ ← subUnlockedCoins addr_String (acc_address acc) l;
    _ ← for_each burn_one l;
    EmitEvent (coin_event addr_String "burn" "burner" (acc_address acc) l)) s)
    as (acc & s1 & -> & (Hlk & Hmt & Hbn) & Hok1 & [Eb Es] & Hma' & Ha & Hr1 & _ & Hl); [done..|].
  assert (ma = acc_address acc) as -> by congruence. rewrite Hbn. cbn [negb panic_if].
  rewrite lift_bind.
  destruct (subUnlockedCoins_run (acc_address acc) l s1) as (s2 & H2 & A2); [done| |done|..].
  { split; [done|]. intros y. rewrite Ha. by intros [= <-]. }
  { intros d. unfold bal. rewrite Eb. apply Hb. }
  rewrite (Mbind_run _ _ _ _ _ H2).
  destruct (subUnlockedCoins_Ok _ _ _ _ _ _ Hok1 H2) as (_ & Hok2 & [_ _ Hs2]).
  destruct (loop_runs burn_one (λ _ u c, Amount c <= u) (acc_address acc) 0 (-1)) with (l := l) (s := s2)
    as (s3 & H3 & A3); [| |done|done| |].
  - intros. by eapply burn_one_Ok.
  - intros c t Ht [_ Hc] Hn. apply burn_one_run; [done|lia].
  - apply (wf_amounts (λ d a, a <= sup s2 d)); [done|]. intros d. rewrite Hs2.
    replace (sup s1 d + 0 * sum_of d l) with (sup s1 d) by lia. unfold sup. rewrite Es. apply Hs.
  - rewrite (Mbind_run _ _ _ _ _ H3). eauto.
Qed.
End ops.

(** ** The bank keeper keeps the contract *)
Section inst.
Context (cfg : Config) (addr_String : string → string).
#[local] Existing Instance Bank_keeper.
#[local] Existing Instance Bank_laws.

#[local] Instance Bank_progress : @BankProgress Chain (Bank_keeper cfg addr_String) (Bank_laws cfg addr_String).
Proof.
  refine (Build_BankProgress Chain _ _ (module_ready cfg) unlocked
    (λ a, (String.length a <= 255)%nat ∧ a ∉ blockedAddrs cfg) _ _ _ _).
  - intros b m ma l. apply MintCoins_run.
  - intros b m ma a l Hok Hma Hp [Hl Hnb] Hw Hle Hv.
    cbn [bk_SendCoinsFromModuleToAccount Bank_keeper]. unfold SendCoinsFromModuleToAccount.
    cbn [bk_GetModuleAddress Bank_keeper] in Hma. rewrite Hma. cbn [or_panic]. rewrite lift_bind.
    unfold BlockedAddr. rewrite bool_decide_false by done. cbn [fail_if]. rewrite lift_bind.
    destruct (SendCoins_run addr_String ma a l b) as (b' & Hb' & _); eauto.
  - intros b a m ma l Hok Hr Hma Hp Hw Hle Hv.
    cbn [bk_SendCoinsFromAccountToModule Bank_keeper]. unfold SendCoinsFromAccountToModule.
    destruct (module_account_run cfg m (λ acc, SendCoins addr_String a (acc_address acc) l) b)
      as (acc & s1 & -> & _ & Hok1 & [Eb Es] & Hma' & Ha & Hr1 & Hu & Hl); [done..|].
    cbn [bk_GetModuleAddress Bank_keeper] in Hma. assert (ma = acc_address acc) as -> by congruence.
    destruct (SendCoins_run addr_String a (acc_address acc) l s1) as (s2 & H2 & Hg);
      [done|by apply Hu|done|done|intros d; unfold bal; rewrite Eb; apply Hle
      |intros d; unfold bal; rewrite Eb; apply Hv|].
    exists s2. split; [done|]. by eapply module_ready_grows.
  - intros b m ma l. apply BurnCoins_run.
Defined.
End inst.
