(* ===== verification/Delegation.v ===== *)
(** * x/bank: delegations

    What [DelegateCoins] and [UndelegateCoins] of keeper/keeper.go do to
    balances and to the vesting data of the delegator. *)

From Stdlib Require Import ZArith Lia Ascii String.
From stdpp Require Import base tactics option list gmap sorting strings.
From S2P Require Import Prelude GoStd Digits SdkInt Coin CoinFacts Vesting VestingFacts Chain Bank BankFacts Keepers BankInst.

Local Open Scope Z_scope.

Module Delegation.
Import VestingFacts.
Section delegation.
Context (addr_String : string → string).

(** Only balances and events change. *)
Definition same_accounts (s s' : Chain) : Prop :=
  accounts s' = accounts s ∧ blockTime s' = blockTime s ∧ blockHeight s' = blockHeight s ∧
  globalAccountNumber s' = globalAccountNumber s.

Lemma delegate_loop_Ok addr l : ∀ found s r s', wf l → chain_ok s → coins_ok found →
  delegate_loop addr found l s = (Ok r, s') →
  chain_ok s' ∧ moves addr (-1) 0 l s s' ∧ coins_ok r ∧ same_accounts s s' ∧
  ∀ d, sum_of d l <= bal s addr d.
Proof.
  induction l as [|c l IH]; intros found s r s' Hw Hok Hf H; cbn [delegate_loop] in H.
  { inv_ok. split_and!; try done; [by apply moves_same|].
    intros d. simpl. by apply bal_range. }
  apply wf_cons in Hw as (Hc & Hlt & Hw). destruct c as [dn am]. destruct Hc as [Hre Hpos].
  cbn [Denom Amount] in *. inv_ok.
  match goal with H : GetBalance _ _ _ = _ |- _ => apply GetBalance_Ok in H as [-> ->] end.
  match goal with H : Coin1.Sub _ _ = Ok _ |- _ => apply SubCoin_Ok in H as (_ & -> & Hge & Hv) end.
  match goal with H : setBalance _ _ _ = _ |- _ => apply setBalance_Ok in H as [-> _] end.
  cbn [Denom Amount] in *. destruct (bal_range s addr dn Hok) as [Hb0 Hbv].
  match goal with H : Coins.Add found _ = Ok ?f |- _ =>
    destruct (set_Add_Ok found [mkCoin dn (bal s addr dn)] f) as (Hwf & Hrf & _); try done; try apply Hf end.
  { apply wf_single; [done|lia]. }
  { by apply in_range_single. }
  match goal with H : delegate_loop _ _ _ _ = _ |- _ => apply IH in H as (Hok' & Hm & Hr & Hsame & Hle) end;
    [|done|by apply chain_ok_put|done].
  split_and!; try done.
  - eapply change_ext; [eapply change_trans; [apply change_put|exact Hm]|..]; intros; unfold at_addr;
      cbn [sum_of Denom Amount]; repeat case_match; lia.
  - intros d. specialize (Hle d). rewrite bal_put, String.eqb_refl in Hle. cbn [sum_of Denom Amount] in *.
    rewrite (String.eqb_sym dn d). destruct (String.eqb_spec d dn) as [E|E]; simpl in Hle; [|lia].
    rewrite E in *. rewrite (sum_of_lt dn l Hlt). lia.
Qed.

(** A vesting account records the change, another one stays as it is. *)
Lemma track_Ok f addr s u s' : chain_ok s → track f addr s = (Ok u, s') →
  chain_ok s' ∧ only_accounts s s' ∧ blockTime s' = blockTime s ∧
  (∀ a, a ≠ addr → accounts s' !! a = accounts s !! a) ∧
  ∃ acc, accounts s !! addr = Some acc ∧
    match acc_vesting acc with
    | None => s' = s
    | Some v => ∃ v', f v = Ok v' ∧ accounts s' !! addr = Some (set_vesting v' acc)
    end.
Proof.
  intros Hok H. unfold track, GetAccount in H.
  apply Mbind_Ok in H as (r & s0 & [-> ->]%gets_Ok & H).
  apply Mbind_Ok in H as (acc & s0 & [Hacc%or_err_Ok ->]%lift_Ok & H).
  pose proof (ok_acc s Hok addr acc Hacc) as Ha.
  destruct (acc_vesting acc) as [v|] eqn:Hv; unfold SetAccount in *; inv_ok.
  2:{ split_and!; try done. exists acc. by rewrite Hv. }
  cbn [set_vesting acc_address]. split_and!; try done.
  - destruct Hok as [H1 H2 H3]. split; [done|done|]. intros a acc'. simpl.
    rewrite lookup_insert_Some. intros [[<- <-]|[_ ?]]; [done|auto].
  - intros a Hne. simpl. by rewrite lookup_insert_ne.
  - exists acc. rewrite Hv. split; [done|]. eexists. split; [done|]. simpl. by rewrite lookup_insert_eq.
Qed.

(** The three stages of a delegation. *)
Lemma DelegateCoins_stages del m amt s u s' : chain_ok s →
  DelegateCoins addr_String del m amt s = (Ok u, s') → ∃ found s1 s2,
  wf amt ∧ delegate_loop del [] amt s = (Ok found, s1) ∧
  trackDelegation del found amt s1 = (Ok (), s2) ∧
  addCoins addr_String m amt (set_events (events s2 ++ [coin_event addr_String "coin_spent" "spender" del amt]) s2)
    = (Ok u, s').
Proof.
  intros Hok H. unfold DelegateCoins, GetAccount, EmitEvent in H.
  apply Mbind_Ok in H as (r & s0 & [_ ->]%gets_Ok & H).
  apply Mbind_Ok in H as (a & s0 & [_ ->]%lift_Ok & H).
  apply Mbind_Ok in H as (v & s0 & [Hv ->]%lift_Ok & H). apply fail_if_Ok, IsValid_wf_false in Hv.
  apply Mbind_Ok in H as (none & s0 & [[= <-] ->]%lift_Ok & H).
  apply Mbind_Ok in H as (found & s1 & Hl & H). apply Mbind_Ok in H as ([] & s2 & Ht & H).
  apply Mbind_Ok in H as (w & s3 & ->%modify_Ok & H). by exists found, s1, s2.
Qed.

Lemma UndelegateCoins_stages m del amt s u s' : UndelegateCoins addr_String m del amt s = (Ok u, s') →
  ∃ s1 s2, subUnlockedCoins addr_String m amt s = (Ok (), s1) ∧
    trackUndelegation del amt s1 = (Ok (), s2) ∧ addCoins addr_String del amt s2 = (Ok u, s').
Proof.
  intros H. unfold UndelegateCoins, GetAccount in H.
  apply Mbind_Ok in H as (r & s0 & [_ ->]%gets_Ok & H).
  apply Mbind_Ok in H as (a & s0 & [_ ->]%lift_Ok & H).
  apply Mbind_Ok in H as (v & s0 & [_ ->]%lift_Ok & H).
  apply Mbind_Ok in H as ([] & s1 & H1 & H). apply Mbind_Ok in H as ([] & s2 & H2 & H). eauto.
Qed.

Lemma change_through s s1 s2 s' a b amt : moves a (-1) 0 amt s s1 → only_accounts s1 s2 →
  moves b 1 0 amt s2 s' →
  change s s' (λ x d, at_addr a (λ d, - sum_of d amt) x d + at_addr b (λ d, sum_of d amt) x d) (λ _, 0) (λ _, 0).
Proof.
  intros M1 [Hb Hs] M2.
  eapply change_ext; [eapply change_trans; [exact M1|eapply change_trans; [exact (change_same s1 s2 Hb Hs)|exact M2]]|..];
    intros; unfold at_addr; repeat case_match; lia.
Qed.

(** Money moves as in a transfer. *)
Lemma DelegateCoins_Ok del m amt s u s' : chain_ok s →
  DelegateCoins addr_String del m amt s = (Ok u, s') →
  wf amt ∧ chain_ok s' ∧
  change s s' (λ a d, at_addr del (λ d, - sum_of d amt) a d + at_addr m (λ d, sum_of d amt) a d)
    (λ _, 0) (λ _, 0).
Proof.
  intros Hok H. apply DelegateCoins_stages in H as (found & s1 & s2 & Hw & Hl & Ht & Ha); [|done].
  apply delegate_loop_Ok in Hl as (Hok1 & M1 & _ & _ & _); [|done|done|apply coins_ok_nil].
  unfold trackDelegation in Ht. apply Mbind_Ok in Ht as (t & s0 & [_ ->]%gets_Ok & Ht).
  apply track_Ok in Ht as (Hok2 & Ho & _); [|done].
  apply addCoins_Ok in Ha as (_ & Hok3 & M3); [|by apply chain_ok_events].
  split_and!; [done|done|]. eapply change_through; [exact M1| |exact M3]. exact Ho.
Qed.

Lemma UndelegateCoins_Ok m del amt s u s' : chain_ok s →
  UndelegateCoins addr_String m del amt s = (Ok u, s') →
  wf amt ∧ chain_ok s' ∧
  change s s' (λ a d, at_addr m (λ d, - sum_of d amt) a d + at_addr del (λ d, sum_of d amt) a d)
    (λ _, 0) (λ _, 0).
Proof.
  intros Hok H. apply UndelegateCoins_stages in H as (s1 & s2 & H1 & H2 & H3).
  apply subUnlockedCoins_Ok in H1 as (Hw & Hok1 & M1); [|done].
  apply track_Ok in H2 as (Hok2 & Ho & _); [|done].
  apply addCoins_Ok in H3 as (_ & Hok3 & M3); [|done].
  split_and!; [done|done|]. exact (change_through s s1 s2 s' m del amt M1 Ho M3).
Qed.

End delegation.
End Delegation.
