(* ===== verification/BankProps.v ===== *)
(** * Properties of the bank: invariants over executions, keys, errors *)

From Stdlib Require Import ZArith Lia Ascii String.
From stdpp Require Import base tactics option list gmap strings relations.
From S2P Require Import Prelude GoStd Digits SdkInt Coin CoinFacts CoinProps Chain Bank BankFacts Keepers BankInst Delegation.

Local Open Scope Z_scope.

Section steps.
Context (cfg : Config) (addr_String : string → string).

(** One successful call of a keeper method that other modules use. *)
Inductive bank_step : Chain → Chain → Prop :=
  | step_send from to amt s u s' :
      SendCoins addr_String from to amt s = (Ok u, s') → bank_step s s'
  | step_from_module m to amt s u s' :
      SendCoinsFromModuleToAccount cfg addr_String m to amt s = (Ok u, s') → bank_step s s'
  | step_to_module from m amt s u s' :
      SendCoinsFromAccountToModule cfg addr_String from m amt s = (Ok u, s') → bank_step s s'
  | step_modules m m' amt s u s' :
      SendCoinsFromModuleToModule cfg addr_String m m' amt s = (Ok u, s') → bank_step s s'
  | step_mint m amt s u s' :
      MintCoins cfg addr_String m amt s = (Ok u, s') → bank_step s s'
  | step_burn m amt s u s' :
      BurnCoins cfg addr_String m amt s = (Ok u, s') → bank_step s s'
  | step_delegate del m amt s u s' :
      DelegateCoins addr_String del m amt s = (Ok u, s') → bank_step s s'
  | step_undelegate m del amt s u s' :
      UndelegateCoins addr_String m del amt s = (Ok u, s') → bank_step s s'.

(** The invariant of keeper/invariants.go: the recorded supply is the sum of
    all balances. *)
Definition TotalSupply (s : Chain) : Prop := ∀ d, total s d = sup s d.

(** An operation changes the sum of all balances as it changes the supply. *)
Definition balanced (s s' : Chain) : Prop :=
  chain_ok s' ∧ ∃ dB dT dS, change s s' dB dT dS ∧ ∀ d, dT d = dS d.

Lemma balanced_transfer s s' dB : chain_ok s' → change s s' dB (λ _, 0) (λ _, 0) → balanced s s'.
Proof. intros Hok Hc. split; [done|]. by exists dB, (λ _, 0), (λ _, 0). Qed.

Lemma balanced_moves s s' a σ l : chain_ok s' → moves a σ σ l s s' → balanced s s'.
Proof. intros Hok Hm. split; [done|]. by do 3 eexists. Qed.

Lemma balanced_send from to amt s u s' : chain_ok s →
  SendCoins addr_String from to amt s = (Ok u, s') → balanced s s'.
Proof. intros Hok H. apply SendCoins_Ok in H as (_ & Hok' & Hc); [|done]. by eapply balanced_transfer. Qed.

Lemma balanced_after s s1 s' : only_accounts s s1 → balanced s1 s' → balanced s s'.
Proof.
  intros [Hb Hs] (Hok & dB & dT & dS & [H1 H2 H3] & He). split; [done|]. exists dB, dT, dS.
  split; [|done]. split; intros; rewrite ?H1, ?H2, ?H3; unfold bal, total, sup; by rewrite ?Hb, ?Hs.
Qed.

Lemma bank_step_balanced s s' : bank_step s s' → chain_ok s → balanced s s'.
Proof.
  intros Hstep Hok.
  destruct Hstep as [from to amt s u s' H|m to amt s u s' H|from m amt s u s' H
    |m m' amt s u s' H|m amt s u s' H|m amt s u s' H|del m amt s u s' H|m del amt s u s' H].
  - by eapply balanced_send.
  - apply ToAccount_Ok in H as (ma & _ & _ & H); [|done]. by eapply balanced_send.
  - apply module_account_Ok in H as (acc & s1 & _ & Hok1 & Ho & H); [|done].
    apply (balanced_after _ s1 _ Ho). exact (balanced_send _ _ _ s1 _ _ Hok1 H).
  - unfold SendCoinsFromModuleToModule in H. apply Mbind_Ok in H as (ma & s1 & [_ ->]%lift_Ok & H).
    apply module_account_Ok in H as (acc & s2 & _ & Hok1 & Ho & H); [|done].
    apply (balanced_after _ s2 _ Ho). exact (balanced_send _ _ _ s2 _ _ Hok1 H).
  - apply MintCoins_Ok in H as (ma & _ & _ & ? & Hm); [|done]. by eapply balanced_moves.
  - apply BurnCoins_Ok in H as (ma & _ & _ & ? & Hm); [|done]. by eapply balanced_moves.
  - apply Delegation.DelegateCoins_Ok in H as (_ & ? & Hc); [|done]. by eapply balanced_transfer.
  - apply Delegation.UndelegateCoins_Ok in H as (_ & ? & Hc); [|done]. by eapply balanced_transfer.
Qed.

Lemma bank_step_inv s s' : bank_step s s' → chain_ok s → TotalSupply s →
  chain_ok s' ∧ TotalSupply s'.
Proof.
  intros Hstep Hok Hinv. destruct (bank_step_balanced s s' Hstep Hok) as (Hok' & dB & dT & dS & [_ Ht Hs] & He).
  split; [done|]. intros d. by rewrite Ht, Hs, He, Hinv.
Qed.

(** C27: along any sequence of successful transfers, mints, burns,
    delegations and undelegations, in any order and by any module, every stored amount stays positive and in range,
    and the recorded supply of every denomination stays equal to the sum of all
    balances. *)
Theorem bank_supply_invariant (s s' : Chain) :
  rtc bank_step s s' → chain_ok s → TotalSupply s → chain_ok s' ∧ TotalSupply s'.
Proof.
  induction 1 as [|s t s' Hst _ IH]; [done|]. intros Hok Hinv.
  destruct (bank_step_inv s t Hst Hok Hinv). by apply IH.
Qed.

End steps.

(** A configuration with one module that mints and burns. *)
Definition demo_config : Config :=
  mkConfig (<["reward" := ("RWD", ["burner"; "minter"])]> ∅) {["RWD"]}.

Lemma demo_supply : TotalSupply demo_chain.
Proof.
  intros d. unfold total, demo_chain, sup. cbn [balances supply].
  rewrite total_of_insert by done. cbn [snd]. change (total_of ∅ d) with 0.
  destruct (String.eqb_spec "aeil" d) as [<-|Hne].
  - by rewrite lookup_insert_eq.
  - by rewrite lookup_insert_ne.
Qed.

Lemma bank_supply_invariant_witness :
  TotalSupply (snd (MintCoins demo_config id "reward" [mkCoin "aeil" 5] demo_chain)).
Proof.
  refine (proj2 (bank_supply_invariant demo_config id demo_chain _ (rtc_once _ _ _)
    demo_chain_ok demo_supply)).
  refine (step_mint demo_config id "reward" [mkCoin "aeil" 5] demo_chain () _ _).
  apply run_ok. vm_compute. reflexivity.
Defined.

(** The key under which a balance is stored determines the address and
    the denomination, for every address the SDK admits (1 to 255 bytes): no two
    balances share a key, and the address is read back from the key. *)
Theorem balance_key_injective (a d a' d' k : string) :
  a ≠ "" → a' ≠ "" → balance_key a d = Ok k → balance_key a' d' = Ok k →
  a = a' ∧ d = d' ∧ AddressFromBalancesStore (Str.drop 1 k) = Ok a.
Proof.
  assert (∀ x y, x ≠ "" → balance_key x y = Ok k →
    k = BalancesPrefix +:+ String (byteN (String.length x)) (x +:+ y) ∧
    nat_of_ascii (byteN (String.length x)) = String.length x) as Hkey.
  { intros x y Hx H. unfold balance_key, CreateAccountBalancesPrefix, MustLengthPrefix, LengthPrefix in H.
    destruct (Nat.eqb_spec (String.length x) 0) as [E|_].
    { by destruct x. }
    destruct (Nat.ltb_spec 255 (String.length x)) as [|Hl]; [done|].
    injection H as <-. split; [done|]. unfold byteN. apply nat_ascii_embedding. lia. }
  intros Ha Ha' (-> & Hn)%Hkey (E & Hn')%Hkey; [|done..].
  apply Str.app_inj_l in E. injection E as El E.
  assert (String.length a = String.length a') as Hlen by (rewrite <-Hn, <-Hn'; by rewrite El).
  assert (a = a') as <-.
  { rewrite <-(Str.take_app a d), <-(Str.take_app a' d'). by rewrite Hlen, E. }
  apply Str.app_inj_l in E as <-. split_and!; [done|done|].
  change (Str.drop 1 (BalancesPrefix +:+ String (byteN (String.length a)) (a +:+ d)))
    with (String (byteN (String.length a)) (a +:+ d)).
  unfold AddressFromBalancesStore. rewrite Hn, Str.take_app.
  rewrite (proj2 (Nat.ltb_ge _ _)); [done|]. rewrite Str.length_app. lia.
Qed.

Lemma balance_key_injective_witness : ∃ k, balance_key "alice" "aeil" = Ok k ∧
  AddressFromBalancesStore (Str.drop 1 k) = Ok "alice".
Proof.
  eexists. split; [reflexivity|].
  apply (balance_key_injective "alice" "aeil" "alice" "aeil"); (discriminate || reflexivity).
Defined.

(** A transfer of more than the sender holds reports an error and leaves
    every balance, total and supply as it was (accounts without locked
    coins, one denomination). *)
Theorem SendCoins_insufficient (addr_String : string → string) (s : Chain)
    (from to : string) (c : Coin) :
  chain_ok s → Coins.IsValid [c] = true → Int.valid (Amount c) →
  (String.length from <= 255)%nat →
  (∀ acc, accounts s !! from = Some acc → acc_vesting acc = None) →
  bal s from (Denom c) < Amount c →
  SendCoins addr_String from to [c] s = (Err "insufficient funds", s).
Proof.
  intros Hok Hv Hcv Hlen Hlock Hlt. pose proof Hv as [_ [[Hd Hpos] _]%Forall_cons]%IsValid_wf.
  pose proof (bal_range s from (Denom c) Hok) as [Hb0 Hbv].
  assert (LockedCoins from s = (Ok [], s)) as Hl.
  { unfold LockedCoins. destruct (accounts s !! from) eqn:E; [|done]. by rewrite (Hlock _ eq_refl). }
  assert (sub_one [] from c s = (Err "insufficient funds", s)) as Hsub.
  { unfold sub_one. rewrite (Mbind_run _ _ _ _ _ (GetBalance_run from (Denom c) s Hlen Hd)).
    unfold mbind, M_bind, lift. rewrite AmountOf_run by (constructor || done). cbn [sum_of].
    rewrite NewCoin_run by done. rewrite SubCoin_run by (done || lia). rewrite Z.sub_0_r.
    destruct c as [d y]. cbn [Denom Amount] in *. rewrite SafeSub_one by (done || lia).
    cbn [snd]. by rewrite (proj2 (Z.ltb_lt _ _)). }
  unfold SendCoins, subUnlockedCoins, mbind, M_bind, lift. rewrite Hv. cbn [negb fail_if].
  rewrite Hl. cbn [for_each]. unfold mbind, M_bind. by rewrite Hsub.
Qed.

Lemma SendCoins_insufficient_witness :
  SendCoins id "alice" "bob" [mkCoin "aeil" 11] demo_chain = (Err "insufficient funds", demo_chain).
Proof.
  apply (SendCoins_insufficient id demo_chain "alice" "bob" (mkCoin "aeil" 11)).
  - exact demo_chain_ok.
  - reflexivity.
  - unfold Int.valid. vm_compute. reflexivity.
  - simpl. lia.
  - intros acc H. vm_compute in H. injection H as <-. reflexivity.
  - vm_compute. reflexivity.
Defined.
