(* ===== verification/AccountFacts.v ===== *)
(** * Accounts under the bank's operations

    Transfers, minting and burning may create accounts but never change one:
    sequence numbers, keys and account numbers stay. *)

From Stdlib Require Import ZArith Lia Ascii String.
From stdpp Require Import base tactics option list gmap strings.
From S2P Require Import Prelude GoStd Digits SdkInt Coin MultiSig Chain Bank.

Local Open Scope Z_scope.

(** The same account, possibly with a key where it had none. *)
Record acc_grows (a a' : Account) : Prop := {
  ag_address : acc_address a' = acc_address a;
  ag_number : acc_number a' = acc_number a;
  ag_sequence : acc_sequence a' = acc_sequence a;
  ag_pubkey : ∀ pk, acc_pubkey a = Some pk → acc_pubkey a' = Some pk }.

#[global] Instance acc_grows_preorder : PreOrder acc_grows.
Proof.
  split; [done|]. intros a b c [A1 A2 A3 A4] [B1 B2 B3 B4]. split; [congruence..|].
  intros pk H. auto.
Qed.

(** Accounts are kept, new ones start at sequence 0, and the block is the
    same. *)
Record acc_frame (s s' : Chain) : Prop := {
  af_old : ∀ a acc, accounts s !! a = Some acc → ∃ acc', accounts s' !! a = Some acc' ∧ acc_grows acc acc';
  af_new : ∀ a acc, accounts s !! a = None → accounts s' !! a = Some acc → acc_sequence acc = 0;
  af_height : blockHeight s' = blockHeight s;
  af_time : blockTime s' = blockTime s }.

#[global] Instance acc_frame_preorder : PreOrder acc_frame.
Proof.
  split.
  - intros s. split; [|congruence|done|done]. intros a acc H. exists acc. done.
  - intros s1 s2 s3 [A1 A2 A3 A4] [B1 B2 B3 B4]. split; [| |congruence|congruence].
    + intros a acc (acc1 & H1 & G1)%A1. apply B1 in H1 as (acc2 & H2 & G2). exists acc2.
      split; [done|]. by transitivity acc1.
    + intros a acc H1 H3. destruct (accounts s2 !! a) as [acc2|] eqn:H2; [|by eapply B2].
      apply B1 in H2 as H4. destruct H4 as (acc3 & H4 & G). simplify_eq.
      rewrite (ag_sequence _ _ G). by eapply A2.
Qed.

Definition seq_of (s : Chain) (a : string) : Z :=
  match accounts s !! a with Some acc => acc_sequence acc | None => 0 end.

Lemma acc_frame_seq s s' a : acc_frame s s' → seq_of s' a = seq_of s a.
Proof.
  intros [F1 F2 _ _]. unfold seq_of. destruct (accounts s !! a) as [acc|] eqn:E.
  - destruct (F1 _ _ E) as (acc' & -> & G). apply G.
  - destruct (accounts s' !! a) as [acc'|] eqn:E'; [|done]. by eapply F2.
Qed.

(** Operations that leave the accounts and the block alone. *)
Lemma acc_frame_same s s' : accounts s' = accounts s → blockHeight s' = blockHeight s →
  blockTime s' = blockTime s → acc_frame s s'.
Proof. intros H1 H2 H3. split; rewrite ?H1; [|congruence|done|done]. intros a acc ?. by exists acc. Qed.

(** The same account stored again with more in it. *)
Lemma acc_frame_update s s' a acc acc' : accounts s !! a = Some acc → acc_grows acc acc' →
  accounts s' = <[a := acc']> (accounts s) → blockHeight s' = blockHeight s → blockTime s' = blockTime s →
  acc_frame s s'.
Proof.
  intros Ha Hg Hs Hh Ht. split; [| |done|done]; rewrite Hs; intros b acc1 Hb.
  - destruct (decide (b = a)) as [->|].
    + rewrite lookup_insert_eq. simplify_eq. by exists acc'.
    + rewrite lookup_insert_ne by done. by exists acc1.
  - intros [[-> <-]|[_ ?]]%lookup_insert_Some; congruence.
Qed.

(** What the bank's operations do to accounts: those there are stay as they
    are, and new ones are blank. *)
Record acc_same (s s' : Chain) : Prop := {
  as_old : accounts s ⊆ accounts s';
  as_new : ∀ a acc, accounts s !! a = None → accounts s' !! a = Some acc →
    acc_sequence acc = 0 ∧ acc_pubkey acc = None;
  as_height : blockHeight s' = blockHeight s;
  as_time : blockTime s' = blockTime s }.

#[global] Instance acc_same_preorder : PreOrder acc_same.
Proof.
  split.
  - intros s. split; [done|congruence|done|done].
  - intros s1 s2 s3 [A1 A2 A3 A4] [B1 B2 B3 B4]. split; [by transitivity (accounts s2)| |congruence|congruence].
    intros a acc H1 H3. destruct (accounts s2 !! a) as [acc2|] eqn:H2; [|by eapply B2].
    pose proof (lookup_weaken _ _ _ _ H2 B1). simplify_eq. by eapply A2.
Qed.

Lemma acc_same_frame s s' : acc_same s s' → acc_frame s s'.
Proof.
  intros [A1 A2 A3 A4]. split; [| |done|done].
  - intros a acc H. exists acc. split; [by eapply lookup_weaken|done].
  - intros a acc H1 H2. by destruct (A2 _ _ H1 H2).
Qed.

Lemma acc_same_eq s s' : accounts s' = accounts s → blockHeight s' = blockHeight s →
  blockTime s' = blockTime s → acc_same s s'.
Proof. intros H1 H2 H3. split; rewrite ?H1; [done|congruence|done|done]. Qed.

Lemma acc_same_insert s s' a acc : accounts s !! a = None → accounts s' = <[a := acc]> (accounts s) →
  acc_sequence acc = 0 → acc_pubkey acc = None → blockHeight s' = blockHeight s →
  blockTime s' = blockTime s → acc_same s s'.
Proof.
  intros Ha Hs Hq Hp Hh Ht. split; [| |done|done]; rewrite Hs; [by apply insert_subseteq|].
  intros b acc' Hb [[-> <-]|[_ ?]]%lookup_insert_Some; [done|congruence].
Qed.

Lemma steps_emit l : steps acc_same (EmitEvents l).
Proof. apply steps_modify. intros s. by apply acc_same_eq. Qed.
Lemma steps_emit1 e : steps acc_same (EmitEvent e).
Proof. apply steps_modify. intros s. by apply acc_same_eq. Qed.

Section bank.
Context (cfg : Config) (addr_String : string → string).

Lemma steps_GetBalance addr d : steps acc_same (GetBalance addr d).
Proof. intros s a s' [= _ <-]. done. Qed.
Lemma steps_LockedCoins addr : steps acc_same (LockedCoins addr).
Proof. intros s a s'. unfold LockedCoins. repeat case_match; by intros [= _ <-]. Qed.
Lemma steps_setBalance addr c : steps acc_same (setBalance addr c).
Proof. unfold setBalance. stepping. apply steps_modify. intros s. by apply acc_same_eq. Qed.
Lemma steps_setSupply c : steps acc_same (setSupply c).
Proof. apply steps_modify. intros s. by apply acc_same_eq. Qed.

Lemma steps_subUnlockedCoins addr amt : steps acc_same (subUnlockedCoins addr_String addr amt).
Proof.
  unfold subUnlockedCoins, sub_one. stepping; auto using steps_LockedCoins, steps_GetBalance,
    steps_setBalance, steps_emit1.
Qed.
Lemma steps_addCoins addr amt : steps acc_same (addCoins addr_String addr amt).
Proof. unfold addCoins, add_one. stepping; auto using steps_GetBalance, steps_setBalance, steps_emit1. Qed.

Lemma steps_touch_account addr : steps acc_same (touch_account addr).
Proof.
  intros s u s' H. unfold touch_account, HasAccount in H. inv_ok. case_match eqn:E; inv_ok; [done|].
  unfold NewAccountWithAddress, NewAccount, GetNextAccountNumber, SetAccount in *. inv_ok.
  apply bool_decide_eq_false in E. apply eq_None_not_Some in E. by eapply acc_same_insert.
Qed.

Lemma steps_SendCoins from to amt : steps acc_same (SendCoins addr_String from to amt).
Proof.
  unfold SendCoins. stepping; auto using steps_subUnlockedCoins, steps_addCoins, steps_touch_account, steps_emit.
Qed.

Lemma steps_GetModuleAccount name : steps acc_same (GetModuleAccount cfg name).
Proof.
  intros s r s' H. unfold GetModuleAccount, GetModuleAccountAndPermissions in H.
  destruct (GetModuleAddressAndPermissions cfg name) as [[addr perms]|]; [|by inv_ok].
  unfold GetAccount in H. inv_ok. destruct (accounts _ !! addr) as [a|] eqn:E; inv_ok; [done|].
  unfold NewAccount, GetNextAccountNumber, SetAccount in *. inv_ok. by eapply acc_same_insert.
Qed.

Lemma steps_to_module from m amt : steps acc_same (SendCoinsFromAccountToModule cfg addr_String from m amt).
Proof. unfold SendCoinsFromAccountToModule. stepping; auto using steps_GetModuleAccount, steps_SendCoins. Qed.
Lemma steps_from_module m to amt : steps acc_same (SendCoinsFromModuleToAccount cfg addr_String m to amt).
Proof. unfold SendCoinsFromModuleToAccount. stepping; auto using steps_SendCoins. Qed.
Lemma steps_MintCoins m amt : steps acc_same (MintCoins cfg addr_String m amt).
Proof.
  unfold MintCoins, mint_one, GetSupply.
  stepping; auto using steps_GetModuleAccount, steps_addCoins, steps_setSupply, steps_emit1.
Qed.
Lemma steps_BurnCoins m amt : steps acc_same (BurnCoins cfg addr_String m amt).
Proof.
  unfold BurnCoins, burn_one, GetSupply.
  stepping; auto using steps_GetModuleAccount, steps_subUnlockedCoins, steps_setSupply, steps_emit1.
Qed.
End bank.
