(* ===== verification/Wire.v ===== *)
(** * The protobuf wire format as generated in x/reward/types/*.pb.go

    Varints, length-delimited fields, the decoding loop every generated
    [Unmarshal] consists of, and the skipping of unknown fields.  A generated
    [MarshalToSizedBuffer] fills its buffer from the end; the bytes it leaves
    are the fields in order, and [Size] is their number. *)

From Stdlib Require Import ZArith Lia Ascii String.
From stdpp Require Import base tactics option list strings.
From S2P Require Import Prelude GoStd.

Local Open Scope Z_scope.

Module Wire.

Definition byte_of (z : Z) : ascii := ascii_of_N (Z.to_N z).
Definition byte_val (c : ascii) : Z := Z.of_N (N_of_ascii c).
Definition slen (s : string) : Z := Z.of_nat (String.length s).

(** ** Encoding *)

(** [encodeVarintTx]; a [uint64] takes at most ten bytes. *)
Fixpoint varint_bytes (fuel : nat) (v : Z) : string :=
  match fuel with
  | O => ""
  | S f =>
      if v <? 128 then String (byte_of v) ""
      else String (byte_of (Z.lor (Z.land v 127) 128)) (varint_bytes f (Z.shiftr v 7))
  end.

Definition encodeVarint (v : Z) : string := varint_bytes 10 v.

(** [sovTx]: [(math_bits.Len64(x|1) + 6) / 7]. *)
Definition sov (x : Z) : Z := (Big.bitlen (Z.lor x 1) + 6) / 7.

(** A length-delimited field with a one-byte tag; proto3 omits the empty
    string. *)
Definition enc_bytes (tag : Z) (s : string) : string :=
  String (byte_of tag) (encodeVarint (slen s) +:+ s).
Definition enc_str (tag : Z) (s : string) : string :=
  if String.eqb s "" then "" else enc_bytes tag s.
Definition size_bytes (s : string) : Z := 1 + slen s + sov (slen s).
Definition size_str (s : string) : Z := if String.eqb s "" then 0 else size_bytes s.

(** An [int64] field: the two's complement as a [uint64]. *)
Definition enc_int64 (tag : Z) (v : Z) : string :=
  if v =? 0 then "" else String (byte_of tag) (encodeVarint (wrapu64 v)).
Definition size_int64 (v : Z) : Z := if v =? 0 then 0 else 1 + sov (wrapu64 v).

Fixpoint concat_map {A} (f : A → string) (l : list A) : string :=
  match l with
  | [] => ""
  | x :: l' => f x +:+ concat_map f l'
  end.

(** [Marshal]: a buffer of [Size] bytes, filled from the end with [b], of
    which the first [len(b)] bytes are returned. *)
Definition nul_bytes (n : Z) : string :=
  Nat.iter (Z.to_nat n) (String (byte_of 0)) "".
Definition marshal (size : Z) (b : string) : outcome string :=
  if size <? slen b then Panic "runtime error: slice bounds out of range"
  else Ok (Str.take (String.length b) (nul_bytes (size - slen b) +:+ b)).

(** ** Decoding *)

Definition wrap32 (x : Z) : Z := (x + 2 ^ 31) mod 2 ^ 32 - 2 ^ 31.

(** The varint loop of every generated decoder: at most ten bytes, the bits
    beyond 64 dropped. *)
Fixpoint read_varint_loop (n : nat) (shift acc : Z) (s : string) : outcome (Z * string) :=
  match n with
  | O => Err "proto: integer overflow"
  | S n' =>
      match s with
      | EmptyString => Err "unexpected EOF"
      | String b r =>
          let acc := Z.lor acc (wrapu64 (Z.shiftl (Z.land (byte_val b) 127) shift)) in
          if byte_val b <? 128 then Ok (acc, r)
          else read_varint_loop n' (shift + 7) acc r
      end
  end.

Definition read_varint (s : string) : outcome (Z * string) := read_varint_loop 10 0 0 s.

(** A length and that many bytes; [l] is the length of the whole buffer, for
    the index overflow test. *)
Definition read_bytes (l : Z) (s : string) : outcome (string * string) :=
  '(n, rest) ← read_varint s;
  let n := wrap64 n in
  if n <? 0 then Err "proto: negative length found during unmarshaling"
  else if wrap64 (l - slen rest + n) <? 0
  then Err "proto: negative length found during unmarshaling"
  else if slen rest <? n then Err "unexpected EOF"
  else Ok (Str.take (Z.to_nat n) rest, Str.drop (Z.to_nat n) rest).

(** [skipTx]: the number of bytes of the field at the front, groups
    included. *)
Fixpoint skip_loop (fuel : nat) (depth consumed : Z) (s : string) : outcome Z :=
  match fuel with
  | O => Panic "skip: out of fuel"
  | S f =>
      if String.eqb s "" then Err "unexpected EOF" else
      '(wire, rest) ← read_varint s;
      let consumed := consumed + (slen s - slen rest) in
      let continue (depth consumed : Z) (rest : string) :=
        if 2 ^ 63 <=? consumed then Err "proto: negative length found during unmarshaling"
        else if depth =? 0 then Ok consumed else skip_loop f depth consumed rest in
      let wireType := Z.land wire 7 in
      if wireType =? 0 then
        '(_, rest') ← read_varint rest;
        continue depth (consumed + (slen rest - slen rest')) rest'
      else if wireType =? 1 then continue depth (consumed + 8) (Str.drop 8 rest)
      else if wireType =? 2 then
        '(n, rest') ← read_varint rest;
        let n := wrap64 n in
        if n <? 0 then Err "proto: negative length found during unmarshaling"
        else continue depth (consumed + (slen rest - slen rest') + n) (Str.drop (Z.to_nat n) rest')
      else if wireType =? 3 then continue (depth + 1) consumed rest
      else if wireType =? 4 then
        if depth =? 0 then Err "proto: unexpected end of group"
        else continue (depth - 1) consumed rest
      else if wireType =? 5 then continue depth (consumed + 4) (Str.drop 4 rest)
      else Err "proto: illegal wireType"
  end.

Definition skip (s : string) : outcome Z := skip_loop (S (String.length s)) 0 0 s.

Section decode.
Context {Msg : Type}.
(** The [switch fieldNum] of a message: field number, wire type, buffer
    length, rest of the buffer; [None] for an unknown field. *)
Context (handle : Z → Z → Z → string → Msg → option (outcome (Msg * string))).
Context (add_unknown : string → Msg → Msg).

(** Every round reads at least the byte of the tag, so the length of the
    buffer bounds the rounds. *)
Fixpoint unmarshal_loop (fuel : nat) (l : Z) (s : string) (m : Msg) : outcome Msg :=
  match fuel with
  | O => Panic "unmarshal: out of fuel"
  | S f =>
      if String.eqb s "" then Ok m else
      '(wire, rest) ← read_varint s;
      let fieldNum := wrap32 (Z.shiftr wire 3) in
      let wireType := Z.land wire 7 in
      if wireType =? 4 then Err "proto: wiretype end group for non-group"
      else if fieldNum <=? 0 then Err "proto: illegal tag"
      else
        match handle fieldNum wireType l rest m with
        | Some o => '(m', rest') ← o; unmarshal_loop f l rest' m'
        | None =>
            n ← skip s;
            if wrap64 (l - slen s + n) <? 0
            then Err "proto: negative length found during unmarshaling"
            else if slen s <? n then Err "unexpected EOF"
            else unmarshal_loop f l (Str.drop (Z.to_nat n) s)
                   (add_unknown (Str.take (Z.to_nat n) s) m)
        end
  end.

Definition unmarshal (s : string) (m : Msg) : outcome Msg :=
  unmarshal_loop (S (String.length s)) (slen s) s m.
End decode.

(** The cases of a switch. *)
Definition str_field {Msg} (set : string → Msg → Msg)
    (wt l : Z) (rest : string) (m : Msg) : option (outcome (Msg * string)) :=
  Some (if wt =? 2 then '(v, rest') ← read_bytes l rest; Ok (set v m, rest')
        else Err "proto: wrong wireType").

Definition int64_field {Msg} (set : Z → Msg → Msg)
    (wt : Z) (rest : string) (m : Msg) : option (outcome (Msg * string)) :=
  Some (if wt =? 0 then '(v, rest') ← read_varint rest; Ok (set (wrap64 v) m, rest')
        else Err "proto: wrong wireType").
(** A [uint64] field. *)
Definition uint64_field {Msg} (set : Z → Msg → Msg)
    (wt : Z) (rest : string) (m : Msg) : option (outcome (Msg * string)) :=
  Some (if wt =? 0 then '(v, rest') ← read_varint rest; Ok (set v m, rest')
        else Err "proto: wrong wireType").

(** ** Facts *)

Lemma slen_nonneg s : 0 <= slen s.
Proof. unfold slen. lia. Qed.
Lemma slen_app a b : slen (a +:+ b) = slen a + slen b.
Proof. unfold slen. rewrite Str.length_app. lia. Qed.
Lemma slen_cons c s : slen (String c s) = 1 + slen s.
Proof. unfold slen. simpl. lia. Qed.

Lemma byte_val_of z : 0 <= z < 256 → byte_val (byte_of z) = z.
Proof. intros H. unfold byte_val, byte_of. rewrite N_ascii_embedding by lia. lia. Qed.

(** Disjoint bits: the new group goes above the ones read. *)
Lemma lor_above a b n : 0 <= n → 0 <= a < 2 ^ n → Z.lor a (b * 2 ^ n) = a + b * 2 ^ n.
Proof.
  intros Hn Ha. assert (Z.land a (b * 2 ^ n) = 0) as Hl.
  { apply Z.bits_inj'. intros i Hi. rewrite Z.land_spec, Z.bits_0.
    destruct (Z.lt_ge_cases i n).
    - rewrite Z.mul_pow2_bits_low by lia. apply andb_false_r.
    - rewrite <-(Z.mod_small a (2 ^ n)) by done. by rewrite Z.mod_pow2_bits_high by lia. }
  by rewrite <-Z.lxor_lor, <-Z.add_nocarry_lxor.
Qed.

Lemma low_bits v : 0 <= v → Z.lor (Z.land v 127) 128 = v mod 128 + 128.
Proof.
  intros Hv. change 127 with (Z.ones 7). rewrite Z.land_ones by lia.
  change (2 ^ 7) with 128. change 128 with (1 * 2 ^ 7) at 2 3.
  apply lor_above; [lia|]. change (2 ^ 7) with 128. apply Z.mod_pos_bound. lia.
Qed.

Lemma shiftr7 v : Z.shiftr v 7 = v / 128.
Proof. by rewrite Z.shiftr_div_pow2. Qed.

(** Reading a varint written at bit position [shift]. *)
Lemma read_varint_bytes n shift acc v r :
  0 <= shift → 0 <= acc < 2 ^ shift → 0 <= v < 2 ^ (7 * Z.of_nat n) → (0 < n)%nat →
  acc + v * 2 ^ shift < 2 ^ 64 →
  read_varint_loop n shift acc (varint_bytes n v +:+ r) = Ok (acc + v * 2 ^ shift, r).
Proof.
  revert shift acc v. induction n as [|n IH]; intros shift acc v Hs Ha Hv Hn Hb; [lia|].
  pose proof (Z.pow_pos_nonneg 2 shift ltac:(lia) ltac:(lia)) as Hp.
  cbn [varint_bytes]. destruct (Z.ltb_spec v 128) as [Hlt|Hge].
  - rewrite Str.app_cons. cbn [read_varint_loop]. rewrite byte_val_of by lia.
    change 127 with (Z.ones 7). rewrite Z.land_ones, Z.mod_small by lia.
    rewrite Z.shiftl_mul_pow2, wrapu64_id by
      (try (unfold is_uint64; rewrite andb_true_iff, Z.leb_le, Z.ltb_lt); nia).
    rewrite lor_above by done. by rewrite (proj2 (Z.ltb_lt v 128)).
  - assert (0 <= v mod 128 < 128) as Hm by (apply Z.mod_pos_bound; lia).
    pose proof (Z.div_mod v 128 ltac:(lia)) as Hdm.
    rewrite Str.app_cons. cbn [read_varint_loop]. rewrite low_bits, byte_val_of by lia.
    replace (Z.land (v mod 128 + 128) 127) with (v mod 128).
    2:{ change 127 with (Z.ones 7). rewrite Z.land_ones by lia. change (2 ^ 7) with 128.
        rewrite <-(Z.add_mod_idemp_r _ 128) by lia. change (128 mod 128) with 0.
        rewrite Z.add_0_r, Z.mod_mod by lia. done. }
    assert (0 <= v / 128) by (apply Z.div_pos; lia).
    rewrite Z.shiftl_mul_pow2, wrapu64_id by
      (try (unfold is_uint64; rewrite andb_true_iff, Z.leb_le, Z.ltb_lt); nia).
    rewrite lor_above by done. rewrite (proj2 (Z.ltb_ge _ 128)) by lia. rewrite shiftr7.
    rewrite Nat2Z.inj_succ in Hv.
    replace (7 * Z.succ (Z.of_nat n)) with (7 * Z.of_nat n + 7) in Hv by lia.
    rewrite Z.pow_add_r in Hv by lia. change (2 ^ 7) with 128 in Hv.
    assert (v / 128 < 2 ^ (7 * Z.of_nat n)) by (apply Z.div_lt_upper_bound; lia).
    assert (2 ^ (shift + 7) = 2 ^ shift * 128) as Hp7 by (by rewrite Z.pow_add_r by lia).
    rewrite IH; rewrite ?Hp7; [f_equal; f_equal; nia|lia|nia|lia| |nia].
    destruct n; [simpl in *; lia|lia].
Qed.

Lemma read_encodeVarint v r : 0 <= v < 2 ^ 64 →
  read_varint (encodeVarint v +:+ r) = Ok (v, r).
Proof.
  intros Hv. unfold read_varint, encodeVarint.
  rewrite read_varint_bytes; [f_equal; f_equal; lia|lia|lia| |lia|lia].
  split; [lia|]. apply Z.lt_le_trans with (2 ^ 64); [lia|]. by apply Z.pow_le_mono_r.
Qed.

(** [sov] is the number of bytes of a varint. *)
Lemma sov_step v : 128 <= v → sov v = 1 + sov (v / 128).
Proof.
  intros Hv. unfold sov. assert (1 <= v / 128) by (apply Z.div_le_lower_bound; lia).
  assert (∀ x, 1 <= x → Big.bitlen (Z.lor x 1) = Z.log2 x + 1) as Hb.
  { intros x Hx. unfold Big.bitlen.
    assert (0 < Z.lor x 1).
    { assert (0 <= Z.lor x 1) by (apply Z.lor_nonneg; lia).
      assert (Z.lor x 1 ≠ 0); [|lia]. intros E. apply Z.lor_eq_0_iff in E. lia. }
    rewrite (proj2 (Z.eqb_neq _ _)), Z.abs_eq by lia. rewrite Z.log2_lor by lia.
    change (Z.log2 1) with 0. rewrite Z.max_l by apply Z.log2_nonneg. done. }
  rewrite !Hb by lia. rewrite <-shiftr7, Z.log2_shiftr by lia.
  assert (7 <= Z.log2 v) by (apply Z.log2_le_pow2; [lia|done]).
  rewrite Z.max_r by lia.
  replace (Z.log2 v + 1 + 6) with (Z.log2 v - 7 + 1 + 6 + 1 * 7) by lia.
  rewrite Z.div_add by lia. lia.
Qed.

Lemma sov_small v : 0 <= v < 128 → sov v = 1.
Proof.
  intros Hv. unfold sov.
  assert (1 <= Big.bitlen (Z.lor v 1) <= 7) as Hb.
  { assert (0 <= Z.lor v 1) by (apply Z.lor_nonneg; lia).
    assert (Z.lor v 1 ≠ 0). { intros E. apply Z.lor_eq_0_iff in E. lia. }
    split.
    - unfold Big.bitlen. rewrite (proj2 (Z.eqb_neq _ _)) by done.
      pose proof (Z.log2_nonneg (Z.abs (Z.lor v 1))). lia.
    - apply Big.bitlen_le; [lia|]. rewrite Z.abs_eq by done.
      apply Z.log2_lt_pow2; [lia|]. rewrite Z.log2_lor by lia. change (Z.log2 1) with 0.
      rewrite Z.max_l by apply Z.log2_nonneg.
      destruct (Z.eq_dec v 0) as [->|]; [done|]. apply Z.log2_lt_pow2; lia. }
  symmetry. apply Z.div_unique with (Big.bitlen (Z.lor v 1) - 1); lia.
Qed.

Lemma slen_varint n v : 0 <= v < 2 ^ (7 * Z.of_nat n) → (0 < n)%nat →
  slen (varint_bytes n v) = sov v.
Proof.
  revert v. induction n as [|n IH]; intros v Hv Hn; [lia|]. cbn [varint_bytes].
  destruct (Z.ltb_spec v 128).
  - rewrite sov_small by lia. done.
  - rewrite slen_cons, shiftr7, sov_step by done.
    rewrite Nat2Z.inj_succ in Hv.
    replace (7 * Z.succ (Z.of_nat n)) with (7 * Z.of_nat n + 7) in Hv by lia.
    rewrite Z.pow_add_r in Hv by lia. change (2 ^ 7) with 128 in Hv.
    rewrite IH; [done| |destruct n; [simpl in *; lia|lia]].
    split; [apply Z.div_pos; lia|]. apply Z.div_lt_upper_bound; lia.
Qed.

Lemma slen_encodeVarint v : 0 <= v < 2 ^ 64 → slen (encodeVarint v) = sov v.
Proof.
  intros Hv. apply slen_varint; [|lia]. split; [lia|].
  apply Z.lt_le_trans with (2 ^ 64); [lia|]. by apply Z.pow_le_mono_r.
Qed.

Lemma app_empty s : "" +:+ s = s.
Proof. done. Qed.

Lemma marshal_exact size b : size = slen b → marshal size b = Ok b.
Proof.
  intros ->. unfold marshal. rewrite Z.ltb_irrefl, Z.sub_diag. cbn [nul_bytes Z.to_nat Nat.iter].
  rewrite <-(Str.app_nil_r b) at 2. by rewrite app_empty, Str.take_app.
Qed.

Lemma slen_enc_bytes tag s : slen s < 2 ^ 63 → slen (enc_bytes tag s) = size_bytes s.
Proof.
  intros Hs. pose proof (slen_nonneg s). unfold enc_bytes, size_bytes.
  rewrite slen_cons, slen_app, slen_encodeVarint by lia. lia.
Qed.
Lemma slen_enc_str tag s : slen s < 2 ^ 63 → slen (enc_str tag s) = size_str s.
Proof.
  intros Hs. unfold enc_str, size_str. destruct (String.eqb s ""); [done|].
  by apply slen_enc_bytes.
Qed.
Lemma slen_le_enc_bytes tag s : slen s <= slen (enc_bytes tag s).
Proof.
  unfold enc_bytes. rewrite slen_cons, slen_app. pose proof (slen_nonneg (encodeVarint (slen s))).
  lia.
Qed.
Lemma slen_le_enc_str tag s : slen s <= slen (enc_str tag s).
Proof.
  unfold enc_str. destruct (String.eqb_spec s "") as [->|]; [done|]. apply slen_le_enc_bytes.
Qed.
Lemma slen_enc_int64 tag v : slen (enc_int64 tag v) = size_int64 v.
Proof.
  unfold enc_int64, size_int64. destruct (v =? 0); [done|].
  rewrite slen_cons, slen_encodeVarint; [done|]. unfold wrapu64. apply Z.mod_pos_bound. lia.
Qed.

Lemma read_bytes_enc l s r : slen s + slen r <= l → l < 2 ^ 63 →
  read_bytes l (encodeVarint (slen s) +:+ (s +:+ r)) = Ok (s, r).
Proof.
  intros Hl Hl'. pose proof (slen_nonneg s). pose proof (slen_nonneg r). unfold read_bytes.
  rewrite read_encodeVarint by lia. cbn [mbind outcome_bind]. rewrite slen_app.
  rewrite (wrap64_id (slen s)), (wrap64_id (l - _ + _)) by (unfold is_int64; lia).
  rewrite !(proj2 (Z.ltb_ge _ _)) by lia.
  unfold slen at 1 2. by rewrite Nat2Z.id, Str.take_app, Str.drop_app.
Qed.

(** ** Running the decoding loop field by field *)
Section decodes.
Context {Msg : Type} (handle : Z → Z → Z → string → Msg → option (outcome (Msg * string))).
Context (add_unknown : string → Msg → Msg).

(** With enough fuel, the loop turns [m] and the bytes [s] into [m']. *)
Definition decodes (l : Z) (s : string) (m m' : Msg) : Prop :=
  ∀ fuel, (String.length s < fuel)%nat →
    unmarshal_loop handle add_unknown fuel l s m = Ok m'.

Lemma decodes_nil l m : decodes l "" m m.
Proof. intros [|f] Hf; [simpl in Hf; lia|done]. Qed.

Lemma unmarshal_decodes s m m' :
  decodes (slen s) s m m' → unmarshal handle add_unknown s m = Ok m'.
Proof. intros H. apply H. lia. Qed.

(** One field: tag [8 * fieldNum + wireType] in one byte. *)
Lemma decodes_step l tag body r m m1 m' :
  8 <= tag < 128 → tag mod 8 ≠ 4 →
  handle (tag / 8) (tag mod 8) l (body +:+ r) m = Some (Ok (m1, r)) →
  decodes l r m1 m' → decodes l (String (byte_of tag) body +:+ r) m m'.
Proof.
  intros Ht Hw Hh Hr [|f] Hf; [simpl in Hf; lia|].
  rewrite Str.app_cons in Hf |- *. cbn [unmarshal_loop String.eqb].
  change (String (byte_of tag) (body +:+ r)) with (String (byte_of tag) "" +:+ (body +:+ r)).
  replace (String (byte_of tag) "") with (encodeVarint tag)
    by (unfold encodeVarint; cbn [varint_bytes]; by rewrite (proj2 (Z.ltb_lt tag 128)) by lia).
  rewrite read_encodeVarint by lia. cbn [mbind outcome_bind].
  rewrite Z.shiftr_div_pow2 by lia. change (2 ^ 3) with 8.
  change 7 with (Z.ones 3). rewrite Z.land_ones by lia. change (2 ^ 3) with 8.
  assert (1 <= tag / 8 < 16).
  { split; [apply Z.div_le_lower_bound; lia|apply Z.div_lt_upper_bound; lia]. }
  assert (wrap32 (tag / 8) = tag / 8) as ->.
  { unfold wrap32. rewrite Z.mod_small by lia. lia. }
  rewrite (proj2 (Z.eqb_neq _ 4)), (proj2 (Z.leb_gt _ 0)) by lia. rewrite Hh.
  cbn [mbind outcome_bind]. apply Hr. simpl in Hf. rewrite Str.length_app in Hf. lia.
Qed.

Lemma decodes_bytes l tag set s r m m' :
  8 <= tag < 128 → tag mod 8 = 2 →
  (∀ rest, handle (tag / 8) 2 l rest m = str_field set 2 l rest m) →
  l < 2 ^ 63 → slen (enc_bytes tag s +:+ r) <= l →
  (slen r <= l → decodes l r (set s m) m') → decodes l (enc_bytes tag s +:+ r) m m'.
Proof.
  intros Ht Hw Hh Hl' Hl Hr. rewrite slen_app in Hl. pose proof (slen_le_enc_bytes tag s).
  pose proof (slen_nonneg s). apply decodes_step with (set s m); [done|lia| |apply Hr; lia].
  rewrite Hw, Hh, Str.app_assoc. unfold str_field. cbn [Z.eqb Pos.eqb].
  by rewrite read_bytes_enc by lia.
Qed.

Lemma decodes_str l tag set s r m m' :
  8 <= tag < 128 → tag mod 8 = 2 →
  (∀ rest, handle (tag / 8) 2 l rest m = str_field set 2 l rest m) →
  set "" m = m → l < 2 ^ 63 → slen (enc_str tag s +:+ r) <= l →
  (slen r <= l → decodes l r (set s m) m') → decodes l (enc_str tag s +:+ r) m m'.
Proof.
  intros Ht Hw Hh H0 Hl' Hl Hr. unfold enc_str in *. destruct (String.eqb_spec s "") as [->|].
  - rewrite app_empty in *. rewrite H0 in Hr. by apply Hr.
  - by apply decodes_bytes with set.
Qed.

Lemma decodes_int64 l tag set v r m m' :
  8 <= tag < 128 → tag mod 8 = 0 → is_int64 v = true →
  (∀ rest, handle (tag / 8) 0 l rest m = int64_field set 0 rest m) →
  set 0 m = m → slen (enc_int64 tag v +:+ r) <= l →
  (slen r <= l → decodes l r (set v m) m') → decodes l (enc_int64 tag v +:+ r) m m'.
Proof.
  intros Ht Hw Hv Hh H0 Hl Hr. rewrite slen_app in Hl.
  pose proof (slen_nonneg (enc_int64 tag v)). specialize (Hr ltac:(lia)).
  unfold enc_int64. destruct (Z.eqb_spec v 0) as [->|].
  - rewrite app_empty. by rewrite H0 in Hr.
  - apply decodes_step with (set v m); [done|lia| |done]. rewrite Hw, Hh.
    unfold int64_field. cbn [Z.eqb]. rewrite read_encodeVarint
      by (unfold wrapu64; apply Z.mod_pos_bound; lia).
    cbn [mbind outcome_bind]. by rewrite wrap64_wrapu64.
Qed.

Lemma decodes_uint64 l tag set v r m m' :
  8 <= tag < 128 → tag mod 8 = 0 → is_uint64 v = true →
  (∀ rest, handle (tag / 8) 0 l rest m = uint64_field set 0 rest m) →
  set 0 m = m → slen (enc_int64 tag v +:+ r) <= l →
  (slen r <= l → decodes l r (set v m) m') → decodes l (enc_int64 tag v +:+ r) m m'.
Proof.
  intros Ht Hw Hv Hh H0 Hl Hr. rewrite slen_app in Hl.
  pose proof (slen_nonneg (enc_int64 tag v)). specialize (Hr ltac:(lia)).
  unfold enc_int64. destruct (Z.eqb_spec v 0) as [->|].
  - rewrite app_empty. by rewrite H0 in Hr.
  - apply decodes_step with (set v m); [done|lia| |done]. rewrite Hw, Hh.
    unfold uint64_field. cbn [Z.eqb]. rewrite wrapu64_id by done.
    by rewrite read_encodeVarint by (unfold is_uint64 in Hv; lia).
Qed.

(** A repeated field. *)
Lemma decodes_repeated {A} l (enc : A → string) (add : A → Msg → Msg) (xs : list A) r m m' :
  (∀ x r m m', x ∈ xs → slen (enc x +:+ r) <= l →
     (slen r <= l → decodes l r (add x m) m') → decodes l (enc x +:+ r) m m') →
  slen (concat_map enc xs +:+ r) <= l →
  (slen r <= l → decodes l r (foldl (λ m x, add x m) m xs) m') →
  decodes l (concat_map enc xs +:+ r) m m'.
Proof.
  revert m. induction xs as [|x xs IH]; intros m Hstep Hl Hr; [by apply Hr|].
  cbn [concat_map] in *. rewrite Str.app_assoc in *. apply Hstep; [left|done|].
  intros Hl'. apply IH; [|done|done].
  intros y r' m1 m2 Hy. apply Hstep. by right.
Qed.
End decodes.

(** ** Totality: the decoder consumes input in every round *)

Lemma read_varint_loop_shorter n shift acc s :
  match read_varint_loop n shift acc s with
  | Ok (_, r) => (String.length r < String.length s)%nat
  | Err _ => True
  | Panic _ => False
  end.
Proof.
  revert shift acc s. induction n as [|n IH]; intros shift acc s; [done|].
  destruct s as [|b r]; [done|]. cbn [read_varint_loop].
  destruct (byte_val b <? 128); [simpl; lia|].
  specialize (IH (shift + 7) (Z.lor acc (wrapu64 (Z.shiftl (Z.land (byte_val b) 127) shift))) r).
  destruct (read_varint_loop n _ _ r) as [[v r']| |]; [|done..].
  change (String.length (String b r)) with (S (String.length r)). lia.
Qed.

Lemma length_drop n s : (String.length (Str.drop n s) <= String.length s)%nat.
Proof. revert s. induction n as [|n IH]; intros [|c s]; simpl; [lia..|]. specialize (IH s). lia. Qed.
Lemma length_drop_lt n s :
  (0 < n)%nat → s ≠ "" → (String.length (Str.drop n s) < String.length s)%nat.
Proof.
  destruct n as [|n]; [lia|]. destruct s as [|c s]; [done|]. simpl.
  pose proof (length_drop n s). lia.
Qed.

Definition shorter {A} (s : string) (o : outcome (A * string)) : Prop :=
  match o with
  | Ok (_, r) => (String.length r <= String.length s)%nat
  | Err _ => True
  | Panic _ => False
  end.

Lemma read_varint_shorter s : shorter s (read_varint s).
Proof.
  pose proof (read_varint_loop_shorter 10 0 0 s) as H. unfold shorter, read_varint.
  destruct (read_varint_loop 10 0 0 s) as [[v r]| |]; [lia|done..].
Qed.

Lemma read_bytes_shorter l s : shorter s (read_bytes l s).
Proof.
  pose proof (read_varint_shorter s) as H. unfold read_bytes.
  destruct (read_varint s) as [[n r]| |]; [|done..]. cbn [mbind outcome_bind shorter] in *.
  repeat case_match; simplify_eq/=; try done. pose proof (length_drop (Z.to_nat (wrap64 n)) r). lia.
Qed.

(** [skip] stops with a positive count or an error. *)
Lemma skip_loop_total fuel depth consumed s :
  (String.length s < fuel)%nat → 0 <= consumed →
  match skip_loop fuel depth consumed s with
  | Ok n => consumed < n
  | Err _ => True
  | Panic _ => False
  end.
Proof.
  revert depth consumed s. induction fuel as [|f IH]; intros depth consumed s Hf Hc; [lia|].
  cbn [skip_loop]. destruct (String.eqb_spec s "") as [|Hs]; [done|].
  pose proof (read_varint_loop_shorter 10 0 0 s) as Hr. fold (read_varint s) in Hr.
  destruct (read_varint s) as [[wire r]| |]; [|done..]. cbn [mbind outcome_bind].
  assert (0 < slen s - slen r) as Hpos by (unfold slen; lia).
  set (c1 := consumed + (slen s - slen r)).
  assert (∀ d c r', (String.length r' <= String.length r)%nat → c1 <= c →
    match (if 2 ^ 63 <=? c then Err "proto: negative length found during unmarshaling"
           else if d =? 0 then Ok c else skip_loop f d c r') with
    | Ok n => consumed < n | Err _ => True | Panic _ => False end) as Hk.
  { intros d c r' Hl Hcc. destruct (2 ^ 63 <=? c); [done|].
    destruct (d =? 0); [subst c1; lia|].
    specialize (IH d c r' ltac:(lia) ltac:(subst c1; lia)).
    destruct (skip_loop f d c r'); [subst c1; lia|done..]. }
  assert (∀ r', (String.length r' <= String.length r)%nat → 0 <= slen r - slen r') as Hsl
    by (unfold slen; lia).
  pose proof (read_varint_shorter r) as Hv.
  repeat match goal with
    |- context [if Z.land wire 7 =? ?k then _ else _] => destruct (Z.land wire 7 =? k) end;
    try done; try (apply Hk; [apply length_drop || done|lia]).
  - destruct (read_varint r) as [[? r']| |]; [|done..]. cbn [mbind outcome_bind shorter] in *.
    apply Hk; [done|]. specialize (Hsl r' Hv). lia.
  - destruct (read_varint r) as [[n r']| |]; [|done..]. cbn [mbind outcome_bind shorter] in *.
    destruct (Z.ltb_spec (wrap64 n) 0); [done|]. specialize (Hsl r' Hv).
    apply Hk; [|lia]. pose proof (length_drop (Z.to_nat (wrap64 n)) r'). lia.
  - destruct (depth =? 0); [done|]. apply Hk; [done|lia].
Qed.

Lemma skip_total s : match skip s with Ok n => 0 < n | Err _ => True | Panic _ => False end.
Proof. apply skip_loop_total; lia. Qed.

Definition returns {A} (o : outcome A) : Prop :=
  match o with Panic _ => False | _ => True end.

Section total.
Context {Msg : Type} (handle : Z → Z → Z → string → Msg → option (outcome (Msg * string))).
Context (add_unknown : string → Msg → Msg).
Context (Hhandle : ∀ f w l r m, from_option (shorter r) True (handle f w l r m)).

Lemma unmarshal_loop_total fuel l s m :
  (String.length s < fuel)%nat → returns (unmarshal_loop handle add_unknown fuel l s m).
Proof using Hhandle.
  revert s m. induction fuel as [|f IH]; intros s m Hf; [lia|]. cbn [unmarshal_loop].
  destruct (String.eqb_spec s "") as [|Hs]; [done|].
  pose proof (read_varint_loop_shorter 10 0 0 s) as Hr. fold (read_varint s) in Hr.
  destruct (read_varint s) as [[wire r]| |]; [|done..]. cbn [mbind outcome_bind].
  repeat match goal with |- context [if ?b then Err _ else _] => destruct b; [done|] end.
  pose proof (Hhandle (wrap32 (Z.shiftr wire 3)) (Z.land wire 7) l r m) as Hh.
  destruct (handle _ _ l r m) as [o|]; cbn [from_option] in Hh.
  - destruct o as [[m1 r1]| |]; [|done..]. cbn [mbind outcome_bind shorter] in *.
    apply IH. lia.
  - pose proof (skip_total s) as Hk. destruct (skip s) as [n| |]; [|done..].
    cbn [mbind outcome_bind].
    repeat match goal with |- context [if ?b then Err _ else _] => destruct b; [done|] end.
    apply IH. pose proof (length_drop_lt (Z.to_nat n) s ltac:(lia) Hs). lia.
Qed.

Lemma unmarshal_total s m : returns (unmarshal handle add_unknown s m).
Proof using Hhandle. apply unmarshal_loop_total. lia. Qed.
End total.

Lemma str_field_shorter {Msg} (set : string → Msg → Msg) wt l r m :
  from_option (shorter r) True (str_field set wt l r m).
Proof.
  unfold str_field. cbn [from_option]. destruct (wt =? 2); [|done].
  pose proof (read_bytes_shorter l r) as H. by destruct (read_bytes l r) as [[v r']| |].
Qed.
Lemma int64_field_shorter {Msg} (set : Z → Msg → Msg) wt r m :
  from_option (shorter r) True (int64_field set wt r m).
Proof.
  unfold int64_field. cbn [from_option]. destruct (wt =? 0); [|done].
  pose proof (read_varint_shorter r) as H. by destruct (read_varint r) as [[v r']| |].
Qed.

End Wire.
