(* ===== verification/Proto.v ===== *)
(** * The stored messages of x/reward: types/tx.pb.go and types/query.pb.go

    [RECRecord], [Contributor], [RECMeta] and [Supply] as generated from
    reward.proto: [Marshal], [Size] and [Unmarshal].  A record's last field is
    [XXX_unrecognized].  The handlers of [Unmarshal] are the generated
    [switch fieldNum]; [Wire.unmarshal] is the loop around it. *)

From Stdlib Require Import ZArith Lia Ascii String.
From stdpp Require Import base tactics option list strings.
From S2P Require Import Prelude GoStd Wire.

Local Open Scope Z_scope.
Import Wire.

(** ** Contributor *)
Record Contributor := mkContributor {
  Contributor_Address : string;
  Contributor_EnergyKwh : string;
  Contributor_unrecognized : string;
}.

Definition Contributor_set_Address (v : string) (m : Contributor) : Contributor :=
  let '(mkContributor _ a2 a3) := m in mkContributor v a2 a3.
Definition Contributor_set_EnergyKwh (v : string) (m : Contributor) : Contributor :=
  let '(mkContributor a1 _ a3) := m in mkContributor a1 v a3.
Definition Contributor_set_unrecognized (v : string) (m : Contributor) : Contributor :=
  let '(mkContributor a1 a2 _) := m in mkContributor a1 a2 v.

Definition Contributor_empty : Contributor := mkContributor "" "" "".

Definition Contributor_MarshalToSizedBuffer (m : Contributor) : string :=
  let i := Contributor_unrecognized m in
  let i := enc_str 0x12 (Contributor_EnergyKwh m) +:+ i in
  let i := enc_str 0xa (Contributor_Address m) +:+ i in
  i.

Definition Contributor_Size (m : Contributor) : Z :=
  size_str (Contributor_Address m) +
  size_str (Contributor_EnergyKwh m) +
  slen (Contributor_unrecognized m).

Definition Contributor_Marshal (m : Contributor) : outcome string :=
  marshal (Contributor_Size m) (Contributor_MarshalToSizedBuffer m).

Definition Contributor_handle (fieldNum wireType l : Z) (rest : string) (m : Contributor) :
    option (outcome (Contributor * string)) :=
  match fieldNum with
  | 1 => str_field Contributor_set_Address wireType l rest m
  | 2 => str_field Contributor_set_EnergyKwh wireType l rest m
  | _ => None
  end.

Definition Contributor_add_unknown (b : string) (m : Contributor) : Contributor :=
  Contributor_set_unrecognized (Contributor_unrecognized m +:+ b) m.

Definition Contributor_Unmarshal (s : string) : outcome Contributor :=
  unmarshal Contributor_handle Contributor_add_unknown s Contributor_empty.

(** ** RECMeta *)
Record RECMeta := mkRECMeta {
  RECMeta_FacilityId : string;
  RECMeta_FacilityName : string;
  RECMeta_Location : string;
  RECMeta_TechnologyType : string;
  RECMeta_CapacityMw : string;
  RECMeta_RegistrationDate : string;
  RECMeta_CertifiedId : string;
  RECMeta_IssueDate : string;
  RECMeta_GenerationStartDate : string;
  RECMeta_GenerationEndDate : string;
  RECMeta_MeasuredVolumeMwh : string;
  RECMeta_RetiredDate : string;
  RECMeta_RetirementPurpose : string;
  RECMeta_Status : string;
  RECMeta_Timestamp : string;
  RECMeta_unrecognized : string;
}.

Definition RECMeta_set_FacilityId (v : string) (m : RECMeta) : RECMeta :=
  let '(mkRECMeta _ a2 a3 a4 a5 a6 a7 a8 a9 a10 a11 a12 a13 a14 a15 a16) := m in mkRECMeta v a2 a3 a4 a5 a6 a7 a8 a9 a10 a11 a12 a13 a14 a15 a16.
Definition RECMeta_set_FacilityName (v : string) (m : RECMeta) : RECMeta :=
  let '(mkRECMeta a1 _ a3 a4 a5 a6 a7 a8 a9 a10 a11 a12 a13 a14 a15 a16) := m in mkRECMeta a1 v a3 a4 a5 a6 a7 a8 a9 a10 a11 a12 a13 a14 a15 a16.
Definition RECMeta_set_Location (v : string) (m : RECMeta) : RECMeta :=
  let '(mkRECMeta a1 a2 _ a4 a5 a6 a7 a8 a9 a10 a11 a12 a13 a14 a15 a16) := m in mkRECMeta a1 a2 v a4 a5 a6 a7 a8 a9 a10 a11 a12 a13 a14 a15 a16.
Definition RECMeta_set_TechnologyType (v : string) (m : RECMeta) : RECMeta :=
  let '(mkRECMeta a1 a2 a3 _ a5 a6 a7 a8 a9 a10 a11 a12 a13 a14 a15 a16) := m in mkRECMeta a1 a2 a3 v a5 a6 a7 a8 a9 a10 a11 a12 a13 a14 a15 a16.
Definition RECMeta_set_CapacityMw (v : string) (m : RECMeta) : RECMeta :=
  let '(mkRECMeta a1 a2 a3 a4 _ a6 a7 a8 a9 a10 a11 a12 a13 a14 a15 a16) := m in mkRECMeta a1 a2 a3 a4 v a6 a7 a8 a9 a10 a11 a12 a13 a14 a15 a16.
Definition RECMeta_set_RegistrationDate (v : string) (m : RECMeta) : RECMeta :=
  let '(mkRECMeta a1 a2 a3 a4 a5 _ a7 a8 a9 a10 a11 a12 a13 a14 a15 a16) := m in mkRECMeta a1 a2 a3 a4 a5 v a7 a8 a9 a10 a11 a12 a13 a14 a15 a16.
Definition RECMeta_set_CertifiedId (v : string) (m : RECMeta) : RECMeta :=
  let '(mkRECMeta a1 a2 a3 a4 a5 a6 _ a8 a9 a10 a11 a12 a13 a14 a15 a16) := m in mkRECMeta a1 a2 a3 a4 a5 a6 v a8 a9 a10 a11 a12 a13 a14 a15 a16.
Definition RECMeta_set_IssueDate (v : string) (m : RECMeta) : RECMeta :=
  let '(mkRECMeta a1 a2 a3 a4 a5 a6 a7 _ a9 a10 a11 a12 a13 a14 a15 a16) := m in mkRECMeta a1 a2 a3 a4 a5 a6 a7 v a9 a10 a11 a12 a13 a14 a15 a16.
Definition RECMeta_set_GenerationStartDate (v : string) (m : RECMeta) : RECMeta :=
  let '(mkRECMeta a1 a2 a3 a4 a5 a6 a7 a8 _ a10 a11 a12 a13 a14 a15 a16) := m in mkRECMeta a1 a2 a3 a4 a5 a6 a7 a8 v a10 a11 a12 a13 a14 a15 a16.
Definition RECMeta_set_GenerationEndDate (v : string) (m : RECMeta) : RECMeta :=
  let '(mkRECMeta a1 a2 a3 a4 a5 a6 a7 a8 a9 _ a11 a12 a13 a14 a15 a16) := m in mkRECMeta a1 a2 a3 a4 a5 a6 a7 a8 a9 v a11 a12 a13 a14 a15 a16.
Definition RECMeta_set_MeasuredVolumeMwh (v : string) (m : RECMeta) : RECMeta :=
  let '(mkRECMeta a1 a2 a3 a4 a5 a6 a7 a8 a9 a10 _ a12 a13 a14 a15 a16) := m in mkRECMeta a1 a2 a3 a4 a5 a6 a7 a8 a9 a10 v a12 a13 a14 a15 a16.
Definition RECMeta_set_RetiredDate (v : string) (m : RECMeta) : RECMeta :=
  let '(mkRECMeta a1 a2 a3 a4 a5 a6 a7 a8 a9 a10 a11 _ a13 a14 a15 a16) := m in mkRECMeta a1 a2 a3 a4 a5 a6 a7 a8 a9 a10 a11 v a13 a14 a15 a16.
Definition RECMeta_set_RetirementPurpose (v : string) (m : RECMeta) : RECMeta :=
  let '(mkRECMeta a1 a2 a3 a4 a5 a6 a7 a8 a9 a10 a11 a12 _ a14 a15 a16) := m in mkRECMeta a1 a2 a3 a4 a5 a6 a7 a8 a9 a10 a11 a12 v a14 a15 a16.
Definition RECMeta_set_Status (v : string) (m : RECMeta) : RECMeta :=
  let '(mkRECMeta a1 a2 a3 a4 a5 a6 a7 a8 a9 a10 a11 a12 a13 _ a15 a16) := m in mkRECMeta a1 a2 a3 a4 a5 a6 a7 a8 a9 a10 a11 a12 a13 v a15 a16.
Definition RECMeta_set_Timestamp (v : string) (m : RECMeta) : RECMeta :=
  let '(mkRECMeta a1 a2 a3 a4 a5 a6 a7 a8 a9 a10 a11 a12 a13 a14 _ a16) := m in mkRECMeta a1 a2 a3 a4 a5 a6 a7 a8 a9 a10 a11 a12 a13 a14 v a16.
Definition RECMeta_set_unrecognized (v : string) (m : RECMeta) : RECMeta :=
  let '(mkRECMeta a1 a2 a3 a4 a5 a6 a7 a8 a9 a10 a11 a12 a13 a14 a15 _) := m in mkRECMeta a1 a2 a3 a4 a5 a6 a7 a8 a9 a10 a11 a12 a13 a14 a15 v.

Definition RECMeta_empty : RECMeta := mkRECMeta "" "" "" "" "" "" "" "" "" "" "" "" "" "" "" "".

Definition RECMeta_MarshalToSizedBuffer (m : RECMeta) : string :=
  let i := RECMeta_unrecognized m in
  let i := enc_str 0x7a (RECMeta_Timestamp m) +:+ i in
  let i := enc_str 0x72 (RECMeta_Status m) +:+ i in
  let i := enc_str 0x6a (RECMeta_RetirementPurpose m) +:+ i in
  let i := enc_str 0x62 (RECMeta_RetiredDate m) +:+ i in
  let i := enc_str 0x5a (RECMeta_MeasuredVolumeMwh m) +:+ i in
  let i := enc_str 0x52 (RECMeta_GenerationEndDate m) +:+ i in
  let i := enc_str 0x4a (RECMeta_GenerationStartDate m) +:+ i in
  let i := enc_str 0x42 (RECMeta_IssueDate m) +:+ i in
  let i := enc_str 0x3a (RECMeta_CertifiedId m) +:+ i in
  let i := enc_str 0x32 (RECMeta_RegistrationDate m) +:+ i in
  let i := enc_str 0x2a (RECMeta_CapacityMw m) +:+ i in
  let i := enc_str 0x22 (RECMeta_TechnologyType m) +:+ i in
  let i := enc_str 0x1a (RECMeta_Location m) +:+ i in
  let i := enc_str 0x12 (RECMeta_FacilityName m) +:+ i in
  let i := enc_str 0xa (RECMeta_FacilityId m) +:+ i in
  i.

Definition RECMeta_Size (m : RECMeta) : Z :=
  size_str (RECMeta_FacilityId m) +
  size_str (RECMeta_FacilityName m) +
  size_str (RECMeta_Location m) +
  size_str (RECMeta_TechnologyType m) +
  size_str (RECMeta_CapacityMw m) +
  size_str (RECMeta_RegistrationDate m) +
  size_str (RECMeta_CertifiedId m) +
  size_str (RECMeta_IssueDate m) +
  size_str (RECMeta_GenerationStartDate m) +
  size_str (RECMeta_GenerationEndDate m) +
  size_str (RECMeta_MeasuredVolumeMwh m) +
  size_str (RECMeta_RetiredDate m) +
  size_str (RECMeta_RetirementPurpose m) +
  size_str (RECMeta_Status m) +
  size_str (RECMeta_Timestamp m) +
  slen (RECMeta_unrecognized m).

Definition RECMeta_Marshal (m : RECMeta) : outcome string :=
  marshal (RECMeta_Size m) (RECMeta_MarshalToSizedBuffer m).

Definition RECMeta_handle (fieldNum wireType l : Z) (rest : string) (m : RECMeta) :
    option (outcome (RECMeta * string)) :=
  match fieldNum with
  | 1 => str_field RECMeta_set_FacilityId wireType l rest m
  | 2 => str_field RECMeta_set_FacilityName wireType l rest m
  | 3 => str_field RECMeta_set_Location wireType l rest m
  | 4 => str_field RECMeta_set_TechnologyType wireType l rest m
  | 5 => str_field RECMeta_set_CapacityMw wireType l rest m
  | 6 => str_field RECMeta_set_RegistrationDate wireType l rest m
  | 7 => str_field RECMeta_set_CertifiedId wireType l rest m
  | 8 => str_field RECMeta_set_IssueDate wireType l rest m
  | 9 => str_field RECMeta_set_GenerationStartDate wireType l rest m
  | 10 => str_field RECMeta_set_GenerationEndDate wireType l rest m
  | 11 => str_field RECMeta_set_MeasuredVolumeMwh wireType l rest m
  | 12 => str_field RECMeta_set_RetiredDate wireType l rest m
  | 13 => str_field RECMeta_set_RetirementPurpose wireType l rest m
  | 14 => str_field RECMeta_set_Status wireType l rest m
  | 15 => str_field RECMeta_set_Timestamp wireType l rest m
  | _ => None
  end.

Definition RECMeta_add_unknown (b : string) (m : RECMeta) : RECMeta :=
  RECMeta_set_unrecognized (RECMeta_unrecognized m +:+ b) m.

Definition RECMeta_Unmarshal (s : string) : outcome RECMeta :=
  unmarshal RECMeta_handle RECMeta_add_unknown s RECMeta_empty.

(** ** Supply (query.pb.go) *)
Record Supply := mkSupply {
  Supply_Minted : string;
  Supply_unrecognized : string;
}.

Definition Supply_set_Minted (v : string) (m : Supply) : Supply :=
  let '(mkSupply _ a2) := m in mkSupply v a2.
Definition Supply_set_unrecognized (v : string) (m : Supply) : Supply :=
  let '(mkSupply a1 _) := m in mkSupply a1 v.

Definition Supply_empty : Supply := mkSupply "" "".

Definition Supply_MarshalToSizedBuffer (m : Supply) : string :=
  let i := Supply_unrecognized m in
  let i := enc_str 0xa (Supply_Minted m) +:+ i in
  i.

Definition Supply_Size (m : Supply) : Z :=
  size_str (Supply_Minted m) +
  slen (Supply_unrecognized m).

Definition Supply_Marshal (m : Supply) : outcome string :=
  marshal (Supply_Size m) (Supply_MarshalToSizedBuffer m).

Definition Supply_handle (fieldNum wireType l : Z) (rest : string) (m : Supply) :
    option (outcome (Supply * string)) :=
  match fieldNum with
  | 1 => str_field Supply_set_Minted wireType l rest m
  | _ => None
  end.

Definition Supply_add_unknown (b : string) (m : Supply) : Supply :=
  Supply_set_unrecognized (Supply_unrecognized m +:+ b) m.

Definition Supply_Unmarshal (s : string) : outcome Supply :=
  unmarshal Supply_handle Supply_add_unknown s Supply_empty.

(** ** RECRecord *)
Record RECRecord := mkRECRecord {
  RECRecord_RecId : string;
  RECRecord_IssuedAt : string;
  RECRecord_BlockHeight : Z;
  RECRecord_TotalEnergy : string;
  RECRecord_Contributors : list Contributor;
  RECRecord_SourceTx : list string;
  RECRecord_unrecognized : string;
}.

Definition RECRecord_set_RecId (v : string) (m : RECRecord) : RECRecord :=
  let '(mkRECRecord _ a2 a3 a4 a5 a6 a7) := m in mkRECRecord v a2 a3 a4 a5 a6 a7.
Definition RECRecord_set_IssuedAt (v : string) (m : RECRecord) : RECRecord :=
  let '(mkRECRecord a1 _ a3 a4 a5 a6 a7) := m in mkRECRecord a1 v a3 a4 a5 a6 a7.
Definition RECRecord_set_BlockHeight (v : Z) (m : RECRecord) : RECRecord :=
  let '(mkRECRecord a1 a2 _ a4 a5 a6 a7) := m in mkRECRecord a1 a2 v a4 a5 a6 a7.
Definition RECRecord_set_TotalEnergy (v : string) (m : RECRecord) : RECRecord :=
  let '(mkRECRecord a1 a2 a3 _ a5 a6 a7) := m in mkRECRecord a1 a2 a3 v a5 a6 a7.
Definition RECRecord_set_Contributors (v : list Contributor) (m : RECRecord) : RECRecord :=
  let '(mkRECRecord a1 a2 a3 a4 _ a6 a7) := m in mkRECRecord a1 a2 a3 a4 v a6 a7.
Definition RECRecord_set_SourceTx (v : list string) (m : RECRecord) : RECRecord :=
  let '(mkRECRecord a1 a2 a3 a4 a5 _ a7) := m in mkRECRecord a1 a2 a3 a4 a5 v a7.
Definition RECRecord_set_unrecognized (v : string) (m : RECRecord) : RECRecord :=
  let '(mkRECRecord a1 a2 a3 a4 a5 a6 _) := m in mkRECRecord a1 a2 a3 a4 a5 a6 v.

Definition RECRecord_empty : RECRecord := mkRECRecord "" "" 0 "" [] [] "".

Definition RECRecord_MarshalToSizedBuffer (m : RECRecord) : string :=
  let i := RECRecord_unrecognized m in
  let i := concat_map (enc_bytes 0x32) (RECRecord_SourceTx m) +:+ i in
  let i := concat_map (λ c, enc_bytes 0x2a (Contributor_MarshalToSizedBuffer c))
             (RECRecord_Contributors m) +:+ i in
  let i := enc_str 0x22 (RECRecord_TotalEnergy m) +:+ i in
  let i := enc_int64 0x18 (RECRecord_BlockHeight m) +:+ i in
  let i := enc_str 0x12 (RECRecord_IssuedAt m) +:+ i in
  let i := enc_str 0xa (RECRecord_RecId m) +:+ i in
  i.

(** The sum a [for _, e := range] loop adds up. *)
Definition sum_map {A} (f : A → Z) (l : list A) : Z := foldr (λ x n, f x + n) 0 l.

Definition RECRecord_Size (m : RECRecord) : Z :=
  size_str (RECRecord_RecId m) +
  size_str (RECRecord_IssuedAt m) +
  size_int64 (RECRecord_BlockHeight m) +
  size_str (RECRecord_TotalEnergy m) +
  sum_map (λ e, let l := Contributor_Size e in 1 + l + sov l) (RECRecord_Contributors m) +
  sum_map (λ s, let l := slen s in 1 + l + sov l) (RECRecord_SourceTx m) +
  slen (RECRecord_unrecognized m).

Definition RECRecord_Marshal (m : RECRecord) : outcome string :=
  marshal (RECRecord_Size m) (RECRecord_MarshalToSizedBuffer m).

Definition RECRecord_add_SourceTx (s : string) (m : RECRecord) : RECRecord :=
  RECRecord_set_SourceTx (RECRecord_SourceTx m ++ [s]) m.
Definition RECRecord_add_Contributor (c : Contributor) (m : RECRecord) : RECRecord :=
  RECRecord_set_Contributors (RECRecord_Contributors m ++ [c]) m.

Definition Contributor_field (wireType l : Z) (rest : string) (m : RECRecord) :
    option (outcome (RECRecord * string)) :=
  Some (if wireType =? 2 then
          '(v, rest') ← read_bytes l rest;
          c ← Contributor_Unmarshal v;
          Ok (RECRecord_add_Contributor c m, rest')
        else Err "proto: wrong wireType").

Definition RECRecord_handle (fieldNum wireType l : Z) (rest : string) (m : RECRecord) :
    option (outcome (RECRecord * string)) :=
  match fieldNum with
  | 1 => str_field RECRecord_set_RecId wireType l rest m
  | 2 => str_field RECRecord_set_IssuedAt wireType l rest m
  | 3 => int64_field RECRecord_set_BlockHeight wireType rest m
  | 4 => str_field RECRecord_set_TotalEnergy wireType l rest m
  | 5 => Contributor_field wireType l rest m
  | 6 => str_field RECRecord_add_SourceTx wireType l rest m
  | _ => None
  end.

Definition RECRecord_add_unknown (b : string) (m : RECRecord) : RECRecord :=
  RECRecord_set_unrecognized (RECRecord_unrecognized m +:+ b) m.

Definition RECRecord_Unmarshal (s : string) : outcome RECRecord :=
  unmarshal RECRecord_handle RECRecord_add_unknown s RECRecord_empty.

(** ** Sizes *)

Lemma slen_concat_map {A} (f : A → string) (g : A → Z) (l : list A) :
  Forall (λ x, slen (f x) = g x) l → slen (concat_map f l) = sum_map g l.
Proof.
  unfold sum_map. induction 1 as [|x l Hx _ IH]; [done|]. cbn [concat_map foldr].
  by rewrite slen_app, Hx, IH.
Qed.
Lemma sum_map_elem {A} (f : A → Z) (l : list A) x :
  (∀ x, 0 <= f x) → x ∈ l → f x <= sum_map f l.
Proof.
  intros Hf. unfold sum_map. induction 1 as [y l|y z l _ IH]; cbn [foldr].
  - assert (∀ l, 0 <= foldr (λ x n, f x + n) 0 l) as H.
    { induction l0 as [|z l0]; cbn [foldr]; [lia|]. specialize (Hf z). lia. }
    specialize (H l). lia.
  - specialize (Hf z). lia.
Qed.

(** ** Size is the length of the encoding, and decoding inverts it *)

Ltac fields_fit :=
  repeat match goal with
  | H : context [slen (_ +:+ _)] |- _ => rewrite slen_app in H
  end;
  repeat match goal with
  | _ : context [slen (enc_str ?t ?s)] |- _ =>
      lazymatch goal with
      | _ : slen s <= slen (enc_str t s) |- _ => fail
      | _ => pose proof (slen_le_enc_str t s); pose proof (slen_nonneg (enc_str t s))
      end
  end.

Ltac decode_str :=
  eapply decodes_str;
    [lia|done|intros; reflexivity|reflexivity|assumption|assumption|intros ?].

(** What [Marshal], [Size] and [Unmarshal] of one message type owe. *)
Definition codec_ok {A} (size : A → Z) (enc : A → string) (marshal : A → outcome string)
    (unrecognized : A → string) (unmarshal : string → outcome A) (m : A) : Prop :=
  slen (enc m) < 2 ^ 63 →
  size m = slen (enc m) ∧ marshal m = Ok (enc m) ∧
  (unrecognized m = "" → unmarshal (enc m) = Ok m).

(** The common shape: all fields are strings. *)
Ltac string_codec size enc unmarsh unrec :=
  intros Hl;
  lazymatch type of Hl with slen (_ ?m) < _ =>
    assert (size m = slen (enc m)) as Hs;
    [ unfold size, enc in *; fields_fit; pose proof (slen_nonneg (unrec m));
      rewrite !slen_app, !slen_enc_str by lia; lia
    | split_and!; [done|by apply marshal_exact|]; intros Hu;
      unfold unmarsh; apply unmarshal_decodes;
      set (l := slen _) in *;
      assert (slen (enc m) <= l) as Hle by (subst l; lia); clearbody l; clear Hs; unfold enc in *;
      destruct m; simpl in Hu; subst; cbn in Hle |- *;
      repeat decode_str; apply decodes_nil ]
  end.

Lemma Contributor_codec m :
  codec_ok Contributor_Size Contributor_MarshalToSizedBuffer Contributor_Marshal
    Contributor_unrecognized Contributor_Unmarshal m.
Proof.
  string_codec Contributor_Size Contributor_MarshalToSizedBuffer Contributor_Unmarshal
    Contributor_unrecognized.
Qed.

Lemma Supply_codec m :
  codec_ok Supply_Size Supply_MarshalToSizedBuffer Supply_Marshal
    Supply_unrecognized Supply_Unmarshal m.
Proof.
  string_codec Supply_Size Supply_MarshalToSizedBuffer Supply_Unmarshal Supply_unrecognized.
Qed.

Lemma RECMeta_codec m :
  codec_ok RECMeta_Size RECMeta_MarshalToSizedBuffer RECMeta_Marshal
    RECMeta_unrecognized RECMeta_Unmarshal m.
Proof.
  string_codec RECMeta_Size RECMeta_MarshalToSizedBuffer RECMeta_Unmarshal RECMeta_unrecognized.
Qed.

Lemma Contributor_field_run l c r m :
  slen (enc_bytes 0x2a (Contributor_MarshalToSizedBuffer c) +:+ r) <= l → l < 2 ^ 63 →
  Contributor_unrecognized c = "" →
  ∀ m', (slen r <= l →
    decodes RECRecord_handle RECRecord_add_unknown l r (RECRecord_add_Contributor c m) m') →
  decodes RECRecord_handle RECRecord_add_unknown l
    (enc_bytes 0x2a (Contributor_MarshalToSizedBuffer c) +:+ r) m m'.
Proof.
  intros Hl Hl' Hu m' Hr. rewrite slen_app in Hl.
  set (b := Contributor_MarshalToSizedBuffer c) in *.
  pose proof (slen_le_enc_bytes 0x2a b). pose proof (slen_nonneg b).
  pose proof (slen_nonneg r). specialize (Hr ltac:(lia)).
  apply decodes_step with (RECRecord_add_Contributor c m); [lia|done| |done].
  change (0x2a / 8) with 5. change (0x2a mod 8) with 2. cbn [RECRecord_handle].
  unfold Contributor_field. cbn [Z.eqb Pos.eqb]. rewrite Str.app_assoc.
  rewrite read_bytes_enc by lia. cbn [mbind outcome_bind].
  destruct (Contributor_codec c ltac:(subst b; lia)) as (_ & _ & Hc).
  subst b. by rewrite (Hc Hu).
Qed.

Lemma foldl_add_Contributors cs m :
  foldl (λ m c, RECRecord_add_Contributor c m) m cs =
  RECRecord_set_Contributors (RECRecord_Contributors m ++ cs) m.
Proof.
  revert m. induction cs as [|c cs IH]; intros m; cbn [foldl].
  - rewrite app_nil_r. by destruct m.
  - rewrite IH. destruct m. unfold RECRecord_add_Contributor. cbn. by rewrite <-app_assoc.
Qed.
Lemma foldl_add_SourceTx ts m :
  foldl (λ m t, RECRecord_add_SourceTx t m) m ts =
  RECRecord_set_SourceTx (RECRecord_SourceTx m ++ ts) m.
Proof.
  revert m. induction ts as [|t ts IH]; intros m; cbn [foldl].
  - rewrite app_nil_r. by destruct m.
  - rewrite IH. destruct m. unfold RECRecord_add_SourceTx. cbn. by rewrite <-app_assoc.
Qed.

Lemma slen_concat_elem {A} (f : A → string) l x : x ∈ l → slen (f x) <= slen (concat_map f l).
Proof.
  induction 1 as [y l|y z l _ IH]; cbn [concat_map]; rewrite slen_app.
  - pose proof (slen_nonneg (concat_map f l)). lia.
  - pose proof (slen_nonneg (f z)). lia.
Qed.

Lemma RECRecord_Size_length m :
  slen (RECRecord_MarshalToSizedBuffer m) < 2 ^ 63 →
  RECRecord_Size m = slen (RECRecord_MarshalToSizedBuffer m).
Proof.
  unfold RECRecord_Size, RECRecord_MarshalToSizedBuffer. intros Hl. fields_fit.
  set (fc := λ c, enc_bytes 0x2a (Contributor_MarshalToSizedBuffer c)) in *.
  pose proof (slen_nonneg (RECRecord_unrecognized m)).
  pose proof (slen_nonneg (concat_map fc (RECRecord_Contributors m))).
  pose proof (slen_nonneg (concat_map (enc_bytes 0x32) (RECRecord_SourceTx m))).
  pose proof (slen_nonneg (enc_int64 0x18 (RECRecord_BlockHeight m))).
  rewrite !slen_app, !slen_enc_str, slen_enc_int64 by lia.
  rewrite <-(slen_concat_map fc), <-(slen_concat_map (enc_bytes 0x32)); [lia|..];
    apply Forall_forall; intros x Hx;
    [pose proof (slen_concat_elem (enc_bytes 0x32) _ _ Hx)
    |pose proof (slen_concat_elem fc _ _ Hx)].
  - pose proof (slen_le_enc_bytes 0x32 x). rewrite slen_enc_bytes by lia. unfold size_bytes. lia.
  - unfold fc in *. pose proof (slen_le_enc_bytes 0x2a (Contributor_MarshalToSizedBuffer x)).
    destruct (Contributor_codec x ltac:(lia)) as (Hs & _). rewrite slen_enc_bytes by lia.
    unfold size_bytes. rewrite Hs. lia.
Qed.

(** What the types of Go give a [RECRecord]; unknown fields absent. *)
Definition RECRecord_plain (m : RECRecord) : Prop :=
  is_int64 (RECRecord_BlockHeight m) = true ∧ RECRecord_unrecognized m = "" ∧
  Forall (λ c, Contributor_unrecognized c = "") (RECRecord_Contributors m).

Lemma RECRecord_roundtrip m :
  slen (RECRecord_MarshalToSizedBuffer m) < 2 ^ 63 → RECRecord_plain m →
  RECRecord_Unmarshal (RECRecord_MarshalToSizedBuffer m) = Ok m.
Proof.
  intros Hl (Hh & Hu & Hcs). unfold RECRecord_Unmarshal. apply unmarshal_decodes.
  set (l := slen _) in *.
  assert (slen (RECRecord_MarshalToSizedBuffer m) <= l) as Hle by (subst l; lia). clearbody l.
  unfold RECRecord_MarshalToSizedBuffer in *. destruct m as [a b h e cs ts u].
  cbn in Hu, Hh, Hcs, Hle |- *. subst u. rewrite Forall_forall in Hcs.
  do 2 decode_str.
  eapply decodes_int64; [lia|done|done|intros; reflexivity|reflexivity|assumption|intros ?].
  decode_str.
  apply decodes_repeated with (add := RECRecord_add_Contributor); [|assumption|intros ?].
  { intros c r m m' Hc Hlr. apply Contributor_field_run; eauto. }
  apply decodes_repeated with (add := RECRecord_add_SourceTx); [|assumption|intros ?].
  { intros t r m m' _ Hlr. eapply decodes_bytes; [lia|done|intros; reflexivity|done|done]. }
  rewrite foldl_add_SourceTx, foldl_add_Contributors. apply decodes_nil.
Qed.

Lemma Contributor_handle_shorter f w l r m :
  from_option (shorter r) True (Contributor_handle f w l r m).
Proof. unfold Contributor_handle. repeat case_match; done || apply str_field_shorter. Qed.
Lemma Supply_handle_shorter f w l r m :
  from_option (shorter r) True (Supply_handle f w l r m).
Proof. unfold Supply_handle. repeat case_match; done || apply str_field_shorter. Qed.
Lemma RECMeta_handle_shorter f w l r m :
  from_option (shorter r) True (RECMeta_handle f w l r m).
Proof. unfold RECMeta_handle. repeat case_match; done || apply str_field_shorter. Qed.

Lemma Contributor_Unmarshal_total s : returns (Contributor_Unmarshal s).
Proof. apply unmarshal_total, Contributor_handle_shorter. Qed.

Lemma Contributor_field_shorter w l r m :
  from_option (shorter r) True (Contributor_field w l r m).
Proof.
  unfold Contributor_field. cbn [from_option]. destruct (w =? 2); [|done].
  pose proof (read_bytes_shorter l r) as H. destruct (read_bytes l r) as [[v r']| |]; [|done..].
  cbn [mbind outcome_bind]. pose proof (Contributor_Unmarshal_total v) as Hc.
  by destruct (Contributor_Unmarshal v).
Qed.

Lemma RECRecord_handle_shorter f w l r m :
  from_option (shorter r) True (RECRecord_handle f w l r m).
Proof.
  unfold RECRecord_handle. repeat case_match;
    done || apply str_field_shorter || apply int64_field_shorter || apply Contributor_field_shorter.
Qed.

(** ** Properties *)

(** The generated decoders of the messages x/reward keeps in its store are
    total: on every byte string, however malformed, [Unmarshal] returns a
    message or an error.  It does not panic and its loop ends, because every
    round (a known field, a skipped field, a group) consumes input. *)
Theorem reward_Unmarshal_total (s : string) :
  returns (RECRecord_Unmarshal s) ∧ returns (Contributor_Unmarshal s) ∧
  returns (RECMeta_Unmarshal s) ∧ returns (Supply_Unmarshal s).
Proof.
  split_and!; [| | |]; apply unmarshal_total.
  - apply RECRecord_handle_shorter.
  - apply Contributor_handle_shorter.
  - apply RECMeta_handle_shorter.
  - apply Supply_handle_shorter.
Qed.

(** [Marshal] and [Unmarshal] of [RECRecord], [RECMeta] and [Supply] are
    inverse.  [Size] is exactly the number of bytes written, so [Marshal]
    never runs out of its buffer nor returns padding; decoding the bytes
    gives back the message, the repeated contributors and source
    transactions in order, for every message without unknown fields whose
    encoding fits in an [int]. *)
Theorem reward_codec_roundtrip (rec : RECRecord) (meta : RECMeta) (sup : Supply) :
  slen (RECRecord_MarshalToSizedBuffer rec) < 2 ^ 63 →
  slen (RECMeta_MarshalToSizedBuffer meta) < 2 ^ 63 →
  slen (Supply_MarshalToSizedBuffer sup) < 2 ^ 63 →
  RECRecord_plain rec → RECMeta_unrecognized meta = "" → Supply_unrecognized sup = "" →
  (∃ b, RECRecord_Marshal rec = Ok b ∧ slen b = RECRecord_Size rec ∧
        RECRecord_Unmarshal b = Ok rec) ∧
  (∃ b, RECMeta_Marshal meta = Ok b ∧ slen b = RECMeta_Size meta ∧
        RECMeta_Unmarshal b = Ok meta) ∧
  (∃ b, Supply_Marshal sup = Ok b ∧ slen b = Supply_Size sup ∧ Supply_Unmarshal b = Ok sup).
Proof.
  intros Hr Hm Hs Hpr Hpm Hps. split_and!.
  - pose proof (RECRecord_Size_length rec Hr) as Hsz.
    exists (RECRecord_MarshalToSizedBuffer rec). split_and!; [|done|by apply RECRecord_roundtrip].
    by apply marshal_exact.
  - destruct (RECMeta_codec meta Hm) as (? & ? & ?). eauto.
  - destruct (Supply_codec sup Hs) as (? & ? & ?). eauto.
Qed.

Definition demo_record : RECRecord :=
  mkRECRecord "rec-7-0" "2024-05-01T00:00:00Z" (-7) "1000000"
    [mkContributor "/alice" "600000.000000" ""; mkContributor "/bob" "400000.000000" ""]
    ["TX1"; ""; "TX2"] "".
Definition demo_meta : RECMeta :=
  mkRECMeta "F1" "" "Seoul" "solar" "3" "" "CERT-9" "" "" "" "12" "" "" "active" "t0" "".

Lemma reward_codec_roundtrip_witness :
  RECRecord_plain demo_record ∧
  (∃ b, RECRecord_Marshal demo_record = Ok b ∧ slen b = RECRecord_Size demo_record ∧
        RECRecord_Unmarshal b = Ok demo_record).
Proof.
  assert (RECRecord_plain demo_record) as Hp
    by (split_and!; [reflexivity|reflexivity|repeat constructor]).
  split; [exact Hp|].
  refine (proj1 (reward_codec_roundtrip demo_record demo_meta (mkSupply "42" "") _ _ _ Hp _ _));
    vm_compute; reflexivity.
Defined.
