(* ===== verification/WireMsg.v ===== *)
(** * Messages inside messages

    The generated code for the fields whose value is a message: repeated, by
    pointer, and with tags of two bytes; and for 32-bit numbers.  What the
    generated code of one message type promises to the messages that contain
    it is a class. *)

From Stdlib Require Import ZArith Lia Ascii String.
From stdpp Require Import base tactics option list strings.
From S2P Require Import Prelude GoStd Wire Proto.

Local Open Scope Z_scope.

Module WireMsg.
Import Wire.

(** ** The interface of a message type *)

(** [Size], [MarshalToSizedBuffer], the zero value, and [Unmarshal], which
    adds to the value it is called on. *)
Class Codec (A : Type) := mkCodec {
  c_Size : A → Z;
  c_enc : A → string;
  c_zero : A;
  c_Unmarshal : A → string → outcome A }.

Definition fits {A} `{Codec A} (a : A) : Prop := slen (c_enc a) < 2 ^ 63.

(** Sizes are exact, decoding inverts encoding on the values that are [plain],
    and decoding returns. *)
Class CodecLaws (A : Type) `{Codec A} := {
  plain : A → Prop;
  codec_size a : fits a → c_Size a = slen (c_enc a);
  codec_inverse a : plain a → fits a → c_Unmarshal c_zero (c_enc a) = Ok a;
  codec_total a s : returns (c_Unmarshal a s) }.

#[global] Hint Mode Codec ! : typeclass_instances.
#[global] Hint Mode CodecLaws ! - : typeclass_instances.

Definition c_Marshal {A} `{Codec A} (a : A) : outcome string := marshal (c_Size a) (c_enc a).

(** ** Encoding *)

(** A field with a tag of two bytes. *)
Definition enc_bytes2 (tag0 tag1 : Z) (s : string) : string :=
  String (byte_of tag0) (String (byte_of tag1) (encodeVarint (slen s) +:+ s)).

Section encode.
Context {A} `{Codec A}.
Definition enc_msg (tag : Z) (a : A) : string := enc_bytes tag (c_enc a).
Definition enc_msg2 (tag0 tag1 : Z) (a : A) : string := enc_bytes2 tag0 tag1 (c_enc a).
Definition enc_opt (tag : Z) (a : option A) : string := match a with Some a => enc_msg tag a | None => "" end.

Definition size_msg (a : A) : Z := let l := c_Size a in 1 + l + sov l.
Definition size_msg2 (a : A) : Z := let l := c_Size a in 2 + l + sov l.
Definition size_opt (a : option A) : Z := match a with Some a => size_msg a | None => 0 end.
End encode.

(** ** Decoding *)

(** [m.X = append(m.X, ...)] of strings and of messages. *)
Definition strs_field {Msg} (get : Msg → list string) (set : list string → Msg → Msg) :
    Z → Z → string → Msg → option (outcome (Msg * string)) :=
  str_field (λ v m, set (get m ++ [v]) m).

Definition msgs_field {A Msg} `{Codec A} (get : Msg → list A) (set : list A → Msg → Msg)
    (wt l : Z) (rest : string) (m : Msg) : option (outcome (Msg * string)) :=
  Some (if wt =? 2 then
          '(v, rest') ← read_bytes l rest;
          a ← c_Unmarshal c_zero v;
          Ok (set (get m ++ [a]) m, rest')
        else Err "proto: wrong wireType").

(** [if m.X == nil { m.X = &X{} }; m.X.Unmarshal(...)] *)
Definition ptr_field {A Msg} `{Codec A} (get : Msg → option A) (set : option A → Msg → Msg)
    (wt l : Z) (rest : string) (m : Msg) : option (outcome (Msg * string)) :=
  Some (if wt =? 2 then
          '(v, rest') ← read_bytes l rest;
          a ← c_Unmarshal (default c_zero (get m)) v;
          Ok (set (Some a) m, rest')
        else Err "proto: wrong wireType").

(** [v := &X{}; v.Unmarshal(...); m.Sum = &M_X{v}], and a nested struct that
    is not behind a pointer. *)
Definition one_field {A Msg} `{Codec A} (set : A → Msg → Msg)
    (wt l : Z) (rest : string) (m : Msg) : option (outcome (Msg * string)) :=
  Some (if wt =? 2 then
          '(v, rest') ← read_bytes l rest;
          a ← c_Unmarshal c_zero v;
          Ok (set a m, rest')
        else Err "proto: wrong wireType").
Definition struct_field {A Msg} `{Codec A} (get : Msg → A) (set : A → Msg → Msg)
    (wt l : Z) (rest : string) (m : Msg) : option (outcome (Msg * string)) :=
  Some (if wt =? 2 then
          '(v, rest') ← read_bytes l rest;
          a ← c_Unmarshal (get m) v;
          Ok (set a m, rest')
        else Err "proto: wrong wireType").

(** An enum, or an [int32], and a [uint32]: the bits above are dropped. *)
Definition int32_field {Msg} (set : Z → Msg → Msg)
    (wt : Z) (rest : string) (m : Msg) : option (outcome (Msg * string)) :=
  Some (if wt =? 0 then '(v, rest') ← read_varint rest; Ok (set (wrap32 v) m, rest')
        else Err "proto: wrong wireType").
Definition uint32_field {Msg} (set : Z → Msg → Msg)
    (wt : Z) (rest : string) (m : Msg) : option (outcome (Msg * string)) :=
  Some (if wt =? 0 then '(v, rest') ← read_varint rest; Ok (set (v mod 2 ^ 32) m, rest')
        else Err "proto: wrong wireType").

(** ** Sizes *)

Lemma slen_enc_bytes2 t0 t1 s : slen s < 2 ^ 63 → slen (enc_bytes2 t0 t1 s) = 2 + slen s + sov (slen s).
Proof.
  intros Hs. pose proof (slen_nonneg s). unfold enc_bytes2.
  rewrite !slen_cons, slen_app, slen_encodeVarint by lia. lia.
Qed.

Lemma slen_le_concat {A} (f : A → string) l : Forall (λ x, slen (f x) <= slen (concat_map f l)) l.
Proof. apply Forall_forall. intros x. apply slen_concat_elem. Qed.

Lemma slen_le_enc_msg {A} `{Codec A} tag (a : A) : slen (c_enc a) <= slen (enc_msg tag a).
Proof. apply slen_le_enc_bytes. Qed.
Lemma slen_le_enc_msg2 {A} `{Codec A} t0 t1 (a : A) : slen (c_enc a) <= slen (enc_msg2 t0 t1 a).
Proof.
  unfold enc_msg2, enc_bytes2. rewrite !slen_cons, slen_app.
  pose proof (slen_nonneg (encodeVarint (slen (c_enc a)))). lia.
Qed.

Section sizes.
Context {A} `{L : CodecLaws A}.

Lemma slen_enc_msg tag (a : A) : slen (enc_msg tag a) < 2 ^ 63 → slen (enc_msg tag a) = size_msg a.
Proof using L.
  intros Hl. pose proof (slen_le_enc_msg tag a). unfold size_msg. rewrite codec_size by (unfold fits; lia).
  unfold enc_msg. rewrite slen_enc_bytes by lia. done.
Qed.
Lemma slen_enc_msg2 t0 t1 (a : A) : slen (enc_msg2 t0 t1 a) < 2 ^ 63 → slen (enc_msg2 t0 t1 a) = size_msg2 a.
Proof using L.
  intros Hl. pose proof (slen_le_enc_msg2 t0 t1 a). unfold size_msg2. rewrite codec_size by (unfold fits; lia).
  unfold enc_msg2. rewrite slen_enc_bytes2 by lia. done.
Qed.
Lemma slen_enc_opt tag (o : option A) : slen (enc_opt tag o) < 2 ^ 63 → slen (enc_opt tag o) = size_opt o.
Proof using L. destruct o; [apply slen_enc_msg|done]. Qed.
Lemma slen_enc_msgs tag (l : list A) : slen (concat_map (enc_msg tag) l) < 2 ^ 63 →
  slen (concat_map (enc_msg tag) l) = sum_map size_msg l.
Proof using L.
  intros Hl. apply slen_concat_map. apply (Forall_impl _ _ _ (slen_le_concat (enc_msg tag) l)).
  intros a Ha. apply slen_enc_msg. by eapply Z.le_lt_trans.
Qed.
Lemma slen_enc_msgs2 t0 t1 (l : list A) : slen (concat_map (enc_msg2 t0 t1) l) < 2 ^ 63 →
  slen (concat_map (enc_msg2 t0 t1) l) = sum_map size_msg2 l.
Proof using L.
  intros Hl. apply slen_concat_map. apply (Forall_impl _ _ _ (slen_le_concat (enc_msg2 t0 t1) l)).
  intros a Ha. apply slen_enc_msg2. by eapply Z.le_lt_trans.
Qed.
End sizes.

Lemma slen_enc_strs tag l : slen (concat_map (enc_bytes tag) l) < 2 ^ 63 →
  slen (concat_map (enc_bytes tag) l) = sum_map size_bytes l.
Proof.
  intros Hl. apply slen_concat_map. apply (Forall_impl _ _ _ (slen_le_concat (enc_bytes tag) l)).
  intros s Hs. pose proof (slen_le_enc_bytes tag s). cbn beta in *. rewrite slen_enc_bytes by lia. done.
Qed.

(** ** Decoding field by field *)

Lemma encodeVarint_pos v : 1 <= slen (encodeVarint v).
Proof.
  unfold encodeVarint. cbn [varint_bytes]. case_match; rewrite slen_cons;
    match goal with |- context [slen ?s] => pose proof (slen_nonneg s) end; lia.
Qed.
Lemma encodeVarint_length v : (1 <= String.length (encodeVarint v))%nat.
Proof. pose proof (encodeVarint_pos v). unfold slen in *. lia. Qed.

Section decodes.
Context {Msg : Type} (handle : Z → Z → Z → string → Msg → option (outcome (Msg * string))).
Context (add_unknown : string → Msg → Msg).
Abbreviation decodes := (decodes handle add_unknown).

(** One field with any tag. *)
Lemma decodes_tag l tag tagBytes body r m m1 m' :
  encodeVarint tag = tagBytes → 8 <= tag < 2 ^ 31 → tag mod 8 ≠ 4 →
  handle (tag / 8) (tag mod 8) l (body +:+ r) m = Some (Ok (m1, r)) →
  decodes l r m1 m' → decodes l ((tagBytes +:+ body) +:+ r) m m'.
Proof.
  intros <- Ht Hw Hh Hr [|f] Hf; [simpl in Hf; lia|]. rewrite Str.app_assoc in Hf |- *. cbn [unmarshal_loop].
  pose proof (encodeVarint_pos tag) as Hpos.
  destruct (String.eqb_spec (encodeVarint tag +:+ (body +:+ r)) "") as [E|_].
  { apply (f_equal slen) in E. rewrite slen_app in E. pose proof (slen_nonneg (body +:+ r)). change (slen "") with 0 in E. lia. }
  rewrite read_encodeVarint by lia. cbn [mbind outcome_bind].
  rewrite Z.shiftr_div_pow2 by lia. change (2 ^ 3) with 8.
  change 7 with (Z.ones 3). rewrite Z.land_ones by lia. change (2 ^ 3) with 8.
  assert (1 <= tag / 8 < 2 ^ 31).
  { split; [apply Z.div_le_lower_bound; lia|apply Z.div_lt_upper_bound; lia]. }
  assert (wrap32 (tag / 8) = tag / 8) as ->.
  { unfold wrap32. rewrite Z.mod_small by lia. lia. }
  rewrite (proj2 (Z.eqb_neq _ 4)), (proj2 (Z.leb_gt _ 0)) by lia. rewrite Hh.
  cbn [mbind outcome_bind]. apply Hr. unfold slen in Hpos. rewrite !Str.length_app in Hf. lia.
Qed.

Lemma decodes_strs l tag get set xs r m m' :
  8 <= tag < 128 → tag mod 8 = 2 →
  (∀ m rest, handle (tag / 8) 2 l rest m = strs_field get set 2 l rest m) →
  set [] m = m → (∀ ys, get (set ys m) = ys) → (∀ ys zs, set zs (set ys m) = set zs m) →
  l < 2 ^ 63 → slen (concat_map (enc_bytes tag) xs +:+ r) <= l →
  (slen r <= l → decodes l r (set xs m) m') → decodes l (concat_map (enc_bytes tag) xs +:+ r) m m'.
Proof.
  intros Ht Hw Hh H0 Hgs Hss Hl' Hl Hr. rewrite <- H0.
  change xs with ([] ++ xs) in Hr. revert Hl Hr. generalize (@nil string) as ys.
  induction xs as [|x xs IH]; intros ys Hl Hr; cbn [concat_map] in *.
  { rewrite app_nil_r in Hr. by apply Hr. }
  rewrite Str.app_assoc in *. eapply decodes_bytes; [done|done|intros rest; apply Hh|done|done|].
  intros Hl1. cbn beta. rewrite Hgs, Hss. apply IH; [done|]. by rewrite <- app_assoc.
Qed.

Lemma decodes_int32 l tag set v r m m' :
  8 <= tag < 128 → tag mod 8 = 0 → -2 ^ 31 <= v < 2 ^ 31 →
  (∀ rest, handle (tag / 8) 0 l rest m = int32_field set 0 rest m) →
  set 0 m = m → slen (enc_int64 tag v +:+ r) <= l →
  (slen r <= l → decodes l r (set v m) m') → decodes l (enc_int64 tag v +:+ r) m m'.
Proof.
  intros Ht Hw Hv Hh H0 Hl Hr. rewrite slen_app in Hl.
  pose proof (slen_nonneg (enc_int64 tag v)). specialize (Hr ltac:(lia)).
  unfold enc_int64. destruct (Z.eqb_spec v 0) as [->|]; [by rewrite app_empty; rewrite H0 in Hr|].
  apply decodes_step with (set v m); [done|lia| |done]. rewrite Hw, Hh. unfold int32_field. cbn [Z.eqb].
  rewrite read_encodeVarint by (unfold wrapu64; apply Z.mod_pos_bound; lia). cbn [mbind outcome_bind].
  assert (wrap32 (wrapu64 v) = v) as ->; [|done]. unfold wrap32, wrapu64.
  rewrite <- Zplus_mod_idemp_l, Z.mod_mod_divide, Zplus_mod_idemp_l by (by exists (2 ^ 32)).
  rewrite Z.mod_small by lia. lia.
Qed.

Lemma decodes_uint32 l tag set v r m m' :
  8 <= tag < 128 → tag mod 8 = 0 → 0 <= v < 2 ^ 32 →
  (∀ rest, handle (tag / 8) 0 l rest m = uint32_field set 0 rest m) →
  set 0 m = m → slen (enc_int64 tag v +:+ r) <= l →
  (slen r <= l → decodes l r (set v m) m') → decodes l (enc_int64 tag v +:+ r) m m'.
Proof.
  intros Ht Hw Hv Hh H0 Hl Hr. rewrite slen_app in Hl.
  pose proof (slen_nonneg (enc_int64 tag v)). specialize (Hr ltac:(lia)).
  unfold enc_int64. destruct (Z.eqb_spec v 0) as [->|]; [by rewrite app_empty; rewrite H0 in Hr|].
  apply decodes_step with (set v m); [done|lia| |done]. rewrite Hw, Hh. unfold uint32_field. cbn [Z.eqb].
  rewrite wrapu64_id by (unfold is_uint64; lia). rewrite read_encodeVarint by lia. cbn [mbind outcome_bind].
  by rewrite Z.mod_small by lia.
Qed.
End decodes.

Section nested.
Context {A} `{L : CodecLaws A}.
Context {Msg : Type} (handle : Z → Z → Z → string → Msg → option (outcome (Msg * string))).
Context (add_unknown : string → Msg → Msg).
Abbreviation decodes := (decodes handle add_unknown).

Lemma read_msg l (a : A) r : plain a → slen (c_enc a) + slen r <= l → l < 2 ^ 63 →
  ('(v, rest') ← read_bytes l (encodeVarint (slen (c_enc a)) +:+ (c_enc a +:+ r));
   a ← c_Unmarshal c_zero v; Ok (a, rest')) = Ok (a, r).
Proof using L.
  intros Hp Hl Hl'. rewrite read_bytes_enc by lia. cbn [mbind outcome_bind].
  pose proof (slen_nonneg r). by rewrite codec_inverse by (done || unfold fits; lia).
Qed.

Lemma msgs_field_run l get set (a : A) r (m : Msg) : plain a → slen (c_enc a) + slen r <= l → l < 2 ^ 63 →
  msgs_field get set 2 l (encodeVarint (slen (c_enc a)) +:+ (c_enc a +:+ r)) m =
  Some (Ok (set (get m ++ [a]) m, r)).
Proof using L.
  intros Hp Hl Hl'. pose proof (read_msg l a r Hp Hl Hl') as E. unfold msgs_field. cbn [Z.eqb Pos.eqb].
  apply bind_Ok in E as ([v rest] & -> & E). cbn [mbind outcome_bind] in *. apply bind_Ok in E as (a' & -> & [= -> ->]).
  done.
Qed.

(** The steps of a repeated field, whatever its tag. *)
Lemma decodes_repeated_msgs l (enc : A → string) get set (xs : list A) r m m' :
  (∀ a rest m, plain a → slen (enc a +:+ rest) <= l →
     (∀ m', decodes l rest (set (get m ++ [a]) m) m' → decodes l (enc a +:+ rest) m m')) →
  set [] m = m → (∀ ys, get (set ys m) = ys) → (∀ ys zs, set zs (set ys m) = set zs m) →
  Forall plain xs → slen (concat_map enc xs +:+ r) <= l →
  (slen r <= l → decodes l r (set xs m) m') → decodes l (concat_map enc xs +:+ r) m m'.
Proof using Type.
  intros Hstep H0 Hgs Hss Hp Hl Hr. rewrite <- H0.
  change xs with ([] ++ xs) in Hr. revert Hl Hr. generalize (@nil A) as ys.
  induction Hp as [|x xs Hx _ IH]; intros ys Hl Hr; cbn [concat_map] in *.
  { rewrite app_nil_r in Hr. by apply Hr. }
  rewrite Str.app_assoc in *. apply Hstep; [done|done|]. rewrite Hgs, Hss. rewrite slen_app in Hl.
  pose proof (slen_nonneg (enc x)). apply IH; [lia|]. by rewrite <- app_assoc.
Qed.

Lemma decodes_msgs l tag get set (xs : list A) r m m' :
  8 <= tag < 128 → tag mod 8 = 2 →
  (∀ m rest, handle (tag / 8) 2 l rest m = msgs_field get set 2 l rest m) →
  set [] m = m → (∀ ys, get (set ys m) = ys) → (∀ ys zs, set zs (set ys m) = set zs m) →
  Forall plain xs → l < 2 ^ 63 → slen (concat_map (enc_msg tag) xs +:+ r) <= l →
  (slen r <= l → decodes l r (set xs m) m') → decodes l (concat_map (enc_msg tag) xs +:+ r) m m'.
Proof using L.
  intros Ht Hw Hh H0 Hgs Hss Hp Hl' Hl Hr. eapply decodes_repeated_msgs with (get := get); try done.
  intros a rest m1 Ha Hla m2 Hm2. rewrite slen_app in Hla. pose proof (slen_le_enc_msg tag a).
  apply decodes_step with (set (get m1 ++ [a]) m1); [done|lia| |done].
  rewrite Hw, Hh, Str.app_assoc. apply msgs_field_run; [done|lia|done].
Qed.

Lemma decodes_msgs2 l tag tag0 tag1 get set (xs : list A) r m m' :
  encodeVarint tag = String (byte_of tag0) (String (byte_of tag1) "") → 8 <= tag < 2 ^ 31 → tag mod 8 = 2 →
  (∀ m rest, handle (tag / 8) 2 l rest m = msgs_field get set 2 l rest m) →
  set [] m = m → (∀ ys, get (set ys m) = ys) → (∀ ys zs, set zs (set ys m) = set zs m) →
  Forall plain xs → l < 2 ^ 63 → slen (concat_map (enc_msg2 tag0 tag1) xs +:+ r) <= l →
  (slen r <= l → decodes l r (set xs m) m') → decodes l (concat_map (enc_msg2 tag0 tag1) xs +:+ r) m m'.
Proof using L.
  intros Etag Ht Hw Hh H0 Hgs Hss Hp Hl' Hl Hr. eapply decodes_repeated_msgs with (get := get); try done.
  intros a rest m1 Ha Hla m2 Hm2. rewrite slen_app in Hla. pose proof (slen_le_enc_msg2 tag0 tag1 a).
  change (enc_msg2 tag0 tag1 a) with (String (byte_of tag0) (String (byte_of tag1) "") +:+ (encodeVarint (slen (c_enc a)) +:+ c_enc a)).
  apply decodes_tag with tag (set (get m1 ++ [a]) m1); [done|done|lia| |done].
  rewrite Hw, Hh, Str.app_assoc. apply msgs_field_run; [done|lia|done].
Qed.

Lemma decodes_opt l tag get set (o : option A) r m m' :
  8 <= tag < 128 → tag mod 8 = 2 →
  (∀ rest, handle (tag / 8) 2 l rest m = ptr_field get set 2 l rest m) →
  get m = None → set None m = m →
  from_option plain True o → l < 2 ^ 63 → slen (enc_opt tag o +:+ r) <= l →
  (slen r <= l → decodes l r (set o m) m') → decodes l (enc_opt tag o +:+ r) m m'.
Proof using L.
  intros Ht Hw Hh Hg H0 Hp Hl' Hl Hr. destruct o as [a|]; cbn [enc_opt from_option] in *.
  2:{ rewrite app_empty in *. rewrite H0 in Hr. by apply Hr. }
  rewrite slen_app in Hl. pose proof (slen_le_enc_msg tag a). pose proof (slen_nonneg (enc_msg tag a)).
  apply decodes_step with (set (Some a) m); [done|lia| |apply Hr; lia].
  rewrite Hw, Hh, Str.app_assoc. unfold ptr_field. cbn [Z.eqb Pos.eqb]. rewrite Hg. cbn [default].
  pose proof (read_msg l a r Hp ltac:(lia) Hl') as E.
  apply bind_Ok in E as ([v rest] & -> & E). cbn [mbind outcome_bind] in *. apply bind_Ok in E as (a' & -> & [= -> ->]).
  done.
Qed.

Lemma decodes_one l tag set (a : A) r m m' :
  8 <= tag < 128 → tag mod 8 = 2 →
  (∀ rest, handle (tag / 8) 2 l rest m = one_field set 2 l rest m) →
  plain a → l < 2 ^ 63 → slen (enc_msg tag a +:+ r) <= l →
  (slen r <= l → decodes l r (set a m) m') → decodes l (enc_msg tag a +:+ r) m m'.
Proof using L.
  intros Ht Hw Hh Hp Hl' Hl Hr. rewrite slen_app in Hl. pose proof (slen_le_enc_msg tag a).
  pose proof (slen_nonneg (enc_msg tag a)).
  apply decodes_step with (set a m); [done|lia| |apply Hr; lia].
  rewrite Hw, Hh, Str.app_assoc. unfold one_field. cbn [Z.eqb Pos.eqb].
  pose proof (read_msg l a r Hp ltac:(lia) Hl') as E.
  apply bind_Ok in E as ([v rest] & -> & E). cbn [mbind outcome_bind] in *. apply bind_Ok in E as (a' & -> & [= -> ->]).
  done.
Qed.
Lemma decodes_struct l tag get set (a : A) r m m' :
  8 <= tag < 128 → tag mod 8 = 2 →
  (∀ rest, handle (tag / 8) 2 l rest m = struct_field get set 2 l rest m) →
  get m = c_zero → plain a → l < 2 ^ 63 → slen (enc_msg tag a +:+ r) <= l →
  (slen r <= l → decodes l r (set a m) m') → decodes l (enc_msg tag a +:+ r) m m'.
Proof using L.
  intros Ht Hw Hh Hg. apply decodes_one; [done|done|]. intros rest. rewrite Hh. unfold struct_field. by rewrite Hg.
Qed.

(** ** Totality *)

Lemma one_field_shorter (set : A → Msg → Msg) wt l r (m : Msg) : from_option (shorter r) True (one_field set wt l r m).
Proof using L.
  unfold one_field. cbn [from_option]. destruct (wt =? 2); [|done].
  pose proof (read_bytes_shorter l r) as H1. destruct (read_bytes l r) as [[v r']| |]; [|done..].
  cbn [mbind outcome_bind]. pose proof (codec_total (A := A) c_zero v). by destruct (c_Unmarshal (A := A) c_zero v).
Qed.
Lemma struct_field_shorter (get : Msg → A) set wt l r (m : Msg) : from_option (shorter r) True (struct_field get set wt l r m).
Proof using L.
  unfold struct_field. cbn [from_option]. destruct (wt =? 2); [|done].
  pose proof (read_bytes_shorter l r) as H1. destruct (read_bytes l r) as [[v r']| |]; [|done..].
  cbn [mbind outcome_bind]. pose proof (codec_total (get m) v). by destruct (c_Unmarshal (get m) v).
Qed.
Lemma msgs_field_shorter (get : Msg → list A) set wt l r (m : Msg) : from_option (shorter r) True (msgs_field get set wt l r m).
Proof using L.
  unfold msgs_field. cbn [from_option]. destruct (wt =? 2); [|done].
  pose proof (read_bytes_shorter l r) as H1. destruct (read_bytes l r) as [[v r']| |]; [|done..].
  cbn [mbind outcome_bind]. pose proof (codec_total (A := A) c_zero v). by destruct (c_Unmarshal (A := A) c_zero v).
Qed.
Lemma ptr_field_shorter (get : Msg → option A) set wt l r (m : Msg) : from_option (shorter r) True (ptr_field get set wt l r m).
Proof using L.
  unfold ptr_field. cbn [from_option]. destruct (wt =? 2); [|done].
  pose proof (read_bytes_shorter l r) as H1. destruct (read_bytes l r) as [[v r']| |]; [|done..].
  cbn [mbind outcome_bind]. pose proof (codec_total (default c_zero (get m)) v). by destruct (c_Unmarshal _ v).
Qed.
End nested.

Lemma varint_field_shorter {Msg} (f : Z → Z) (set : Z → Msg → Msg) wt r (m : Msg) :
  from_option (shorter r) True
    (Some (if wt =? 0 then '(v, rest') ← read_varint r; Ok (set (f v) m, rest') else Err "proto: wrong wireType")).
Proof.
  cbn [from_option]. destruct (wt =? 0); [|done].
  pose proof (read_varint_shorter r) as H. by destruct (read_varint r) as [[v r']| |].
Qed.
Lemma uint64_field_shorter {Msg} (set : Z → Msg → Msg) wt r m :
  from_option (shorter r) True (uint64_field set wt r m).
Proof. apply (varint_field_shorter id). Qed.
Lemma int32_field_shorter {Msg} (set : Z → Msg → Msg) wt r m :
  from_option (shorter r) True (int32_field set wt r m).
Proof. apply (varint_field_shorter wrap32). Qed.
Lemma uint32_field_shorter {Msg} (set : Z → Msg → Msg) wt r m :
  from_option (shorter r) True (uint32_field set wt r m).
Proof. apply (varint_field_shorter (λ v, v mod 2 ^ 32)). Qed.
Lemma strs_field_shorter {Msg} get set wt l r (m : Msg) :
  from_option (shorter r) True (strs_field get set wt l r m).
Proof. apply str_field_shorter. Qed.

(** ** Handlers that agree on short texts *)

Lemma read_bytes_inside l s v r : read_bytes l s = Ok (v, r) → (String.length v <= String.length s)%nat.
Proof.
  unfold read_bytes. pose proof (read_varint_shorter s) as H. destruct (read_varint s) as [[n rest]| |]; [|done..].
  cbn [mbind outcome_bind shorter] in *. repeat case_match; try done. intros [= <- _].
  pose proof (f_equal String.length (Str.take_drop (Z.to_nat (wrap64 n)) rest)) as E. rewrite Str.length_app in E. lia.
Qed.

Section agree.
Context {Msg : Type} (h1 h2 : Z → Z → Z → string → Msg → option (outcome (Msg * string))).
Context (add_unknown : string → Msg → Msg) (N : nat).
Hypothesis agree : ∀ f w l r m, (String.length r < N)%nat → h1 f w l r m = h2 f w l r m.
Hypothesis shrinks : ∀ f w l r m, from_option (shorter r) True (h1 f w l r m).

Lemma unmarshal_loop_agree fuel l s m : (String.length s <= N)%nat →
  unmarshal_loop h1 add_unknown fuel l s m = unmarshal_loop h2 add_unknown fuel l s m.
Proof using agree shrinks.
  revert s m. induction fuel as [|fuel IH]; intros s m Hs; [done|]. cbn [unmarshal_loop].
  destruct (String.eqb s ""); [done|].
  pose proof (read_varint_loop_shorter 10 0 0 s) as Hr. fold (read_varint s) in Hr.
  destruct (read_varint s) as [[wire rest]| |]; [|done..]. cbn [mbind outcome_bind].
  destruct (Z.land wire 7 =? 4); [done|]. destruct (wrap32 (Z.shiftr wire 3) <=? 0); [done|].
  rewrite <- agree by lia. pose proof (shrinks (wrap32 (Z.shiftr wire 3)) (Z.land wire 7) l rest m) as Hm.
  destruct (h1 _ _ l rest m) as [[[m' r']| |]|]; cbn [mbind outcome_bind from_option shorter] in *; [|done..|].
  - apply IH. lia.
  - destruct (skip s) as [n| |]; [|done..]. cbn [mbind outcome_bind]. repeat case_match; try done.
    apply IH. pose proof (length_drop (Z.to_nat n) s). lia.
Qed.
Lemma unmarshal_agree s m : (String.length s <= N)%nat →
  unmarshal h1 add_unknown s m = unmarshal h2 add_unknown s m.
Proof using agree shrinks. apply unmarshal_loop_agree. Qed.
End agree.

(** What every case of a switch keeps, on texts no longer than [N]. *)
Section invariant.
Context {Msg : Type} (handle : Z → Z → Z → string → Msg → option (outcome (Msg * string))).
Context (add_unknown : string → Msg → Msg) (P : Msg → Prop) (N : nat).
Hypothesis step : ∀ f w l r m m' r', (String.length r < N)%nat → P m → handle f w l r m = Some (Ok (m', r')) →
  P m' ∧ (String.length r' <= String.length r)%nat.
Hypothesis unknown : ∀ b m, P m → P (add_unknown b m).

Lemma unmarshal_loop_invariant fuel l s m m' : (String.length s <= N)%nat → P m →
  unmarshal_loop handle add_unknown fuel l s m = Ok m' → P m'.
Proof using step unknown.
  revert s m. induction fuel as [|fuel IH]; intros s m Hs Hm E; [done|]. cbn [unmarshal_loop] in E.
  destruct (String.eqb s ""); [by injection E as <-|].
  pose proof (read_varint_loop_shorter 10 0 0 s) as Hr. fold (read_varint s) in Hr.
  destruct (read_varint s) as [[wire rest]| |]; [|done..]. cbn [mbind outcome_bind] in E.
  destruct (Z.land wire 7 =? 4); [done|]. destruct (wrap32 (Z.shiftr wire 3) <=? 0); [done|].
  destruct (handle _ _ l rest m) as [[[m1 r1]| |]|] eqn:Eh; cbn [mbind outcome_bind] in E; [|done..|].
  - apply step in Eh as [Hm1 Hr1]; [|lia|done]. apply IH in E; [done|lia|done].
  - destruct (skip s) as [n| |]; [|done..]. cbn [mbind outcome_bind] in E. repeat case_match; try done.
    apply IH in E; [done| |by apply unknown]. pose proof (length_drop (Z.to_nat n) s). lia.
Qed.
Lemma unmarshal_invariant s m m' : (String.length s <= N)%nat → P m →
  unmarshal handle add_unknown s m = Ok m' → P m'.
Proof using step unknown. apply unmarshal_loop_invariant. Qed.
End invariant.

(** ** Automation for a message type *)

Lemma slen_enc_str_fits tag s : slen (enc_str tag s) < 2 ^ 63 → slen (enc_str tag s) = size_str s.
Proof. intros H. pose proof (slen_le_enc_str tag s). apply slen_enc_str. lia. Qed.
Lemma slen_enc_bytes_fits tag s : slen (enc_bytes tag s) < 2 ^ 63 → slen (enc_bytes tag s) = size_bytes s.
Proof. intros H. pose proof (slen_le_enc_bytes tag s). apply slen_enc_bytes. lia. Qed.

(** [Size] against the fields written, in a message that fits. *)
Ltac size_fields :=
  rewrite ?slen_app in *;
  repeat match goal with
  | _ : context [slen ?s] |- _ =>
      lazymatch goal with _ : 0 <= slen s |- _ => fail | _ => pose proof (slen_nonneg s) end
  end;
  rewrite ?slen_enc_int64 in *;
  repeat first
    [ rewrite slen_enc_str_fits by lia | rewrite slen_enc_bytes_fits by lia | rewrite slen_enc_opt by lia
    | rewrite slen_enc_msg by lia
    | rewrite slen_enc_msgs by lia | rewrite slen_enc_msgs2 by lia | rewrite slen_enc_strs by lia ];
  change (slen "") with 0; lia.

(** One field of the encoding. *)
Ltac decode_field :=
  let number lem := eapply lem;
    [lia|done| |intros; reflexivity|reflexivity|assumption|intros ?]; [first [assumption|lia|tauto]|] in
  first
    [ eapply decodes_str; [lia|done|intros; reflexivity|reflexivity|assumption|assumption|intros ?]
    | eapply decodes_bytes; [lia|done|intros; reflexivity|assumption|assumption|intros ?]
    | number constr:(@decodes_int64) | number constr:(@decodes_uint64)
    | number constr:(@decodes_int32) | number constr:(@decodes_uint32)
    | eapply decodes_strs; [lia|done|intros; reflexivity|reflexivity|reflexivity|reflexivity|assumption|assumption|intros ?]
    | eapply decodes_msgs; [lia|done|intros; reflexivity|reflexivity|reflexivity|reflexivity|try assumption|assumption|assumption|intros ?]
    | match goal with |- context [concat_map (enc_msg2 ?t0 ?t1) _] =>
        let tag := eval vm_compute in (t1 * 128 + t0 - 128) in
        eapply (decodes_msgs2 _ _ _ tag);
          [reflexivity|lia|done|intros; reflexivity|reflexivity|reflexivity|reflexivity|try assumption|assumption|assumption|intros ?] end
    | eapply decodes_opt; [lia|done|intros; reflexivity|reflexivity|reflexivity|try assumption|assumption|assumption|intros ?]
    | eapply decodes_one; [lia|done|intros; reflexivity|try assumption|assumption|assumption|intros ?]
    | eapply decodes_struct; [lia|done|intros; reflexivity|reflexivity|try assumption|assumption|assumption|intros ?] ];
  cbn beta.

(** The handlers of a message only consume. *)
Ltac handle_shorter :=
  repeat case_match; first
    [ done | apply str_field_shorter | apply strs_field_shorter | apply int64_field_shorter | apply uint64_field_shorter
    | apply int32_field_shorter | apply uint32_field_shorter | apply msgs_field_shorter | apply ptr_field_shorter
    | apply one_field_shorter | apply struct_field_shorter ].

(** The laws of a message type, whose record is destructed by the caller. *)
Ltac decode_start :=
  apply unmarshal_decodes;
  match goal with |- decodes _ _ ?l ?s _ _ =>
    let l' := fresh "l" in set (l' := l) in *;
    assert (slen s <= l') by (subst l'; lia); clearbody l' end.
Ltac decode_message :=
  decode_start; repeat decode_field; try apply decodes_nil.

End WireMsg.
