(* ===== verification/SdkMsgs.v ===== *)
(** * Messages of the SDK on the wire

    The generated [MarshalToSizedBuffer], [Size] and [Unmarshal] of
    codec/types/any.pb.go, types/coin.pb.go, types/abci.pb.go,
    x/bank/types/tx.pb.go, x/feegrant/tx.pb.go, x/mapping/types and the public
    keys of crypto/keys, one module per message, and the packing of a message
    into an [Any]. *)

From Stdlib Require Import ZArith Lia Ascii String.
From stdpp Require Import base tactics option list strings.
From S2P Require Import Prelude GoStd Digits SdkInt Wire Proto WireMsg.

Local Open Scope Z_scope.

Module Sdk.
Import Wire WireMsg.

(** ** Any and Coin *)

Module Any.
Record t := mk { TypeUrl : string; Value : string; unrecognized : string }.
Definition set_TypeUrl (v : string) (m : t) : t := let '(mk _ a1 a2) := m in mk v a1 a2.
Definition set_Value (v : string) (m : t) : t := let '(mk a0 _ a2) := m in mk a0 v a2.
Definition set_unrecognized (v : string) (m : t) : t := let '(mk a0 a1 _) := m in mk a0 a1 v.

Definition MarshalToSizedBuffer (m : t) : string :=
  let i := unrecognized m in
  let i := enc_str 0x12 (Value m) +:+ i in
  let i := enc_str 0xa (TypeUrl m) +:+ i in
  i.
Definition Size (m : t) : Z :=
  size_str (TypeUrl m) + size_str (Value m) + slen (unrecognized m).
Definition handle (fieldNum wireType l : Z) (rest : string) (m : t) : option (outcome (t * string)) :=
  match fieldNum with
  | 1 => str_field set_TypeUrl wireType l rest m
  | 2 => str_field set_Value wireType l rest m
  | _ => None
  end.
Definition Unmarshal (m : t) (s : string) : outcome t := unmarshal handle (λ b m, set_unrecognized (unrecognized m +:+ b) m) s m.
#[global] Instance codec : Codec t := mkCodec _ Size MarshalToSizedBuffer (mk "" "" "") Unmarshal.
#[global, refine] Instance laws : CodecLaws t := { plain m := unrecognized m = "" }.
Proof.
  - unfold fits, c_enc, c_Size, codec, Size, MarshalToSizedBuffer. intros m Hl. size_fields.
  - intros m Hp Hl. unfold fits, c_enc, c_Unmarshal, c_zero, codec, MarshalToSizedBuffer, Unmarshal in *.
    destruct m. cbn [TypeUrl Value unrecognized] in *. destruct_and?. subst. decode_message.
  - intros m s. apply unmarshal_total. intros. unfold handle. handle_shorter.
Defined.
End Any.

(** The custom type of an amount: on an empty value the field keeps what it
    has, nil at first. *)
Definition int_field {Msg} (set : option Z → Msg → Msg) (wt l : Z) (rest : string) (m : Msg)
    : option (outcome (Msg * string)) :=
  Some (if wt =? 2 then
          '(v, rest') ← read_bytes l rest;
          o ← Int.Unmarshal v;
          Ok (match o with Some i => set (Some i) m | None => m end, rest')
        else Err "proto: wrong wireType").

Lemma int_field_shorter {Msg} (set : option Z → Msg → Msg) wt l r m :
  from_option (shorter r) True (int_field set wt l r m).
Proof.
  unfold int_field. cbn [from_option]. destruct (wt =? 2); [|done].
  pose proof (read_bytes_shorter l r) as H1. destruct (read_bytes l r) as [[v r']| |]; [|done..].
  cbn [mbind outcome_bind]. unfold Int.Unmarshal. by repeat case_match.
Qed.

Lemma Int_Unmarshal_Marshal i : Int.valid i → Int.Unmarshal (Int.Marshal i) = Ok (Some i).
Proof.
  intros Hi. unfold Int.Unmarshal, Int.Marshal.
  pose proof (Big.SetString_to_string 0 i ltac:(by left)) as Hs.
  destruct (Big.to_string i) eqn:E; [done|]. by rewrite Hs, (proj2 (Int.overflows_false i)).
Qed.

Lemma decodes_int {Msg} handle add_unknown l tag (set : option Z → Msg → Msg) i r m m' :
  8 <= tag < 128 → tag mod 8 = 2 →
  (∀ rest, handle (tag / 8) 2 l rest m = int_field set 2 l rest m) → Int.valid i →
  l < 2 ^ 63 → slen (enc_bytes tag (Int.Marshal i) +:+ r) <= l →
  (slen r <= l → decodes handle add_unknown l r (set (Some i) m) m') →
  decodes handle add_unknown l (enc_bytes tag (Int.Marshal i) +:+ r) m m'.
Proof.
  intros Ht Hw Hh Hi Hl' Hl Hr. rewrite slen_app in Hl. pose proof (slen_le_enc_bytes tag (Int.Marshal i)).
  pose proof (slen_nonneg (Int.Marshal i)). specialize (Hr ltac:(lia)).
  apply decodes_step with (set (Some i) m); [done|lia| |done]. rewrite Hw, Hh, Str.app_assoc.
  unfold int_field. cbn [Z.eqb Pos.eqb]. rewrite read_bytes_enc by lia. cbn [mbind outcome_bind].
  by rewrite Int_Unmarshal_Marshal.
Qed.

(** The amount of a coin may be nil, which is written as zero. *)
Module Coin.
Record t := mk { Denom : string; Amount : option Z }.
Definition set_Denom (v : string) (m : t) : t := mk v (Amount m).
Definition set_Amount (v : option Z) (m : t) : t := mk (Denom m) v.

Definition MarshalToSizedBuffer (m : t) : string :=
  let i := enc_bytes 0x12 (Int.Marshal (default 0 (Amount m))) in
  let i := enc_str 0xa (Denom m) +:+ i in
  i.
Definition Size (m : t) : Z := size_str (Denom m) + size_bytes (Int.Marshal (default 0 (Amount m))).
Definition handle (fieldNum wireType l : Z) (rest : string) (m : t) : option (outcome (t * string)) :=
  match fieldNum with
  | 1 => str_field set_Denom wireType l rest m
  | 2 => int_field set_Amount wireType l rest m
  | _ => None
  end.
Definition Unmarshal (m : t) (s : string) : outcome t := unmarshal handle (λ _ m, m) s m.
#[global] Instance codec : Codec t := mkCodec _ Size MarshalToSizedBuffer (mk "" None) Unmarshal.
#[global, refine] Instance laws : CodecLaws t := { plain m := from_option Int.valid False (Amount m) }.
Proof.
  - unfold fits, c_enc, c_Size, codec, Size, MarshalToSizedBuffer. intros m Hl. size_fields.
  - intros [d [i|]] Hp Hl; [|done]. unfold fits, c_enc, c_Unmarshal, c_zero, codec, MarshalToSizedBuffer, Unmarshal in *.
    cbn [Denom Amount default from_option] in *. rewrite <- (Str.app_nil_r (enc_bytes _ _)) in *.
    decode_start.
    decode_field. eapply decodes_int; [lia|done|intros; reflexivity|done|assumption|assumption|intros _]. apply decodes_nil.
  - intros m s. apply unmarshal_total. intros. unfold handle.
    repeat case_match; first [done|apply str_field_shorter|apply int_field_shorter].
Defined.
End Coin.

(** ** Messages *)

Module MsgSend.
Record t := mk { FromAddress : string; ToAddress : string; Amount : list Coin.t }.
Definition set_FromAddress (v : string) (m : t) : t := let '(mk _ a1 a2) := m in mk v a1 a2.
Definition set_ToAddress (v : string) (m : t) : t := let '(mk a0 _ a2) := m in mk a0 v a2.
Definition set_Amount (v : list Coin.t) (m : t) : t := let '(mk a0 a1 _) := m in mk a0 a1 v.

Definition MarshalToSizedBuffer (m : t) : string :=
  let i := "" in
  let i := concat_map (enc_msg 0x1a) (Amount m) +:+ i in
  let i := enc_str 0x12 (ToAddress m) +:+ i in
  let i := enc_str 0xa (FromAddress m) +:+ i in
  i.
Definition Size (m : t) : Z :=
  size_str (FromAddress m) + size_str (ToAddress m) + sum_map size_msg (Amount m).
Definition handle (fieldNum wireType l : Z) (rest : string) (m : t) : option (outcome (t * string)) :=
  match fieldNum with
  | 1 => str_field set_FromAddress wireType l rest m
  | 2 => str_field set_ToAddress wireType l rest m
  | 3 => msgs_field Amount set_Amount wireType l rest m
  | _ => None
  end.
Definition Unmarshal (m : t) (s : string) : outcome t := unmarshal handle (λ _ m, m) s m.
#[global] Instance codec : Codec t := mkCodec _ Size MarshalToSizedBuffer (mk "" "" []) Unmarshal.
#[global, refine] Instance laws : CodecLaws t := { plain m := Forall plain (Amount m) }.
Proof.
  - unfold fits, c_enc, c_Size, codec, Size, MarshalToSizedBuffer. intros m Hl. size_fields.
  - intros m Hp Hl. unfold fits, c_enc, c_Unmarshal, c_zero, codec, MarshalToSizedBuffer, Unmarshal in *.
    destruct m. cbn [FromAddress ToAddress Amount] in *. destruct_and?. subst. decode_message.
  - intros m s. apply unmarshal_total. intros. unfold handle. handle_shorter.
Defined.
End MsgSend.

Module MsgSendResponse.
Record t := mk { }.

Definition MarshalToSizedBuffer (m : t) : string :=
  let i := "" in
  i.
Definition Size (m : t) : Z :=
  0.
Definition handle (fieldNum wireType l : Z) (rest : string) (m : t) : option (outcome (t * string)) :=
  match fieldNum with
  | _ => None
  end.
Definition Unmarshal (m : t) (s : string) : outcome t := unmarshal handle (λ _ m, m) s m.
#[global] Instance codec : Codec t := mkCodec _ Size MarshalToSizedBuffer (mk ) Unmarshal.
#[global, refine] Instance laws : CodecLaws t := { plain m := True }.
Proof.
  - unfold fits, c_enc, c_Size, codec, Size, MarshalToSizedBuffer. intros m Hl. size_fields.
  - intros m Hp Hl. unfold fits, c_enc, c_Unmarshal, c_zero, codec, MarshalToSizedBuffer, Unmarshal in *.
    destruct m. cbn [app] in *. destruct_and?. subst. decode_message.
  - intros m s. apply unmarshal_total. intros. unfold handle. handle_shorter.
Defined.
End MsgSendResponse.

Module MsgRegisterDevice.
Record t := mk { Creator : string; DeviceId : string; Address : string }.
Definition set_Creator (v : string) (m : t) : t := let '(mk _ a1 a2) := m in mk v a1 a2.
Definition set_DeviceId (v : string) (m : t) : t := let '(mk a0 _ a2) := m in mk a0 v a2.
Definition set_Address (v : string) (m : t) : t := let '(mk a0 a1 _) := m in mk a0 a1 v.

Definition MarshalToSizedBuffer (m : t) : string :=
  let i := "" in
  let i := enc_str 0x1a (Address m) +:+ i in
  let i := enc_str 0x12 (DeviceId m) +:+ i in
  let i := enc_str 0xa (Creator m) +:+ i in
  i.
Definition Size (m : t) : Z :=
  size_str (Creator m) + size_str (DeviceId m) + size_str (Address m).
Definition handle (fieldNum wireType l : Z) (rest : string) (m : t) : option (outcome (t * string)) :=
  match fieldNum with
  | 1 => str_field set_Creator wireType l rest m
  | 2 => str_field set_DeviceId wireType l rest m
  | 3 => str_field set_Address wireType l rest m
  | _ => None
  end.
Definition Unmarshal (m : t) (s : string) : outcome t := unmarshal handle (λ _ m, m) s m.
#[global] Instance codec : Codec t := mkCodec _ Size MarshalToSizedBuffer (mk "" "" "") Unmarshal.
#[global, refine] Instance laws : CodecLaws t := { plain m := True }.
Proof.
  - unfold fits, c_enc, c_Size, codec, Size, MarshalToSizedBuffer. intros m Hl. size_fields.
  - intros m Hp Hl. unfold fits, c_enc, c_Unmarshal, c_zero, codec, MarshalToSizedBuffer, Unmarshal in *.
    destruct m. cbn [Creator DeviceId Address] in *. destruct_and?. subst. decode_message.
  - intros m s. apply unmarshal_total. intros. unfold handle. handle_shorter.
Defined.
End MsgRegisterDevice.

Module MsgRegisterDeviceResponse.
Record t := mk { Result : string }.
Definition set_Result (v : string) (m : t) : t := let '(mk _) := m in mk v.

Definition MarshalToSizedBuffer (m : t) : string :=
  let i := "" in
  let i := enc_str 0xa (Result m) +:+ i in
  i.
Definition Size (m : t) : Z :=
  size_str (Result m).
Definition handle (fieldNum wireType l : Z) (rest : string) (m : t) : option (outcome (t * string)) :=
  match fieldNum with
  | 1 => str_field set_Result wireType l rest m
  | _ => None
  end.
Definition Unmarshal (m : t) (s : string) : outcome t := unmarshal handle (λ _ m, m) s m.
#[global] Instance codec : Codec t := mkCodec _ Size MarshalToSizedBuffer (mk "") Unmarshal.
#[global, refine] Instance laws : CodecLaws t := { plain m := True }.
Proof.
  - unfold fits, c_enc, c_Size, codec, Size, MarshalToSizedBuffer. intros m Hl. size_fields.
  - intros m Hp Hl. unfold fits, c_enc, c_Unmarshal, c_zero, codec, MarshalToSizedBuffer, Unmarshal in *.
    destruct m. cbn [Result] in *. destruct_and?. subst. decode_message.
  - intros m s. apply unmarshal_total. intros. unfold handle. handle_shorter.
Defined.
End MsgRegisterDeviceResponse.

Module QueryGetAddressFromDeviceIDRequest.
Record t := mk { DeviceId : string }.
Definition set_DeviceId (v : string) (m : t) : t := let '(mk _) := m in mk v.

Definition MarshalToSizedBuffer (m : t) : string :=
  let i := "" in
  let i := enc_str 0xa (DeviceId m) +:+ i in
  i.
Definition Size (m : t) : Z :=
  size_str (DeviceId m).
Definition handle (fieldNum wireType l : Z) (rest : string) (m : t) : option (outcome (t * string)) :=
  match fieldNum with
  | 1 => str_field set_DeviceId wireType l rest m
  | _ => None
  end.
Definition Unmarshal (m : t) (s : string) : outcome t := unmarshal handle (λ _ m, m) s m.
#[global] Instance codec : Codec t := mkCodec _ Size MarshalToSizedBuffer (mk "") Unmarshal.
#[global, refine] Instance laws : CodecLaws t := { plain m := True }.
Proof.
  - unfold fits, c_enc, c_Size, codec, Size, MarshalToSizedBuffer. intros m Hl. size_fields.
  - intros m Hp Hl. unfold fits, c_enc, c_Unmarshal, c_zero, codec, MarshalToSizedBuffer, Unmarshal in *.
    destruct m. cbn [DeviceId] in *. destruct_and?. subst. decode_message.
  - intros m s. apply unmarshal_total. intros. unfold handle. handle_shorter.
Defined.
End QueryGetAddressFromDeviceIDRequest.

Module QueryGetAddressFromDeviceIDResponse.
Record t := mk { Address : string }.
Definition set_Address (v : string) (m : t) : t := let '(mk _) := m in mk v.

Definition MarshalToSizedBuffer (m : t) : string :=
  let i := "" in
  let i := enc_str 0xa (Address m) +:+ i in
  i.
Definition Size (m : t) : Z :=
  size_str (Address m).
Definition handle (fieldNum wireType l : Z) (rest : string) (m : t) : option (outcome (t * string)) :=
  match fieldNum with
  | 1 => str_field set_Address wireType l rest m
  | _ => None
  end.
Definition Unmarshal (m : t) (s : string) : outcome t := unmarshal handle (λ _ m, m) s m.
#[global] Instance codec : Codec t := mkCodec _ Size MarshalToSizedBuffer (mk "") Unmarshal.
#[global, refine] Instance laws : CodecLaws t := { plain m := True }.
Proof.
  - unfold fits, c_enc, c_Size, codec, Size, MarshalToSizedBuffer. intros m Hl. size_fields.
  - intros m Hp Hl. unfold fits, c_enc, c_Unmarshal, c_zero, codec, MarshalToSizedBuffer, Unmarshal in *.
    destruct m. cbn [Address] in *. destruct_and?. subst. decode_message.
  - intros m s. apply unmarshal_total. intros. unfold handle. handle_shorter.
Defined.
End QueryGetAddressFromDeviceIDResponse.

Module MsgGrantAllowance.
Record t := mk { Granter : string; Grantee : string; Allowance : option Any.t }.
Definition set_Granter (v : string) (m : t) : t := let '(mk _ a1 a2) := m in mk v a1 a2.
Definition set_Grantee (v : string) (m : t) : t := let '(mk a0 _ a2) := m in mk a0 v a2.
Definition set_Allowance (v : option Any.t) (m : t) : t := let '(mk a0 a1 _) := m in mk a0 a1 v.

Definition MarshalToSizedBuffer (m : t) : string :=
  let i := "" in
  let i := enc_opt 0x1a (Allowance m) +:+ i in
  let i := enc_str 0x12 (Grantee m) +:+ i in
  let i := enc_str 0xa (Granter m) +:+ i in
  i.
Definition Size (m : t) : Z :=
  size_str (Granter m) + size_str (Grantee m) + size_opt (Allowance m).
Definition handle (fieldNum wireType l : Z) (rest : string) (m : t) : option (outcome (t * string)) :=
  match fieldNum with
  | 1 => str_field set_Granter wireType l rest m
  | 2 => str_field set_Grantee wireType l rest m
  | 3 => ptr_field Allowance set_Allowance wireType l rest m
  | _ => None
  end.
Definition Unmarshal (m : t) (s : string) : outcome t := unmarshal handle (λ _ m, m) s m.
#[global] Instance codec : Codec t := mkCodec _ Size MarshalToSizedBuffer (mk "" "" None) Unmarshal.
#[global, refine] Instance laws : CodecLaws t := { plain m := from_option plain True (Allowance m) }.
Proof.
  - unfold fits, c_enc, c_Size, codec, Size, MarshalToSizedBuffer. intros m Hl. size_fields.
  - intros m Hp Hl. unfold fits, c_enc, c_Unmarshal, c_zero, codec, MarshalToSizedBuffer, Unmarshal in *.
    destruct m. cbn [Granter Grantee Allowance] in *. destruct_and?. subst. decode_message.
  - intros m s. apply unmarshal_total. intros. unfold handle. handle_shorter.
Defined.
End MsgGrantAllowance.

Module MsgGrantAllowanceResponse.
Record t := mk { }.

Definition MarshalToSizedBuffer (m : t) : string :=
  let i := "" in
  i.
Definition Size (m : t) : Z :=
  0.
Definition handle (fieldNum wireType l : Z) (rest : string) (m : t) : option (outcome (t * string)) :=
  match fieldNum with
  | _ => None
  end.
Definition Unmarshal (m : t) (s : string) : outcome t := unmarshal handle (λ _ m, m) s m.
#[global] Instance codec : Codec t := mkCodec _ Size MarshalToSizedBuffer (mk ) Unmarshal.
#[global, refine] Instance laws : CodecLaws t := { plain m := True }.
Proof.
  - unfold fits, c_enc, c_Size, codec, Size, MarshalToSizedBuffer. intros m Hl. size_fields.
  - intros m Hp Hl. unfold fits, c_enc, c_Unmarshal, c_zero, codec, MarshalToSizedBuffer, Unmarshal in *.
    destruct m. cbn [app] in *. destruct_and?. subst. decode_message.
  - intros m s. apply unmarshal_total. intros. unfold handle. handle_shorter.
Defined.
End MsgGrantAllowanceResponse.

Module MsgRevokeAllowance.
Record t := mk { Granter : string; Grantee : string }.
Definition set_Granter (v : string) (m : t) : t := let '(mk _ a1) := m in mk v a1.
Definition set_Grantee (v : string) (m : t) : t := let '(mk a0 _) := m in mk a0 v.

Definition MarshalToSizedBuffer (m : t) : string :=
  let i := "" in
  let i := enc_str 0x12 (Grantee m) +:+ i in
  let i := enc_str 0xa (Granter m) +:+ i in
  i.
Definition Size (m : t) : Z :=
  size_str (Granter m) + size_str (Grantee m).
Definition handle (fieldNum wireType l : Z) (rest : string) (m : t) : option (outcome (t * string)) :=
  match fieldNum with
  | 1 => str_field set_Granter wireType l rest m
  | 2 => str_field set_Grantee wireType l rest m
  | _ => None
  end.
Definition Unmarshal (m : t) (s : string) : outcome t := unmarshal handle (λ _ m, m) s m.
#[global] Instance codec : Codec t := mkCodec _ Size MarshalToSizedBuffer (mk "" "") Unmarshal.
#[global, refine] Instance laws : CodecLaws t := { plain m := True }.
Proof.
  - unfold fits, c_enc, c_Size, codec, Size, MarshalToSizedBuffer. intros m Hl. size_fields.
  - intros m Hp Hl. unfold fits, c_enc, c_Unmarshal, c_zero, codec, MarshalToSizedBuffer, Unmarshal in *.
    destruct m. cbn [Granter Grantee] in *. destruct_and?. subst. decode_message.
  - intros m s. apply unmarshal_total. intros. unfold handle. handle_shorter.
Defined.
End MsgRevokeAllowance.

Module MsgRevokeAllowanceResponse.
Record t := mk { }.

Definition MarshalToSizedBuffer (m : t) : string :=
  let i := "" in
  i.
Definition Size (m : t) : Z :=
  0.
Definition handle (fieldNum wireType l : Z) (rest : string) (m : t) : option (outcome (t * string)) :=
  match fieldNum with
  | _ => None
  end.
Definition Unmarshal (m : t) (s : string) : outcome t := unmarshal handle (λ _ m, m) s m.
#[global] Instance codec : Codec t := mkCodec _ Size MarshalToSizedBuffer (mk ) Unmarshal.
#[global, refine] Instance laws : CodecLaws t := { plain m := True }.
Proof.
  - unfold fits, c_enc, c_Size, codec, Size, MarshalToSizedBuffer. intros m Hl. size_fields.
  - intros m Hp Hl. unfold fits, c_enc, c_Unmarshal, c_zero, codec, MarshalToSizedBuffer, Unmarshal in *.
    destruct m. cbn [app] in *. destruct_and?. subst. decode_message.
  - intros m s. apply unmarshal_total. intros. unfold handle. handle_shorter.
Defined.
End MsgRevokeAllowanceResponse.

(** ** The data of responses *)

Module MsgData.
Record t := mk { MsgType : string; Data : string }.
Definition set_MsgType (v : string) (m : t) : t := let '(mk _ a1) := m in mk v a1.
Definition set_Data (v : string) (m : t) : t := let '(mk a0 _) := m in mk a0 v.

Definition MarshalToSizedBuffer (m : t) : string :=
  let i := "" in
  let i := enc_str 0x12 (Data m) +:+ i in
  let i := enc_str 0xa (MsgType m) +:+ i in
  i.
Definition Size (m : t) : Z :=
  size_str (MsgType m) + size_str (Data m).
Definition handle (fieldNum wireType l : Z) (rest : string) (m : t) : option (outcome (t * string)) :=
  match fieldNum with
  | 1 => str_field set_MsgType wireType l rest m
  | 2 => str_field set_Data wireType l rest m
  | _ => None
  end.
Definition Unmarshal (m : t) (s : string) : outcome t := unmarshal handle (λ _ m, m) s m.
#[global] Instance codec : Codec t := mkCodec _ Size MarshalToSizedBuffer (mk "" "") Unmarshal.
#[global, refine] Instance laws : CodecLaws t := { plain m := True }.
Proof.
  - unfold fits, c_enc, c_Size, codec, Size, MarshalToSizedBuffer. intros m Hl. size_fields.
  - intros m Hp Hl. unfold fits, c_enc, c_Unmarshal, c_zero, codec, MarshalToSizedBuffer, Unmarshal in *.
    destruct m. cbn [MsgType Data] in *. destruct_and?. subst. decode_message.
  - intros m s. apply unmarshal_total. intros. unfold handle. handle_shorter.
Defined.
End MsgData.

Module TxMsgData.
Record t := mk { Data : list MsgData.t }.
Definition set_Data (v : list MsgData.t) (m : t) : t := let '(mk _) := m in mk v.

Definition MarshalToSizedBuffer (m : t) : string :=
  let i := "" in
  let i := concat_map (enc_msg 0xa) (Data m) +:+ i in
  i.
Definition Size (m : t) : Z :=
  sum_map size_msg (Data m).
Definition handle (fieldNum wireType l : Z) (rest : string) (m : t) : option (outcome (t * string)) :=
  match fieldNum with
  | 1 => msgs_field Data set_Data wireType l rest m
  | _ => None
  end.
Definition Unmarshal (m : t) (s : string) : outcome t := unmarshal handle (λ _ m, m) s m.
#[global] Instance codec : Codec t := mkCodec _ Size MarshalToSizedBuffer (mk []) Unmarshal.
#[global, refine] Instance laws : CodecLaws t := { plain m := Forall plain (Data m) }.
Proof.
  - unfold fits, c_enc, c_Size, codec, Size, MarshalToSizedBuffer. intros m Hl. size_fields.
  - intros m Hp Hl. unfold fits, c_enc, c_Unmarshal, c_zero, codec, MarshalToSizedBuffer, Unmarshal in *.
    destruct m. cbn [Data] in *. destruct_and?. subst. decode_message.
  - intros m s. apply unmarshal_total. intros. unfold handle. handle_shorter.
Defined.
End TxMsgData.

(** ** Public keys *)

Module secp256k1_PubKey.
Record t := mk { Key : string }.
Definition set_Key (v : string) (m : t) : t := let '(mk _) := m in mk v.

Definition MarshalToSizedBuffer (m : t) : string :=
  let i := "" in
  let i := enc_str 0xa (Key m) +:+ i in
  i.
Definition Size (m : t) : Z :=
  size_str (Key m).
Definition handle (fieldNum wireType l : Z) (rest : string) (m : t) : option (outcome (t * string)) :=
  match fieldNum with
  | 1 => str_field set_Key wireType l rest m
  | _ => None
  end.
Definition Unmarshal (m : t) (s : string) : outcome t := unmarshal handle (λ _ m, m) s m.
#[global] Instance codec : Codec t := mkCodec _ Size MarshalToSizedBuffer (mk "") Unmarshal.
#[global, refine] Instance laws : CodecLaws t := { plain m := True }.
Proof.
  - unfold fits, c_enc, c_Size, codec, Size, MarshalToSizedBuffer. intros m Hl. size_fields.
  - intros m Hp Hl. unfold fits, c_enc, c_Unmarshal, c_zero, codec, MarshalToSizedBuffer, Unmarshal in *.
    destruct m. cbn [Key] in *. destruct_and?. subst. decode_message.
  - intros m s. apply unmarshal_total. intros. unfold handle. handle_shorter.
Defined.
End secp256k1_PubKey.

Module ed25519_PubKey.
Record t := mk { Key : string }.
Definition set_Key (v : string) (m : t) : t := let '(mk _) := m in mk v.

Definition MarshalToSizedBuffer (m : t) : string :=
  let i := "" in
  let i := enc_str 0xa (Key m) +:+ i in
  i.
Definition Size (m : t) : Z :=
  size_str (Key m).
Definition handle (fieldNum wireType l : Z) (rest : string) (m : t) : option (outcome (t * string)) :=
  match fieldNum with
  | 1 => str_field set_Key wireType l rest m
  | _ => None
  end.
Definition Unmarshal (m : t) (s : string) : outcome t := unmarshal handle (λ _ m, m) s m.
#[global] Instance codec : Codec t := mkCodec _ Size MarshalToSizedBuffer (mk "") Unmarshal.
#[global, refine] Instance laws : CodecLaws t := { plain m := True }.
Proof.
  - unfold fits, c_enc, c_Size, codec, Size, MarshalToSizedBuffer. intros m Hl. size_fields.
  - intros m Hp Hl. unfold fits, c_enc, c_Unmarshal, c_zero, codec, MarshalToSizedBuffer, Unmarshal in *.
    destruct m. cbn [Key] in *. destruct_and?. subst. decode_message.
  - intros m s. apply unmarshal_total. intros. unfold handle. handle_shorter.
Defined.
End ed25519_PubKey.

Module LegacyAminoPubKey.
Record t := mk { Threshold : Z; PubKeys : list Any.t }.
Definition set_Threshold (v : Z) (m : t) : t := let '(mk _ a1) := m in mk v a1.
Definition set_PubKeys (v : list Any.t) (m : t) : t := let '(mk a0 _) := m in mk a0 v.

Definition MarshalToSizedBuffer (m : t) : string :=
  let i := "" in
  let i := concat_map (enc_msg 0x12) (PubKeys m) +:+ i in
  let i := enc_int64 0x8 (Threshold m) +:+ i in
  i.
Definition Size (m : t) : Z :=
  size_int64 (Threshold m) + sum_map size_msg (PubKeys m).
Definition handle (fieldNum wireType l : Z) (rest : string) (m : t) : option (outcome (t * string)) :=
  match fieldNum with
  | 1 => uint32_field set_Threshold wireType rest m
  | 2 => msgs_field PubKeys set_PubKeys wireType l rest m
  | _ => None
  end.
Definition Unmarshal (m : t) (s : string) : outcome t := unmarshal handle (λ _ m, m) s m.
#[global] Instance codec : Codec t := mkCodec _ Size MarshalToSizedBuffer (mk 0 []) Unmarshal.
#[global, refine] Instance laws : CodecLaws t := { plain m := 0 <= Threshold m < 2 ^ 32 ∧ Forall plain (PubKeys m) }.
Proof.
  - unfold fits, c_enc, c_Size, codec, Size, MarshalToSizedBuffer. intros m Hl. size_fields.
  - intros m Hp Hl. unfold fits, c_enc, c_Unmarshal, c_zero, codec, MarshalToSizedBuffer, Unmarshal in *.
    destruct m. cbn [Threshold PubKeys] in *. destruct_and?. subst. decode_message.
  - intros m s. apply unmarshal_total. intros. unfold handle. handle_shorter.
Defined.
End LegacyAminoPubKey.

End Sdk.
