(* ===== verification/TxProto.v ===== *)
(** * The parts of a transaction on the wire: types/tx/tx.pb.go and
      crypto/types/multisig.pb.go

    The generated [MarshalToSizedBuffer], [Size] and [Unmarshal] of [TxBody],
    [AuthInfo] and what they contain, one module per message.  A [ModeInfo]
    contains mode infos, so the length of the text bounds the calls of
    [Unmarshal]. *)

From Stdlib Require Import ZArith Lia Ascii String.
From stdpp Require Import base tactics option list strings.
From S2P Require Import Prelude GoStd Digits SdkInt Wire Proto WireMsg SdkMsgs.

Local Open Scope Z_scope.

Module Pb.
Import Wire WireMsg.

Module CompactBitArray.
Record t := mk { ExtraBitsStored : Z; Elems : string }.
Definition set_ExtraBitsStored (v : Z) (m : t) : t := let '(mk _ a1) := m in mk v a1.
Definition set_Elems (v : string) (m : t) : t := let '(mk a0 _) := m in mk a0 v.

Definition MarshalToSizedBuffer (m : t) : string :=
  let i := "" in
  let i := enc_str 0x12 (Elems m) +:+ i in
  let i := enc_int64 0x8 (ExtraBitsStored m) +:+ i in
  i.
Definition Size (m : t) : Z :=
  size_int64 (ExtraBitsStored m) + size_str (Elems m).
Definition handle (fieldNum wireType l : Z) (rest : string) (m : t) : option (outcome (t * string)) :=
  match fieldNum with
  | 1 => uint32_field set_ExtraBitsStored wireType rest m
  | 2 => str_field set_Elems wireType l rest m
  | _ => None
  end.
Definition Unmarshal (m : t) (s : string) : outcome t := unmarshal handle (λ _ m, m) s m.
#[global] Instance codec : Codec t := mkCodec _ Size MarshalToSizedBuffer (mk 0 "") Unmarshal.
#[global, refine] Instance laws : CodecLaws t := { plain m := 0 <= ExtraBitsStored m < 2 ^ 32 }.
Proof.
  - unfold fits, c_enc, c_Size, codec, Size, MarshalToSizedBuffer. intros m Hl. size_fields.
  - intros m Hp Hl. unfold fits, c_enc, c_Unmarshal, c_zero, codec, MarshalToSizedBuffer, Unmarshal in *.
    destruct m. cbn [ExtraBitsStored Elems] in *. destruct_and?. subst. decode_message.
  - intros m s. apply unmarshal_total. intros. unfold handle. handle_shorter.
Defined.
End CompactBitArray.

Module ModeInfo_Single.
Record t := mk { Mode : Z }.
Definition set_Mode (v : Z) (m : t) : t := let '(mk _) := m in mk v.

Definition MarshalToSizedBuffer (m : t) : string :=
  let i := "" in
  let i := enc_int64 0x8 (Mode m) +:+ i in
  i.
Definition Size (m : t) : Z :=
  size_int64 (Mode m).
Definition handle (fieldNum wireType l : Z) (rest : string) (m : t) : option (outcome (t * string)) :=
  match fieldNum with
  | 1 => int32_field set_Mode wireType rest m
  | _ => None
  end.
Definition Unmarshal (m : t) (s : string) : outcome t := unmarshal handle (λ _ m, m) s m.
#[global] Instance codec : Codec t := mkCodec _ Size MarshalToSizedBuffer (mk 0) Unmarshal.
#[global, refine] Instance laws : CodecLaws t := { plain m := -2 ^ 31 <= Mode m < 2 ^ 31 }.
Proof.
  - unfold fits, c_enc, c_Size, codec, Size, MarshalToSizedBuffer. intros m Hl. size_fields.
  - intros m Hp Hl. unfold fits, c_enc, c_Unmarshal, c_zero, codec, MarshalToSizedBuffer, Unmarshal in *.
    destruct m. cbn [Mode] in *. destruct_and?. subst. decode_message.
  - intros m s. apply unmarshal_total. intros. unfold handle. handle_shorter.
Defined.
End ModeInfo_Single.

(** ** ModeInfo *)

(** [ModeInfo_Multi], over the type of mode infos. *)
Module ModeInfo_Multi.
Record t (A : Type) := mk { Bitarray : option CompactBitArray.t; ModeInfos : list A }.
Arguments mk {A} _ _.
Arguments Bitarray {A} _.
Arguments ModeInfos {A} _.

Definition MarshalToSizedBuffer {A} (enc : A → string) (m : t A) : string :=
  let i := "" in
  let i := concat_map (λ e, enc_bytes 0x12 (enc e)) (ModeInfos m) +:+ i in
  let i := enc_opt 0xa (Bitarray m) +:+ i in
  i.
Definition Size {A} (size : A → Z) (m : t A) : Z :=
  size_opt (Bitarray m) + sum_map (λ e, let l := size e in 1 + l + sov l) (ModeInfos m).

Section unmarshal.
Context {A} `{L : CodecLaws A}.
Definition set_Bitarray (v : option CompactBitArray.t) (m : t A) : t A := mk v (ModeInfos m).
Definition set_ModeInfos (v : list A) (m : t A) : t A := mk (Bitarray m) v.
Definition handle (fieldNum wireType l : Z) (rest : string) (m : t A) : option (outcome (t A * string)) :=
  match fieldNum with
  | 1 => ptr_field Bitarray set_Bitarray wireType l rest m
  | 2 => msgs_field ModeInfos set_ModeInfos wireType l rest m
  | _ => None
  end.
Definition Unmarshal (m : t A) (s : string) : outcome (t A) := unmarshal handle (λ _ m, m) s m.
#[global] Instance codec : Codec (t A) :=
  mkCodec _ (Size c_Size) (MarshalToSizedBuffer c_enc) (mk None []) Unmarshal.
#[global, refine] Instance laws : CodecLaws (t A) :=
  { plain m := from_option plain True (Bitarray m) ∧ Forall plain (ModeInfos m) }.
Proof using L.
  - unfold fits, c_enc, c_Size, codec, Size, MarshalToSizedBuffer. intros m Hl.
    change (λ e : A, enc_bytes 0x12 (c_enc e)) with (enc_msg (A := A) 0x12) in *.
    change (λ e : A, 1 + c_Size e + sov (c_Size e)) with (size_msg (A := A)). size_fields.
  - intros m Hp Hl. unfold fits, c_enc, c_Unmarshal, c_zero, codec, MarshalToSizedBuffer, Unmarshal in *.
    change (λ e : A, enc_bytes 0x12 (c_enc e)) with (enc_msg (A := A) 0x12) in *.
    destruct m. cbn [Bitarray ModeInfos] in *. destruct_and?. decode_message.
  - intros m s. apply unmarshal_total. intros. unfold handle. handle_shorter.
Defined.
End unmarshal.
End ModeInfo_Multi.

Module ModeInfo.
(** Without a sum, or with one of the two. *)
#[warnings="-register-all"]
Inductive t :=
  | Unset
  | Single (m : ModeInfo_Single.t)
  | Multi (m : ModeInfo_Multi.t t).

Fixpoint MarshalToSizedBuffer (m : t) : string :=
  match m with
  | Unset => ""
  | Single v => enc_msg 0xa v
  | Multi v => enc_bytes 0x12 (ModeInfo_Multi.MarshalToSizedBuffer MarshalToSizedBuffer v)
  end.
Fixpoint Size (m : t) : Z :=
  match m with
  | Unset => 0
  | Single v => size_msg v
  | Multi v => let l := ModeInfo_Multi.Size Size v in 1 + l + sov l
  end.

Definition handle `{Codec t} (fieldNum wireType l : Z) (rest : string) (m : t) : option (outcome (t * string)) :=
  match fieldNum with
  | 1 => one_field (λ v _, Single v) wireType l rest m
  | 2 => one_field (λ v _, Multi v) wireType l rest m
  | _ => None
  end.

(** Calls nested [n] deep. *)
Fixpoint Unmarshal_loop (n : nat) (m : t) (s : string) : outcome t :=
  match n with
  | O => Err "Unmarshal: out of fuel"
  | S n => unmarshal (handle (H := mkCodec t Size MarshalToSizedBuffer Unset (Unmarshal_loop n))) (λ _ m, m) s m
  end.
Definition Unmarshal (m : t) (s : string) : outcome t := Unmarshal_loop (S (String.length s)) m s.
#[global] Instance codec : Codec t := mkCodec _ Size MarshalToSizedBuffer Unset Unmarshal.

(** Modes are 32-bit numbers and bit arrays are encodable, at every level. *)
#[warnings="-register-all"]
Inductive plain_mode : t → Prop :=
  | plain_Unset : plain_mode Unset
  | plain_Single v : plain v → plain_mode (Single v)
  | plain_Multi b l : from_option plain True b → Forall plain_mode l → plain_mode (Multi (ModeInfo_Multi.mk b l)).
End ModeInfo.

(** Induction over nested mode infos. *)
Section mode_ind.
Context (P : ModeInfo.t → Prop).
Context (HU : P ModeInfo.Unset) (HS : ∀ v, P (ModeInfo.Single v)).
Context (HM : ∀ b l, Forall P l → P (ModeInfo.Multi (ModeInfo_Multi.mk b l))).
Fixpoint mode_ind (m : ModeInfo.t) : P m :=
  match m with
  | ModeInfo.Unset => HU
  | ModeInfo.Single v => HS v
  | ModeInfo.Multi (ModeInfo_Multi.mk b l) =>
      HM b l ((fix go (l : list ModeInfo.t) : Forall P l :=
                 match l with [] => List.Forall_nil P | m :: l => List.Forall_cons P m l (mode_ind m) (go l) end) l)
  end.
End mode_ind.

(** The codec whose calls nest [n] deep. *)
Definition mode_codec (n : nat) : Codec ModeInfo.t :=
  mkCodec _ ModeInfo.Size ModeInfo.MarshalToSizedBuffer ModeInfo.Unset (ModeInfo.Unmarshal_loop n).

Lemma concat_map_length {A} (f : A → string) l x : x ∈ l → (String.length (f x) <= String.length (concat_map f l))%nat.
Proof. intros Hx. pose proof (slen_concat_elem f l x Hx). unfold slen in *. lia. Qed.
Lemma enc_bytes_length tag s : (String.length s < String.length (enc_bytes tag s))%nat.
Proof.
  pose proof (slen_nonneg (encodeVarint (slen s))). unfold enc_bytes, slen in *.
  cbn [String.length]. rewrite Str.length_app. lia.
Qed.

Lemma mode_Size m : slen (ModeInfo.MarshalToSizedBuffer m) < 2 ^ 63 →
  ModeInfo.Size m = slen (ModeInfo.MarshalToSizedBuffer m).
Proof.
  induction m as [|v|b l IH] using mode_ind; cbn [ModeInfo.Size ModeInfo.MarshalToSizedBuffer]; intros Hl.
  - done.
  - by rewrite slen_enc_msg.
  - pose proof (slen_le_enc_bytes 0x12 (ModeInfo_Multi.MarshalToSizedBuffer ModeInfo.MarshalToSizedBuffer (ModeInfo_Multi.mk b l))).
    rewrite slen_enc_bytes by lia. unfold size_bytes. set (n := slen (ModeInfo_Multi.MarshalToSizedBuffer _ _)) in *.
    assert (ModeInfo_Multi.Size ModeInfo.Size (ModeInfo_Multi.mk b l) = n) as ->; [|lia].
    assert (n < 2 ^ 63) as Hn by lia. subst n. clear Hl H.
    unfold ModeInfo_Multi.Size, ModeInfo_Multi.MarshalToSizedBuffer in *. cbn [ModeInfo_Multi.Bitarray ModeInfo_Multi.ModeInfos] in *.
    rewrite !slen_app in *. pose proof (slen_nonneg (enc_opt 0xa b)). change (slen "") with 0 in *.
    set (e := λ e, enc_bytes 0x12 (ModeInfo.MarshalToSizedBuffer e)) in *. pose proof (slen_nonneg (concat_map e l)).
    rewrite slen_enc_opt by lia. rewrite (slen_concat_map e (λ m, let l := ModeInfo.Size m in 1 + l + sov l)); [by rewrite Z.add_0_r|].
    apply Forall_forall. intros x Hx. pose proof (slen_concat_elem e l x Hx).
    pose proof (slen_le_enc_bytes 0x12 (ModeInfo.MarshalToSizedBuffer x)). subst e. cbn beta in *.
    rewrite (proj1 (Forall_forall _ _) IH x Hx), slen_enc_bytes by lia. done.
Qed.

Lemma handle_shorter_n {C : Codec ModeInfo.t} (L : CodecLaws ModeInfo.t) fieldNum wireType l rest m :
  from_option (shorter rest) True (ModeInfo.handle fieldNum wireType l rest m).
Proof. unfold ModeInfo.handle. handle_shorter. Qed.

(** On the mode infos whose text is shorter than [n], the codec of depth [n]
    is one. *)
Definition mode_plain (n : nat) (m : ModeInfo.t) : Prop :=
  ModeInfo.plain_mode m ∧ (String.length (ModeInfo.MarshalToSizedBuffer m) < n)%nat.

Lemma multi_plain n b l (L : @CodecLaws ModeInfo.t (mode_codec n)) : @plain _ _ L = mode_plain n →
  mode_plain (S n) (ModeInfo.Multi (ModeInfo_Multi.mk b l)) →
  @plain _ _ (@ModeInfo_Multi.laws _ (mode_codec n) L) (ModeInfo_Multi.mk b l).
Proof.
  intros E [Hp Hn]. inversion_clear Hp as [| |b' l' Hb Hl]. split; [done|]. rewrite E. cbn [ModeInfo_Multi.ModeInfos].
  apply Forall_forall. intros m Hm. split; [by apply (proj1 (Forall_forall _ _) Hl)|].
  cbn [ModeInfo.MarshalToSizedBuffer] in Hn.
  pose proof (concat_map_length (λ e, enc_bytes 0x12 (ModeInfo.MarshalToSizedBuffer e)) l m Hm).
  pose proof (enc_bytes_length 0x12 (ModeInfo.MarshalToSizedBuffer m)). cbn beta in *.
  match type of Hn with (String.length (enc_bytes _ ?s) < _)%nat => pose proof (enc_bytes_length 0x12 s) as Hs; set (t := s) in * end.
  assert (String.length (concat_map (λ e, enc_bytes 0x12 (ModeInfo.MarshalToSizedBuffer e)) l) <= String.length t)%nat; [|lia].
  subst t. unfold ModeInfo_Multi.MarshalToSizedBuffer. cbn [ModeInfo_Multi.Bitarray ModeInfo_Multi.ModeInfos].
  rewrite !Str.length_app. lia.
Qed.

Lemma mode_laws n : ∃ L : @CodecLaws ModeInfo.t (mode_codec n), @plain _ _ L = mode_plain n.
Proof.
  induction n as [|n [L HL]].
  - refine (ex_intro _ (@Build_CodecLaws _ (mode_codec 0) (mode_plain 0) mode_Size _ _) eq_refl);
      [intros m [_ ?]; lia|done].
  - refine (ex_intro _ (@Build_CodecLaws _ (mode_codec (S n)) (mode_plain (S n)) mode_Size _ _) eq_refl).
    + intros m Hp Hl. unfold fits in Hl.
      unfold c_enc, c_Unmarshal, c_zero, mode_codec in *. cbn [ModeInfo.Unmarshal_loop].
      destruct m as [|v|[b l]]; [reflexivity|..].
      * cbn [ModeInfo.MarshalToSizedBuffer] in *. rewrite <- (Str.app_nil_r (enc_msg 0xa v)) in *.
        destruct Hp as [Hp _]. inversion_clear Hp. decode_start.
        eapply decodes_one; [lia|done|intros; reflexivity|done|assumption|assumption|intros _]. apply decodes_nil.
      * apply multi_plain with (L := L) in Hp; [|done]. cbn [ModeInfo.MarshalToSizedBuffer] in *.
        change (enc_bytes 0x12 _) with (@enc_msg _ (@ModeInfo_Multi.codec _ (mode_codec n)) 0x12 (ModeInfo_Multi.mk b l)) in *.
        rewrite <- (Str.app_nil_r (enc_msg 0x12 _)) in *. decode_start.
        eapply decodes_one; [lia|done|intros; reflexivity|exact Hp|assumption|assumption|intros _]. apply decodes_nil.
    + intros m s. apply unmarshal_total. intros f w r rest m'. unfold ModeInfo.handle. handle_shorter.
Qed.

Lemma mode_roundtrip n m : mode_plain n m → slen (ModeInfo.MarshalToSizedBuffer m) < 2 ^ 63 →
  ModeInfo.Unmarshal_loop n ModeInfo.Unset (ModeInfo.MarshalToSizedBuffer m) = Ok m.
Proof.
  intros Hp Hl. destruct (mode_laws n) as [L HL].
  apply (@codec_inverse _ (mode_codec n) L); [by rewrite HL|exact Hl].
Qed.
Lemma mode_total n m s : returns (ModeInfo.Unmarshal_loop n m s).
Proof. destruct (mode_laws n) as [L _]. apply (@codec_total _ (mode_codec n) L). Qed.

(** Any number of calls above the length of the text gives the same. *)
Lemma mode_fuel n n' m s : (String.length s < n)%nat → (String.length s < n')%nat →
  ModeInfo.Unmarshal_loop n m s = ModeInfo.Unmarshal_loop n' m s.
Proof.
  revert n' m s. induction n as [|n IH]; intros [|n'] m s Hn Hn'; try lia. cbn [ModeInfo.Unmarshal_loop].
  destruct (mode_laws n) as [L _].
  apply (unmarshal_agree _ _ _ (String.length s)); [|intros; apply (handle_shorter_n L)|lia].
  intros f w l r m' Hr. unfold ModeInfo.handle. repeat case_match; try done.
  unfold one_field. destruct (w =? 2); [|done]. f_equal.
  destruct (read_bytes l r) as [[v rest]| |] eqn:Ev; [|done..]. cbn [mbind outcome_bind].
  apply read_bytes_inside in Ev. f_equal. cbn [c_Unmarshal c_zero ModeInfo_Multi.codec]. unfold ModeInfo_Multi.Unmarshal.
  apply (unmarshal_agree _ _ _ (String.length v)); [|intros; unfold ModeInfo_Multi.handle; handle_shorter|lia].
  intros f' w' l' r' m'' Hr'. unfold ModeInfo_Multi.handle. repeat case_match; try done.
  unfold msgs_field. destruct (w' =? 2); [|done]. f_equal.
  destruct (read_bytes l' r') as [[v' rest']| |] eqn:Ev'; [|done..]. cbn [mbind outcome_bind].
  apply read_bytes_inside in Ev'. cbn [c_Unmarshal c_zero]. rewrite (IH n') by lia. done.
Qed.

Lemma ModeInfo_roundtrip m : ModeInfo.plain_mode m → slen (ModeInfo.MarshalToSizedBuffer m) < 2 ^ 63 →
  ModeInfo.Unmarshal ModeInfo.Unset (ModeInfo.MarshalToSizedBuffer m) = Ok m.
Proof. intros Hp Hl. apply mode_roundtrip; [split; [done|apply Nat.lt_succ_diag_r]|done]. Qed.

#[global, refine] Instance ModeInfo_laws : CodecLaws ModeInfo.t := { plain := ModeInfo.plain_mode }.
Proof.
  - exact mode_Size.
  - exact ModeInfo_roundtrip.
  - intros m s. apply mode_total.
Defined.

Module SignerInfo.
Record t := mk { PublicKey : option Sdk.Any.t; ModeInfo : option ModeInfo.t; Sequence : Z }.
Definition set_PublicKey (v : option Sdk.Any.t) (m : t) : t := let '(mk _ a1 a2) := m in mk v a1 a2.
Definition set_ModeInfo (v : option ModeInfo.t) (m : t) : t := let '(mk a0 _ a2) := m in mk a0 v a2.
Definition set_Sequence (v : Z) (m : t) : t := let '(mk a0 a1 _) := m in mk a0 a1 v.

Definition MarshalToSizedBuffer (m : t) : string :=
  let i := "" in
  let i := enc_int64 0x18 (Sequence m) +:+ i in
  let i := enc_opt 0x12 (ModeInfo m) +:+ i in
  let i := enc_opt 0xa (PublicKey m) +:+ i in
  i.
Definition Size (m : t) : Z :=
  size_opt (PublicKey m) + size_opt (ModeInfo m) + size_int64 (Sequence m).
Definition handle (fieldNum wireType l : Z) (rest : string) (m : t) : option (outcome (t * string)) :=
  match fieldNum with
  | 1 => ptr_field PublicKey set_PublicKey wireType l rest m
  | 2 => ptr_field ModeInfo set_ModeInfo wireType l rest m
  | 3 => uint64_field set_Sequence wireType rest m
  | _ => None
  end.
Definition Unmarshal (m : t) (s : string) : outcome t := unmarshal handle (λ _ m, m) s m.
#[global] Instance codec : Codec t := mkCodec _ Size MarshalToSizedBuffer (mk None None 0) Unmarshal.
#[global, refine] Instance laws : CodecLaws t := { plain m := from_option plain True (PublicKey m) ∧ from_option plain True (ModeInfo m) ∧ is_uint64 (Sequence m) = true }.
Proof.
  - unfold fits, c_enc, c_Size, codec, Size, MarshalToSizedBuffer. intros m Hl. size_fields.
  - intros m Hp Hl. unfold fits, c_enc, c_Unmarshal, c_zero, codec, MarshalToSizedBuffer, Unmarshal in *.
    destruct m. cbn [PublicKey ModeInfo Sequence] in *. destruct_and?. subst. decode_message.
  - intros m s. apply unmarshal_total. intros. unfold handle. handle_shorter.
Defined.
End SignerInfo.

Module Fee.
Record t := mk { Amount : list Sdk.Coin.t; GasLimit : Z; Payer : string; Granter : string }.
Definition set_Amount (v : list Sdk.Coin.t) (m : t) : t := let '(mk _ a1 a2 a3) := m in mk v a1 a2 a3.
Definition set_GasLimit (v : Z) (m : t) : t := let '(mk a0 _ a2 a3) := m in mk a0 v a2 a3.
Definition set_Payer (v : string) (m : t) : t := let '(mk a0 a1 _ a3) := m in mk a0 a1 v a3.
Definition set_Granter (v : string) (m : t) : t := let '(mk a0 a1 a2 _) := m in mk a0 a1 a2 v.

Definition MarshalToSizedBuffer (m : t) : string :=
  let i := "" in
  let i := enc_str 0x22 (Granter m) +:+ i in
  let i := enc_str 0x1a (Payer m) +:+ i in
  let i := enc_int64 0x10 (GasLimit m) +:+ i in
  let i := concat_map (enc_msg 0xa) (Amount m) +:+ i in
  i.
Definition Size (m : t) : Z :=
  sum_map size_msg (Amount m) + size_int64 (GasLimit m) + size_str (Payer m) + size_str (Granter m).
Definition handle (fieldNum wireType l : Z) (rest : string) (m : t) : option (outcome (t * string)) :=
  match fieldNum with
  | 1 => msgs_field Amount set_Amount wireType l rest m
  | 2 => uint64_field set_GasLimit wireType rest m
  | 3 => str_field set_Payer wireType l rest m
  | 4 => str_field set_Granter wireType l rest m
  | _ => None
  end.
Definition Unmarshal (m : t) (s : string) : outcome t := unmarshal handle (λ _ m, m) s m.
#[global] Instance codec : Codec t := mkCodec _ Size MarshalToSizedBuffer (mk [] 0 "" "") Unmarshal.
#[global, refine] Instance laws : CodecLaws t := { plain m := Forall plain (Amount m) ∧ is_uint64 (GasLimit m) = true }.
Proof.
  - unfold fits, c_enc, c_Size, codec, Size, MarshalToSizedBuffer. intros m Hl. size_fields.
  - intros m Hp Hl. unfold fits, c_enc, c_Unmarshal, c_zero, codec, MarshalToSizedBuffer, Unmarshal in *.
    destruct m. cbn [Amount GasLimit Payer Granter] in *. destruct_and?. subst. decode_message.
  - intros m s. apply unmarshal_total. intros. unfold handle. handle_shorter.
Defined.
End Fee.

Module AuthInfo.
Record t := mk { SignerInfos : list SignerInfo.t; Fee : option Fee.t }.
Definition set_SignerInfos (v : list SignerInfo.t) (m : t) : t := let '(mk _ a1) := m in mk v a1.
Definition set_Fee (v : option Fee.t) (m : t) : t := let '(mk a0 _) := m in mk a0 v.

Definition MarshalToSizedBuffer (m : t) : string :=
  let i := "" in
  let i := enc_opt 0x12 (Fee m) +:+ i in
  let i := concat_map (enc_msg 0xa) (SignerInfos m) +:+ i in
  i.
Definition Size (m : t) : Z :=
  sum_map size_msg (SignerInfos m) + size_opt (Fee m).
Definition handle (fieldNum wireType l : Z) (rest : string) (m : t) : option (outcome (t * string)) :=
  match fieldNum with
  | 1 => msgs_field SignerInfos set_SignerInfos wireType l rest m
  | 2 => ptr_field Fee set_Fee wireType l rest m
  | _ => None
  end.
Definition Unmarshal (m : t) (s : string) : outcome t := unmarshal handle (λ _ m, m) s m.
#[global] Instance codec : Codec t := mkCodec _ Size MarshalToSizedBuffer (mk [] None) Unmarshal.
#[global, refine] Instance laws : CodecLaws t := { plain m := Forall plain (SignerInfos m) ∧ from_option plain True (Fee m) }.
Proof.
  - unfold fits, c_enc, c_Size, codec, Size, MarshalToSizedBuffer. intros m Hl. size_fields.
  - intros m Hp Hl. unfold fits, c_enc, c_Unmarshal, c_zero, codec, MarshalToSizedBuffer, Unmarshal in *.
    destruct m. cbn [SignerInfos Fee] in *. destruct_and?. subst. decode_message.
  - intros m s. apply unmarshal_total. intros. unfold handle. handle_shorter.
Defined.
End AuthInfo.

Module TxBody.
Record t := mk { Messages : list Sdk.Any.t; Memo : string; TimeoutHeight : Z; ExtensionOptions : list Sdk.Any.t; NonCriticalExtensionOptions : list Sdk.Any.t }.
Definition set_Messages (v : list Sdk.Any.t) (m : t) : t := let '(mk _ a1 a2 a3 a4) := m in mk v a1 a2 a3 a4.
Definition set_Memo (v : string) (m : t) : t := let '(mk a0 _ a2 a3 a4) := m in mk a0 v a2 a3 a4.
Definition set_TimeoutHeight (v : Z) (m : t) : t := let '(mk a0 a1 _ a3 a4) := m in mk a0 a1 v a3 a4.
Definition set_ExtensionOptions (v : list Sdk.Any.t) (m : t) : t := let '(mk a0 a1 a2 _ a4) := m in mk a0 a1 a2 v a4.
Definition set_NonCriticalExtensionOptions (v : list Sdk.Any.t) (m : t) : t := let '(mk a0 a1 a2 a3 _) := m in mk a0 a1 a2 a3 v.

Definition MarshalToSizedBuffer (m : t) : string :=
  let i := "" in
  let i := concat_map (enc_msg2 0xfa 0x7f) (NonCriticalExtensionOptions m) +:+ i in
  let i := concat_map (enc_msg2 0xfa 0x3f) (ExtensionOptions m) +:+ i in
  let i := enc_int64 0x18 (TimeoutHeight m) +:+ i in
  let i := enc_str 0x12 (Memo m) +:+ i in
  let i := concat_map (enc_msg 0xa) (Messages m) +:+ i in
  i.
Definition Size (m : t) : Z :=
  sum_map size_msg (Messages m) + size_str (Memo m) + size_int64 (TimeoutHeight m) + sum_map size_msg2 (ExtensionOptions m) + sum_map size_msg2 (NonCriticalExtensionOptions m).
Definition handle (fieldNum wireType l : Z) (rest : string) (m : t) : option (outcome (t * string)) :=
  match fieldNum with
  | 1 => msgs_field Messages set_Messages wireType l rest m
  | 2 => str_field set_Memo wireType l rest m
  | 3 => uint64_field set_TimeoutHeight wireType rest m
  | 1023 => msgs_field ExtensionOptions set_ExtensionOptions wireType l rest m
  | 2047 => msgs_field NonCriticalExtensionOptions set_NonCriticalExtensionOptions wireType l rest m
  | _ => None
  end.
Definition Unmarshal (m : t) (s : string) : outcome t := unmarshal handle (λ _ m, m) s m.
#[global] Instance codec : Codec t := mkCodec _ Size MarshalToSizedBuffer (mk [] "" 0 [] []) Unmarshal.
#[global, refine] Instance laws : CodecLaws t := { plain m := Forall plain (Messages m) ∧ is_uint64 (TimeoutHeight m) = true ∧ Forall plain (ExtensionOptions m) ∧ Forall plain (NonCriticalExtensionOptions m) }.
Proof.
  - unfold fits, c_enc, c_Size, codec, Size, MarshalToSizedBuffer. intros m Hl. size_fields.
  - intros m Hp Hl. unfold fits, c_enc, c_Unmarshal, c_zero, codec, MarshalToSizedBuffer, Unmarshal in *.
    destruct m. cbn [Messages Memo TimeoutHeight ExtensionOptions NonCriticalExtensionOptions] in *. destruct_and?. subst. decode_message.
  - intros m s. apply unmarshal_total. intros. unfold handle. handle_shorter.
Defined.
End TxBody.

Module Tx.
Record t := mk { Body : option TxBody.t; AuthInfo : option AuthInfo.t; Signatures : list string }.
Definition set_Body (v : option TxBody.t) (m : t) : t := let '(mk _ a1 a2) := m in mk v a1 a2.
Definition set_AuthInfo (v : option AuthInfo.t) (m : t) : t := let '(mk a0 _ a2) := m in mk a0 v a2.
Definition set_Signatures (v : list string) (m : t) : t := let '(mk a0 a1 _) := m in mk a0 a1 v.

Definition MarshalToSizedBuffer (m : t) : string :=
  let i := "" in
  let i := concat_map (enc_bytes 0x1a) (Signatures m) +:+ i in
  let i := enc_opt 0x12 (AuthInfo m) +:+ i in
  let i := enc_opt 0xa (Body m) +:+ i in
  i.
Definition Size (m : t) : Z :=
  size_opt (Body m) + size_opt (AuthInfo m) + sum_map size_bytes (Signatures m).
Definition handle (fieldNum wireType l : Z) (rest : string) (m : t) : option (outcome (t * string)) :=
  match fieldNum with
  | 1 => ptr_field Body set_Body wireType l rest m
  | 2 => ptr_field AuthInfo set_AuthInfo wireType l rest m
  | 3 => strs_field Signatures set_Signatures wireType l rest m
  | _ => None
  end.
Definition Unmarshal (m : t) (s : string) : outcome t := unmarshal handle (λ _ m, m) s m.
#[global] Instance codec : Codec t := mkCodec _ Size MarshalToSizedBuffer (mk None None []) Unmarshal.
#[global, refine] Instance laws : CodecLaws t := { plain m := from_option plain True (Body m) ∧ from_option plain True (AuthInfo m) }.
Proof.
  - unfold fits, c_enc, c_Size, codec, Size, MarshalToSizedBuffer. intros m Hl. size_fields.
  - intros m Hp Hl. unfold fits, c_enc, c_Unmarshal, c_zero, codec, MarshalToSizedBuffer, Unmarshal in *.
    destruct m. cbn [Body AuthInfo Signatures] in *. destruct_and?. subst. decode_message.
  - intros m s. apply unmarshal_total. intros. unfold handle. handle_shorter.
Defined.
End Tx.

End Pb.
