(* ===== verification/Unknown.v ===== *)
(** * Unknown fields: codec/unknownproto/unknown_fields.go

    The traversal that rejects fields a message type does not have, into nested
    messages and into the messages packed in [Any]s.  Not under src/, and so
    parameters: the parsing functions of protowire with [IsScalar] of gogo's
    descriptors, and the registries of message types that the [init] functions
    and the modules fill. *)

From Stdlib Require Import ZArith Lia Ascii String.
From stdpp Require Import base tactics option list gmap strings.
From S2P Require Import Prelude GoStd Digits SdkInt Wire Proto WireMsg SdkMsgs.

Local Open Scope Z_scope.

Module Unknown.
Import Wire WireMsg.

(** ** Field descriptors *)

Inductive FieldType :=
  | TYPE_DOUBLE | TYPE_FLOAT | TYPE_INT64 | TYPE_UINT64 | TYPE_INT32 | TYPE_FIXED64 | TYPE_FIXED32 | TYPE_BOOL
  | TYPE_STRING | TYPE_GROUP | TYPE_MESSAGE | TYPE_BYTES | TYPE_UINT32 | TYPE_ENUM | TYPE_SFIXED32 | TYPE_SFIXED64
  | TYPE_SINT32 | TYPE_SINT64.
#[global] Instance FieldType_eq_dec : EqDecision FieldType.
Proof. solve_decision. Defined.

Record FieldDescriptor := mkField { fd_Number : Z; fd_Type : FieldType; fd_TypeName : string }.

#[global] Instance FieldDescriptor_eq_dec : EqDecision FieldDescriptor.
Proof. solve_decision. Defined.

(** The types a wire type may encode. *)
Definition checks (wireType : Z) : list FieldType :=
  match wireType with
  | 0 => [TYPE_INT32; TYPE_INT64; TYPE_UINT32; TYPE_UINT64; TYPE_SINT32; TYPE_SINT64; TYPE_BOOL; TYPE_ENUM]
  | 1 => [TYPE_FIXED64; TYPE_SFIXED64; TYPE_DOUBLE]
  | 2 => [TYPE_STRING; TYPE_BYTES; TYPE_MESSAGE; TYPE_INT32; TYPE_INT64; TYPE_UINT32; TYPE_UINT64; TYPE_SINT32;
          TYPE_SINT64; TYPE_BOOL; TYPE_ENUM; TYPE_FIXED64; TYPE_SFIXED64; TYPE_DOUBLE]
  | 3 => [TYPE_GROUP]
  | 4 => [TYPE_GROUP]
  | 5 => [TYPE_FIXED32; TYPE_SFIXED32; TYPE_FLOAT]
  | _ => []
  end.
Definition canEncodeType (wireType : Z) (descType : FieldType) : bool :=
  if (wireType <? 0) || (6 <=? wireType) then false
  else bool_decide (descType ∈ checks wireType).

(** [getDescriptorInfo]: the fields of a message by their numbers. *)
Definition getDescriptorInfo (md : list FieldDescriptor) : gmap Z FieldDescriptor :=
  foldl (λ m field, <[fd_Number field := field]> m) ∅ md.

(** ** What is used of other code *)

(** Lengths are negative on errors. *)
Class Protowire := {
  ConsumeTag : string → Z * Z * Z;
  ConsumeVarint : string → Z * Z;
  ConsumeFieldValue : Z → Z → string → Z;
  ConsumeField : string → Z * Z * Z;
  IsScalar : FieldType → bool }.

(** [proto.MessageType] of a full name and [Resolve] of a type URL, with the
    fields of the message they find. *)
Class Registry := {
  MessageType : string → option (list FieldDescriptor);
  Resolve : string → option (list FieldDescriptor) }.

(** ** The traversal *)

Definition bit11NonCritical : Z := 1024.

(** [s[n:]] and [s[:n]]. *)
Definition slice_from (n : Z) (s : string) : outcome string :=
  if (n <? 0) || (slen s <? n) then Panic "slice bounds out of range" else Ok (Str.drop (Z.to_nat n) s).
Definition slice_to (n : Z) (s : string) : outcome string :=
  if (n <? 0) || (slen s <? n) then Panic "slice bounds out of range" else Ok (Str.take (Z.to_nat n) s).

Section reject.
Context `{Protowire} `{Registry} (allowUnknownNonCriticals : bool).

(** A field that is not known, and one that is. *)
Definition check_field (fieldDescProto : option FieldDescriptor) (tagNum wireType : Z)
    (hasUnknownNonCriticals : bool) : outcome bool :=
  match fieldDescProto with
  | Some fd =>
      if canEncodeType wireType (fd_Type fd) then Ok hasUnknownNonCriticals else Err "Mismatched wire type"
  | None =>
      let isCriticalField := Z.land tagNum bit11NonCritical =? 0 in
      if isCriticalField || negb allowUnknownNonCriticals then Err "errUnknownField" else Ok true
  end.

(** The loop of [RejectUnknownFields] over the bytes of a message with the
    fields [md]; the call on a nested message returns at once on no bytes.
    Every round takes the byte of a tag and what is nested is inside the
    message, so the length bounds the rounds. *)
Fixpoint reject_loop (fuel : nat) (md : list FieldDescriptor) (bz : string)
    (hasUnknownNonCriticals : bool) : outcome bool :=
  match fuel with
  | O => Panic "RejectUnknownFields: out of fuel"
  | S fuel =>
      if String.eqb bz "" then Ok hasUnknownNonCriticals else
      let '(tagNum, wireType, m) := ConsumeTag bz in
      if m <? 0 then Err "invalid length" else
      let fieldDescProto := getDescriptorInfo md !! wrap32 tagNum in
      hasUnknownNonCriticals ← check_field fieldDescProto tagNum wireType hasUnknownNonCriticals;
      bz ← slice_from m bz;
      let n := ConsumeFieldValue tagNum wireType bz in
      if n <? 0 then Err "could not consume field value" else
      fieldBytes ← slice_to n bz;
      bz ← slice_from n bz;
      match fieldDescProto with
      | None => reject_loop fuel md bz hasUnknownNonCriticals
      | Some fd =>
          if IsScalar (fd_Type fd) then reject_loop fuel md bz hasUnknownNonCriticals
          else if String.eqb (fd_TypeName fd) "" then
            match fd_Type fd with
            | TYPE_STRING | TYPE_BYTES => reject_loop fuel md bz hasUnknownNonCriticals
            | _ => Err "failed to get typename for message"
            end
          else
            fieldBytes ← slice_from (ConsumeVarint fieldBytes).2 fieldBytes;
            child ← (if String.eqb (fd_TypeName fd) ".google.protobuf.Any" then
                       any_md ← or_err (MessageType "google.protobuf.Any") "no Descriptor";
                       child ← reject_loop fuel any_md fieldBytes false;
                       any ← Sdk.Any.Unmarshal c_zero fieldBytes;
                       msg ← or_err (Resolve (Sdk.Any.TypeUrl any)) "unable to resolve type URL";
                       child' ← reject_loop fuel msg (Sdk.Any.Value any) false;
                       Ok (child || child')
                     else
                       msg ← or_err (MessageType (Str.drop 1 (fd_TypeName fd))) "failed to retrieve the message";
                       reject_loop fuel msg fieldBytes false);
            reject_loop fuel md bz (hasUnknownNonCriticals || child)
      end
  end.

Definition RejectUnknownFields (bz : string) (md : list FieldDescriptor) : outcome bool :=
  reject_loop (S (String.length bz)) md bz false.
End reject.

Definition RejectUnknownFieldsStrict `{Protowire} `{Registry} (bz : string) (md : list FieldDescriptor) : outcome () :=
  _ ← RejectUnknownFields false bz md; Ok ().

(** ** What the parsing functions promise *)

Class ProtowireLaws `{Protowire} := {
  consume_tag num typ r : 1 <= num < 2 ^ 29 → 0 <= typ < 6 →
    ConsumeTag (encodeVarint (num * 8 + typ) +:+ r) = (num, typ, slen (encodeVarint (num * 8 + typ)));
  consume_varint v r : 0 <= v < 2 ^ 64 → ConsumeVarint (encodeVarint v +:+ r) = (v, slen (encodeVarint v));
  consume_value_varint num v r : 0 <= v < 2 ^ 64 →
    ConsumeFieldValue num 0 (encodeVarint v +:+ r) = slen (encodeVarint v);
  consume_value_bytes num s r : slen s < 2 ^ 63 →
    ConsumeFieldValue num 2 (encodeVarint (slen s) +:+ (s +:+ r)) = slen (encodeVarint (slen s)) + slen s;
  consume_field num s r : 1 <= num < 2 ^ 29 → slen s < 2 ^ 63 →
    ConsumeField (encodeVarint (num * 8 + 2) +:+ (encodeVarint (slen s) +:+ (s +:+ r))) =
      (num, 2, slen (encodeVarint (num * 8 + 2)) + (slen (encodeVarint (slen s)) + slen s));
  consume_tag_length s : (ConsumeTag s).2 < 0 ∨ 0 < (ConsumeTag s).2 <= slen s;
  consume_value_length num typ s : ConsumeFieldValue num typ s <= slen s;
  consume_prefix num s n : ConsumeFieldValue num 2 s = n → 0 <= n →
    0 <= (ConsumeVarint (Str.take (Z.to_nat n) s)).2 <= n;
  consume_field_length s : (ConsumeField s).2 < 0 ∨ 0 < (ConsumeField s).2 <= slen s;
  numbers_scalar t : t ∈ [TYPE_INT64; TYPE_UINT64; TYPE_INT32; TYPE_UINT32; TYPE_ENUM] → IsScalar t = true }.

(** ** Bytes that are accepted *)

Section accepts.
Context `{PL : ProtowireLaws} `{R : Registry}.

(** Nothing unknown is found in [s]. *)
Definition accepts (md : list FieldDescriptor) (s : string) : Prop :=
  ∀ allow fuel has, (String.length s < fuel)%nat → reject_loop allow fuel md s has = Ok has.

Lemma accepts_nil md : accepts md "".
Proof using Type. intros allow [|fuel] has Hf; [simpl in Hf; lia|done]. Qed.

Lemma slice_from_app a b : slice_from (slen a) (a +:+ b) = Ok b.
Proof using Type.
  unfold slice_from. pose proof (slen_nonneg a). pose proof (slen_nonneg b).
  rewrite (proj2 (Z.ltb_ge _ _)), (proj2 (Z.ltb_ge _ _)) by (rewrite ?slen_app; lia). cbn [orb].
  unfold slen. rewrite Nat2Z.id. by rewrite Str.drop_app.
Qed.
Lemma slice_to_app a b : slice_to (slen a) (a +:+ b) = Ok a.
Proof using Type.
  unfold slice_to. pose proof (slen_nonneg a). pose proof (slen_nonneg b).
  rewrite (proj2 (Z.ltb_ge _ _)), (proj2 (Z.ltb_ge _ _)) by (rewrite ?slen_app; lia). cbn [orb].
  unfold slen. rewrite Nat2Z.id. by rewrite Str.take_app.
Qed.

(** What follows a tag: a scalar, text, or a message whose bytes are accepted
    too. *)
Inductive payload_ok (fd : FieldDescriptor) : string → Prop :=
  | ok_scalar body : IsScalar (fd_Type fd) = true → payload_ok fd body
  | ok_text body : fd_TypeName fd = "" → fd_Type fd = TYPE_STRING ∨ fd_Type fd = TYPE_BYTES → payload_ok fd body
  | ok_message s md : slen s < 2 ^ 63 → fd_TypeName fd ≠ "" → fd_TypeName fd ≠ ".google.protobuf.Any" →
      MessageType (Str.drop 1 (fd_TypeName fd)) = Some md → accepts md s →
      payload_ok fd (encodeVarint (slen s) +:+ s)
  | ok_any s any any_md md : slen s < 2 ^ 63 → fd_TypeName fd = ".google.protobuf.Any" →
      MessageType "google.protobuf.Any" = Some any_md → accepts any_md s →
      Sdk.Any.Unmarshal c_zero s = Ok any → (String.length (Sdk.Any.Value any) <= String.length s)%nat →
      Resolve (Sdk.Any.TypeUrl any) = Some md → accepts md (Sdk.Any.Value any) →
      payload_ok fd (encodeVarint (slen s) +:+ s).

Lemma payload_skips allow fd body md rest fuel has :
  payload_ok fd body → (String.length body <= fuel)%nat → reject_loop allow fuel md rest has = Ok has →
  (if IsScalar (fd_Type fd) then reject_loop allow fuel md rest has
   else if String.eqb (fd_TypeName fd) "" then
     match fd_Type fd with
     | TYPE_STRING | TYPE_BYTES => reject_loop allow fuel md rest has
     | _ => Err "failed to get typename for message"
     end
   else
     fieldBytes ← slice_from (ConsumeVarint body).2 body;
     child ← (if String.eqb (fd_TypeName fd) ".google.protobuf.Any" then
                any_md ← or_err (MessageType "google.protobuf.Any") "no Descriptor";
                child ← reject_loop allow fuel any_md fieldBytes false;
                any ← Sdk.Any.Unmarshal c_zero fieldBytes;
                msg ← or_err (Resolve (Sdk.Any.TypeUrl any)) "unable to resolve type URL";
                child' ← reject_loop allow fuel msg (Sdk.Any.Value any) false;
                Ok (child || child')
              else
                msg ← or_err (MessageType (Str.drop 1 (fd_TypeName fd))) "failed to retrieve the message";
                reject_loop allow fuel msg fieldBytes false);
     reject_loop allow fuel md rest (has || child)) = Ok has.
Proof using PL.
  intros Hp Hf Hr. pose proof (orb_false_r has) as Ho.
  destruct Hp as [body Hs|body Ht Hs|s md' Hl Ht Ha Hm Hacc|s any any_md md' Hl Ha Hm Hacc Hu Hv Hres Hacc'].
  - by rewrite Hs.
  - rewrite Ht. destruct (IsScalar _); [done|]. by destruct Hs as [-> | ->].
  - destruct (IsScalar _); [done|]. pose proof (slen_nonneg s). pose proof (encodeVarint_length (slen s)) as Hpos.
    rewrite (proj2 (String.eqb_neq _ _) Ht), (proj2 (String.eqb_neq _ _) Ha).
    rewrite (consume_varint (slen s) s) by lia. cbn [snd]. rewrite slice_from_app, Hm. cbn [mbind outcome_bind or_err].
    rewrite Hacc; [|rewrite Str.length_app in Hf; lia]. cbn [mbind outcome_bind]. by rewrite Ho.
  - destruct (IsScalar _); [done|]. pose proof (slen_nonneg s). pose proof (encodeVarint_length (slen s)) as Hpos.
    rewrite Ha. cbn [String.eqb Ascii.eqb Bool.eqb andb].
    rewrite (consume_varint (slen s) s) by lia. cbn [snd]. rewrite slice_from_app, Hm. cbn [mbind outcome_bind or_err].
    rewrite Str.length_app in Hf. rewrite Hacc by lia. cbn [mbind outcome_bind].
    rewrite Hu. cbn [mbind outcome_bind]. rewrite Hres. cbn [mbind outcome_bind or_err].
    rewrite Hacc' by lia. cbn [mbind outcome_bind orb]. by rewrite Ho.
Qed.

Lemma accepts_field md num typ fd body rest :
  1 <= num < 2 ^ 29 → 0 <= typ < 6 → getDescriptorInfo md !! num = Some fd →
  canEncodeType typ (fd_Type fd) = true → ConsumeFieldValue num typ (body +:+ rest) = slen body →
  payload_ok fd body → accepts md rest →
  accepts md (encodeVarint (num * 8 + typ) +:+ (body +:+ rest)).
Proof using PL.
  intros Hn Ht Hfd Hc Hv Hp Hr allow [|fuel] has Hf; [lia|]. cbn [reject_loop].
  pose proof (encodeVarint_length (num * 8 + typ)) as Hpos. rewrite !Str.length_app in Hf.
  destruct (String.eqb_spec (encodeVarint (num * 8 + typ) +:+ (body +:+ rest)) "") as [E|_].
  { apply (f_equal String.length) in E. rewrite Str.length_app in E. simpl in E. lia. }
  rewrite consume_tag by done. pose proof (slen_nonneg (encodeVarint (num * 8 + typ))).
  rewrite (proj2 (Z.ltb_ge _ 0)) by done.
  assert (wrap32 num = num) as -> by (unfold wrap32; rewrite Z.mod_small by lia; lia).
  rewrite Hfd. cbn [check_field]. rewrite Hc. cbn [mbind outcome_bind].
  rewrite slice_from_app. cbn [mbind outcome_bind]. rewrite Hv. pose proof (slen_nonneg body).
  rewrite (proj2 (Z.ltb_ge _ 0)) by done. rewrite slice_to_app, slice_from_app. cbn [mbind outcome_bind].
  apply payload_skips; [done|lia|]. apply Hr. lia.
Qed.

(** ** The encodings of fields *)

Lemma encodeVarint_small v : 0 <= v < 128 → encodeVarint v = String (byte_of v) "".
Proof using Type. intros Hv. unfold encodeVarint. cbn [varint_bytes]. by rewrite (proj2 (Z.ltb_lt _ _)) by lia. Qed.

Lemma tag_split tag : tag / 8 * 8 + tag mod 8 = tag.
Proof using Type. pose proof (Z.div_mod tag 8 ltac:(lia)). lia. Qed.
Lemma tag_range tag : 8 <= tag < 2 ^ 31 → 1 <= tag / 8 < 2 ^ 29.
Proof using Type. split; [apply Z.div_le_lower_bound; lia|apply Z.div_lt_upper_bound; lia]. Qed.

Lemma accepts_int md tag v fd rest : 8 <= tag < 128 → tag mod 8 = 0 →
  getDescriptorInfo md !! (tag / 8) = Some fd →
  fd_Type fd ∈ [TYPE_INT64; TYPE_UINT64; TYPE_INT32; TYPE_UINT32; TYPE_ENUM] →
  accepts md rest → accepts md (enc_int64 tag v +:+ rest).
Proof using PL.
  intros Ht Hw Hfd Hn Hr. unfold enc_int64. destruct (v =? 0); [done|].
  change (String (byte_of tag) (encodeVarint (wrapu64 v)) +:+ rest)
    with (String (byte_of tag) "" +:+ (encodeVarint (wrapu64 v) +:+ rest)).
  rewrite <- encodeVarint_small by lia. rewrite <- (tag_split tag) at 1. rewrite Hw.
  assert (0 <= wrapu64 v < 2 ^ 64) by (apply Z.mod_pos_bound; lia).
  apply (accepts_field md (tag / 8) 0 fd); try done; [apply tag_range; lia| | |].
  - unfold canEncodeType. cbn [Z.ltb Z.leb Z.compare orb]. apply bool_decide_eq_true. cbn [checks]. set_solver.
  - by apply consume_value_varint.
  - by apply ok_scalar, numbers_scalar.
Qed.

(** A length-delimited field, with a tag of any length. *)
Lemma accepts_delimited md tag tagBytes s fd rest : encodeVarint tag = tagBytes → 8 <= tag < 2 ^ 31 → tag mod 8 = 2 →
  getDescriptorInfo md !! (tag / 8) = Some fd → fd_Type fd ∈ [TYPE_STRING; TYPE_BYTES; TYPE_MESSAGE] →
  slen s < 2 ^ 63 → payload_ok fd (encodeVarint (slen s) +:+ s) → accepts md rest →
  accepts md ((tagBytes +:+ (encodeVarint (slen s) +:+ s)) +:+ rest).
Proof using PL.
  intros <- Ht Hw Hfd Hn Hs Hp Hr. rewrite Str.app_assoc. rewrite <- (tag_split tag) at 1. rewrite Hw.
  apply (accepts_field md (tag / 8) 2 fd); try done; [by apply tag_range| |].
  - unfold canEncodeType. cbn [Z.ltb Z.leb Z.compare orb]. apply bool_decide_eq_true. cbn [checks]. set_solver.
  - rewrite Str.app_assoc, consume_value_bytes by done. by rewrite slen_app.
Qed.

Lemma accepts_bytes md tag s fd rest : 8 <= tag < 128 → tag mod 8 = 2 →
  getDescriptorInfo md !! (tag / 8) = Some fd → fd_Type fd ∈ [TYPE_STRING; TYPE_BYTES; TYPE_MESSAGE] →
  payload_ok fd (encodeVarint (slen s) +:+ s) → slen (enc_bytes tag s) < 2 ^ 63 → accepts md rest →
  accepts md (enc_bytes tag s +:+ rest).
Proof using PL.
  intros Ht Hw Hfd Hn Hp Hs Hr. pose proof (slen_le_enc_bytes tag s).
  apply (accepts_delimited md tag (String (byte_of tag) "") s fd rest); try done; [|lia..].
  apply encodeVarint_small. lia.
Qed.

(** Text. *)
Definition text_field (fd : FieldDescriptor) : Prop :=
  fd_TypeName fd = "" ∧ fd_Type fd ∈ [TYPE_STRING; TYPE_BYTES].
Lemma text_payload fd body : text_field fd → payload_ok fd body.
Proof using PL. intros [H1 H2]. apply ok_text; [done|]. set_solver. Qed.

Lemma accepts_text md tag s fd rest : 8 <= tag < 128 → tag mod 8 = 2 →
  getDescriptorInfo md !! (tag / 8) = Some fd → text_field fd → slen (enc_bytes tag s +:+ rest) < 2 ^ 63 →
  (slen rest < 2 ^ 63 → accepts md rest) → accepts md (enc_bytes tag s +:+ rest).
Proof using PL.
  intros Ht Hw Hfd Hf Hs Hr. rewrite slen_app in Hs. pose proof (slen_nonneg rest).
  pose proof (slen_nonneg (enc_bytes tag s)). destruct Hf as [Hf1 Hf2].
  apply (accepts_bytes md tag s fd); [done|done|done|set_solver|by apply text_payload|lia|apply Hr; lia].
Qed.
Lemma accepts_str md tag s fd rest : 8 <= tag < 128 → tag mod 8 = 2 →
  getDescriptorInfo md !! (tag / 8) = Some fd → text_field fd → slen (enc_str tag s +:+ rest) < 2 ^ 63 →
  (slen rest < 2 ^ 63 → accepts md rest) → accepts md (enc_str tag s +:+ rest).
Proof using PL.
  intros Ht Hw Hfd Hf Hs Hr. unfold enc_str in *. destruct (String.eqb s ""); [by apply Hr|].
  by apply (accepts_text md tag s fd).
Qed.
Lemma accepts_strs md tag l fd rest : 8 <= tag < 128 → tag mod 8 = 2 →
  getDescriptorInfo md !! (tag / 8) = Some fd → text_field fd → slen (concat_map (enc_bytes tag) l +:+ rest) < 2 ^ 63 →
  (slen rest < 2 ^ 63 → accepts md rest) → accepts md (concat_map (enc_bytes tag) l +:+ rest).
Proof using PL.
  intros Ht Hw Hfd Hf. induction l as [|s l IH]; intros Hs Hr; cbn [concat_map] in *; [by apply Hr|].
  rewrite Str.app_assoc in *. apply (accepts_text md tag s fd); try done. intros Hl. by apply IH.
Qed.
Lemma accepts_number md tag v fd rest : 8 <= tag < 128 → tag mod 8 = 0 →
  getDescriptorInfo md !! (tag / 8) = Some fd →
  fd_Type fd ∈ [TYPE_INT64; TYPE_UINT64; TYPE_INT32; TYPE_UINT32; TYPE_ENUM] →
  slen (enc_int64 tag v +:+ rest) < 2 ^ 63 →
  (slen rest < 2 ^ 63 → accepts md rest) → accepts md (enc_int64 tag v +:+ rest).
Proof using PL.
  intros Ht Hw Hfd Hf Hs Hr. rewrite slen_app in Hs. pose proof (slen_nonneg (enc_int64 tag v)).
  apply (accepts_int md tag v fd); try done. apply Hr. lia.
Qed.
End accepts.

(** ** Messages inside messages *)

(** A message type with its full name and fields; nothing unknown is found in
    the encoding of a value that is [known]. *)
Class Described (A : Type) `{Codec A} `{Protowire} `{Registry} := {
  d_name : string;
  d_fields : list FieldDescriptor;
  known : A → Prop;
  described a : known a → fits a → accepts d_fields (c_enc a) }.
#[global] Hint Mode Described ! - - - : typeclass_instances.

Arguments d_name A {_ _ _ _}.
Arguments d_fields A {_ _ _ _}.

(** The registry has the type. *)
Class Registered (A : Type) `{Described A} := registered : MessageType (d_name A) = Some (d_fields A).
#[global] Hint Mode Registered ! - - - - : typeclass_instances.

Section nested.
Context {A} `{L : Registered A} `{PL : !ProtowireLaws}.

Definition message_field (fd : FieldDescriptor) : Prop :=
  fd_Type fd = TYPE_MESSAGE ∧ fd_TypeName fd = "." +:+ d_name A ∧ d_name A ≠ "google.protobuf.Any".

Lemma accepts_msg md tag (a : A) fd rest : 8 <= tag < 128 → tag mod 8 = 2 →
  getDescriptorInfo md !! (tag / 8) = Some fd → message_field fd → known a →
  slen (enc_msg tag a +:+ rest) < 2 ^ 63 →
  (slen rest < 2 ^ 63 → accepts md rest) → accepts md (enc_msg tag a +:+ rest).
Proof using L PL.
  intros Ht Hw Hfd (Hf1 & Hf2 & Hf3) Hk Hs Hr. rewrite slen_app in Hs. pose proof (slen_nonneg rest).
  pose proof (slen_nonneg (enc_msg tag a)). pose proof (slen_le_enc_msg tag a).
  apply (accepts_bytes md tag (c_enc a) fd); [done|done|done|rewrite Hf1; set_solver| |unfold enc_msg in *; lia|apply Hr; lia].
  apply ok_message with (d_fields A); [lia|by rewrite Hf2|rewrite Hf2; by intros [= ?]|by rewrite Hf2|].
  apply described; [done|unfold fits; lia].
Qed.
Lemma accepts_opt md tag (o : option A) fd rest : 8 <= tag < 128 → tag mod 8 = 2 →
  getDescriptorInfo md !! (tag / 8) = Some fd → message_field fd → from_option known True o →
  slen (enc_opt tag o +:+ rest) < 2 ^ 63 →
  (slen rest < 2 ^ 63 → accepts md rest) → accepts md (enc_opt tag o +:+ rest).
Proof using L PL. intros Ht Hw Hfd Hf Hk Hs Hr. destruct o as [a|]; [|by apply Hr]. by apply (accepts_msg md tag a fd). Qed.
Lemma accepts_msgs md tag (l : list A) fd rest : 8 <= tag < 128 → tag mod 8 = 2 →
  getDescriptorInfo md !! (tag / 8) = Some fd → message_field fd → Forall known l →
  slen (concat_map (enc_msg tag) l +:+ rest) < 2 ^ 63 →
  (slen rest < 2 ^ 63 → accepts md rest) → accepts md (concat_map (enc_msg tag) l +:+ rest).
Proof using L PL.
  intros Ht Hw Hfd Hf. induction 1 as [|a l Ha _ IH]; intros Hs Hr; cbn [concat_map] in *; [by apply Hr|].
  rewrite Str.app_assoc in *. apply (accepts_msg md tag a fd); try done. intros Hl. by apply IH.
Qed.
End nested.
Arguments message_field A {_ _ _ _} fd.

(** ** Packed messages *)

Definition Any_md : list FieldDescriptor := [mkField 1 TYPE_STRING ""; mkField 2 TYPE_BYTES ""].

Section any.
Context `{PL : ProtowireLaws} `{R : Registry}.

#[global, refine] Instance Any_described : Described Sdk.Any.t :=
  { d_name := "google.protobuf.Any"; d_fields := Any_md; known m := Sdk.Any.unrecognized m = "" }.
Proof using PL.
  intros [u v w] Hk Hl. cbn [Sdk.Any.unrecognized] in Hk. subst w.
  unfold fits, c_enc, Sdk.Any.codec, Sdk.Any.MarshalToSizedBuffer in *.
  cbn [Sdk.Any.TypeUrl Sdk.Any.Value Sdk.Any.unrecognized] in *.
  eapply accepts_str; [lia|done|reflexivity|split; [done|set_solver]|done|]. intros Hl'.
  eapply accepts_str; [lia|done|reflexivity|split; [done|set_solver]|done|]. intros _. apply accepts_nil.
Defined.

(** An [Any] whose type is found and in whose value nothing is unknown. *)
Definition known_any (a : Sdk.Any.t) : Prop :=
  Sdk.Any.unrecognized a = "" ∧
  ∃ md, Resolve (Sdk.Any.TypeUrl a) = Some md ∧ accepts md (Sdk.Any.Value a).

Definition any_field (fd : FieldDescriptor) : Prop :=
  fd_Type fd = TYPE_MESSAGE ∧ fd_TypeName fd = ".google.protobuf.Any".

Context {RA : Registered Sdk.Any.t}.

Lemma value_inside (a : Sdk.Any.t) : (String.length (Sdk.Any.Value a) <= String.length (c_enc a))%nat.
Proof using Type.
  pose proof (slen_le_enc_str 0x12 (Sdk.Any.Value a)) as Hv. unfold slen in Hv.
  unfold c_enc, Sdk.Any.codec, Sdk.Any.MarshalToSizedBuffer. rewrite !Str.length_app. lia.
Qed.

Lemma any_payload (a : Sdk.Any.t) fd : any_field fd → known_any a → slen (c_enc a) < 2 ^ 63 →
  payload_ok fd (encodeVarint (slen (c_enc a)) +:+ c_enc a).
Proof using PL RA.
  intros [Hf1 Hf2] (Hu & md & Hmd & Hacc) Hl.
  apply ok_any with a Any_md md; [done|done|apply RA| | | |done|done].
  - exact (described a Hu Hl).
  - exact (codec_inverse a Hu Hl).
  - apply value_inside.
Qed.

Lemma accepts_any md tag (a : Sdk.Any.t) fd rest : 8 <= tag < 128 → tag mod 8 = 2 →
  getDescriptorInfo md !! (tag / 8) = Some fd → any_field fd → known_any a →
  slen (enc_msg tag a +:+ rest) < 2 ^ 63 →
  (slen rest < 2 ^ 63 → accepts md rest) → accepts md (enc_msg tag a +:+ rest).
Proof using PL RA.
  intros Ht Hw Hfd Hf Hk Hs Hr. rewrite slen_app in Hs. pose proof (slen_nonneg rest).
  pose proof (slen_nonneg (enc_msg tag a)). pose proof (slen_le_enc_msg tag a).
  apply (accepts_bytes md tag (c_enc a) fd); [done|done|done|rewrite (proj1 Hf); set_solver| |unfold enc_msg in *; lia|apply Hr; lia].
  apply any_payload; [done|done|lia].
Qed.
Lemma accepts_any_opt md tag (o : option Sdk.Any.t) fd rest : 8 <= tag < 128 → tag mod 8 = 2 →
  getDescriptorInfo md !! (tag / 8) = Some fd → any_field fd → from_option known_any True o →
  slen (enc_opt tag o +:+ rest) < 2 ^ 63 →
  (slen rest < 2 ^ 63 → accepts md rest) → accepts md (enc_opt tag o +:+ rest).
Proof using PL RA. intros Ht Hw Hfd Hf Hk Hs Hr. destruct o as [a|]; [|by apply Hr]. by apply (accepts_any md tag a fd). Qed.
Lemma accepts_anys md tag (l : list Sdk.Any.t) fd rest : 8 <= tag < 128 → tag mod 8 = 2 →
  getDescriptorInfo md !! (tag / 8) = Some fd → any_field fd → Forall known_any l →
  slen (concat_map (enc_msg tag) l +:+ rest) < 2 ^ 63 →
  (slen rest < 2 ^ 63 → accepts md rest) → accepts md (concat_map (enc_msg tag) l +:+ rest).
Proof using PL RA.
  intros Ht Hw Hfd Hf. induction 1 as [|a l Ha _ IH]; intros Hs Hr; cbn [concat_map] in *; [by apply Hr|].
  rewrite Str.app_assoc in *. apply (accepts_any md tag a fd); try done. intros Hl. by apply IH.
Qed.
Lemma accepts_anys2 md tag t0 t1 (l : list Sdk.Any.t) fd rest :
  encodeVarint tag = String (byte_of t0) (String (byte_of t1) "") → 8 <= tag < 2 ^ 31 → tag mod 8 = 2 →
  getDescriptorInfo md !! (tag / 8) = Some fd → any_field fd → Forall known_any l →
  slen (concat_map (enc_msg2 t0 t1) l +:+ rest) < 2 ^ 63 →
  (slen rest < 2 ^ 63 → accepts md rest) → accepts md (concat_map (enc_msg2 t0 t1) l +:+ rest).
Proof using PL RA.
  intros Et Ht Hw Hfd Hf. induction 1 as [|a l Ha _ IH]; intros Hs Hr; cbn [concat_map] in *; [by apply Hr|].
  rewrite Str.app_assoc in *. rewrite slen_app in Hs. pose proof (slen_le_enc_msg2 t0 t1 a).
  pose proof (slen_nonneg (concat_map (enc_msg2 t0 t1) l +:+ rest)). pose proof (slen_nonneg (enc_msg2 t0 t1 a)).
  change (enc_msg2 t0 t1 a) with (String (byte_of t0) (String (byte_of t1) "") +:+ (encodeVarint (slen (c_enc a)) +:+ c_enc a)).
  apply (accepts_delimited md tag _ (c_enc a) fd); [done|done|done|done|rewrite (proj1 Hf); set_solver|lia| |apply IH; [lia|done]].
  apply any_payload; [done|done|lia].
Qed.
End any.

(** ** The traversal returns *)

(** Type names are those of messages and enums. *)
Definition named_messages (md : list FieldDescriptor) : Prop :=
  ∀ fd, fd ∈ md → fd_TypeName fd ≠ "" → fd_Type fd = TYPE_MESSAGE ∨ fd_Type fd = TYPE_ENUM.

Lemma getDescriptorInfo_elem md k fd : getDescriptorInfo md !! k = Some fd → fd ∈ md.
Proof.
  unfold getDescriptorInfo. induction md as [|f md IH] using rev_ind; [done|].
  rewrite foldl_snoc, elem_of_app, list_elem_of_singleton.
  destruct (decide (fd_Number f = k)) as [<-|Hk]; [rewrite lookup_insert_eq|rewrite lookup_insert_ne by done].
  - intros [= ->]. by right.
  - intros H. left. by apply IH.
Qed.

Lemma any_value_bound s a : Sdk.Any.Unmarshal c_zero s = Ok a → (String.length (Sdk.Any.Value a) <= String.length s)%nat.
Proof.
  apply (unmarshal_invariant _ _ (λ a, (String.length (Sdk.Any.Value a) <= String.length s)%nat) (String.length s));
    [|by intros b [u v w]|lia|simpl; lia].
  intros f w l r m m' r' Hr Hm. unfold Sdk.Any.handle, str_field.
  pose proof (read_bytes_shorter l r) as Hs.
  destruct (read_bytes l r) as [[v rest]| |] eqn:Ev; [apply read_bytes_inside in Ev|..];
    repeat case_match; cbn [mbind outcome_bind shorter] in *; intros [= <- <-]; destruct m; simpl in *; lia.
Qed.

Lemma drop_length n s : String.length (Str.drop n s) = (String.length s - n)%nat.
Proof. revert s. induction n as [|n IH]; intros [|c s]; simpl; auto. Qed.
Lemma take_length n s : (n <= String.length s)%nat → String.length (Str.take n s) = n.
Proof. revert s. induction n as [|n IH]; intros [|c s] Hn; simpl in *; try lia. rewrite IH; lia. Qed.

(** A slice within bounds. *)
Lemma slice_from_in n s : 0 <= n <= slen s →
  slice_from n s = Ok (Str.drop (Z.to_nat n) s).
Proof. intros H. unfold slice_from. by rewrite (proj2 (Z.ltb_ge _ _)), (proj2 (Z.ltb_ge _ _)) by lia. Qed.
Lemma slice_to_in n s : 0 <= n <= slen s →
  slice_to n s = Ok (Str.take (Z.to_nat n) s) ∧ String.length (Str.take (Z.to_nat n) s) = Z.to_nat n.
Proof.
  intros H. unfold slice_to. rewrite (proj2 (Z.ltb_ge _ _)), (proj2 (Z.ltb_ge _ _)) by lia.
  split; [done|]. apply take_length. unfold slen in *. lia.
Qed.

Lemma canEncodeType_message wt : canEncodeType wt TYPE_MESSAGE = true → wt = 2.
Proof.
  unfold canEncodeType. destruct ((wt <? 0) || (6 <=? wt)) eqn:E; [done|]. intros H%bool_decide_eq_true.
  apply orb_false_iff in E as [E1%Z.ltb_ge E2%Z.leb_gt].
  assert (wt = 0 ∨ wt = 1 ∨ wt = 2 ∨ wt = 3 ∨ wt = 4 ∨ wt = 5) as Hw by lia.
  by destruct Hw as [->|[->|[->|[->|[-> | ->]]]]]; cbn [checks] in H; set_solver.
Qed.

Section total.
Context `{PL : ProtowireLaws} `{R : Registry}.
Hypothesis types_named : ∀ name md, MessageType name = Some md → named_messages md.
Hypothesis urls_named : ∀ url md, Resolve url = Some md → named_messages md.

Lemma reject_total allow fuel md bz has : named_messages md → (String.length bz < fuel)%nat →
  returns (reject_loop allow fuel md bz has).
Proof using PL types_named urls_named.
  revert md bz has. induction fuel as [|fuel IH]; intros md bz has Hmd Hf; [lia|]. cbn [reject_loop].
  destruct (String.eqb bz ""); [done|]. pose proof (consume_tag_length bz) as Hm.
  destruct (ConsumeTag bz) as [[num typ] m]. cbn [snd] in Hm.
  destruct (Z.ltb_spec m 0); [done|].
  destruct (check_field allow _ num typ has) as [has'| |] eqn:Ec; cbn [mbind outcome_bind]; [|done|].
  2:{ unfold check_field in Ec. repeat case_match; done. }
  rewrite slice_from_in by lia. cbn [mbind outcome_bind].
  set (b := Str.drop _ bz). assert (String.length b < fuel)%nat as Hb by (subst b; rewrite drop_length; unfold slen in *; lia).
  pose proof (consume_value_length num typ b) as Hn. set (n := ConsumeFieldValue num typ b) in *.
  destruct (Z.ltb_spec n 0); [done|]. destruct (slice_to_in n b ltac:(lia)) as [-> Hlen].
  rewrite slice_from_in by lia. cbn [mbind outcome_bind].
  assert (∀ has, returns (reject_loop allow fuel md (Str.drop (Z.to_nat n) b) has)) as Hrest
    by (intros; apply IH; [done|rewrite drop_length; lia]).
  destruct (getDescriptorInfo md !! wrap32 num) as [fd|] eqn:Efd; [|apply Hrest].
  destruct (IsScalar (fd_Type fd)) eqn:Es; [apply Hrest|].
  destruct (String.eqb_spec (fd_TypeName fd) "") as [_|Hname]; [destruct (fd_Type fd); try done; apply Hrest|].
  apply getDescriptorInfo_elem in Efd. destruct (Hmd fd Efd Hname) as [Et|Et];
    [|rewrite Et, numbers_scalar in Es; [done|set_solver]].
  cbn [check_field] in Ec. rewrite Et in Ec. destruct (canEncodeType typ TYPE_MESSAGE) eqn:Ety; [|done].
  apply canEncodeType_message in Ety. subst typ.
  pose proof (consume_prefix num b n eq_refl ltac:(lia)) as Hpre.
  rewrite slice_from_in by (unfold slen; lia). cbn [mbind outcome_bind].
  set (p := Str.drop _ (Str.take _ b)). assert (String.length p < fuel)%nat as Hp.
  { subst p. rewrite drop_length. unfold slen in *. lia. }
  match goal with |- returns (mbind _ ?o) => assert (returns o) as Ho; [|destruct o; [apply Hrest|done..]] end.
  case_match; [|destruct (MessageType _) as [md'|] eqn:Em; [|done]; apply IH; [by apply (types_named _ _ Em)|done]].
  destruct (MessageType _) as [any_md|] eqn:Em; [|done]. cbn [or_err mbind outcome_bind].
  pose proof (IH any_md p false (types_named _ _ Em) Hp) as Hr1. destruct (reject_loop allow fuel any_md p false); [|done..].
  cbn [mbind outcome_bind]. pose proof (codec_total (A := Sdk.Any.t) c_zero p) as Hr2.
  cbn [c_Unmarshal Sdk.Any.codec] in Hr2. destruct (Sdk.Any.Unmarshal c_zero p) as [any| |] eqn:Ea; [|done..].
  cbn [mbind outcome_bind]. destruct (Resolve _) as [md'|] eqn:Er; [|done]. cbn [or_err mbind outcome_bind].
  apply any_value_bound in Ea. pose proof (IH md' (Sdk.Any.Value any) false (urls_named _ _ Er) ltac:(lia)) as Hr3.
  by destruct (reject_loop allow fuel md' (Sdk.Any.Value any) false).
Qed.
End total.

(** One field of the encoding of a message. *)
Ltac field_desc := first
  [ split; [done|set_solver] | set_solver | repeat split; done ].
Ltac accept_field :=
  first
    [ eapply accepts_str; [lia|done|reflexivity|field_desc|assumption|intros ?]
    | eapply accepts_text; [lia|done|reflexivity|field_desc|assumption|intros ?]
    | eapply accepts_strs; [lia|done|reflexivity|field_desc|assumption|intros ?]
    | eapply accepts_number; [lia|done|reflexivity|set_solver|assumption|intros ?]
    | eapply accepts_any_opt; [lia|done|reflexivity|repeat split; done|assumption|assumption|intros ?]
    | eapply accepts_anys; [lia|done|reflexivity|repeat split; done|assumption|assumption|intros ?]
    | match goal with |- context [concat_map (enc_msg2 ?t0 ?t1) _] =>
        let tag := eval vm_compute in (t1 * 128 + t0 - 128) in
        eapply (accepts_anys2 _ tag);
          [reflexivity|lia|done|reflexivity|repeat split; done|assumption|assumption|intros ?] end
    | eapply accepts_opt; [lia|done|reflexivity|repeat split; done|assumption|assumption|intros ?]
    | eapply accepts_msgs; [lia|done|reflexivity|repeat split; done|assumption|assumption|intros ?]
    | eapply accepts_msg; [lia|done|reflexivity|repeat split; done|assumption|assumption|intros ?] ].
Ltac accept_message := repeat accept_field; try apply accepts_nil.

End Unknown.
