(* ===== verification/Store.v ===== *)
(** * Key-value stores: what a keeper sees of store/types

    A store is a finite map from byte strings; [Iterator] walks a half-open
    range of keys in byte order over the contents at the time it is made.
    [KVStorePrefixIterator] and [PrefixEndBytes] are those of
    store/types/utils.go. *)

From Stdlib Require Import ZArith Lia Ascii String.
From stdpp Require Import base tactics option list gmap sorting strings.
From S2P Require Import Prelude GoStd Wire.

Local Open Scope Z_scope.

Module Store.
Import Wire.

(** ** PrefixEndBytes *)

(** The loop over [end], whose last byte comes first here. *)
Fixpoint prefix_end_loop (rend : list ascii) : option (list ascii) :=
  match rend with
  | [] => None
  | c :: rest =>
      if byte_val c =? 255 then prefix_end_loop rest
      else Some (byte_of (byte_val c + 1) :: rest)
  end.

Definition PrefixEndBytes (prefix : string) : option string :=
  if String.eqb prefix "" then None
  else (λ r, string_of_list_ascii (reverse r)) <$>
         prefix_end_loop (reverse (list_ascii_of_string prefix)).

(** ** Iteration *)
Section iter.
Context {V : Type}.
Implicit Types (kv : gmap string V).

Definition key_le (a b : string * V) : Prop := Str.ltb b.1 a.1 = false.
#[global] Instance key_le_dec : RelDecision key_le.
Proof. intros a b. unfold key_le. apply _. Defined.

(** The keys in [[start, end)]; a nil [end] is unbounded. *)
Definition in_domain (start : string) (stop : option string) (p : string * V) : bool :=
  negb (Str.ltb p.1 start) &&
  match stop with None => true | Some e => Str.ltb p.1 e end.

Definition Iterator kv (start : string) (stop : option string) : list (string * V) :=
  merge_sort key_le (filter (λ p, in_domain start stop p = true) (map_to_list kv)).

Definition KVStorePrefixIterator kv (prefix : string) : list (string * V) :=
  Iterator kv prefix (PrefixEndBytes prefix).
End iter.

(** ** Facts *)

Lemma ltb_cons c a d b :
  Str.ltb (String c a) (String d b) =
  if byte_val c =? byte_val d then Str.ltb a b else byte_val c <? byte_val d.
Proof.
  unfold Str.ltb, String.ltb, byte_val. simpl. unfold Ascii.compare.
  destruct (N.compare_spec (N_of_ascii c) (N_of_ascii d)) as [H|H|H].
  - by rewrite H, Z.eqb_refl.
  - rewrite (proj2 (Z.eqb_neq _ _)), (proj2 (Z.ltb_lt _ _)) by lia. done.
  - rewrite (proj2 (Z.eqb_neq _ _)), (proj2 (Z.ltb_ge _ _)) by lia. done.
Qed.

Lemma byte_val_range c : 0 <= byte_val c < 256.
Proof. unfold byte_val. pose proof (N_ascii_bounded c). lia. Qed.
Lemma byte_val_inj c d : byte_val c = byte_val d → c = d.
Proof.
  unfold byte_val. intros H%N2Z.inj. by rewrite <-(ascii_N_embedding c), H, ascii_N_embedding.
Qed.

(** From the front: the first byte stays as long as the rest has an end. *)
Lemma prefix_end_cons l c :
  prefix_end_loop (l ++ [c]) =
  match prefix_end_loop l with
  | Some r => Some (r ++ [c])
  | None => if byte_val c =? 255 then None else Some [byte_of (byte_val c + 1)]
  end.
Proof.
  induction l as [|d l IH]; simpl; [done|]. destruct (byte_val d =? 255); [done|done].
Qed.

Definition end_of (p : string) : option string :=
  (λ r, string_of_list_ascii (reverse r)) <$>
    prefix_end_loop (reverse (list_ascii_of_string p)).

Lemma end_of_cons c p :
  end_of (String c p) =
  match end_of p with
  | Some e => Some (String c e)
  | None => if byte_val c =? 255 then None else Some (String (byte_of (byte_val c + 1)) "")
  end.
Proof.
  unfold end_of. simpl. rewrite reverse_cons, prefix_end_cons.
  destruct (prefix_end_loop _) as [r|]; simpl.
  - by rewrite reverse_app.
  - by destruct (byte_val c =? 255).
Qed.

Lemma PrefixEndBytes_end_of p : PrefixEndBytes p = end_of p.
Proof. unfold PrefixEndBytes. by destruct (String.eqb_spec p "") as [->|]. Qed.

Lemma prefix_cons c k d p :
  Str.has_prefix (String c k) (String d p) = (byte_val c =? byte_val d) && Str.has_prefix k p.
Proof.
  unfold Str.has_prefix. simpl. destruct (ascii_dec d c) as [->|Hne].
  - by rewrite Z.eqb_refl.
  - destruct (Z.eqb_spec (byte_val c) (byte_val d)) as [E|]; [|done].
    by apply byte_val_inj in E as ->.
Qed.

(** The range of the prefix iterator is exactly the keys with the prefix. *)
Lemma in_domain_prefix {V} p (x : string * V) :
  in_domain p (PrefixEndBytes p) x = Str.has_prefix x.1 p.
Proof.
  destruct x as [k v]. unfold in_domain. simpl. rewrite PrefixEndBytes_end_of.
  revert k. induction p as [|d p IH]; intros k; [by destruct k|].
  rewrite end_of_cons. destruct k as [|c k]; [by destruct (end_of p)|].
  rewrite prefix_cons, <-IH, ltb_cons.
  pose proof (byte_val_range c). pose proof (byte_val_range d).
  destruct (Z.eqb_spec (byte_val c) (byte_val d)) as [E|E]; simpl.
  - destruct (end_of p) as [e|]; [by rewrite ltb_cons, E, Z.eqb_refl|].
    destruct (Z.eqb_spec (byte_val d) 255); [done|].
    rewrite ltb_cons, byte_val_of by lia.
    rewrite (proj2 (Z.eqb_neq _ _)), (proj2 (Z.ltb_lt _ _)) by lia. done.
  - destruct (Z.ltb_spec (byte_val c) (byte_val d)); [done|].
    destruct (end_of p) as [e|].
    + rewrite ltb_cons, (proj2 (Z.eqb_neq _ _)), (proj2 (Z.ltb_ge _ _)) by lia. done.
    + destruct (Z.eqb_spec (byte_val d) 255); [lia|].
      rewrite ltb_cons, byte_val_of by lia.
      destruct (Z.eqb_spec (byte_val c) (byte_val d + 1)); [by destruct k|].
      by rewrite (proj2 (Z.ltb_ge _ _)) by lia.
Qed.

Section facts.
Context {V : Type}.
Implicit Types (kv : gmap string V).

#[global] Instance key_le_total : Total (key_le (V:=V)).
Proof.
  intros a b. unfold key_le. destruct (Str.ltb b.1 a.1) eqn:E; [right|by left].
  destruct (Str.ltb a.1 b.1) eqn:E'; [|done]. by destruct (Str.lt_asym _ _ E E').
Qed.
#[global] Instance key_le_trans : Transitive (key_le (V:=V)).
Proof.
  intros a b c. unfold key_le. intros H1 H2.
  destruct (Str.ltb c.1 a.1) eqn:E; [|done].
  destruct (Str.lt_trichotomy a.1 b.1) as [H|[H|H]]; [| |unfold Str.lt in H; congruence].
  - assert (Str.lt c.1 b.1) by (by eapply Str.lt_trans). unfold Str.lt in *. congruence.
  - rewrite H in E. congruence.
Qed.

Lemma prefix_iter_elem kv p k v :
  (k, v) ∈ KVStorePrefixIterator kv p ↔ kv !! k = Some v ∧ Str.has_prefix k p = true.
Proof.
  unfold KVStorePrefixIterator, Iterator. rewrite merge_sort_Permutation.
  rewrite list_elem_of_filter, in_domain_prefix, elem_of_map_to_list. simpl. tauto.
Qed.

Lemma prefix_iter_perm kv p :
  KVStorePrefixIterator kv p ≡ₚ
  map_to_list (filter (λ x, Str.has_prefix x.1 p = true) kv).
Proof.
  unfold KVStorePrefixIterator, Iterator. rewrite merge_sort_Permutation.
  apply NoDup_Permutation.
  - apply NoDup_filter, NoDup_map_to_list.
  - apply NoDup_map_to_list.
  - intros [k v]. rewrite list_elem_of_filter, in_domain_prefix, !elem_of_map_to_list.
    rewrite map_lookup_filter_Some. simpl. tauto.
Qed.

Lemma prefix_iter_keys_NoDup kv p : NoDup (KVStorePrefixIterator kv p).*1.
Proof. rewrite prefix_iter_perm. apply NoDup_fst_map_to_list. Qed.

Lemma prefix_iter_sorted kv p : StronglySorted key_le (KVStorePrefixIterator kv p).
Proof. apply StronglySorted_merge_sort; apply _. Qed.

Lemma sorted_lookup_lt {A} (R : relation A) l i j x y : StronglySorted R l →
  l !! i = Some x → l !! j = Some y → (i < j)%nat → R x y.
Proof.
  intros Hs. revert i j. induction Hs as [|z l Hs IH Hz]; intros i j; [done|].
  destruct i as [|i], j as [|j]; simpl; intros Hx Hy Hij; try lia.
  - injection Hx as ->. rewrite Forall_forall in Hz. by eapply Hz, list_elem_of_lookup_2.
  - apply (IH i j); [done|done|lia].
Qed.

Lemma end_of_spec p :
  match end_of p with
  | None => Forall (λ c, byte_val c = 255) (list_ascii_of_string p)
  | Some e => ∀ k, Str.has_prefix k p = true → Str.ltb k e = true
  end.
Proof.
  destruct (end_of p) as [e|] eqn:E.
  - intros k Hk. change (Str.has_prefix (k, ()).1 p = true) in Hk.
    rewrite <-in_domain_prefix in Hk. unfold in_domain in Hk.
    rewrite PrefixEndBytes_end_of, E in Hk. by apply andb_true_iff in Hk as [_ Hk].
  - induction p as [|c p IH]; [constructor|]. rewrite end_of_cons in E.
    destruct (end_of p); [done|]. destruct (Z.eqb_spec (byte_val c) 255); [|done].
    constructor; [done|]. by apply IH.
Qed.

(** Prefix iteration.  The range from a prefix to [PrefixEndBytes] of it
    holds exactly the keys with that prefix, for every prefix (also the empty
    one and one ending in 0xff bytes, where the end is shorter or absent); so
    the iterator yields every entry with the prefix once, no other entry, in
    strictly ascending byte order. *)
Theorem KVStorePrefixIterator_exact (kv : gmap string V) (p : string) :
  (∀ k v, (k, v) ∈ KVStorePrefixIterator kv p ↔ kv !! k = Some v ∧ Str.has_prefix k p = true) ∧
  (∀ i j x y, KVStorePrefixIterator kv p !! i = Some x → KVStorePrefixIterator kv p !! j = Some y →
     (i < j)%nat → Str.ltb x.1 y.1 = true) ∧
  match PrefixEndBytes p with
  | None => Forall (λ c, byte_val c = 255) (list_ascii_of_string p)
  | Some e => ∀ k, Str.has_prefix k p = true → Str.ltb k e = true
  end.
Proof.
  split; [intros k v; apply prefix_iter_elem|]. split.
  - intros i j x y Hx Hy Hij.
    assert (key_le x y) as Hle
      by exact (sorted_lookup_lt _ _ _ _ _ _ (prefix_iter_sorted kv p) Hx Hy Hij).
    destruct (Str.lt_trichotomy x.1 y.1) as [H|[H|H]]; [done| |unfold Str.lt, key_le in *; congruence].
    exfalso. apply (Nat.lt_irrefl i).
    rewrite (NoDup_lookup _ i j x.1 (prefix_iter_keys_NoDup kv p)) at 2; [done|..];
      rewrite list_lookup_fmap, ?Hx, ?Hy; [done|]. by rewrite H.
  - rewrite PrefixEndBytes_end_of. apply end_of_spec.
Qed.

(** The number of keys with a prefix. *)
Definition count (p : string) kv : nat :=
  size (filter (λ x, Str.has_prefix x.1 p = true) kv).

Lemma prefix_iter_length kv p : length (KVStorePrefixIterator kv p) = count p kv.
Proof. by rewrite prefix_iter_perm, length_map_to_list. Qed.

Lemma count_insert_other p k v kv :
  Str.has_prefix k p = false → count p (<[k := v]> kv) = count p kv.
Proof.
  intros Hk. unfold count. f_equal. apply map_filter_insert_not'; simpl; congruence.
Qed.

Lemma count_insert p k v kv :
  Str.has_prefix k p = true →
  count p (<[k := v]> kv) = if decide (is_Some (kv !! k)) then count p kv else S (count p kv).
Proof.
  intros Hk. unfold count. rewrite map_filter_insert_True by done.
  rewrite map_size_insert. case_decide as H.
  - destruct H as [w Hw].
    assert (filter (λ x, Str.has_prefix x.1 p = true) kv !! k = Some w) as ->; [|done].
    by apply map_lookup_filter_Some.
  - assert (filter (λ x, Str.has_prefix x.1 p = true) kv !! k = None) as ->; [|done].
    apply map_lookup_filter_None. left. by apply eq_None_not_Some.
Qed.

Lemma count_insert_le p k v kv : (count p kv <= count p (<[k := v]> kv))%nat.
Proof.
  destruct (Str.has_prefix k p) eqn:E.
  - rewrite count_insert by done. case_decide; lia.
  - by rewrite count_insert_other.
Qed.

Lemma count_delete_other p k kv :
  Str.has_prefix k p = false → count p (delete k kv) = count p kv.
Proof.
  intros Hk. unfold count. rewrite map_filter_delete.
  rewrite delete_id; [done|]. apply map_lookup_filter_None. right. simpl. congruence.
Qed.

Lemma count_delete p k v kv :
  Str.has_prefix k p = true → kv !! k = Some v → count p kv = S (count p (delete k kv)).
Proof.
  intros Hp Hk. rewrite <-(insert_delete_id kv k v Hk) at 1.
  rewrite count_insert by done. rewrite decide_False; [done|].
  rewrite lookup_delete_eq. by intros [? ?].
Qed.

Lemma key_le_antisym (x y : string * V) : key_le x y → key_le y x → x.1 = y.1.
Proof.
  unfold key_le. intros H1 H2.
  destruct (Str.lt_trichotomy x.1 y.1) as [H|[H|H]]; unfold Str.lt in H; congruence.
Qed.

(** The walk only depends on the entries with the prefix. *)
Lemma prefix_iter_ext kv kv' p :
  (∀ k, Str.has_prefix k p = true → kv !! k = kv' !! k) →
  KVStorePrefixIterator kv p = KVStorePrefixIterator kv' p.
Proof.
  intros Hext. apply (StronglySorted_unique_strong key_le); [|apply prefix_iter_sorted..|].
  - intros [k v] [k' v'] H1 H2 L1 L2. pose proof (key_le_antisym _ _ L1 L2) as Hk. simpl in Hk.
    subst k'. apply prefix_iter_elem in H1 as [H1 Hp]. apply prefix_iter_elem in H2 as [H2 _].
    rewrite Hext in H1 by done. congruence.
  - rewrite !prefix_iter_perm. f_equiv. apply map_filter_strong_ext. intros k v. simpl.
    split; intros [Hp Hk]; (split; [done|]); [by rewrite <-Hext|by rewrite Hext].
Qed.

(** Deleting a batch of keys. *)
Definition delete_all (ks : list string) kv : gmap string V := foldl (λ m k, delete k m) kv ks.

Lemma delete_all_cons k ks kv : delete_all (k :: ks) kv = delete_all ks (delete k kv).
Proof. done. Qed.
Lemma delete_all_app ks ks' kv : delete_all (ks ++ ks') kv = delete_all ks' (delete_all ks kv).
Proof. apply foldl_app. Qed.

Lemma lookup_delete_all ks kv k :
  delete_all ks kv !! k = if decide (k ∈ ks) then None else kv !! k.
Proof.
  revert kv. induction ks as [|k' ks IH]; intros kv; [done|].
  rewrite delete_all_cons, IH. destruct (decide (k ∈ ks)).
  - by rewrite decide_True by (by right).
  - destruct (decide (k = k')) as [->|].
    + rewrite lookup_delete_eq, decide_True by left. done.
    + rewrite lookup_delete_ne, decide_False by (rewrite ?elem_of_cons; naive_solver). done.
Qed.

Lemma count_delete_all p ks kv :
  NoDup ks → (∀ k, k ∈ ks → Str.has_prefix k p = true ∧ is_Some (kv !! k)) →
  count p kv = (length ks + count p (delete_all ks kv))%nat.
Proof.
  intros Hnd. revert kv. induction Hnd as [|k ks Hk Hnd IH]; intros kv Hks; [done|].
  rewrite delete_all_cons. destruct (Hks k) as [Hp [v Hv]]; [left|].
  rewrite (count_delete p k v kv Hp Hv), (IH (delete k kv)); [done|].
  intros k' Hk'. destruct (Hks k') as [Hp' Hs]; [by right|]. split; [done|].
  rewrite lookup_delete_ne by congruence. done.
Qed.

Lemma count_delete_all_other p ks kv :
  (∀ k, k ∈ ks → Str.has_prefix k p = false) → count p (delete_all ks kv) = count p kv.
Proof.
  revert kv. induction ks as [|k ks IH]; intros kv Hks; [done|].
  rewrite delete_all_cons, IH by (intros; apply Hks; by right).
  apply count_delete_other, Hks. left.
Qed.

(** The keys of the first [n] entries of a walk. *)
Definition first_keys (n : nat) (p : string) kv : list string :=
  (take n (KVStorePrefixIterator kv p)).*1.

Lemma first_keys_elem n p kv k :
  k ∈ first_keys n p kv → Str.has_prefix k p = true ∧ is_Some (kv !! k).
Proof.
  unfold first_keys. intros ([k' v] & -> & Hk)%list_elem_of_fmap.
  assert ((k', v) ∈ KVStorePrefixIterator kv p) as [? Hp]%prefix_iter_elem.
  { eapply subseteq_take; eauto. }
  split; [done|]. eauto.
Qed.

Lemma first_keys_NoDup n p kv : NoDup (first_keys n p kv).
Proof.
  unfold first_keys. rewrite fmap_take. eapply sublist_NoDup; [apply prefix_iter_keys_NoDup|].
  apply sublist_take.
Qed.

Lemma first_keys_length n p kv : length (first_keys n p kv) = (n `min` count p kv)%nat.
Proof. unfold first_keys. by rewrite length_fmap, length_take, prefix_iter_length. Qed.
End facts.

End Store.
