(* ===== verification/CacheIter.v ===== *)
(** * Iterating over cached writes: store/cachekv/memiterator.go, mergeiterator.go

    The iterator of a cached store merges the iterator of its parent with the
    one over the sorted dirty items, in either direction.  The two underlying
    iterators are lists of the items still ahead (a store does not change below
    an open iterator); the set of deleted keys is shared with the store and may
    grow while the iterator is in use, which [lastKey] is for. *)

From Stdlib Require Import ZArith Lia Ascii String.
From stdpp Require Import base tactics option list gmap sorting strings.
From S2P Require Import Prelude GoStd Wire Store.

Module CacheIter.
Import Store.

Abbreviation item := (string * string)%type.

(** [bytes.Compare], the other way round when descending. *)
Definition compare (ascending : bool) (a b : string) : comparison :=
  if ascending then (a ?= b)%string else CompOpp (a ?= b)%string.

Record iter := mkIter {
  parent : list item;
  cache : list item;
  lastKey : option string }.

Definition set_parent (p : list item) (it : iter) : iter := mkIter p (cache it) (lastKey it).
Definition set_cache (c : list item) (it : iter) : iter := mkIter (parent it) c (lastKey it).

(** [memIterator.Value]: nil for a deleted key, unless the value was already
    read at this position. *)
Definition mem_Value (deleted : gset string) (it : iter) : option string * iter :=
  match cache it with
  | [] => (None, it)
  | (key, v) :: _ =>
      let again := bool_decide (lastKey it = Some key) in
      if bool_decide (key ∈ deleted) && negb again then (None, it)
      else (Some v, mkIter (parent it) (cache it) (Some key))
  end.

Section merge.
Context (ascending : bool).

(** Drop deleted cache items below [until]; [c] is the cache ahead. *)
Fixpoint skip_deletes (deleted : gset string) (until : option string) (c : list item) (it : iter) : iter :=
  match c with
  | [] => it
  | (key, _) :: c' =>
      let '(v, it) := mem_Value deleted it in
      if bool_decide (v = None) &&
         match until with None => true | Some u => bool_decide (compare ascending key u = Lt) end
      then skip_deletes deleted until c' (set_cache c' it)
      else it
  end.
Definition skipCacheDeletes (deleted : gset string) (until : option string) (it : iter) : iter :=
  skip_deletes deleted until (cache it) it.

(** Every round that does not return drops a cache item. *)
Fixpoint skip_loop (fuel : nat) (deleted : gset string) (it : iter) : bool * iter :=
  match fuel with
  | O => (false, it)
  | S f =>
      match parent it, cache it with
      | [], _ =>
          let it := skipCacheDeletes deleted None it in
          (match cache it with [] => false | _ => true end, it)
      | _, [] => (true, it)
      | (keyP, _) :: p', (keyC, _) :: c' =>
          match compare ascending keyP keyC with
          | Lt => (true, it)
          | Eq =>
              let '(valueC, it) := mem_Value deleted it in
              match valueC with
              | None => skip_loop f deleted (mkIter p' c' (lastKey it))
              | Some _ => (true, it)
              end
          | Gt =>
              let '(valueC, it) := mem_Value deleted it in
              match valueC with
              | None => skip_loop f deleted (skipCacheDeletes deleted (Some keyP) it)
              | Some _ => (true, it)
              end
          end
      end
  end.
Definition skipUntilExistsOrInvalid (deleted : gset string) (it : iter) : bool * iter :=
  skip_loop (S (length (cache it))) deleted it.

Definition Valid (deleted : gset string) : M iter bool := λ it,
  let '(b, it) := skipUntilExistsOrInvalid deleted it in (Ok b, it).

Definition assertValid (deleted : gset string) : M iter () :=
  b ← Valid deleted; lift (panic_if (negb b) "invalid cacheMergeIterator").

(** The move [Next] makes once the iterator is valid. *)
Definition advance (it : iter) : iter :=
  match parent it, cache it with
  | [], c => set_cache (tail c) it
  | p, [] => set_parent (tail p) it
  | (keyP, _) :: p', (keyC, _) :: c' =>
      match compare ascending keyP keyC with
      | Lt => set_parent p' it
      | Eq => mkIter p' c' (lastKey it)
      | Gt => set_cache c' it
      end
  end.
Definition Next (deleted : gset string) : M iter () :=
  _ ← Valid deleted;
  _ ← assertValid deleted;
  modify advance.

Definition Key (deleted : gset string) : M iter string :=
  _ ← Valid deleted;
  _ ← assertValid deleted;
  it ← gets id;
  lift match parent it, cache it with
       | [], [] => Panic "invalid iterator"
       | [], (keyC, _) :: _ => Ok keyC
       | (keyP, _) :: _, [] => Ok keyP
       | (keyP, _) :: _, (keyC, _) :: _ =>
           match compare ascending keyP keyC with
           | Lt | Eq => Ok keyP
           | Gt => Ok keyC
           end
       end.

(** The value of the cache item, which is never nil here. *)
Definition cache_Value (deleted : gset string) : M iter (option string) := λ it,
  let '(v, it) := mem_Value deleted it in (Ok v, it).

Definition Value (deleted : gset string) : M iter (option string) :=
  _ ← Valid deleted;
  _ ← assertValid deleted;
  it ← gets id;
  match parent it, cache it with
  | [], _ => cache_Value deleted
  | (_, vP) :: _, [] => mret (Some vP)
  | (keyP, vP) :: _, (keyC, _) :: _ =>
      match compare ascending keyP keyC with
      | Lt => mret (Some vP)
      | Eq | Gt => cache_Value deleted
      end
  end.
End merge.

(** ** The order of a direction *)

Definition dlt (ascending : bool) (a b : string) : Prop := compare ascending a b = Lt.
#[global] Instance dlt_dec asc a b : Decision (dlt asc a b) := decide (compare asc a b = Lt).
Abbreviation ahead asc := (StronglySorted (λ x y : item, dlt asc x.1 y.1)).

Lemma dlt_lt asc a b : dlt asc a b ↔ if asc then Str.lt a b else Str.lt b a.
Proof.
  unfold dlt, compare, Str.lt, Str.ltb, String.ltb. destruct asc.
  - by destruct (a ?= b)%string.
  - rewrite (String.compare_antisym b a). by destruct (a ?= b)%string.
Qed.

Lemma compare_dspec asc a b :
  CompareSpec (a = b) (dlt asc a b) (dlt asc b a) (compare asc a b).
Proof.
  pose proof (dlt_lt asc a b) as H1. pose proof (dlt_lt asc b a) as H2.
  unfold compare. destruct asc, (Str.compare_spec a b); constructor; naive_solver.
Qed.

Lemma dlt_irrefl asc a : ¬ dlt asc a a.
Proof. rewrite dlt_lt. destruct asc; apply Str.lt_irrefl. Qed.
Lemma dlt_trans asc a b c : dlt asc a b → dlt asc b c → dlt asc a c.
Proof. rewrite !dlt_lt. destruct asc; intros; by eapply Str.lt_trans. Qed.

(** ** What the iterator has left *)

Section spec.
Context (asc : bool).
Implicit Types (D : gset string) (p c : list item).

(** Parent items that the cache does not shadow, and cache items that are not
    deleted, in order. *)
Fixpoint merged D p : list item → list item :=
  fix go c :=
    match p, c with
    | [], _ => filter (λ x, x.1 ∉ D) c
    | _, [] => p
    | (kp, vp) :: p', (kc, vc) :: c' =>
        match compare asc kp kc with
        | Lt => (kp, vp) :: merged D p' c
        | Eq => if decide (kc ∈ D) then merged D p' c' else (kc, vc) :: merged D p' c'
        | Gt => if decide (kc ∈ D) then go c' else (kc, vc) :: go c'
        end
    end.

Lemma merged_nil_r D p : merged D p [] = p.
Proof. by destruct p as [|[??]]. Qed.

Lemma merged_cons D kp vp p kc vc c :
  merged D ((kp, vp) :: p) ((kc, vc) :: c) =
  match compare asc kp kc with
  | Lt => (kp, vp) :: merged D p ((kc, vc) :: c)
  | Eq => if decide (kc ∈ D) then merged D p c else (kc, vc) :: merged D p c
  | Gt => if decide (kc ∈ D) then merged D ((kp, vp) :: p) c
          else (kc, vc) :: merged D ((kp, vp) :: p) c
  end.
Proof. done. Qed.

(** The deleted keys that matter are those of cache items. *)
Lemma merged_ext D D' p c : (∀ x, x ∈ c → x.1 ∈ D ↔ x.1 ∈ D') → merged D p c = merged D' p c.
Proof.
  revert c. induction p as [|[kp vp] p IHp]; intros c.
  { intros H. simpl. assert (∀ l : list item, (∀ x, x ∈ l → x.1 ∈ D ↔ x.1 ∈ D') →
      filter (λ x : item, x.1 ∉ D) l = filter (λ x : item, x.1 ∉ D') l) as Hf.
    { clear. intros l. induction l as [|x l IH]; intros H; [done|]. rewrite !filter_cons.
      rewrite IH by (intros; apply H; by right). pose proof (H x ltac:(left)).
      by destruct (decide (x.1 ∉ D)), (decide (x.1 ∉ D')); try tauto. }
    destruct c; by apply Hf. }
  induction c as [|[kc vc] c IHc]; intros H; [done|].
  rewrite !merged_cons. pose proof (H (kc, vc) ltac:(left)) as Hk. cbn [fst] in Hk.
  assert (∀ x, x ∈ c → x.1 ∈ D ↔ x.1 ∈ D') as Hc by (intros; apply H; by right).
  pose proof (IHp _ H) as E1. pose proof (IHp _ Hc) as E2. pose proof (IHc Hc) as E3.
  destruct (compare asc kp kc); [|by rewrite E1|];
    destruct (decide (kc ∈ D)), (decide (kc ∈ D')); try tauto; congruence.
Qed.

Lemma merged_elem D p c k v : ahead asc p → ahead asc c →
  (k, v) ∈ merged D p c ↔
  ((k, v) ∈ p ∧ k ∉ c.*1) ∨ ((k, v) ∈ c ∧ k ∉ D).
Proof.
  intros Hp. revert c. induction Hp as [|[kp vp] p Hp IHp Hlp]; intros c Hc.
  { simpl. destruct c; rewrite list_elem_of_filter; set_solver. }
  induction Hc as [|[kc vc] c Hc IHc Hlc]; [rewrite merged_nil_r; set_solver|].
  rewrite merged_cons. rewrite Forall_forall in Hlp, Hlc. cbn [fst] in *.
  assert (∀ a (y : list item), (k, v) ∈ y → (∀ x, x ∈ y → dlt asc a x.1) → k ≠ a) as Hne.
  { intros a y Hk Hy ->. specialize (Hy _ Hk). by apply dlt_irrefl in Hy. }
  assert (∀ a (y : list item), k ∈ y.*1 → (∀ x : item, x ∈ y → dlt asc a x.1) → k ≠ a) as Hne'.
  { intros a y (x & -> & Hk)%list_elem_of_fmap Hy <-. specialize (Hy _ Hk). by apply dlt_irrefl in Hy. }
  destruct (compare_dspec asc kp kc) as [<-|Hlt|Hlt].
  - assert ((k, v) ∈ p → k ≠ kp) by (intros; by eapply Hne).
    destruct (decide (kp ∈ D)); rewrite ?elem_of_cons, IHp by done; set_solver.
  - rewrite elem_of_cons, IHp by (constructor; [done|by apply Forall_forall]).
    assert (k ∈ ((kc, vc) :: c).*1 → k ≠ kp) as Hk.
    { intros H. eapply Hne'; [exact H|]. intros x [->|Hx]%elem_of_cons; [done|].
      eapply dlt_trans; [exact Hlt|by apply Hlc]. }
    set_solver.
  - assert (k = kc → k ∉ ((kp, vp) :: p).*1) as Hk.
    { intros -> H. eapply (Hne' kc); [exact H| |done]. intros x [->|Hx]%elem_of_cons; [done|].
      eapply dlt_trans; [exact Hlt|by apply Hlp]. }
    assert ((k, v) ∈ (kp, vp) :: p → k ≠ kc) as Hk'.
    { intros H ->. apply Hk; [done|]. by apply (list_elem_of_fmap_2 fst) in H. }
    destruct (decide (kc ∈ D)); rewrite ?(elem_of_cons (merged D ((kp, vp) :: p) c)), IHc; set_solver.
Qed.

Lemma merged_sorted D p c : ahead asc p → ahead asc c → ahead asc (merged D p c).
Proof.
  intros Hp. revert c. induction Hp as [|[kp vp] p Hp IHp Hlp]; intros c Hc.
  { simpl. assert (ahead asc (filter (λ x : item, x.1 ∉ D) c)) as Hf.
    { induction Hc as [|x c Hc IH Hx]; [constructor|]. rewrite filter_cons.
      case_decide; [|done]. constructor; [done|]. rewrite Forall_forall in *.
      intros y [_ Hy]%list_elem_of_filter. by apply Hx. }
    by destruct c. }
  induction Hc as [|[kc vc] c Hc IHc Hlc]; [rewrite merged_nil_r; by constructor|].
  rewrite merged_cons. rewrite Forall_forall in Hlp, Hlc. cbn [fst] in *.
  assert (∀ p' c', ahead asc p' → ahead asc c' → ∀ a,
    (∀ x, x ∈ p' → dlt asc a x.1) → (∀ x, x ∈ c' → dlt asc a x.1) →
    Forall (λ x, dlt asc a x.1) (merged D p' c')) as Hall.
  { intros p' c' Hp' Hc' a Ha Hb. apply Forall_forall. intros [k v].
    rewrite merged_elem by done. intros [[H _]|[H _]]; [apply (Ha _ H)|apply (Hb _ H)]. }
  destruct (compare_dspec asc kp kc) as [<-|Hlt|Hlt].
  - case_decide; [by apply IHp|]. constructor; [by apply IHp|]. by apply Hall.
  - constructor; [apply IHp; constructor; [done|by apply Forall_forall]|].
    apply Hall; [done|constructor; [done|by apply Forall_forall]|done|].
    intros x [->|Hx]%elem_of_cons; [done|]. eapply dlt_trans; [exact Hlt|by apply Hlc].
  - case_decide; [done|]. constructor; [done|].
    apply Hall; [constructor; [done|by apply Forall_forall]|done| |done].
    intros x [->|Hx]%elem_of_cons; [done|]. eapply dlt_trans; [exact Hlt|by apply Hlp].
Qed.

Lemma merged_length D p c : (length (merged D p c) <= length p + length c)%nat.
Proof.
  revert c. induction p as [|[kp vp] p IHp]; intros c.
  { simpl. destruct c; apply length_filter. }
  induction c as [|[kc vc] c IHc]; [rewrite merged_nil_r; simpl; lia|]. rewrite merged_cons.
  pose proof (IHp c). pose proof (IHp ((kc, vc) :: c)). cbn [length] in *.
  destruct (compare asc kp kc); [case_decide| |case_decide]; cbn [length]; lia.
Qed.

(** Lists in order are determined by their items. *)
Lemma ahead_ext (l l' : list item) : ahead asc l → ahead asc l' → (∀ x, x ∈ l ↔ x ∈ l') → l = l'.
Proof.
  intros Hl. revert l'. induction Hl as [|x l Hl IH Hx]; intros l' Hl' Hm.
  { destruct l' as [|y l']; [done|]. exfalso. apply (not_elem_of_nil y), Hm. left. }
  destruct Hl' as [|y l' Hl' Hy].
  { exfalso. apply (not_elem_of_nil x), Hm. left. }
  rewrite Forall_forall in Hx, Hy.
  assert (x = y) as <-.
  { destruct (proj1 (elem_of_cons _ _ _) (proj1 (Hm x) ltac:(left))) as [?|H1]; [done|].
    destruct (proj1 (elem_of_cons _ _ _) (proj2 (Hm y) ltac:(left))) as [?|H2]; [done|].
    destruct (dlt_irrefl asc x.1). eapply dlt_trans; [by apply Hx|by apply Hy]. }
  f_equal. apply IH; [done|]. intros z. specialize (Hm z). rewrite !elem_of_cons in Hm.
  split; intros Hz.
  - destruct (proj1 Hm (or_intror Hz)) as [->|?]; [|done]. destruct (dlt_irrefl asc x.1). by apply Hx.
  - destruct (proj2 Hm (or_intror Hz)) as [->|?]; [|done]. destruct (dlt_irrefl asc x.1). by apply Hy.
Qed.

(** ** Moving the iterator *)

(** A remembered key that is still ahead is not deleted. *)
Definition fresh D (it : iter) : Prop :=
  ∀ l, lastKey it = Some l → l ∈ (cache it).*1 → l ∉ D.

Lemma mem_Value_spec D p k v c l : fresh D (mkIter p ((k, v) :: c) l) →
  mem_Value D (mkIter p ((k, v) :: c) l) =
  if decide (k ∈ D) then (None, mkIter p ((k, v) :: c) l)
  else (Some v, mkIter p ((k, v) :: c) (Some k)).
Proof.
  intros Hf. unfold mem_Value. cbn [cache parent lastKey].
  destruct (decide (k ∈ D)) as [Hk|Hk].
  - rewrite bool_decide_true by done. cbn [andb]. rewrite bool_decide_false; [done|].
    intros ->. by apply (Hf k eq_refl); [left|].
  - by rewrite bool_decide_false.
Qed.

Lemma fresh_drop D p p' x c l : fresh D (mkIter p (x :: c) l) → fresh D (mkIter p' c l).
Proof. intros Hf k Hk Hc. apply (Hf k Hk). by right. Qed.
Lemma fresh_seen D p k v c : k ∉ D → fresh D (mkIter p ((k, v) :: c) (Some k)).
Proof. by intros Hk l [= <-] _. Qed.

(** Skipping deleted cache items up to the parent's position changes nothing of
    what is left. *)
Definition bound (p : list item) : option string := fst <$> head p.

Lemma skip_deletes_spec D p c l : fresh D (mkIter p c l) → ∃ c' l',
  skip_deletes asc D (bound p) c (mkIter p c l) = mkIter p c' l' ∧
  fresh D (mkIter p c' l') ∧ (c' `suffix_of` c) ∧ merged D p c' = merged D p c ∧
  match p, c' with [], (k, _) :: _ => (k ∉ D) ∧ l' = Some k | _, _ => True end.
Proof.
  revert l. induction c as [|[k v] c IH]; intros l Hf; [exists [], l; by destruct p|].
  cbn [skip_deletes]. rewrite mem_Value_spec by done. destruct (decide (k ∈ D)) as [Hk|Hk].
  2:{ rewrite bool_decide_false by done. cbn [andb]. exists ((k, v) :: c), (Some k).
      split_and!; try done; [by apply fresh_seen|by destruct p]. }
  rewrite bool_decide_true by done. cbn [andb].
  destruct (match bound p with Some y => _ | None => true end) eqn:E.
  2:{ exists ((k, v) :: c), l. split_and!; try done. by destruct p. }
  destruct (IH l (fresh_drop _ _ _ _ _ _ Hf)) as (c' & l' & H1 & H2 & H3 & H4 & H5).
  exists c', l'. unfold set_cache. cbn [parent lastKey]. split_and!; try done.
  - by apply suffix_cons_r.
  - rewrite H4. destruct p as [|[kp vp] p]; cbn [bound head fmap option_fmap option_map fst] in E.
    + simpl. rewrite filter_cons. case_decide; [done|]. by destruct c.
    + apply bool_decide_eq_true in E. rewrite merged_cons.
      destruct (compare_dspec asc kp k) as [->|Hlt|Hlt].
      * by destruct (dlt_irrefl asc k).
      * destruct (dlt_irrefl asc k). by eapply dlt_trans.
      * by rewrite decide_True by done.
Qed.

(** The iterator stands on an item: one of the parent ahead of the cache, or one
    of the cache whose value has been read. *)
Definition settled (it : iter) : Prop :=
  match parent it, cache it with
  | [], [] => False
  | _ :: _, [] => True
  | [], (k, _) :: _ => lastKey it = Some k
  | (kp, _) :: _, (kc, _) :: _ => dlt asc kp kc ∨ (¬ dlt asc kp kc ∧ lastKey it = Some kc)
  end.
Definition current (it : iter) : option item :=
  match parent it, cache it with
  | [], c => head c
  | p, [] => head p
  | (kp, vp) :: _, (kc, vc) :: _ => Some (if decide (dlt asc kp kc) then (kp, vp) else (kc, vc))
  end.

Lemma mem_Value_again D k v p c :
  mem_Value D (mkIter p ((k, v) :: c) (Some k)) = (Some v, mkIter p ((k, v) :: c) (Some k)).
Proof. unfold mem_Value. cbn [cache lastKey]. by rewrite (bool_decide_true (Some k = Some k)), andb_false_r. Qed.

(** Once settled it stays, whatever has been deleted since. *)
Lemma skip_settled D it : settled it → skipUntilExistsOrInvalid asc D it = (true, it).
Proof.
  destruct it as [[|[kp vp] p] [|[kc vc] c] l]; cbn [settled parent cache lastKey]; try done.
  - intros ->. unfold skipUntilExistsOrInvalid, skip_loop, skipCacheDeletes.
    cbn [parent cache skip_deletes]. by rewrite mem_Value_again.
  - intros H. unfold skipUntilExistsOrInvalid. cbn [cache length skip_loop parent].
    destruct (compare_dspec asc kp kc) as [->|Hlt|Hlt]; [|done|].
    + destruct H as [[]%dlt_irrefl|[_ ->]]. by rewrite mem_Value_again.
    + destruct H as [Hc|[_ ->]]; [|by rewrite mem_Value_again].
      destruct (dlt_irrefl asc kp). by eapply dlt_trans.
Qed.

(** A settled iterator stands on the first item left, and moves to the others. *)
Lemma settled_merged D it : settled it → fresh D it → ∃ x, current it = Some x ∧
  merged D (parent it) (cache it) = x :: merged D (parent (advance asc it)) (cache (advance asc it)).
Proof.
  destruct it as [[|[kp vp] p] [|[kc vc] c] l];
    unfold settled, current, advance, set_cache, set_parent; cbn [parent cache lastKey head tail]; try done.
  - intros -> Hf. eexists. split; [done|]. assert (kc ∉ D) by (apply Hf; [done|left]).
    simpl. rewrite filter_cons, decide_True by done. by destruct c.
  - intros _ _. eexists. split; [done|]. by rewrite !merged_nil_r.
  - intros H Hf. eexists. split; [done|]. rewrite merged_cons.
    destruct (compare_dspec asc kp kc) as [->|Hlt|Hlt]; cbn [parent cache].
    + rewrite (decide_False (P := dlt asc kc kc)) by apply dlt_irrefl.
      destruct H as [[]%dlt_irrefl|[_ ->]]. rewrite decide_False; [done|]. apply Hf; [done|left].
    + by rewrite decide_True.
    + assert (¬ dlt asc kp kc) as Hn by (intros ?; by eapply dlt_irrefl, dlt_trans).
      rewrite (decide_False (P := dlt asc kp kc)) by done.
      destruct H as [?|[_ ->]]; [done|]. rewrite decide_False; [done|]. apply Hf; [done|left].
Qed.

(** What skipping establishes. *)
Definition skipped D (it : iter) (r : bool * iter) : Prop :=
  r.1 = bool_decide (merged D (parent it) (cache it) ≠ []) ∧
  ahead asc (parent r.2) ∧ ahead asc (cache r.2) ∧ fresh D r.2 ∧
  merged D (parent r.2) (cache r.2) = merged D (parent it) (cache it) ∧
  (r.1 = true → settled r.2).

Lemma skipped_settled D it it' : settled it' → fresh D it' → parent it' = parent it → cache it' = cache it →
  ahead asc (parent it) → ahead asc (cache it) → skipped D it (true, it').
Proof.
  intros Hs Hf Hp Hc. destruct (settled_merged D it' Hs Hf) as (x & _ & Hm).
  unfold skipped. cbn [fst snd]. rewrite <- Hp, <- Hc. intros. by rewrite bool_decide_true by by rewrite Hm.
Qed.
Lemma skipped_same D it it' r : merged D (parent it') (cache it') = merged D (parent it) (cache it) →
  skipped D it' r → skipped D it r.
Proof. unfold skipped. by intros ->. Qed.

Lemma skipped_end D c l : ahead asc c → fresh D (mkIter [] c l) →
  skipped D (mkIter [] c l) (skip_loop asc 1 D (mkIter [] c l)).
Proof.
  intros Hc Hf. destruct (skip_deletes_spec D [] c l Hf) as (c' & l' & H1 & H2 & [c0 ->] & H4 & H5).
  unfold skip_loop, skipCacheDeletes. cbn [parent cache].
  cbn [bound head fmap option_fmap option_map] in H1. rewrite H1.
  apply (skipped_same D (mkIter [] (c0 ++ c') l) (mkIter [] c' l') _ H4).
  apply StronglySorted_app_1_r in Hc. destruct c' as [|[k v] c'].
  - split_and!; try done.
  - destruct H5 as [Hk ->]. apply skipped_settled; [exact eq_refl|..]; try done. constructor.
Qed.

Lemma skip_loop_spec D fuel p c l : (length c < fuel)%nat →
  ahead asc p → ahead asc c → fresh D (mkIter p c l) →
  skipped D (mkIter p c l) (skip_loop asc fuel D (mkIter p c l)).
Proof.
  revert p c l. induction fuel as [|f IH]; intros p c l Hlen Hp Hc Hf; [lia|].
  destruct p as [|[kp vp] p]; [by apply skipped_end|].
  cbn [skip_loop parent cache]. destruct c as [|[kc vc] c]; [by apply skipped_settled; [exact I|..]|].
  pose proof (proj1 (StronglySorted_cons _ _ _) Hp) as [_ Hp'].
  pose proof (proj1 (StronglySorted_cons _ _ _) Hc) as [_ Hc'].
  pose proof (merged_cons D kp vp p kc vc c) as Hm. simpl in Hlen.
  rewrite mem_Value_spec by done.
  destruct (compare_dspec asc kp kc) as [->|Hlt|Hlt]; [| by apply skipped_settled; [left|..]|].
  - destruct (decide (kc ∈ D)).
    + eapply skipped_same; [|apply IH]; [done|lia|done..|]. by eapply fresh_drop.
    + apply skipped_settled; try done; [|by apply fresh_seen]. right. split; [apply dlt_irrefl|done].
  - destruct (decide (kc ∈ D)) as [Hd|Hd].
    + unfold skipCacheDeletes. cbn [cache skip_deletes]. rewrite mem_Value_spec, decide_True by done.
      rewrite !bool_decide_true by done. cbn [andb]. unfold set_cache. cbn [parent lastKey].
      destruct (skip_deletes_spec D ((kp, vp) :: p) c l (fresh_drop _ _ _ _ _ _ Hf))
        as (c' & l' & H1 & H2 & [c0 ->] & H4 & _).
      cbn [bound head fmap option_fmap option_map fst] in H1. rewrite H1. eapply skipped_same; [|apply IH].
      * cbn [parent cache]. by rewrite H4, Hm.
      * rewrite length_app in Hlen. lia.
      * done.
      * by apply StronglySorted_app_1_r in Hc'.
      * done.
    + apply skipped_settled; try done; [|by apply fresh_seen]. right. split; [|done].
      intros ?. by eapply dlt_irrefl, dlt_trans.
Qed.

Lemma skip_spec D it : ahead asc (parent it) → ahead asc (cache it) → fresh D it →
  skipped D it (skipUntilExistsOrInvalid asc D it).
Proof. destruct it as [p c l]. intros. apply skip_loop_spec; [simpl; lia|done..]. Qed.

(** ** Running the operations *)

Lemma Valid_run D it : ahead asc (parent it) → ahead asc (cache it) → fresh D it → ∃ it',
  Valid asc D it = (Ok (bool_decide (merged D (parent it) (cache it) ≠ [])), it') ∧
  ahead asc (parent it') ∧ ahead asc (cache it') ∧ fresh D it' ∧
  merged D (parent it') (cache it') = merged D (parent it) (cache it) ∧
  (merged D (parent it) (cache it) ≠ [] → settled it').
Proof.
  intros Hp Hc Hf. destruct (skip_spec D it Hp Hc Hf) as (H1 & H2 & H3 & H4 & H5 & H6).
  unfold Valid. destruct (skipUntilExistsOrInvalid asc D it) as [b it']. cbn [fst snd] in *.
  subst b. exists it'. split_and!; try done. intros Hne. apply H6. by apply bool_decide_eq_true.
Qed.

Lemma Valid_settled D it : settled it → Valid asc D it = (Ok true, it).
Proof. intros H. unfold Valid. by rewrite skip_settled. Qed.
Lemma checked_settled {A} D it (k : M iter A) : settled it →
  (_ ← Valid asc D; _ ← assertValid asc D; k) it = k it.
Proof.
  intros H. rewrite (Mbind_run _ _ _ _ _ (Valid_settled D it H)).
  unfold assertValid. by rewrite (Mbind_run _ _ it () it) by by rewrite (Mbind_run _ _ _ _ _ (Valid_settled D it H)).
Qed.

(** At a settled position the three calls read the current item and move on,
    whatever was deleted in the meantime. *)
Lemma Key_run D it k v : settled it → current it = Some (k, v) → Key asc D it = (Ok k, it).
Proof.
  intros Hs Hk. unfold Key. rewrite checked_settled, gets_bind by done. unfold id, lift. f_equal.
  unfold settled, current in *. destruct (parent it) as [|[kp vp] p], (cache it) as [|[kc vc] c]; simplify_eq/=; try done.
  destruct (compare_dspec asc kp kc) as [->|Hlt|Hlt].
  - rewrite decide_False in Hk by apply dlt_irrefl. by simplify_eq.
  - rewrite decide_True in Hk by done. by simplify_eq.
  - rewrite decide_False in Hk by (intros ?; by eapply dlt_irrefl, dlt_trans). by simplify_eq.
Qed.
Lemma Value_run D it k v : settled it → current it = Some (k, v) → Value asc D it = (Ok (Some v), it).
Proof.
  intros Hs Hk. unfold Value. rewrite checked_settled, gets_bind by done. unfold id, cache_Value.
  destruct it as [[|[kp vp] p] [|[kc vc] c] l]; unfold settled, current in *; simplify_eq/=; try done.
  { by rewrite mem_Value_again. }
  destruct (compare_dspec asc kp kc) as [->|Hlt|Hlt].
  - rewrite decide_False in Hk by apply dlt_irrefl. destruct Hs as [[]%dlt_irrefl|[_ ->]].
    simplify_eq. by rewrite mem_Value_again.
  - rewrite decide_True in Hk by done. by simplify_eq.
  - assert (¬ dlt asc kp kc) as Hn by (intros ?; by eapply dlt_irrefl, dlt_trans).
    rewrite decide_False in Hk by done. destruct Hs as [?|[_ ->]]; [done|].
    simplify_eq. by rewrite mem_Value_again.
Qed.
Lemma Next_run D it : settled it → Next asc D it = (Ok (), advance asc it).
Proof. intros Hs. unfold Next. by rewrite checked_settled. Qed.

Lemma advance_ahead it k v : current it = Some (k, v) →
  ahead asc (parent it) → ahead asc (cache it) →
  ahead asc (parent (advance asc it)) ∧ ahead asc (cache (advance asc it)) ∧
  lastKey (advance asc it) = lastKey it ∧
  (∀ x, x ∈ cache (advance asc it) → x ∈ cache it ∧ dlt asc k x.1).
Proof.
  destruct it as [p c l]. unfold current, advance, set_parent, set_cache. cbn [parent cache lastKey].
  intros Hk Hp Hc. destruct p as [|[kp vp] p], c as [|[kc vc] c]; simplify_eq/=.
  - apply StronglySorted_cons in Hc as [Hl Hc]. rewrite Forall_forall in Hl. set_solver.
  - apply StronglySorted_cons in Hp as [Hl Hp]. set_solver.
  - pose proof (proj1 (StronglySorted_cons _ _ _) Hp) as [_ Hp'].
    pose proof (proj1 (StronglySorted_cons _ _ _) Hc) as [Hl Hc']. rewrite Forall_forall in Hl.
    destruct (compare_dspec asc kp kc) as [->|Hlt|Hlt]; cbn [parent cache lastKey].
    + rewrite decide_False in Hk by apply dlt_irrefl. simplify_eq. set_solver.
    + rewrite decide_True in Hk by done. simplify_eq. split_and!; try done.
      intros x Hx. split; [done|]. apply elem_of_cons in Hx as [->|Hx]; [done|].
      by eapply dlt_trans, Hl.
    + rewrite decide_False in Hk by (intros ?; by eapply dlt_irrefl, dlt_trans). simplify_eq. set_solver.
Qed.

(** A client's loop
    [for ; it.Valid(); it.Next() { k, v := it.Key(), it.Value(); ... }] whose
    body works on a state [S] that holds the deleted keys. *)
Section loop.
Context {S : Type} (dels : S → gset string) (body : item → M S ()).

Definition with_iter {A} (f : gset string → M iter A) : M (S * iter) A :=
  D ← gets (λ x, dels x.1); zoom snd (λ it x, (x.1, it)) (f D).

Fixpoint each (fuel : nat) : M (S * iter) (list item) :=
  match fuel with
  | O => lift (Panic "fuel")
  | Datatypes.S f =>
      b ← with_iter (Valid asc);
      if b : bool then
        k ← with_iter (Key asc);
        v ← with_iter (Value asc);
        let x := (k, default "" v) in
        _ ← zoom fst (λ σ x, (σ, x.2)) (body x);
        _ ← with_iter (Next asc);
        xs ← each f;
        mret (x :: xs)
      else mret []
  end.

Lemma with_iter_run {A} (f : gset string → M iter A) σ it a it' :
  f (dels σ) it = (Ok a, it') → with_iter f (σ, it) = (Ok a, (σ, it')).
Proof using. intros E. unfold with_iter. rewrite gets_bind. unfold zoom. cbn [fst snd]. by rewrite E. Qed.

Context (able : item → Prop) (good : S → Prop).
Context (Hbody : ∀ x σ, able x → good σ → ∃ σ', body x σ = (Ok (), σ') ∧ good σ' ∧
  ∀ y, dlt asc x.1 y → y ∈ dels σ' ↔ y ∈ dels σ).

(** The loop runs its body on what was left when it began, in order, as long as
    the body deletes and restores no key still ahead. *)
Lemma each_run fuel σ it : good σ → Forall able (merged (dels σ) (parent it) (cache it)) →
  ahead asc (parent it) → ahead asc (cache it) → fresh (dels σ) it →
  (length (merged (dels σ) (parent it) (cache it)) < fuel)%nat →
  ∃ σ' it', each fuel (σ, it) = (Ok (merged (dels σ) (parent it) (cache it)), (σ', it')) ∧
    for_each body (merged (dels σ) (parent it) (cache it)) σ = (Ok (), σ') ∧ good σ'.
Proof using Hbody.
  revert σ it. induction fuel as [|f IH]; intros σ it Hσ Hab Hp Hc Hf Hlen; [lia|].
  destruct (Valid_run (dels σ) it Hp Hc Hf) as (it1 & E & Hp1 & Hc1 & Hf1 & Hm1 & Hs1).
  cbn [each]. rewrite (Mbind_run _ _ _ _ _ (with_iter_run _ _ _ _ _ E)).
  destruct (merged (dels σ) (parent it) (cache it)) as [|x l] eqn:Em.
  { rewrite bool_decide_false by (intros H; by apply H). by eexists σ, it1. }
  rewrite bool_decide_true by done. specialize (Hs1 ltac:(done)).
  destruct (settled_merged _ it1 Hs1 Hf1) as ([k v] & Hcur & Hm). rewrite Hm1 in Hm. simplify_eq Hm. intros -> Hl.
  rewrite (Mbind_run _ _ _ _ _ (with_iter_run _ _ _ _ _ (Key_run (dels σ) it1 k v Hs1 Hcur))).
  rewrite (Mbind_run _ _ _ _ _ (with_iter_run _ _ _ _ _ (Value_run (dels σ) it1 k v Hs1 Hcur))).
  cbn [default from_option id]. apply Forall_cons in Hab as [Hkv Hab]. destruct (Hbody (k, v) σ Hkv Hσ) as (σ1 & Eb & Hσ1 & HD).
  rewrite (Mbind_run _ _ _ () (σ1, it1)) by (unfold zoom; cbn [fst snd]; by rewrite Eb).
  rewrite (Mbind_run _ _ _ _ _ (with_iter_run _ _ _ _ _ (Next_run (dels σ1) it1 Hs1))).
  destruct (advance_ahead it1 k v Hcur Hp1 Hc1) as (Hp2 & Hc2 & Hlk & Hahead).
  assert (merged (dels σ1) (parent (advance asc it1)) (cache (advance asc it1)) = l) as Hl1.
  { rewrite Hl. apply merged_ext. intros x Hx. apply HD. by apply Hahead. }
  rewrite <- Hl1 in Hab. destruct (IH σ1 (advance asc it1) Hσ1 Hab Hp2 Hc2) as (σ2 & it2 & Ee & Ef & Hσ2).
  - intros y Hy Hin. rewrite Hlk in Hy. apply list_elem_of_fmap in Hin as (z & -> & Hz).
    destruct (Hahead z Hz) as [Hz1 Hz2]. rewrite HD by done.
    apply Hf1; [done|]. by apply list_elem_of_fmap_2.
  - rewrite Hl1. simpl in Hlen. lia.
  - rewrite Hl1 in Ee, Ef. exists σ2, it2. rewrite (Mbind_run _ _ _ _ _ Ee). split; [done|].
    split; [|done]. cbn [for_each]. by rewrite (Mbind_run _ _ _ _ _ Eb).
Qed.
End loop.
End spec.

End CacheIter.
