(* ===== verification/KVStore.v ===== *)
(** * The store interface: types.KVStore of store/types/store.go

    What a store promises to the code above it, as a class of operations and a
    class of laws over the map the store stands for; the map itself as a store;
    programs over a store and the theorem that a lawful store runs them as the
    map does; the adapter of a third-party database, store/dbadapter/store.go. *)

From Stdlib Require Import ZArith Lia Ascii String.
From stdpp Require Import base tactics option list gmap sorting strings.
From S2P Require Import Prelude GoStd Wire Store CacheIter.

Module KV.
Import Store CacheIter.

Abbreviation contents := (gmap string string).

(** [types.AssertValidKey] and [AssertValidValue]; a nil value is [None]. *)
Definition AssertValidKey (key : string) : outcome () :=
  panic_if (String.eqb key "") "key is nil".
Definition AssertValidValue (value : option string) : outcome string :=
  or_panic value "value is nil".

(** ** The interface *)

(** [kv_items] is what [Iterator] (or [ReverseIterator]) yields to a caller that
    walks to its end; a nil bound is [None]. *)
Class KVStore (P : Type) := {
  kv_Get : string → M P (option string);
  kv_Has : string → M P bool;
  kv_Set : string → option string → M P ();
  kv_Delete : string → M P ();
  kv_items : bool → option string → option string → M P (list item) }.

(** The items of a map between two bounds, in the order of a direction. *)
Definition range (asc : bool) (start stop : option string) (m : contents) : list item :=
  let l := Iterator m (default "" start) stop in if asc then l else reverse l.

(** Bounds a caller may use: not empty, and an upper one where there is a lower. *)
Definition bounded (start stop : option string) : Prop :=
  start ≠ Some "" ∧ stop ≠ Some "" ∧ (start = None ∨ stop ≠ None).

(** [steps m p a v]: from [p], [m] returns [a] and leaves a good state of view [v]. *)
Definition steps {P A} (ok : P → Prop) (view : P → contents) (m : M P A) (p : P) (a : A) (v : contents) : Prop :=
  ∃ p', m p = (Ok a, p') ∧ ok p' ∧ view p' = v.

Class KVLaws (P : Type) `{KVStore P} := {
  kv_ok : P → Prop;
  kv_view : P → contents;
  kv_get p k : kv_ok p → k ≠ "" → steps kv_ok kv_view (kv_Get k) p (kv_view p !! k) (kv_view p);
  kv_has p k : kv_ok p → k ≠ "" →
    steps kv_ok kv_view (kv_Has k) p (bool_decide (is_Some (kv_view p !! k))) (kv_view p);
  kv_set p k v : kv_ok p → k ≠ "" → steps kv_ok kv_view (kv_Set k (Some v)) p () (<[k := v]> (kv_view p));
  kv_delete p k : kv_ok p → k ≠ "" → steps kv_ok kv_view (kv_Delete k) p () (delete k (kv_view p));
  kv_range p asc start stop : kv_ok p → bounded start stop →
    steps kv_ok kv_view (kv_items asc start stop) p (range asc start stop (kv_view p)) (kv_view p) }.

(** ** The map as a store *)
#[global] Instance map_kv : KVStore contents := {|
  kv_Get k := _ ← lift (AssertValidKey k); gets (.!! k);
  kv_Has k := _ ← lift (AssertValidKey k); gets (λ m, bool_decide (is_Some (m !! k)));
  kv_Set k v := _ ← lift (AssertValidKey k); v ← lift (AssertValidValue v); modify (<[k := v]>);
  kv_Delete k := _ ← lift (AssertValidKey k); modify (delete k);
  kv_items asc start stop := gets (range asc start stop) |}.

Lemma AssertValidKey_run k : k ≠ "" → AssertValidKey k = Ok ().
Proof. intros Hk. unfold AssertValidKey. by destruct (String.eqb_spec k ""). Qed.

#[global] Instance map_laws : KVLaws contents.
Proof.
  refine {| kv_ok _ := True; kv_view m := m |}; intros p; intros;
    (eexists; split; [cbn [kv_Get kv_Has kv_Set kv_Delete kv_items map_kv]|done]);
    by rewrite ?AssertValidKey_run.
Defined.

(** ** Ranges of a map *)

Lemma range_elem asc start stop m k v :
  (k, v) ∈ range asc start stop m ↔ m !! k = Some v ∧ in_domain (default "" start) stop (k, v) = true.
Proof.
  assert ((k, v) ∈ Iterator m (default "" start) stop ↔
          m !! k = Some v ∧ in_domain (default "" start) stop (k, v) = true) as H.
  { unfold Iterator. rewrite (merge_sort_Permutation key_le), list_elem_of_filter, elem_of_map_to_list. tauto. }
  unfold range. destruct asc; [done|]. by rewrite elem_of_reverse.
Qed.

Lemma Iterator_ahead (m : contents) start stop : ahead true (Iterator m start stop).
Proof.
  assert (NoDup (Iterator m start stop).*1) as Hnd.
  { unfold Iterator. rewrite (merge_sort_Permutation key_le).
    apply (NoDup_fmap_fst); [|apply NoDup_filter, NoDup_map_to_list].
    intros x y1 y2 [_ H1]%list_elem_of_filter [_ H2]%list_elem_of_filter.
    apply elem_of_map_to_list in H1, H2. congruence. }
  assert (StronglySorted key_le (Iterator m start stop)) as Hs.
  { apply (StronglySorted_merge_sort key_le). }
  revert Hnd Hs. generalize (Iterator m start stop). intros l Hnd Hs.
  induction Hs as [|x l Hs IH Hx]; [constructor|]. apply NoDup_cons in Hnd as [Hn Hnd].
  constructor; [by apply IH|]. rewrite Forall_forall in *. intros y Hy.
  specialize (Hx y Hy). apply dlt_lt. unfold key_le in Hx. unfold Str.lt.
  destruct (Str.compare_spec x.1 y.1) as [E|?|E]; [|done|].
  - destruct Hn. rewrite E. by apply list_elem_of_fmap_2.
  - unfold Str.lt in E. congruence.
Qed.

Lemma ahead_reverse l : ahead true l → ahead false (reverse l).
Proof.
  induction 1 as [|x l Hl IH Hx]; [constructor|]. rewrite reverse_cons.
  apply StronglySorted_app. split_and!; [|done|by repeat constructor].
  intros y z Hy ->%list_elem_of_singleton. rewrite elem_of_reverse in Hy. rewrite Forall_forall in Hx.
  specialize (Hx y Hy). by apply dlt_lt in Hx; apply dlt_lt.
Qed.

Lemma range_ahead asc start stop m : ahead asc (range asc start stop m).
Proof. destruct asc; [|apply ahead_reverse]; apply Iterator_ahead. Qed.

(** ** Databases: the interface of tm-db, and store/dbadapter *)

Class DB (T : Type) := {
  db_Get : string → T → outcome (option string);
  db_Has : string → T → outcome bool;
  db_Set : string → option string → T → outcome T;
  db_Delete : string → T → outcome T;
  db_Iterator : bool → option string → option string → T → outcome (list item) }.

(** The documented behaviour: a map with ordered iteration over [[start, end)],
    which refuses empty keys and bounds. *)
Class DBLaws (T : Type) `{DB T} := {
  db_view : T → contents;
  db_get t k : k ≠ "" → db_Get k t = Ok (db_view t !! k);
  db_has t k : k ≠ "" → db_Has k t = Ok (bool_decide (is_Some (db_view t !! k)));
  db_set t k v : k ≠ "" → ∃ t', db_Set k (Some v) t = Ok t' ∧ db_view t' = <[k := v]> (db_view t);
  db_delete t k : k ≠ "" → ∃ t', db_Delete k t = Ok t' ∧ db_view t' = delete k (db_view t);
  db_iterator t asc start stop : start ≠ Some "" → stop ≠ Some "" →
    db_Iterator asc start stop t = Ok (range asc start stop (db_view t)) }.

Record dbStore (T : Type) := mkDbStore { db : T }.
Arguments mkDbStore {T} _.
Arguments db {T} _.

Section dbadapter.
Context {T : Type} `{DB T}.

Definition db_read {A} (f : T → outcome A) : M (dbStore T) A := λ d, (must (f (db d)), d).
Definition db_write (f : T → outcome T) : M (dbStore T) () := λ d,
  match f (db d) with
  | Ok t => (Ok (), mkDbStore t)
  | Err e | Panic e => (Panic e, d)
  end.

Definition db_store_Get (key : string) : M (dbStore T) (option string) := db_read (db_Get key).
Definition db_store_Has (key : string) : M (dbStore T) bool := db_read (db_Has key).
Definition db_store_Set (key : string) (value : option string) : M (dbStore T) () :=
  _ ← lift (AssertValidKey key); db_write (db_Set key value).
Definition db_store_Delete (key : string) : M (dbStore T) () := db_write (db_Delete key).
Definition db_store_Iterator (asc : bool) (start stop : option string) : M (dbStore T) (list item) :=
  db_read (db_Iterator asc start stop).

#[global] Instance db_kv : KVStore (dbStore T) := {|
  kv_Get := db_store_Get; kv_Has := db_store_Has; kv_Set := db_store_Set;
  kv_Delete := db_store_Delete; kv_items := db_store_Iterator |}.

(** A database behind the adapter is a lawful store. *)
#[global] Instance db_laws `{!DBLaws T} : KVLaws (dbStore T).
Proof.
  refine {| kv_ok _ := True; kv_view d := db_view (db d) |}; intros [t]; intros.
  - exists (mkDbStore t). split; [|done]. cbn. unfold db_store_Get, db_read. cbn [db]. by rewrite db_get.
  - exists (mkDbStore t). split; [|done]. cbn. unfold db_store_Has, db_read. cbn [db]. by rewrite db_has.
  - destruct (db_set t k v) as (t' & E & Hv); [done|]. exists (mkDbStore t'). split; [|done].
    cbn. unfold db_store_Set, db_write. rewrite AssertValidKey_run, lift_bind by done. cbn [db]. by rewrite E.
  - destruct (db_delete t k) as (t' & E & Hv); [done|]. exists (mkDbStore t'). split; [|done].
    cbn. unfold db_store_Delete, db_write. cbn [db]. by rewrite E.
  - destruct H1 as (H1 & H2 & _). exists (mkDbStore t). split; [|done]. cbn.
    unfold db_store_Iterator, db_read. cbn [db]. by rewrite db_iterator.
Defined.
End dbadapter.

(** A map is such a database. *)
Definition db_guard {A} (bad : bool) (a : A) : outcome A := _ ← fail_if bad "key is empty"; Ok a.
Definition is_empty (b : option string) : bool := bool_decide (b = Some "").
#[global] Instance map_db : DB contents := {|
  db_Get k m := db_guard (is_empty (Some k)) (m !! k);
  db_Has k m := db_guard (is_empty (Some k)) (bool_decide (is_Some (m !! k)));
  db_Set k v m := _ ← fail_if (is_empty (Some k)) "key is empty"; v ← or_err v "value is nil"; Ok (<[k := v]> m);
  db_Delete k m := db_guard (is_empty (Some k)) (delete k m);
  db_Iterator asc start stop m := db_guard (is_empty start || is_empty stop) (range asc start stop m) |}.
#[global] Instance map_db_laws : DBLaws contents.
Proof.
  assert (∀ b, b ≠ Some "" → is_empty b = false) as He by (intros; by apply bool_decide_eq_false).
  refine {| db_view m := m |}; intros t; intros; cbn; unfold db_guard;
    rewrite ?He by congruence; simpl; eauto.
Defined.

(** ** Programs over a store *)

Inductive prog (A : Type) : Type :=
  | Done (o : outcome A)
  | DoGet (k : string) (c : option string → prog A)
  | DoHas (k : string) (c : bool → prog A)
  | DoSet (k v : string) (c : prog A)
  | DoDelete (k : string) (c : prog A)
  | DoItems (asc : bool) (start stop : option string) (c : list item → prog A).
Arguments Done {A} _.
Arguments DoGet {A} _ _.
Arguments DoHas {A} _ _.
Arguments DoSet {A} _ _ _.
Arguments DoDelete {A} _ _.
Arguments DoItems {A} _ _ _ _.

Fixpoint run {P A} `{KVStore P} (c : prog A) : M P A :=
  match c with
  | Done o => lift o
  | DoGet k c => v ← kv_Get k; run (c v)
  | DoHas k c => b ← kv_Has k; run (c b)
  | DoSet k v c => _ ← kv_Set k (Some v); run c
  | DoDelete k c => _ ← kv_Delete k; run c
  | DoItems asc start stop c => l ← kv_items asc start stop; run (c l)
  end.

(** Keys are not empty and bounds are usable. *)
Fixpoint sound {A} (c : prog A) : Prop :=
  match c with
  | Done _ => True
  | DoGet k c => k ≠ "" ∧ ∀ v, sound (c v)
  | DoHas k c => k ≠ "" ∧ ∀ b, sound (c b)
  | DoSet k _ c | DoDelete k c => k ≠ "" ∧ sound c
  | DoItems _ start stop c => bounded start stop ∧ ∀ l, sound (c l)
  end.

(** [m] on a store does what [n] does on its view. *)
Definition mirrors {P A} `{KVLaws P} (m : M P A) (n : M contents A) (p : P) : Prop :=
  ∃ p', m p = ((n (kv_view p)).1, p') ∧ kv_ok p' ∧ kv_view p' = (n (kv_view p)).2.

Lemma mirrors_step {P A B} `{KVLaws P} (m : M P B) (n : M contents B) f (g : B → M contents A) p b v :
  steps kv_ok kv_view m p b v → steps (map_laws.(kv_ok)) (map_laws.(kv_view)) n (kv_view p) b v →
  (∀ p1, kv_ok p1 → mirrors (f b) (g b) p1) → mirrors (m ≫= f) (n ≫= g) p.
Proof.
  intros (p1 & E1 & Hp1 & V1) (v' & E2 & _ & V2) Hf. cbn in V2. subst v'. unfold mirrors.
  rewrite (Mbind_run _ _ _ _ _ E1), (Mbind_run _ _ _ _ _ E2), <- V1. by apply Hf.
Qed.

(** A lawful store runs a program to the outcome and the contents the map gives. *)
Lemma run_refines {P A} `{KVLaws P} (c : prog A) p : kv_ok p → sound c → mirrors (run c) (run c) p.
Proof.
  revert p. induction c as [o|k c IH|k c IH|k v c IH|k c IH|asc start stop c IH]; intros p Hp Hs; cbn [run sound] in *.
  { by exists p. }
  all: destruct Hs as [Hk Hc]; eapply mirrors_step; try (intros; apply IH; [done|apply Hc]).
  - by apply kv_get.
  - by apply (map_laws.(kv_get) (kv_view p)).
  - by apply kv_has.
  - by apply (map_laws.(kv_has) (kv_view p)).
  - by apply kv_set.
  - by apply (map_laws.(kv_set) (kv_view p)).
  - by apply kv_delete.
  - by apply (map_laws.(kv_delete) (kv_view p)).
  - by apply kv_range.
  - by apply (map_laws.(kv_range) (kv_view p)).
Qed.

End KV.
