(* ===== verification/CacheKV.v ===== *)
(** * Branched stores: store/cachekv/store.go

    A cached store holds the reads and writes made over a parent store and
    hands the writes to the parent in [Write]; every transaction and every
    message runs over such a branch.  The parent is any [KVStore], so a branch
    of a branch is covered; the [MemDB] of the sorted cache and
    [IsKeyInDomain] belong to tm-db and are parameters.  Iterators are used one
    at a time. *)

From Stdlib Require Import ZArith Lia Ascii String.
From stdpp Require Import base tactics option list gmap sorting strings.
From S2P Require Import Prelude GoStd Wire Store CacheIter KVStore.

Local Open Scope Z_scope.

Module CacheKV.
Import Store CacheIter KV.

Record cValue := mkCValue { value : option string; dirty : bool }.

(** A [kv.Pair]; a nil value is [None]. *)
Abbreviation kvpair := (string * option string)%type.

Record CacheStore (P T : Type) := mkStore {
  cache : gmap string cValue;
  deleted : gset string;
  unsortedCache : gset string;
  sortedCache : T;
  parent : P }.
Arguments mkStore {P T} _ _ _ _ _.
Arguments cache {P T} _.
Arguments deleted {P T} _.
Arguments unsortedCache {P T} _.
Arguments sortedCache {P T} _.
Arguments parent {P T} _.

(** ** The searches of dirtyItems *)

Definition str_le (a b : string) : Prop := Str.ltb b a = false.
#[global] Instance str_le_dec : RelDecision str_le.
Proof. intros a b. unfold str_le. apply _. Defined.

Definition index (strL : list string) (i : Z) : outcome string :=
  or_panic (strL !! Z.to_nat i) "index out of range".

(** [for i := n - 1; i >= 0; i-- { if strL[i] differs { return i + 1 } }; return 0] *)
Fixpoint scan_back (stop : string → bool) (strL : list string) (n : nat) : outcome Z :=
  match n with
  | O => Ok 0
  | S i =>
      x ← index strL (Z.of_nat i);
      if stop x then Ok (Z.of_nat i + 1) else scan_back stop strL i
  end.

(** The binary search: an index where [q] stands, or the bounds it ends with. *)
Fixpoint bsearch (fuel : nat) (strL : list string) (q : string) (left right : Z) : outcome (Z + Z * Z) :=
  match fuel with
  | O => Panic "fuel"
  | S f =>
      if left <=? right then
        let mid := Z.shiftr (left + right) 1 in
        midStr ← index strL mid;
        if String.eqb midStr q then Ok (inl mid)
        else if Str.ltb midStr q then bsearch f strL q (mid + 1) right
        else bsearch f strL q left (mid - 1)
      else Ok (inr (left, right))
  end.

Definition search (strL : list string) (q : string) : outcome (Z + Z * Z) :=
  bsearch (S (length strL)) strL q 0 (Z.of_nat (length strL) - 1).

Definition findStartIndex (strL : list string) (startQ : string) : outcome Z :=
  if bool_decide (strL = []) then Ok (-1) else
  r ← search strL startQ;
  match r with
  | inl mid => scan_back (λ x, negb (String.eqb x startQ)) strL (Z.to_nat mid)
  | inr (l, _) =>
      if (0 <=? l) && (l <? Z.of_nat (length strL)) then
        x ← index strL l;
        if negb (Str.ltb x startQ) then Ok l else Ok (-1)
      else Ok (-1)
  end.

(** [for i := n - 1; i >= 0; i-- { if strL[i] < endQ { return i } }; return -1] *)
Fixpoint last_below (strL : list string) (endQ : string) (n : nat) : outcome Z :=
  match n with
  | O => Ok (-1)
  | S i =>
      x ← index strL (Z.of_nat i);
      if Str.ltb x endQ then Ok (Z.of_nat i) else last_below strL endQ i
  end.

Definition findEndIndex (strL : list string) (endQ : string) : outcome Z :=
  if bool_decide (strL = []) then Ok (-1) else
  r ← search strL endQ;
  match r with
  | inl mid => scan_back (λ x, Str.ltb x endQ) strL (Z.to_nat mid)
  | inr (_, r) => last_below strL endQ (Z.to_nat (r + 1))
  end.

Section store.
Context {P : Type} `{KVStore P} {T : Type} `{DB T}.
Context (NewMemDB : T) (IsKeyInDomain : string → option string → option string → bool).
Abbreviation St := (CacheStore P T).

Definition NewStore (p : P) : St := mkStore ∅ ∅ ∅ NewMemDB p.

Definition set_parent (p : P) (s : St) : St :=
  mkStore (cache s) (deleted s) (unsortedCache s) (sortedCache s) p.
Definition set_sorted (t : T) (s : St) : St :=
  mkStore (cache s) (deleted s) (unsortedCache s) t (parent s).
Definition set_unsorted (u : gset string) (s : St) : St :=
  mkStore (cache s) (deleted s) u (sortedCache s) (parent s).
Definition on_parent {A} : M P A → M St A := zoom parent set_parent.

Definition setCacheValue (key : string) (v : option string) (del dirt : bool) (s : St) : St :=
  mkStore (<[key := mkCValue v dirt]> (cache s))
    (if del then {[key]} ∪ deleted s else deleted s ∖ {[key]})
    (if dirt then {[key]} ∪ unsortedCache s else unsortedCache s)
    (sortedCache s) (parent s).

Definition isDeleted (key : string) (s : St) : bool := bool_decide (key ∈ deleted s).

Definition Get (key : string) : M St (option string) :=
  _ ← lift (AssertValidKey key);
  c ← gets cache;
  match c !! key with
  | None =>
      v ← on_parent (kv_Get key);
      _ ← modify (setCacheValue key v false false);
      mret v
  | Some cacheValue => mret (value cacheValue)
  end.

Definition Set_ (key : string) (v : option string) : M St () :=
  _ ← lift (AssertValidKey key);
  v ← lift (AssertValidValue v);
  modify (setCacheValue key (Some v) false true).

Definition Has (key : string) : M St bool :=
  v ← Get key; mret (bool_decide (is_Some v)).

Definition Delete (key : string) : M St () :=
  _ ← lift (AssertValidKey key);
  modify (setCacheValue key None true true).

(** ** Write *)

Definition dirty_keys (s : St) : list string :=
  merge_sort str_le (filter (λ x, dirty x.2 = true) (map_to_list (cache s))).*1.

Definition write_key (key : string) : M St () :=
  s ← gets id;
  if isDeleted key s then on_parent (kv_Delete key)
  else
    cacheValue ← lift (or_panic (cache s !! key) "nil pointer dereference");
    match value cacheValue with
    | Some v => on_parent (kv_Set key (Some v))
    | None => mret ()
    end.

Definition Write : M St () :=
  keys ← gets dirty_keys;
  _ ← for_each write_key keys;
  modify (λ s, mkStore ∅ ∅ ∅ NewMemDB (parent s)).

(** ** Iteration *)

Definition stateUnsorted : bool := true.
Definition stateAlreadySorted : bool := false.

Definition sort_item (x : kvpair) : M St () := λ s,
  match x.2 with
  | None =>
      (Ok (), match db_Set x.1 (Some "") (sortedCache s) with Ok t => set_sorted t s | _ => s end)
  | Some v =>
      match db_Set x.1 (Some v) (sortedCache s) with
      | Ok t => (Ok (), set_sorted t s)
      | Err e | Panic e => (Panic e, s)
      end
  end.

Definition clearUnsortedCacheSubset (unsorted : list kvpair) (sortState : bool) : M St () :=
  _ ← modify (λ s, set_unsorted
        (if (length unsorted =? size (unsortedCache s))%nat then ∅
         else foldl (λ u x, u ∖ {[x.1]}) (unsortedCache s) unsorted) s);
  for_each sort_item (if sortState then merge_sort key_le unsorted else unsorted).

(** The pairs of some keys; every key must be cached. *)
Fixpoint pairs_of (c : gmap string cValue) (keys : list string) : outcome (list kvpair) :=
  match keys with
  | [] => Ok []
  | k :: keys =>
      cacheValue ← or_panic (c !! k) "nil pointer dereference";
      l ← pairs_of c keys;
      Ok ((k, value cacheValue) :: l)
  end.

Definition dirtyItems (start stop : option string) : M St () :=
  let startStr := default "" start in
  let endStr := default "" stop in
  if Str.ltb endStr startStr then mret ()
  else
    s ← gets id;
    let n := size (unsortedCache s) in
    if (n <? 1024)%nat then
      unsorted ← lift (pairs_of (cache s)
        (filter (λ key, IsKeyInDomain key start stop = true) (elements (unsortedCache s))));
      clearUnsortedCacheSubset unsorted stateUnsorted
    else
      let strL := merge_sort str_le (elements (unsortedCache s)) in
      startIndex ← lift (findStartIndex strL startStr);
      endIndex ← lift (findEndIndex strL endStr);
      let endIndex := if endIndex <? 0 then Z.of_nat (length strL) - 1 else endIndex in
      let startIndex := if startIndex <? 0 then 0 else startIndex in
      kvL ← lift (pairs_of (cache s)
        (take (Z.to_nat (endIndex + 1 - startIndex)) (drop (Z.to_nat startIndex) strL)));
      clearUnsortedCacheSubset kvL stateAlreadySorted.

Definition iterator (start stop : option string) (ascending : bool) : M St iter :=
  p ← on_parent (kv_items ascending start stop);
  _ ← dirtyItems start stop;
  t ← gets sortedCache;
  c ← lift (must (db_Iterator ascending start stop t));
  mret (mkIter p c None).

(** What a caller that walks the iterator to its end is given. *)
Definition items (ascending : bool) (start stop : option string) : M St (list item) :=
  it ← iterator start stop ascending;
  del ← gets deleted;
  lift (each ascending id (λ _, mret ())
          (S (length (CacheIter.parent it) + length (CacheIter.cache it))) (del, it)).1.

#[global] Instance cache_kv : KVStore St := {|
  kv_Get := Get; kv_Has := Has; kv_Set := Set_; kv_Delete := Delete; kv_items := items |}.
End store.

End CacheKV.
