(* ===== verification/CacheKVFacts.v ===== *)
(** * Facts on the branched store: its searches, its invariant, its view *)

From Stdlib Require Import ZArith Lia Ascii String.
From stdpp Require Import base tactics option list gmap sorting strings.
From S2P Require Import Prelude GoStd Wire Store CacheIter KVStore CacheKV.

Local Open Scope Z_scope.

Module CacheKVFacts.
Import Store CacheIter KV CacheKV.

(** ** The searches *)

Lemma str_le_cases a b : str_le a b ↔ a = b ∨ Str.lt a b.
Proof.
  unfold str_le. destruct (Str.compare_spec a b) as [->|Hlt|Hlt].
  - split; [by left|]. intros _. apply not_true_is_false, Str.lt_irrefl.
  - split; [by right|]. intros _. apply not_true_is_false. intros Hba.
    by eapply Str.lt_irrefl, Str.lt_trans.
  - split; [intros E; unfold Str.lt in Hlt; congruence|].
    intros [->|H]; [by destruct (Str.lt_irrefl b)|]. destruct (Str.lt_irrefl a). by eapply Str.lt_trans.
Qed.
Lemma str_le_lt a b c : str_le a b → Str.lt b c → Str.lt a c.
Proof. intros [->|H]%str_le_cases; [done|]. by apply Str.lt_trans. Qed.
Lemma str_lt_le a b c : Str.lt a b → str_le b c → Str.lt a c.
Proof. intros H [<-|H']%str_le_cases; [done|]. by eapply Str.lt_trans. Qed.
Lemma str_not_lt a b : ¬ Str.lt a b ↔ str_le b a.
Proof. unfold str_le, Str.lt. by rewrite not_true_iff_false. Qed.

#[global] Instance str_le_total : Total str_le.
Proof. intros a b. rewrite !str_le_cases. destruct (Str.compare_spec a b); naive_solver. Qed.
#[global] Instance str_le_trans : Transitive str_le.
Proof. intros a b c. rewrite !str_le_cases. intros [->|?] [->|?]; auto. right. by eapply Str.lt_trans. Qed.

Section search.
Context (strL : list string) (Hsort : StronglySorted str_le strL) (q : string).
Abbreviation len := (Z.of_nat (length strL)).

Lemma index_run i x : 0 <= i → strL !! Z.to_nat i = Some x → index strL i = Ok x.
Proof. unfold index. by intros _ ->. Qed.

Definition below (l : Z) : Prop := ∀ n x, strL !! n = Some x → Z.of_nat n < l → Str.lt x q.
Definition above (r : Z) : Prop := ∀ n x, strL !! n = Some x → r < Z.of_nat n → Str.lt q x.

Lemma sorted_le i j x y : (i <= j)%nat → strL !! i = Some x → strL !! j = Some y → str_le x y.
Proof using Hsort.
  intros Hij Hx Hy. destruct (decide (i = j)) as [->|].
  - apply str_le_cases. left. congruence.
  - eapply (sorted_lookup_lt _ _ i j); [exact Hsort|done|done|lia].
Qed.

Lemma bsearch_spec fuel l r : 0 <= l → r < len → l <= r + 1 → r - l + 1 < Z.of_nat fuel →
  below l → above r →
  (∃ mid, bsearch fuel strL q l r = Ok (inl mid) ∧ 0 <= mid < len ∧ strL !! Z.to_nat mid = Some q) ∨
  (∃ l', bsearch fuel strL q l r = Ok (inr (l', l' - 1)) ∧ 0 <= l' <= len ∧ below l' ∧ above (l' - 1)).
Proof using Hsort.
  revert l r. induction fuel as [|f IH]; intros l r Hl Hr Hlr Hf Hb Ha; [lia|]. cbn [bsearch].
  destruct (Z.leb_spec l r) as [Hle|Hgt].
  2:{ right. exists l. replace r with (l - 1) by lia. split_and!; try done; try lia. by replace (l - 1) with r by lia. }
  rewrite Z.shiftr_div_pow2 by lia. change (2 ^ 1) with 2.
  assert (l <= (l + r) / 2 <= r) as Hmid by (split; [apply Z.div_le_lower_bound|apply Z.div_le_upper_bound]; lia).
  set (mid := (l + r) / 2) in *. clearbody mid.
  destruct (lookup_lt_is_Some_2 strL (Z.to_nat mid)) as [x Hx]; [lia|].
  rewrite (bind_run _ _ x) by (apply index_run; [lia|done]).
  destruct (String.eqb_spec x q) as [->|Hne]; [left; exists mid; split_and!; [done|lia|lia|done]|].
  destruct (Str.ltb x q) eqn:E.
  - apply IH; try lia; [|done]. intros n y Hy Hn. eapply str_le_lt; [|exact E].
    eapply (sorted_le n (Z.to_nat mid)); [lia|done|done].
  - apply IH; try lia; [done|]. intros n y Hy Hn. apply (str_lt_le q x).
    + apply str_le_cases in E as [?|?]; [congruence|done].
    + eapply (sorted_le (Z.to_nat mid) n); [lia|done|done].
Qed.

Lemma search_spec :
  (∃ mid, search strL q = Ok (inl mid) ∧ 0 <= mid < len ∧ strL !! Z.to_nat mid = Some q) ∨
  (∃ l, search strL q = Ok (inr (l, l - 1)) ∧ 0 <= l <= len ∧ below l ∧ above (l - 1)).
Proof using Hsort.
  apply bsearch_spec; try lia.
  - intros n x _. lia.
  - intros n x Hx%lookup_lt_Some. lia.
Qed.

Lemma scan_back_spec stop n : (n <= length strL)%nat → ∃ i, scan_back stop strL n = Ok i ∧ 0 <= i <= Z.of_nat n ∧
  (∀ m x, i <= Z.of_nat m → (m < n)%nat → strL !! m = Some x → stop x = false) ∧
  (0 < i → ∃ x, strL !! Z.to_nat (i - 1) = Some x ∧ stop x = true).
Proof using.
  induction n as [|n IH]; intros Hn; cbn [scan_back]; [exists 0; split_and!; [done|lia..]|].
  destruct (lookup_lt_is_Some_2 strL n) as [x Hx]; [lia|].
  rewrite (bind_run _ _ x) by (apply index_run; [lia|by rewrite Nat2Z.id]).
  destruct (stop x) eqn:E.
  - exists (Z.of_nat n + 1). split_and!; [done|lia|lia|lia|]. intros _. exists x.
    by replace (Z.to_nat (Z.of_nat n + 1 - 1)) with n by lia.
  - destruct IH as (i & Hi & Hr & H1 & H2); [lia|]. exists i. split_and!; [done|lia|lia| |done].
    intros m y Him Hmn Hy. destruct (decide (m = n)) as [->|]; [congruence|]. apply (H1 m y); [done|lia|done].
Qed.

(** The first element from [q] on, or -1 when all are below. *)
Lemma findStartIndex_spec : ∃ i, findStartIndex strL q = Ok i ∧ -1 <= i < len ∧
  below i ∧ (0 <= i → ∃ x, strL !! Z.to_nat i = Some x ∧ str_le q x) ∧ (i = -1 → below len).
Proof using Hsort.
  unfold findStartIndex. case_bool_decide as Hnil.
  { assert (∀ l, below l) as Hb by (intros l n x Hx; by rewrite Hnil in Hx).
    exists (-1). rewrite Hnil. split_and!; try done; cbn; lia. }
  assert (0 < len) by (destruct strL; [done|simpl; lia]).
  destruct search_spec as [(mid & E & Hmid & Hq)|(l & E & Hl & Hb & Ha)]; rewrite (bind_run _ _ _ E).
  - destruct (scan_back_spec (λ x, negb (String.eqb x q)) (Z.to_nat mid)) as (i & Hi & Hr & H1 & H2); [lia|].
    exists i. split_and!; [done|lia|lia| | |lia].
    + intros n x Hx Hn. destruct H2 as (y & Hy & Hne); [lia|].
      apply negb_true_iff, String.eqb_neq in Hne.
      apply (str_le_lt x y q); [eapply sorted_le; [|done|done]; lia|].
      destruct (proj1 (str_le_cases y q)); [|done|done]. eapply sorted_le; [|done|done]; lia.
    + intros _. destruct (decide (i = mid)) as [->|]; [exists q; split; [done|]; apply str_le_cases; by left|].
      destruct (lookup_lt_is_Some_2 strL (Z.to_nat i)) as [x Hx]; [lia|]. exists x. split; [done|].
      pose proof (H1 (Z.to_nat i) x ltac:(lia) ltac:(lia) Hx) as Hs.
      apply negb_false_iff, String.eqb_eq in Hs as ->. apply str_le_cases. by left.
  - rewrite (proj2 (Z.leb_le 0 l)) by lia. cbn [andb]. destruct (Z.ltb_spec l len).
    + destruct (lookup_lt_is_Some_2 strL (Z.to_nat l)) as [x Hx]; [lia|].
      assert (Str.lt q x) as Hqx by (apply (Ha (Z.to_nat l) x); [done|lia]).
      rewrite (bind_run _ _ x) by (apply index_run; [lia|done]).
      assert (str_le q x) as Hle by (apply str_le_cases; by right).
      rewrite Hle. cbn [negb]. exists l. split_and!; try done; try lia. intros _. by exists x.
    + exists (-1). replace l with len in Hb by lia. split_and!; try done; try lia. intros n x _. lia.
Qed.

(** An element up to [q] that no element below [q] is past, or -1. *)
Lemma findEndIndex_spec : ∃ j, findEndIndex strL q = Ok j ∧ -1 <= j < len ∧
  (∀ n x, strL !! n = Some x → Str.lt x q → Z.of_nat n <= j) ∧
  (0 <= j → ∃ x, strL !! Z.to_nat j = Some x ∧ str_le x q).
Proof using Hsort.
  unfold findEndIndex. case_bool_decide as Hnil.
  { exists (-1). rewrite Hnil. split_and!; try done; cbn; lia. }
  assert (0 < len) by (destruct strL; [done|simpl; lia]).
  destruct search_spec as [(mid & E & Hmid & Hq)|(l & E & Hl & Hb & Ha)]; rewrite (bind_run _ _ _ E).
  - destruct (scan_back_spec (λ x, Str.ltb x q) (Z.to_nat mid)) as (i & Hi & Hr & H1 & _); [lia|].
    exists i. split_and!; [done|lia|lia| |].
    2:{ intros _. destruct (lookup_lt_is_Some_2 strL (Z.to_nat i)) as [x Hx]; [lia|]. exists x.
        split; [done|]. eapply sorted_le; [|done|done]. lia. }
    intros n x Hx Hlt. destruct (Z.le_gt_cases (Z.of_nat n) i); [done|].
    destruct (decide (n < Z.to_nat mid)%nat) as [Hn|Hn].
    + pose proof (H1 n x ltac:(lia) Hn Hx). unfold Str.lt in Hlt. congruence.
    + destruct (proj2 (str_not_lt x q)); [|done]. eapply sorted_le; [|done|done]. lia.
  - replace (l - 1 + 1) with l by lia. destruct (decide (l = 0)) as [->|Hl0].
    + exists (-1). split_and!; try done; try lia. intros n x Hx Hlt.
      destruct (Str.lt_asym x q); [done|]. apply (Ha n x); [done|lia].
    + destruct (Z.to_nat l) as [|k] eqn:Hk; [lia|]. cbn [last_below].
      destruct (lookup_lt_is_Some_2 strL k) as [x Hx]; [lia|].
      rewrite (bind_run _ _ x) by (apply index_run; [lia|by rewrite Nat2Z.id]).
      rewrite (Hb k x Hx) by lia. exists (Z.of_nat k). split_and!; [done|lia|lia| |].
      2:{ intros _. exists x. rewrite Nat2Z.id. split; [done|]. apply str_le_cases. right. apply (Hb k x Hx). lia. }
      intros n y Hy Hlt. destruct (Z.le_gt_cases (Z.of_nat n) (Z.of_nat k)); [done|].
      destruct (Str.lt_asym y q); [done|]. apply (Ha n y); [done|lia].
Qed.
End search.

(** ** The invariant and the view *)

Section facts.
Context {P : Type} `{HP : KVLaws P} {T : Type} `{HT : DBLaws T}.
Abbreviation St := (CacheStore P T).
Implicit Types (s : St).

(** Cached values over the parent's. *)
Definition view s : contents :=
  merge (λ cv pv, match cv with Some c => value c | None => pv end) (cache s) (kv_view (parent s)).

Lemma view_lookup s k :
  view s !! k = match cache s !! k with Some c => value c | None => kv_view (parent s) !! k end.
Proof. unfold view. rewrite lookup_merge. by destruct (cache s !! k), (kv_view (parent s) !! k). Qed.

Record ok s : Prop := {
  ok_parent : kv_ok (parent s);
  ok_keys k cv : cache s !! k = Some cv → k ≠ "";
  ok_clean k v : cache s !! k = Some (mkCValue v false) → v = kv_view (parent s) !! k;
  ok_deleted k : k ∈ deleted s ↔ cache s !! k = Some (mkCValue None true);
  ok_unsorted k : k ∈ unsortedCache s → ∃ v, cache s !! k = Some (mkCValue v true);
  ok_sorted k v : db_view (sortedCache s) !! k = Some v →
    ∃ w, cache s !! k = Some (mkCValue w true) ∧ (k ∉ unsortedCache s → v = default "" w);
  ok_dirty k v : cache s !! k = Some (mkCValue v true) →
    k ∈ unsortedCache s ∨ is_Some (db_view (sortedCache s) !! k) }.

Lemma set_parent_ok p s : ok s → kv_ok p → kv_view p = kv_view (parent s) →
  ok (set_parent p s) ∧ view (set_parent p s) = view s.
Proof.
  intros [] Hp Hv. split.
  - split; cbn [parent cache deleted unsortedCache sortedCache set_parent]; rewrite ?Hv; done.
  - apply map_eq. intros k. rewrite !view_lookup. cbn [parent cache set_parent]. by rewrite Hv.
Qed.

Definition put (k : string) (v : option string) (m : contents) : contents :=
  match v with Some v => <[k := v]> m | None => delete k m end.
Lemma lookup_put k v m k' : put k v m !! k' = if decide (k = k') then v else m !! k'.
Proof.
  destruct v; simpl; case_decide; subst;
    rewrite ?lookup_insert_eq, ?lookup_insert_ne, ?lookup_delete_eq, ?lookup_delete_ne; done.
Qed.

(** A write, or a deletion. *)
Lemma write_ok s k v : ok s → k ≠ "" →
  ok (setCacheValue k v (bool_decide (v = None)) true s) ∧
  view (setCacheValue k v (bool_decide (v = None)) true s) = put k v (view s).
Proof.
  intros [H1 H2 H3 H4 H5 H6 H7] Hk. split.
  - split; cbn [parent cache deleted unsortedCache sortedCache setCacheValue]; try done.
    + intros k' cv. rewrite lookup_insert_Some. intros [[<- _]|[_ Hc]]; [done|by eapply H2].
    + intros k' w. rewrite lookup_insert_Some. intros [[<- ?]|[_ Hc]]; [done|by apply H3].
    + intros k'. rewrite lookup_insert_Some. specialize (H4 k').
      case_bool_decide; subst; destruct (decide (k = k')); subst; set_solver.
    + intros k'. rewrite elem_of_union, elem_of_singleton.
      destruct (decide (k' = k)) as [->|]; [rewrite lookup_insert_eq; eauto|].
      rewrite lookup_insert_ne by done. intros [?|?]; [done|by apply H5].
    + intros k' w Hw. destruct (decide (k' = k)) as [->|].
      * rewrite lookup_insert_eq. eexists. split; [done|]. set_solver.
      * rewrite lookup_insert_ne by done. destruct (H6 k' w Hw) as (w' & Hc & Hu).
        exists w'. split; [done|]. set_solver.
    + intros k' w. rewrite lookup_insert_Some. intros [[<- ?]|[_ Hc]]; [left; set_solver|].
      destruct (H7 k' w Hc); [left; set_solver|by right].
  - apply map_eq. intros k'. rewrite lookup_put, !view_lookup. cbn [cache parent setCacheValue].
    case_decide; subst; [by rewrite lookup_insert_eq|by rewrite lookup_insert_ne].
Qed.

(** A value read from the parent is remembered. *)
Lemma read_ok s k : ok s → k ≠ "" → cache s !! k = None →
  ok (setCacheValue k (kv_view (parent s) !! k) false false s) ∧
  view (setCacheValue k (kv_view (parent s) !! k) false false s) = view s.
Proof.
  intros [H1 H2 H3 H4 H5 H6 H7] Hk Hn. split.
  - assert (∀ k' c, cache s !! k' = Some c → k ≠ k') as Hne by (intros ?? Hc ->; congruence).
    split; cbn [parent cache deleted unsortedCache sortedCache setCacheValue]; try done.
    + intros k' cv. rewrite lookup_insert_Some. intros [[<- _]|[_ Hc]]; [done|by eapply H2].
    + intros k' w. rewrite lookup_insert_Some. intros [[<- ?]|[_ Hc]]; [by simplify_eq|by apply H3].
    + intros k'. rewrite lookup_insert_Some. specialize (H4 k'). destruct (decide (k = k')); subst; set_solver.
    + intros k' Hu. destruct (H5 k' Hu) as [w Hw]. exists w. rewrite lookup_insert_ne; [done|by eapply Hne].
    + intros k' w Hw. destruct (H6 k' w Hw) as (w' & Hc & Hu). exists w'.
      rewrite lookup_insert_ne by (by eapply Hne). done.
    + intros k' w. rewrite lookup_insert_Some. intros [[<- ?]|[_ Hc]]; [done|by eapply H7].
  - apply map_eq. intros k'. rewrite !view_lookup. cbn [cache parent setCacheValue].
    destruct (decide (k = k')) as [<-|]; [by rewrite lookup_insert_eq, Hn|by rewrite lookup_insert_ne].
Qed.

(** ** The operations *)

(** A good branch over a parent that stands for [m]. *)
Definition good (m : contents) s : Prop := ok s ∧ kv_view (parent s) = m.

Lemma on_parent_run {A} (f : M P A) s a m :
  steps kv_ok kv_view f (parent s) a m →
  ∃ p, on_parent f s = (Ok a, set_parent p s) ∧ kv_ok p ∧ kv_view p = m.
Proof. intros (p & E & Hp). exists p. unfold on_parent, zoom. by rewrite E. Qed.

Lemma Get_run m s k : good m s → k ≠ "" → steps (good m) view (Get k) s (view s !! k) (view s).
Proof.
  intros [Hs Hm] Hk. unfold Get, steps. rewrite AssertValidKey_run, lift_bind, gets_bind by done.
  rewrite view_lookup. destruct (cache s !! k) as [cv|] eqn:E; [by exists s|].
  destruct (on_parent_run (kv_Get k) s _ _ (kv_get _ k (ok_parent s Hs) Hk)) as (p & Ep & Hp & Vp).
  rewrite (Mbind_run _ _ _ _ _ Ep), modify_bind. destruct (set_parent_ok p s Hs Hp Vp) as [Hs1 V1].
  destruct (read_ok (set_parent p s) k Hs1 Hk E) as [Hs2 V2]. cbn [parent set_parent] in Hs2, V2.
  rewrite Vp in Hs2, V2. eexists. split_and!; [done| |congruence]. split; [done|]. cbn. congruence.
Qed.

Lemma Has_run m s k : good m s → k ≠ "" →
  steps (good m) view (Has k) s (bool_decide (is_Some (view s !! k))) (view s).
Proof.
  intros Hs Hk. destruct (Get_run m s k Hs Hk) as (s' & E & Hs'). exists s'. split; [|done].
  unfold Has. by rewrite (Mbind_run _ _ _ _ _ E).
Qed.

Lemma Set_run m s k v : good m s → k ≠ "" →
  steps (good m) view (Set_ k (Some v)) s () (<[k := v]> (view s)).
Proof.
  intros [Hs Hm] Hk. unfold Set_, steps. rewrite AssertValidKey_run, !lift_bind by done.
  destruct (write_ok s k (Some v) Hs Hk) as [Hs1 V1]. eexists. split; [done|]. by split.
Qed.

Lemma Delete_run m s k : good m s → k ≠ "" →
  steps (good m) view (Delete k) s () (delete k (view s)).
Proof.
  intros [Hs Hm] Hk. unfold Delete, steps. rewrite AssertValidKey_run, lift_bind by done.
  destruct (write_ok s k None Hs Hk) as [Hs1 V1]. eexists. split; [done|]. by split.
Qed.

(** ** Write *)

Lemma dirty_keys_elem s k : k ∈ dirty_keys s ↔ ∃ v, cache s !! k = Some (mkCValue v true).
Proof.
  unfold dirty_keys. rewrite (merge_sort_Permutation str_le), list_elem_of_fmap. split.
  - intros ([k' [v d]] & -> & [Hd Hc]%list_elem_of_filter). cbn in *. subst d.
    exists v. by apply elem_of_map_to_list.
  - intros [v Hc]. exists (k, mkCValue v true). split; [done|]. apply list_elem_of_filter.
    split; [done|]. by apply elem_of_map_to_list.
Qed.

Lemma write_key_run s p k v : ok s → kv_ok p → cache s !! k = Some (mkCValue v true) →
  ∃ p', write_key k (set_parent p s) = (Ok (), set_parent p' s) ∧ kv_ok p' ∧ kv_view p' = put k v (kv_view p).
Proof.
  intros Hs Hp Hk. unfold write_key. rewrite gets_bind. unfold id, isDeleted.
  cbn [deleted cache set_parent]. rewrite Hk. cbn [or_panic].
  pose proof (ok_keys s Hs _ _ Hk) as Hne. pose proof (ok_deleted s Hs k) as Hd. rewrite Hk in Hd.
  destruct v as [v|]; case_bool_decide as Hdel; try tauto.
  - by apply Hd in Hdel.
  - rewrite lift_bind. by apply (on_parent_run (kv_Set k (Some v)) (set_parent p s)), kv_set.
  - by apply (on_parent_run (kv_Delete k) (set_parent p s)), kv_delete.
Qed.

Lemma write_loop s l p : ok s → kv_ok p → (∀ k, k ∈ l → k ∈ dirty_keys s) →
  ∃ p', for_each write_key l (set_parent p s) = (Ok (), set_parent p' s) ∧ kv_ok p' ∧
    ∀ k, kv_view p' !! k = if decide (k ∈ l) then cache s !! k ≫= value else kv_view p !! k.
Proof.
  intros Hs. revert p. induction l as [|k l IH]; intros p Hp Hl; cbn [for_each]; [by exists p|].
  destruct (proj1 (dirty_keys_elem s k) ltac:(apply Hl; left)) as [v Hv].
  destruct (write_key_run s p k v Hs Hp Hv) as (p1 & E1 & Hp1 & V1).
  destruct (IH p1 Hp1) as (p2 & E2 & Hp2 & V2); [intros; apply Hl; by right|].
  exists p2. split; [by rewrite (Mbind_run _ _ _ _ _ E1)|]. split; [done|].
  intros k'. rewrite V2. destruct (decide (k' ∈ l)) as [Hi|Hi].
  { by rewrite decide_True by by right. }
  rewrite V1, lookup_put. destruct (decide (k = k')) as [<-|Hne].
  - by rewrite decide_True, Hv by left.
  - rewrite decide_False; [done|]. by intros [->|?]%elem_of_cons.
Qed.

(** ** Moving the unsorted items *)

Definition cached s (x : kvpair) : Prop := x.1 ≠ "" ∧ cache s !! x.1 = Some (mkCValue x.2 true).

Lemma sort_item_run s x : x.1 ≠ "" → ∃ t,
  sort_item x s = (Ok (), set_sorted t s) ∧ db_view t = <[x.1 := default "" x.2]> (db_view (sortedCache s)).
Proof.
  intros Hk. destruct (db_set (sortedCache s) x.1 (default "" x.2) Hk) as (t & E & V).
  exists t. unfold sort_item. destruct x as [k [v|]]; cbn [fst snd default from_option id] in *; by rewrite E.
Qed.

Lemma sort_loop s l t : Forall (cached s) l → ∃ t',
  for_each sort_item l (set_sorted t s) = (Ok (), set_sorted t' s) ∧
  ∀ k, db_view t' !! k = if decide (k ∈ l.*1) then Some (default "" (cache s !! k ≫= value)) else db_view t !! k.
Proof.
  revert t. induction l as [|x l IH]; intros t Hl; cbn [for_each]; [by exists t|].
  apply Forall_cons in Hl as [[Hne Hx] Hl].
  destruct (sort_item_run (set_sorted t s) x Hne) as (t1 & E1 & V1).
  destruct (IH t1 Hl) as (t2 & E2 & V2). exists t2. split; [by rewrite (Mbind_run _ _ _ _ _ E1)|].
  intros k. rewrite V2, V1, fmap_cons. cbn [sortedCache set_sorted].
  destruct (decide (k ∈ l.*1)) as [Hi|Hi].
  { by rewrite decide_True by by right. }
  destruct (decide (k = x.1)) as [->|Hk].
  - by rewrite decide_True, lookup_insert_eq, Hx by left.
  - rewrite decide_False, lookup_insert_ne; [done..|]. by intros [->|?]%elem_of_cons.
Qed.

(** The keys taken out of the unsorted set. *)
Lemma unsorted_rest s (l : list kvpair) : NoDup l.*1 → (∀ k, k ∈ l.*1 → k ∈ unsortedCache s) →
  (if (length l =? size (unsortedCache s))%nat then ∅ else foldl (λ u x, u ∖ {[x.1]}) (unsortedCache s) l)
  = unsortedCache s ∖ list_to_set l.*1.
Proof.
  intros Hnd Hin. destruct (Nat.eqb_spec (length l) (size (unsortedCache s))) as [E|_].
  - assert (list_to_set l.*1 = unsortedCache s) as ->; [|set_solver].
    apply set_subseteq_size_eq; [set_solver|].
    rewrite size_list_to_set by done. by rewrite length_fmap, E.
  - clear. revert l. generalize (unsortedCache s). intros u l. revert u.
    induction l as [|x l IH]; intros u; cbn; [set_solver|]. rewrite IH. set_solver.
Qed.

Lemma resorted_ok s (l : list kvpair) t : ok s → Forall (cached s) l →
  (∀ k, db_view t !! k = if decide (k ∈ l.*1) then Some (default "" (cache s !! k ≫= value))
                         else db_view (sortedCache s) !! k) →
  ok (set_sorted t (set_unsorted (unsortedCache s ∖ list_to_set l.*1) s)).
Proof.
  intros [H1 H2 H3 H4 H5 H6 H7] Hl V.
  split; cbn [cache deleted parent unsortedCache sortedCache set_sorted set_unsorted]; try done.
  - intros k [Hu _]%elem_of_difference. by apply H5.
  - intros k v. rewrite V. case_decide as Hk.
    + intros [= <-]. apply list_elem_of_fmap in Hk as (x & -> & Hx).
      destruct (proj1 (Forall_forall _ _) Hl x Hx) as [_ Hc]. exists x.2. by rewrite Hc.
    + intros Hv. destruct (H6 k v Hv) as (w & Hw & Hu). exists w. split; [done|]. intros Hn. apply Hu.
      intros Hin. by apply Hn, elem_of_difference; split; [|rewrite elem_of_list_to_set].
  - intros k v Hv. rewrite V. destruct (decide (k ∈ l.*1)) as [Hk|Hk]; [by right|].
    destruct (H7 k v Hv) as [?|?]; [left|by right].
    apply elem_of_difference. by rewrite elem_of_list_to_set.
Qed.

Lemma clear_run s (l : list kvpair) sortState : ok s → NoDup l.*1 →
  Forall (λ x, x.1 ∈ unsortedCache s ∧ cached s x) l → ∃ s',
  clearUnsortedCacheSubset l sortState s = (Ok (), s') ∧ ok s' ∧ cache s' = cache s ∧
  deleted s' = deleted s ∧ parent s' = parent s ∧ unsortedCache s' = unsortedCache s ∖ list_to_set l.*1.
Proof.
  intros Hs Hnd Hl. unfold clearUnsortedCacheSubset. rewrite modify_bind.
  rewrite unsorted_rest; [|done|intros k (x & -> & Hx)%list_elem_of_fmap; by apply (proj1 (Forall_forall _ _) Hl)].
  set (l' := if sortState then merge_sort key_le l else l).
  assert (l' ≡ₚ l) as Hp by (unfold l'; destruct sortState; [apply merge_sort_Permutation|done]).
  assert (Forall (cached s) l) as Hc by (eapply Forall_impl; [exact Hl|]; by intros x []).
  destruct (sort_loop (set_unsorted (unsortedCache s ∖ list_to_set l.*1) s) l' (sortedCache s)) as (t & E & V).
  { by rewrite Hp. }
  eexists. split; [exact E|]. split_and!; try done. apply resorted_ok; [done|done|].
  intros k. rewrite V. cbn [cache set_unsorted]. destruct (decide (k ∈ l'.*1)), (decide (k ∈ l.*1)) as [Hk|Hk]; try done;
    by rewrite <- Hp in Hk.
Qed.

Context (NewMemDB : T).

(** [Write] leaves an empty branch over a parent that now stands for what the
    branch stood for. *)
Lemma Write_run s : ok s → ∃ p, Write NewMemDB s = (Ok (), NewStore NewMemDB p) ∧ kv_ok p ∧ kv_view p = view s.
Proof.
  intros Hs. unfold Write. rewrite gets_bind.
  destruct (write_loop s (dirty_keys s) (parent s) Hs (ok_parent s Hs)) as (p & E & Hp & V); [done|].
  assert (set_parent (parent s) s = s) as Hid by by destruct s. rewrite Hid in E.
  exists p. rewrite (Mbind_run _ _ _ _ _ E). split; [done|]. split; [done|].
  apply map_eq. intros k. rewrite V, view_lookup. destruct (cache s !! k) as [[v d]|] eqn:Hk.
  - case_decide as Hd; [done|]. destruct d; [|cbn; symmetry; by apply (ok_clean s Hs)].
    destruct Hd. apply dirty_keys_elem. eauto.
  - rewrite decide_False; [done|]. rewrite dirty_keys_elem. naive_solver.
Qed.

Context (HNew : db_view NewMemDB = ∅).

Lemma NewStore_ok p : kv_ok p → ok (NewStore NewMemDB p) ∧ view (NewStore NewMemDB p) = kv_view p.
Proof using HNew.
  intros Hp. split.
  - split; cbn [parent cache deleted unsortedCache sortedCache NewStore]; [done|..]; intros k;
      rewrite ?HNew, ?lookup_empty; done.
  - apply map_eq. intros k. by rewrite view_lookup.
Qed.

Context (IsKeyInDomain : string → option string → option string → bool).
Context (Hdomain : ∀ k start stop, IsKeyInDomain k start stop = in_domain (default "" start) stop (k, "")).

Lemma pairs_of_run s keys : ok s → (∀ k, k ∈ keys → k ∈ unsortedCache s) → ∃ l,
  pairs_of (cache s) keys = Ok l ∧ l.*1 = keys ∧ Forall (λ x, x.1 ∈ unsortedCache s ∧ cached s x) l.
Proof using.
  intros Hs. induction keys as [|k keys IH]; intros Hk; [by exists []|].
  destruct (ok_unsorted s Hs k) as [v Hv]; [apply Hk; left|].
  destruct IH as (l & E & Hl & Hf); [intros; apply Hk; by right|]. exists ((k, v) :: l).
  cbn [pairs_of]. rewrite Hv, E. split; [done|]. split; [by rewrite fmap_cons, Hl|].
  constructor; [|done]. split; [apply Hk; left|]. split; [by eapply ok_keys|done].
Qed.

(** What [dirtyItems] promises: the items of the range are all sorted. *)
Definition sorts (start stop : option string) s s' : Prop :=
  ok s' ∧ cache s' = cache s ∧ deleted s' = deleted s ∧ parent s' = parent s ∧
  ∀ k, in_domain (default "" start) stop (k, "") = true → k ∉ unsortedCache s'.

Lemma take_keys_run s keys start stop sortState : ok s → NoDup keys →
  (∀ k, k ∈ keys → k ∈ unsortedCache s) →
  (∀ k, k ∈ unsortedCache s → in_domain (default "" start) stop (k, "") = true → k ∈ keys) →
  ∃ s', (l ← lift (pairs_of (cache s) keys); clearUnsortedCacheSubset l sortState) s = (Ok (), s') ∧
    sorts start stop s s'.
Proof using.
  intros Hs Hnd Hin Hall. destruct (pairs_of_run s keys Hs Hin) as (l & E & <- & Hl).
  rewrite E, lift_bind. destruct (clear_run s l sortState Hs Hnd Hl) as (s' & E' & H1 & H2 & H3 & H4 & H5).
  exists s'. split; [done|]. split_and!; try done. intros k Hk. rewrite H5.
  intros [Hu Hn]%elem_of_difference. apply Hn, elem_of_list_to_set. by apply Hall.
Qed.

(** The keys between two indices. *)
Definition slice (strL : list string) (i j : Z) : list string :=
  take (Z.to_nat (j + 1 - i)) (drop (Z.to_nat i) strL).
Lemma slice_sublist strL i j : sublist (slice strL i j) strL.
Proof using. unfold slice. etrans; [apply sublist_take|apply sublist_drop]. Qed.
Lemma slice_covers (strL : list string) i j n k : strL !! n = Some k → 0 <= i → i <= Z.of_nat n <= j →
  k ∈ slice strL i j.
Proof using.
  intros Hk Hi Hn. apply list_elem_of_lookup. exists (n - Z.to_nat i)%nat. unfold slice.
  rewrite lookup_take_lt by lia. rewrite lookup_drop. rewrite <- Hk. f_equal. lia.
Qed.

Lemma ltb_empty (a : string) : Str.ltb a "" = false.
Proof using. by destruct a. Qed.

(** The keys the two searches delimit cover the range. *)
Lemma searches_cover strL start stop : StronglySorted str_le strL → "" ∉ strL → ∃ i j,
  findStartIndex strL (default "" start) = Ok i ∧ findEndIndex strL (default "" stop) = Ok j ∧
  ∀ k, k ∈ strL → in_domain (default "" start) stop (k, "") = true →
    k ∈ slice strL (if i <? 0 then 0 else i) (if j <? 0 then Z.of_nat (length strL) - 1 else j).
Proof using.
  intros Hsort Hne.
  destruct (findStartIndex_spec strL Hsort (default "" start)) as (i & Ei & Hi & Hib & _).
  destruct (findEndIndex_spec strL Hsort (default "" stop)) as (j & Ej & Hj & Hje & Hjx).
  exists i, j. do 2 (split; [done|]). intros k [n Hn]%list_elem_of_lookup [Hge%negb_true_iff Hlt]%andb_true_iff.
  cbn [fst] in *. apply (slice_covers strL _ _ n k Hn); [destruct (Z.ltb_spec i 0); lia|]. split.
  - destruct (Z.ltb_spec i 0); [lia|]. destruct (Z.le_gt_cases i (Z.of_nat n)) as [?|Hlt']; [done|].
    pose proof (Hib n k Hn Hlt'). unfold Str.lt in *. congruence.
  - pose proof (lookup_lt_Some _ _ _ Hn). destruct stop as [b|]; cbn in *.
    + pose proof (Hje n k Hn Hlt). destruct (Z.ltb_spec j 0); lia.
    + destruct (Z.ltb_spec j 0); [lia|]. destruct (Hjx ltac:(done)) as (x & Hx & Hle).
      destruct Hne. apply str_le_cases in Hle as [<-|Hx0]; [by eapply list_elem_of_lookup_2|].
      unfold Str.lt in Hx0. by rewrite ltb_empty in Hx0.
Qed.

Lemma dirtyItems_run s start stop : ok s → bounded start stop → ∃ s',
  dirtyItems IsKeyInDomain start stop s = (Ok (), s') ∧ sorts start stop s s'.
Proof using Hdomain.
  intros Hs (Hst & Hsp & Hb). unfold dirtyItems.
  destruct (Str.ltb (default "" stop) (default "" start)) eqn:Elt.
  { exists s. split; [done|]. split_and!; try done. intros k. unfold in_domain. cbn [fst].
    destruct start as [a|]; [|by rewrite ltb_empty in Elt]. destruct stop as [b|]; [|naive_solver].
    intros [Ha%negb_true_iff Hkb]%andb_true_iff. cbn in *.
    destruct (Str.lt_irrefl k). eapply Str.lt_trans; [exact Hkb|]. eapply str_lt_le; [exact Elt|exact Ha]. }
  rewrite gets_bind. change (id s) with s. cbv zeta. destruct (_ <? 1024)%nat.
  { apply take_keys_run; [done|apply NoDup_filter, NoDup_elements| |].
    - intros k [_ Hk]%list_elem_of_filter. by apply elem_of_elements.
    - intros k Hk Hd. apply list_elem_of_filter. by rewrite Hdomain, elem_of_elements. }
  set (strL := merge_sort str_le _).
  assert (strL ≡ₚ elements (unsortedCache s)) as HL by apply merge_sort_Permutation.
  assert (StronglySorted str_le strL) as Hsort by apply (StronglySorted_merge_sort str_le).
  assert (∀ k, k ∈ strL → k ∈ unsortedCache s) as Hin by (intros k; by rewrite HL, elem_of_elements).
  assert ("" ∉ strL) as Hne.
  { intros Hk%Hin. destruct (ok_unsorted s Hs _ Hk) as [w Hw]. by destruct (ok_keys s Hs _ _ Hw). }
  destruct (searches_cover strL start stop Hsort Hne) as (i & j & -> & -> & Hcov).
  rewrite !lift_bind. apply take_keys_run; [done| | |].
  - eapply sublist_NoDup; [|apply slice_sublist]. rewrite HL. apply NoDup_elements.
  - intros k Hk%(sublist_subseteq _ _ (slice_sublist _ _ _)). by apply Hin.
  - intros k Hk. apply Hcov. by rewrite HL, elem_of_elements.
Qed.

(** ** Iteration *)

(** In a sorted range the cache items are the dirty entries. *)
Lemma merged_view s start stop k v : ok s →
  (∀ k, in_domain (default "" start) stop (k, "") = true → k ∉ unsortedCache s) →
  in_domain (default "" start) stop (k, "") = true →
  (kv_view (parent s) !! k = Some v ∧ db_view (sortedCache s) !! k = None) ∨
  (db_view (sortedCache s) !! k = Some v ∧ k ∉ deleted s) ↔ view s !! k = Some v.
Proof using.
  intros Hs Hu Hk. specialize (Hu k Hk). rewrite view_lookup, (ok_deleted s Hs).
  destruct (db_view (sortedCache s) !! k) as [u|] eqn:Eu.
  - destruct (ok_sorted s Hs k u Eu) as (w & Hw & Huw). specialize (Huw Hu). rewrite Hw. cbn [value].
    destruct w as [w|]; naive_solver.
  - destruct (cache s !! k) as [[w []]|] eqn:Ec; cbn [value].
    + destruct (ok_dirty s Hs k w Ec) as [?|[? ?]]; [done|congruence].
    + rewrite (ok_clean s Hs k w Ec). naive_solver.
    + naive_solver.
Qed.

Lemma range_keys asc start stop (m : contents) k :
  k ∉ (range asc start stop m).*1 ↔ ¬ (is_Some (m !! k) ∧ in_domain (default "" start) stop (k, "") = true).
Proof using.
  rewrite list_elem_of_fmap. split; intros Hn.
  - intros [[v Hv] Hd]. apply Hn. exists (k, v). split; [done|]. by apply range_elem.
  - intros ([k' v] & -> & [Hv Hd]%range_elem). apply Hn. split; [by exists v|done].
Qed.

(** The iterator has the contents of the range ahead, in order. *)
Definition over asc start stop s (it : iter) : Prop :=
  ahead asc (CacheIter.parent it) ∧ ahead asc (CacheIter.cache it) ∧ fresh (deleted s) it ∧
  merged asc (deleted s) (CacheIter.parent it) (CacheIter.cache it) = range asc start stop (view s).

Lemma iterator_run m s start stop asc : good m s → bounded start stop → ∃ it s',
  iterator IsKeyInDomain start stop asc s = (Ok it, s') ∧ good m s' ∧ view s' = view s ∧
  over asc start stop s' it.
Proof using Hdomain.
  intros [Hs Hm] Hb. unfold iterator.
  destruct (on_parent_run (kv_items asc start stop) s _ _ (kv_range _ asc start stop (ok_parent s Hs) Hb)) as (p & Ep & Hp & Vp).
  rewrite (Mbind_run _ _ _ _ _ Ep). destruct (set_parent_ok p s Hs Hp Vp) as [Hs1 V1].
  destruct (dirtyItems_run (set_parent p s) start stop Hs1 Hb) as (s2 & E2 & Hs2 & Hc2 & Hd2 & Hp2 & Hu2).
  rewrite (Mbind_run _ _ _ _ _ E2), gets_bind. destruct Hb as (Hb1 & Hb2 & _).
  rewrite db_iterator by done. cbn [must]. rewrite lift_bind.
  assert (view s2 = view s) as V2.
  { rewrite <- V1. apply map_eq. intros k. by rewrite !view_lookup, Hc2, Hp2. }
  eexists _, s2. split; [done|]. split; [split; [done|rewrite Hp2; cbn; congruence]|]. split; [done|].
  split_and!; [apply range_ahead..|done|]. cbn [CacheIter.parent CacheIter.cache].
  apply (ahead_ext asc); [apply merged_sorted; apply range_ahead|apply range_ahead|].
  intros [k v]. rewrite merged_elem by apply range_ahead. rewrite range_keys, !range_elem.
  assert (kv_view (parent s2) = kv_view (parent s)) as HV by (rewrite Hp2; exact Vp). rewrite <- HV.
  change (in_domain (default "" start) stop (k, v)) with (in_domain (default "" start) stop (k, "")).
  pose proof (merged_view s2 start stop k v Hs2 Hu2) as Hmv.
  destruct (in_domain (default "" start) stop (k, "")); [|naive_solver].
  rewrite <- (Hmv eq_refl), eq_None_not_Some. naive_solver.
Qed.

(** A loop over the live iterator runs its body on the range as it was, one item
    after the other, when the body touches the deletion of no key ahead. *)
Lemma loop_run asc start stop s it (able : item → Prop) (inv : St → Prop) (body : item → M St ()) :
  over asc start stop s it → inv s → Forall able (range asc start stop (view s)) →
  (∀ x s, able x → inv s → ∃ s', body x s = (Ok (), s') ∧ inv s' ∧
     ∀ y, dlt asc x.1 y → y ∈ deleted s' ↔ y ∈ deleted s) →
  ∃ s' it', each asc deleted body (S (length (range asc start stop (view s)))) (s, it)
              = (Ok (range asc start stop (view s)), (s', it')) ∧
    for_each body (range asc start stop (view s)) s = (Ok (), s') ∧ inv s'.
Proof using. intros (H1 & H2 & H3 & <-) Hi Ha Hb. apply (each_run asc deleted body able inv Hb); [done..|lia]. Qed.

Lemma items_run m s asc start stop : good m s → bounded start stop →
  steps (good m) view (items IsKeyInDomain asc start stop) s (range asc start stop (view s)) (view s).
Proof using Hdomain.
  intros Hs Hb. unfold items. destruct (iterator_run m s start stop asc Hs Hb) as (it & s' & E & Hs' & V & H1 & H2 & H3 & H4).
  exists s'. split; [|done]. rewrite (Mbind_run _ _ _ _ _ E), gets_bind. unfold lift. f_equal.
  destruct (each_run asc id (λ _, mret ()) (λ _, True) (λ _, True) ltac:(intros x D; by exists D)
    (S (length (CacheIter.parent it) + length (CacheIter.cache it))) (deleted s') it) as (D & it' & E' & _); [done|by apply Forall_true|done..| |].
  - pose proof (merged_length asc (deleted s') (CacheIter.parent it) (CacheIter.cache it)). simpl. lia.
  - rewrite E'. cbn. by rewrite H4, V.
Qed.

(** A branch over a parent that stands for [m] is a lawful store. *)
Definition cache_laws (m : contents) : @KVLaws St (cache_kv IsKeyInDomain) :=
  let _ := cache_kv IsKeyInDomain in
  {| kv_ok := good m; kv_view := view;
     kv_get s k := Get_run m s k; kv_has s k := Has_run m s k; kv_set s k v := Set_run m s k v;
     kv_delete s k := Delete_run m s k;
     kv_range s asc start stop := items_run m s asc start stop |}.
End facts.
End CacheKVFacts.
