(* ===== verification/CacheKVProps.v ===== *)
(** * What branches promise

    A branch runs a program as its parent would, keeps the parent untouched
    until [Write], and hands it exactly the result; branches nest; loops may
    delete what they visit; an iterator with a lower bound and no upper one
    misses pending writes. *)

From Stdlib Require Import ZArith Lia Ascii String.
From stdpp Require Import base tactics option list gmap sorting strings.
From S2P Require Import Prelude GoStd Wire Store CacheIter KVStore CacheKV CacheKVFacts.

Module CacheKVProps.
Import Store CacheIter KV CacheKV CacheKVFacts.

(** The documented behaviour of tm-db that the sorted cache relies on. *)
Definition memdb_spec {T} `{DBLaws T} (NewMemDB : T)
    (IsKeyInDomain : string → option string → option string → bool) : Prop :=
  db_view NewMemDB = ∅ ∧
  ∀ k start stop, IsKeyInDomain k start stop = in_domain (default "" start) stop (k, "").

(** ** Branching *)

Section branch.
Context {P : Type} `{HP : KVLaws P} {T : Type} `{HT : DBLaws T}.
Context (NewMemDB : T) (IsKeyInDomain : string → option string → option string → bool).
Context (Hdb : memdb_spec NewMemDB IsKeyInDomain).
Abbreviation St := (CacheStore P T).

Lemma branch_run {A} (c : prog A) p : kv_ok p → sound c →
  let cache_run := @run St A (cache_kv IsKeyInDomain) in
  ∃ s, cache_run c (NewStore NewMemDB p) = ((run c (kv_view p)).1, s) ∧
    good (kv_view p) s ∧ view s = (run c (kv_view p)).2.
Proof using Hdb.
  destruct Hdb as [HNew Hdom]. intros Hp Hc cache_run.
  destruct (NewStore_ok NewMemDB HNew p Hp) as [Hok Hv].
  destruct (@run_refines St A _ (cache_laws IsKeyInDomain Hdom (kv_view p)) c (NewStore NewMemDB p))
    as (s & E & Hs & V); [by split|done|].
  cbn [kv_view cache_laws] in E, V. rewrite Hv in E, V. by exists s.
Qed.
End branch.


Definition demo_domain (k : string) (start stop : option string) : bool :=
  in_domain (default "" start) stop (k, "").
Lemma map_memdb_spec : memdb_spec (∅ : contents) demo_domain.
Proof. by split. Qed.

(** Move the balance under one key to another, in a branch. *)
Definition move_prog : prog nat :=
  DoGet "a" (λ v, match v with
    | None => Done (Err "no a")
    | Some x => DoSet "b" x (DoDelete "a" (DoItems true None (Some "c") (λ l, Done (Ok (length l)))))
    end).
Lemma move_prog_sound : sound move_prog.
Proof. split; [done|]. intros [x|]; [|done]. repeat split; try done. by left. Qed.


(** ** Branches of branches *)

(** Branches nest, as a transaction's branch and the branch of its messages
    do.  After a first program over the outer branch and a second over a branch
    of it, writing both leaves the store with the result of the two programs;
    dropping the inner branch and writing the outer one leaves the result of
    the first alone; before the outer [Write] the store is untouched. *)
Theorem cachekv_nested {P} `{KVLaws P} {T} `{DBLaws T} (NewMemDB : T) IsKeyInDomain {A B}
    (c1 : prog A) (c2 : prog B) (p : P) :
  memdb_spec NewMemDB IsKeyInDomain → kv_ok p → sound c1 → sound c2 →
  let (o1, m1) := run c1 (kv_view p) in
  let (o2, m2) := run c2 m1 in
  let outer := cache_kv (P := P) (T := T) IsKeyInDomain in
  let inner := cache_kv (P := CacheStore P T) (T := T) IsKeyInDomain in
  ∃ s1 s2 s3 p1 p2,
    @run _ _ outer c1 (NewStore NewMemDB p) = (o1, s1) ∧
    @run _ _ inner c2 (NewStore NewMemDB s1) = (o2, s2) ∧
    Write NewMemDB s2 = (Ok (), NewStore NewMemDB s3) ∧ kv_view (parent s3) = kv_view p ∧
    Write NewMemDB s3 = (Ok (), NewStore NewMemDB p2) ∧ kv_ok p2 ∧ kv_view p2 = m2 ∧
    Write NewMemDB (parent s2) = (Ok (), NewStore NewMemDB p1) ∧ kv_ok p1 ∧ kv_view p1 = m1.
Proof.
  intros Hdb Hp Hc1 Hc2. pose proof Hdb as [_ Hdom].
  destruct (branch_run NewMemDB IsKeyInDomain Hdb c1 p Hp Hc1) as (s1 & E1 & Hs1 & V1).
  destruct (run c1 (kv_view p)) as [o1 m1]. cbn [fst snd] in *. subst m1.
  set (outer := cache_kv IsKeyInDomain).
  set (laws := cache_laws (P := P) (T := T) IsKeyInDomain Hdom (kv_view p)).
  destruct (@branch_run _ outer laws T _ _ NewMemDB IsKeyInDomain Hdb _ c2 s1 Hs1 Hc2) as (s2 & E2 & [Hs2 Hp2] & V2).
  change (@kv_view _ outer laws s1) with (view s1) in *.
  destruct (run c2 (view s1)) as [o2 m2]. cbn [fst snd] in *. subst m2. cbv zeta.
  destruct (@Write_run _ outer laws T _ _ NewMemDB s2 Hs2) as (s3 & E3 & [Hs3 Hp3] & V3).
  destruct (Write_run NewMemDB s3 Hs3) as (p2 & E4 & Hq2 & V4).
  pose proof (@ok_parent _ outer laws T _ _ s2 Hs2) as [Hs4 _].
  destruct (Write_run NewMemDB (parent s2) Hs4) as (p1 & E5 & Hq1 & V5).
  exists s1, s2, s3, p1, p2. split_and!; try done; [by rewrite V4|by rewrite V5].
Qed.

Definition count_prog : prog () := DoSet "n" "1" (Done (Ok ())).

Lemma count_prog_sound : sound count_prog.
Proof. by split. Qed.

Lemma cachekv_nested_witness :
  let outer := cache_kv (P := contents) (T := contents) demo_domain in
  let inner := cache_kv (P := CacheStore contents contents) (T := contents) demo_domain in
  ∃ s1 s2 s3 p1 p2,
    @run _ _ outer count_prog (NewStore ∅ {["a" := "7"]}) = (Ok (), s1) ∧
    @run _ _ inner move_prog (NewStore ∅ s1) = (Ok 1%nat, s2) ∧
    Write ∅ s2 = (Ok (), NewStore ∅ s3) ∧ kv_view (parent s3) = {["a" := "7"]} ∧
    Write ∅ s3 = (Ok (), NewStore ∅ p2) ∧ True ∧ kv_view p2 = {["b" := "7"; "n" := "1"]} ∧
    Write ∅ (parent s2) = (Ok (), NewStore ∅ p1) ∧ True ∧ kv_view p1 = {["a" := "7"; "n" := "1"]}.
Proof.
  pose proof (cachekv_nested (P := contents) (∅ : contents) demo_domain count_prog move_prog {["a" := "7"]}
    map_memdb_spec I count_prog_sound move_prog_sound) as Hw.
  assert (run count_prog ({["a" := "7"]} : contents) = (Ok (), {["a" := "7"; "n" := "1"]})) as E1
    by (vm_compute; reflexivity).
  assert (run move_prog ({["a" := "7"; "n" := "1"]} : contents) = (Ok 1%nat, {["b" := "7"; "n" := "1"]})) as E2
    by (vm_compute; reflexivity).
  cbn [kv_view map_laws] in Hw. rewrite E1 in Hw. rewrite E2 in Hw. exact Hw.
Defined.

(** ** Deleting in a loop *)

Section delete.
Context {P : Type} `{HP : KVLaws P} {T : Type} `{HT : DBLaws T}.
Abbreviation St := (CacheStore P T).

Definition delete_if (f : item → bool) (x : item) : M St () := if f x then Delete x.1 else mret ().

Lemma delete_if_run m f x s : x.1 ≠ "" → good m s → ∃ s', delete_if f x s = (Ok (), s') ∧ good m s' ∧
  view s' = (if f x then delete x.1 (view s) else view s) ∧
  ∀ y, y ≠ x.1 → y ∈ deleted s' ↔ y ∈ deleted s.
Proof.
  intros Hx Hs. unfold delete_if. destruct (f x); [|by exists s].
  destruct (Delete_run m s x.1 Hs Hx) as (s' & E & Hs' & V). exists s'. split_and!; try done.
  unfold Delete in E. rewrite AssertValidKey_run, lift_bind in E by done.
  unfold modify in E. injection E as <-. cbn [deleted setCacheValue]. set_solver.
Qed.

Lemma delete_loop m f l s : Forall (λ x, x.1 ≠ "") l → good m s → ∃ s',
  for_each (delete_if f) l s = (Ok (), s') ∧ good m s' ∧
  ∀ k, view s' !! k = if decide (k ∈ (filter (λ x, f x = true) l).*1) then None else view s !! k.
Proof.
  intros Hl. revert s. induction Hl as [|x l Hx Hl IH]; intros s Hs; cbn [for_each]; [by exists s|].
  destruct (delete_if_run m f x s Hx Hs) as (s1 & E1 & Hs1 & V1 & _).
  destruct (IH s1 Hs1) as (s2 & E2 & Hs2 & V2). exists s2.
  rewrite (Mbind_run _ _ _ _ _ E1). split_and!; try done. intros k. rewrite V2, V1, filter_cons.
  destruct (decide (f x = true)) as [Hfx|Hfx]; [rewrite Hfx|by rewrite (not_true_is_false _ Hfx)].
  rewrite fmap_cons. destruct (decide (k ∈ _.*1)) as [Hk|Hk]; [by rewrite decide_True by by right|].
  destruct (decide (k = x.1)) as [->|Hne].
  - by rewrite decide_True, lookup_delete_eq by left.
  - rewrite decide_False by (by intros [->|?]%elem_of_cons). by rewrite lookup_delete_ne.
Qed.
End delete.

(** Deleting while iterating is safe.  A loop over a live iterator of a
    branch, in either direction, that deletes from the same branch the items it
    chooses visits the contents the range had when the iterator was made, in
    order, and leaves the branch without exactly the chosen items; the parent
    is untouched. *)
Theorem cachekv_delete_in_loop {P} `{KVLaws P} {T} `{DBLaws T} (NewMemDB : T) IsKeyInDomain
    (s : CacheStore P T) (asc : bool) start stop (f : item → bool) :
  memdb_spec NewMemDB IsKeyInDomain → ok s → bounded start stop → view s !! "" = None →
  let seen := range asc start stop (view s) in
  ∃ it s1 s2 it2, iterator IsKeyInDomain start stop asc s = (Ok it, s1) ∧
    each asc deleted (delete_if f) (S (length seen)) (s1, it) = (Ok seen, (s2, it2)) ∧
    (∀ k, view s2 !! k = if decide (k ∈ (filter (λ x, f x = true) seen).*1) then None else view s !! k) ∧
    kv_view (parent s2) = kv_view (parent s).
Proof.
  intros [_ Hdom] Hs Hb Hne seen.
  destruct (iterator_run IsKeyInDomain Hdom (kv_view (parent s)) s start stop asc) as (it & s1 & E & Hs1 & V & Ho);
    [by split|done|].
  assert (Forall (λ x : item, x.1 ≠ "") seen) as Hk.
  { apply Forall_forall. intros [k v] [Hv _]%range_elem. cbn. congruence. }
  unfold seen in *. rewrite <- V in *.
  destruct (loop_run asc start stop s1 it (λ x, x.1 ≠ "") (good (kv_view (parent s))) (delete_if f)) as (s2 & it2 & E2 & E3 & Hs2).
  - done.
  - done.
  - done.
  - intros x σ Hx Hσ. destruct (delete_if_run _ f x σ Hx Hσ) as (σ' & E' & Hσ' & _ & HD).
    exists σ'. split_and!; try done. intros y Hy. apply HD. intros ->. by apply dlt_irrefl in Hy.
  - destruct (delete_loop _ f _ s1 Hk Hs1) as (s2' & E3' & [_ Hp2] & V2).
    rewrite E3 in E3'. injection E3' as <-. exists it, s1, s2, it2. split_and!; try done; by apply Hs2.
Qed.

Definition demo_branch : CacheStore contents contents := NewStore ∅ {["a" := "1"; "b" := "2"]}.
Lemma demo_branch_ok : ok demo_branch.
Proof. by apply NewStore_ok. Qed.
Lemma demo_bounded : bounded None None.
Proof. split_and!; try done. by left. Qed.

Lemma cachekv_delete_in_loop_witness :
  ∃ it s1 s2 it2, iterator demo_domain None None false demo_branch = (Ok it, s1) ∧
    each false deleted (delete_if (λ x, String.eqb x.2 "2")) 3 (s1, it) =
      (Ok [("b", "2"); ("a", "1")], (s2, it2)) ∧
    view s2 !! "b" = None ∧ view s2 !! "a" = Some "1".
Proof.
  destruct (cachekv_delete_in_loop (∅ : contents) demo_domain demo_branch false None None
    (λ x, String.eqb x.2 "2") map_memdb_spec demo_branch_ok demo_bounded ltac:(vm_compute; reflexivity))
    as (it & s1 & s2 & it2 & E & El & Hv & _).
  assert (range false None None (view demo_branch) = [("b", "2"); ("a", "1")]) as Er by (vm_compute; reflexivity).
  rewrite Er in El, Hv. exists it, s1, s2, it2. split; [exact E|]. split; [exact El|].
  rewrite !Hv. split; vm_compute; reflexivity.
Defined.

(** ** An iterator without an upper bound *)

Lemma set_branch (m : contents) k v : k ≠ "" →
  Set_ (P := contents) (T := contents) k (Some v) (NewStore ∅ m) =
  (Ok (), mkStore {[k := mkCValue (Some v) true]} ∅ {[k]} ∅ m).
Proof.
  intros Hk. unfold Set_. change (AssertValidValue (Some v)) with (Ok v).
  rewrite AssertValidKey_run, !lift_bind by done. unfold modify, setCacheValue, NewStore.
  cbn [cache deleted unsortedCache sortedCache parent]. f_equal.
  rewrite insert_empty. f_equal; set_solver.
Qed.

Lemma range_empty asc start stop : range asc start stop ∅ = [].
Proof. unfold range, Iterator. rewrite map_to_list_empty. by destruct asc. Qed.

Lemma items_stale (s : CacheStore contents contents) start asc : start ≠ "" → sortedCache s = ∅ →
  items demo_domain asc (Some start) None s = (Ok (range asc (Some start) None (parent s)), s).
Proof.
  intros Hs Hsorted. unfold items, iterator.
  rewrite (Mbind_run _ _ s (mkIter (range asc (Some start) None (parent s)) [] None) s).
  - rewrite gets_bind. unfold lift. f_equal.
    destruct (each_run asc id (λ _, mret ()) (λ _, True) (λ _, True) ltac:(intros x D; by exists D)
      (S (length (range asc (Some start) None (parent s)) + 0)) (deleted s)
      (mkIter (range asc (Some start) None (parent s)) [] None)) as (D & it & E & _);
      cbn [CacheIter.parent CacheIter.cache]; rewrite ?merged_nil_r; try done.
    + by apply Forall_true.
    + apply range_ahead.
    + constructor.
    + lia.
    + cbn [CacheIter.parent CacheIter.cache length] in *. rewrite merged_nil_r in E. by rewrite E.
  - rewrite (Mbind_run _ _ s (range asc (Some start) None (parent s)) s) by by destruct s.
    rewrite (Mbind_run _ _ s () s).
    + rewrite gets_bind, Hsorted. cbn [db_Iterator map_db]. rewrite range_empty. unfold db_guard, is_empty.
      by rewrite bool_decide_false by congruence.
    + unfold dirtyItems. cbn [default from_option id]. destruct start; done.
Qed.

(** C38: pending writes are lost to an iterator that has a lower bound and no
    upper one.  [dirtyItems] compares the lower bound with the empty string that
    stands for the missing upper one and returns at once, so a key just written
    in the branch, which [Get] returns, is not among the items of a range that
    contains it: the iterator yields the parent's items only. *)
Theorem cachekv_unbounded_iterator_stale (m : contents) (start k v : string) (asc : bool) :
  start ≠ "" → k ≠ "" → Str.ltb k start = false → m !! k = None →
  ∃ s, Set_ (P := contents) (T := contents) k (Some v) (NewStore ∅ m) = (Ok (), s) ∧
    (Get k s).1 = Ok (Some v) ∧ view s !! k = Some v ∧
    in_domain start None (k, v) = true ∧
    items demo_domain asc (Some start) None s = (Ok (range asc (Some start) None m), s) ∧
    (k, v) ∉ range asc (Some start) None m.
Proof.
  intros Hs Hk Hge Hm. rewrite set_branch by done. eexists. split; [done|].
  split_and!.
  - unfold Get. rewrite AssertValidKey_run, lift_bind, gets_bind by done. cbn [cache].
    by rewrite lookup_singleton_eq.
  - rewrite view_lookup. cbn [cache]. by rewrite lookup_singleton_eq.
  - unfold in_domain. cbn [fst]. by rewrite Hge.
  - by apply items_stale.
  - rewrite range_elem. naive_solver.
Qed.

Lemma cachekv_unbounded_iterator_stale_witness :
  ∃ s, Set_ (P := contents) (T := contents) "c" (Some "9") (NewStore ∅ {["a" := "1"]}) = (Ok (), s) ∧
    (Get "c" s).1 = Ok (Some "9") ∧ items demo_domain true (Some "b") None s = (Ok [], s).
Proof.
  destruct (cachekv_unbounded_iterator_stale {["a" := "1"]} "b" "c" "9" true
    ltac:(done) ltac:(done) ltac:(vm_compute; reflexivity) ltac:(vm_compute; reflexivity))
    as (s & E & Eg & _ & _ & Ei & _).
  exists s. split; [exact E|]. split; [exact Eg|]. exact Ei.
Defined.

End CacheKVProps.
