(* ===== verification/PrefixKV.v ===== *)
(** * Prefix stores: store/prefix/store.go

    A prefix store is a window on the keys of its parent that begin with a
    prefix.  It is proved to be a lawful store whose contents are those keys,
    stripped, and to leave every other key of the parent alone. *)

From Stdlib Require Import ZArith Lia Ascii String.
From stdpp Require Import base tactics option list gmap sorting strings.
From S2P Require Import Prelude GoStd Wire Store CacheIter KVStore.

Module PrefixKV.
Import Wire Store CacheIter KV.

Record PrefixStore (P : Type) := mkPrefix { parent : P; prefix : string }.
Arguments mkPrefix {P} _ _.
Arguments parent {P} _.
Arguments prefix {P} _.

(** [stripPrefix], [cpIncr]. *)
Definition stripPrefix (key pfx : string) : outcome string :=
  _ ← panic_if ((String.length key <? String.length pfx)%nat ||
                negb (String.eqb (Str.take (String.length pfx) key) pfx)) "should not happen";
  Ok (Str.drop (String.length pfx) key).
Definition cpIncr (bz : string) : option string := PrefixEndBytes bz.

(** ** The iterator, over the items its parent has ahead *)

Record prefixIterator := mkPIter { pi_prefix : string; pi_iter : list item; pi_valid : bool }.

Definition at_prefix (pfx : string) (l : list item) : bool :=
  match l with [] => false | (k, _) :: _ => Str.has_prefix k pfx end.

Definition newPrefixIterator (pfx : string) (p : list item) : prefixIterator :=
  mkPIter pfx p (at_prefix pfx p).

Definition Valid (pi : prefixIterator) : bool :=
  pi_valid pi && match pi_iter pi with [] => false | _ => true end.

(** The item under the parent's iterator, which panics at its end. *)
Definition parent_item (pi : prefixIterator) : outcome item :=
  or_panic (head (pi_iter pi)) "invalid iterator".

Definition Next : M prefixIterator () :=
  pi ← gets id;
  _ ← lift (panic_if (negb (pi_valid pi)) "prefixIterator invalid, cannot call Next()");
  _ ← lift (parent_item pi);
  modify (λ pi, let l := tail (pi_iter pi) in
    mkPIter (pi_prefix pi) l (pi_valid pi && at_prefix (pi_prefix pi) l)).

Definition Key (pi : prefixIterator) : outcome string :=
  _ ← panic_if (negb (pi_valid pi)) "prefixIterator invalid, cannot call Key()";
  x ← parent_item pi;
  stripPrefix x.1 (pi_prefix pi).
Definition Value (pi : prefixIterator) : outcome string :=
  _ ← panic_if (negb (pi_valid pi)) "prefixIterator invalid, cannot call Value()";
  x ← parent_item pi;
  Ok x.2.

(** A caller that walks to the end. *)
Fixpoint drain (fuel : nat) (pi : prefixIterator) : outcome (list item) :=
  match fuel with
  | O => Panic "fuel"
  | S f =>
      if Valid pi then
        k ← Key pi;
        v ← Value pi;
        match Next pi with
        | (Ok _, pi) => l ← drain f pi; Ok ((k, v) :: l)
        | (Err e, _) => Err e
        | (Panic e, _) => Panic e
        end
      else Ok []
  end.

Section store.
Context {P : Type} `{KVStore P}.
Abbreviation St := (PrefixStore P).

Definition on_parent {A} : M P A → M St A := zoom parent (λ p s, mkPrefix p (prefix s)).

Definition key (k : string) (s : St) : string := prefix s +:+ k.

Definition Get (k : string) : M St (option string) :=
  k ← gets (key k); on_parent (kv_Get k).
Definition Has (k : string) : M St bool :=
  k ← gets (key k); on_parent (kv_Has k).
Definition Set_ (k : string) (v : option string) : M St () :=
  _ ← lift (AssertValidKey k);
  v ← lift (AssertValidValue v);
  k ← gets (key k);
  on_parent (kv_Set k (Some v)).
Definition Delete (k : string) : M St () :=
  k ← gets (key k); on_parent (kv_Delete k).

(** [Iterator] and [ReverseIterator]. *)
Definition iterator (asc : bool) (start stop : option string) : M St prefixIterator :=
  pfx ← gets prefix;
  let newstart := pfx +:+ default "" start in
  let newend := match stop with None => cpIncr pfx | Some e => Some (pfx +:+ e) end in
  l ← on_parent (kv_items asc (Some newstart) newend);
  mret (newPrefixIterator pfx l).

Definition items (asc : bool) (start stop : option string) : M St (list item) :=
  pi ← iterator asc start stop;
  lift (drain (S (length (pi_iter pi))) pi).

#[global] Instance prefix_kv : KVStore St := {|
  kv_Get := Get; kv_Has := Has; kv_Set := Set_; kv_Delete := Delete; kv_items := items |}.
End store.

(** ** Strings with a common prefix *)

Lemma ltb_app p a b : Str.ltb (p +:+ a) (p +:+ b) = Str.ltb a b.
Proof. induction p as [|c p IH]; [done|]. by rewrite !Str.app_cons, ltb_cons, Z.eqb_refl. Qed.
Lemma dlt_app asc p a b : dlt asc (p +:+ a) (p +:+ b) ↔ dlt asc a b.
Proof. rewrite !dlt_lt. unfold Str.lt. destruct asc; by rewrite ltb_app. Qed.

Lemma has_prefix_split p k : Str.has_prefix k p = true → k = p +:+ Str.drop (String.length p) k.
Proof. intros [r ->]%Str.has_prefix_spec. by rewrite Str.drop_app. Qed.

(** Keys between two keys of a prefix have it. *)
Lemma between_prefix p a b k :
  Str.ltb k (p +:+ a) = false → Str.ltb k (p +:+ b) = true → Str.has_prefix k p = true.
Proof.
  revert k. induction p as [|c p IH]; intros k Ha Hb; [by destruct k|].
  rewrite Str.app_cons in Ha, Hb.
  destruct k as [|d k]; [done|]. rewrite ltb_cons in Ha, Hb. rewrite prefix_cons.
  destruct (Z.eqb_spec (byte_val d) (byte_val c)); [by apply IH|].
  apply Z.ltb_ge in Ha. apply Z.ltb_lt in Hb. lia.
Qed.
Lemma from_prefix p a k : Str.ltb k (p +:+ a) = false → Str.ltb k p = false.
Proof.
  revert k. induction p as [|c p IH]; intros k Ha; [by destruct k|].
  rewrite Str.app_cons in Ha.
  destruct k as [|d k]; [done|]. rewrite ltb_cons in *. destruct (_ =? _)%Z; [by apply IH|done].
Qed.

(** ** The window *)

Definition sub (pfx : string) (m : contents) : contents :=
  list_to_map ((λ x : item, (Str.drop (String.length pfx) x.1, x.2)) <$>
    filter (λ x, Str.has_prefix x.1 pfx = true) (map_to_list m)).

Lemma sub_lookup pfx m k : sub pfx m !! k = m !! (pfx +:+ k).
Proof.
  apply option_eq. intros v. unfold sub. rewrite <- elem_of_list_to_map.
  - rewrite list_elem_of_fmap. split.
    + intros ([k' v'] & [= -> ->] & [Hp Hm]%list_elem_of_filter). cbn [fst snd] in *.
      rewrite <- has_prefix_split by done. by apply elem_of_map_to_list.
    + intros Hm. exists (pfx +:+ k, v). cbn [fst snd]. rewrite Str.drop_app. split; [done|].
      apply list_elem_of_filter. split; [apply Str.has_prefix_app|by apply elem_of_map_to_list].
  - rewrite <- list_fmap_compose. apply NoDup_fmap_2_strong; [|apply NoDup_filter, NoDup_map_to_list].
    intros [k1 v1] [k2 v2] [H1 M1]%list_elem_of_filter [H2 M2]%list_elem_of_filter. cbn [fst snd compose] in *.
    intros E. apply elem_of_map_to_list in M1, M2.
    pose proof (has_prefix_split _ _ H1). pose proof (has_prefix_split _ _ H2).
    assert (k1 = k2) as <- by congruence. congruence.
Qed.


Lemma sub_insert pfx m k v : sub pfx (<[pfx +:+ k := v]> m) = <[k := v]> (sub pfx m).
Proof.
  apply map_eq. intros k'. rewrite sub_lookup. destruct (decide (k = k')) as [<-|Hne].
  - by rewrite !lookup_insert_eq.
  - rewrite !lookup_insert_ne, sub_lookup; [done..|]. by intros ?%Str.app_inj_l.
Qed.
Lemma sub_delete pfx m k : sub pfx (delete (pfx +:+ k) m) = delete k (sub pfx m).
Proof.
  apply map_eq. intros k'. rewrite sub_lookup. destruct (decide (k = k')) as [<-|Hne].
  - by rewrite !lookup_delete_eq.
  - rewrite !lookup_delete_ne, sub_lookup; [done..|]. by intros ?%Str.app_inj_l.
Qed.

Definition new_end (pfx : string) (stop : option string) : option string :=
  match stop with None => cpIncr pfx | Some e => Some (pfx +:+ e) end.

Lemma in_domain_sub {V} pfx a stop k (v : V) :
  in_domain (pfx +:+ a) (new_end pfx stop) (k, v) = true ↔
  ∃ k', k = pfx +:+ k' ∧ in_domain a stop (k', v) = true.
Proof.
  unfold in_domain. cbn [fst]. split.
  - intros [Ha%negb_true_iff Hb]%andb_true_iff.
    assert (Str.has_prefix k pfx = true) as Hp.
    { destruct stop as [e|]; cbn [new_end] in Hb; [by eapply between_prefix|].
      pose proof (in_domain_prefix pfx (k, v)) as Hd. unfold in_domain in Hd. cbn [fst] in Hd.
      rewrite <- Hd, (from_prefix _ _ _ Ha). exact Hb. }
    apply has_prefix_split in Hp. exists (Str.drop (String.length pfx) k). split; [done|].
    rewrite Hp, ltb_app in Ha. rewrite Ha. destruct stop as [e|]; [|done].
    cbn [new_end] in Hb. rewrite Hp, ltb_app in Hb. by rewrite Hb.
  - intros (k' & -> & [Ha Hb]%andb_true_iff). rewrite ltb_app, Ha. destruct stop as [e|]; cbn [new_end].
    + by rewrite ltb_app.
    + pose proof (in_domain_prefix pfx (pfx +:+ k', v)) as Hd. unfold in_domain in Hd. cbn [fst] in Hd.
      rewrite Str.has_prefix_app in Hd. apply andb_true_iff in Hd as [_ Hd]. exact Hd.
Qed.

Definition strip (pfx : string) (x : item) : item := (Str.drop (String.length pfx) x.1, x.2).

Lemma ahead_strip asc pfx (l : list item) : Forall (λ x, Str.has_prefix x.1 pfx = true) l →
  ahead asc l → ahead asc (strip pfx <$> l).
Proof.
  intros Hp Hl. induction Hl as [|x l Hl IH Hx]; [constructor|]. apply Forall_cons in Hp as [Hp0 Hp].
  rewrite fmap_cons. constructor; [by apply IH|]. rewrite Forall_forall in Hx, Hp. apply Forall_forall.
  intros y (z & -> & Hz)%list_elem_of_fmap. unfold strip. cbn [fst].
  apply (dlt_app asc pfx). rewrite <- !has_prefix_split; [by apply Hx|by apply Hp|done].
Qed.

Lemma range_prefix asc pfx start stop (m : contents) :
  Forall (λ x : item, Str.has_prefix x.1 pfx = true) (range asc (Some (pfx +:+ start)) (new_end pfx stop) m).
Proof.
  apply Forall_forall. intros [k v] [_ (k' & -> & _)%in_domain_sub]%range_elem. apply Str.has_prefix_app.
Qed.

(** The window's range is the parent's, stripped. *)
Lemma range_sub asc pfx start stop (m : contents) :
  range asc start stop (sub pfx m) =
  strip pfx <$> range asc (Some (pfx +:+ default "" start)) (new_end pfx stop) m.
Proof.
  apply (ahead_ext asc); [apply range_ahead|apply ahead_strip; [apply range_prefix|apply range_ahead]|].
  intros [k v]. rewrite range_elem, sub_lookup, list_elem_of_fmap. split.
  - intros [Hm Hd]. exists (pfx +:+ k, v). unfold strip. cbn [fst snd]. rewrite Str.drop_app. split; [done|].
    apply range_elem. split; [done|]. apply in_domain_sub. by exists k.
  - intros ([k' v'] & E & [Hm (k0 & -> & Hd)%in_domain_sub]%range_elem).
    unfold strip in E. cbn [fst snd] in E. rewrite Str.drop_app in E. by injection E as -> ->.
Qed.

Lemma stripPrefix_run k pfx : Str.has_prefix k pfx = true → stripPrefix k pfx = Ok (Str.drop (String.length pfx) k).
Proof.
  intros ->%has_prefix_split. unfold stripPrefix. rewrite Str.take_app, String.eqb_refl, orb_false_r.
  assert (∀ a b, (String.length (a +:+ b) <? String.length a)%nat = false) as ->; [|done].
  intros a b. apply Nat.ltb_ge. induction a; simpl; lia.
Qed.

Lemma at_item pfx k v l : Str.has_prefix k pfx = true → let pi := newPrefixIterator pfx ((k, v) :: l) in
  Valid pi = true ∧ Key pi = Ok (Str.drop (String.length pfx) k) ∧ Value pi = Ok v ∧
  Next pi = (Ok (), newPrefixIterator pfx l).
Proof.
  intros Hk pi. unfold pi, newPrefixIterator, Valid, Key, Value, Next. rewrite gets_bind. unfold id.
  cbn [at_prefix pi_valid pi_iter pi_prefix parent_item head or_panic]. rewrite Hk. cbn [negb panic_if andb].
  split_and!; [done|by rewrite <- stripPrefix_run|done..].
Qed.

Lemma drain_run pfx fuel l : Forall (λ x, Str.has_prefix x.1 pfx = true) l → (length l < fuel)%nat →
  drain fuel (newPrefixIterator pfx l) = Ok (strip pfx <$> l).
Proof.
  intros Hl. revert fuel. induction Hl as [|[k v] l Hk Hl IH]; intros [|f] Hf; try (simpl in Hf; lia); [done|].
  destruct (at_item pfx k v l Hk) as (H1 & H2 & H3 & H4). cbn [drain].
  rewrite H1, (bind_run _ _ _ H2), (bind_run _ _ _ H3), H4, (bind_run _ _ _ (IH f ltac:(simpl in Hf; lia))). done.
Qed.

(** ** The laws *)
Section laws.
Context {P : Type} `{HP : KVLaws P}.
Context (pfx : string) (Hpfx : pfx ≠ "") (Hend : PrefixEndBytes pfx ≠ None) (m : contents).

(** A window on [pfx] over a parent that, outside it, still stands for [m]. *)
Definition good (s : PrefixStore P) : Prop :=
  prefix s = pfx ∧ kv_ok (parent s) ∧
  ∀ k, Str.has_prefix k pfx = false → kv_view (parent s) !! k = m !! k.
Definition view (s : PrefixStore P) : contents := sub (prefix s) (kv_view (parent s)).

Lemma key_nonempty k : pfx +:+ k ≠ "".
Proof using Hpfx. clear Hend. by destruct pfx. Qed.

Lemma window_run {A} (f : M P A) s a v : good s → steps kv_ok kv_view f (parent s) a v →
  (∀ k, Str.has_prefix k pfx = false → v !! k = kv_view (parent s) !! k) →
  steps good view (on_parent f) s a (sub pfx v).
Proof using.
  intros (Hp & Hs & Hm) (p & E & Hok & <-) Hv. exists (mkPrefix p (prefix s)).
  unfold on_parent, zoom. rewrite E. split; [done|]. split.
  - split_and!; try done. intros k Hk. cbn [parent]. by rewrite Hv, Hm.
  - unfold view. cbn [prefix parent]. by rewrite Hp.
Qed.

Lemma outside k : Str.has_prefix k pfx = false → ∀ k', k ≠ pfx +:+ k'.
Proof using. intros Hk k' ->. by rewrite Str.has_prefix_app in Hk. Qed.

Lemma new_bounded start stop : bounded (Some (pfx +:+ default "" start)) (new_end pfx stop).
Proof using Hpfx Hend.
  split_and!; [intros [= E]; by apply key_nonempty in E| |right]; destruct stop as [e|]; cbn [new_end]; try done.
  - intros [= E]. by apply key_nonempty in E.
  - unfold cpIncr. rewrite PrefixEndBytes_end_of. intros E. pose proof (end_of_spec pfx) as Hs. rewrite E in Hs.
    specialize (Hs (pfx +:+ "") (Str.has_prefix_app _ _)). by destruct (pfx +:+ "").
Qed.

(** The window is a lawful store. *)
Definition prefix_laws : KVLaws (PrefixStore P).
Proof using Hpfx Hend HP m.
  refine {| kv_ok := good; kv_view := view |}; cbn [kv_Get kv_Has kv_Set kv_Delete kv_items prefix_kv].
  - intros s k Hs Hk. pose proof Hs as (Hp & Hok & _). unfold Get, view, key, steps. rewrite gets_bind, Hp, sub_lookup.
    apply window_run; [done| |done]. apply kv_get; [done|apply key_nonempty].
  - intros s k Hs Hk. pose proof Hs as (Hp & Hok & _). unfold Has, view, key, steps. rewrite gets_bind, Hp, sub_lookup.
    apply window_run; [done| |done]. apply kv_has; [done|apply key_nonempty].
  - intros s k v Hs Hk. pose proof Hs as (Hp & Hok & _). unfold Set_, view, key, steps.
    change (AssertValidValue (Some v)) with (Ok v).
    rewrite AssertValidKey_run, !lift_bind, gets_bind, Hp by done. rewrite <- sub_insert.
    apply window_run; [done|by apply kv_set, key_nonempty|].
    intros k' Hk'. by rewrite lookup_insert_ne by (intros ?; by eapply outside).
  - intros s k Hs Hk. pose proof Hs as (Hp & Hok & _). unfold Delete, view, key, steps.
    rewrite gets_bind, Hp, <- sub_delete. apply window_run; [done|by apply kv_delete, key_nonempty|].
    intros k' Hk'. by rewrite lookup_delete_ne by (intros ?; by eapply outside).
  - intros s asc start stop Hs _. pose proof Hs as (Hp & Hok & _). unfold items, iterator, view. rewrite Hp.
    destruct (window_run _ s _ _ Hs (kv_range _ asc _ _ Hok (new_bounded start stop)) ltac:(done)) as (s' & E & Hs' & V).
    exists s'. split; [|split; [done|by rewrite <- V]].
    rewrite (Mbind_run _ _ s (newPrefixIterator pfx
      (range asc (Some (pfx +:+ default "" start)) (new_end pfx stop) (kv_view (parent s)))) s').
    + unfold lift. f_equal. rewrite drain_run; [by rewrite range_sub|apply range_prefix|simpl; lia].
    + rewrite gets_bind, Hp. by rewrite (Mbind_run _ _ _ _ _ E).
Defined.
End laws.

(** A prefix store is a window.  A program over it gives the outcome it would
    give over the parent's keys of the prefix, stripped of it; afterwards those
    keys hold exactly what the program left, and every other key of the parent
    is as it was. *)
Theorem prefix_store_window {P} `{KVLaws P} {A} (c : prog A) (pfx : string) (p : P) :
  pfx ≠ "" → PrefixEndBytes pfx ≠ None → kv_ok p → sound c →
  let (o, m) := run c (sub pfx (kv_view p)) in
  ∃ p', run c (mkPrefix p pfx) = (o, mkPrefix p' pfx) ∧ kv_ok p' ∧
    (∀ k, kv_view p' !! (pfx +:+ k) = m !! k) ∧
    (∀ k, Str.has_prefix k pfx = false → kv_view p' !! k = kv_view p !! k).
Proof.
  intros Hpfx Hend Hp Hc.
  destruct (@run_refines _ A _ (prefix_laws pfx Hpfx Hend (kv_view p)) c (mkPrefix p pfx)) as ([p' pfx'] & E & (E' & Hok & Hout) & V);
    [by split_and!|done|].
  cbn [kv_view prefix_laws] in E, V. unfold view in E, V. cbn [prefix parent] in *. subst pfx'.
  destruct (run c (sub pfx (kv_view p))) as [o m]. cbn [fst snd] in *. subst m.
  exists p'. split_and!; try done. intros k. by rewrite sub_lookup.
Qed.

Definition rename_prog : prog nat :=
  DoGet "x" (λ v, match v with
    | None => Done (Err "no x")
    | Some x => DoDelete "x" (DoSet "y" x (DoItems false None None (λ l, Done (Ok (length l)))))
    end).
Lemma rename_prog_sound : sound rename_prog.
Proof. split; [done|]. intros [x|]; [|done]. repeat split; try done. by left. Qed.

Lemma prefix_store_window_witness :
  ∃ p', run rename_prog (mkPrefix ({["1x" := "5"; "2x" := "6"]} : contents) "1") = (Ok 1%nat, mkPrefix p' "1") ∧
    kv_view p' !! "1y" = Some "5" ∧ kv_view p' !! "1x" = None ∧ kv_view p' !! "2x" = Some "6".
Proof.
  pose proof (prefix_store_window rename_prog "1" ({["1x" := "5"; "2x" := "6"]} : contents)
    ltac:(done) ltac:(done) I rename_prog_sound) as Hw.
  assert (run rename_prog (sub "1" (kv_view ({["1x" := "5"; "2x" := "6"]} : contents))) = (Ok 1%nat, {["y" := "5"]})) as E
    by (vm_compute; reflexivity).
  rewrite E in Hw. destruct Hw as (p' & Hr & _ & Hin & Hout). exists p'. split; [exact Hr|].
  split; [exact (Hin "y")|]. split; [exact (Hin "x")|]. exact (Hout "2x" eq_refl).
Defined.

End PrefixKV.
