(* ===== verification/Address.v ===== *)
(** * Account addresses (types/address.go) and RFC 3339 times

    The bech32 decoder [DecodeAndConvert] wraps a library and is a parameter;
    the checks around it are those of types/address.go, with the default
    address verifier.  [time.Time.UTC().Format(time.RFC3339)] is modelled for
    a time given in Unix seconds. *)

From Stdlib Require Import ZArith Lia Ascii String.
From stdpp Require Import base tactics option list strings.
From S2P Require Import Prelude GoStd Digits Wire.

Local Open Scope Z_scope.

Module Address.

Definition MaxAddrLen : Z := 255.

Definition VerifyAddressFormat (bz : string) : outcome () :=
  _ ← fail_if (Wire.slen bz =? 0) "addresses cannot be empty";
  fail_if (MaxAddrLen <? Wire.slen bz) "address max length is 255".

Section bech32.
Context (DecodeAndConvert : string → option (string * string)).

Definition GetFromBech32 (bech32str prefix : string) : outcome string :=
  _ ← fail_if (String.eqb bech32str "") "decoding Bech32 address failed: must provide a non empty address";
  '(hrp, bz) ← or_err (DecodeAndConvert bech32str) "decoding bech32 failed";
  _ ← fail_if (negb (String.eqb hrp prefix)) "invalid Bech32 prefix";
  Ok bz.

Definition AccAddressFromBech32 (accPrefix address : string) : outcome string :=
  _ ← fail_if (String.eqb (Str.trim_space address) "") "empty address string is not allowed";
  bz ← GetFromBech32 address accPrefix;
  _ ← VerifyAddressFormat bz;
  Ok bz.
End bech32.

End Address.

Module Time.

(** The civil date of a number of days since 1970-01-01. *)
Definition civil (days : Z) : Z * Z * Z :=
  let z := days + 719468 in
  let era := z / 146097 in
  let doe := z mod 146097 in
  let yoe := (doe - doe / 1460 + doe / 36524 - doe / 146096) / 365 in
  let doy := doe - (365 * yoe + yoe / 4 - yoe / 100) in
  let mp := (5 * doy + 2) / 153 in
  let d := doy - (153 * mp + 2) / 5 + 1 in
  let m := if mp <? 10 then mp + 3 else mp - 9 in
  (yoe + era * 400 + (if m <=? 2 then 1 else 0), m, d).

Definition two (z : Z) : string := pad0 2 (Big.to_string z).

Definition RFC3339 (unix : Z) : string :=
  let '(y, m, d) := civil (unix / 86400) in
  let s := unix mod 86400 in
  pad0 4 (Big.to_string y) +:+ "-" +:+ two m +:+ "-" +:+ two d +:+ "T" +:+
  two (s / 3600) +:+ ":" +:+ two (s / 60 mod 60) +:+ ":" +:+ two (s mod 60) +:+ "Z".

Example RFC3339_ex :
  RFC3339 0 = "1970-01-01T00:00:00Z" ∧ RFC3339 951827696 = "2000-02-29T12:34:56Z" ∧
  RFC3339 1735689599 = "2024-12-31T23:59:59Z" ∧ RFC3339 (-1) = "1969-12-31T23:59:59Z".
Proof. repeat split; vm_compute; reflexivity. Qed.

End Time.
