(* ===== verification/VestingProps.v ===== *)
(** * Properties of vesting schedules and delegation tracking

    For every account that the code's own validation accepts, of any of the
    four types: the schedule splits the original coins at every time, vests
    more as time passes and all of them at the end; delegations and
    undelegations are tracked exactly. *)

From Stdlib Require Import ZArith Lia Ascii String.
From stdpp Require Import base tactics option list sorting strings.
From S2P Require Import Prelude GoStd Digits SdkInt Decimal Coin CoinFacts CoinProps Vesting VestingFacts.

Local Open Scope Z_scope.

Module VestingProps.
Import Vesting VestingFacts.

(** An account for the witnesses: forty coins in two periods. *)
Definition demo_periods : list Period :=
  [mkPeriod 10 [mkCoin "aeil" 30]; mkPeriod 20 [mkCoin "aeil" 10; mkCoin "stake" 7]].
Definition demo_account : VestingAccount :=
  NewPeriodicVestingAccount [mkCoin "aeil" 40; mkCoin "stake" 7] 100 demo_periods.

Lemma coins_ok_small l : Coins.IsValid l = true → Forall (λ c, Z.abs (Amount c) < 2 ^ 63) l → coins_ok l.
Proof. intros Hv%IsValid_wf Hs. split; [done|by apply in_range_small]. Qed.

Ltac small_coins := 
  apply coins_ok_small; [reflexivity|cbn; repeat (apply Forall_cons_2; [reflexivity|]); apply Forall_nil_2].

Lemma demo_account_ok : account_ok demo_account.
Proof.
  split; [|vm_compute; reflexivity]. split_and!; [split_and!; small_coins|done|done|split; [|done]].
  repeat (constructor; [split; [small_coins|done]|]). constructor.
Qed.

(** C21: at any two times of the chain in order, the vested and the vesting
    coins of a valid account are computed without panicking and add up to the
    original coins; no denomination has a negative part; what is vested at the
    earlier time is vested at the later one, and after the end of the schedule
    all of it is, except for a permanently locked account. *)
Theorem vesting_schedule (v : VestingAccount) (t t' : Z) :
  account_ok v → in_time t → in_time t' → t <= t' →
  ∃ vested vesting vested' vesting',
    GetVestedCoins v t = Ok vested ∧ GetVestingCoins v t = Ok vesting ∧
    GetVestedCoins v t' = Ok vested' ∧ GetVestingCoins v t' = Ok vesting' ∧
    Coins.IsValid vesting = true ∧
    (∀ d, vested.[d] + vesting.[d] = (OriginalVesting (base v)).[d] ∧
       0 <= vested.[d] <= vested'.[d] ∧ 0 <= vesting'.[d] <= vesting.[d]) ∧
    (EndTime (base v) <= t → GetStartTime v < t → (∀ b, v ≠ PermanentLockedAccount b) →
     vested = OriginalVesting (base v)).
Proof.
  intros Hok Ht Ht' Hle. pose proof Hok as [([[Hw _] _] & _) _].
  destruct (vesting_run v t Hok Ht) as (vd & vg & Hvd & Hvg & [Hwg _] & Hs).
  destruct (vesting_run v t' Hok Ht') as (vd' & vg' & Hvd' & Hvg' & [Hwg' _] & Hs').
  pose proof (vested_mono v t t' vd vd' Hok Ht Ht' Hle Hvd Hvd') as Hmono.
  destruct (vested_run v t Hok Ht) as (x & Hx & Hsx & _ & Hr). rewrite Hvd in Hx. injection Hx as <-.
  destruct (vested_run v t' Hok Ht') as (x & Hx & Hsx' & _ & _). rewrite Hvd' in Hx. injection Hx as <-.
  exists vd, vg, vd', vg'. split_and!; try done.
  - by apply IsValid_wf.
  - intros d. rewrite !AmountOf_sum by (done || apply Hw || apply Hwg || apply Hwg').
    specialize (Hs d). specialize (Hs' d). specialize (Hmono d). specialize (Hr d).
    pose proof (wf_sum_nonneg d vg' Hwg'). lia.
  - intros He Hst Hp. destruct v as [b st|b st ps|b|b]; cbn in He, Hst, Hvd |- *.
    + revert Hvd. unfold Continuous_GetVestedCoins. rewrite (proj2 (Z.leb_gt _ _) Hst), (proj2 (Z.leb_le _ _) He). congruence.
    + revert Hvd. unfold Periodic_GetVestedCoins. rewrite (proj2 (Z.leb_gt _ _) Hst), (proj2 (Z.leb_le _ _) He). congruence.
    + revert Hvd. unfold Delayed_GetVestedCoins. rewrite (proj2 (Z.leb_le _ _) He). congruence.
    + by destruct (Hp b).
Qed.

Lemma vesting_schedule_witness : ∃ vested vesting vested' vesting',
  GetVestedCoins demo_account 112 = Ok vested ∧ GetVestingCoins demo_account 112 = Ok vesting ∧
  GetVestedCoins demo_account 130 = Ok vested' ∧ GetVestingCoins demo_account 130 = Ok vesting' ∧
  vested.["aeil"] + vesting.["aeil"] = 40 ∧ vested.["aeil"] <= vested'.["aeil"].
Proof.
  destruct (vesting_schedule demo_account 112 130) as (a & b & c & d & H1 & H2 & H3 & H4 & _ & H & _).
  - exact demo_account_ok.
  - split; [lia|reflexivity].
  - split; [lia|reflexivity].
  - lia.
  - exists a, b, c, d. destruct (H "aeil") as (Ha & Hb & _). split_and!; try assumption; apply Hb.
Defined.

(** C23: tracking a delegation returns exactly when every coin is within the
    balance, and panics otherwise.  Of each denomination it counts as vesting
    what is vesting and not yet delegated, up to the amount, and the rest as
    free; the account stays valid, so the delegated vesting coins never exceed
    the original ones. *)
Theorem TrackDelegation_exact (v : VestingAccount) (t : Z) (balance amount vesting : list Coin) :
  account_ok v → in_time t → Coins.IsValid balance = true → Coins.IsValid amount = true → in_range amount →
  (∀ d, Int.valid ((DelegatedFree (base v)).[d] + amount.[d])) →
  GetVestingCoins v t = Ok vesting →
  ((∀ d, amount.[d] <= balance.[d]) → ∃ v', TrackDelegation t balance amount v = Ok v' ∧ account_ok v' ∧
     ∀ d, let x := Z.min (Z.max (vesting.[d] - (DelegatedVesting (base v)).[d]) 0) amount.[d] in
       (DelegatedVesting (base v')).[d] = (DelegatedVesting (base v)).[d] + x ∧
       (DelegatedFree (base v')).[d] = (DelegatedFree (base v)).[d] + (amount.[d] - x) ∧
       (DelegatedVesting (base v')).[d] <= (OriginalVesting (base v)).[d]) ∧
  ((∃ d, balance.[d] < amount.[d]) →
   TrackDelegation t balance amount v = Panic "delegation attempt with zero coins or insufficient funds").
Proof.
  intros Hok Ht Hb%IsValid_wf Ha%IsValid_wf Hr Hfit Hg.
  destruct (vesting_run v t Hok Ht) as (vd & vg & _ & Hg' & Hvg & _). rewrite Hg in Hg'. injection Hg' as <-.
  pose proof Hok as [(Hbok & _) _]. pose proof Hbok as (Ho & Hf & Hd).
  assert (∀ d, Int.valid (sum_of d (DelegatedFree (base v)) + sum_of d amount)) as Hfit'.
  { intros d. specialize (Hfit d). by rewrite !AmountOf_sum in Hfit by (apply Hf || apply Ha). }
  unfold TrackDelegation. rewrite (bind_run _ _ _ Hg). split.
  - intros Hle. destruct (Base_TrackDelegation_total balance vesting amount Hb Hvg (conj Ha Hr) _ Hbok) as [b' Hb'].
    { intros d. specialize (Hle d). by rewrite !AmountOf_sum in Hle by (apply Hb || apply Ha). }
    { done. }
    rewrite (bind_run _ _ _ Hb'). eexists. split; [reflexivity|].
    destruct (TrackDelegation_Ok v t balance amount (with_base b' v) vesting Hok Ht Hb (conj Ha Hr) Hg) as (Hok' & _ & _ & Hdl).
    { unfold TrackDelegation. by rewrite (bind_run _ _ _ Hg), (bind_run _ _ _ Hb'). }
    split; [done|]. intros d. pose proof Hok' as [((_ & Hf' & Hd') & _) _].
    pose proof (Base_Validate_Ok _ (proj1 (proj1 Hok')) (Validate_base _ Hok') d) as Hle'.
    destruct Hdl as [_ Ho' _ Hv' Hfr']. specialize (Hv' d). specialize (Hfr' d). rewrite Ho' in Hle'. cbv zeta.
    rewrite !AmountOf_sum by (apply Hf' || apply Hd' || apply Ha || apply Hd || apply Hf || apply Ho || apply Hvg). done.
  - intros [d Hlt]. rewrite (Base_TrackDelegation_short balance vesting amount Hb Hvg (conj Ha Hr) _ Hbok Hfit'); [done|].
    exists d. by rewrite !AmountOf_sum in Hlt by (apply Hb || apply Ha).
Qed.

Lemma TrackDelegation_exact_witness : ∃ v',
  TrackDelegation 112 [mkCoin "aeil" 50] [mkCoin "aeil" 25] demo_account = Ok v' ∧
  (DelegatedVesting (base v')).["aeil"] = 10 ∧ (DelegatedFree (base v')).["aeil"] = 15.
Proof.
  pose proof (TrackDelegation_exact demo_account 112 [mkCoin "aeil" 50] [mkCoin "aeil" 25]
    [mkCoin "aeil" 10; mkCoin "stake" 7]) as H.
  assert (∀ d, [mkCoin "aeil" 25].[d] = if String.eqb "aeil" d then 25 else 0) as Ha.
  { intros d. rewrite AmountOf_sum by (repeat constructor). apply single_sum. }
  assert (∀ d, [mkCoin "aeil" 50].[d] = if String.eqb "aeil" d then 50 else 0) as Hb.
  { intros d. rewrite AmountOf_sum by (repeat constructor). apply single_sum. }
  destruct H as [H _].
  - exact demo_account_ok.
  - split; [lia|reflexivity].
  - reflexivity.
  - reflexivity.
  - apply in_range_small. repeat constructor.
  - intros d. change (DelegatedFree (base demo_account)) with (@nil Coin). rewrite Ha, AmountOf_sum by constructor.
    unfold Int.valid. simpl sum_of. destruct (String.eqb "aeil" d); reflexivity.
  - vm_compute. reflexivity.
  - destruct H as (v' & H & _ & Hd).
    + intros d. rewrite Ha, Hb. destruct (String.eqb "aeil" d); lia.
    + exists v'. split; [exact H|]. destruct (Hd "aeil") as (H1 & H2 & _). rewrite H1, H2. split; reflexivity.
Defined.

(** Tracking an undelegation always returns: the free coins are reduced first,
    then the vesting ones, and neither below zero, so that what is delegated in
    all drops by the amount or to zero. *)
Theorem TrackUndelegation_exact (v : VestingAccount) (amount : list Coin) :
  account_ok v → Coins.IsValid amount = true → in_range amount →
  ∃ v', TrackUndelegation amount v = Ok v' ∧ account_ok v' ∧
    ∀ d, (DelegatedFree (base v')).[d] = Z.max ((DelegatedFree (base v)).[d] - amount.[d]) 0 ∧
      (DelegatedFree (base v')).[d] + (DelegatedVesting (base v')).[d] =
      Z.max ((DelegatedFree (base v)).[d] + (DelegatedVesting (base v)).[d] - amount.[d]) 0.
Proof.
  intros Hok Ha%IsValid_wf Hr. pose proof Hok as [(Hbok & _) _]. pose proof Hbok as (Ho & Hf & Hd).
  destruct (Base_TrackUndelegation_total amount (conj Ha Hr) _ Hbok) as [b' Hb'].
  unfold TrackUndelegation. rewrite (bind_run _ _ _ Hb'). eexists. split; [reflexivity|].
  destruct (TrackUndelegation_Ok v amount (with_base b' v) Hok (conj Ha Hr)) as (Hok' & _ & [_ _ _ Hfr Hv]).
  { unfold TrackUndelegation. by rewrite (bind_run _ _ _ Hb'). }
  split; [done|]. intros d. specialize (Hfr d). specialize (Hv d).
  pose proof Hok' as [((_ & Hf' & Hd') & _) _].
  rewrite !AmountOf_sum by (apply Hf' || apply Hd' || apply Ha || apply Hd || apply Hf). rewrite Hfr, Hv.
  destruct (coins_sum_range _ d Hf). destruct (coins_sum_range _ d Hd). pose proof (wf_sum_nonneg d amount Ha). lia.
Qed.

Lemma TrackUndelegation_exact_witness : ∃ v', TrackUndelegation [mkCoin "aeil" 3] demo_account = Ok v' ∧
  (DelegatedFree (base v')).["aeil"] = 0.
Proof.
  destruct (TrackUndelegation_exact demo_account [mkCoin "aeil" 3]) as (v' & H & _ & Hd).
  - exact demo_account_ok.
  - reflexivity.
  - apply in_range_small. repeat constructor.
  - exists v'. split; [exact H|]. destruct (Hd "aeil") as [-> _]. vm_compute. reflexivity.
Defined.

End VestingProps.
