(* ===== verification/VestingBank.v ===== *)
(** * x/auth/vesting on the chain: locked coins, delegations, new accounts

    The message of the vesting module (types/msgs.go, msg_server.go), and the
    theorem that makes locked coins safe: whatever is sent, delegated,
    undelegated, minted or burned, and however time passes, the balance of a
    vesting account covers the coins its schedule locks, so that the
    subtraction of the locked coins in the bank never goes below zero. *)

From Stdlib Require Import ZArith Lia Ascii String.
From stdpp Require Import base tactics option list gmap sorting strings relations.
From S2P Require Import Prelude GoStd Digits SdkInt Decimal Coin CoinFacts CoinProps Vesting VestingFacts VestingProps.
From S2P Require Import Chain Bank BankFacts Keepers BankInst BankRun Delegation BankProps AccountFacts Address.

Local Open Scope Z_scope.

Module VestingBank.
Import VestingFacts Delegation.

(** ** The message *)

Record MsgCreateVestingAccount := mkCreate {
  FromAddress : string; ToAddress : string; m_Amount : list Coin; m_EndTime : Z; Delayed : bool }.

Section handler.
Context (cfg : Config) (addr_String : string → string).
Context (AccAddressFromBech32 : string → outcome string).
Context (SendEnabledDenom : string → bool).

Definition ValidateBasic (msg : MsgCreateVestingAccount) : outcome () :=
  from ← AccAddressFromBech32 (FromAddress msg);
  to ← AccAddressFromBech32 (ToAddress msg);
  _ ← Address.VerifyAddressFormat from;
  _ ← Address.VerifyAddressFormat to;
  _ ← fail_if (negb (Coins.IsValid (m_Amount msg))) "invalid coins";
  _ ← fail_if (negb (Coins.IsAllPositive (m_Amount msg))) "invalid coins";
  fail_if (m_EndTime msg <=? 0) "invalid end time".

Definition GetSigners (msg : MsgCreateVestingAccount) : outcome (list string) :=
  from ← must (AccAddressFromBech32 (FromAddress msg)); Ok [from].

(** The prototype account of the application is a base account, so the check
    of its type passes. *)
Definition CreateVestingAccount (msg : MsgCreateVestingAccount) : M Chain () :=
  _ ← lift (IsSendEnabledCoins SendEnabledDenom (m_Amount msg));
  from ← lift (AccAddressFromBech32 (FromAddress msg));
  to ← lift (AccAddressFromBech32 (ToAddress msg));
  _ ← lift (fail_if (BlockedAddr cfg to) "not allowed to receive funds");
  acc ← GetAccount to;
  _ ← lift (fail_if (bool_decide (is_Some acc)) "account already exists");
  baseAccount ← NewAccountWithAddress to;
  baseVestingAccount ← lift (Vesting.NewBaseVestingAccount (Coins.Sort (m_Amount msg)) (m_EndTime msg));
  time ← gets blockTime;
  let vacc := if Delayed msg then Vesting.NewDelayedVestingAccountRaw baseVestingAccount
              else Vesting.NewContinuousVestingAccountRaw baseVestingAccount time in
  _ ← SetAccount (set_vesting vacc baseAccount);
  _ ← SendCoins addr_String from to (m_Amount msg);
  EmitEvent (mkEvent "message" [("module", AStr "vesting")]).

(** ** Spending *)

Lemma sub_one_keeps l addr c s u s' : wf l → chain_ok s → coin_ok c → sub_one l addr c s = (Ok u, s') →
  sum_of (Denom c) l + Amount c <= bal s addr (Denom c).
Proof.
  intros Hl Hok [Hre Hpos] H. unfold sub_one in H. destruct c as [d am]. cbn [Denom Amount] in *.
  apply Mbind_Ok in H as (b & s1 & [-> ->]%GetBalance_Ok & H).
  apply Mbind_Ok in H as (la & s2 & [Hla ->]%lift_Ok & H). apply AmountOf_Ok in Hla as ->; [|done].
  apply Mbind_Ok in H as (lc & s2 & [[-> _]%NewCoin_Ok ->]%lift_Ok & H).
  apply Mbind_Ok in H as (sp & s2 & [(_ & -> & Hge & _)%SubCoin_Ok ->]%lift_Ok & H). cbn [Denom Amount] in *.
  apply Mbind_Ok in H as ([diff neg] & s2 & [Hs ->]%lift_Ok & H).
  apply Mbind_Ok in H as (v & s2 & [Hn%fail_if_Ok ->]%lift_Ok & _). cbn [snd] in Hn. subst neg.
  unfold Coins.SafeSub in Hs. apply bind_Ok in Hs as (r & Hr & [= <- Hneg]).
  apply safeAdd_spec in Hr as (Hsum & _); [|repeat constructor..].
  apply IsAnyNegative_false in Hneg. pose proof (sum_of_nonneg d r Hneg) as H0.
  rewrite Hsum, negative_sum, !single_sum, String.eqb_refl in H0. lia.
Qed.

(** The loop of [subUnlockedCoins] leaves the locked coins. *)
Lemma sub_loop_keeps l addr amt : wf l → ∀ s u s', wf amt → chain_ok s →
  (∀ d, sum_of d l <= bal s addr d) → for_each (sub_one l addr) amt s = (Ok u, s') →
  ∀ d, sum_of d l + sum_of d amt <= bal s addr d.
Proof.
  intros Hl. induction amt as [|c amt IH]; intros s u s' Hw Hok Hle H d.
  { simpl. specialize (Hle d). lia. }
  apply wf_cons in Hw as (Hc & Hlt & Hw). cbn [for_each] in H. apply Mbind_Ok in H as (v & s1 & H1 & H).
  pose proof (sub_one_keeps l addr c s v s1 Hl Hok Hc H1) as Hk.
  destruct (sub_one_moves l addr c s v s1) as [Hok1 [Hb _ _]]; [destruct Hc; lia|done|done|].
  assert (∀ d', bal s1 addr d' = bal s addr d' - sum_of d' [c]) as Hb'.
  { intros d'. rewrite Hb. unfold at_addr. rewrite String.eqb_refl. lia. }
  destruct c as [dn am]. cbn [Denom Amount] in *.
  assert (∀ d', sum_of d' l <= bal s1 addr d') as Hle1.
  { intros d'. rewrite Hb', single_sum. destruct (String.eqb_spec dn d') as [<-|]; [lia|].
    specialize (Hle d'). lia. }
  pose proof (IH s1 u s' Hw Hok1 Hle1 H d) as Hd. rewrite Hb' in Hd. rewrite sum_of_cons. lia.
Qed.

(** What the bank reads of a vesting account and the coins it locks. *)
Definition vesting_at (s : Chain) (addr : string) (v : Vesting.VestingAccount) : Prop :=
  ∃ acc, accounts s !! addr = Some acc ∧ acc_vesting acc = Some v.

Lemma LockedCoins_vesting s addr v : vesting_at s addr v →
  LockedCoins addr s = (Vesting.LockedCoins v (blockTime s), s).
Proof. intros (acc & Ha & Hv). unfold LockedCoins. by rewrite Ha, Hv. Qed.

(** The account at [addr] is a valid vesting account whose balance covers the
    coins it locks. *)
Definition covered (addr : string) (s : Chain) : Prop :=
  ∃ v l, vesting_at s addr v ∧ account_ok v ∧ in_time (blockTime s) ∧
    Vesting.LockedCoins v (blockTime s) = Ok l ∧ ∀ d, sum_of d l <= bal s addr d.

Lemma locked_ok v t l : account_ok v → in_time t → Vesting.LockedCoins v t = Ok l → coins_ok l.
Proof.
  intros Hok Ht H. destruct (vesting_run v t Hok Ht) as (vd & vg & _ & Hg & Hvg & _).
  destruct (locked_run v t vg Hok Ht Hg Hvg) as (r & Hr & Hrok & _). rewrite H in Hr. by injection Hr as ->.
Qed.

(** The coins an account locks, denomination by denomination. *)
Lemma locked_amounts v t : account_ok v → in_time t → ∃ vg l,
  Vesting.GetVestingCoins v t = Ok vg ∧ coins_ok vg ∧ Vesting.LockedCoins v t = Ok l ∧
  ∀ d, sum_of d l = lock (sum_of d vg) (sum_of d (Vesting.DelegatedVesting (Vesting.base v))).
Proof.
  intros Hok Ht. destruct (vesting_run v t Hok Ht) as (vd & vg & _ & Hg & Hvg & _).
  destruct (locked_run v t vg Hok Ht Hg Hvg) as (r & Hr & Hrok & Hs). by exists vg, r.
Qed.

Lemma locked_le_original v t l : account_ok v → in_time t → Vesting.LockedCoins v t = Ok l →
  ∀ d, sum_of d l <= sum_of d (Vesting.OriginalVesting (Vesting.base v)).
Proof.
  intros Hok Ht Hl d. destruct (locked_amounts v t Hok Ht) as (vg & l' & Hvg & _ & Hl' & Hs).
  rewrite Hl in Hl'. injection Hl' as <-. destruct (vesting_run v t Hok Ht) as (vd & vg' & Hvd & Hvg' & _ & Hsv).
  rewrite Hvg in Hvg'. injection Hvg' as <-. destruct (vested_run v t Hok Ht) as (vd' & Hvd' & _ & _ & Hr).
  rewrite Hvd in Hvd'. injection Hvd' as <-. specialize (Hr d). specialize (Hsv d). rewrite Hs. unfold lock.
  destruct Hok as [[(_ & _ & Hdv) _] _]. destruct (coins_sum_range _ d Hdv). lia.
Qed.

Lemma covered_same addr s s' : acc_same s s' → (∀ d, bal s addr d <= bal s' addr d) →
  covered addr s → covered addr s'.
Proof.
  intros [Ho _ _ Ht] Hb (v & l & (acc & Ha & Hv) & Hok & Hti & Hl & Hle). exists v, l. rewrite Ht. split_and!; try done.
  - exists acc. split; [by eapply lookup_weaken|done].
  - intros d. specialize (Hle d). specialize (Hb d). lia.
Qed.

Lemma covered_sub addr a amt s u s' : chain_ok s → covered addr s →
  subUnlockedCoins addr_String a amt s = (Ok u, s') → covered addr s'.
Proof.
  intros Hok Hcov H. destruct (subUnlockedCoins_Ok _ _ _ _ _ _ Hok H) as (Hw & _ & [Hb _ _]).
  pose proof (steps_subUnlockedCoins addr_String a amt s u s' H) as Hsame.
  destruct (String.eqb_spec addr a) as [<-|Hne].
  2:{ eapply covered_same; [exact Hsame| |done]. intros d. rewrite Hb. unfold at_addr.
      rewrite (proj2 (String.eqb_neq addr a) Hne). lia. }
  destruct Hcov as (v & l & Hat & Hvok & Hti & Hl & Hle). pose proof Hsame as [Ho _ _ Ht].
  destruct (locked_ok v _ l Hvok Hti Hl) as [Hwl _].
  unfold subUnlockedCoins in H. apply Mbind_Ok in H as (x & s1 & [_ ->]%lift_Ok & H).
  rewrite (Mbind_run _ _ _ l s) in H by (rewrite (LockedCoins_vesting s addr v Hat); by rewrite Hl).
  apply Mbind_Ok in H as (x' & s2 & Hloop & _).
  pose proof (sub_loop_keeps l addr amt Hwl s x' s2 Hw Hok Hle Hloop) as Hk.
  exists v, l. rewrite Ht. split_and!; try done.
  - destruct Hat as (acc & Ha & Hv). exists acc. split; [by eapply lookup_weaken|done].
  - intros d. specialize (Hk d). rewrite Hb. unfold at_addr. rewrite String.eqb_refl. lia.
Qed.

Lemma covered_add addr a amt s u s' : chain_ok s → covered addr s →
  addCoins addr_String a amt s = (Ok u, s') → covered addr s'.
Proof.
  intros Hok Hcov H. destruct (addCoins_Ok _ _ _ _ _ _ Hok H) as (Hw & _ & [Hb _ _]).
  eapply covered_same; [by eapply steps_addCoins| |done]. intros d. rewrite Hb. unfold at_addr.
  pose proof (wf_sum_nonneg d amt Hw). case_match; lia.
Qed.

Lemma covered_bal addr s s' : acc_same s s' → balances s' = balances s → covered addr s → covered addr s'.
Proof. intros Hs Hb. apply covered_same; [done|]. intros d. unfold bal. by rewrite Hb. Qed.

(** ** Every operation keeps the account covered *)

Lemma covered_send addr from to amt s u s' : chain_ok s → covered addr s →
  SendCoins addr_String from to amt s = (Ok u, s') → covered addr s'.
Proof.
  intros Hok Hcov H. unfold SendCoins in H.
  apply Mbind_Ok in H as (u1 & s1 & H1 & H). apply Mbind_Ok in H as (u2 & s2 & H2 & H).
  apply Mbind_Ok in H as (u3 & s3 & H3 & H).
  pose proof (covered_sub _ _ _ _ _ _ Hok Hcov H1) as C1.
  destruct (subUnlockedCoins_Ok _ _ _ _ _ _ Hok H1) as (_ & Hok1 & _).
  pose proof (covered_add _ _ _ _ _ _ Hok1 C1 H2) as C2.
  destruct (addCoins_Ok _ _ _ _ _ _ Hok1 H2) as (_ & Hok2 & _).
  destruct (touch_account_Ok _ _ _ _ Hok2 H3) as (_ & Hb & _).
  apply (covered_bal addr s2); [|by apply modify_Ok in H as ->|done].
  transitivity s3; [by eapply steps_touch_account|by eapply steps_emit].
Qed.

(** The prologue that fetches a module account. *)
Lemma covered_module {A} addr m (k : Account → M Chain A) s a s' : chain_ok s → covered addr s →
  (r ← GetModuleAccount cfg m; acc ← lift (or_panic r "module account does not exist"); k acc) s = (Ok a, s') →
  ∃ acc s1, chain_ok s1 ∧ covered addr s1 ∧ k acc s1 = (Ok a, s').
Proof.
  intros Hok Hcov H. apply Mbind_Ok in H as (r & s1 & Hr & H).
  apply Mbind_Ok in H as (acc & s2 & [Ho%or_panic_Ok ->]%lift_Ok & H). subst r.
  destruct (GetModuleAccount_Ok _ _ _ _ _ Hok Hr) as (Hok1 & [Hb _] & _).
  exists acc, s1. split_and!; [done| |done].
  apply (covered_bal addr s); [by eapply steps_GetModuleAccount|done|done].
Qed.

Lemma covered_mint addr m amt s u s' : chain_ok s → covered addr s →
  MintCoins cfg addr_String m amt s = (Ok u, s') → covered addr s'.
Proof.
  intros Hok Hcov H. destruct (MintCoins_Ok _ _ _ _ _ _ _ Hok H) as (ma & _ & Hw & _ & [Hb _ _]).
  eapply covered_same; [by eapply steps_MintCoins| |done]. intros d. rewrite Hb. unfold at_addr.
  pose proof (wf_sum_nonneg d amt Hw). case_match; lia.
Qed.

(** The supply loop of a burn touches no account and no balance. *)
Lemma burn_loop_frame l : ∀ s u s', for_each burn_one l s = (Ok u, s') → acc_same s s' ∧ balances s' = balances s.
Proof.
  induction l as [|c l IH]; intros s u s' H; cbn [for_each] in H; [by apply mret_Ok in H as [_ ->]|].
  apply Mbind_Ok in H as (v & s1 & H1 & H). destruct (IH _ _ _ H) as [Ha Hb].
  unfold burn_one, GetSupply, setSupply in H1. inv_ok. split; [|done].
  etransitivity; [|exact Ha]. by apply acc_same_eq.
Qed.

Lemma covered_burn addr m amt s u s' : chain_ok s → covered addr s →
  BurnCoins cfg addr_String m amt s = (Ok u, s') → covered addr s'.
Proof.
  intros Hok Hcov H. apply (covered_module addr) in H as (acc & s1 & Hok1 & C1 & H); [|done|done].
  apply Mbind_Ok in H as (v & s2 & [_ ->]%lift_Ok & H).
  apply Mbind_Ok in H as (v1 & s3 & H1 & H). apply Mbind_Ok in H as (v2 & s4 & H2 & H).
  pose proof (covered_sub _ _ _ _ _ _ Hok1 C1 H1) as C3. destruct (burn_loop_frame _ _ _ _ H2) as [Ha Hb].
  apply (covered_bal addr s3); [|by apply modify_Ok in H as ->|done].
  transitivity s4; [done|by eapply steps_emit1].
Qed.

(** A delegation takes as much from the lock as from the balance, until
    nothing is locked. *)
Lemma lock_delegate V DV D B : 0 <= D <= B → lock V DV <= B →
  lock V (DV + from_vesting V DV D) <= B - D.
Proof. unfold from_vesting, lock. lia. Qed.

(** An undelegation locks no more than it returns. *)
Lemma lock_undelegate V DF DV D B : 0 <= DF → 0 <= DV → 0 <= D → lock V DV <= B →
  lock V (DV - Z.min DV (D - Z.min DF D)) <= B + D.
Proof. unfold lock. lia. Qed.

(** Tracking on another account. *)
Lemma covered_track_other addr a f s u s' : chain_ok s → addr ≠ a → covered addr s →
  track f a s = (Ok u, s') → covered addr s'.
Proof.
  intros Hok Hne (v & l & (acc & Ha & Hv) & Hvok & Hti & Hl & Hle) H.
  destruct (track_Ok f a s u s' Hok H) as (_ & [Hb _] & Ht & Hoth & _).
  exists v, l. rewrite Ht. split_and!; try done.
  - exists acc. by rewrite Hoth.
  - intros d. unfold bal. rewrite Hb. apply Hle.
Qed.

Lemma in_range_bal l s a : wf l → chain_ok s → (∀ d, sum_of d l <= bal s a d) → in_range l.
Proof.
  intros Hw Hok Hle. apply Forall_forall. intros c Hc. specialize (Hle (Denom c)).
  rewrite (sum_of_elem c l) in Hle by (done || apply Hw). destruct (bal_range s a (Denom c) Hok) as [_ Hv].
  destruct Hw as [_ Hw]. rewrite Forall_forall in Hw. destruct (Hw c Hc) as [_ ?].
  unfold Int.valid in *. lia.
Qed.

(** An account whose tracked delegations changed: the lock follows from the
    new amount of delegated vesting coins. *)
Lemma covered_tracked addr s s' v v' acc : vesting_at s addr v → account_ok v → in_time (blockTime s) →
  account_ok v' → v' = Vesting.with_base (Vesting.base v') v →
  Vesting.OriginalVesting (Vesting.base v') = Vesting.OriginalVesting (Vesting.base v) →
  Vesting.EndTime (Vesting.base v') = Vesting.EndTime (Vesting.base v) →
  accounts s' !! addr = Some (set_vesting v' acc) → blockTime s' = blockTime s →
  (∀ vg, Vesting.GetVestingCoins v (blockTime s) = Ok vg → coins_ok vg → ∀ d,
     lock (sum_of d vg) (sum_of d (Vesting.DelegatedVesting (Vesting.base v'))) <= bal s' addr d) →
  covered addr s'.
Proof.
  intros Hat Hvok Hti Hvok' Hwb Ho He Hacc Ht Hle.
  destruct (locked_amounts v (blockTime s) Hvok Hti) as (vg & _ & Hvg & Hcg & _).
  destruct (locked_amounts v' (blockTime s) Hvok' Hti) as (vg' & l' & Hvg' & _ & Hl' & Hs').
  assert (vg' = vg) as ->.
  { rewrite Hwb, with_base_vesting in Hvg' by done. congruence. }
  exists v', l'. rewrite Ht. split_and!; try done.
  - eexists. split; [exact Hacc|done].
  - intros d. rewrite Hs'. by apply Hle.
Qed.

Lemma delegate_loop_same addr l : ∀ found s r s', delegate_loop addr found l s = (Ok r, s') → acc_same s s'.
Proof.
  induction l as [|c l IH]; intros found s r s' H; cbn [delegate_loop] in H; [by apply mret_Ok in H as [_ ->]|].
  inv_ok. match goal with H : GetBalance _ _ _ = _ |- _ => apply GetBalance_Ok in H as [-> ->] end.
  etransitivity; [by eapply steps_setBalance|by eapply IH].
Qed.

Lemma covered_delegate addr del m amt s u s' : chain_ok s → covered addr s →
  DelegateCoins addr_String del m amt s = (Ok u, s') → covered addr s'.
Proof.
  intros Hok Hcov H. destruct (DelegateCoins_stages _ _ _ _ _ _ _ Hok H) as (found & s1 & s2 & Hw & Hl & Ht & Ha).
  destruct (delegate_loop_Ok del amt [] s found s1 Hw Hok coins_ok_nil Hl)
    as (Hok1 & [Hb1 _ _] & [Hwf _] & (Hacc & Htime & _) & Hle).
  unfold trackDelegation in Ht. apply Mbind_Ok in Ht as (t & s0 & [-> ->]%gets_Ok & Ht).
  destruct (track_Ok _ _ _ _ _ Hok1 Ht) as (Hok2 & [Hb2 _] & Htime2 & _ & acc & Hacc1 & Hm).
  eapply covered_add; [|..|exact Ha]; [by apply chain_ok_events|].
  apply (covered_bal addr s2); [by apply acc_same_eq|done|].
  destruct (String.eqb_spec addr del) as [->|Hne].
  2:{ eapply covered_track_other; [exact Hok1|exact Hne| |exact Ht].
      eapply covered_same; [by eapply delegate_loop_same| |done]. intros d. rewrite Hb1. unfold at_addr.
      rewrite (proj2 (String.eqb_neq addr del) Hne). lia. }
  destruct Hcov as (v & l & Hat & Hvok & Hti & Hlk & Hcl). pose proof Hat as (acc' & Ha' & Hv').
  rewrite Hacc, Ha' in Hacc1. injection Hacc1 as <-. rewrite Hv' in Hm. destruct Hm as (v' & Htr & Hs2).
  rewrite Htime in Htr. destruct (locked_amounts v (blockTime s) Hvok Hti) as (vg & l0 & Hvg & Hcg & Hl0 & Hsum).
  rewrite Hlk in Hl0. injection Hl0 as <-.
  assert (coins_ok amt) as Hamt by (split; [done|exact (in_range_bal amt s del Hw Hok Hle)]).
  destruct (TrackDelegation_Ok v _ found amt v' vg Hvok Hti Hwf Hamt Hvg Htr) as (Hvok' & Hwb & _ & Hd).
  eapply covered_tracked; [exact Hat|done|done|done|done|apply Hd|apply Hd|exact Hs2|congruence|].
  intros vg' Hvg' _ d. rewrite Hvg in Hvg'. injection Hvg' as <-. rewrite (dl_vesting _ _ _ _ Hd).
  unfold bal. rewrite Hb2. change (default 0 (balances s1 !! (del, d))) with (bal s1 del d).
  rewrite Hb1. unfold at_addr. rewrite String.eqb_refl. specialize (Hle d). specialize (Hcl d). rewrite Hsum in Hcl.
  pose proof (wf_sum_nonneg d amt Hw). pose proof (lock_delegate (sum_of d vg) _ (sum_of d amt) _ ltac:(done) Hcl). lia.
Qed.

Lemma covered_undelegate addr m del amt s u s' : chain_ok s → covered addr s →
  UndelegateCoins addr_String m del amt s = (Ok u, s') → covered addr s'.
Proof.
  intros Hok Hcov H. destruct (UndelegateCoins_stages _ _ _ _ _ _ _ H) as (s1 & s2 & H1 & H2 & H3).
  pose proof (covered_sub _ _ _ _ _ _ Hok Hcov H1) as C1.
  destruct (subUnlockedCoins_Ok _ _ _ _ _ _ Hok H1) as (Hw & Hok1 & [Hb1 _ _]).
  assert (coins_ok amt) as Hamt.
  { split; [done|]. apply (in_range_bal amt s m Hw Hok). intros d. pose proof (bal_range s1 m d Hok1) as [H0 _].
    rewrite Hb1 in H0. unfold at_addr in H0. rewrite String.eqb_refl in H0. lia. }
  unfold trackUndelegation in H2. destruct (track_Ok _ _ _ _ _ Hok1 H2) as (Hok2 & [Hb2 _] & Htime2 & _ & acc & Hacc1 & Hm).
  destruct (String.eqb_spec addr del) as [->|Hne].
  2:{ eapply covered_add; [exact Hok2| |exact H3]. exact (covered_track_other addr del _ s1 _ s2 Hok1 Hne C1 H2). }
  destruct C1 as (v & l & Hat & Hvok & Hti & Hlk & Hcl). pose proof Hat as (acc' & Ha' & Hv').
  rewrite Ha' in Hacc1. injection Hacc1 as <-. rewrite Hv' in Hm. destruct Hm as (v' & Htr & Hs2).
  destruct (locked_amounts v (blockTime s1) Hvok Hti) as (vg & l0 & Hvg & Hcg & Hl0 & Hsum).
  rewrite Hlk in Hl0. injection Hl0 as <-.
  destruct (TrackUndelegation_Ok v amt v' Hvok Hamt Htr) as (Hvok' & Hwb & Hd).
  pose proof (steps_addCoins _ _ _ _ _ _ H3) as [Ho3 _ _ Ht3].
  destruct (addCoins_Ok _ _ _ _ _ _ Hok2 H3) as (_ & _ & [Hb3 _ _]).
  eapply covered_tracked; [exact Hat|done|done|done|done|apply Hd|apply Hd|by eapply lookup_weaken|congruence|].
  intros vg' Hvg' _ d. rewrite Hvg in Hvg'. injection Hvg' as <-. rewrite (ul_vesting _ _ _ Hd), Hb3.
  unfold at_addr. rewrite String.eqb_refl. unfold bal. rewrite Hb2.
  change (default 0 (balances s1 !! (del, d))) with (bal s1 del d).
  destruct Hvok as [[(_ & Hfr & Hvs) _] _]. destruct (coins_sum_range _ d Hfr). destruct (coins_sum_range _ d Hvs).
  pose proof (wf_sum_nonneg d amt Hw). specialize (Hcl d). rewrite Hsum in Hcl.
  rewrite Z.mul_1_l. by apply lock_undelegate.
Qed.

(** Time only unlocks. *)
Lemma covered_later addr s s' : accounts s' = accounts s → balances s' = balances s →
  blockTime s <= blockTime s' < 2 ^ 63 → covered addr s → covered addr s'.
Proof.
  intros Ha Hb Ht (v & l & (acc & Hacc & Hv) & Hvok & Hti & Hlk & Hcl).
  assert (in_time (blockTime s')) as Hti' by (unfold in_time in *; lia).
  destruct (vesting_run v _ Hvok Hti) as (vd & vg & Hvd & Hvg & Hcg & Hs).
  destruct (vesting_run v _ Hvok Hti') as (vd' & vg' & Hvd' & Hvg' & Hcg' & Hs').
  destruct (locked_run v _ vg Hvok Hti Hvg Hcg) as (l0 & Hl0 & _ & Hsum).
  destruct (locked_run v _ vg' Hvok Hti' Hvg' Hcg') as (l' & Hl' & _ & Hsum').
  rewrite Hlk in Hl0. injection Hl0 as <-.
  pose proof (vested_mono v _ _ vd vd' Hvok Hti Hti' ltac:(lia) Hvd Hvd') as Hmono.
  exists v, l'. split_and!; try done.
  - exists acc. by rewrite Ha.
  - intros d. unfold bal. rewrite Hb. change (default 0 (balances s !! (addr, d))) with (bal s addr d).
    specialize (Hcl d). specialize (Hmono d). rewrite Hsum', Hs'. rewrite Hsum, Hs in Hcl. unfold lock in *. lia.
Qed.

(** A step of the chain as a vesting account sees it: a successful call of a
    bank operation by anyone, or the next block. *)
Inductive vesting_step : Chain → Chain → Prop :=
  | step_bank s s' : bank_step cfg addr_String s s' → vesting_step s s'
  | step_block s s' : accounts s' = accounts s → balances s' = balances s → supply s' = supply s →
      blockTime s <= blockTime s' < 2 ^ 63 → vesting_step s s'.

Lemma covered_bank addr s s' : bank_step cfg addr_String s s' → chain_ok s → covered addr s → covered addr s'.
Proof.
  intros Hstep Hok Hcov.
  destruct Hstep as [from to amt s u s' H|m to amt s u s' H|from m amt s u s' H
    |m m' amt s u s' H|m amt s u s' H|m amt s u s' H|del m amt s u s' H|m del amt s u s' H].
  - by eapply covered_send.
  - apply ToAccount_Ok in H as (ma & _ & _ & H); [|done]. by eapply covered_send.
  - apply (covered_module addr) in H as (acc & s1 & Hok1 & C1 & H); [|done..]. exact (covered_send addr _ _ _ _ _ _ Hok1 C1 H).
  - unfold SendCoinsFromModuleToModule in H. apply Mbind_Ok in H as (ma & s1 & [_ ->]%lift_Ok & H).
    apply (covered_module addr) in H as (acc & s2 & Hok1 & C1 & H); [|done..]. exact (covered_send addr _ _ _ _ _ _ Hok1 C1 H).
  - by eapply covered_mint.
  - by eapply covered_burn.
  - by eapply covered_delegate.
  - by eapply covered_undelegate.
Qed.

Lemma vesting_step_inv addr s s' : vesting_step s s' → chain_ok s → covered addr s →
  chain_ok s' ∧ covered addr s'.
Proof.
  intros [t t' H|t t' Ha Hb Hs Ht] Hok Hcov.
  - split; [by apply (bank_step_balanced _ _ _ _ H)|by eapply covered_bank].
  - split; [|by eapply covered_later]. destruct Hok as [H1 H2 H3]. split; rewrite ?Ha, ?Hb, ?Hs; done.
Qed.

(** ** What can be spent *)

Lemma sub_one_cases l addr c s : chain_ok s → (String.length addr <= 255)%nat → coins_ok l →
  coin_fits c → sum_of (Denom c) l <= bal s addr (Denom c) →
  if sum_of (Denom c) l + Amount c <=? bal s addr (Denom c)
  then ∃ s', sub_one l addr c s = (Ok (), s')
  else sub_one l addr c s = (Err "insufficient funds", s).
Proof.
  intros Hok Hlen Hl [[Hre Hpos] Hv] Hle. destruct c as [d y]. cbn [Denom Amount] in *.
  destruct (bal_range s addr d Hok) as [Hb Hbv]. destruct (coins_sum_range l d Hl) as [Hl0 Hlv]. unfold sub_one. cbn [Denom].
  assert (Int.valid (bal s addr d - sum_of d l)) as Hsv by (unfold Int.valid in *; lia).
  rewrite (Mbind_run _ _ _ _ _ (GetBalance_run addr d s Hlen Hre)).
  rewrite AmountOf_run by (done || apply Hl). rewrite lift_bind, NewCoin_run, lift_bind by done.
  rewrite (SubCoin_run d (bal s addr d) (sum_of d l)), lift_bind by (done || lia).
  destruct (Z.leb_spec (sum_of d l + y) (bal s addr d)) as [Hge|Hlt].
  - destruct (SafeSub_enough d (bal s addr d - sum_of d l) y) as [r ->]; [done|lia|].
    rewrite lift_bind. cbn [snd fail_if]. rewrite lift_bind, SubCoin_run, lift_bind by (done || lia).
    rewrite setBalance_run by (simpl; (done || lia)). eauto.
  - rewrite SafeSub_one by (done || lia). rewrite lift_bind. cbn [snd].
    by rewrite (proj2 (Z.ltb_lt _ _)) by lia.
Qed.

(** The loop either takes every coin or stops at the first one that would
    cut into the locked coins. *)
Lemma sub_loop_cases l addr amt : coins_ok l → (String.length addr <= 255)%nat → ∀ s, coins_ok amt → chain_ok s →
  (∀ d, sum_of d l <= bal s addr d) → ∃ r s', for_each (sub_one l addr) amt s = (r, s') ∧
    ((r = Ok () ∧ ∀ d, sum_of d l + sum_of d amt <= bal s addr d) ∨
     (r = Err "insufficient funds" ∧ ∃ d, bal s addr d < sum_of d l + sum_of d amt)).
Proof.
  intros Hl Hlen. induction amt as [|c amt IH]; intros s Hamt Hok Hle.
  { exists (Ok ()), s. split; [done|]. left. split; [done|]. intros d. simpl. specialize (Hle d). lia. }
  destruct (head_tail_apart c amt Hamt) as (Hc & Hamt' & Hap). pose proof Hc as [[_ Hpos] _].
  pose proof (sub_one_cases l addr c s Hok Hlen Hl Hc (Hle _)) as Hone. cbn [for_each].
  assert (sum_of (Denom c) (c :: amt) = Amount c) as Hsum by (apply sum_of_elem; [apply Hamt|left]).
  destruct (Z.leb_spec (sum_of (Denom c) l + Amount c) (bal s addr (Denom c))) as [Hge|Hlt].
  2:{ eexists _, s. split; [unfold mbind, M_bind; by rewrite Hone|]. right. split; [done|].
      exists (Denom c). by rewrite Hsum. }
  destruct Hone as [s1 H1]. rewrite (Mbind_run _ _ _ _ _ H1).
  destruct (sub_one_moves l addr c s () s1) as [Hok1 [Hb _ _]]; [lia|done|done|].
  assert (∀ d, bal s1 addr d = bal s addr d - sum_of d [c]) as Hb1.
  { intros d. rewrite Hb. unfold at_addr. rewrite String.eqb_refl. lia. }
  destruct (IH s1 Hamt' Hok1) as (r & s' & Hrun & Hcase).
  { intros d. rewrite Hb1. destruct c as [dn am]. rewrite single_sum. cbn [Denom Amount] in *.
    destruct (String.eqb_spec dn d) as [<-|]; [lia|]. specialize (Hle d). lia. }
  exists r, s'. split; [done|]. destruct Hcase as [[-> H]|(-> & d & H)]; [left|right]; (split; [done|]).
  - intros d. specialize (H d). rewrite Hb1 in H. rewrite sum_of_cons. lia.
  - exists d. rewrite Hb1 in H. rewrite sum_of_cons. lia.
Qed.

Lemma subUnlockedCoins_cases addr amt s l : chain_ok s → covered addr s → (String.length addr <= 255)%nat →
  coins_ok amt → LockedCoins addr s = (Ok l, s) →
  ∃ r s', subUnlockedCoins addr_String addr amt s = (r, s') ∧
    ((r = Ok () ∧ ∀ d, sum_of d l + sum_of d amt <= bal s addr d) ∨
     (r = Err "insufficient funds" ∧ ∃ d, bal s addr d < sum_of d l + sum_of d amt)).
Proof.
  intros Hok (v & l' & Hat & Hvok & Hti & Hlk & Hcl) Hlen Hamt Hl.
  rewrite (LockedCoins_vesting s addr v Hat), Hlk in Hl. injection Hl as ->.
  pose proof (locked_ok v _ l Hvok Hti Hlk) as Hlok. unfold subUnlockedCoins.
  rewrite wf_IsValid by apply Hamt. cbn [fail_if]. rewrite lift_bind.
  rewrite (Mbind_run _ _ _ l s) by (rewrite (LockedCoins_vesting s addr v Hat); by rewrite Hlk).
  destruct (sub_loop_cases l addr amt Hlok Hlen s Hamt Hok Hcl) as (r & s' & Hrun & Hcase).
  destruct Hcase as [[-> H]|[-> H]].
  - rewrite (Mbind_run _ _ _ _ _ Hrun). eexists _, _. split; [reflexivity|]. by left.
  - eexists _, _. unfold mbind, M_bind. rewrite Hrun. split; [reflexivity|]. by right.
Qed.

(** ** New accounts *)

(** The vesting data of a new account. *)
Definition new_vesting (msg : MsgCreateVestingAccount) (time : Z) : Vesting.VestingAccount :=
  let b := Vesting.mkBase (Coins.Sort (m_Amount msg)) [] [] (m_EndTime msg) in
  if Delayed msg then Vesting.DelayedVestingAccount b else Vesting.ContinuousVestingAccount b time.

Lemma CreateVestingAccount_stages msg from to s u s' : chain_ok s →
  AccAddressFromBech32 (FromAddress msg) = Ok from → AccAddressFromBech32 (ToAddress msg) = Ok to →
  CreateVestingAccount msg s = (Ok u, s') →
  accounts s !! to = None ∧ ∃ n s1,
    chain_ok (set_accounts (<[to := mkAccount to n None (Some (new_vesting msg (blockTime s))) None 0]> (accounts s))
      (set_accnum (Some (wrapu64 (n + 1))) s)) ∧
    SendCoins addr_String from to (m_Amount msg)
      (set_accounts (<[to := mkAccount to n None (Some (new_vesting msg (blockTime s))) None 0]> (accounts s))
        (set_accnum (Some (wrapu64 (n + 1))) s)) = (Ok (), s1) ∧
    accounts s' = accounts s1 ∧ balances s' = balances s1 ∧ supply s' = supply s1 ∧ blockTime s' = blockTime s1.
Proof.
  intros Hok Hf Ht H. unfold CreateVestingAccount, GetAccount in H. rewrite Hf, Ht in H.
  apply Mbind_Ok in H as (x & s0 & [_ ->]%lift_Ok & H). rewrite !lift_bind in H.
  apply Mbind_Ok in H as (y & s0 & [_ ->]%lift_Ok & H).
  rewrite gets_bind in H. apply Mbind_Ok in H as (z & s0 & [Hn%fail_if_Ok ->]%lift_Ok & H).
  apply bool_decide_eq_false, eq_None_not_Some in Hn. split; [done|].
  unfold NewAccountWithAddress, NewAccount, GetNextAccountNumber, SetAccount, EmitEvent in H.
  apply Mbind_Ok in H as (acc & s1 & Hacc & H). cbn in Hacc. injection Hacc as <- <-.
  apply Mbind_Ok in H as (b & s1 & [[= <-] ->]%lift_Ok & H).
  rewrite gets_bind in H. apply Mbind_Ok in H as (w & s1 & ->%modify_Ok & H).
  apply Mbind_Ok in H as ([] & s2 & Hs & ->%modify_Ok).
  exists (default 0 (globalAccountNumber s)), s2. split_and!; try done.
  - destruct Hok as [H1 H2 H3]. split; [done|done|]. intros a acc. simpl. rewrite lookup_insert_Some.
    intros [[<- <-]|[_ ?]]; [done|auto].
Qed.

Lemma new_vesting_ok msg time : coins_ok (m_Amount msg) → in_time time → m_EndTime msg < 2 ^ 63 →
  Delayed msg = true ∨ time < m_EndTime msg → account_ok (new_vesting msg time).
Proof.
  intros Ha Ht He Hd. unfold new_vesting, Coins.Sort. rewrite sort_id by apply Ha. set (b := Vesting.mkBase _ _ _ _).
  assert (base_ok b) as Hb by (split_and!; [done|apply coins_ok_nil..]).
  assert (Vesting.Base_Validate (Ok ()) b = Ok ()) as Hv.
  { apply Base_Validate_run; [done|]. intros d. simpl. by apply wf_sum_nonneg, Ha. }
  destruct (Delayed msg); (split; [|]).
  - split_and!; done.
  - exact Hv.
  - unfold in_time in Ht. split_and!; try done. simpl. lia.
  - cbn [Vesting.Validate]. destruct Hd as [|Hd]; [done|].
    rewrite (proj2 (Z.leb_gt _ _)) by (simpl; lia). exact Hv.
Qed.

Lemma new_vesting_original msg time : ssorted (m_Amount msg) →
  Vesting.OriginalVesting (Vesting.base (new_vesting msg time)) = m_Amount msg.
Proof. intros Hs. unfold new_vesting, Coins.Sort. rewrite sort_id by done. by destruct (Delayed msg). Qed.

(** ** Genesis *)

(** [ValidateGenAccounts] (x/auth/types/genesis.go) on the address and the
    validation result of each exported account. *)
Fixpoint ValidateGenAccounts (addrMap : list string) (accounts : list (string * outcome ())) : outcome () :=
  match accounts with
  | [] => Ok ()
  | (addrStr, valid) :: rest =>
      if existsb (String.eqb addrStr) addrMap then Err "duplicate account found in genesis state"
      else match valid with
           | Err _ => Err "invalid account found in genesis state"
           | Panic e => Panic e
           | Ok _ => ValidateGenAccounts (addrStr :: addrMap) rest
           end
  end.

Lemma ValidateGenAccounts_Ok l : ∀ m a r u, ValidateGenAccounts m l = Ok u → (a, r) ∈ l → r = Ok ().
Proof.
  induction l as [|[a' r'] l IH]; intros m a r u H; [by intros ?%elem_of_nil|]. cbn in H.
  destruct (existsb _ m); [done|]. destruct r' as [[]| |]; try done.
  intros [[= -> ->]|Hin]%elem_of_cons; [done|]. by eapply IH.
Qed.

(** ** Theorems *)

(** C13: the balance of a vesting account covers the coins its schedule locks,
    in every state that any sequence of transfers, mints, burns, delegations,
    undelegations and later blocks reaches from one where it does. *)
Theorem vesting_balance_covers_locked (addr : string) (s s' : Chain) :
  rtc vesting_step s s' → chain_ok s → covered addr s → chain_ok s' ∧ covered addr s'.
Proof.
  induction 1 as [|s t s' Hst _ IH]; [done|]. intros Hok Hcov.
  destruct (vesting_step_inv addr s t Hst Hok Hcov). by apply IH.
Qed.


(** A message that passes its basic validation, sent by an existing
    account for a schedule that ends in the future, creates a valid vesting
    account that holds the coins it locks. *)
Theorem CreateVestingAccount_covered (msg : MsgCreateVestingAccount) (from to : string) (s s' : Chain) :
  chain_ok s → in_time (blockTime s) → ValidateBasic msg = Ok () → m_EndTime msg < 2 ^ 63 →
  Delayed msg = true ∨ blockTime s < m_EndTime msg →
  AccAddressFromBech32 (FromAddress msg) = Ok from → AccAddressFromBech32 (ToAddress msg) = Ok to →
  is_Some (accounts s !! from) →
  CreateVestingAccount msg s = (Ok (), s') →
  accounts s !! to = None ∧ chain_ok s' ∧ covered to s' ∧ vesting_at s' to (new_vesting msg (blockTime s)) ∧
  ∀ a d, bal s' a d = bal s a d
    + (if String.eqb a to then (m_Amount msg).[d] else 0) - (if String.eqb a from then (m_Amount msg).[d] else 0).
Proof.
  intros Hok Hti Hvb He Hd Hf Ht [facc Hfacc] H.
  destruct (CreateVestingAccount_stages msg from to s () s' Hok Hf Ht H) as (Hnone & n & s1 & Hok0 & Hs & Ha & Hb & Hsu & Htm).
  assert (from ≠ to) as Hne by congruence. set (s0 := set_accounts _ _) in *.
  destruct (SendCoins_Ok _ _ _ _ _ _ _ Hok0 Hs) as (Hw & Hok1 & [Hbal _ _]).
  pose proof (steps_SendCoins _ _ _ _ _ _ _ Hs) as [Hold _ _ Htime].
  assert (vesting_at s' to (new_vesting msg (blockTime s))) as Hat.
  { eexists. rewrite Ha. split; [eapply lookup_weaken; [|exact Hold]; apply lookup_insert_eq|done]. }
  assert (∀ a d, bal s' a d = bal s a d + at_addr from (λ d, - sum_of d (m_Amount msg)) a d
    + at_addr to (λ d, sum_of d (m_Amount msg)) a d) as Hb'.
  { intros a d. unfold bal at 1. rewrite Hb. change (default 0 (balances s1 !! (a, d))) with (bal s1 a d).
    rewrite Hbal. change (bal s0 a d) with (bal s a d). lia. }
  assert (coins_ok (m_Amount msg)) as Hamt.
  { split; [done|]. apply (in_range_bal _ s from Hw Hok). intros d. pose proof (bal_range s1 from d Hok1) as [H0 _].
    rewrite Hbal in H0. unfold at_addr in H0. rewrite String.eqb_refl, (proj2 (String.eqb_neq _ _) Hne) in H0.
    change (bal s0 from d) with (bal s from d) in H0. lia. }
  pose proof (new_vesting_ok msg (blockTime s) Hamt Hti He Hd) as Hvok.
  assert (blockTime s' = blockTime s) as Htt by (rewrite Htm, Htime; done).
  split_and!; [done|destruct Hok1 as [H1 H2 H3]; split; rewrite ?Ha, ?Hb, ?Hsu; done| |done|].
  - destruct (locked_amounts _ _ Hvok Hti) as (_ & l & _ & _ & Hl & _). eexists _, l. rewrite Htt.
    split_and!; try done. intros d. pose proof (locked_le_original _ _ l Hvok Hti Hl d) as Hle.
    rewrite new_vesting_original in Hle by apply Hw.
    rewrite Hb'. unfold at_addr. rewrite String.eqb_refl, (proj2 (String.eqb_neq to from)) by congruence.
    pose proof (bal_range s to d Hok) as [H0 _]. lia.
  - intros a d. rewrite Hb', AmountOf_sum by apply Hw. unfold at_addr. repeat case_match; lia.
Qed.


End handler.

(** ** Witnesses *)

(** A chain where vera has the vesting account of [VestingProps], with ten
    coins more than its schedule, and bob an ordinary one. *)
Definition demo : Chain :=
  mkChain (<["vera" := mkAccount "vera" 1 None (Some VestingProps.demo_account) None 0]>
            (<["bob" := mkAccount "bob" 2 None None None 0]> ∅)) (Some 3)
    (<[("vera", "aeil") := 50]> (<[("vera", "stake") := 7]> (<[("bob", "aeil") := 20]> ∅)))
    (<["aeil" := 70]> (<["stake" := 7]> ∅)) 5 112 [].

Lemma demo_ok : chain_ok demo.
Proof.
  split; unfold demo; cbn [balances supply accounts].
  - intros k z. rewrite !lookup_insert_Some, lookup_empty. naive_solver.
  - intros k z. rewrite !lookup_insert_Some, lookup_empty. naive_solver.
  - intros k z. rewrite !lookup_insert_Some, lookup_empty. naive_solver.
Qed.

Lemma demo_covered : covered "vera" demo.
Proof.
  eexists VestingProps.demo_account, [mkCoin "aeil" 10; mkCoin "stake" 7]. split_and!.
  - eexists. split; reflexivity.
  - exact VestingProps.demo_account_ok.
  - split; [vm_compute; discriminate|reflexivity].
  - vm_compute. reflexivity.
  - intros d. unfold bal, demo. cbn [balances]. rewrite sum_of_cons, !single_sum.
    destruct (String.eqb_spec "aeil" d) as [<-|H1]; [vm_compute; discriminate|].
    destruct (String.eqb_spec "stake" d) as [<-|H2]; [vm_compute; discriminate|].
    rewrite !lookup_insert_ne by congruence. done.
Qed.

Lemma vesting_balance_covers_locked_witness :
  covered "vera" (snd (DelegateCoins id "vera" "bob" [mkCoin "aeil" 45] demo)).
Proof.
  refine (proj2 (vesting_balance_covers_locked demo_config id "vera" demo _ (rtc_once _ _ _) demo_ok demo_covered)).
  apply step_bank. refine (step_delegate demo_config id "vera" "bob" [mkCoin "aeil" 45] demo () _ _).
  apply run_ok. vm_compute. reflexivity.
Defined.


(** Bob gives carol eight coins, over time or at the end. *)
Definition demo_msg (end_time : Z) (delayed : bool) : MsgCreateVestingAccount :=
  mkCreate "bob" "carol" [mkCoin "aeil" 8] end_time delayed.
Definition demo_bech32 (a : string) : outcome string := Ok a.

Lemma CreateVestingAccount_covered_witness :
  covered "carol" (snd (CreateVestingAccount demo_config id demo_bech32 (λ _, true) (demo_msg 200 false) demo)).
Proof.
  refine (proj1 (proj2 (proj2 (CreateVestingAccount_covered demo_config id demo_bech32 (λ _, true)
    (demo_msg 200 false) "bob" "carol" demo _ demo_ok _ _ _ _ _ _ _ _)))).
  - split; [vm_compute; discriminate|reflexivity].
  - vm_compute. reflexivity.
  - reflexivity.
  - right. reflexivity.
  - reflexivity.
  - reflexivity.
  - eexists. vm_compute. reflexivity.
  - apply run_ok. vm_compute. reflexivity.
Defined.


End VestingBank.
