(* ===== verification/Tx.v ===== *)
(** * Transactions: types/tx/types.go, x/auth/tx/builder.go and sigs.go,
      the multisignature codec of crypto/types/multisig.pb.go

    The parts of a transaction the ante handler reads.  Parts that protobuf
    may leave out (body, auth info, fee) are options, whose use panics as a nil
    pointer does.  Messages are abstract: of a message only the signers are
    used here.  Amounts of coins are never nil. *)

From Stdlib Require Import ZArith Lia Ascii String.
From stdpp Require Import base tactics option list strings.
From S2P Require Import Prelude GoStd Digits SdkInt Coin MultiSig Wire Proto WireMsg SdkMsgs.

Local Open Scope Z_scope.

Module Tx.
Import Wire BitArray MultiSig.

(** ** The MultiSignature message *)

Record MultiSignature := mkMultiSignature { ms_Signatures : list string; ms_unrecognized : string }.

Definition MultiSignature_MarshalToSizedBuffer (m : MultiSignature) : string :=
  let i := ms_unrecognized m in
  let i := concat_map (enc_bytes 0xa) (ms_Signatures m) +:+ i in
  i.
Definition MultiSignature_Size (m : MultiSignature) : Z :=
  sum_map (λ b, let l := slen b in 1 + l + sov l) (ms_Signatures m) + slen (ms_unrecognized m).
Definition MultiSignature_Marshal (m : MultiSignature) : outcome string :=
  marshal (MultiSignature_Size m) (MultiSignature_MarshalToSizedBuffer m).

Definition ms_add (s : string) (m : MultiSignature) : MultiSignature :=
  mkMultiSignature (ms_Signatures m ++ [s]) (ms_unrecognized m).
Definition MultiSignature_handle (fieldNum wireType l : Z) (rest : string) (m : MultiSignature) :
    option (outcome (MultiSignature * string)) :=
  match fieldNum with
  | 1 => str_field ms_add wireType l rest m
  | _ => None
  end.
Definition MultiSignature_Unmarshal (s : string) : outcome MultiSignature :=
  unmarshal MultiSignature_handle
    (λ b m, mkMultiSignature (ms_Signatures m) (ms_unrecognized m +:+ b)) s (mkMultiSignature [] "").

(** ** Signature data and mode infos *)

(** A [*tx.ModeInfo]: nil, without a sum, or with one of its two sums. *)
#[warnings="-register-all"]
Inductive ModeInfo :=
  | ModeNil
  | ModeUnset
  | ModeInfo_Single (Mode : Z)
  | ModeInfo_Multi (Bitarray : option CompactBitArray) (ModeInfos : list ModeInfo).

(** The loop over nested data: all the mode infos and all the raw signatures. *)
Fixpoint each_pair {A B} (l : list (outcome (A * B))) : outcome (list A * list B) :=
  match l with
  | [] => Ok ([], [])
  | o :: l => '(a, b) ← o; '(as_, bs) ← each_pair l; Ok (a :: as_, b :: bs)
  end.

Fixpoint SignatureDataToModeInfoAndSig (data : SignatureData) : outcome (ModeInfo * string) :=
  match data with
  | NoData => Ok (ModeNil, "")
  | SingleSignatureData mode sig => Ok (ModeInfo_Single mode, sig)
  | MultiSignatureData bA datas =>
      '(modeInfos, sigs) ← each_pair (map SignatureDataToModeInfoAndSig datas);
      sig ← must (MultiSignature_Marshal (mkMultiSignature sigs ""));
      Ok (ModeInfo_Multi bA modeInfos, sig)
  end.

Definition decodeMultisignatures (bz : string) : outcome (list string) :=
  m ← MultiSignature_Unmarshal bz;
  _ ← fail_if (0 <? slen (ms_unrecognized m)) "rejecting unrecognized fields found in MultiSignature";
  Ok (ms_Signatures m).

(** [for i, mi := range ModeInfos { sigv2s[i], err = f(mi, sigs[i]) }] into a
    slice as long as [sigs]. *)
Fixpoint fill_sigs (fs : list (string → outcome SignatureData)) (sigs : list string)
    : outcome (list SignatureData) :=
  match fs, sigs with
  | [], _ => Ok (replicate (length sigs) NoData)
  | _ :: _, [] => Panic "index out of range"
  | f :: fs, s :: sigs => d ← f s; ds ← fill_sigs fs sigs; Ok (d :: ds)
  end.

Fixpoint ModeInfoAndSigToSignatureData (modeInfo : ModeInfo) (sig : string) : outcome SignatureData :=
  match modeInfo with
  | ModeNil => Panic "nil pointer dereference"
  | ModeUnset => Panic "unexpected ModeInfo data type"
  | ModeInfo_Single mode => Ok (SingleSignatureData mode sig)
  | ModeInfo_Multi bA infos =>
      sigs ← decodeMultisignatures sig;
      sigv2s ← fill_sigs (map ModeInfoAndSigToSignatureData infos) sigs;
      Ok (MultiSignatureData bA sigv2s)
  end.

(** ** Transactions *)

Record SignatureV2 := mkSignatureV2 { sv_PubKey : option PubKey; sv_Data : SignatureData; sv_Sequence : Z }.

Record SignerInfo := mkSignerInfo { si_PublicKey : option PubKey; si_ModeInfo : ModeInfo; si_Sequence : Z }.
Record Fee := mkFee { fee_Amount : list Coin; GasLimit : Z; Payer : string; Granter : string }.
Record AuthInfo := mkAuthInfo { SignerInfos : list SignerInfo; ai_Fee : option Fee }.
Record TxBody (Msg : Type) := mkTxBody {
  Messages : list Msg; Memo : string; TimeoutHeight : Z; ExtensionOptions : list Sdk.Any.t }.
Arguments mkTxBody {Msg} _ _ _ _.
Arguments Messages {Msg} _.
Arguments Memo {Msg} _.
Arguments TimeoutHeight {Msg} _.
Arguments ExtensionOptions {Msg} _.
Record Tx (Msg : Type) := mkTx {
  Body : option (TxBody Msg); tx_AuthInfo : option AuthInfo; Signatures : list string }.
Arguments mkTx {Msg} _ _ _.
Arguments Body {Msg} _.
Arguments tx_AuthInfo {Msg} _.
Arguments Signatures {Msg} _.

Definition MaxGasWanted : Z := 2 ^ 63 - 1.

Section tx.
Context {Msg : Type} (msg_GetSigners : Msg → outcome (list string)).
Context (AccAddressFromBech32 : string → outcome string) (addr_String : string → string).
Implicit Types t : Tx Msg.

Definition nil_panic {A} (o : option A) : outcome A := or_panic o "nil pointer dereference".
Definition body t : outcome (TxBody Msg) := nil_panic (Body t).
Definition authInfo t : outcome AuthInfo := nil_panic (tx_AuthInfo t).
Definition fee_of t : outcome Fee := ai ← authInfo t; nil_panic (ai_Fee ai).

Definition GetMsgs t : list Msg := match Body t with None => [] | Some b => Messages b end.

(** The inner loops: an address is added when its text was not seen. *)
Fixpoint add_new (addrs : list string) (signers seen : list string) : list string * list string :=
  match addrs with
  | [] => (signers, seen)
  | addr :: addrs =>
      let txt := addr_String addr in
      if existsb (String.eqb txt) seen then add_new addrs signers seen
      else add_new addrs (signers ++ [addr]) (txt :: seen)
  end.
Fixpoint collect (msgs : list Msg) (signers seen : list string) : outcome (list string * list string) :=
  match msgs with
  | [] => Ok (signers, seen)
  | msg :: msgs =>
      addrs ← msg_GetSigners msg;
      let '(signers, seen) := add_new addrs signers seen in
      collect msgs signers seen
  end.

Definition GetSigners t : outcome (list string) :=
  '(signers, seen) ← collect (GetMsgs t) [] [];
  fee ← fee_of t;
  if negb (String.eqb (Payer fee) "") && negb (existsb (String.eqb (Payer fee)) seen) then
    payerAddr ← must (AccAddressFromBech32 (Payer fee));
    Ok (signers ++ [payerAddr])
  else Ok signers.

Definition ValidateBasic t : outcome () :=
  _ ← or_err (Body t) "missing TxBody";
  authInfo ← or_err (tx_AuthInfo t) "missing AuthInfo";
  fee ← or_err (ai_Fee authInfo) "missing fee";
  _ ← fail_if (MaxGasWanted <? GasLimit fee) "invalid gas supplied";
  _ ← fail_if (Coins.IsAnyNegative (fee_Amount fee)) "invalid fee provided";
  _ ← (if String.eqb (Payer fee) "" then Ok ()
       else match AccAddressFromBech32 (Payer fee) with
            | Ok _ => Ok ()
            | Err e => Err e
            | Panic e => Panic e
            end);
  _ ← fail_if (match Signatures t with [] => true | _ => false end) "no signatures supplied";
  signers ← GetSigners t;
  fail_if (negb (length (Signatures t) =? length signers)%nat) "wrong number of signers".

Definition GetGas t : outcome Z := fee ← fee_of t; Ok (GasLimit fee).
Definition GetFee t : outcome (list Coin) := fee ← fee_of t; Ok (fee_Amount fee).
Definition FeePayer t : outcome string :=
  fee ← fee_of t;
  if negb (String.eqb (Payer fee) "") then must (AccAddressFromBech32 (Payer fee))
  else signers ← GetSigners t; or_panic (head signers) "index out of range".
Definition FeeGranter t : outcome (option string) :=
  fee ← fee_of t;
  if negb (String.eqb (Granter fee) "") then Some <$> must (AccAddressFromBech32 (Granter fee))
  else Ok None.
Definition GetMemo t : outcome string := b ← body t; Ok (Memo b).
Definition GetTimeoutHeight t : outcome Z := b ← body t; Ok (TimeoutHeight b).

Definition GetPubKeys t : outcome (list (option PubKey)) :=
  ai ← authInfo t; Ok (map si_PublicKey (SignerInfos ai)).

Fixpoint signatures_of (infos : list SignerInfo) (sigs : list string) : outcome (list SignatureV2) :=
  match infos with
  | [] => Ok []
  | si :: infos =>
      res ← match si_ModeInfo si with
            | ModeNil => Ok (mkSignatureV2 (si_PublicKey si) NoData 0)
            | mi =>
                sig ← or_panic (head sigs) "index out of range";
                sigData ← ModeInfoAndSigToSignatureData mi sig;
                Ok (mkSignatureV2 (si_PublicKey si) sigData (si_Sequence si))
            end;
      rest ← signatures_of infos (tail sigs);
      Ok (res :: rest)
  end.
Definition GetSignaturesV2 t : outcome (list SignatureV2) :=
  ai ← authInfo t; signatures_of (SignerInfos ai) (Signatures t).
End tx.

(** ** The codec of multisignatures is exact *)

Lemma MultiSignature_fits sigs s : s ∈ sigs →
  slen s <= slen (MultiSignature_MarshalToSizedBuffer (mkMultiSignature sigs "")).
Proof.
  intros Hs. unfold MultiSignature_MarshalToSizedBuffer. cbn [ms_Signatures ms_unrecognized].
  rewrite Str.app_nil_r. pose proof (slen_concat_elem (enc_bytes 0xa) sigs s Hs).
  pose proof (slen_le_enc_bytes 0xa s). lia.
Qed.

Lemma foldl_ms_add ts m :
  foldl (λ m t, ms_add t m) m ts = mkMultiSignature (ms_Signatures m ++ ts) (ms_unrecognized m).
Proof.
  revert m. induction ts as [|t ts IH]; intros m; cbn [foldl].
  - rewrite app_nil_r. by destruct m.
  - rewrite IH. unfold ms_add. cbn. by rewrite <- app_assoc.
Qed.

Lemma MultiSignature_codec sigs :
  let b := MultiSignature_MarshalToSizedBuffer (mkMultiSignature sigs "") in
  slen b < 2 ^ 63 →
  MultiSignature_Marshal (mkMultiSignature sigs "") = Ok b ∧
  MultiSignature_Unmarshal b = Ok (mkMultiSignature sigs "").
Proof.
  intros b Hb. split.
  - unfold MultiSignature_Marshal. apply marshal_exact. fold b.
    unfold MultiSignature_Size. cbn [ms_Signatures ms_unrecognized].
    unfold b, MultiSignature_MarshalToSizedBuffer. cbn [ms_Signatures ms_unrecognized].
    rewrite slen_app. f_equal. rewrite <- (slen_concat_map (enc_bytes 0xa)); [done|].
    apply Forall_forall. intros s Hs. pose proof (MultiSignature_fits sigs s Hs).
    rewrite slen_enc_bytes by (subst b; lia). unfold size_bytes. lia.
  - unfold MultiSignature_Unmarshal. apply unmarshal_decodes. fold b. set (l := slen b) in *.
    assert (slen b <= l) as Hle by (subst l; lia). clearbody l.
    unfold b, MultiSignature_MarshalToSizedBuffer in *. cbn [ms_Signatures ms_unrecognized] in *.
    apply decodes_repeated with (add := ms_add); [|assumption|intros _].
    + intros t r m m' _ Hlr. eapply decodes_bytes; [lia|done|intros; reflexivity|done|done].
    + rewrite foldl_ms_add. apply decodes_nil.
Qed.

(** The raw signature of signature data. *)
Fixpoint raw_of (d : SignatureData) : string :=
  match d with
  | NoData => ""
  | SingleSignatureData _ sig => sig
  | MultiSignatureData _ ds => MultiSignature_MarshalToSizedBuffer (mkMultiSignature (map raw_of ds) "")
  end.
Fixpoint info_of (d : SignatureData) : ModeInfo :=
  match d with
  | NoData => ModeNil
  | SingleSignatureData mode _ => ModeInfo_Single mode
  | MultiSignatureData bA ds => ModeInfo_Multi bA (map info_of ds)
  end.
Fixpoint filled (d : SignatureData) : bool :=
  match d with
  | NoData => false
  | SingleSignatureData _ _ => true
  | MultiSignatureData _ ds => forallb filled ds
  end.

Lemma each_pair_run {A B C} (f : A → outcome (B * C)) g h l : Forall (λ x, f x = Ok (g x, h x)) l →
  each_pair (map f l) = Ok (map g l, map h l).
Proof. induction 1 as [|x l Hx _ IH]; [done|]. cbn [map each_pair]. by rewrite Hx, IH. Qed.
Lemma fill_sigs_run {A} (f : A → string → outcome SignatureData) (g : A → string) (h : A → SignatureData) l :
  Forall (λ x, f x (g x) = Ok (h x)) l → fill_sigs (map f l) (map g l) = Ok (map h l).
Proof. induction 1 as [|x l Hx _ IH]; [done|]. cbn [map fill_sigs]. by rewrite Hx, IH. Qed.

(** Signatures survive the wire.  The data of a signature, single or nested
    multisignature, is split into a mode info and raw bytes, and reading them
    back gives the same data: same modes, bit arrays and signatures, in order. *)
Theorem signature_data_roundtrip (d : SignatureData) : filled d = true → slen (raw_of d) < 2 ^ 63 →
  ∃ mi raw, SignatureDataToModeInfoAndSig d = Ok (mi, raw) ∧ ModeInfoAndSigToSignatureData mi raw = Ok d.
Proof.
  intros Hf Hl. exists (info_of d), (raw_of d). revert Hf Hl.
  induction d as [|mode sig|bA ds IH] using SignatureData_nested_ind; intros Hf Hl; [done..|].
  cbn [filled raw_of] in Hf, Hl. rewrite forallb_forall in Hf. rewrite Forall_forall in IH.
  assert (∀ d, d ∈ ds → SignatureDataToModeInfoAndSig d = Ok (info_of d, raw_of d) ∧
    ModeInfoAndSigToSignatureData (info_of d) (raw_of d) = Ok d) as Hall.
  { intros d Hd. apply IH; [done|apply Hf; by apply list_elem_of_In|].
    pose proof (MultiSignature_fits (map raw_of ds) (raw_of d) ltac:(by apply list_elem_of_fmap_2)). lia. }
  destruct (MultiSignature_codec (map raw_of ds) Hl) as [Hm Hu].
  cbn [SignatureDataToModeInfoAndSig ModeInfoAndSigToSignatureData info_of raw_of].
  rewrite (each_pair_run _ info_of raw_of) by (apply Forall_forall; intros; by apply Hall).
  cbn [mbind outcome_bind]. rewrite Hm. split; [done|]. unfold decodeMultisignatures. rewrite Hu.
  cbn [mbind outcome_bind ms_unrecognized ms_Signatures]. change (0 <? slen "") with false. cbn [fail_if mbind outcome_bind].
  rewrite map_map, (fill_sigs_run (λ d, ModeInfoAndSigToSignatureData (info_of d)) raw_of id).
  - by rewrite map_id.
  - apply Forall_forall. intros d Hd. by apply Hall.
Qed.

Definition demo_sig : SignatureData :=
  MultiSignatureData (Some (mkBitArray 3 [160]))
    [SingleSignatureData 1 "a!"; MultiSignatureData (Some (mkBitArray 2 [64])) [SingleSignatureData 127 "b!"]].
Lemma signature_data_roundtrip_witness :
  ∃ mi raw, SignatureDataToModeInfoAndSig demo_sig = Ok (mi, raw) ∧
    ModeInfoAndSigToSignatureData mi raw = Ok demo_sig.
Proof. apply (signature_data_roundtrip demo_sig); vm_compute; reflexivity. Defined.

End Tx.
