(* ===== verification/TxCodec.v ===== *)
(** * The bytes of transactions: types/tx/tx.pb.go ([TxRaw] and [SignDoc]),
      x/auth/tx/encoder.go and direct.go

    What travels and what is signed.  The encodings of a body and of an auth
    info, with the messages and keys inside, are parameters.  A [TxRaw] and a
    [SignDoc] keep no unknown fields. *)

From Stdlib Require Import ZArith Lia Ascii String.
From stdpp Require Import base tactics option list strings.
From S2P Require Import Prelude GoStd Digits SdkInt Coin MultiSig Wire Proto Tx.

Local Open Scope Z_scope.

Module TxCodec.
Import Wire.

(** ** SignDoc *)

Record SignDoc := mkSignDoc { BodyBytes : string; AuthInfoBytes : string; ChainId : string; AccountNumber : Z }.

Definition SignDoc_MarshalToSizedBuffer (m : SignDoc) : string :=
  let i := enc_int64 0x20 (AccountNumber m) in
  let i := enc_str 0x1a (ChainId m) +:+ i in
  let i := enc_str 0x12 (AuthInfoBytes m) +:+ i in
  let i := enc_str 0xa (BodyBytes m) +:+ i in
  i.
Definition SignDoc_Size (m : SignDoc) : Z :=
  size_str (BodyBytes m) + size_str (AuthInfoBytes m) + size_str (ChainId m) + size_int64 (AccountNumber m).
Definition SignDoc_Marshal (m : SignDoc) : outcome string :=
  marshal (SignDoc_Size m) (SignDoc_MarshalToSizedBuffer m).

Definition set_BodyBytes (v : string) (m : SignDoc) := mkSignDoc v (AuthInfoBytes m) (ChainId m) (AccountNumber m).
Definition set_AuthInfoBytes (v : string) (m : SignDoc) := mkSignDoc (BodyBytes m) v (ChainId m) (AccountNumber m).
Definition set_ChainId (v : string) (m : SignDoc) := mkSignDoc (BodyBytes m) (AuthInfoBytes m) v (AccountNumber m).
Definition set_AccountNumber (v : Z) (m : SignDoc) := mkSignDoc (BodyBytes m) (AuthInfoBytes m) (ChainId m) v.

Definition SignDoc_handle (fieldNum wireType l : Z) (rest : string) (m : SignDoc) :
    option (outcome (SignDoc * string)) :=
  match fieldNum with
  | 1 => str_field set_BodyBytes wireType l rest m
  | 2 => str_field set_AuthInfoBytes wireType l rest m
  | 3 => str_field set_ChainId wireType l rest m
  | 4 => uint64_field set_AccountNumber wireType rest m
  | _ => None
  end.
Definition SignDoc_Unmarshal (s : string) : outcome SignDoc :=
  unmarshal SignDoc_handle (λ _ m, m) s (mkSignDoc "" "" "" 0).

(** ** TxRaw *)

Record TxRaw := mkTxRaw { raw_BodyBytes : string; raw_AuthInfoBytes : string; raw_Signatures : list string }.

Definition TxRaw_MarshalToSizedBuffer (m : TxRaw) : string :=
  let i := concat_map (enc_bytes 0x1a) (raw_Signatures m) in
  let i := enc_str 0x12 (raw_AuthInfoBytes m) +:+ i in
  let i := enc_str 0xa (raw_BodyBytes m) +:+ i in
  i.
Definition TxRaw_Size (m : TxRaw) : Z :=
  size_str (raw_BodyBytes m) + size_str (raw_AuthInfoBytes m) +
  sum_map (λ b, let l := slen b in 1 + l + sov l) (raw_Signatures m).
Definition TxRaw_Marshal (m : TxRaw) : outcome string :=
  marshal (TxRaw_Size m) (TxRaw_MarshalToSizedBuffer m).

Definition raw_set_Body (v : string) (m : TxRaw) := mkTxRaw v (raw_AuthInfoBytes m) (raw_Signatures m).
Definition raw_set_AuthInfo (v : string) (m : TxRaw) := mkTxRaw (raw_BodyBytes m) v (raw_Signatures m).
Definition raw_add_sig (v : string) (m : TxRaw) :=
  mkTxRaw (raw_BodyBytes m) (raw_AuthInfoBytes m) (raw_Signatures m ++ [v]).

Definition TxRaw_handle (fieldNum wireType l : Z) (rest : string) (m : TxRaw) :
    option (outcome (TxRaw * string)) :=
  match fieldNum with
  | 1 => str_field raw_set_Body wireType l rest m
  | 2 => str_field raw_set_AuthInfo wireType l rest m
  | 3 => str_field raw_add_sig wireType l rest m
  | _ => None
  end.
Definition TxRaw_Unmarshal (s : string) : outcome TxRaw :=
  unmarshal TxRaw_handle (λ _ m, m) s (mkTxRaw "" "" []).

(** ** Encoding and sign bytes *)

Definition SIGN_MODE_DIRECT : Z := 1.

Definition DirectSignBytes (bodyBytes authInfoBytes chainID : string) (accnum : Z) : outcome string :=
  SignDoc_Marshal (mkSignDoc bodyBytes authInfoBytes chainID accnum).

Section encoder.
Context {Msg : Type}.
(** [proto.Marshal] of a body and of an auth info. *)
Context (body_Marshal : option (Tx.TxBody Msg) → outcome string).
Context (authInfo_Marshal : option Tx.AuthInfo → outcome string).

Definition getBodyBytes (t : Tx.Tx Msg) : outcome string := must (body_Marshal (Tx.Body t)).
Definition getAuthInfoBytes (t : Tx.Tx Msg) : outcome string := must (authInfo_Marshal (Tx.tx_AuthInfo t)).

Definition DefaultTxEncoder (t : Tx.Tx Msg) : outcome string :=
  bodyBytes ← getBodyBytes t;
  authInfoBytes ← getAuthInfoBytes t;
  TxRaw_Marshal (mkTxRaw bodyBytes authInfoBytes (Tx.Signatures t)).

(** The chain id and the account number are those of the signer data; the
    sequence is inside the auth info. *)
Definition direct_GetSignBytes (mode : Z) (chainID : string) (accnum : Z) (t : Tx.Tx Msg) : outcome string :=
  _ ← fail_if (negb (mode =? SIGN_MODE_DIRECT)) "expected SIGN_MODE_DIRECT";
  bodyBz ← getBodyBytes t;
  authInfoBz ← getAuthInfoBytes t;
  DirectSignBytes bodyBz authInfoBz chainID accnum.
End encoder.

(** ** Both codecs are exact *)

Lemma SignDoc_codec m : slen (SignDoc_MarshalToSizedBuffer m) < 2 ^ 63 → is_uint64 (AccountNumber m) = true →
  SignDoc_Marshal m = Ok (SignDoc_MarshalToSizedBuffer m) ∧
  SignDoc_Unmarshal (SignDoc_MarshalToSizedBuffer m) = Ok m.
Proof.
  intros Hl Ha. split.
  - apply marshal_exact. unfold SignDoc_Size, SignDoc_MarshalToSizedBuffer in *. fields_fit.
    pose proof (slen_nonneg (enc_int64 0x20 (AccountNumber m))).
    rewrite !slen_app, !slen_enc_str, slen_enc_int64 by lia. lia.
  - unfold SignDoc_Unmarshal. apply unmarshal_decodes. set (l := slen _) in *.
    assert (slen (SignDoc_MarshalToSizedBuffer m) <= l) as Hle by (subst l; lia). clearbody l.
    unfold SignDoc_MarshalToSizedBuffer in *. destruct m as [b a c n]. cbn in Ha, Hle |- *.
    do 3 decode_str. rewrite <- (Str.app_nil_r (enc_int64 _ _)) in *.
    eapply decodes_uint64; [lia|done|done|intros; reflexivity|reflexivity|assumption|intros _].
    apply decodes_nil.
Qed.

Lemma foldl_add_sig ts m :
  foldl (λ m t, raw_add_sig t m) m ts =
  mkTxRaw (raw_BodyBytes m) (raw_AuthInfoBytes m) (raw_Signatures m ++ ts).
Proof.
  revert m. induction ts as [|t ts IH]; intros m; cbn [foldl].
  - rewrite app_nil_r. by destruct m.
  - rewrite IH. unfold raw_add_sig. cbn. by rewrite <- app_assoc.
Qed.

Lemma TxRaw_codec m : slen (TxRaw_MarshalToSizedBuffer m) < 2 ^ 63 →
  TxRaw_Marshal m = Ok (TxRaw_MarshalToSizedBuffer m) ∧
  TxRaw_Unmarshal (TxRaw_MarshalToSizedBuffer m) = Ok m.
Proof.
  intros Hl.
  assert (∀ s, s ∈ raw_Signatures m → slen s < 2 ^ 63) as Hsig.
  { intros s Hs. unfold TxRaw_MarshalToSizedBuffer in Hl. fields_fit.
    pose proof (slen_concat_elem (enc_bytes 0x1a) _ s Hs). pose proof (slen_le_enc_bytes 0x1a s). lia. }
  split.
  - apply marshal_exact. unfold TxRaw_Size, TxRaw_MarshalToSizedBuffer in *. fields_fit.
    pose proof (slen_nonneg (concat_map (enc_bytes 0x1a) (raw_Signatures m))).
    rewrite !slen_app, !slen_enc_str by lia. rewrite <- (slen_concat_map (enc_bytes 0x1a)); [lia|].
    apply Forall_forall. intros s Hs. rewrite slen_enc_bytes by auto. unfold size_bytes. lia.
  - unfold TxRaw_Unmarshal. apply unmarshal_decodes. set (l := slen _) in *.
    assert (slen (TxRaw_MarshalToSizedBuffer m) <= l) as Hle by (subst l; lia). clearbody l.
    unfold TxRaw_MarshalToSizedBuffer in *. destruct m as [b a sigs]. cbn in Hle, Hsig |- *.
    do 2 decode_str. rewrite <- (Str.app_nil_r (concat_map _ _)) in *.
    apply decodes_repeated with (add := raw_add_sig); [|assumption|intros _].
    + intros t r m m' _ Hlr. eapply decodes_bytes; [lia|done|intros; reflexivity|done|done].
    + rewrite foldl_add_sig. apply decodes_nil.
Qed.

(** A document that fits in memory, with a 64-bit account number. *)
Definition doc_fits (d : SignDoc) : Prop :=
  slen (SignDoc_MarshalToSizedBuffer d) < 2 ^ 63 ∧ is_uint64 (AccountNumber d) = true.

Lemma SignDoc_inj d1 d2 : doc_fits d1 → doc_fits d2 → SignDoc_Marshal d1 = SignDoc_Marshal d2 → d1 = d2.
Proof.
  intros [H1 H1'] [H2 H2'] E. destruct (SignDoc_codec d1 H1 H1') as [M1 U1], (SignDoc_codec d2 H2 H2') as [M2 U2].
  rewrite M1, M2 in E. injection E as E. rewrite E, U2 in U1. by injection U1.
Qed.

Section binding.
Context {Msg : Type}.
Context (body_Marshal : option (Tx.TxBody Msg) → outcome string).
Context (authInfo_Marshal : option Tx.AuthInfo → outcome string).
Abbreviation sign_bytes := (direct_GetSignBytes body_Marshal authInfo_Marshal).

(** C29: a signature is for one transaction on one chain by one account.  When
    the bytes to sign of two transactions, for two chain ids and account
    numbers, are the same, so are the chain ids, the account numbers and the
    encoded bodies and auth infos: a signature given for one chain, account or
    content is not one for another. *)
Theorem sign_bytes_bind mode1 mode2 c1 c2 n1 n2 (t1 t2 : Tx.Tx Msg) b1 b2 a1 a2 bz :
  getBodyBytes body_Marshal t1 = Ok b1 → getAuthInfoBytes authInfo_Marshal t1 = Ok a1 →
  getBodyBytes body_Marshal t2 = Ok b2 → getAuthInfoBytes authInfo_Marshal t2 = Ok a2 →
  doc_fits (mkSignDoc b1 a1 c1 n1) → doc_fits (mkSignDoc b2 a2 c2 n2) →
  sign_bytes mode1 c1 n1 t1 = Ok bz → sign_bytes mode2 c2 n2 t2 = Ok bz →
  c1 = c2 ∧ n1 = n2 ∧ b1 = b2 ∧ a1 = a2.
Proof.
  intros B1 A1 B2 A2 F1 F2 S1 S2. unfold direct_GetSignBytes, DirectSignBytes in *.
  apply bind_Ok in S1 as (_ & _ & S1). apply bind_Ok in S2 as (_ & _ & S2).
  rewrite B1 in S1. rewrite B2 in S2. cbn [mbind outcome_bind] in S1, S2.
  rewrite A1 in S1. rewrite A2 in S2. cbn [mbind outcome_bind] in S1, S2. rewrite <- S2 in S1.
  apply SignDoc_inj in S1; [|done|done]. by injection S1.
Qed.

(** A transaction survives the wire.  Decoding the bytes of an encoded
    transaction gives back the encoded body and auth info and all its
    signatures, in order. *)
Theorem tx_raw_roundtrip (t : Tx.Tx Msg) b a :
  getBodyBytes body_Marshal t = Ok b → getAuthInfoBytes authInfo_Marshal t = Ok a →
  slen (TxRaw_MarshalToSizedBuffer (mkTxRaw b a (Tx.Signatures t))) < 2 ^ 63 →
  ∃ bz, DefaultTxEncoder body_Marshal authInfo_Marshal t = Ok bz ∧
    TxRaw_Unmarshal bz = Ok (mkTxRaw b a (Tx.Signatures t)).
Proof.
  intros B A F. destruct (TxRaw_codec _ F) as [Hm Hu]. eexists. split; [|exact Hu].
  unfold DefaultTxEncoder. rewrite B. cbn [mbind outcome_bind]. rewrite A. exact Hm.
Qed.

(** The bytes to sign do not depend on the signatures. *)
Lemma sign_bytes_signatures mode c n b a sigs sigs' :
  sign_bytes mode c n (Tx.mkTx b a sigs) = sign_bytes mode c n (Tx.mkTx b a sigs').
Proof. done. Qed.
End binding.

Definition toy_body (b : option (Tx.TxBody string)) : outcome string :=
  match b with Some b => Ok (Tx.Memo b) | None => Ok "" end.
Definition toy_auth (a : option Tx.AuthInfo) : outcome string := Ok "auth".
Definition toy_tx : Tx.Tx string := Tx.mkTx (Some (Tx.mkTxBody [] "memo" 0 [])) None ["s1"; "s2"].

Lemma sign_bytes_bind_witness : "c" = "c" ∧ 7 = 7 ∧ "memo" = "memo" ∧ "auth" = "auth".
Proof.
  refine (sign_bytes_bind toy_body toy_auth 1 1 "c" "c" 7 7 toy_tx toy_tx "memo" "memo" "auth" "auth"
    (default "" (match direct_GetSignBytes toy_body toy_auth 1 "c" 7 toy_tx with Ok b => Some b | _ => None end))
    eq_refl eq_refl eq_refl eq_refl _ _ _ _); try (split; reflexivity); vm_compute; reflexivity.
Defined.

Lemma tx_raw_roundtrip_witness : ∃ bz, DefaultTxEncoder toy_body toy_auth toy_tx = Ok bz ∧
  TxRaw_Unmarshal bz = Ok (mkTxRaw "memo" "auth" ["s1"; "s2"]).
Proof. exact (tx_raw_roundtrip toy_body toy_auth toy_tx "memo" "auth" eq_refl eq_refl eq_refl). Defined.

End TxCodec.
