(* ===== verification/Reward.v ===== *)
(** * x/reward: the keeper, its message server and its queries

    The module's store is a key-value store ([Store]); protobuf values are the
    bytes of [Proto], values written with [encoding/json] or [fmt] are kept
    typed.  The bank is reached through the class [BankKeeper].  Energy is a
    [float64] that only ever holds integers ([F64]). *)

From Stdlib Require Import ZArith Lia Ascii String.
From stdpp Require Import base tactics option list gmap sorting strings.
From S2P Require Import Prelude GoStd Digits SdkInt Decimal Coin DecCoin Chain Keepers.
From S2P Require Import Wire Proto Store Address.

Local Open Scope Z_scope.

Module Reward.
Import Store.

(** ** Data *)

Definition ModuleName := "reward".
Definition SupplyKey := "supply".
Definition RecRecordKey := "rec_record".
Definition RecMetaKey := "rec_meta".
Definition TotalEnergyKey := "total_energy".
Definition EnergyTxKey := "EnergyTx_Key".
Definition EnergyByAddressPrefix := "EnergyByAddress/".
Definition TxListHeadKey := "TxListHead".
Definition TxListTailKey := "TxListTail".
Definition TxNodePrefix := "TxNode/".

Record TxNodeTx := mkTxNode {
  TxHashes : list string;
  Creator : string;
  RecId : string;
  Next : string }.

(** A stored value: raw bytes (protobuf, ids), the text of a float, a JSON
    list of strings, a JSON node. *)
Inductive value :=
  | VBytes (b : string)
  | VFloat (f : Z)
  | VStrings (l : list string)
  | VNode (n : TxNodeTx).

Inductive RecType := RecRecord (r : RECRecord) | RecMeta (m : RECMeta).

(** The messages of tx.proto. *)
Inductive Msg :=
  | MsgRewardSolarPower (creator address amount : string)
  | MsgBurnStableCoin (creator targetAddr amount : string)
  | MsgDepositCollateral (creator : string) (rec : option RecType)
  | MsgRemoveCollateral (creator amount : string)
  | MsgBurnModuleStable (creator amount : string)
  | MsgAddEnergy (creator to amount txHash : string)
  | MsgCreateRECRecord (creator : string) (count : Z)
  | MsgAppendTxHash (creator nodeCreator : string) (txHashes : list string) (recId next : string)
  | MsgDistributeRewardPercent (creator address percent : string).

Inductive Response :=
  | RewardSolarPowerResponse
  | BurnStableCoinResponse (recRecords : list RECRecord) (recMetas : list RECMeta)
  | DepositCollateralResponse
  | RemoveCollateralResponse
  | BurnModuleStableResponse
  | AddEnergyResponse (recs : Z)
  | CreateRECRecordResponse (recIds : list string)
  | AppendTxHashResponse (node : TxNodeTx)
  | DistributeRewardPercentResponse.

Section reward.
Context {B : Type} `{BankKeeper B}.
(** The bech32 decoder, the account prefix and the registered denominations
    of the application. *)
Context (DecodeAndConvert : string → option (string * string)) (accPrefix : string).
Context (denoms : Denoms.registry).

Record State := mkState { r_bank : B; r_kv : gmap string value }.

Definition AccAddressFromBech32 : string → outcome string :=
  Address.AccAddressFromBech32 DecodeAndConvert accPrefix.

(** ** The store *)

Definition bank {A} (m : M B A) : M State A :=
  zoom r_bank (λ b s, mkState b (r_kv s)) m.
Definition Get (key : string) : M State (option value) := gets (λ s, r_kv s !! key).
Definition Set_ (key : string) (v : value) : M State () :=
  modify (λ s, mkState (r_bank s) (<[key := v]> (r_kv s))).
Definition Delete (key : string) : M State () :=
  modify (λ s, mkState (r_bank s) (delete key (r_kv s))).
Definition PrefixIterator (prefix : string) : M State (list (string * value)) :=
  gets (λ s, KVStorePrefixIterator (r_kv s) prefix).

(** [json.Unmarshal] into a [float64] or a [[]string] whose error is
    dropped leaves the zero value. *)
Definition float_of (v : option value) : Z :=
  match v with Some (VFloat f) => f | _ => 0 end.
Definition strings_of (v : option value) : list string :=
  match v with Some (VStrings l) => l | _ => [] end.

(** ** collateral.go *)

Definition rec_key (id : string) : string := RecRecordKey +:+ "/" +:+ id.
Definition meta_key (id : string) : string := RecMetaKey +:+ "/" +:+ id.

Definition DepositCollateral (creator : string) (rec : option RecType) : M State () :=
  _ ← lift (AccAddressFromBech32 creator);
  match rec with
  | Some (RecRecord r) =>
      bz ← lift (RECRecord_Marshal r); Set_ (rec_key (RECRecord_RecId r)) (VBytes bz)
  | Some (RecMeta m) =>
      bz ← lift (RECMeta_Marshal m); Set_ (meta_key (RECMeta_CertifiedId m)) (VBytes bz)
  | None => lift (Err "invalid message: neither RECRecord nor RECMeta provided")
  end.

(** The loop over an iterator that stops at the first value that does not
    decode. *)
Fixpoint decode_all {A} (dec : string → outcome A) (items : list (string * value)) :
    outcome (list A) :=
  match items with
  | [] => Ok []
  | (_, v) :: rest =>
      a ← match v with VBytes b => dec b | _ => Err "unexpected EOF" end;
      l ← decode_all dec rest;
      Ok (a :: l)
  end.

Definition GetAllRECRecords : M State (list RECRecord) :=
  items ← PrefixIterator (RecRecordKey +:+ "/");
  lift (decode_all RECRecord_Unmarshal items).

Definition GetAllRECMetas : M State (list RECMeta) :=
  items ← PrefixIterator (RecMetaKey +:+ "/");
  lift (decode_all RECMeta_Unmarshal items).

Definition GetTotalCollateral : M State Z :=
  iterRecord ← PrefixIterator (RecRecordKey +:+ "/");
  iterMeta ← PrefixIterator (RecMetaKey +:+ "/");
  mret (Int.NewInt (Z.of_nat (length iterRecord) + Z.of_nat (length iterMeta))).

Definition SetSupply (s : Supply) : M State () :=
  bz ← lift (must (Supply_Marshal s));
  Set_ SupplyKey (VBytes bz).

Definition GetSupply : M State Supply :=
  bz ← Get SupplyKey;
  match bz with
  | None => mret (mkSupply "0" "")
  | Some (VBytes b) =>
      s ← lift (must (Supply_Unmarshal b));
      mret (if String.eqb (Supply_Minted s) "" then Supply_set_Minted "0" s else s)
  | Some _ => lift (Panic "failed to unmarshal Supply")
  end.

(** [sdk.NewIntFromString] whose flag is ignored: a nil [Int], which the next
    operation dereferences. *)
Definition minted_of (s : Supply) : outcome Z :=
  or_panic (Int.NewIntFromString (Supply_Minted s)) "nil pointer dereference".

(** ** keeper.go *)

(** [coinAmt.ToDec().Mul(sdk.NewDecWithPrec(1, 1)).TruncateInt()]. *)
Definition fee_of (coinAmt : Z) : outcome Z :=
  d ← Dec.NewDecFromInt coinAmt;
  tenth ← Dec.NewDecWithPrec 1 1;
  f ← Dec.Mul d tenth;
  Dec.TruncateInt f.

Definition coins_of (denom : string) (amount : Z) : outcome (list Coin) :=
  c ← Coin1.NewCoin denom amount; Coins.NewCoins [c].

Definition RewardSolarPower (to amount : string) : M State () :=
  whAmt ← lift (or_err (Int.NewIntFromString amount) "invalid amount");
  coinAmt ← lift (Int.Quo whAmt (Int.NewInt 1));
  collateralAmt ← GetTotalCollateral;
  supply ← GetSupply;
  minted ← lift (minted_of supply);
  newTotal ← lift (Int.Add minted coinAmt);
  collateralValueStable ← lift (Int.Mul collateralAmt (Int.NewInt 1000000));
  _ ← lift (fail_if (Int.GT newTotal collateralValueStable) "issuance exceeds the collateral");
  coinsTotal ← lift (coins_of "aeil" coinAmt);
  feeAmt ← lift (fee_of coinAmt);
  feeCoins ← lift (coins_of "aeil" feeAmt);
  userAmt ← lift (Int.Sub coinAmt feeAmt);
  userCoins ← lift (coins_of "aeil" userAmt);
  toAddr ← lift (AccAddressFromBech32 to);
  _ ← bank (bk_MintCoins ModuleName coinsTotal);
  _ ← bank (bk_SendCoinsFromModuleToAccount ModuleName toAddr userCoins);
  SetSupply (Supply_set_Minted (Int.to_String newTotal) supply).

(** ** burn.go *)

(** The loop that hands back and deletes entries until [n] are returned. *)
Fixpoint return_loop {A} (dec : string → outcome A) (items : list (string * value))
    (returned n : Z) (acc : list A) : M State (list A * Z) :=
  match items with
  | [] => mret (acc, returned)
  | (key, v) :: rest =>
      if returned <? n then
        let acc := match v with
                   | VBytes b => match dec b with Ok a => acc ++ [a] | _ => acc end
                   | _ => acc
                   end in
        _ ← Delete key;
        return_loop dec rest (returned + 1) n acc
      else mret (acc, returned)
  end.

(** The REC part of [BurnStableCoin]: [n] entries, internal records first. *)
Definition return_recs (n : Z) : M State (list RECRecord * list RECMeta) :=
  iterRecord ← PrefixIterator (RecRecordKey +:+ "/");
  '(records, returned) ← return_loop RECRecord_Unmarshal iterRecord 0 n [];
  '(metas, returned) ←
    (if returned <? n then
       iterMeta ← PrefixIterator (RecMetaKey +:+ "/");
       return_loop RECMeta_Unmarshal iterMeta returned n []
     else mret ([], returned));
  _ ← lift (fail_if (returned <? n) "not enough collateral");
  mret (records, metas).

(** [oldSupply.Sub(amount)], not below zero. *)
Definition lower_supply (amount : Z) : M State () :=
  supply ← GetSupply;
  oldSupply ← lift (minted_of supply);
  newSupply ← lift (Int.Sub oldSupply amount);
  let newSupply := if Int.IsNegative newSupply then Int.ZeroInt else newSupply in
  SetSupply (Supply_set_Minted (Int.to_String newSupply) supply).

Definition BurnStableCoin (target amount : string) : M State (list RECRecord * list RECMeta) :=
  let amount := if Str.has_suffix amount "aeil" then amount else amount +:+ "aeil" in
  coin ← lift (Parse.ParseCoinNormalized denoms amount);
  targetAddr ← lift (AccAddressFromBech32 target);
  coins ← lift (Coins.NewCoins [coin]);
  _ ← bank (bk_SendCoinsFromAccountToModule targetAddr ModuleName coins);
  _ ← bank (bk_BurnCoins ModuleName coins);
  recToReturn ← lift (Int.Quo (Amount coin) (Int.NewInt 1000000));
  resp ←
    (if Int.IsPositive recToReturn then
       n ← lift (Int.Int64 recToReturn); return_recs n
     else mret ([], []));
  _ ← lower_supply (Amount coin);
  mret resp.

(** ** remove.go *)

Fixpoint delete_loop (items : list (string * value)) (deleted n : Z) : M State Z :=
  match items with
  | [] => mret deleted
  | (key, _) :: rest =>
      if deleted <? n then _ ← Delete key; delete_loop rest (deleted + 1) n
      else mret deleted
  end.

Definition RemoveCollateral (from amount : string) : M State () :=
  coin ← lift (Parse.ParseCoinNormalized denoms amount);
  _ ← lift (fail_if (negb (String.eqb (Denom coin) "mcnl")) "only mcnl");
  recToDelete ← lift (Int.Quo (Amount coin) (Int.NewInt 1000));
  _ ← lift (fail_if (Int.IsZero recToDelete) "less than one REC");
  n ← lift (Int.Int64 recToDelete);
  iterRecord ← PrefixIterator (RecRecordKey +:+ "/");
  deleted ← delete_loop iterRecord 0 n;
  deleted ←
    (if deleted <? n then
       iterMeta ← PrefixIterator (RecMetaKey +:+ "/"); delete_loop iterMeta deleted n
     else mret deleted);
  lift (fail_if (deleted <? n) "not enough collateral").

(** ** liquidation.go *)

Definition BurnModuleStableCoins : M State () :=
  moduleAddr ← lift (or_err (bk_GetModuleAddress ModuleName) "module account not found");
  stableBalance ← bank (bk_GetBalance moduleAddr "mcnl");
  if Int.IsZero (Amount stableBalance) then mret ()
  else
    coins ← lift (Coins.NewCoins [stableBalance]);
    _ ← bank (bk_BurnCoins ModuleName coins);
    lower_supply (Amount stableBalance).

(** ** reward_percent.go *)

Definition DistributeRewardPercent (creator address percent : string) : M State () :=
  _ ← lift (AccAddressFromBech32 creator);
  moduleAddr ← lift (or_err (bk_GetModuleAddress ModuleName) "module account not found");
  balance ← bank (bk_GetBalance moduleAddr "aeil");
  _ ← lift (fail_if (Int.LT (Amount balance) (Int.NewInt 10000)) "insufficient balance");
  rewardCoin ← lift (Coin1.NewCoin "aeil" (Int.NewInt 10000));
  rewardCoins ← lift (Coins.NewCoins [rewardCoin]);
  addr ← lift (AccAddressFromBech32 address);
  _ ← bank (bk_SendCoinsFromModuleToAccount ModuleName addr rewardCoins);
  bank (bk_EmitEvents [mkEvent "message"
    [("module", AStr ModuleName); ("sender", AStr creator); ("recipient", AStr address);
     ("distributed_amount", AStr (Coin1.to_String rewardCoin))]]).

(** ** addREC.go *)

Definition energy_key (creator : string) : string := EnergyByAddressPrefix +:+ "/" +:+ creator.

(** A [float64] converted to [int64]: out of range it is the most negative
    one. *)
Definition int64_of_float (q : Z) : Z := if is_int64 q then q else - 2 ^ 63.

Definition AddEnergy (creator : string) (amountKwh : Z) (txHash : string) : M State Z :=
  bz ← Get TotalEnergyKey;
  let total := F64.add (float_of bz) amountKwh in
  _ ← Set_ TotalEnergyKey (VFloat total);
  bzAddr ← Get (energy_key creator);
  let addrTotal := F64.add (float_of bzAddr) amountKwh in
  _ ← Set_ (energy_key creator) (VFloat addrTotal);
  bzTxs ← Get EnergyTxKey;
  let txList := strings_of bzTxs ++ [txHash] in
  _ ← Set_ EnergyTxKey (VStrings txList);
  let recs := int64_of_float (F64.div_trunc total 1000000) in
  _ ← (if 0 <? recs then
         let remaining := F64.sub total (F64.of_int64 (wrap64 (recs * 1000000))) in
         Set_ TotalEnergyKey (VFloat remaining)
       else mret ());
  mret recs.

(** The contributors of the open period, in key order. *)
Definition contributor_of (item : string * value) : Contributor :=
  mkContributor (Str.drop (String.length EnergyByAddressPrefix) item.1)
    (F64.print (float_of (Some item.2))) "".

Definition contributors : M State (list Contributor) :=
  items ← PrefixIterator EnergyByAddressPrefix;
  mret (contributor_of <$> items).

Definition create_one (i : Z) : M State string :=
  cs ← contributors;
  bzTxs ← Get EnergyTxKey;
  height ← gets (λ s, bk_BlockHeight (r_bank s));
  time ← gets (λ s, bk_BlockTime (r_bank s));
  let recID := "rec-" +:+ Big.to_string height +:+ "-" +:+ Big.to_string i in
  let rec := mkRECRecord recID (Time.RFC3339 time) height "1000000" cs (strings_of bzTxs) "" in
  bz ← lift (RECRecord_Marshal rec);
  _ ← Set_ (rec_key recID) (VBytes bz);
  mret recID.

(** [for i := int64(0); i < count; i++]: [todo] rounds from [i] on. *)
Fixpoint create_loop (todo : nat) (i : Z) (recIDs : list string) : M State (list string) :=
  match todo with
  | O => mret recIDs
  | S n => recID ← create_one i; create_loop n (i + 1) (recIDs ++ [recID])
  end.

Definition CreateRECRecord (count : Z) : M State (list string) :=
  create_loop (Z.to_nat count) 0 [].

(** ** link.go: the list of issued nodes *)

Definition node_key (id : string) : string := TxNodePrefix +:+ id.

Definition GetAllTxHashes : M State (list string) :=
  bz ← Get EnergyTxKey; mret (strings_of bz).

Definition resetEnergyStore : M State () :=
  items ← PrefixIterator EnergyByAddressPrefix;
  _ ← for_each (λ item, Delete item.1) items;
  Delete EnergyTxKey.

Definition bytes_of (v : option value) : string :=
  match v with Some (VBytes b) => b | _ => "" end.

Definition AppendTxNode (node : TxNodeTx) : M State () :=
  allHashes ← GetAllTxHashes;
  let node := mkTxNode allHashes (Creator node) (RecId node) (Next node) in
  _ ← Set_ (node_key (RecId node)) (VNode node);
  head ← Get TxListHeadKey;
  match head with
  | None =>
      _ ← Set_ TxListHeadKey (VBytes (RecId node));
      _ ← Set_ TxListTailKey (VBytes (RecId node));
      resetEnergyStore
  | Some _ =>
      tail ← Get TxListTailKey;
      let tailKey := node_key (bytes_of tail) in
      tailNodeBz ← Get tailKey;
      match tailNodeBz with
      | None => lift (Err "tail node not found")
      | Some (VNode tailNode) =>
          _ ← Set_ tailKey
                (VNode (mkTxNode (TxHashes tailNode) (Creator tailNode) (RecId tailNode)
                          (RecId node)));
          _ ← Set_ TxListTailKey (VBytes (RecId node));
          resetEnergyStore
      | Some _ => lift (Err "invalid character")
      end
  end.

(** ** query.go *)

Definition Collateral : M State string :=
  collateral ← GetTotalCollateral; mret (Int.to_String collateral).

Definition SupplyQuery : M State Supply := GetSupply.

Definition RECList : M State (list RECRecord * list RECMeta) :=
  recRecords ← GetAllRECRecords;
  recMetas ← GetAllRECMetas;
  mret (recRecords, recMetas).

(** The walk along [Next] from [cur]; [None] when [fuel] rounds do not reach
    the end of the list. *)
Fixpoint walk (kv : gmap string value) (fuel : nat) (cur : string) :
    option (outcome (list TxNodeTx)) :=
  if String.eqb cur "" then Some (Ok [])
  else
    match fuel with
    | O => None
    | S f =>
        match kv !! node_key cur with
        | None => Some (Ok [])
        | Some (VNode node) => (λ o, l ← o; Ok (node :: l)) <$> walk kv f (Next node)
        | Some _ => Some (Err "invalid character")
        end
    end.

Definition TxNodeList (fuel : nat) (s : State) : option (outcome (list TxNodeTx)) :=
  match r_kv s !! TxListHeadKey with
  | None => Some (Ok [])
  | Some head => walk (r_kv s) fuel (bytes_of (Some head))
  end.

(** ** msg_server.go *)

Definition omitempty (name : string) (s : string) : list (string * json) :=
  if String.eqb s "" then [] else [(name, JStr s)].

Definition json_of_Contributor (c : Contributor) : json :=
  JObj (omitempty "address" (Contributor_Address c) ++
        omitempty "energy_kwh" (Contributor_EnergyKwh c)).

Definition json_of_RECRecord (r : RECRecord) : json :=
  JObj (omitempty "rec_id" (RECRecord_RecId r) ++
        omitempty "issued_at" (RECRecord_IssuedAt r) ++
        (if RECRecord_BlockHeight r =? 0 then []
         else [("block_height", JInt (RECRecord_BlockHeight r))]) ++
        omitempty "total_energy" (RECRecord_TotalEnergy r) ++
        (if RECRecord_Contributors r is [] then []
         else [("contributors", JArr (json_of_Contributor <$> RECRecord_Contributors r))]) ++
        (if RECRecord_SourceTx r is [] then []
         else [("source_tx", JArr (JStr <$> RECRecord_SourceTx r))])).

Definition json_of_RECMeta (m : RECMeta) : json :=
  JObj (omitempty "facility_id" (RECMeta_FacilityId m) ++
        omitempty "facility_name" (RECMeta_FacilityName m) ++
        omitempty "location" (RECMeta_Location m) ++
        omitempty "technology_type" (RECMeta_TechnologyType m) ++
        omitempty "capacity_mw" (RECMeta_CapacityMw m) ++
        omitempty "registration_date" (RECMeta_RegistrationDate m) ++
        omitempty "certified_id" (RECMeta_CertifiedId m) ++
        omitempty "issue_date" (RECMeta_IssueDate m) ++
        omitempty "generation_start_date" (RECMeta_GenerationStartDate m) ++
        omitempty "generation_end_date" (RECMeta_GenerationEndDate m) ++
        omitempty "measured_volume_mwh" (RECMeta_MeasuredVolumeMwh m) ++
        omitempty "retired_date" (RECMeta_RetiredDate m) ++
        omitempty "retirement_purpose" (RECMeta_RetirementPurpose m) ++
        omitempty "status" (RECMeta_Status m) ++
        omitempty "timestamp" (RECMeta_Timestamp m)).

Definition emit (ty : string) (attrs : list (string * attr)) : M State () :=
  bank (bk_EmitEvents [mkEvent ty attrs]).

Definition print_len {A} (l : list A) : string := Big.to_string (Z.of_nat (length l)).

Definition msg_BurnStableCoin (targetAddr amount : string) :
    M State (list RECRecord * list RECMeta) :=
  resp ← BurnStableCoin targetAddr amount;
  _ ← emit "burn_stable_coin"
        [("target", AStr targetAddr); ("amount", AStr amount);
         ("returned_records", AStr (print_len resp.1));
         ("returned_metas", AStr (print_len resp.2))];
  _ ← for_each (λ r, emit "rec_record_returned"
        [("rec_id", AStr (RECRecord_RecId r)); ("data", AJson (json_of_RECRecord r))]) resp.1;
  _ ← for_each (λ m, emit "rec_meta_returned"
        [("certified_id", AStr (RECMeta_CertifiedId m)); ("data", AJson (json_of_RECMeta m))])
        resp.2;
  mret resp.

Definition msg_AddEnergy (creator to amount txHash : string) : M State Z :=
  whAmt ← lift (or_err (Int.NewIntFromString amount) "invalid amount");
  wh ← lift (Int.Int64 whAmt);
  recs ← AddEnergy to (F64.of_int64 wh) txHash;
  cs ← contributors;
  _ ← emit "add_energy"
        [("creator", AStr creator); ("to", AStr to); ("amount", AStr amount);
         ("tx_hash", AStr txHash); ("recs", AStr (Big.to_string recs));
         ("contributors", AJson (JArr (json_of_Contributor <$> cs)))];
  mret recs.

Definition msg_CreateRECRecord (creator : string) (count : Z) : M State (list string) :=
  recIDs ← CreateRECRecord count;
  first ← lift (or_panic (head recIDs) "index out of range");
  _ ← emit "create_rec_record"
        [("creator", AStr creator); ("count", AStr (Big.to_string count));
         ("rec_id", AStr first)];
  mret recIDs.

Definition msg_AppendTxHash (creator nodeCreator : string) (txHashes : list string)
    (recId next : string) : M State TxNodeTx :=
  let node := mkTxNode txHashes nodeCreator recId next in
  _ ← AppendTxNode node;
  _ ← emit "append_tx_hash"
        [("signer", AStr creator); ("node_creator", AStr nodeCreator);
         ("rec_id", AStr recId); ("hashes", AStr (Str.join "," txHashes))];
  mret node.

(** The service router calls the handler of the message. *)
Definition handle (msg : Msg) : M State Response :=
  match msg with
  | MsgRewardSolarPower _ address amount =>
      _ ← RewardSolarPower address amount; mret RewardSolarPowerResponse
  | MsgBurnStableCoin _ targetAddr amount =>
      r ← msg_BurnStableCoin targetAddr amount; mret (BurnStableCoinResponse r.1 r.2)
  | MsgDepositCollateral creator rec =>
      _ ← DepositCollateral creator rec; mret DepositCollateralResponse
  | MsgRemoveCollateral creator amount =>
      _ ← RemoveCollateral creator amount; mret RemoveCollateralResponse
  | MsgBurnModuleStable _ _ => _ ← BurnModuleStableCoins; mret BurnModuleStableResponse
  | MsgAddEnergy creator to amount txHash =>
      recs ← msg_AddEnergy creator to amount txHash; mret (AddEnergyResponse recs)
  | MsgCreateRECRecord creator count =>
      ids ← msg_CreateRECRecord creator count; mret (CreateRECRecordResponse ids)
  | MsgAppendTxHash creator nodeCreator txHashes recId next =>
      n ← msg_AppendTxHash creator nodeCreator txHashes recId next; mret (AppendTxHashResponse n)
  | MsgDistributeRewardPercent creator address percent =>
      _ ← DistributeRewardPercent creator address percent; mret DistributeRewardPercentResponse
  end.

(** handler.go: the legacy route knows one message. *)
Definition NewHandler (msg : Msg) : M State () :=
  match msg with
  | MsgRewardSolarPower _ address amount => RewardSolarPower address amount
  | _ => lift (Err "unrecognized reward message type")
  end.

(** ** types/msg*.go: stateless checks *)

Definition valid_addr (a e : string) : outcome () :=
  match AccAddressFromBech32 a with Ok _ => Ok () | _ => Err e end.

Definition validate_RewardSolarPower (creator address : string) : outcome () :=
  _ ← valid_addr creator "invalid creator"; valid_addr address "invalid address".

Definition validate_BurnStableCoin (creator amount : string) : outcome () :=
  _ ← valid_addr creator "invalid creator address";
  fail_if (String.eqb amount "") "amount cannot be empty".

(** The oneof holds at most one of the two, so the second test of the code
    never fires. *)
Definition validate_DepositCollateral (creator : string) (rec : option RecType) : outcome () :=
  _ ← valid_addr creator "invalid creator address";
  fail_if (if rec is None then true else false) "either rec_record or rec_meta must be provided".

Definition validate_RemoveCollateral (creator amount : string) : outcome () :=
  _ ← valid_addr creator "invalid creator"; fail_if (String.eqb amount "") "amount cannot be empty".

Definition validate_BurnModuleStable (creator amount : string) : outcome () :=
  _ ← valid_addr creator "invalid creator address";
  _ ← fail_if (String.eqb amount "") "amount cannot be empty";
  _ ← or_err (Int.NewIntFromString amount) "amount must be an integer string";
  Ok ().

Definition validate_AddEnergy (creator amount : string) : outcome () :=
  _ ← valid_addr creator "invalid creator"; fail_if (String.eqb amount "") "amount required".

Definition validate_CreateRECRecord (creator : string) (count : Z) : outcome () :=
  _ ← valid_addr creator "invalid creator"; fail_if (count <=? 0) "count must be > 0".

Definition validate_AppendTxHash (creator nodeCreator recId : string) : outcome () :=
  _ ← valid_addr creator "invalid creator address";
  _ ← fail_if (String.eqb nodeCreator "") "node_creator cannot be empty";
  fail_if (String.eqb recId "") "rec_id cannot be empty".

Definition validate_DistributeRewardPercent (creator address percent : string) : outcome () :=
  _ ← valid_addr creator "invalid creator address";
  _ ← valid_addr address "invalid recipient address";
  _ ← fail_if (String.eqb percent "") "percent cannot be empty";
  per ← match Dec.NewDecFromStr percent with Err _ => Err "invalid percent format" | o => o end;
  fail_if (Dec.LTE per Dec.ZeroDec || Dec.GT per Dec.OneDec) "percent must be between 0 and 1".

Definition ValidateBasic (msg : Msg) : outcome () :=
  match msg with
  | MsgRewardSolarPower creator address _ => validate_RewardSolarPower creator address
  | MsgBurnStableCoin creator _ amount => validate_BurnStableCoin creator amount
  | MsgDepositCollateral creator rec => validate_DepositCollateral creator rec
  | MsgRemoveCollateral creator amount => validate_RemoveCollateral creator amount
  | MsgBurnModuleStable creator amount => validate_BurnModuleStable creator amount
  | MsgAddEnergy creator _ amount _ => validate_AddEnergy creator amount
  | MsgCreateRECRecord creator count => validate_CreateRECRecord creator count
  | MsgAppendTxHash creator nodeCreator _ recId _ =>
      validate_AppendTxHash creator nodeCreator recId
  | MsgDistributeRewardPercent creator address percent =>
      validate_DistributeRewardPercent creator address percent
  end.

End reward.

Arguments State B : clear implicits.
Arguments mkState {B} r_bank r_kv.

End Reward.
