(* ===== verification/RewardMsgs.v ===== *)
(** * The messages of x/reward on the wire: types/tx.pb.go, types/query.pb.go

    The generated [MarshalToSizedBuffer], [Size] and [Unmarshal] of the requests
    and responses of the message and query services, one module per message,
    whose [t] is the generated struct with [XXX_unrecognized] last.  Each is an
    instance of the interface of WireMsg. *)

From Stdlib Require Import ZArith Lia Ascii String.
From stdpp Require Import base tactics option list strings.
From S2P Require Import Prelude GoStd Wire Proto WireMsg Reward.

Local Open Scope Z_scope.
Import Wire WireMsg.

(** ** The messages of Proto *)

#[global] Instance Contributor_wire : Codec Contributor :=
  mkCodec _ Contributor_Size Contributor_MarshalToSizedBuffer Contributor_empty
    (λ m s, unmarshal Contributor_handle Contributor_add_unknown s m).
#[global, refine] Instance Contributor_laws : CodecLaws Contributor := { plain m := Contributor_unrecognized m = "" }.
Proof.
  - unfold fits, c_enc, c_Size, Contributor_wire, Contributor_Size, Contributor_MarshalToSizedBuffer. intros m Hl. size_fields.
  - intros m Hp Hl. unfold fits, c_enc, c_Unmarshal, c_zero, Contributor_wire, Contributor_MarshalToSizedBuffer in *.
    destruct m as [a e u]. cbn [Contributor_Address Contributor_EnergyKwh Contributor_unrecognized] in *. subst. decode_message.
  - intros m s. apply unmarshal_total. intros. unfold Contributor_handle. handle_shorter.
Defined.

#[global] Instance RECRecord_codec : Codec RECRecord :=
  mkCodec _ RECRecord_Size RECRecord_MarshalToSizedBuffer RECRecord_empty
    (λ m s, unmarshal RECRecord_handle RECRecord_add_unknown s m).
#[global, refine] Instance RECRecord_laws : CodecLaws RECRecord := { plain := RECRecord_plain }.
Proof.
  - exact RECRecord_Size_length.
  - intros m Hp Hl. by apply RECRecord_roundtrip.
  - intros m s. apply unmarshal_total, RECRecord_handle_shorter.
Defined.

#[global] Instance RECMeta_wire : Codec RECMeta :=
  mkCodec _ RECMeta_Size RECMeta_MarshalToSizedBuffer RECMeta_empty
    (λ m s, unmarshal RECMeta_handle RECMeta_add_unknown s m).
#[global, refine] Instance RECMeta_laws : CodecLaws RECMeta := { plain m := RECMeta_unrecognized m = "" }.
Proof.
  - intros m Hl. by destruct (RECMeta_codec m Hl).
  - intros m Hp Hl. destruct (RECMeta_codec m Hl) as (_ & _ & H). by apply H.
  - intros m s. apply unmarshal_total, RECMeta_handle_shorter.
Defined.

#[global] Instance Supply_wire : Codec Supply :=
  mkCodec _ Supply_Size Supply_MarshalToSizedBuffer Supply_empty
    (λ m s, unmarshal Supply_handle Supply_add_unknown s m).
#[global, refine] Instance Supply_laws : CodecLaws Supply := { plain m := Supply_unrecognized m = "" }.
Proof.
  - intros m Hl. by destruct (Supply_codec m Hl).
  - intros m Hp Hl. destruct (Supply_codec m Hl) as (_ & _ & H). by apply H.
  - intros m s. apply unmarshal_total, Supply_handle_shorter.
Defined.

(** ** Requests *)

Module MsgDistributeRewardPercent.
Record t := mk { Creator : string; Address : string; Percent : string; unrecognized : string }.
Definition set_Creator (v : string) (m : t) : t := let '(mk _ a1 a2 a3) := m in mk v a1 a2 a3.
Definition set_Address (v : string) (m : t) : t := let '(mk a0 _ a2 a3) := m in mk a0 v a2 a3.
Definition set_Percent (v : string) (m : t) : t := let '(mk a0 a1 _ a3) := m in mk a0 a1 v a3.
Definition set_unrecognized (v : string) (m : t) : t := let '(mk a0 a1 a2 _) := m in mk a0 a1 a2 v.

Definition MarshalToSizedBuffer (m : t) : string :=
  let i := unrecognized m in
  let i := enc_str 0x1a (Percent m) +:+ i in
  let i := enc_str 0x12 (Address m) +:+ i in
  let i := enc_str 0xa (Creator m) +:+ i in
  i.
Definition Size (m : t) : Z :=
  size_str (Creator m) + size_str (Address m) + size_str (Percent m) + slen (unrecognized m).
Definition handle (fieldNum wireType l : Z) (rest : string) (m : t) : option (outcome (t * string)) :=
  match fieldNum with
  | 1 => str_field set_Creator wireType l rest m
  | 2 => str_field set_Address wireType l rest m
  | 3 => str_field set_Percent wireType l rest m
  | _ => None
  end.
Definition Unmarshal (m : t) (s : string) : outcome t := unmarshal handle (λ b m, set_unrecognized (unrecognized m +:+ b) m) s m.
#[global] Instance codec : Codec t := mkCodec _ Size MarshalToSizedBuffer (mk "" "" "" "") Unmarshal.
#[global, refine] Instance laws : CodecLaws t := { plain m := unrecognized m = "" }.
Proof.
  - unfold fits, c_enc, c_Size, codec, Size, MarshalToSizedBuffer. intros m Hl. size_fields.
  - intros m Hp Hl. unfold fits, c_enc, c_Unmarshal, c_zero, codec, MarshalToSizedBuffer, Unmarshal in *.
    destruct m. cbn [Creator Address Percent unrecognized] in *. destruct_and?. subst. decode_message.
  - intros m s. apply unmarshal_total. intros. unfold handle. handle_shorter.
Defined.
End MsgDistributeRewardPercent.

Module MsgRewardSolarPower.
Record t := mk { Creator : string; Address : string; Amount : string; unrecognized : string }.
Definition set_Creator (v : string) (m : t) : t := let '(mk _ a1 a2 a3) := m in mk v a1 a2 a3.
Definition set_Address (v : string) (m : t) : t := let '(mk a0 _ a2 a3) := m in mk a0 v a2 a3.
Definition set_Amount (v : string) (m : t) : t := let '(mk a0 a1 _ a3) := m in mk a0 a1 v a3.
Definition set_unrecognized (v : string) (m : t) : t := let '(mk a0 a1 a2 _) := m in mk a0 a1 a2 v.

Definition MarshalToSizedBuffer (m : t) : string :=
  let i := unrecognized m in
  let i := enc_str 0x1a (Amount m) +:+ i in
  let i := enc_str 0x12 (Address m) +:+ i in
  let i := enc_str 0xa (Creator m) +:+ i in
  i.
Definition Size (m : t) : Z :=
  size_str (Creator m) + size_str (Address m) + size_str (Amount m) + slen (unrecognized m).
Definition handle (fieldNum wireType l : Z) (rest : string) (m : t) : option (outcome (t * string)) :=
  match fieldNum with
  | 1 => str_field set_Creator wireType l rest m
  | 2 => str_field set_Address wireType l rest m
  | 3 => str_field set_Amount wireType l rest m
  | _ => None
  end.
Definition Unmarshal (m : t) (s : string) : outcome t := unmarshal handle (λ b m, set_unrecognized (unrecognized m +:+ b) m) s m.
#[global] Instance codec : Codec t := mkCodec _ Size MarshalToSizedBuffer (mk "" "" "" "") Unmarshal.
#[global, refine] Instance laws : CodecLaws t := { plain m := unrecognized m = "" }.
Proof.
  - unfold fits, c_enc, c_Size, codec, Size, MarshalToSizedBuffer. intros m Hl. size_fields.
  - intros m Hp Hl. unfold fits, c_enc, c_Unmarshal, c_zero, codec, MarshalToSizedBuffer, Unmarshal in *.
    destruct m. cbn [Creator Address Amount unrecognized] in *. destruct_and?. subst. decode_message.
  - intros m s. apply unmarshal_total. intros. unfold handle. handle_shorter.
Defined.
End MsgRewardSolarPower.

Module MsgBurnStableCoin.
Record t := mk { Creator : string; TargetAddr : string; Amount : string; unrecognized : string }.
Definition set_Creator (v : string) (m : t) : t := let '(mk _ a1 a2 a3) := m in mk v a1 a2 a3.
Definition set_TargetAddr (v : string) (m : t) : t := let '(mk a0 _ a2 a3) := m in mk a0 v a2 a3.
Definition set_Amount (v : string) (m : t) : t := let '(mk a0 a1 _ a3) := m in mk a0 a1 v a3.
Definition set_unrecognized (v : string) (m : t) : t := let '(mk a0 a1 a2 _) := m in mk a0 a1 a2 v.

Definition MarshalToSizedBuffer (m : t) : string :=
  let i := unrecognized m in
  let i := enc_str 0x1a (Amount m) +:+ i in
  let i := enc_str 0x12 (TargetAddr m) +:+ i in
  let i := enc_str 0xa (Creator m) +:+ i in
  i.
Definition Size (m : t) : Z :=
  size_str (Creator m) + size_str (TargetAddr m) + size_str (Amount m) + slen (unrecognized m).
Definition handle (fieldNum wireType l : Z) (rest : string) (m : t) : option (outcome (t * string)) :=
  match fieldNum with
  | 1 => str_field set_Creator wireType l rest m
  | 2 => str_field set_TargetAddr wireType l rest m
  | 3 => str_field set_Amount wireType l rest m
  | _ => None
  end.
Definition Unmarshal (m : t) (s : string) : outcome t := unmarshal handle (λ b m, set_unrecognized (unrecognized m +:+ b) m) s m.
#[global] Instance codec : Codec t := mkCodec _ Size MarshalToSizedBuffer (mk "" "" "" "") Unmarshal.
#[global, refine] Instance laws : CodecLaws t := { plain m := unrecognized m = "" }.
Proof.
  - unfold fits, c_enc, c_Size, codec, Size, MarshalToSizedBuffer. intros m Hl. size_fields.
  - intros m Hp Hl. unfold fits, c_enc, c_Unmarshal, c_zero, codec, MarshalToSizedBuffer, Unmarshal in *.
    destruct m. cbn [Creator TargetAddr Amount unrecognized] in *. destruct_and?. subst. decode_message.
  - intros m s. apply unmarshal_total. intros. unfold handle. handle_shorter.
Defined.
End MsgBurnStableCoin.

Module MsgBurnModuleStable.
Record t := mk { Creator : string; Amount : string; unrecognized : string }.
Definition set_Creator (v : string) (m : t) : t := let '(mk _ a1 a2) := m in mk v a1 a2.
Definition set_Amount (v : string) (m : t) : t := let '(mk a0 _ a2) := m in mk a0 v a2.
Definition set_unrecognized (v : string) (m : t) : t := let '(mk a0 a1 _) := m in mk a0 a1 v.

Definition MarshalToSizedBuffer (m : t) : string :=
  let i := unrecognized m in
  let i := enc_str 0x12 (Amount m) +:+ i in
  let i := enc_str 0xa (Creator m) +:+ i in
  i.
Definition Size (m : t) : Z :=
  size_str (Creator m) + size_str (Amount m) + slen (unrecognized m).
Definition handle (fieldNum wireType l : Z) (rest : string) (m : t) : option (outcome (t * string)) :=
  match fieldNum with
  | 1 => str_field set_Creator wireType l rest m
  | 2 => str_field set_Amount wireType l rest m
  | _ => None
  end.
Definition Unmarshal (m : t) (s : string) : outcome t := unmarshal handle (λ b m, set_unrecognized (unrecognized m +:+ b) m) s m.
#[global] Instance codec : Codec t := mkCodec _ Size MarshalToSizedBuffer (mk "" "" "") Unmarshal.
#[global, refine] Instance laws : CodecLaws t := { plain m := unrecognized m = "" }.
Proof.
  - unfold fits, c_enc, c_Size, codec, Size, MarshalToSizedBuffer. intros m Hl. size_fields.
  - intros m Hp Hl. unfold fits, c_enc, c_Unmarshal, c_zero, codec, MarshalToSizedBuffer, Unmarshal in *.
    destruct m. cbn [Creator Amount unrecognized] in *. destruct_and?. subst. decode_message.
  - intros m s. apply unmarshal_total. intros. unfold handle. handle_shorter.
Defined.
End MsgBurnModuleStable.

Module MsgRemoveCollateral.
Record t := mk { Creator : string; Amount : string; unrecognized : string }.
Definition set_Creator (v : string) (m : t) : t := let '(mk _ a1 a2) := m in mk v a1 a2.
Definition set_Amount (v : string) (m : t) : t := let '(mk a0 _ a2) := m in mk a0 v a2.
Definition set_unrecognized (v : string) (m : t) : t := let '(mk a0 a1 _) := m in mk a0 a1 v.

Definition MarshalToSizedBuffer (m : t) : string :=
  let i := unrecognized m in
  let i := enc_str 0x12 (Amount m) +:+ i in
  let i := enc_str 0xa (Creator m) +:+ i in
  i.
Definition Size (m : t) : Z :=
  size_str (Creator m) + size_str (Amount m) + slen (unrecognized m).
Definition handle (fieldNum wireType l : Z) (rest : string) (m : t) : option (outcome (t * string)) :=
  match fieldNum with
  | 1 => str_field set_Creator wireType l rest m
  | 2 => str_field set_Amount wireType l rest m
  | _ => None
  end.
Definition Unmarshal (m : t) (s : string) : outcome t := unmarshal handle (λ b m, set_unrecognized (unrecognized m +:+ b) m) s m.
#[global] Instance codec : Codec t := mkCodec _ Size MarshalToSizedBuffer (mk "" "" "") Unmarshal.
#[global, refine] Instance laws : CodecLaws t := { plain m := unrecognized m = "" }.
Proof.
  - unfold fits, c_enc, c_Size, codec, Size, MarshalToSizedBuffer. intros m Hl. size_fields.
  - intros m Hp Hl. unfold fits, c_enc, c_Unmarshal, c_zero, codec, MarshalToSizedBuffer, Unmarshal in *.
    destruct m. cbn [Creator Amount unrecognized] in *. destruct_and?. subst. decode_message.
  - intros m s. apply unmarshal_total. intros. unfold handle. handle_shorter.
Defined.
End MsgRemoveCollateral.

Module MsgAddEnergy.
Record t := mk { Creator : string; To : string; Amount : string; TxHash : string; unrecognized : string }.
Definition set_Creator (v : string) (m : t) : t := let '(mk _ a1 a2 a3 a4) := m in mk v a1 a2 a3 a4.
Definition set_To (v : string) (m : t) : t := let '(mk a0 _ a2 a3 a4) := m in mk a0 v a2 a3 a4.
Definition set_Amount (v : string) (m : t) : t := let '(mk a0 a1 _ a3 a4) := m in mk a0 a1 v a3 a4.
Definition set_TxHash (v : string) (m : t) : t := let '(mk a0 a1 a2 _ a4) := m in mk a0 a1 a2 v a4.
Definition set_unrecognized (v : string) (m : t) : t := let '(mk a0 a1 a2 a3 _) := m in mk a0 a1 a2 a3 v.

Definition MarshalToSizedBuffer (m : t) : string :=
  let i := unrecognized m in
  let i := enc_str 0x22 (TxHash m) +:+ i in
  let i := enc_str 0x1a (Amount m) +:+ i in
  let i := enc_str 0x12 (To m) +:+ i in
  let i := enc_str 0xa (Creator m) +:+ i in
  i.
Definition Size (m : t) : Z :=
  size_str (Creator m) + size_str (To m) + size_str (Amount m) + size_str (TxHash m) + slen (unrecognized m).
Definition handle (fieldNum wireType l : Z) (rest : string) (m : t) : option (outcome (t * string)) :=
  match fieldNum with
  | 1 => str_field set_Creator wireType l rest m
  | 2 => str_field set_To wireType l rest m
  | 3 => str_field set_Amount wireType l rest m
  | 4 => str_field set_TxHash wireType l rest m
  | _ => None
  end.
Definition Unmarshal (m : t) (s : string) : outcome t := unmarshal handle (λ b m, set_unrecognized (unrecognized m +:+ b) m) s m.
#[global] Instance codec : Codec t := mkCodec _ Size MarshalToSizedBuffer (mk "" "" "" "" "") Unmarshal.
#[global, refine] Instance laws : CodecLaws t := { plain m := unrecognized m = "" }.
Proof.
  - unfold fits, c_enc, c_Size, codec, Size, MarshalToSizedBuffer. intros m Hl. size_fields.
  - intros m Hp Hl. unfold fits, c_enc, c_Unmarshal, c_zero, codec, MarshalToSizedBuffer, Unmarshal in *.
    destruct m. cbn [Creator To Amount TxHash unrecognized] in *. destruct_and?. subst. decode_message.
  - intros m s. apply unmarshal_total. intros. unfold handle. handle_shorter.
Defined.
End MsgAddEnergy.

Module MsgCreateRECRecord.
Record t := mk { Creator : string; Count : Z; unrecognized : string }.
Definition set_Creator (v : string) (m : t) : t := let '(mk _ a1 a2) := m in mk v a1 a2.
Definition set_Count (v : Z) (m : t) : t := let '(mk a0 _ a2) := m in mk a0 v a2.
Definition set_unrecognized (v : string) (m : t) : t := let '(mk a0 a1 _) := m in mk a0 a1 v.

Definition MarshalToSizedBuffer (m : t) : string :=
  let i := unrecognized m in
  let i := enc_int64 0x10 (Count m) +:+ i in
  let i := enc_str 0xa (Creator m) +:+ i in
  i.
Definition Size (m : t) : Z :=
  size_str (Creator m) + size_int64 (Count m) + slen (unrecognized m).
Definition handle (fieldNum wireType l : Z) (rest : string) (m : t) : option (outcome (t * string)) :=
  match fieldNum with
  | 1 => str_field set_Creator wireType l rest m
  | 2 => int64_field set_Count wireType rest m
  | _ => None
  end.
Definition Unmarshal (m : t) (s : string) : outcome t := unmarshal handle (λ b m, set_unrecognized (unrecognized m +:+ b) m) s m.
#[global] Instance codec : Codec t := mkCodec _ Size MarshalToSizedBuffer (mk "" 0 "") Unmarshal.
#[global, refine] Instance laws : CodecLaws t := { plain m := is_int64 (Count m) = true ∧ unrecognized m = "" }.
Proof.
  - unfold fits, c_enc, c_Size, codec, Size, MarshalToSizedBuffer. intros m Hl. size_fields.
  - intros m Hp Hl. unfold fits, c_enc, c_Unmarshal, c_zero, codec, MarshalToSizedBuffer, Unmarshal in *.
    destruct m. cbn [Creator Count unrecognized] in *. destruct_and?. subst. decode_message.
  - intros m s. apply unmarshal_total. intros. unfold handle. handle_shorter.
Defined.
End MsgCreateRECRecord.

Module MsgAppendTxHash.
Record t := mk { Creator : string; TxHashes : list string; NodeCreator : string; RecId : string; Next : string; unrecognized : string }.
Definition set_Creator (v : string) (m : t) : t := let '(mk _ a1 a2 a3 a4 a5) := m in mk v a1 a2 a3 a4 a5.
Definition set_TxHashes (v : list string) (m : t) : t := let '(mk a0 _ a2 a3 a4 a5) := m in mk a0 v a2 a3 a4 a5.
Definition set_NodeCreator (v : string) (m : t) : t := let '(mk a0 a1 _ a3 a4 a5) := m in mk a0 a1 v a3 a4 a5.
Definition set_RecId (v : string) (m : t) : t := let '(mk a0 a1 a2 _ a4 a5) := m in mk a0 a1 a2 v a4 a5.
Definition set_Next (v : string) (m : t) : t := let '(mk a0 a1 a2 a3 _ a5) := m in mk a0 a1 a2 a3 v a5.
Definition set_unrecognized (v : string) (m : t) : t := let '(mk a0 a1 a2 a3 a4 _) := m in mk a0 a1 a2 a3 a4 v.

Definition MarshalToSizedBuffer (m : t) : string :=
  let i := unrecognized m in
  let i := enc_str 0x2a (Next m) +:+ i in
  let i := enc_str 0x22 (RecId m) +:+ i in
  let i := enc_str 0x1a (NodeCreator m) +:+ i in
  let i := concat_map (enc_bytes 0x12) (TxHashes m) +:+ i in
  let i := enc_str 0xa (Creator m) +:+ i in
  i.
Definition Size (m : t) : Z :=
  size_str (Creator m) + sum_map size_bytes (TxHashes m) + size_str (NodeCreator m) + size_str (RecId m) + size_str (Next m) + slen (unrecognized m).
Definition handle (fieldNum wireType l : Z) (rest : string) (m : t) : option (outcome (t * string)) :=
  match fieldNum with
  | 1 => str_field set_Creator wireType l rest m
  | 2 => strs_field TxHashes set_TxHashes wireType l rest m
  | 3 => str_field set_NodeCreator wireType l rest m
  | 4 => str_field set_RecId wireType l rest m
  | 5 => str_field set_Next wireType l rest m
  | _ => None
  end.
Definition Unmarshal (m : t) (s : string) : outcome t := unmarshal handle (λ b m, set_unrecognized (unrecognized m +:+ b) m) s m.
#[global] Instance codec : Codec t := mkCodec _ Size MarshalToSizedBuffer (mk "" [] "" "" "" "") Unmarshal.
#[global, refine] Instance laws : CodecLaws t := { plain m := unrecognized m = "" }.
Proof.
  - unfold fits, c_enc, c_Size, codec, Size, MarshalToSizedBuffer. intros m Hl. size_fields.
  - intros m Hp Hl. unfold fits, c_enc, c_Unmarshal, c_zero, codec, MarshalToSizedBuffer, Unmarshal in *.
    destruct m. cbn [Creator TxHashes NodeCreator RecId Next unrecognized] in *. destruct_and?. subst. decode_message.
  - intros m s. apply unmarshal_total. intros. unfold handle. handle_shorter.
Defined.
End MsgAppendTxHash.

(** ** Responses *)

Module MsgAddEnergyResponse.
Record t := mk { Recs : Z; unrecognized : string }.
Definition set_Recs (v : Z) (m : t) : t := let '(mk _ a1) := m in mk v a1.
Definition set_unrecognized (v : string) (m : t) : t := let '(mk a0 _) := m in mk a0 v.

Definition MarshalToSizedBuffer (m : t) : string :=
  let i := unrecognized m in
  let i := enc_int64 0x8 (Recs m) +:+ i in
  i.
Definition Size (m : t) : Z :=
  size_int64 (Recs m) + slen (unrecognized m).
Definition handle (fieldNum wireType l : Z) (rest : string) (m : t) : option (outcome (t * string)) :=
  match fieldNum with
  | 1 => int64_field set_Recs wireType rest m
  | _ => None
  end.
Definition Unmarshal (m : t) (s : string) : outcome t := unmarshal handle (λ b m, set_unrecognized (unrecognized m +:+ b) m) s m.
#[global] Instance codec : Codec t := mkCodec _ Size MarshalToSizedBuffer (mk 0 "") Unmarshal.
#[global, refine] Instance laws : CodecLaws t := { plain m := is_int64 (Recs m) = true ∧ unrecognized m = "" }.
Proof.
  - unfold fits, c_enc, c_Size, codec, Size, MarshalToSizedBuffer. intros m Hl. size_fields.
  - intros m Hp Hl. unfold fits, c_enc, c_Unmarshal, c_zero, codec, MarshalToSizedBuffer, Unmarshal in *.
    destruct m. cbn [Recs unrecognized] in *. destruct_and?. subst. decode_message.
  - intros m s. apply unmarshal_total. intros. unfold handle. handle_shorter.
Defined.
End MsgAddEnergyResponse.

Module MsgCreateRECRecordResponse.
Record t := mk { RecIds : list string; unrecognized : string }.
Definition set_RecIds (v : list string) (m : t) : t := let '(mk _ a1) := m in mk v a1.
Definition set_unrecognized (v : string) (m : t) : t := let '(mk a0 _) := m in mk a0 v.

Definition MarshalToSizedBuffer (m : t) : string :=
  let i := unrecognized m in
  let i := concat_map (enc_bytes 0xa) (RecIds m) +:+ i in
  i.
Definition Size (m : t) : Z :=
  sum_map size_bytes (RecIds m) + slen (unrecognized m).
Definition handle (fieldNum wireType l : Z) (rest : string) (m : t) : option (outcome (t * string)) :=
  match fieldNum with
  | 1 => strs_field RecIds set_RecIds wireType l rest m
  | _ => None
  end.
Definition Unmarshal (m : t) (s : string) : outcome t := unmarshal handle (λ b m, set_unrecognized (unrecognized m +:+ b) m) s m.
#[global] Instance codec : Codec t := mkCodec _ Size MarshalToSizedBuffer (mk [] "") Unmarshal.
#[global, refine] Instance laws : CodecLaws t := { plain m := unrecognized m = "" }.
Proof.
  - unfold fits, c_enc, c_Size, codec, Size, MarshalToSizedBuffer. intros m Hl. size_fields.
  - intros m Hp Hl. unfold fits, c_enc, c_Unmarshal, c_zero, codec, MarshalToSizedBuffer, Unmarshal in *.
    destruct m. cbn [RecIds unrecognized] in *. destruct_and?. subst. decode_message.
  - intros m s. apply unmarshal_total. intros. unfold handle. handle_shorter.
Defined.
End MsgCreateRECRecordResponse.

Module TxNodeTx.
Record t := mk { TxHashes : list string; Creator : string; RecId : string; Next : string; unrecognized : string }.
Definition set_TxHashes (v : list string) (m : t) : t := let '(mk _ a1 a2 a3 a4) := m in mk v a1 a2 a3 a4.
Definition set_Creator (v : string) (m : t) : t := let '(mk a0 _ a2 a3 a4) := m in mk a0 v a2 a3 a4.
Definition set_RecId (v : string) (m : t) : t := let '(mk a0 a1 _ a3 a4) := m in mk a0 a1 v a3 a4.
Definition set_Next (v : string) (m : t) : t := let '(mk a0 a1 a2 _ a4) := m in mk a0 a1 a2 v a4.
Definition set_unrecognized (v : string) (m : t) : t := let '(mk a0 a1 a2 a3 _) := m in mk a0 a1 a2 a3 v.

Definition MarshalToSizedBuffer (m : t) : string :=
  let i := unrecognized m in
  let i := enc_str 0x22 (Next m) +:+ i in
  let i := enc_str 0x1a (RecId m) +:+ i in
  let i := enc_str 0x12 (Creator m) +:+ i in
  let i := concat_map (enc_bytes 0xa) (TxHashes m) +:+ i in
  i.
Definition Size (m : t) : Z :=
  sum_map size_bytes (TxHashes m) + size_str (Creator m) + size_str (RecId m) + size_str (Next m) + slen (unrecognized m).
Definition handle (fieldNum wireType l : Z) (rest : string) (m : t) : option (outcome (t * string)) :=
  match fieldNum with
  | 1 => strs_field TxHashes set_TxHashes wireType l rest m
  | 2 => str_field set_Creator wireType l rest m
  | 3 => str_field set_RecId wireType l rest m
  | 4 => str_field set_Next wireType l rest m
  | _ => None
  end.
Definition Unmarshal (m : t) (s : string) : outcome t := unmarshal handle (λ b m, set_unrecognized (unrecognized m +:+ b) m) s m.
#[global] Instance codec : Codec t := mkCodec _ Size MarshalToSizedBuffer (mk [] "" "" "" "") Unmarshal.
#[global, refine] Instance laws : CodecLaws t := { plain m := unrecognized m = "" }.
Proof.
  - unfold fits, c_enc, c_Size, codec, Size, MarshalToSizedBuffer. intros m Hl. size_fields.
  - intros m Hp Hl. unfold fits, c_enc, c_Unmarshal, c_zero, codec, MarshalToSizedBuffer, Unmarshal in *.
    destruct m. cbn [TxHashes Creator RecId Next unrecognized] in *. destruct_and?. subst. decode_message.
  - intros m s. apply unmarshal_total. intros. unfold handle. handle_shorter.
Defined.
End TxNodeTx.

Module MsgAppendTxHashResponse.
Record t := mk { Node : option TxNodeTx.t; unrecognized : string }.
Definition set_Node (v : option TxNodeTx.t) (m : t) : t := let '(mk _ a1) := m in mk v a1.
Definition set_unrecognized (v : string) (m : t) : t := let '(mk a0 _) := m in mk a0 v.

Definition MarshalToSizedBuffer (m : t) : string :=
  let i := unrecognized m in
  let i := enc_opt 0xa (Node m) +:+ i in
  i.
Definition Size (m : t) : Z :=
  size_opt (Node m) + slen (unrecognized m).
Definition handle (fieldNum wireType l : Z) (rest : string) (m : t) : option (outcome (t * string)) :=
  match fieldNum with
  | 1 => ptr_field Node set_Node wireType l rest m
  | _ => None
  end.
Definition Unmarshal (m : t) (s : string) : outcome t := unmarshal handle (λ b m, set_unrecognized (unrecognized m +:+ b) m) s m.
#[global] Instance codec : Codec t := mkCodec _ Size MarshalToSizedBuffer (mk None "") Unmarshal.
#[global, refine] Instance laws : CodecLaws t := { plain m := from_option plain True (Node m) ∧ unrecognized m = "" }.
Proof.
  - unfold fits, c_enc, c_Size, codec, Size, MarshalToSizedBuffer. intros m Hl. size_fields.
  - intros m Hp Hl. unfold fits, c_enc, c_Unmarshal, c_zero, codec, MarshalToSizedBuffer, Unmarshal in *.
    destruct m. cbn [Node unrecognized] in *. destruct_and?. subst. decode_message.
  - intros m s. apply unmarshal_total. intros. unfold handle. handle_shorter.
Defined.
End MsgAppendTxHashResponse.

Module MsgDistributeRewardPercentResponse.
Record t := mk { RewardedAmount : string; unrecognized : string }.
Definition set_RewardedAmount (v : string) (m : t) : t := let '(mk _ a1) := m in mk v a1.
Definition set_unrecognized (v : string) (m : t) : t := let '(mk a0 _) := m in mk a0 v.

Definition MarshalToSizedBuffer (m : t) : string :=
  let i := unrecognized m in
  let i := enc_str 0xa (RewardedAmount m) +:+ i in
  i.
Definition Size (m : t) : Z :=
  size_str (RewardedAmount m) + slen (unrecognized m).
Definition handle (fieldNum wireType l : Z) (rest : string) (m : t) : option (outcome (t * string)) :=
  match fieldNum with
  | 1 => str_field set_RewardedAmount wireType l rest m
  | _ => None
  end.
Definition Unmarshal (m : t) (s : string) : outcome t := unmarshal handle (λ b m, set_unrecognized (unrecognized m +:+ b) m) s m.
#[global] Instance codec : Codec t := mkCodec _ Size MarshalToSizedBuffer (mk "" "") Unmarshal.
#[global, refine] Instance laws : CodecLaws t := { plain m := unrecognized m = "" }.
Proof.
  - unfold fits, c_enc, c_Size, codec, Size, MarshalToSizedBuffer. intros m Hl. size_fields.
  - intros m Hp Hl. unfold fits, c_enc, c_Unmarshal, c_zero, codec, MarshalToSizedBuffer, Unmarshal in *.
    destruct m. cbn [RewardedAmount unrecognized] in *. destruct_and?. subst. decode_message.
  - intros m s. apply unmarshal_total. intros. unfold handle. handle_shorter.
Defined.
End MsgDistributeRewardPercentResponse.

Module MsgRemoveCollateralResponse.
Record t := mk { unrecognized : string }.
Definition set_unrecognized (v : string) (m : t) : t := let '(mk _) := m in mk v.

Definition MarshalToSizedBuffer (m : t) : string :=
  let i := unrecognized m in
  i.
Definition Size (m : t) : Z :=
  slen (unrecognized m).
Definition handle (fieldNum wireType l : Z) (rest : string) (m : t) : option (outcome (t * string)) :=
  match fieldNum with
  | _ => None
  end.
Definition Unmarshal (m : t) (s : string) : outcome t := unmarshal handle (λ b m, set_unrecognized (unrecognized m +:+ b) m) s m.
#[global] Instance codec : Codec t := mkCodec _ Size MarshalToSizedBuffer (mk "") Unmarshal.
#[global, refine] Instance laws : CodecLaws t := { plain m := unrecognized m = "" }.
Proof.
  - unfold fits, c_enc, c_Size, codec, Size, MarshalToSizedBuffer. intros m Hl. size_fields.
  - intros m Hp Hl. unfold fits, c_enc, c_Unmarshal, c_zero, codec, MarshalToSizedBuffer, Unmarshal in *.
    destruct m. cbn [unrecognized] in *. destruct_and?. subst. decode_message.
  - intros m s. apply unmarshal_total. intros. unfold handle. handle_shorter.
Defined.
End MsgRemoveCollateralResponse.

Module MsgRewardSolarPowerResponse.
Record t := mk { unrecognized : string }.
Definition set_unrecognized (v : string) (m : t) : t := let '(mk _) := m in mk v.

Definition MarshalToSizedBuffer (m : t) : string :=
  let i := unrecognized m in
  i.
Definition Size (m : t) : Z :=
  slen (unrecognized m).
Definition handle (fieldNum wireType l : Z) (rest : string) (m : t) : option (outcome (t * string)) :=
  match fieldNum with
  | _ => None
  end.
Definition Unmarshal (m : t) (s : string) : outcome t := unmarshal handle (λ b m, set_unrecognized (unrecognized m +:+ b) m) s m.
#[global] Instance codec : Codec t := mkCodec _ Size MarshalToSizedBuffer (mk "") Unmarshal.
#[global, refine] Instance laws : CodecLaws t := { plain m := unrecognized m = "" }.
Proof.
  - unfold fits, c_enc, c_Size, codec, Size, MarshalToSizedBuffer. intros m Hl. size_fields.
  - intros m Hp Hl. unfold fits, c_enc, c_Unmarshal, c_zero, codec, MarshalToSizedBuffer, Unmarshal in *.
    destruct m. cbn [unrecognized] in *. destruct_and?. subst. decode_message.
  - intros m s. apply unmarshal_total. intros. unfold handle. handle_shorter.
Defined.
End MsgRewardSolarPowerResponse.

Module MsgBurnStableCoinResponse.
Record t := mk { RecRecords : list RECRecord; RecMetas : list RECMeta; unrecognized : string }.
Definition set_RecRecords (v : list RECRecord) (m : t) : t := let '(mk _ a1 a2) := m in mk v a1 a2.
Definition set_RecMetas (v : list RECMeta) (m : t) : t := let '(mk a0 _ a2) := m in mk a0 v a2.
Definition set_unrecognized (v : string) (m : t) : t := let '(mk a0 a1 _) := m in mk a0 a1 v.

Definition MarshalToSizedBuffer (m : t) : string :=
  let i := unrecognized m in
  let i := concat_map (enc_msg 0x12) (RecMetas m) +:+ i in
  let i := concat_map (enc_msg 0xa) (RecRecords m) +:+ i in
  i.
Definition Size (m : t) : Z :=
  sum_map size_msg (RecRecords m) + sum_map size_msg (RecMetas m) + slen (unrecognized m).
Definition handle (fieldNum wireType l : Z) (rest : string) (m : t) : option (outcome (t * string)) :=
  match fieldNum with
  | 1 => msgs_field RecRecords set_RecRecords wireType l rest m
  | 2 => msgs_field RecMetas set_RecMetas wireType l rest m
  | _ => None
  end.
Definition Unmarshal (m : t) (s : string) : outcome t := unmarshal handle (λ b m, set_unrecognized (unrecognized m +:+ b) m) s m.
#[global] Instance codec : Codec t := mkCodec _ Size MarshalToSizedBuffer (mk [] [] "") Unmarshal.
#[global, refine] Instance laws : CodecLaws t := { plain m := Forall plain (RecRecords m) ∧ Forall plain (RecMetas m) ∧ unrecognized m = "" }.
Proof.
  - unfold fits, c_enc, c_Size, codec, Size, MarshalToSizedBuffer. intros m Hl. size_fields.
  - intros m Hp Hl. unfold fits, c_enc, c_Unmarshal, c_zero, codec, MarshalToSizedBuffer, Unmarshal in *.
    destruct m. cbn [RecRecords RecMetas unrecognized] in *. destruct_and?. subst. decode_message.
  - intros m s. apply unmarshal_total. intros. unfold handle. handle_shorter.
Defined.
End MsgBurnStableCoinResponse.

Module MsgDepositCollateralResponse.
Record t := mk { unrecognized : string }.
Definition set_unrecognized (v : string) (m : t) : t := let '(mk _) := m in mk v.

Definition MarshalToSizedBuffer (m : t) : string :=
  let i := unrecognized m in
  i.
Definition Size (m : t) : Z :=
  slen (unrecognized m).
Definition handle (fieldNum wireType l : Z) (rest : string) (m : t) : option (outcome (t * string)) :=
  match fieldNum with
  | _ => None
  end.
Definition Unmarshal (m : t) (s : string) : outcome t := unmarshal handle (λ b m, set_unrecognized (unrecognized m +:+ b) m) s m.
#[global] Instance codec : Codec t := mkCodec _ Size MarshalToSizedBuffer (mk "") Unmarshal.
#[global, refine] Instance laws : CodecLaws t := { plain m := unrecognized m = "" }.
Proof.
  - unfold fits, c_enc, c_Size, codec, Size, MarshalToSizedBuffer. intros m Hl. size_fields.
  - intros m Hp Hl. unfold fits, c_enc, c_Unmarshal, c_zero, codec, MarshalToSizedBuffer, Unmarshal in *.
    destruct m. cbn [unrecognized] in *. destruct_and?. subst. decode_message.
  - intros m s. apply unmarshal_total. intros. unfold handle. handle_shorter.
Defined.
End MsgDepositCollateralResponse.

Module MsgBurnModuleStableResponse.
Record t := mk { BurnedAmount : string; unrecognized : string }.
Definition set_BurnedAmount (v : string) (m : t) : t := let '(mk _ a1) := m in mk v a1.
Definition set_unrecognized (v : string) (m : t) : t := let '(mk a0 _) := m in mk a0 v.

Definition MarshalToSizedBuffer (m : t) : string :=
  let i := unrecognized m in
  let i := enc_str 0xa (BurnedAmount m) +:+ i in
  i.
Definition Size (m : t) : Z :=
  size_str (BurnedAmount m) + slen (unrecognized m).
Definition handle (fieldNum wireType l : Z) (rest : string) (m : t) : option (outcome (t * string)) :=
  match fieldNum with
  | 1 => str_field set_BurnedAmount wireType l rest m
  | _ => None
  end.
Definition Unmarshal (m : t) (s : string) : outcome t := unmarshal handle (λ b m, set_unrecognized (unrecognized m +:+ b) m) s m.
#[global] Instance codec : Codec t := mkCodec _ Size MarshalToSizedBuffer (mk "" "") Unmarshal.
#[global, refine] Instance laws : CodecLaws t := { plain m := unrecognized m = "" }.
Proof.
  - unfold fits, c_enc, c_Size, codec, Size, MarshalToSizedBuffer. intros m Hl. size_fields.
  - intros m Hp Hl. unfold fits, c_enc, c_Unmarshal, c_zero, codec, MarshalToSizedBuffer, Unmarshal in *.
    destruct m. cbn [BurnedAmount unrecognized] in *. destruct_and?. subst. decode_message.
  - intros m s. apply unmarshal_total. intros. unfold handle. handle_shorter.
Defined.
End MsgBurnModuleStableResponse.

(** ** Queries *)

Module Collateral.
Record t := mk { Amount : string; unrecognized : string }.
Definition set_Amount (v : string) (m : t) : t := let '(mk _ a1) := m in mk v a1.
Definition set_unrecognized (v : string) (m : t) : t := let '(mk a0 _) := m in mk a0 v.

Definition MarshalToSizedBuffer (m : t) : string :=
  let i := unrecognized m in
  let i := enc_str 0xa (Amount m) +:+ i in
  i.
Definition Size (m : t) : Z :=
  size_str (Amount m) + slen (unrecognized m).
Definition handle (fieldNum wireType l : Z) (rest : string) (m : t) : option (outcome (t * string)) :=
  match fieldNum with
  | 1 => str_field set_Amount wireType l rest m
  | _ => None
  end.
Definition Unmarshal (m : t) (s : string) : outcome t := unmarshal handle (λ b m, set_unrecognized (unrecognized m +:+ b) m) s m.
#[global] Instance codec : Codec t := mkCodec _ Size MarshalToSizedBuffer (mk "" "") Unmarshal.
#[global, refine] Instance laws : CodecLaws t := { plain m := unrecognized m = "" }.
Proof.
  - unfold fits, c_enc, c_Size, codec, Size, MarshalToSizedBuffer. intros m Hl. size_fields.
  - intros m Hp Hl. unfold fits, c_enc, c_Unmarshal, c_zero, codec, MarshalToSizedBuffer, Unmarshal in *.
    destruct m. cbn [Amount unrecognized] in *. destruct_and?. subst. decode_message.
  - intros m s. apply unmarshal_total. intros. unfold handle. handle_shorter.
Defined.
End Collateral.

Module QueryCollateralRequest.
Record t := mk { unrecognized : string }.
Definition set_unrecognized (v : string) (m : t) : t := let '(mk _) := m in mk v.

Definition MarshalToSizedBuffer (m : t) : string :=
  let i := unrecognized m in
  i.
Definition Size (m : t) : Z :=
  slen (unrecognized m).
Definition handle (fieldNum wireType l : Z) (rest : string) (m : t) : option (outcome (t * string)) :=
  match fieldNum with
  | _ => None
  end.
Definition Unmarshal (m : t) (s : string) : outcome t := unmarshal handle (λ b m, set_unrecognized (unrecognized m +:+ b) m) s m.
#[global] Instance codec : Codec t := mkCodec _ Size MarshalToSizedBuffer (mk "") Unmarshal.
#[global, refine] Instance laws : CodecLaws t := { plain m := unrecognized m = "" }.
Proof.
  - unfold fits, c_enc, c_Size, codec, Size, MarshalToSizedBuffer. intros m Hl. size_fields.
  - intros m Hp Hl. unfold fits, c_enc, c_Unmarshal, c_zero, codec, MarshalToSizedBuffer, Unmarshal in *.
    destruct m. cbn [unrecognized] in *. destruct_and?. subst. decode_message.
  - intros m s. apply unmarshal_total. intros. unfold handle. handle_shorter.
Defined.
End QueryCollateralRequest.

Module QueryCollateralResponse.
Record t := mk { TotalAmount : string; unrecognized : string }.
Definition set_TotalAmount (v : string) (m : t) : t := let '(mk _ a1) := m in mk v a1.
Definition set_unrecognized (v : string) (m : t) : t := let '(mk a0 _) := m in mk a0 v.

Definition MarshalToSizedBuffer (m : t) : string :=
  let i := unrecognized m in
  let i := enc_str 0xa (TotalAmount m) +:+ i in
  i.
Definition Size (m : t) : Z :=
  size_str (TotalAmount m) + slen (unrecognized m).
Definition handle (fieldNum wireType l : Z) (rest : string) (m : t) : option (outcome (t * string)) :=
  match fieldNum with
  | 1 => str_field set_TotalAmount wireType l rest m
  | _ => None
  end.
Definition Unmarshal (m : t) (s : string) : outcome t := unmarshal handle (λ b m, set_unrecognized (unrecognized m +:+ b) m) s m.
#[global] Instance codec : Codec t := mkCodec _ Size MarshalToSizedBuffer (mk "" "") Unmarshal.
#[global, refine] Instance laws : CodecLaws t := { plain m := unrecognized m = "" }.
Proof.
  - unfold fits, c_enc, c_Size, codec, Size, MarshalToSizedBuffer. intros m Hl. size_fields.
  - intros m Hp Hl. unfold fits, c_enc, c_Unmarshal, c_zero, codec, MarshalToSizedBuffer, Unmarshal in *.
    destruct m. cbn [TotalAmount unrecognized] in *. destruct_and?. subst. decode_message.
  - intros m s. apply unmarshal_total. intros. unfold handle. handle_shorter.
Defined.
End QueryCollateralResponse.

Module QuerySupplyRequest.
Record t := mk { unrecognized : string }.
Definition set_unrecognized (v : string) (m : t) : t := let '(mk _) := m in mk v.

Definition MarshalToSizedBuffer (m : t) : string :=
  let i := unrecognized m in
  i.
Definition Size (m : t) : Z :=
  slen (unrecognized m).
Definition handle (fieldNum wireType l : Z) (rest : string) (m : t) : option (outcome (t * string)) :=
  match fieldNum with
  | _ => None
  end.
Definition Unmarshal (m : t) (s : string) : outcome t := unmarshal handle (λ b m, set_unrecognized (unrecognized m +:+ b) m) s m.
#[global] Instance codec : Codec t := mkCodec _ Size MarshalToSizedBuffer (mk "") Unmarshal.
#[global, refine] Instance laws : CodecLaws t := { plain m := unrecognized m = "" }.
Proof.
  - unfold fits, c_enc, c_Size, codec, Size, MarshalToSizedBuffer. intros m Hl. size_fields.
  - intros m Hp Hl. unfold fits, c_enc, c_Unmarshal, c_zero, codec, MarshalToSizedBuffer, Unmarshal in *.
    destruct m. cbn [unrecognized] in *. destruct_and?. subst. decode_message.
  - intros m s. apply unmarshal_total. intros. unfold handle. handle_shorter.
Defined.
End QuerySupplyRequest.

Module QuerySupplyResponse.
Record t := mk { Supply : Proto.Supply; unrecognized : string }.
Definition set_Supply (v : Proto.Supply) (m : t) : t := let '(mk _ a1) := m in mk v a1.
Definition set_unrecognized (v : string) (m : t) : t := let '(mk a0 _) := m in mk a0 v.

Definition MarshalToSizedBuffer (m : t) : string :=
  let i := unrecognized m in
  let i := enc_msg 0xa (Supply m) +:+ i in
  i.
Definition Size (m : t) : Z :=
  size_msg (Supply m) + slen (unrecognized m).
Definition handle (fieldNum wireType l : Z) (rest : string) (m : t) : option (outcome (t * string)) :=
  match fieldNum with
  | 1 => struct_field Supply set_Supply wireType l rest m
  | _ => None
  end.
Definition Unmarshal (m : t) (s : string) : outcome t := unmarshal handle (λ b m, set_unrecognized (unrecognized m +:+ b) m) s m.
#[global] Instance codec : Codec t := mkCodec _ Size MarshalToSizedBuffer (mk c_zero "") Unmarshal.
#[global, refine] Instance laws : CodecLaws t := { plain m := plain (Supply m) ∧ unrecognized m = "" }.
Proof.
  - unfold fits, c_enc, c_Size, codec, Size, MarshalToSizedBuffer. intros m Hl. size_fields.
  - intros m Hp Hl. unfold fits, c_enc, c_Unmarshal, c_zero, codec, MarshalToSizedBuffer, Unmarshal in *.
    destruct m. cbn [Supply unrecognized] in *. destruct_and?. subst. decode_message.
  - intros m s. apply unmarshal_total. intros. unfold handle. handle_shorter.
Defined.
End QuerySupplyResponse.

Module QueryRECListRequest.
Record t := mk { unrecognized : string }.
Definition set_unrecognized (v : string) (m : t) : t := let '(mk _) := m in mk v.

Definition MarshalToSizedBuffer (m : t) : string :=
  let i := unrecognized m in
  i.
Definition Size (m : t) : Z :=
  slen (unrecognized m).
Definition handle (fieldNum wireType l : Z) (rest : string) (m : t) : option (outcome (t * string)) :=
  match fieldNum with
  | _ => None
  end.
Definition Unmarshal (m : t) (s : string) : outcome t := unmarshal handle (λ b m, set_unrecognized (unrecognized m +:+ b) m) s m.
#[global] Instance codec : Codec t := mkCodec _ Size MarshalToSizedBuffer (mk "") Unmarshal.
#[global, refine] Instance laws : CodecLaws t := { plain m := unrecognized m = "" }.
Proof.
  - unfold fits, c_enc, c_Size, codec, Size, MarshalToSizedBuffer. intros m Hl. size_fields.
  - intros m Hp Hl. unfold fits, c_enc, c_Unmarshal, c_zero, codec, MarshalToSizedBuffer, Unmarshal in *.
    destruct m. cbn [unrecognized] in *. destruct_and?. subst. decode_message.
  - intros m s. apply unmarshal_total. intros. unfold handle. handle_shorter.
Defined.
End QueryRECListRequest.

Module QueryRECListResponse.
Record t := mk { RecRecords : list RECRecord; RecMetas : list RECMeta; unrecognized : string }.
Definition set_RecRecords (v : list RECRecord) (m : t) : t := let '(mk _ a1 a2) := m in mk v a1 a2.
Definition set_RecMetas (v : list RECMeta) (m : t) : t := let '(mk a0 _ a2) := m in mk a0 v a2.
Definition set_unrecognized (v : string) (m : t) : t := let '(mk a0 a1 _) := m in mk a0 a1 v.

Definition MarshalToSizedBuffer (m : t) : string :=
  let i := unrecognized m in
  let i := concat_map (enc_msg 0x12) (RecMetas m) +:+ i in
  let i := concat_map (enc_msg 0xa) (RecRecords m) +:+ i in
  i.
Definition Size (m : t) : Z :=
  sum_map size_msg (RecRecords m) + sum_map size_msg (RecMetas m) + slen (unrecognized m).
Definition handle (fieldNum wireType l : Z) (rest : string) (m : t) : option (outcome (t * string)) :=
  match fieldNum with
  | 1 => msgs_field RecRecords set_RecRecords wireType l rest m
  | 2 => msgs_field RecMetas set_RecMetas wireType l rest m
  | _ => None
  end.
Definition Unmarshal (m : t) (s : string) : outcome t := unmarshal handle (λ b m, set_unrecognized (unrecognized m +:+ b) m) s m.
#[global] Instance codec : Codec t := mkCodec _ Size MarshalToSizedBuffer (mk [] [] "") Unmarshal.
#[global, refine] Instance laws : CodecLaws t := { plain m := Forall plain (RecRecords m) ∧ Forall plain (RecMetas m) ∧ unrecognized m = "" }.
Proof.
  - unfold fits, c_enc, c_Size, codec, Size, MarshalToSizedBuffer. intros m Hl. size_fields.
  - intros m Hp Hl. unfold fits, c_enc, c_Unmarshal, c_zero, codec, MarshalToSizedBuffer, Unmarshal in *.
    destruct m. cbn [RecRecords RecMetas unrecognized] in *. destruct_and?. subst. decode_message.
  - intros m s. apply unmarshal_total. intros. unfold handle. handle_shorter.
Defined.
End QueryRECListResponse.

Module QueryTxNodeListRequest.
Record t := mk { unrecognized : string }.
Definition set_unrecognized (v : string) (m : t) : t := let '(mk _) := m in mk v.

Definition MarshalToSizedBuffer (m : t) : string :=
  let i := unrecognized m in
  i.
Definition Size (m : t) : Z :=
  slen (unrecognized m).
Definition handle (fieldNum wireType l : Z) (rest : string) (m : t) : option (outcome (t * string)) :=
  match fieldNum with
  | _ => None
  end.
Definition Unmarshal (m : t) (s : string) : outcome t := unmarshal handle (λ b m, set_unrecognized (unrecognized m +:+ b) m) s m.
#[global] Instance codec : Codec t := mkCodec _ Size MarshalToSizedBuffer (mk "") Unmarshal.
#[global, refine] Instance laws : CodecLaws t := { plain m := unrecognized m = "" }.
Proof.
  - unfold fits, c_enc, c_Size, codec, Size, MarshalToSizedBuffer. intros m Hl. size_fields.
  - intros m Hp Hl. unfold fits, c_enc, c_Unmarshal, c_zero, codec, MarshalToSizedBuffer, Unmarshal in *.
    destruct m. cbn [unrecognized] in *. destruct_and?. subst. decode_message.
  - intros m s. apply unmarshal_total. intros. unfold handle. handle_shorter.
Defined.
End QueryTxNodeListRequest.

Module QueryTxNodeListResponse.
Record t := mk { Nodes : list TxNodeTx.t; unrecognized : string }.
Definition set_Nodes (v : list TxNodeTx.t) (m : t) : t := let '(mk _ a1) := m in mk v a1.
Definition set_unrecognized (v : string) (m : t) : t := let '(mk a0 _) := m in mk a0 v.

Definition MarshalToSizedBuffer (m : t) : string :=
  let i := unrecognized m in
  let i := concat_map (enc_msg 0xa) (Nodes m) +:+ i in
  i.
Definition Size (m : t) : Z :=
  sum_map size_msg (Nodes m) + slen (unrecognized m).
Definition handle (fieldNum wireType l : Z) (rest : string) (m : t) : option (outcome (t * string)) :=
  match fieldNum with
  | 1 => msgs_field Nodes set_Nodes wireType l rest m
  | _ => None
  end.
Definition Unmarshal (m : t) (s : string) : outcome t := unmarshal handle (λ b m, set_unrecognized (unrecognized m +:+ b) m) s m.
#[global] Instance codec : Codec t := mkCodec _ Size MarshalToSizedBuffer (mk [] "") Unmarshal.
#[global, refine] Instance laws : CodecLaws t := { plain m := Forall plain (Nodes m) ∧ unrecognized m = "" }.
Proof.
  - unfold fits, c_enc, c_Size, codec, Size, MarshalToSizedBuffer. intros m Hl. size_fields.
  - intros m Hp Hl. unfold fits, c_enc, c_Unmarshal, c_zero, codec, MarshalToSizedBuffer, Unmarshal in *.
    destruct m. cbn [Nodes unrecognized] in *. destruct_and?. subst. decode_message.
  - intros m s. apply unmarshal_total. intros. unfold handle. handle_shorter.
Defined.
End QueryTxNodeListResponse.

(** ** MsgDepositCollateral, with its oneof *)

Module MsgDepositCollateral.
Record t := mk { Creator : string; RecType : option Reward.RecType; unrecognized : string }.
Definition set_Creator (v : string) (m : t) : t := let '(mk _ a1 a2) := m in mk v a1 a2.
Definition set_RecType (v : option Reward.RecType) (m : t) : t := let '(mk a0 _ a2) := m in mk a0 v a2.
Definition set_unrecognized (v : string) (m : t) : t := let '(mk a0 a1 _) := m in mk a0 a1 v.

Definition RecType_MarshalTo (r : Reward.RecType) : string :=
  match r with
  | Reward.RecRecord r => enc_msg 0x12 r
  | Reward.RecMeta r => enc_msg 0x1a r
  end.
Definition RecType_Size (r : Reward.RecType) : Z :=
  match r with Reward.RecRecord r => size_msg r | Reward.RecMeta r => size_msg r end.

Definition MarshalToSizedBuffer (m : t) : string :=
  let i := unrecognized m in
  let i := match RecType m with Some r => RecType_MarshalTo r | None => "" end +:+ i in
  let i := enc_str 0xa (Creator m) +:+ i in
  i.
Definition Size (m : t) : Z :=
  size_str (Creator m) + match RecType m with Some r => RecType_Size r | None => 0 end + slen (unrecognized m).
Definition handle (fieldNum wireType l : Z) (rest : string) (m : t) : option (outcome (t * string)) :=
  match fieldNum with
  | 1 => str_field set_Creator wireType l rest m
  | 2 => one_field (λ r, set_RecType (Some (Reward.RecRecord r))) wireType l rest m
  | 3 => one_field (λ r, set_RecType (Some (Reward.RecMeta r))) wireType l rest m
  | _ => None
  end.
Definition Unmarshal (m : t) (s : string) : outcome t :=
  unmarshal handle (λ b m, set_unrecognized (unrecognized m +:+ b) m) s m.
#[global] Instance codec : Codec t := mkCodec _ Size MarshalToSizedBuffer (mk "" None "") Unmarshal.

Definition plain_rec (r : Reward.RecType) : Prop :=
  match r with Reward.RecRecord r => plain r | Reward.RecMeta r => plain r end.
#[global, refine] Instance laws : CodecLaws t :=
  { plain m := from_option plain_rec True (RecType m) ∧ unrecognized m = "" }.
Proof.
  - unfold fits, c_enc, c_Size, codec, Size, MarshalToSizedBuffer, RecType_Size, RecType_MarshalTo.
    intros [c [[r|r]|] u] Hl; cbn [Creator RecType unrecognized] in *; size_fields.
  - intros m Hp Hl. unfold fits, c_enc, c_Unmarshal, c_zero, codec, MarshalToSizedBuffer, Unmarshal in *.
    destruct m as [c [[r|r]|] u]; cbn [Creator RecType unrecognized RecType_MarshalTo from_option plain_rec] in *;
      destruct Hp as [Hp ->]; rewrite ?app_empty in *; decode_message.
  - intros m s. apply unmarshal_total. intros. unfold handle. handle_shorter.
Defined.
End MsgDepositCollateral.
