(* ===== verification/Descriptors.v ===== *)
(** * The message types of transactions, as unknownproto sees them

    The fields of the file descriptors embedded in the generated code of
    types/tx, types, crypto, x/bank, x/feegrant, x/mapping and x/reward, and
    that nothing unknown is found in what their [Marshal] writes. *)

From Stdlib Require Import ZArith Lia Ascii String.
From stdpp Require Import base tactics option list gmap strings.
From S2P Require Import Prelude GoStd Digits SdkInt Wire Proto WireMsg SdkMsgs TxProto Unknown Reward RewardMsgs.

Local Open Scope Z_scope.

Module Descriptors.
Import Wire WireMsg Unknown.

(** ** The field descriptors *)

Definition secp256k1_PubKey_md : list FieldDescriptor :=
  [mkField 1 TYPE_BYTES ""].
Definition ed25519_PubKey_md : list FieldDescriptor :=
  [mkField 1 TYPE_BYTES ""].
Definition LegacyAminoPubKey_md : list FieldDescriptor :=
  [mkField 1 TYPE_UINT32 ""; mkField 2 TYPE_MESSAGE ".google.protobuf.Any"].
Definition CompactBitArray_md : list FieldDescriptor :=
  [mkField 1 TYPE_UINT32 ""; mkField 2 TYPE_BYTES ""].
Definition ModeInfo_Single_md : list FieldDescriptor :=
  [mkField 1 TYPE_ENUM ".cosmos.tx.signing.v1beta1.SignMode"].
Definition SignerInfo_md : list FieldDescriptor :=
  [mkField 1 TYPE_MESSAGE ".google.protobuf.Any"; 
   mkField 2 TYPE_MESSAGE ".cosmos.tx.v1beta1.ModeInfo"; mkField 3 TYPE_UINT64 ""].
Definition Fee_md : list FieldDescriptor :=
  [mkField 1 TYPE_MESSAGE ".cosmos.base.v1beta1.Coin"; mkField 2 TYPE_UINT64 ""; 
   mkField 3 TYPE_STRING ""; mkField 4 TYPE_STRING ""].
Definition AuthInfo_md : list FieldDescriptor :=
  [mkField 1 TYPE_MESSAGE ".cosmos.tx.v1beta1.SignerInfo"; 
   mkField 2 TYPE_MESSAGE ".cosmos.tx.v1beta1.Fee"].
Definition TxBody_md : list FieldDescriptor :=
  [mkField 1 TYPE_MESSAGE ".google.protobuf.Any"; mkField 2 TYPE_STRING ""; 
   mkField 3 TYPE_UINT64 ""; mkField 1023 TYPE_MESSAGE ".google.protobuf.Any"; 
   mkField 2047 TYPE_MESSAGE ".google.protobuf.Any"].
Definition MsgSend_md : list FieldDescriptor :=
  [mkField 1 TYPE_STRING ""; mkField 2 TYPE_STRING ""; 
   mkField 3 TYPE_MESSAGE ".cosmos.base.v1beta1.Coin"].
Definition MsgRegisterDevice_md : list FieldDescriptor :=
  [mkField 1 TYPE_STRING ""; mkField 2 TYPE_STRING ""; mkField 3 TYPE_STRING ""].
Definition MsgGrantAllowance_md : list FieldDescriptor :=
  [mkField 1 TYPE_STRING ""; mkField 2 TYPE_STRING ""; 
   mkField 3 TYPE_MESSAGE ".google.protobuf.Any"].
Definition MsgRevokeAllowance_md : list FieldDescriptor :=
  [mkField 1 TYPE_STRING ""; mkField 2 TYPE_STRING ""].
Definition MsgDistributeRewardPercent_md : list FieldDescriptor :=
  [mkField 1 TYPE_STRING ""; mkField 2 TYPE_STRING ""; mkField 3 TYPE_STRING ""].
Definition MsgRewardSolarPower_md : list FieldDescriptor :=
  [mkField 1 TYPE_STRING ""; mkField 2 TYPE_STRING ""; mkField 3 TYPE_STRING ""].
Definition MsgBurnStableCoin_md : list FieldDescriptor :=
  [mkField 1 TYPE_STRING ""; mkField 2 TYPE_STRING ""; mkField 3 TYPE_STRING ""].
Definition MsgBurnModuleStable_md : list FieldDescriptor :=
  [mkField 1 TYPE_STRING ""; mkField 2 TYPE_STRING ""].
Definition MsgRemoveCollateral_md : list FieldDescriptor :=
  [mkField 1 TYPE_STRING ""; mkField 2 TYPE_STRING ""].
Definition MsgAddEnergy_md : list FieldDescriptor :=
  [mkField 1 TYPE_STRING ""; mkField 2 TYPE_STRING ""; mkField 3 TYPE_STRING ""; 
   mkField 4 TYPE_STRING ""].
Definition MsgCreateRECRecord_md : list FieldDescriptor :=
  [mkField 1 TYPE_STRING ""; mkField 2 TYPE_INT64 ""].
Definition MsgAppendTxHash_md : list FieldDescriptor :=
  [mkField 1 TYPE_STRING ""; mkField 2 TYPE_STRING ""; mkField 3 TYPE_STRING ""; 
   mkField 4 TYPE_STRING ""; mkField 5 TYPE_STRING ""].
Definition Coin_md : list FieldDescriptor :=
  [mkField 1 TYPE_STRING ""; mkField 2 TYPE_STRING ""].
Definition ModeInfo_Multi_md : list FieldDescriptor :=
  [mkField 1 TYPE_MESSAGE ".cosmos.crypto.multisig.v1beta1.CompactBitArray"; 
   mkField 2 TYPE_MESSAGE ".cosmos.tx.v1beta1.ModeInfo"].
Definition ModeInfo_md : list FieldDescriptor :=
  [mkField 1 TYPE_MESSAGE ".cosmos.tx.v1beta1.ModeInfo.Single"; 
   mkField 2 TYPE_MESSAGE ".cosmos.tx.v1beta1.ModeInfo.Multi"].
Definition Contributor_md : list FieldDescriptor :=
  [mkField 1 TYPE_STRING ""; mkField 2 TYPE_STRING ""].
Definition RECRecord_md : list FieldDescriptor :=
  [mkField 1 TYPE_STRING ""; mkField 2 TYPE_STRING ""; mkField 3 TYPE_INT64 ""; 
   mkField 4 TYPE_STRING ""; mkField 5 TYPE_MESSAGE ".cosmos.reward.v1beta1.Contributor"; 
   mkField 6 TYPE_STRING ""].
Definition RECMeta_md : list FieldDescriptor :=
  [mkField 1 TYPE_STRING ""; mkField 2 TYPE_STRING ""; mkField 3 TYPE_STRING ""; 
   mkField 4 TYPE_STRING ""; mkField 5 TYPE_STRING ""; mkField 6 TYPE_STRING ""; 
   mkField 7 TYPE_STRING ""; mkField 8 TYPE_STRING ""; mkField 9 TYPE_STRING ""; 
   mkField 10 TYPE_STRING ""; mkField 11 TYPE_STRING ""; mkField 12 TYPE_STRING ""; 
   mkField 13 TYPE_STRING ""; mkField 14 TYPE_STRING ""; mkField 15 TYPE_STRING ""].
Definition MsgDepositCollateral_md : list FieldDescriptor :=
  [mkField 1 TYPE_STRING ""; mkField 2 TYPE_MESSAGE ".cosmos.reward.v1beta1.RECRecord"; 
   mkField 3 TYPE_MESSAGE ".cosmos.reward.v1beta1.RECMeta"].
Definition TxRaw_md : list FieldDescriptor :=
  [mkField 1 TYPE_BYTES ""; mkField 2 TYPE_BYTES ""; mkField 3 TYPE_BYTES ""].

Definition descriptors : list (string * list FieldDescriptor) :=
  [("google.protobuf.Any", Any_md);
   ("cosmos.crypto.secp256k1.PubKey", secp256k1_PubKey_md);
   ("cosmos.crypto.ed25519.PubKey", ed25519_PubKey_md);
   ("cosmos.crypto.multisig.LegacyAminoPubKey", LegacyAminoPubKey_md);
   ("cosmos.crypto.multisig.v1beta1.CompactBitArray", CompactBitArray_md);
   ("cosmos.tx.v1beta1.ModeInfo.Single", ModeInfo_Single_md);
   ("cosmos.tx.v1beta1.SignerInfo", SignerInfo_md);
   ("cosmos.tx.v1beta1.Fee", Fee_md);
   ("cosmos.tx.v1beta1.AuthInfo", AuthInfo_md);
   ("cosmos.tx.v1beta1.TxBody", TxBody_md);
   ("cosmos.bank.v1beta1.MsgSend", MsgSend_md);
   ("cosmos.mapping.v1beta1.MsgRegisterDevice", MsgRegisterDevice_md);
   ("cosmos.feegrant.v1beta1.MsgGrantAllowance", MsgGrantAllowance_md);
   ("cosmos.feegrant.v1beta1.MsgRevokeAllowance", MsgRevokeAllowance_md);
   ("cosmos.reward.v1beta1.MsgDistributeRewardPercent", MsgDistributeRewardPercent_md);
   ("cosmos.reward.v1beta1.MsgRewardSolarPower", MsgRewardSolarPower_md);
   ("cosmos.reward.v1beta1.MsgBurnStableCoin", MsgBurnStableCoin_md);
   ("cosmos.reward.v1beta1.MsgBurnModuleStable", MsgBurnModuleStable_md);
   ("cosmos.reward.v1beta1.MsgRemoveCollateral", MsgRemoveCollateral_md);
   ("cosmos.reward.v1beta1.MsgAddEnergy", MsgAddEnergy_md);
   ("cosmos.reward.v1beta1.MsgCreateRECRecord", MsgCreateRECRecord_md);
   ("cosmos.reward.v1beta1.MsgAppendTxHash", MsgAppendTxHash_md);
   ("cosmos.base.v1beta1.Coin", Coin_md);
   ("cosmos.tx.v1beta1.ModeInfo.Multi", ModeInfo_Multi_md);
   ("cosmos.tx.v1beta1.ModeInfo", ModeInfo_md);
   ("cosmos.reward.v1beta1.Contributor", Contributor_md);
   ("cosmos.reward.v1beta1.RECRecord", RECRecord_md);
   ("cosmos.reward.v1beta1.RECMeta", RECMeta_md);
   ("cosmos.reward.v1beta1.MsgDepositCollateral", MsgDepositCollateral_md);
   ("cosmos.tx.v1beta1.TxRaw", TxRaw_md)].

(** The [init] functions of the generated code have registered the types. *)
Class AppTypes `{Registry} := app_types : ∀ name md, (name, md) ∈ descriptors → MessageType name = Some md.

Ltac is_app_type :=
  apply app_types; unfold descriptors;
  repeat first [apply list_elem_of_here | apply list_elem_of_further].

(** ** Every message is accepted *)

Section described.
Context `{PL : ProtowireLaws} `{AT : AppTypes}.
Set Default Proof Using "PL AT".

#[global] Instance Any_registered : Registered Sdk.Any.t.
Proof. is_app_type. Qed.

#[global, refine] Instance Coin_described : Described Sdk.Coin.t :=
  { d_name := "cosmos.base.v1beta1.Coin"; d_fields := Coin_md; known m := True }.
Proof.
  intros m _ Hl. unfold fits, c_enc, Sdk.Coin.codec, Sdk.Coin.MarshalToSizedBuffer in *.
  rewrite <- (Str.app_nil_r (enc_bytes _ _)) in *. accept_message.
Defined.
#[global] Instance Coin_registered : Registered Sdk.Coin.t.
Proof. is_app_type. Qed.

#[global, refine] Instance secp256k1_PubKey_described : Described Sdk.secp256k1_PubKey.t :=
  { d_name := "cosmos.crypto.secp256k1.PubKey"; d_fields := secp256k1_PubKey_md;
    known m := True }.
Proof.
  intros m Hk Hl. unfold fits, c_enc, Sdk.secp256k1_PubKey.codec, Sdk.secp256k1_PubKey.MarshalToSizedBuffer in *.
  destruct m. cbn [Sdk.secp256k1_PubKey.Key] in *. destruct_and?. subst. accept_message.
Defined.
#[global] Instance secp256k1_PubKey_registered : Registered Sdk.secp256k1_PubKey.t.
Proof. is_app_type. Qed.

#[global, refine] Instance ed25519_PubKey_described : Described Sdk.ed25519_PubKey.t :=
  { d_name := "cosmos.crypto.ed25519.PubKey"; d_fields := ed25519_PubKey_md;
    known m := True }.
Proof.
  intros m Hk Hl. unfold fits, c_enc, Sdk.ed25519_PubKey.codec, Sdk.ed25519_PubKey.MarshalToSizedBuffer in *.
  destruct m. cbn [Sdk.ed25519_PubKey.Key] in *. destruct_and?. subst. accept_message.
Defined.
#[global] Instance ed25519_PubKey_registered : Registered Sdk.ed25519_PubKey.t.
Proof. is_app_type. Qed.

#[global, refine] Instance LegacyAminoPubKey_described : Described Sdk.LegacyAminoPubKey.t :=
  { d_name := "cosmos.crypto.multisig.LegacyAminoPubKey"; d_fields := LegacyAminoPubKey_md;
    known m := Forall known_any (Sdk.LegacyAminoPubKey.PubKeys m) }.
Proof.
  intros m Hk Hl. unfold fits, c_enc, Sdk.LegacyAminoPubKey.codec, Sdk.LegacyAminoPubKey.MarshalToSizedBuffer in *.
  destruct m. cbn [Sdk.LegacyAminoPubKey.Threshold Sdk.LegacyAminoPubKey.PubKeys] in *. destruct_and?. subst. accept_message.
Defined.
#[global] Instance LegacyAminoPubKey_registered : Registered Sdk.LegacyAminoPubKey.t.
Proof. is_app_type. Qed.

#[global, refine] Instance CompactBitArray_described : Described Pb.CompactBitArray.t :=
  { d_name := "cosmos.crypto.multisig.v1beta1.CompactBitArray"; d_fields := CompactBitArray_md;
    known m := True }.
Proof.
  intros m Hk Hl. unfold fits, c_enc, Pb.CompactBitArray.codec, Pb.CompactBitArray.MarshalToSizedBuffer in *.
  destruct m. cbn [Pb.CompactBitArray.ExtraBitsStored Pb.CompactBitArray.Elems] in *. destruct_and?. subst. accept_message.
Defined.
#[global] Instance CompactBitArray_registered : Registered Pb.CompactBitArray.t.
Proof. is_app_type. Qed.

#[global, refine] Instance ModeInfo_Single_described : Described Pb.ModeInfo_Single.t :=
  { d_name := "cosmos.tx.v1beta1.ModeInfo.Single"; d_fields := ModeInfo_Single_md;
    known m := True }.
Proof.
  intros m Hk Hl. unfold fits, c_enc, Pb.ModeInfo_Single.codec, Pb.ModeInfo_Single.MarshalToSizedBuffer in *.
  destruct m. cbn [Pb.ModeInfo_Single.Mode] in *. destruct_and?. subst. accept_message.
Defined.
#[global] Instance ModeInfo_Single_registered : Registered Pb.ModeInfo_Single.t.
Proof. is_app_type. Qed.

(** Mode infos, whose messages contain each other. *)
Lemma registered_md name md : (name, md) ∈ descriptors → MessageType name = Some md.
Proof using AT. apply AT. Qed.

Lemma accepts_nested md md' name tag s fd rest : 8 <= tag < 128 → tag mod 8 = 2 →
  getDescriptorInfo md !! (tag / 8) = Some fd → fd_Type fd = TYPE_MESSAGE → fd_TypeName fd = "." +:+ name →
  name ≠ "google.protobuf.Any" → MessageType name = Some md' → slen (enc_bytes tag s) < 2 ^ 63 → accepts md' s →
  accepts md rest → accepts md (enc_bytes tag s +:+ rest).
Proof.
  intros Ht Hw Hfd Hf1 Hf2 Hf3 Hm Hl Hs Hr. pose proof (slen_le_enc_bytes tag s).
  apply (accepts_bytes md tag s fd); [done|done|done|rewrite Hf1; set_solver| |done|done].
  apply ok_message with md'; [lia|by rewrite Hf2|rewrite Hf2; by intros [= ?]|by rewrite Hf2|done].
Qed.

Abbreviation mode_enc := Pb.ModeInfo.MarshalToSizedBuffer.
Lemma modes_accepted l : Forall (λ m, slen (mode_enc m) < 2 ^ 63 → accepts ModeInfo_md (mode_enc m)) l →
  slen (concat_map (λ e, enc_bytes 0x12 (mode_enc e)) l) < 2 ^ 63 →
  accepts ModeInfo_Multi_md (concat_map (λ e, enc_bytes 0x12 (mode_enc e)) l +:+ "").
Proof.
  induction 1 as [|m l Hm _ IH]; intros Hl; cbn [concat_map] in *; [apply accepts_nil|].
  rewrite slen_app in Hl. pose proof (slen_nonneg (concat_map (λ e, enc_bytes 0x12 (mode_enc e)) l)).
  pose proof (slen_nonneg (enc_bytes 0x12 (mode_enc m))). pose proof (slen_le_enc_bytes 0x12 (mode_enc m)).
  rewrite Str.app_assoc.
  eapply (accepts_nested _ ModeInfo_md "cosmos.tx.v1beta1.ModeInfo");
    [lia|done|reflexivity|done|done|done|is_app_type|lia|apply Hm; lia|apply IH; lia].
Qed.

Lemma mode_accepted (m : Pb.ModeInfo.t) : slen (mode_enc m) < 2 ^ 63 → accepts ModeInfo_md (mode_enc m).
Proof.
  induction m as [|v|b l IH] using Pb.mode_ind; cbn [Pb.ModeInfo.MarshalToSizedBuffer]; intros Hl.
  - apply accepts_nil.
  - rewrite <- (Str.app_nil_r (enc_msg _ _)) in *. eapply accepts_msg; [lia|done|reflexivity|done|done|done|].
    intros _. apply accepts_nil.
  - rewrite <- (Str.app_nil_r (enc_bytes _ _)). set (s := Pb.ModeInfo_Multi.MarshalToSizedBuffer _ _) in *.
    pose proof (slen_le_enc_bytes 0x12 s).
    eapply (accepts_nested _ ModeInfo_Multi_md "cosmos.tx.v1beta1.ModeInfo.Multi");
      [lia|done|reflexivity|done|done|done|is_app_type|lia| |apply accepts_nil].
    subst s. unfold Pb.ModeInfo_Multi.MarshalToSizedBuffer in *. cbn [Pb.ModeInfo_Multi.Bitarray Pb.ModeInfo_Multi.ModeInfos] in *.
    eapply accepts_opt; [lia|done|reflexivity|done|by destruct b|lia|intros Hr]. apply modes_accepted; [done|].
    by rewrite slen_app in Hr; change (slen "") with 0 in Hr; rewrite Z.add_0_r in Hr.
Qed.

#[global] Instance ModeInfo_described : Described Pb.ModeInfo.t :=
  { d_name := "cosmos.tx.v1beta1.ModeInfo"; d_fields := ModeInfo_md; known m := True;
    described m _ := mode_accepted m }.
#[global] Instance ModeInfo_registered : Registered Pb.ModeInfo.t.
Proof. is_app_type. Qed.

#[global, refine] Instance SignerInfo_described : Described Pb.SignerInfo.t :=
  { d_name := "cosmos.tx.v1beta1.SignerInfo"; d_fields := SignerInfo_md;
    known m := from_option known_any True (Pb.SignerInfo.PublicKey m) ∧ from_option known True (Pb.SignerInfo.ModeInfo m) }.
Proof.
  intros m Hk Hl. unfold fits, c_enc, Pb.SignerInfo.codec, Pb.SignerInfo.MarshalToSizedBuffer in *.
  destruct m. cbn [Pb.SignerInfo.PublicKey Pb.SignerInfo.ModeInfo Pb.SignerInfo.Sequence] in *. destruct_and?. subst. accept_message.
Defined.
#[global] Instance SignerInfo_registered : Registered Pb.SignerInfo.t.
Proof. is_app_type. Qed.

#[global, refine] Instance Fee_described : Described Pb.Fee.t :=
  { d_name := "cosmos.tx.v1beta1.Fee"; d_fields := Fee_md;
    known m := Forall known (Pb.Fee.Amount m) }.
Proof.
  intros m Hk Hl. unfold fits, c_enc, Pb.Fee.codec, Pb.Fee.MarshalToSizedBuffer in *.
  destruct m. cbn [Pb.Fee.Amount Pb.Fee.GasLimit Pb.Fee.Payer Pb.Fee.Granter] in *. destruct_and?. subst. accept_message.
Defined.
#[global] Instance Fee_registered : Registered Pb.Fee.t.
Proof. is_app_type. Qed.

#[global, refine] Instance AuthInfo_described : Described Pb.AuthInfo.t :=
  { d_name := "cosmos.tx.v1beta1.AuthInfo"; d_fields := AuthInfo_md;
    known m := Forall known (Pb.AuthInfo.SignerInfos m) ∧ from_option known True (Pb.AuthInfo.Fee m) }.
Proof.
  intros m Hk Hl. unfold fits, c_enc, Pb.AuthInfo.codec, Pb.AuthInfo.MarshalToSizedBuffer in *.
  destruct m. cbn [Pb.AuthInfo.SignerInfos Pb.AuthInfo.Fee] in *. destruct_and?. subst. accept_message.
Defined.
#[global] Instance AuthInfo_registered : Registered Pb.AuthInfo.t.
Proof. is_app_type. Qed.

#[global, refine] Instance TxBody_described : Described Pb.TxBody.t :=
  { d_name := "cosmos.tx.v1beta1.TxBody"; d_fields := TxBody_md;
    known m := Forall known_any (Pb.TxBody.Messages m) ∧ Forall known_any (Pb.TxBody.ExtensionOptions m) ∧ Forall known_any (Pb.TxBody.NonCriticalExtensionOptions m) }.
Proof.
  intros m Hk Hl. unfold fits, c_enc, Pb.TxBody.codec, Pb.TxBody.MarshalToSizedBuffer in *.
  destruct m. cbn [Pb.TxBody.Messages Pb.TxBody.Memo Pb.TxBody.TimeoutHeight Pb.TxBody.ExtensionOptions Pb.TxBody.NonCriticalExtensionOptions] in *. destruct_and?. subst. accept_message.
Defined.
#[global] Instance TxBody_registered : Registered Pb.TxBody.t.
Proof. is_app_type. Qed.

#[global, refine] Instance MsgSend_described : Described Sdk.MsgSend.t :=
  { d_name := "cosmos.bank.v1beta1.MsgSend"; d_fields := MsgSend_md;
    known m := Forall known (Sdk.MsgSend.Amount m) }.
Proof.
  intros m Hk Hl. unfold fits, c_enc, Sdk.MsgSend.codec, Sdk.MsgSend.MarshalToSizedBuffer in *.
  destruct m. cbn [Sdk.MsgSend.FromAddress Sdk.MsgSend.ToAddress Sdk.MsgSend.Amount] in *. destruct_and?. subst. accept_message.
Defined.
#[global] Instance MsgSend_registered : Registered Sdk.MsgSend.t.
Proof. is_app_type. Qed.

#[global, refine] Instance MsgRegisterDevice_described : Described Sdk.MsgRegisterDevice.t :=
  { d_name := "cosmos.mapping.v1beta1.MsgRegisterDevice"; d_fields := MsgRegisterDevice_md;
    known m := True }.
Proof.
  intros m Hk Hl. unfold fits, c_enc, Sdk.MsgRegisterDevice.codec, Sdk.MsgRegisterDevice.MarshalToSizedBuffer in *.
  destruct m. cbn [Sdk.MsgRegisterDevice.Creator Sdk.MsgRegisterDevice.DeviceId Sdk.MsgRegisterDevice.Address] in *. destruct_and?. subst. accept_message.
Defined.
#[global] Instance MsgRegisterDevice_registered : Registered Sdk.MsgRegisterDevice.t.
Proof. is_app_type. Qed.

#[global, refine] Instance MsgGrantAllowance_described : Described Sdk.MsgGrantAllowance.t :=
  { d_name := "cosmos.feegrant.v1beta1.MsgGrantAllowance"; d_fields := MsgGrantAllowance_md;
    known m := from_option known_any True (Sdk.MsgGrantAllowance.Allowance m) }.
Proof.
  intros m Hk Hl. unfold fits, c_enc, Sdk.MsgGrantAllowance.codec, Sdk.MsgGrantAllowance.MarshalToSizedBuffer in *.
  destruct m. cbn [Sdk.MsgGrantAllowance.Granter Sdk.MsgGrantAllowance.Grantee Sdk.MsgGrantAllowance.Allowance] in *. destruct_and?. subst. accept_message.
Defined.
#[global] Instance MsgGrantAllowance_registered : Registered Sdk.MsgGrantAllowance.t.
Proof. is_app_type. Qed.

#[global, refine] Instance MsgRevokeAllowance_described : Described Sdk.MsgRevokeAllowance.t :=
  { d_name := "cosmos.feegrant.v1beta1.MsgRevokeAllowance"; d_fields := MsgRevokeAllowance_md;
    known m := True }.
Proof.
  intros m Hk Hl. unfold fits, c_enc, Sdk.MsgRevokeAllowance.codec, Sdk.MsgRevokeAllowance.MarshalToSizedBuffer in *.
  destruct m. cbn [Sdk.MsgRevokeAllowance.Granter Sdk.MsgRevokeAllowance.Grantee] in *. destruct_and?. subst. accept_message.
Defined.
#[global] Instance MsgRevokeAllowance_registered : Registered Sdk.MsgRevokeAllowance.t.
Proof. is_app_type. Qed.

(** ** The records of x/reward *)

#[global, refine] Instance Contributor_described : Described Contributor :=
  { d_name := "cosmos.reward.v1beta1.Contributor"; d_fields := Contributor_md; known m := Contributor_unrecognized m = "" }.
Proof.
  intros m Hk Hl. unfold fits, c_enc, Contributor_wire, Contributor_MarshalToSizedBuffer in *.
  destruct m as [a e u]. cbn [Contributor_Address Contributor_EnergyKwh Contributor_unrecognized] in *. subst. accept_message.
Defined.
#[global] Instance Contributor_registered : Registered Contributor.
Proof. is_app_type. Qed.

#[global, refine] Instance RECRecord_described : Described RECRecord :=
  { d_name := "cosmos.reward.v1beta1.RECRecord"; d_fields := RECRecord_md;
    known m := Forall known (RECRecord_Contributors m) ∧ RECRecord_unrecognized m = "" }.
Proof.
  intros m Hk Hl. unfold fits, c_enc, RECRecord_codec, RECRecord_MarshalToSizedBuffer in *.
  change (λ c, enc_bytes 0x2a (Contributor_MarshalToSizedBuffer c)) with (enc_msg (A := Contributor) 0x2a) in *.
  destruct m as [a1 a2 a3 a4 a5 a6 u]. cbn [RECRecord_RecId RECRecord_IssuedAt RECRecord_BlockHeight RECRecord_TotalEnergy RECRecord_Contributors RECRecord_SourceTx RECRecord_unrecognized] in *.
  destruct_and?. subst. accept_message.
Defined.
#[global] Instance RECRecord_registered : Registered RECRecord.
Proof. is_app_type. Qed.

#[global, refine] Instance RECMeta_described : Described RECMeta :=
  { d_name := "cosmos.reward.v1beta1.RECMeta"; d_fields := RECMeta_md; known m := RECMeta_unrecognized m = "" }.
Proof.
  intros m Hk Hl. unfold fits, c_enc, RECMeta_wire, RECMeta_MarshalToSizedBuffer in *.
  rewrite Hk in *. clear Hk. accept_message.
Defined.
#[global] Instance RECMeta_registered : Registered RECMeta.
Proof. is_app_type. Qed.

Definition known_rec (r : Reward.RecType) : Prop :=
  match r with Reward.RecRecord r => known r | Reward.RecMeta r => known r end.
#[global, refine] Instance MsgDepositCollateral_described : Described MsgDepositCollateral.t :=
  { d_name := "cosmos.reward.v1beta1.MsgDepositCollateral"; d_fields := MsgDepositCollateral_md;
    known m := from_option known_rec True (MsgDepositCollateral.RecType m) ∧ MsgDepositCollateral.unrecognized m = "" }.
Proof.
  intros [c [[r|r]|] u] [Hk Hu] Hl;
    unfold fits, c_enc, MsgDepositCollateral.codec, MsgDepositCollateral.MarshalToSizedBuffer in *;
    cbn [MsgDepositCollateral.Creator MsgDepositCollateral.RecType MsgDepositCollateral.unrecognized
         MsgDepositCollateral.RecType_MarshalTo from_option known_rec] in *; subst u; rewrite ?app_empty in *; accept_message.
Defined.
#[global] Instance MsgDepositCollateral_registered : Registered MsgDepositCollateral.t.
Proof. is_app_type. Qed.

#[global, refine] Instance MsgDistributeRewardPercent_described : Described MsgDistributeRewardPercent.t :=
  { d_name := "cosmos.reward.v1beta1.MsgDistributeRewardPercent"; d_fields := MsgDistributeRewardPercent_md;
    known m := MsgDistributeRewardPercent.unrecognized m = "" }.
Proof.
  intros m Hk Hl. unfold fits, c_enc, MsgDistributeRewardPercent.codec, MsgDistributeRewardPercent.MarshalToSizedBuffer in *.
  destruct m. cbn [MsgDistributeRewardPercent.Creator MsgDistributeRewardPercent.Address MsgDistributeRewardPercent.Percent MsgDistributeRewardPercent.unrecognized] in *. destruct_and?. subst. accept_message.
Defined.
#[global] Instance MsgDistributeRewardPercent_registered : Registered MsgDistributeRewardPercent.t.
Proof. is_app_type. Qed.

#[global, refine] Instance MsgRewardSolarPower_described : Described MsgRewardSolarPower.t :=
  { d_name := "cosmos.reward.v1beta1.MsgRewardSolarPower"; d_fields := MsgRewardSolarPower_md;
    known m := MsgRewardSolarPower.unrecognized m = "" }.
Proof.
  intros m Hk Hl. unfold fits, c_enc, MsgRewardSolarPower.codec, MsgRewardSolarPower.MarshalToSizedBuffer in *.
  destruct m. cbn [MsgRewardSolarPower.Creator MsgRewardSolarPower.Address MsgRewardSolarPower.Amount MsgRewardSolarPower.unrecognized] in *. destruct_and?. subst. accept_message.
Defined.
#[global] Instance MsgRewardSolarPower_registered : Registered MsgRewardSolarPower.t.
Proof. is_app_type. Qed.

#[global, refine] Instance MsgBurnStableCoin_described : Described MsgBurnStableCoin.t :=
  { d_name := "cosmos.reward.v1beta1.MsgBurnStableCoin"; d_fields := MsgBurnStableCoin_md;
    known m := MsgBurnStableCoin.unrecognized m = "" }.
Proof.
  intros m Hk Hl. unfold fits, c_enc, MsgBurnStableCoin.codec, MsgBurnStableCoin.MarshalToSizedBuffer in *.
  destruct m. cbn [MsgBurnStableCoin.Creator MsgBurnStableCoin.TargetAddr MsgBurnStableCoin.Amount MsgBurnStableCoin.unrecognized] in *. destruct_and?. subst. accept_message.
Defined.
#[global] Instance MsgBurnStableCoin_registered : Registered MsgBurnStableCoin.t.
Proof. is_app_type. Qed.

#[global, refine] Instance MsgBurnModuleStable_described : Described MsgBurnModuleStable.t :=
  { d_name := "cosmos.reward.v1beta1.MsgBurnModuleStable"; d_fields := MsgBurnModuleStable_md;
    known m := MsgBurnModuleStable.unrecognized m = "" }.
Proof.
  intros m Hk Hl. unfold fits, c_enc, MsgBurnModuleStable.codec, MsgBurnModuleStable.MarshalToSizedBuffer in *.
  destruct m. cbn [MsgBurnModuleStable.Creator MsgBurnModuleStable.Amount MsgBurnModuleStable.unrecognized] in *. destruct_and?. subst. accept_message.
Defined.
#[global] Instance MsgBurnModuleStable_registered : Registered MsgBurnModuleStable.t.
Proof. is_app_type. Qed.

#[global, refine] Instance MsgRemoveCollateral_described : Described MsgRemoveCollateral.t :=
  { d_name := "cosmos.reward.v1beta1.MsgRemoveCollateral"; d_fields := MsgRemoveCollateral_md;
    known m := MsgRemoveCollateral.unrecognized m = "" }.
Proof.
  intros m Hk Hl. unfold fits, c_enc, MsgRemoveCollateral.codec, MsgRemoveCollateral.MarshalToSizedBuffer in *.
  destruct m. cbn [MsgRemoveCollateral.Creator MsgRemoveCollateral.Amount MsgRemoveCollateral.unrecognized] in *. destruct_and?. subst. accept_message.
Defined.
#[global] Instance MsgRemoveCollateral_registered : Registered MsgRemoveCollateral.t.
Proof. is_app_type. Qed.

#[global, refine] Instance MsgAddEnergy_described : Described MsgAddEnergy.t :=
  { d_name := "cosmos.reward.v1beta1.MsgAddEnergy"; d_fields := MsgAddEnergy_md;
    known m := MsgAddEnergy.unrecognized m = "" }.
Proof.
  intros m Hk Hl. unfold fits, c_enc, MsgAddEnergy.codec, MsgAddEnergy.MarshalToSizedBuffer in *.
  destruct m. cbn [MsgAddEnergy.Creator MsgAddEnergy.To MsgAddEnergy.Amount MsgAddEnergy.TxHash MsgAddEnergy.unrecognized] in *. destruct_and?. subst. accept_message.
Defined.
#[global] Instance MsgAddEnergy_registered : Registered MsgAddEnergy.t.
Proof. is_app_type. Qed.

#[global, refine] Instance MsgCreateRECRecord_described : Described MsgCreateRECRecord.t :=
  { d_name := "cosmos.reward.v1beta1.MsgCreateRECRecord"; d_fields := MsgCreateRECRecord_md;
    known m := MsgCreateRECRecord.unrecognized m = "" }.
Proof.
  intros m Hk Hl. unfold fits, c_enc, MsgCreateRECRecord.codec, MsgCreateRECRecord.MarshalToSizedBuffer in *.
  destruct m. cbn [MsgCreateRECRecord.Creator MsgCreateRECRecord.Count MsgCreateRECRecord.unrecognized] in *. destruct_and?. subst. accept_message.
Defined.
#[global] Instance MsgCreateRECRecord_registered : Registered MsgCreateRECRecord.t.
Proof. is_app_type. Qed.

#[global, refine] Instance MsgAppendTxHash_described : Described MsgAppendTxHash.t :=
  { d_name := "cosmos.reward.v1beta1.MsgAppendTxHash"; d_fields := MsgAppendTxHash_md;
    known m := MsgAppendTxHash.unrecognized m = "" }.
Proof.
  intros m Hk Hl. unfold fits, c_enc, MsgAppendTxHash.codec, MsgAppendTxHash.MarshalToSizedBuffer in *.
  destruct m. cbn [MsgAppendTxHash.Creator MsgAppendTxHash.TxHashes MsgAppendTxHash.NodeCreator MsgAppendTxHash.RecId MsgAppendTxHash.Next MsgAppendTxHash.unrecognized] in *. destruct_and?. subst. accept_message.
Defined.
#[global] Instance MsgAppendTxHash_registered : Registered MsgAppendTxHash.t.
Proof. is_app_type. Qed.

End described.
End Descriptors.
