(* ===== verification/InterfaceRegistry.v ===== *)
(** * The registry of implementations: codec/types/interface_registry.go

    Which concrete types may be unpacked as which Go interface, by type URL.
    Go types and interfaces are named by strings; whether a type implements an
    interface, which names are interfaces and the protobuf name of a message
    type are parameters.  The [RegisterInterfaces] of the modules whose
    messages the application model has, and of the public keys, are its
    clients. *)

From Stdlib Require Import ZArith Lia Ascii String.
From stdpp Require Import base tactics option list gmap relations strings.
From S2P Require Import Prelude GoStd.

Local Open Scope Z_scope.

Module InterfaceRegistry.

Record interfaceRegistry := mkRegistry {
  interfaceNames : gmap string string;
  interfaceImpls : gmap string (gmap string string);
  typeURLMap : gmap string string }.

Definition NewInterfaceRegistry : interfaceRegistry := mkRegistry ∅ ∅ ∅.

Section registry.
Context (implements : string → string → bool) (is_interface : string → bool) (MessageName : string → string).

Definition registerImpl (iface typeURL impl : string) (registry : interfaceRegistry) : outcome interfaceRegistry :=
  let imap := default ∅ (interfaceImpls registry !! iface) in
  if negb (implements impl iface) then Panic "type doesn't actually implement interface"
  else if match imap !! typeURL with Some foundImplType => negb (String.eqb foundImplType impl) | None => false end
  then Panic "concrete type has already been registered under typeURL"
  else Ok (mkRegistry (interfaceNames registry)
             (<[iface := <[typeURL := impl]> imap]> (interfaceImpls registry))
             (<[typeURL := impl]> (typeURLMap registry))).

Definition RegisterImplementations (iface : string) (impls : list string) (registry : interfaceRegistry)
    : outcome interfaceRegistry :=
  fold_out (λ r impl, registerImpl iface ("/" +:+ MessageName impl) impl r) registry impls.

Definition RegisterCustomTypeURL (iface typeURL impl : string) : interfaceRegistry → outcome interfaceRegistry :=
  registerImpl iface typeURL impl.

Definition RegisterInterface (protoName iface : string) (impls : list string) (registry : interfaceRegistry)
    : outcome interfaceRegistry :=
  if negb (is_interface iface) then Panic "not an interface type"
  else RegisterImplementations iface impls
         (mkRegistry (<[protoName := iface]> (interfaceNames registry)) (interfaceImpls registry) (typeURLMap registry)).

(** The keys of a map, in no particular order. *)
Definition ListAllInterfaces (registry : interfaceRegistry) : list string :=
  (map_to_list (interfaceNames registry)).*1.
Definition ListImplementations (ifaceName : string) (registry : interfaceRegistry) : list string :=
  match interfaceNames registry !! ifaceName with
  | None => []
  | Some typ => match interfaceImpls registry !! typ with None => [] | Some impls => (map_to_list impls).*1 end
  end.

(** The type an [Any] is unpacked to, and the one its URL resolves to. *)
Definition registered_type (iface typeURL : string) (registry : interfaceRegistry) : option string :=
  interfaceImpls registry !! iface ≫= (.!! typeURL).
Definition Resolve (typeURL : string) (registry : interfaceRegistry) : outcome string :=
  or_err (typeURLMap registry !! typeURL) "unable to resolve type URL".

(** ** Facts *)

Lemma registerImpl_Ok iface url impl r r' : registerImpl iface url impl r = Ok r' →
  implements impl iface = true ∧
  (registered_type iface url r = None ∨ registered_type iface url r = Some impl) ∧
  r' = mkRegistry (interfaceNames r)
         (<[iface := <[url := impl]> (default ∅ (interfaceImpls r !! iface))]> (interfaceImpls r))
         (<[url := impl]> (typeURLMap r)).
Proof.
  unfold registerImpl. destruct (implements impl iface); [|done]. cbn [negb].
  assert (registered_type iface url r = default ∅ (interfaceImpls r !! iface) !! url) as ->.
  { unfold registered_type. by destruct (interfaceImpls r !! iface). }
  destruct (default ∅ (interfaceImpls r !! iface) !! url) as [t|] eqn:E.
  - destruct (String.eqb_spec t impl) as [->|]; [|done]. intros [= <-]. auto.
  - intros [= <-]. auto.
Qed.

Lemma registered_type_insert iface url impl i u r :
  registered_type i u (mkRegistry (interfaceNames r)
    (<[iface := <[url := impl]> (default ∅ (interfaceImpls r !! iface))]> (interfaceImpls r)) (<[url := impl]> (typeURLMap r))) =
  if decide (i = iface ∧ u = url) then Some impl else registered_type i u r.
Proof.
  unfold registered_type. cbn [interfaceImpls]. destruct (decide (i = iface)) as [->|Hi].
  - rewrite lookup_insert_eq. cbn [mbind option_bind]. destruct (decide (u = url)) as [->|Hu].
    + rewrite lookup_insert_eq. by rewrite decide_True.
    + rewrite lookup_insert_ne by done. rewrite decide_False by naive_solver. by destruct (interfaceImpls r !! iface).
  - rewrite lookup_insert_ne by done. by rewrite decide_False by naive_solver.
Qed.

(** A registration keeps what was registered and adds the new type. *)
Lemma registerImpl_grows iface url impl r r' : registerImpl iface url impl r = Ok r' →
  registered_type iface url r' = Some impl ∧ typeURLMap r' !! url = Some impl ∧
  ∀ i u t, registered_type i u r = Some t → registered_type i u r' = Some t.
Proof.
  intros (_ & Hold & ->)%registerImpl_Ok. split_and!.
  - rewrite registered_type_insert. by rewrite decide_True.
  - apply lookup_insert_eq.
  - intros i u t Ht. rewrite registered_type_insert. case_decide as Hd; [|done].
    destruct Hd as [-> ->]. rewrite Ht in Hold. destruct Hold; by simplify_eq.
Qed.

Lemma RegisterImplementations_grows iface impls r r' : RegisterImplementations iface impls r = Ok r' →
  ∀ i u t, registered_type i u r = Some t → registered_type i u r' = Some t.
Proof.
  unfold RegisterImplementations. revert r. induction impls as [|impl impls IH]; intros r E i u t Ht; cbn [fold_out] in E.
  - by injection E as ->.
  - apply bind_Ok in E as (r1 & E1 & E). eapply IH; [exact E|]. apply registerImpl_grows in E1 as (_ & _ & Hg). by apply Hg.
Qed.

(** ** Registries built by the modules *)

(** What a [RegisterInterfaces] may do. *)
Inductive register : relation interfaceRegistry :=
  | do_RegisterInterface protoName iface impls r r' :
      RegisterInterface protoName iface impls r = Ok r' → register r r'
  | do_RegisterImplementations iface impls r r' :
      RegisterImplementations iface impls r = Ok r' → register r r'.

(** Every URL is that of its type, and unpacking and resolving agree. *)
Definition consistent (r : interfaceRegistry) : Prop :=
  (∀ i u t, registered_type i u r = Some t → typeURLMap r !! u = Some t) ∧
  (∀ u t, typeURLMap r !! u = Some t → u = "/" +:+ MessageName t).

Hypothesis names_inj : ∀ t t', MessageName t = MessageName t' → t = t'.

Lemma registerImpl_consistent iface impl r r' :
  registerImpl iface ("/" +:+ MessageName impl) impl r = Ok r' → consistent r → consistent r'.
Proof using names_inj.
  intros (_ & _ & ->)%registerImpl_Ok [H1 H2]. split.
  - intros i u t. rewrite registered_type_insert. cbn [typeURLMap]. case_decide as Hd.
    + destruct Hd as [_ ->]. intros [= ->]. apply lookup_insert_eq.
    + intros Ht%H1. destruct (decide (u = "/" +:+ MessageName impl)) as [->|Hu].
      * rewrite lookup_insert_eq. apply H2 in Ht. f_equal. apply names_inj. by apply (Str.app_inj_l "/").
      * by rewrite lookup_insert_ne.
  - intros u t. cbn [typeURLMap]. rewrite lookup_insert. case_decide as Hd; [intros [= <-]; done|apply H2].
Qed.
Lemma RegisterImplementations_consistent iface impls r r' :
  RegisterImplementations iface impls r = Ok r' → consistent r → consistent r'.
Proof using names_inj.
  unfold RegisterImplementations. revert r. induction impls as [|impl impls IH]; intros r E Hr; cbn [fold_out] in E.
  - by injection E as <-.
  - apply bind_Ok in E as (r1 & E1 & E). apply (IH r1 E). by apply registerImpl_consistent in E1.
Qed.

Lemma register_consistent r r' : register r r' → consistent r → consistent r'.
Proof using names_inj.
  intros [protoName iface impls r0 r1 E|iface impls r0 r1 E] Hr; [|by eapply RegisterImplementations_consistent].
  unfold RegisterInterface in E. destruct (is_interface iface); [|done]. by eapply RegisterImplementations_consistent in E.
Qed.

(** The registry is consistent however the modules fill it.  After any
    sequence of [RegisterInterface] and [RegisterImplementations] that did not
    panic, a type URL that can be unpacked as some interface resolves to the
    same type, so the traversal for unknown fields looks at the type that is
    decoded, and the URL is the one of the type's protobuf name. *)
Theorem registry_consistent r : rtc register NewInterfaceRegistry r →
  ∀ iface url t, registered_type iface url r = Some t → Resolve url r = Ok t ∧ url = "/" +:+ MessageName t.
Proof using names_inj.
  intros Hr iface url t Ht. assert (consistent r) as [H1 H2].
  { assert (consistent NewInterfaceRegistry) as H0 by done. revert H0 Ht. generalize NewInterfaceRegistry Hr. clear Hr.
    intros r0 Hr H0 _. induction Hr as [|r0 r1 r Hstep _ IH]; [done|]. apply IH. by eapply register_consistent. }
  split; [unfold Resolve; by rewrite (H1 _ _ _ Ht)|]. by apply H2, (H1 iface).
Qed.

(** ** The modules *)

Definition PubKey_iface : string := "cryptotypes.PubKey".
Definition Msg_iface : string := "sdk.Msg".

(** crypto/codec/proto.go, with the one of secp256r1. *)
Definition crypto_RegisterInterfaces (registry : interfaceRegistry) : outcome interfaceRegistry :=
  registry ← RegisterInterface "cosmos.crypto.PubKey" PubKey_iface [] registry;
  registry ← RegisterImplementations PubKey_iface ["cosmos.crypto.ed25519.PubKey"] registry;
  registry ← RegisterImplementations PubKey_iface ["cosmos.crypto.secp256k1.PubKey"] registry;
  registry ← RegisterImplementations PubKey_iface ["cosmos.crypto.multisig.LegacyAminoPubKey"] registry;
  RegisterImplementations PubKey_iface ["cosmos.crypto.secp256r1.PubKey"] registry.

(** [msgservice.RegisterMsgServiceDesc]: the request types of a service. *)
Definition RegisterMsgServiceDesc (requests : list string) (registry : interfaceRegistry) : outcome interfaceRegistry :=
  fold_out (λ r msg, RegisterImplementations Msg_iface [msg] r) registry requests.

Definition bank_RegisterInterfaces (registry : interfaceRegistry) : outcome interfaceRegistry :=
  registry ← RegisterImplementations Msg_iface ["cosmos.bank.v1beta1.MsgSend"; "cosmos.bank.v1beta1.MsgMultiSend"] registry;
  registry ← RegisterImplementations "authz.Authorization" ["cosmos.bank.v1beta1.SendAuthorization"] registry;
  RegisterMsgServiceDesc ["cosmos.bank.v1beta1.MsgSend"; "cosmos.bank.v1beta1.MsgMultiSend"] registry.

Definition feegrant_RegisterInterfaces (registry : interfaceRegistry) : outcome interfaceRegistry :=
  registry ← RegisterImplementations Msg_iface
    ["cosmos.feegrant.v1beta1.MsgGrantAllowance"; "cosmos.feegrant.v1beta1.MsgRevokeAllowance"] registry;
  registry ← RegisterInterface "cosmos.feegrant.v1beta1.FeeAllowanceI" "feegrant.FeeAllowanceI"
    ["cosmos.feegrant.v1beta1.BasicAllowance"; "cosmos.feegrant.v1beta1.PeriodicAllowance";
     "cosmos.feegrant.v1beta1.AllowedMsgAllowance"] registry;
  RegisterMsgServiceDesc
    ["cosmos.feegrant.v1beta1.MsgGrantAllowance"; "cosmos.feegrant.v1beta1.MsgRevokeAllowance"] registry.

Definition reward_RegisterInterfaces (registry : interfaceRegistry) : outcome interfaceRegistry :=
  RegisterImplementations Msg_iface
    ["cosmos.reward.v1beta1.MsgRewardSolarPower"; "cosmos.reward.v1beta1.MsgBurnStableCoin";
     "cosmos.reward.v1beta1.MsgDepositCollateral"; "cosmos.reward.v1beta1.MsgRemoveCollateral";
     "cosmos.reward.v1beta1.MsgBurnModuleStable"; "cosmos.reward.v1beta1.MsgAddEnergy";
     "cosmos.reward.v1beta1.MsgCreateRECRecord"; "cosmos.reward.v1beta1.MsgAppendTxHash";
     "cosmos.reward.v1beta1.MsgDistributeRewardPercent"] registry.

Definition mapping_RegisterInterfaces (registry : interfaceRegistry) : outcome interfaceRegistry :=
  RegisterImplementations Msg_iface ["cosmos.mapping.v1beta1.MsgRegisterDevice"] registry.

Definition light_tx_RegisterInterfaces (registry : interfaceRegistry) : outcome interfaceRegistry :=
  registry ← RegisterInterface "cosmos.base.v1beta1.Msg" Msg_iface [] registry;
  registry ← RegisterImplementations Msg_iface ["cosmos.lighttx.v1beta1.MsgSendLightTx"] registry;
  RegisterMsgServiceDesc ["cosmos.lighttx.v1beta1.MsgSendLightTx"] registry.

Definition app_RegisterInterfaces (registry : interfaceRegistry) : outcome interfaceRegistry :=
  registry ← crypto_RegisterInterfaces registry;
  registry ← bank_RegisterInterfaces registry;
  registry ← feegrant_RegisterInterfaces registry;
  registry ← reward_RegisterInterfaces registry;
  registry ← mapping_RegisterInterfaces registry;
  light_tx_RegisterInterfaces registry.
End registry.

(** The registry of these modules, types named by their protobuf names. *)
Definition app_registry : interfaceRegistry :=
  match app_RegisterInterfaces (λ _ _, true) (λ _, true) id NewInterfaceRegistry with Ok r => r | _ => NewInterfaceRegistry end.

Lemma app_registers : app_RegisterInterfaces (λ _ _, true) (λ _, true) id NewInterfaceRegistry = Ok app_registry.
Proof. by vm_compute. Qed.

Lemma registry_consistent_witness :
  Resolve "/cosmos.bank.v1beta1.MsgSend"
    (match RegisterImplementations (λ _ _, true) id Msg_iface ["cosmos.bank.v1beta1.MsgSend"] NewInterfaceRegistry with
     | Ok r => r | _ => NewInterfaceRegistry end) = Ok "cosmos.bank.v1beta1.MsgSend" ∧
  "/cosmos.bank.v1beta1.MsgSend" = "/" +:+ id "cosmos.bank.v1beta1.MsgSend".
Proof.
  refine (registry_consistent (λ _ _, true) (λ _, true) id (λ _ _ E, E) _ _ Msg_iface _ _ _); [|by vm_compute].
  apply rtc_once. apply (do_RegisterImplementations _ _ _ Msg_iface ["cosmos.bank.v1beta1.MsgSend"]). by vm_compute.
Defined.

(** A custom type URL is not protected across interfaces.  The comment
    says that registering different concrete types under one URL panics; it
    does within one interface, but a second interface takes the URL over: a
    value is still unpacked as the first type while the URL resolves to the
    second. *)
Theorem custom_url_taken_over (implements : string → string → bool) i1 i2 url t1 t2 :
  i1 ≠ i2 → t1 ≠ t2 → implements t1 i1 = true → implements t2 i2 = true →
  ∃ r1 r2, RegisterCustomTypeURL implements i1 url t1 NewInterfaceRegistry = Ok r1 ∧
    RegisterCustomTypeURL implements i2 url t2 r1 = Ok r2 ∧
    registered_type i1 url r2 = Some t1 ∧ Resolve url r2 = Ok t2 ∧
    (implements t2 i1 = true → RegisterCustomTypeURL implements i1 url t2 r1 =
       Panic "concrete type has already been registered under typeURL").
Proof.
  intros Hi Ht H1 H2. unfold RegisterCustomTypeURL.
  assert (∃ r1, registerImpl implements i1 url t1 NewInterfaceRegistry = Ok r1) as [r1 E1].
  { unfold registerImpl. rewrite H1. cbn. rewrite !lookup_empty. by eexists. }
  destruct (registerImpl_grows _ _ _ _ _ _ E1) as (Hr & _ & _). apply registerImpl_Ok in E1 as E1'.
  destruct E1' as (_ & _ & Er1).
  assert (∃ r2, registerImpl implements i2 url t2 r1 = Ok r2) as [r2 E2].
  { unfold registerImpl. rewrite H2, Er1. cbn. rewrite lookup_insert_ne, lookup_empty by done. cbn. rewrite lookup_empty. by eexists. }
  destruct (registerImpl_grows _ _ _ _ _ _ E2) as (_ & Hu2 & Hg2). exists r1, r2. split_and!; [done|done|by apply Hg2| |].
  - unfold Resolve. by rewrite Hu2.
  - intros Hi2. unfold registerImpl. rewrite Hi2. cbn [negb]. unfold registered_type in Hr.
    destruct (interfaceImpls r1 !! i1) as [m|]; [|done]. cbn in Hr |- *. rewrite Hr.
    by rewrite (proj2 (String.eqb_neq _ _) Ht).
Qed.

Lemma custom_url_taken_over_witness : ∃ r1 r2,
  RegisterCustomTypeURL (λ _ _, true) "sdk.Msg" "/x" "A" NewInterfaceRegistry = Ok r1 ∧
  RegisterCustomTypeURL (λ _ _, true) "authz.Authorization" "/x" "B" r1 = Ok r2 ∧
  registered_type "sdk.Msg" "/x" r2 = Some "A" ∧ Resolve "/x" r2 = Ok "B" ∧
  (true = true → RegisterCustomTypeURL (λ _ _, true) "sdk.Msg" "/x" "B" r1 =
     Panic "concrete type has already been registered under typeURL").
Proof. by apply (custom_url_taken_over (λ _ _, true)). Defined.

End InterfaceRegistry.
