(* ===== verification/TxDecoder.v ===== *)
(** * Decoding transactions: x/auth/tx/decoder.go, the wrapper of builder.go,
      codec/types/any.go, [UnpackAny] of codec/types/interface_registry.go and
      the [UnpackInterfaces] of types/tx/types.go

    A decoded transaction is kept as the generated structs with the bytes it
    came in; what the accessors of the wrapper read of it is [view], a
    transaction of Tx.  Messages and keys are packed in [Any]s, by an interface
    that their types implement. *)

From Stdlib Require Import ZArith Lia Ascii String.
From stdpp Require Import base tactics option list gmap strings.
From S2P Require Import Prelude GoStd Digits SdkInt Coin MultiSig Wire Proto WireMsg SdkMsgs TxProto.
From S2P Require Import Unknown Reward RewardMsgs Descriptors Tx TxCodec.

Local Open Scope Z_scope.

Module TxDecoder.
Import Wire WireMsg Unknown Descriptors BitArray MultiSig.

(** ** Packing *)

(** The implementations of a Go interface: the protobuf name and the encoding
    of a value, and the decoder (with the [UnpackInterfaces]) of the type
    registered under a type URL. *)
Class Interface (A : Type) := {
  MessageName : A → string;
  proto_Marshal : A → outcome string;
  imap : string → option (string → outcome A) }.
#[global] Hint Mode Interface ! : typeclass_instances.

Definition NewAnyWithValue {A} `{Interface A} (v : A) : outcome Sdk.Any.t :=
  bz ← proto_Marshal v;
  Ok (Sdk.Any.mk ("/" +:+ MessageName v) bz "").

(** [UnpackAny] of an [Any] that has no cached value yet: nothing is unpacked
    without a type URL. *)
Definition UnpackAny {A} `{Interface A} (any : option Sdk.Any.t) : outcome (option A) :=
  match any with
  | None => Ok None
  | Some any =>
      if String.eqb (Sdk.Any.TypeUrl any) "" then Ok None
      else
        unmarshal ← or_err (imap (Sdk.Any.TypeUrl any)) "no concrete type registered for type URL";
        msg ← unmarshal (Sdk.Any.Value any);
        Ok (Some msg)
  end.

(** A list, element by element. *)
Fixpoint each {A B} (f : A → outcome B) (l : list A) : outcome (list B) :=
  match l with
  | [] => Ok []
  | a :: l => b ← f a; bs ← each f l; Ok (b :: bs)
  end.

(** ** The generated structs of a transaction *)

Definition pack_coin (c : Coin) : Sdk.Coin.t := Sdk.Coin.mk (Denom c) (Some (Amount c)).
(** A coin without an amount panics when it is used. *)
Definition view_coin (c : Sdk.Coin.t) : outcome Coin :=
  a ← or_panic (Sdk.Coin.Amount c) "nil pointer dereference"; Ok (mkCoin (Sdk.Coin.Denom c) a).

Fixpoint bytes_string (l : list Z) : string :=
  match l with [] => "" | z :: l => String (byte_of z) (bytes_string l) end.
Fixpoint string_bytes (s : string) : list Z :=
  match s with "" => [] | String c s => byte_val c :: string_bytes s end.
Definition pack_bits (b : CompactBitArray) : Pb.CompactBitArray.t :=
  Pb.CompactBitArray.mk (ExtraBitsStored b) (bytes_string (Elems b)).
Definition view_bits (b : Pb.CompactBitArray.t) : CompactBitArray :=
  mkBitArray (Pb.CompactBitArray.ExtraBitsStored b) (string_bytes (Pb.CompactBitArray.Elems b)).

(** A nil mode info in a list cannot be written. *)
Fixpoint pack_mode (m : Tx.ModeInfo) : outcome Pb.ModeInfo.t :=
  match m with
  | Tx.ModeNil => Panic "nil pointer dereference"
  | Tx.ModeUnset => Ok Pb.ModeInfo.Unset
  | Tx.ModeInfo_Single mode => Ok (Pb.ModeInfo.Single (Pb.ModeInfo_Single.mk mode))
  | Tx.ModeInfo_Multi bA infos =>
      infos ← each pack_mode infos;
      Ok (Pb.ModeInfo.Multi (Pb.ModeInfo_Multi.mk (option_map pack_bits bA) infos))
  end.
Fixpoint view_mode (m : Pb.ModeInfo.t) : Tx.ModeInfo :=
  match m with
  | Pb.ModeInfo.Unset => Tx.ModeUnset
  | Pb.ModeInfo.Single s => Tx.ModeInfo_Single (Pb.ModeInfo_Single.Mode s)
  | Pb.ModeInfo.Multi (Pb.ModeInfo_Multi.mk b l) => Tx.ModeInfo_Multi (option_map view_bits b) (map view_mode l)
  end.
Definition pack_mode_ptr (m : Tx.ModeInfo) : outcome (option Pb.ModeInfo.t) :=
  match m with Tx.ModeNil => Ok None | _ => p ← pack_mode m; Ok (Some p) end.
Definition view_mode_ptr (m : option Pb.ModeInfo.t) : Tx.ModeInfo :=
  match m with None => Tx.ModeNil | Some m => view_mode m end.

Definition pack_fee (f : Tx.Fee) : Pb.Fee.t :=
  Pb.Fee.mk (map pack_coin (Tx.fee_Amount f)) (Tx.GasLimit f) (Tx.Payer f) (Tx.Granter f).
Definition view_fee (f : Pb.Fee.t) : outcome Tx.Fee :=
  coins ← each view_coin (Pb.Fee.Amount f);
  Ok (Tx.mkFee coins (Pb.Fee.GasLimit f) (Pb.Fee.Payer f) (Pb.Fee.Granter f)).

(** Under a function that may fail, through a pointer. *)
Definition through {A B} (f : A → outcome B) (o : option A) : outcome (option B) :=
  match o with None => Ok None | Some a => b ← f a; Ok (Some b) end.

Section tx.
Context {Msg : Type} `{IM : Interface Msg} `{IK : Interface PubKey}.

Definition pack_signerInfo (si : Tx.SignerInfo) : outcome Pb.SignerInfo.t :=
  pk ← through NewAnyWithValue (Tx.si_PublicKey si);
  m ← pack_mode_ptr (Tx.si_ModeInfo si);
  Ok (Pb.SignerInfo.mk pk m (Tx.si_Sequence si)).
Definition view_signerInfo (si : Pb.SignerInfo.t) : outcome Tx.SignerInfo :=
  pk ← UnpackAny (Pb.SignerInfo.PublicKey si);
  Ok (Tx.mkSignerInfo pk (view_mode_ptr (Pb.SignerInfo.ModeInfo si)) (Pb.SignerInfo.Sequence si)).

Definition pack_authInfo (a : Tx.AuthInfo) : outcome Pb.AuthInfo.t :=
  infos ← each pack_signerInfo (Tx.SignerInfos a);
  Ok (Pb.AuthInfo.mk infos (option_map pack_fee (Tx.ai_Fee a))).
Definition view_authInfo (a : Pb.AuthInfo.t) : outcome Tx.AuthInfo :=
  infos ← each view_signerInfo (Pb.AuthInfo.SignerInfos a);
  fee ← through view_fee (Pb.AuthInfo.Fee a);
  Ok (Tx.mkAuthInfo infos fee).

Definition pack_body (b : Tx.TxBody Msg) : outcome Pb.TxBody.t :=
  msgs ← each NewAnyWithValue (Tx.Messages b);
  Ok (Pb.TxBody.mk msgs (Tx.Memo b) (Tx.TimeoutHeight b) (Tx.ExtensionOptions b) []).
(** [GetMsgs] panics on a message that was not unpacked. *)
Definition view_msg (any : Sdk.Any.t) : outcome Msg :=
  msg ← UnpackAny (Some any); or_panic msg "Any cached value is nil".
Definition view_body (b : Pb.TxBody.t) : outcome (Tx.TxBody Msg) :=
  msgs ← each view_msg (Pb.TxBody.Messages b);
  Ok (Tx.mkTxBody msgs (Pb.TxBody.Memo b) (Pb.TxBody.TimeoutHeight b) (Pb.TxBody.ExtensionOptions b)).

(** [proto.Marshal] of the two parts. *)
Definition body_Marshal (b : option (Tx.TxBody Msg)) : outcome string :=
  b ← or_panic b "nil pointer dereference"; p ← pack_body b; c_Marshal p.
Definition authInfo_Marshal (a : option Tx.AuthInfo) : outcome string :=
  a ← or_panic a "nil pointer dereference"; p ← pack_authInfo a; c_Marshal p.

(** ** UnpackInterfaces *)

Definition TxBody_UnpackInterfaces (m : Pb.TxBody.t) : outcome () :=
  _ ← each (λ any, UnpackAny (A := Msg) (Some any)) (Pb.TxBody.Messages m); Ok ().
Definition SignerInfo_UnpackInterfaces (m : Pb.SignerInfo.t) : outcome () :=
  _ ← UnpackAny (A := PubKey) (Pb.SignerInfo.PublicKey m); Ok ().
Definition AuthInfo_UnpackInterfaces (m : Pb.AuthInfo.t) : outcome () :=
  _ ← each SignerInfo_UnpackInterfaces (Pb.AuthInfo.SignerInfos m); Ok ().

(** ** ADR-027 *)

Definition varintMinLength (n : Z) : Z :=
  if n <? 2 ^ 7 then 1
  else if n <? 2 ^ (7 * 2) then 2
  else if n <? 2 ^ (7 * 3) then 3
  else if n <? 2 ^ (7 * 4) then 4
  else if n <? 2 ^ (7 * 5) then 5
  else if n <? 2 ^ (7 * 6) then 6
  else if n <? 2 ^ (7 * 7) then 7
  else if n <? 2 ^ (7 * 8) then 8
  else if n <? 2 ^ (7 * 9) then 9
  else 10.

Context `{Protowire} `{Registry}.

(** Every round takes a field, of at least one byte. *)
Fixpoint rejectNonADR027_loop (fuel : nat) (prevTagNum : Z) (txBytes : string) : outcome () :=
  match fuel with
  | O => Panic "rejectNonADR027TxRaw: out of fuel"
  | S fuel =>
      if String.eqb txBytes "" then Ok () else
      let '(tagNum, wireType, m) := ConsumeTag txBytes in
      if m <? 0 then Err "invalid length"
      else if negb (wireType =? 2) then Err "expected 2 wire type"
      else if tagNum <? prevTagNum then Err "txRaw must follow ADR-027"
      else
        afterTag ← slice_from m txBytes;
        let '(lengthPrefix, m) := ConsumeVarint afterTag in
        if m <? 0 then Err "invalid length"
        else if negb (varintMinLength lengthPrefix =? m) then Err "length prefix varint is not as short as possible"
        else
          let '(_, _, m) := ConsumeField txBytes in
          if m <? 0 then Err "invalid length"
          else
            txBytes ← slice_from m txBytes;
            rejectNonADR027_loop fuel tagNum txBytes
  end.
Definition rejectNonADR027TxRaw (txBytes : string) : outcome () :=
  rejectNonADR027_loop (S (String.length txBytes)) 0 txBytes.

(** ** The decoder *)

(** The decoded transaction inside a wrapper, and the bytes of its parts. *)
Record wrapper := mkWrapper {
  w_Body : Pb.TxBody.t; w_AuthInfo : Pb.AuthInfo.t; w_Signatures : list string;
  bodyBz : string; authInfoBz : string; txBodyHasUnknownNonCriticals : bool }.

Definition DefaultTxDecoder (txBytes : string) : outcome wrapper :=
  _ ← rejectNonADR027TxRaw txBytes;
  _ ← RejectUnknownFieldsStrict txBytes TxRaw_md;
  raw ← TxCodec.TxRaw_Unmarshal txBytes;
  hasUnknown ← RejectUnknownFields true (TxCodec.raw_BodyBytes raw) TxBody_md;
  body ← Pb.TxBody.Unmarshal c_zero (TxCodec.raw_BodyBytes raw);
  _ ← TxBody_UnpackInterfaces body;
  _ ← RejectUnknownFieldsStrict (TxCodec.raw_AuthInfoBytes raw) AuthInfo_md;
  authInfo ← Pb.AuthInfo.Unmarshal c_zero (TxCodec.raw_AuthInfoBytes raw);
  _ ← AuthInfo_UnpackInterfaces authInfo;
  Ok (mkWrapper body authInfo (TxCodec.raw_Signatures raw)
        (TxCodec.raw_BodyBytes raw) (TxCodec.raw_AuthInfoBytes raw) hasUnknown).

(** What the accessors read. *)
Definition view (w : wrapper) : outcome (Tx.Tx Msg) :=
  body ← view_body (w_Body w);
  authInfo ← view_authInfo (w_AuthInfo w);
  Ok (Tx.mkTx (Some body) (Some authInfo) (w_Signatures w)).

(** The bytes of the parts, which are encoded when there are none. *)
Definition w_getBodyBytes (w : wrapper) : outcome string :=
  if String.eqb (bodyBz w) "" then must (c_Marshal (w_Body w)) else Ok (bodyBz w).
Definition w_getAuthInfoBytes (w : wrapper) : outcome string :=
  if String.eqb (authInfoBz w) "" then must (c_Marshal (w_AuthInfo w)) else Ok (authInfoBz w).

(** The sign bytes in mode direct and the encoder, on a decoded
    transaction. *)
Definition w_direct_GetSignBytes (mode : Z) (chainID : string) (accnum : Z) (w : wrapper) : outcome string :=
  _ ← fail_if (negb (mode =? TxCodec.SIGN_MODE_DIRECT)) "expected SIGN_MODE_DIRECT";
  bodyBz ← w_getBodyBytes w;
  authInfoBz ← w_getAuthInfoBytes w;
  TxCodec.DirectSignBytes bodyBz authInfoBz chainID accnum.
Definition w_DefaultTxEncoder (w : wrapper) : outcome string :=
  bodyBytes ← w_getBodyBytes w;
  authInfoBytes ← w_getAuthInfoBytes w;
  TxCodec.TxRaw_Marshal (TxCodec.mkTxRaw bodyBytes authInfoBytes (w_Signatures w)).
End tx.

End TxDecoder.
