(* ===== verification/TxDecoderFacts.v ===== *)
(** * Facts about the decoder of transactions

    What the encoder writes passes the checks of the decoder, and the parts of
    a transaction survive. *)

From Stdlib Require Import ZArith Lia Ascii String.
From stdpp Require Import base tactics option list gmap strings.
From S2P Require Import Prelude GoStd Digits SdkInt Coin MultiSig Wire Proto WireMsg SdkMsgs TxProto.
From S2P Require Import Unknown Reward RewardMsgs Descriptors Tx TxCodec TxDecoder.

Local Open Scope Z_scope.

Module TxDecoderFacts.
Import Wire WireMsg Unknown Descriptors BitArray MultiSig TxDecoder.

(** ** Encodings that fit *)

Lemma slen_take n s : (n <= String.length s)%nat → slen (Str.take n s) = Z.of_nat n.
Proof. intros Hn. unfold slen. by rewrite take_length. Qed.

(** [Marshal] returns as many bytes as are written. *)
Lemma marshal_slen size b v : marshal size b = Ok v → slen v = slen b.
Proof.
  unfold marshal. destruct (Z.ltb_spec size (slen b)); [done|]. intros [= <-].
  rewrite slen_take; [done|]. rewrite Str.length_app. lia.
Qed.
Lemma c_Marshal_fits {A} `{L : CodecLaws A} (a : A) v : c_Marshal a = Ok v → slen v < 2 ^ 63 → fits a ∧ v = c_enc a.
Proof.
  intros Hm Hv. pose proof (marshal_slen _ _ _ Hm) as Hl. assert (fits a) as Hf by (unfold fits; lia).
  split; [done|]. unfold c_Marshal in Hm. rewrite marshal_exact in Hm by by apply codec_size. by injection Hm.
Qed.
Lemma c_Marshal_Ok {A} `{L : CodecLaws A} (a : A) : fits a → c_Marshal a = Ok (c_enc a).
Proof. intros Hf. apply marshal_exact. by apply codec_size. Qed.

Lemma TxRaw_Marshal_fits m bz : TxCodec.TxRaw_Marshal m = Ok bz → slen bz < 2 ^ 63 →
  bz = TxCodec.TxRaw_MarshalToSizedBuffer m.
Proof.
  intros Hm Hl. pose proof (marshal_slen _ _ _ Hm) as E.
  destruct (TxCodec.TxRaw_codec m) as [Hm' _]; [lia|]. rewrite Hm' in Hm. by injection Hm.
Qed.

(** ** [varintMinLength] is the length of a varint *)

Lemma sov_range k v : 2 ^ (7 * Z.of_nat k) <= v < 2 ^ (7 * Z.of_nat (S k)) → sov v = Z.of_nat (S k).
Proof.
  revert v. induction k as [|k IH]; intros v Hv.
  - apply sov_small. change (2 ^ (7 * Z.of_nat 0)) with 1 in Hv. change (2 ^ (7 * Z.of_nat 1)) with 128 in Hv. lia.
  - assert (2 ^ (7 * Z.of_nat (S k)) = 128 * 2 ^ (7 * Z.of_nat k)) as E1.
    { replace (7 * Z.of_nat (S k)) with (7 + 7 * Z.of_nat k) by lia. by rewrite Z.pow_add_r by lia. }
    assert (2 ^ (7 * Z.of_nat (S (S k))) = 128 * 2 ^ (7 * Z.of_nat (S k))) as E2.
    { replace (7 * Z.of_nat (S (S k))) with (7 + 7 * Z.of_nat (S k)) by lia. by rewrite Z.pow_add_r by lia. }
    pose proof (Z.pow_pos_nonneg 2 (7 * Z.of_nat k) ltac:(lia) ltac:(lia)).
    rewrite sov_step by lia. rewrite IH; [lia|].
    split; [apply Z.div_le_lower_bound; lia|apply Z.div_lt_upper_bound; lia].
Qed.

Lemma varintMinLength_sov v : 0 <= v < 2 ^ 64 → varintMinLength v = sov v.
Proof.
  intros Hv. unfold varintMinLength. destruct (Z.ltb_spec v (2 ^ 7)) as [H0|H0]; [by rewrite sov_small by lia|].
  repeat match goal with
  | |- context [?v <? 2 ^ (7 * ?k)] =>
      destruct (Z.ltb_spec v (2 ^ (7 * k)));
        [let n := eval vm_compute in (Z.to_nat (k - 1)) in rewrite (sov_range n v) by (split; assumption); done|]
  end.
  rewrite (sov_range 9 v); [done|]. split; [done|]. eapply Z.lt_trans; [apply Hv|done].
Qed.

(** ** The root of a transaction *)

Section raw.
Context `{PL : ProtowireLaws} `{R : Registry}.

Lemma TxRaw_accepted m : slen (TxCodec.TxRaw_MarshalToSizedBuffer m) < 2 ^ 63 →
  accepts TxRaw_md (TxCodec.TxRaw_MarshalToSizedBuffer m).
Proof using PL.
  intros Hl. unfold TxCodec.TxRaw_MarshalToSizedBuffer in *.
  rewrite <- (Str.app_nil_r (concat_map _ _)) in *. accept_message.
Qed.

(** The bytes follow the order of fields from [prev] on, with short lengths. *)
Definition adr027 (prev : Z) (s : string) : Prop :=
  ∀ fuel, (String.length s < fuel)%nat → rejectNonADR027_loop fuel prev s = Ok ().

Lemma adr027_nil prev : adr027 prev "".
Proof using Type. intros [|fuel] Hf; [simpl in Hf; lia|done]. Qed.
Lemma adr027_bytes prev tag s rest : 8 <= tag < 128 → tag mod 8 = 2 → prev <= tag / 8 →
  slen (enc_bytes tag s +:+ rest) < 2 ^ 63 → adr027 (tag / 8) rest → adr027 prev (enc_bytes tag s +:+ rest).
Proof using PL.
  intros Ht Hw Hp Hl Hr [|fuel] Hf; [lia|]. rewrite slen_app in Hl. pose proof (slen_le_enc_bytes tag s).
  pose proof (slen_nonneg s). pose proof (slen_nonneg rest).
  change (enc_bytes tag s +:+ rest) with (String (byte_of tag) "" +:+ ((encodeVarint (slen s) +:+ s) +:+ rest)) in *.
  rewrite <- encodeVarint_small in * by lia. rewrite Str.app_assoc in *.
  set (full := encodeVarint tag +:+ _) in *.
  assert (encodeVarint (tag / 8 * 8 + 2) = encodeVarint tag) as Et by (rewrite <- Hw, tag_split; done).
  cbn [rejectNonADR027_loop]. destruct (String.eqb_spec full "") as [E|_].
  { apply (f_equal String.length) in E. subst full. rewrite Str.length_app in E. pose proof (encodeVarint_length tag). simpl in E. lia. }
  subst full. rewrite <- Et at 1. rewrite consume_tag by (first [apply tag_range; lia|lia]). rewrite Et.
  rewrite (proj2 (Z.ltb_ge _ 0)) by apply slen_nonneg. cbn [Z.eqb Pos.eqb negb].
  rewrite (proj2 (Z.ltb_ge _ prev)) by done. rewrite slice_from_app. cbn [mbind outcome_bind].
  rewrite consume_varint by lia. rewrite (proj2 (Z.ltb_ge _ 0)) by apply slen_nonneg.
  rewrite varintMinLength_sov, slen_encodeVarint, Z.eqb_refl by lia. cbn [negb].
  rewrite <- Et. rewrite consume_field by (first [apply tag_range; lia|lia]). rewrite Et.
  pose proof (slen_nonneg (encodeVarint tag)). pose proof (slen_nonneg (encodeVarint (slen s))).
  rewrite (proj2 (Z.ltb_ge _ 0)) by lia.
  replace (slen (encodeVarint tag) + (slen (encodeVarint (slen s)) + slen s))
    with (slen (encodeVarint tag +:+ (encodeVarint (slen s) +:+ s))) by (rewrite !slen_app; lia).
  replace (encodeVarint tag +:+ (encodeVarint (slen s) +:+ (s +:+ rest)))
    with ((encodeVarint tag +:+ (encodeVarint (slen s) +:+ s)) +:+ rest) in * by (by rewrite !Str.app_assoc).
  rewrite slice_from_app. cbn [mbind outcome_bind]. apply Hr. rewrite !Str.length_app in Hf.
  pose proof (encodeVarint_length tag). lia.
Qed.

Lemma adr027_weaken p q s : p <= q → adr027 q s → adr027 p s.
Proof using Type.
  intros Hpq Hs [|fuel] Hf; [lia|]. specialize (Hs (S fuel) Hf). cbn [rejectNonADR027_loop] in *.
  destruct (String.eqb s ""); [done|]. destruct (ConsumeTag s) as [[num typ] m].
  destruct (m <? 0); [done|]. destruct (negb (typ =? 2)); [done|].
  destruct (Z.ltb_spec num q); [done|]. by rewrite (proj2 (Z.ltb_ge num p)) by lia.
Qed.

Lemma adr027_str prev tag s rest : 8 <= tag < 128 → tag mod 8 = 2 → prev <= tag / 8 →
  slen (enc_str tag s +:+ rest) < 2 ^ 63 → adr027 (tag / 8) rest → adr027 prev (enc_str tag s +:+ rest).
Proof using PL.
  intros Ht Hw Hp Hl Hr. unfold enc_str in *. destruct (String.eqb s ""); [by apply adr027_weaken with (tag / 8)|].
  by apply adr027_bytes.
Qed.

Lemma TxRaw_adr027 prev m : prev <= 1 → slen (TxCodec.TxRaw_MarshalToSizedBuffer m) < 2 ^ 63 →
  adr027 prev (TxCodec.TxRaw_MarshalToSizedBuffer m).
Proof using PL.
  intros Hp Hl. unfold TxCodec.TxRaw_MarshalToSizedBuffer in *. apply adr027_str; [lia|done|done|done|].
  rewrite slen_app in Hl. pose proof (slen_nonneg (enc_str 0xa (TxCodec.raw_BodyBytes m))).
  apply adr027_str; [lia|done|done|lia|]. rewrite slen_app in Hl.
  pose proof (slen_nonneg (enc_str 0x12 (TxCodec.raw_AuthInfoBytes m))).
  assert (∀ l prev, prev <= 3 → slen (concat_map (enc_bytes 0x1a) l) < 2 ^ 63 → adr027 prev (concat_map (enc_bytes 0x1a) l)) as Hs.
  { clear - PL. induction l as [|s l IH]; intros prev Hp Hl; cbn [concat_map] in *; [apply adr027_nil|].
    apply adr027_bytes; [lia|done|done|done|]. rewrite slen_app in Hl. pose proof (slen_nonneg (enc_bytes 0x1a s)).
    apply IH; [done|lia]. }
  apply Hs; [done|lia].
Qed.
End raw.

(** ** Packing and reading back *)

(** What an interface promises of the values that are [packable]: the type
    registered under the URL reads them back, and is known to the registry. *)
Class InterfaceLaws (A : Type) `{Interface A} `{Protowire} `{Registry} := {
  packable : A → Prop;
  any_unpacks a v : packable a → proto_Marshal a = Ok v → slen v < 2 ^ 63 →
    ∃ unmarshal, imap ("/" +:+ MessageName a) = Some unmarshal ∧ unmarshal v = Ok a;
  any_resolves a v : packable a → proto_Marshal a = Ok v → slen v < 2 ^ 63 →
    ∃ md, Resolve ("/" +:+ MessageName a) = Some md ∧ accepts md v }.
#[global] Hint Mode InterfaceLaws ! - - - : typeclass_instances.

Lemma each_Forall2 {A B} (f : A → outcome B) l l' : each f l = Ok l' → Forall2 (λ a b, f a = Ok b) l l'.
Proof.
  revert l'. induction l as [|a l IH]; intros l' E; cbn [each] in E; [injection E as <-; constructor|].
  apply bind_Ok in E as (b & Eb & E). apply bind_Ok in E as (bs & Ebs & E). injection E as <-.
  constructor; [done|by apply IH].
Qed.
Lemma each_Ok {A B} (f : A → outcome B) l l' : Forall2 (λ a b, f a = Ok b) l l' → each f l = Ok l'.
Proof. induction 1 as [|a b l l' Ha _ IH]; [done|]. cbn [each]. rewrite Ha. cbn [mbind outcome_bind]. by rewrite IH. Qed.

(** A packed list: what holds of every element and its packing. *)
Lemma each_pack {A B} (f : A → outcome B) (g : B → outcome A) (ok : A → Prop) (small good : B → Prop) l l' :
  (∀ a b, ok a → f a = Ok b → small b → g b = Ok a ∧ good b) →
  each f l = Ok l' → Forall ok l → Forall small l' → each g l' = Ok l ∧ Forall good l'.
Proof.
  intros Hstep E%each_Forall2 Hok Hsm. split.
  - apply each_Ok. induction E as [|a b l l' Ha _ IH]; [done|].
    apply Forall_cons in Hok as [Ha1 Hok], Hsm as [Hb Hsm]. constructor; [by apply (Hstep a b)|by apply IH].
  - induction E as [|a b l l' Ha _ IH]; [done|].
    apply Forall_cons in Hok as [Ha1 Hok], Hsm as [Hb Hsm]. constructor; [by apply (Hstep a b)|by apply IH].
Qed.

Section interface.
Context {A} `{L : InterfaceLaws A}.

Lemma unpack_packed (a : A) any : packable a → NewAnyWithValue a = Ok any → slen (Sdk.Any.Value any) < 2 ^ 63 →
  UnpackAny (Some any) = Ok (Some a) ∧ plain any ∧ known_any any.
Proof using L.
  intros Hp E Hl. unfold NewAnyWithValue in E. apply bind_Ok in E as (v & Ev & E). injection E as <-.
  cbn [Sdk.Any.Value] in Hl. destruct (any_unpacks a v Hp Ev Hl) as (f & Hf & Hfv).
  destruct (any_resolves a v Hp Ev Hl) as (md & Hmd & Hacc). repeat split.
  - unfold UnpackAny. cbn [Sdk.Any.TypeUrl Sdk.Any.Value]. cbn [String.eqb append]. rewrite Hf. cbn [or_err mbind outcome_bind].
    by rewrite Hfv.
  - by exists md.
Qed.
End interface.

(** Coins, bits and modes. *)
Lemma view_pack_coins l : each view_coin (map pack_coin l) = Ok l.
Proof. induction l as [|[d a] l IH]; [done|]. cbn [map each]. cbn. by rewrite IH. Qed.

Lemma bytes_string_bytes l : Forall (λ z, 0 <= z < 256) l → string_bytes (bytes_string l) = l.
Proof. induction 1 as [|z l Hz _ IH]; [done|]. cbn [bytes_string string_bytes]. by rewrite byte_val_of, IH. Qed.

Definition bits_ok (b : CompactBitArray) : Prop :=
  0 <= ExtraBitsStored b < 2 ^ 32 ∧ Forall (λ z, 0 <= z < 256) (Elems b).
Lemma view_pack_bits b : bits_ok b → view_bits (pack_bits b) = b ∧ plain (pack_bits b).
Proof. intros [H1 H2]. split; [|done]. destruct b. unfold view_bits, pack_bits. cbn in *. by rewrite bytes_string_bytes. Qed.

#[warnings="-register-all"]
Inductive mode_ok : Tx.ModeInfo → Prop :=
  | mode_ok_unset : mode_ok Tx.ModeUnset
  | mode_ok_single mode : -2 ^ 31 <= mode < 2 ^ 31 → mode_ok (Tx.ModeInfo_Single mode)
  | mode_ok_multi b l : from_option bits_ok True b → Forall mode_ok l → mode_ok (Tx.ModeInfo_Multi b l).

Section tx_mode_ind.
Context (P : Tx.ModeInfo → Prop) (HN : P Tx.ModeNil) (HU : P Tx.ModeUnset) (HS : ∀ m, P (Tx.ModeInfo_Single m)).
Context (HM : ∀ b l, Forall P l → P (Tx.ModeInfo_Multi b l)).
Fixpoint tx_mode_ind (m : Tx.ModeInfo) : P m :=
  match m with
  | Tx.ModeNil => HN
  | Tx.ModeUnset => HU
  | Tx.ModeInfo_Single m => HS m
  | Tx.ModeInfo_Multi b l =>
      HM b l ((fix go (l : list Tx.ModeInfo) : Forall P l :=
                 match l with [] => List.Forall_nil P | m :: l => List.Forall_cons P m l (tx_mode_ind m) (go l) end) l)
  end.
End tx_mode_ind.

Lemma view_pack_mode m p : mode_ok m → pack_mode m = Ok p → view_mode p = m ∧ plain p.
Proof.
  revert p. induction m as [| |mode|b l IH] using tx_mode_ind; intros p Hm E; [done|..].
  - injection E as <-. split; [done|constructor].
  - injection E as <-. inversion_clear Hm. split; [done|by constructor].
  - cbn [pack_mode] in E. apply bind_Ok in E as (ps & Eps & E). injection E as <-.
    inversion_clear Hm as [| |b' l' Hb Hl]. apply each_Forall2 in Eps.
    assert (map view_mode ps = l ∧ Forall Pb.ModeInfo.plain_mode ps) as [Hv Hp].
    { induction Eps as [|m p l ps Hmp _ IHl]; [done|]. apply Forall_cons in IH as [IH1 IH], Hl as [Hl1 Hl].
      destruct (IH1 p Hl1 Hmp) as [Hv Hp], (IHl IH Hl) as [Hvs Hps]. cbn [map].
      rewrite Hv, Hvs. split; [done|by constructor]. }
    cbn [view_mode]. rewrite Hv. destruct b as [b|]; cbn [option_map from_option] in *.
    + destruct (view_pack_bits b Hb) as [-> Hpb]. split; [done|by constructor].
    + split; [done|by constructor].
Qed.

(** ** The two parts of a transaction *)

Section parts.
Context {Msg : Type} `{PL : ProtowireLaws} `{AT : AppTypes}.
Context `{IM : !Interface Msg} `{LM : !InterfaceLaws Msg} `{IK : !Interface PubKey} `{LK : !InterfaceLaws PubKey}.

Definition body_ok (b : Tx.TxBody Msg) : Prop :=
  Forall packable (Tx.Messages b) ∧ is_uint64 (Tx.TimeoutHeight b) = true ∧
  Forall known_any (Tx.ExtensionOptions b).

Definition signer_ok (si : Tx.SignerInfo) : Prop :=
  from_option packable True (Tx.si_PublicKey si) ∧
  (Tx.si_ModeInfo si = Tx.ModeNil ∨ mode_ok (Tx.si_ModeInfo si)) ∧ is_uint64 (Tx.si_Sequence si) = true.
Definition fee_ok (f : Tx.Fee) : Prop :=
  Forall (λ c, Int.valid (Amount c)) (Tx.fee_Amount f) ∧ is_uint64 (Tx.GasLimit f) = true.
Definition authInfo_ok (a : Tx.AuthInfo) : Prop :=
  Forall signer_ok (Tx.SignerInfos a) ∧ from_option fee_ok True (Tx.ai_Fee a).

Lemma fits_values (l : list Sdk.Any.t) tag : slen (concat_map (enc_msg tag) l) < 2 ^ 63 →
  Forall (λ any, slen (Sdk.Any.Value any) < 2 ^ 63) l.
Proof using Type.
  intros Hl. apply Forall_forall. intros any Hany. pose proof (slen_concat_elem (enc_msg tag) l any Hany).
  pose proof (slen_le_enc_msg tag any). pose proof (value_inside any). unfold slen in *. lia.
Qed.

Lemma body_pack_view b p : pack_body b = Ok p → fits p → body_ok b →
  view_body p = Ok b ∧ TxBody_UnpackInterfaces (Msg := Msg) p = Ok () ∧ plain p ∧ known p.
Proof using PL AT LM.
  intros E Hf (Hm & Ht & He). unfold pack_body in E. apply bind_Ok in E as (anys & Ea & E). injection E as <-.
  assert (Forall (λ any, slen (Sdk.Any.Value any) < 2 ^ 63) anys) as Hv.
  { apply (fits_values anys 0xa). unfold fits, c_enc, Pb.TxBody.codec, Pb.TxBody.MarshalToSizedBuffer in Hf.
    cbn [Pb.TxBody.Messages] in Hf. rewrite slen_app in Hf.
    match type of Hf with _ + slen ?s < _ => pose proof (slen_nonneg s) end. lia. }
  edestruct (each_pack (NewAnyWithValue (A := Msg)) view_msg packable) with (good := λ any, plain any ∧ known_any any)
    as [Hview Hgood]; [|exact Ea|exact Hm|exact Hv|].
  { intros m any Hp Hpk Hs. destruct (unpack_packed m any Hp Hpk Hs) as (Hu & Hpl & Hk). unfold view_msg. by rewrite Hu. }
  assert (Forall2 (λ any om, UnpackAny (Some any) = Ok om) anys (map Some (Tx.Messages b))) as Hun.
  { apply each_Forall2 in Hview. apply Forall2_fmap_r. apply (Forall2_impl _ _ _ _ Hview). intros any m E.
    unfold view_msg in E. apply bind_Ok in E as (om & Eo & E). rewrite Eo. destruct om; [by injection E as ->|done]. }
  split_and!.
  - unfold view_body. cbn [Pb.TxBody.Messages]. rewrite Hview. by destruct b.
  - unfold TxBody_UnpackInterfaces. cbn [Pb.TxBody.Messages]. by rewrite (each_Ok _ _ _ Hun).
  - split_and!; [|done| |done]; cbn [Pb.TxBody.Messages Pb.TxBody.ExtensionOptions].
    + apply (Forall_impl _ _ _ Hgood). by intros any [? _].
    + apply (Forall_impl _ _ _ He). by intros any [? _].
  - split_and!; [|done|done]. apply (Forall_impl _ _ _ Hgood). by intros any [_ ?].
Qed.

Lemma signer_pack_view si p : pack_signerInfo si = Ok p → fits p → signer_ok si →
  view_signerInfo p = Ok si ∧ plain p ∧ known p.
Proof using PL AT LK.
  intros E Hf (Hk & Hm & Hs). unfold pack_signerInfo in E. apply bind_Ok in E as (pk & Epk & E).
  apply bind_Ok in E as (m & Em & E). injection E as <-.
  assert (UnpackAny pk = Ok (Tx.si_PublicKey si) ∧ from_option plain True pk ∧ from_option known_any True pk) as (Hu & Hpl & Hkn).
  { destruct (Tx.si_PublicKey si) as [k|]; cbn [through from_option] in *; [|by injection Epk as <-].
    apply bind_Ok in Epk as (any & Ea & E). injection E as <-. apply unpack_packed; [done|done|].
    unfold fits, c_enc, Pb.SignerInfo.codec, Pb.SignerInfo.MarshalToSizedBuffer in Hf.
    cbn [Pb.SignerInfo.PublicKey enc_opt] in Hf. rewrite slen_app in Hf.
    match type of Hf with _ + slen ?s < _ => pose proof (slen_nonneg s) end.
    pose proof (slen_le_enc_msg 0xa any). pose proof (value_inside any). unfold slen in *. lia. }
  assert (view_mode_ptr m = Tx.si_ModeInfo si ∧ from_option plain True m) as [Hvm Hpm].
  { destruct Hm as [Hm|Hm].
    - rewrite Hm in *. by injection Em as <-.
    - destruct (Tx.si_ModeInfo si) eqn:Emode; cbn [pack_mode_ptr] in Em; [inversion Hm|..];
        apply bind_Ok in Em as (q & Eq & E); injection E as <-; by apply view_pack_mode. }
  split_and!; [|by split_and!|split; [done|by destruct m]].
  unfold view_signerInfo. cbn [Pb.SignerInfo.PublicKey Pb.SignerInfo.ModeInfo Pb.SignerInfo.Sequence].
  rewrite Hu. cbn [mbind outcome_bind]. rewrite Hvm. by destruct si.
Qed.

Lemma authInfo_pack_view a p : pack_authInfo a = Ok p → fits p → authInfo_ok a →
  view_authInfo p = Ok a ∧ AuthInfo_UnpackInterfaces p = Ok () ∧ plain p ∧ known p.
Proof using PL AT LK.
  intros E Hf [Hs Hfee]. unfold pack_authInfo in E. apply bind_Ok in E as (infos & Ei & E). injection E as <-.
  assert (Forall (λ i, fits (A := Pb.SignerInfo.t) i) infos) as Hv.
  { unfold fits, c_enc, Pb.AuthInfo.codec, Pb.AuthInfo.MarshalToSizedBuffer in Hf.
    cbn [Pb.AuthInfo.SignerInfos] in Hf. rewrite slen_app in Hf.
    match type of Hf with _ + slen ?s < _ => pose proof (slen_nonneg s) end.
    apply Forall_forall. intros i Hi. pose proof (slen_concat_elem (enc_msg 0xa) infos i Hi).
    pose proof (slen_le_enc_msg 0xa i). unfold fits. lia. }
  edestruct (each_pack pack_signerInfo view_signerInfo signer_ok) with (good := λ i : Pb.SignerInfo.t, plain i ∧ known i)
    as [Hview Hgood]; [|exact Ei|exact Hs|exact Hv|].
  { intros si i Hok Hpk Hfi. by apply signer_pack_view. }
  assert (through view_fee (option_map pack_fee (Tx.ai_Fee a)) = Ok (Tx.ai_Fee a) ∧
    from_option plain True (option_map pack_fee (Tx.ai_Fee a)) ∧
    from_option known True (option_map pack_fee (Tx.ai_Fee a))) as (Hvf & Hpf & Hkf).
  { destruct (Tx.ai_Fee a) as [[coins gas payer granter]|]; [|done]. destruct Hfee as [Hc Hg]. cbn in Hc, Hg.
    cbn [option_map through from_option]. split_and!.
    - unfold view_fee. change (Pb.Fee.Amount (pack_fee _)) with (map pack_coin coins). by rewrite view_pack_coins.
    - split; [|done]. apply Forall_fmap. exact Hc.
    - apply Forall_fmap, Forall_true. done. }
  split_and!.
  - unfold view_authInfo. cbn [Pb.AuthInfo.SignerInfos Pb.AuthInfo.Fee]. rewrite Hview. cbn [mbind outcome_bind].
    rewrite Hvf. by destruct a.
  - unfold AuthInfo_UnpackInterfaces. cbn [Pb.AuthInfo.SignerInfos].
    assert (each SignerInfo_UnpackInterfaces infos = Ok (map (λ _, ()) infos)) as ->; [|done].
    apply each_Ok. apply each_Forall2 in Hview. clear -Hview. induction Hview as [|i si infos sis Hi _ IH]; constructor; [|done].
    unfold view_signerInfo in Hi. apply bind_Ok in Hi as (pk & Epk & _). unfold SignerInfo_UnpackInterfaces. by rewrite Epk.
  - split; [|exact Hpf]. apply (Forall_impl _ _ _ Hgood). by intros i [? _].
  - split; [|exact Hkf]. apply (Forall_impl _ _ _ Hgood). by intros i [_ ?].
Qed.
End parts.

End TxDecoderFacts.
