(* ===== verification/TxDecoderProps.v ===== *)
(** * The transaction codec: what the node decodes is what the client encoded

    Decoding inverts encoding, the node signs and stores the client's bytes,
    and which other bytes decode to the same transaction. *)

From Stdlib Require Import ZArith Lia Ascii String.
From stdpp Require Import base tactics option list gmap strings.
From S2P Require Import Prelude GoStd Digits SdkInt Coin MultiSig Wire Proto WireMsg SdkMsgs TxProto.
From S2P Require Import Unknown Reward RewardMsgs Descriptors Tx TxCodec TxDecoder TxDecoderFacts.

Local Open Scope Z_scope.

Module TxDecoderProps.
Import Wire WireMsg Unknown Descriptors BitArray MultiSig TxDecoder TxDecoderFacts.

Lemma accepts_RejectUnknownFields `{Protowire} `{Registry} allow bz md :
  accepts md bz → RejectUnknownFields allow bz md = Ok false.
Proof. intros Ha. apply Ha. lia. Qed.
Lemma accepts_strict `{Protowire} `{Registry} bz md : accepts md bz → RejectUnknownFieldsStrict bz md = Ok ().
Proof. intros Ha. unfold RejectUnknownFieldsStrict. by rewrite accepts_RejectUnknownFields. Qed.

Section codec.
Context {Msg : Type} `{PL : ProtowireLaws} `{AT : AppTypes}.
Context `{IM : !Interface Msg} `{LM : !InterfaceLaws Msg} `{IK : !Interface PubKey} `{LK : !InterfaceLaws PubKey}.
Abbreviation TxEncoder := (TxCodec.DefaultTxEncoder (body_Marshal (Msg := Msg)) authInfo_Marshal).
Abbreviation sign_bytes := (TxCodec.direct_GetSignBytes (body_Marshal (Msg := Msg)) authInfo_Marshal).
Abbreviation decode := (DefaultTxDecoder (Msg := Msg)).

(** The decoder on bytes whose root is read as [raw]. *)
Lemma decode_parts bz raw p q :
  adr027 0 bz → accepts TxRaw_md bz → TxCodec.TxRaw_Unmarshal bz = Ok raw →
  TxCodec.raw_BodyBytes raw = c_enc p → TxCodec.raw_AuthInfoBytes raw = c_enc q → fits p → fits q →
  TxBody_UnpackInterfaces (Msg := Msg) p = Ok () → plain p → known p →
  AuthInfo_UnpackInterfaces q = Ok () → plain q → known q →
  decode bz = Ok (mkWrapper p q (TxCodec.raw_Signatures raw) (c_enc p) (c_enc q) false).
Proof using PL AT.
  intros Hadr Hacc Hraw Hb Ha Hfp Hfq Hup Hpp Hkp Huq Hpq Hkq. unfold DefaultTxDecoder, rejectNonADR027TxRaw.
  rewrite Hadr by lia. cbn [mbind outcome_bind]. rewrite accepts_strict by done. cbn [mbind outcome_bind].
  rewrite Hraw. cbn [mbind outcome_bind]. rewrite Hb, Ha.
  rewrite accepts_RejectUnknownFields by exact (described p Hkp Hfp). cbn [mbind outcome_bind].
  rewrite (codec_inverse p Hpp Hfp : Pb.TxBody.Unmarshal c_zero (c_enc p) = Ok p). cbn [mbind outcome_bind].
  rewrite Hup. cbn [mbind outcome_bind]. rewrite accepts_strict by exact (described q Hkq Hfq). cbn [mbind outcome_bind].
  rewrite (codec_inverse q Hpq Hfq : Pb.AuthInfo.Unmarshal c_zero (c_enc q) = Ok q). cbn [mbind outcome_bind].
  by rewrite Huq.
Qed.

(** What an encoded transaction consists of. *)
Lemma encoded_parts (tx : Tx.Tx Msg) b a bz :
  Tx.Body tx = Some b → Tx.tx_AuthInfo tx = Some a → body_ok b → authInfo_ok a →
  TxEncoder tx = Ok bz → slen bz < 2 ^ 63 →
  ∃ p q, pack_body b = Ok p ∧ pack_authInfo a = Ok q ∧ fits p ∧ fits q ∧
    TxCodec.getBodyBytes body_Marshal tx = Ok (c_enc p) ∧ TxCodec.getAuthInfoBytes authInfo_Marshal tx = Ok (c_enc q) ∧
    bz = TxCodec.TxRaw_MarshalToSizedBuffer (TxCodec.mkTxRaw (c_enc p) (c_enc q) (Tx.Signatures tx)).
Proof using PL AT LM LK.
  intros Hb Ha Hbok Haok E Hl. unfold TxCodec.DefaultTxEncoder in E.
  apply bind_Ok in E as (bb & Ebb & E). apply bind_Ok in E as (aa & Eaa & E).
  pose proof (TxRaw_Marshal_fits _ _ E Hl) as ->. rename Hl into Hl0.
  assert (slen bb < 2 ^ 63 ∧ slen aa < 2 ^ 63) as [Hlb Hla].
  { unfold TxCodec.TxRaw_MarshalToSizedBuffer in Hl0. cbn [TxCodec.raw_BodyBytes TxCodec.raw_AuthInfoBytes] in Hl0.
    rewrite !slen_app in Hl0. pose proof (slen_le_enc_str 0xa bb). pose proof (slen_le_enc_str 0x12 aa).
    match type of Hl0 with _ + (_ + slen ?s) < _ => pose proof (slen_nonneg s) end.
    pose proof (slen_nonneg bb). pose proof (slen_nonneg aa). lia. }
  pose proof Ebb as Ebb'. pose proof Eaa as Eaa'. unfold TxCodec.getBodyBytes, TxCodec.getAuthInfoBytes in Ebb', Eaa'.
  rewrite Hb in Ebb'. rewrite Ha in Eaa'. unfold body_Marshal in Ebb'. unfold authInfo_Marshal in Eaa'.
  cbn [or_panic mbind outcome_bind] in Ebb', Eaa'.
  destruct (pack_body b) as [p| |] eqn:Ep; [|done..]. destruct (pack_authInfo a) as [q| |] eqn:Eq; [|done..].
  cbn [mbind outcome_bind] in Ebb', Eaa'.
  destruct (c_Marshal p) as [pb| |] eqn:Ecp; [|done..]. destruct (c_Marshal q) as [qb| |] eqn:Ecq; [|done..].
  injection Ebb' as ->. injection Eaa' as ->.
  destruct (c_Marshal_fits p bb Ecp Hlb) as [Hfp ->], (c_Marshal_fits q aa Ecq Hla) as [Hfq ->].
  by exists p, q.
Qed.

(** C14: the node reads what the client wrote.  When the encoder returns bytes
    for a transaction whose messages and keys are of registered types, whose
    numbers fit their fields and whose amounts are in range, the decoder
    accepts the bytes (they pass the checks of ADR-027 and of unknown fields),
    what the node reads of the result is the transaction, the bytes to sign are
    the ones the client signed, and encoding it again gives the same bytes. *)
Theorem decoder_inverts_encoder (tx : Tx.Tx Msg) b a bz :
  Tx.Body tx = Some b → Tx.tx_AuthInfo tx = Some a → body_ok b → authInfo_ok a →
  TxEncoder tx = Ok bz → slen bz < 2 ^ 63 →
  ∃ w, decode bz = Ok w ∧ view w = Ok tx ∧
    (∀ mode chainID accnum, w_direct_GetSignBytes mode chainID accnum w = sign_bytes mode chainID accnum tx) ∧
    w_DefaultTxEncoder w = Ok bz.
Proof using PL AT LM LK.
  intros Hb Ha Hbok Haok E Hl.
  destruct (encoded_parts tx b a bz Hb Ha Hbok Haok E Hl) as (p & q & Ep & Eq & Hfp & Hfq & Hgb & Hga & Hbz).
  destruct (body_pack_view b p Ep Hfp Hbok) as (Hvp & Hup & Hpp & Hkp).
  destruct (authInfo_pack_view a q Eq Hfq Haok) as (Hvq & Huq & Hpq & Hkq).
  rewrite Hbz in Hl. destruct (TxCodec.TxRaw_codec _ Hl) as [Hm Hu]. eexists. split.
  { rewrite Hbz. by apply decode_parts; [apply TxRaw_adr027|apply TxRaw_accepted|exact Hu|..]. }
  cbn [TxCodec.raw_Signatures]. set (w := mkWrapper _ _ _ _ _ _).
  assert (w_getBodyBytes w = Ok (c_enc p)) as Hwb.
  { subst w. unfold w_getBodyBytes. cbn [bodyBz w_Body]. rewrite c_Marshal_Ok by done. by case_match. }
  assert (w_getAuthInfoBytes w = Ok (c_enc q)) as Hwa.
  { subst w. unfold w_getAuthInfoBytes. cbn [authInfoBz w_AuthInfo]. rewrite c_Marshal_Ok by done. by case_match. }
  split_and!.
  - subst w. unfold view. cbn [w_Body w_AuthInfo w_Signatures]. rewrite Hvp. cbn [mbind outcome_bind]. rewrite Hvq.
    destruct tx. cbn in *. by subst.
  - intros mode chainID accnum. unfold w_direct_GetSignBytes, TxCodec.direct_GetSignBytes.
    by rewrite Hwb, Hwa, Hgb, Hga.
  - unfold w_DefaultTxEncoder. rewrite Hwb, Hwa. cbn [mbind outcome_bind]. subst w. cbn [w_Signatures]. by rewrite Hm, Hbz.
Qed.

(** ** Other bytes of the same transaction *)

(** A body in front of the body is read and dropped. *)
Lemma padded_raw junk m : TxCodec.raw_BodyBytes m ≠ "" →
  slen (enc_bytes 0xa junk +:+ TxCodec.TxRaw_MarshalToSizedBuffer m) < 2 ^ 63 →
  TxCodec.TxRaw_Unmarshal (enc_bytes 0xa junk +:+ TxCodec.TxRaw_MarshalToSizedBuffer m) = Ok m.
Proof using Type.
  destruct m as [b a sigs]. cbn [TxCodec.raw_BodyBytes]. intros Hb Hl. unfold TxCodec.TxRaw_Unmarshal. decode_start.
  unfold TxCodec.TxRaw_MarshalToSizedBuffer in *.
  cbn [TxCodec.raw_BodyBytes TxCodec.raw_AuthInfoBytes TxCodec.raw_Signatures] in *.
  unfold enc_str in * |-. unfold enc_str at 1. rewrite (proj2 (String.eqb_neq _ _) Hb) in *. fold (enc_str 0x12 a) in *.
  rewrite <- (Str.app_nil_r (concat_map _ _)) in *.
  eapply decodes_bytes; [lia|done|intros; reflexivity|assumption|assumption|intros ?].
  eapply decodes_bytes; [lia|done|intros; reflexivity|assumption|assumption|intros ?].
  decode_str.
  apply decodes_repeated with (add := TxCodec.raw_add_sig); [|assumption|intros _].
  - intros t r m m' _ Hlr. eapply decodes_bytes; [lia|done|intros; reflexivity|done|done].
  - rewrite TxCodec.foldl_add_sig. apply decodes_nil.
Qed.

(** C24: transactions are malleable.  The check of ADR-027 refuses a field
    number below the one before, not an equal one, so any body can be put in
    front of the body of an encoded transaction: the bytes are different and
    longer, and the node decodes them to the same transaction, with the same
    signatures over the same bytes. *)
Theorem padded_transaction_accepted (tx : Tx.Tx Msg) b a bz junk :
  Tx.Body tx = Some b → Tx.tx_AuthInfo tx = Some a → body_ok b → authInfo_ok a →
  TxEncoder tx = Ok bz → TxCodec.getBodyBytes body_Marshal tx ≠ Ok "" →
  slen (enc_bytes 0xa junk +:+ bz) < 2 ^ 63 →
  decode (enc_bytes 0xa junk +:+ bz) = decode bz ∧
  slen bz + slen junk < slen (enc_bytes 0xa junk +:+ bz) ∧
  ∃ w, decode bz = Ok w ∧ view w = Ok tx.
Proof using PL AT LM LK.
  intros Hb Ha Hbok Haok E Hne Hl. pose proof Hl as Hl'. rewrite slen_app in Hl'. pose proof (slen_nonneg (enc_bytes 0xa junk)).
  destruct (encoded_parts tx b a bz Hb Ha Hbok Haok E ltac:(lia)) as (p & q & Ep & Eq & Hfp & Hfq & Hgb & Hga & Hbz).
  destruct (body_pack_view b p Ep Hfp Hbok) as (Hvp & Hup & Hpp & Hkp).
  destruct (authInfo_pack_view a q Eq Hfq Haok) as (Hvq & Huq & Hpq & Hkq).
  set (raw := TxCodec.mkTxRaw (c_enc p) (c_enc q) (Tx.Signatures tx)) in *.
  assert (slen (TxCodec.TxRaw_MarshalToSizedBuffer raw) < 2 ^ 63) as Hlr by (rewrite <- Hbz; lia).
  destruct (TxCodec.TxRaw_codec _ Hlr) as [_ Hu].
  assert (decode bz = Ok (mkWrapper p q (Tx.Signatures tx) (c_enc p) (c_enc q) false)) as Hd.
  { rewrite Hbz. by apply (decode_parts _ raw); [apply TxRaw_adr027|apply TxRaw_accepted|exact Hu|..]. }
  split_and!.
  - rewrite Hd. rewrite Hbz in Hl |- *. apply (decode_parts _ raw); try done.
    + apply adr027_bytes; [lia|done|done|done|]. by apply TxRaw_adr027.
    + eapply accepts_text; [lia|done|reflexivity|field_desc|exact Hl|intros _]. by apply TxRaw_accepted.
    + apply padded_raw; [|done]. subst raw. cbn [TxCodec.raw_BodyBytes]. intros Ez. by rewrite Ez in Hgb.
  - rewrite slen_app. pose proof (slen_le_enc_bytes 0xa junk). unfold enc_bytes. rewrite slen_cons, slen_app.
    pose proof (slen_nonneg (encodeVarint (slen junk))). lia.
  - eexists. split; [exact Hd|]. unfold view. cbn [w_Body w_AuthInfo w_Signatures]. rewrite Hvp. cbn [mbind outcome_bind].
    rewrite Hvq. destruct tx. cbn in *. by subst.
Qed.

(** ** The decoder returns on all bytes *)

Hypothesis types_named : ∀ name md, MessageType name = Some md → named_messages md.
Hypothesis urls_named : ∀ url md, Resolve url = Some md → named_messages md.
Hypothesis msgs_return : ∀ url f v, imap (A := Msg) url = Some f → returns (f v).
Hypothesis keys_return : ∀ url f v, imap (A := PubKey) url = Some f → returns (f v).

Lemma returns_bind {B C} (o : outcome B) (f : B → outcome C) : returns o → (∀ b, o = Ok b → returns (f b)) → returns (b ← o; f b).
Proof using Type. destruct o; cbn; auto. Qed.

Lemma adr027_total fuel prev bz : (String.length bz < fuel)%nat → returns (rejectNonADR027_loop fuel prev bz).
Proof using PL.
  revert prev bz. induction fuel as [|fuel IH]; intros prev bz Hf; [lia|]. cbn [rejectNonADR027_loop].
  destruct (String.eqb bz ""); [done|]. pose proof (consume_tag_length bz) as Ht. destruct (ConsumeTag bz) as [[num typ] m].
  cbn [snd] in Ht. destruct (Z.ltb_spec m 0); [done|]. destruct (negb (typ =? 2)); [done|]. destruct (num <? prev); [done|].
  rewrite slice_from_in by lia. cbn [mbind outcome_bind]. destruct (ConsumeVarint _) as [len n].
  destruct (n <? 0); [done|]. destruct (negb (varintMinLength len =? n)); [done|].
  pose proof (consume_field_length bz) as Hfl. destruct (ConsumeField bz) as [[num' typ'] m']. cbn [snd] in Hfl.
  destruct (Z.ltb_spec m' 0); [done|]. rewrite slice_from_in by lia. cbn [mbind outcome_bind].
  apply IH. rewrite drop_length. unfold slen in *. lia.
Qed.

Lemma each_returns {B C} (f : B → outcome C) l : (∀ x, returns (f x)) → returns (each f l).
Proof using Type. intros Hf. induction l as [|x l IH]; [done|]. cbn [each]. apply returns_bind; [done|]. intros. by apply returns_bind. Qed.
Lemma UnpackAny_returns {B} `{I : !Interface B} any : (∀ url f v, imap (A := B) url = Some f → returns (f v)) →
  returns (UnpackAny (A := B) any).
Proof using Type.
  intros Hf. unfold UnpackAny. destruct any as [any|]; [|done]. case_match; [done|].
  destruct (imap _) as [f|] eqn:E; [|done]. cbn [or_err mbind outcome_bind]. apply returns_bind; [by apply (Hf _ _ _ E)|done].
Qed.

Lemma RejectUnknownFields_returns allow bz md : named_messages md → returns (RejectUnknownFields allow bz md).
Proof using PL types_named urls_named. intros Hmd. apply reject_total; [done|done|done|lia]. Qed.
Lemma strict_returns bz md : named_messages md → returns (RejectUnknownFieldsStrict bz md).
Proof using PL types_named urls_named. intros Hmd. apply returns_bind; [by apply RejectUnknownFields_returns|done]. Qed.

Lemma app_named md name : (name, md) ∈ descriptors → named_messages md.
Proof using AT types_named. intros H1. by apply (types_named name), AT. Qed.

(** C25: no bytes crash the decoder.  On any bytes whatsoever it returns a
    transaction or an error and never panics, when the decoders of the
    registered types return and the registered types name only messages and
    enums. *)
Theorem DefaultTxDecoder_total bz : returns (decode bz).
Proof using PL AT types_named urls_named msgs_return keys_return.
  unfold DefaultTxDecoder.
  apply returns_bind; [apply adr027_total; lia|intros _ _].
  apply returns_bind; [apply strict_returns; by eapply (app_named _ "cosmos.tx.v1beta1.TxRaw"); unfold descriptors; set_solver|intros _ _].
  apply returns_bind; [|intros raw _].
  { apply unmarshal_total. intros. unfold TxCodec.TxRaw_handle. handle_shorter. }
  apply returns_bind; [apply RejectUnknownFields_returns; by eapply (app_named _ "cosmos.tx.v1beta1.TxBody"); unfold descriptors; set_solver|intros flag _].
  apply returns_bind; [exact (codec_total (A := Pb.TxBody.t) c_zero _)|intros body _].
  apply returns_bind.
  { apply returns_bind; [|done]. apply each_returns. intros any. by apply UnpackAny_returns. }
  intros _ _. apply returns_bind; [apply strict_returns; by eapply (app_named _ "cosmos.tx.v1beta1.AuthInfo"); unfold descriptors; set_solver|intros _ _].
  apply returns_bind; [exact (codec_total (A := Pb.AuthInfo.t) c_zero _)|intros authInfo _].
  apply returns_bind; [|done]. apply returns_bind; [|done]. apply each_returns. intros si.
  apply returns_bind; [|done]. by apply UnpackAny_returns.
Qed.
End codec.

End TxDecoderProps.
