(* ===== verification/RewardFacts.v ===== *)
(** * Lemmas about x/reward

    What each keeper operation does to the collateral, to the recorded supply
    and to the bank, proved against the bank contract [BankLaws]. *)

From Stdlib Require Import ZArith Lia Ascii String.
From stdpp Require Import base tactics option list gmap sorting strings.
From S2P Require Import Prelude GoStd Digits SdkInt Decimal Coin CoinFacts CoinProps DecCoin.
From S2P Require Import Chain Keepers Wire Proto Store Address Reward.

Local Open Scope Z_scope.
Import Store Reward.

(** The two ranges of keys that count as collateral. *)
Local Abbreviation REC := "rec_record/".
Local Abbreviation META := "rec_meta/".

Definition collateral (kv : gmap string value) : Z :=
  Z.of_nat (count REC kv) + Z.of_nat (count META kv).

(** The stored total: the bytes [SetSupply] leaves for [z]. *)
Definition supply_bytes (z : Z) : string :=
  Supply_MarshalToSizedBuffer (mkSupply (Int.to_String z) "").
Definition supply_is (kv : gmap string value) (z : Z) : Prop :=
  (kv !! SupplyKey = None ∧ z = 0) ∨
  (kv !! SupplyKey = Some (VBytes (supply_bytes z)) ∧ Int.valid z).

Lemma supply_is_valid kv z : supply_is kv z → Int.valid z.
Proof. intros [[_ ->]|[_ ?]]; [done|done]. Qed.

Lemma to_String_length z : Int.valid z → Wire.slen (Int.to_String z) <= 80.
Proof.
  intros Hv. unfold Int.valid in Hv. unfold Int.to_String, Big.to_string, Wire.slen.
  assert (Z.abs z < 10 ^ Z.of_nat 79).
  { eapply Z.lt_trans; [exact Hv|]. by vm_compute. }
  destruct (Z.ltb_spec z 0).
  - cbn [String.length].
    pose proof (print_nonneg_length (- z) 79 ltac:(lia) ltac:(lia)) as Hl. lia.
  - pose proof (print_nonneg_length z 79 ltac:(lia) ltac:(lia)) as Hl. lia.
Qed.

Lemma supply_bytes_length z : Int.valid z → Wire.slen (supply_bytes z) < 2 ^ 63.
Proof.
  intros Hv. pose proof (to_String_length z Hv) as Hl.
  pose proof (Wire.slen_nonneg (Int.to_String z)).
  unfold supply_bytes, Supply_MarshalToSizedBuffer. cbn [Supply_unrecognized Supply_Minted].
  rewrite Wire.slen_app. change (Wire.slen "") with 0.
  unfold Wire.enc_str. destruct (String.eqb _ ""); [done|].
  unfold Wire.enc_bytes. rewrite Wire.slen_cons, Wire.slen_app.
  assert (Wire.encodeVarint (Wire.slen (Int.to_String z)) =
          String (Wire.byte_of (Wire.slen (Int.to_String z))) "") as ->.
  { unfold Wire.encodeVarint. cbn [Wire.varint_bytes]. by rewrite (proj2 (Z.ltb_lt _ _)) by lia. }
  rewrite Wire.slen_cons. change (Wire.slen "") with 0. lia.
Qed.

Lemma Supply_Unmarshal_bytes z :
  Int.valid z → Supply_Unmarshal (supply_bytes z) = Ok (mkSupply (Int.to_String z) "").
Proof.
  intros Hv. destruct (Supply_codec (mkSupply (Int.to_String z) "")) as (_ & _ & Hd);
    [by apply supply_bytes_length|]. by apply Hd.
Qed.
Lemma Supply_Marshal_bytes z :
  Int.valid z → Supply_Marshal (mkSupply (Int.to_String z) "") = Ok (supply_bytes z).
Proof.
  intros Hv. destruct (Supply_codec (mkSupply (Int.to_String z) "")) as (_ & Hm & _);
    [by apply supply_bytes_length|]. exact Hm.
Qed.

Lemma supply_bytes_inj z z' : Int.valid z → Int.valid z' →
  supply_bytes z = supply_bytes z' → z = z'.
Proof.
  intros Hv Hv' E. pose proof (Supply_Unmarshal_bytes z Hv) as H1. rewrite E in H1.
  rewrite Supply_Unmarshal_bytes in H1 by done. injection H1 as H1.
  pose proof (Int.NewIntFromString_String z Hv) as H2. rewrite <-H1 in H2.
  rewrite Int.NewIntFromString_String in H2 by done. congruence.
Qed.

Lemma supply_is_unique kv z z' : supply_is kv z → supply_is kv z' → z = z'.
Proof.
  intros [[H1 ->]|[H1 Hv]] [[H2 ->]|[H2 Hv']]; rewrite H1 in H2; [done|discriminate H2..|].
  apply supply_bytes_inj; [done|done|]. congruence.
Qed.

Section facts.
Context {B : Type} `{BankLaws B}.
Context (DecodeAndConvert : string → option (string * string)) (accPrefix : string).
Context (denoms : Denoms.registry).
Implicit Types (s : State B).

(** ** The recorded supply *)

Lemma GetSupply_run s z : supply_is (r_kv s) z →
  GetSupply s = (Ok (mkSupply (Int.to_String z) ""), s).
Proof.
  intros Hs. unfold GetSupply, Get. rewrite gets_bind.
  destruct Hs as [[-> ->]|[-> Hv]]; [done|].
  rewrite Supply_Unmarshal_bytes by done. cbn [must].
  rewrite lift_bind. cbn [Supply_Minted].
  destruct (String.eqb_spec (Int.to_String z) "") as [E|]; [|done].
  pose proof (Int.NewIntFromString_String z Hv) as Hr. by rewrite E in Hr.
Qed.

Lemma minted_of_run z : Int.valid z → minted_of (mkSupply (Int.to_String z) "") = Ok z.
Proof.
  intros Hv. unfold minted_of. cbn [Supply_Minted]. by rewrite Int.NewIntFromString_String.
Qed.

Lemma SetSupply_run s z z' : Int.valid z' →
  SetSupply (Supply_set_Minted (Int.to_String z') (mkSupply (Int.to_String z) "")) s =
  (Ok (), mkState (r_bank s) (<[SupplyKey := VBytes (supply_bytes z')]> (r_kv s))).
Proof.
  intros Hv. unfold SetSupply. cbn [Supply_set_Minted].
  rewrite Supply_Marshal_bytes by done. done.
Qed.

Lemma supply_is_set kv z : Int.valid z →
  supply_is (<[SupplyKey := VBytes (supply_bytes z)]> kv) z.
Proof. intros Hv. right. by rewrite lookup_insert_eq. Qed.

Lemma collateral_set_supply kv v : collateral (<[SupplyKey := v]> kv) = collateral kv.
Proof. unfold collateral. by rewrite !count_insert_other. Qed.

(** [lower_supply]: the amount leaves the recorded total, which stops at
    zero. *)
Lemma lower_supply_Ok amount s z u s' : supply_is (r_kv s) z → 0 <= z →
  lower_supply amount s = (Ok u, s') →
  Int.valid (Z.max 0 (z - amount)) ∧
  s' = mkState (r_bank s)
         (<[SupplyKey := VBytes (supply_bytes (Z.max 0 (z - amount)))]> (r_kv s)).
Proof.
  intros Hs Hz Hr. pose proof (supply_is_valid _ _ Hs) as Hv. unfold lower_supply in Hr.
  rewrite (Mbind_run _ _ s _ s (GetSupply_run s z Hs)), minted_of_run in Hr by done.
  rewrite lift_bind in Hr.
  apply Mbind_Ok in Hr as (n & s1 & [Hn ->]%lift_Ok & Hr).
  apply Int.Sub_Ok in Hn as [-> Hvn].
  assert ((if Int.IsNegative (z - amount) then Int.ZeroInt else z - amount)
          = Z.max 0 (z - amount)) as E.
  { destruct (Int.IsNegative (z - amount)) eqn:E;
      [apply Int.IsNegative_true in E|apply Int.IsNegative_false in E];
      unfold Int.ZeroInt; lia. }
  rewrite E in Hr. assert (Int.valid (Z.max 0 (z - amount))) as Hvm.
  { destruct (Z.max_spec 0 (z - amount)) as [[_ ->]|[_ ->]]; done. }
  rewrite SetSupply_run in Hr by done. split; [done|]. congruence.
Qed.

(** ** Coins *)

Definition coin_sum (denom : string) (a : Z) (d : string) : Z :=
  if String.eqb denom d then a else 0.

Lemma coins_of_Ok denom a l : coins_of denom a = Ok l →
  0 <= a ∧ wf l ∧ ∀ d, sum_of d l = coin_sum denom a d.
Proof.
  unfold coins_of, Coin1.NewCoin.
  intros (c & (u & Hv & [= <-])%bind_Ok & Hn)%bind_Ok.
  apply (proj1 (must_Ok _ _)) in Hv. apply NewCoins_Ok in Hn as [Hw Hs].
  unfold Coin1.Validate in Hv. apply bind_Ok in Hv as (v & _ & Hv%fail_if_Ok).
  apply Int.IsNegative_false in Hv. split_and!; [done|done|].
  intros d. rewrite Hs. simpl. unfold coin_sum. lia.
Qed.

Lemma fee_of_Ok amt f : 0 <= amt → fee_of amt = Ok f → f = amt / 10.
Proof.
  intros Ha. unfold fee_of. rewrite Dec.NewDecFromInt_run.
  change (Dec.NewDecWithPrec 1 1) with (Ok 100000000000000000 : outcome Z).
  cbn [mbind outcome_bind]. intros (m & [-> _]%Dec.checked_Ok & Hf)%bind_Ok.
  replace (amt * Dec.precisionReuse * 100000000000000000)
    with (amt * 100000000000000000 * Dec.precisionReuse) in Hf by lia.
  rewrite Dec.chop_multiple in Hf. unfold Dec.TruncateInt, Int.NewIntFromBigInt in Hf.
  case_match; [done|injection Hf as <-].
  unfold Dec.chopPrecisionAndTruncate. rewrite Dec.precisionReuse_val.
  rewrite Z.quot_div_nonneg by lia.
  replace 1000000000000000000 with (10 * 100000000000000000) by done.
  rewrite Z.div_mul_cancel_r by lia. done.
Qed.

(** ** Operations that leave the recorded supply and the bank alone *)

Definition bank_same (b b' : B) : Prop :=
  (bk_ok b → bk_ok b') ∧ (∀ a d, bk_bal b' a d = bk_bal b a d) ∧
  (∀ d, bk_sup b' d = bk_sup b d).

Definition frame s s' : Prop :=
  r_kv s' !! SupplyKey = r_kv s !! SupplyKey ∧
  collateral (r_kv s) <= collateral (r_kv s') ∧ bank_same (r_bank s) (r_bank s').

Definition framed {A} (m : M (State B) A) : Prop :=
  ∀ s a s', m s = (Ok a, s') → frame s s'.

Lemma frame_refl s : frame s s.
Proof. split_and!; try done. Qed.
Lemma frame_trans s1 s2 s3 : frame s1 s2 → frame s2 s3 → frame s1 s3.
Proof.
  intros (H1 & H2 & H3 & H4 & H5) (K1 & K2 & K3 & K4 & K5).
  split_and!; [congruence|lia|]. split_and!; [auto| |]; intros; rewrite ?K4, ?K5; auto.
Qed.

Lemma framed_bind {A C} (m : M (State B) A) (f : A → M (State B) C) :
  framed m → (∀ a, framed (f a)) → framed (m ≫= f).
Proof.
  intros Hm Hf s a s' (x & s1 & H1 & H2)%Mbind_Ok. eapply frame_trans; [by eapply Hm|by eapply Hf].
Qed.
Lemma framed_lift {A} (o : outcome A) : framed (lift o).
Proof. intros s a s' [_ ->]%lift_Ok. apply frame_refl. Qed.
Lemma framed_gets {A} (f : State B → A) : framed (gets f).
Proof. intros s a s' [_ ->]%gets_Ok. apply frame_refl. Qed.
Lemma framed_ret {A} (a : A) : framed (mret a).
Proof. intros s b s' [_ ->]%mret_Ok. apply frame_refl. Qed.
Lemma framed_for_each {A} (f : A → M (State B) ()) l : (∀ x, framed (f x)) → framed (for_each f l).
Proof.
  intros Hf. induction l as [|x l IH]; simpl; [apply framed_ret|by apply framed_bind].
Qed.
Lemma framed_Set k v : k ≠ SupplyKey → framed (Set_ k v).
Proof.
  intros Hk s a s' Hr%modify_Ok. subst s'. split_and!; [|simpl|done]; cbn [r_kv].
  - by rewrite lookup_insert_ne.
  - unfold collateral. pose proof (count_insert_le REC k v (r_kv s)).
    pose proof (count_insert_le META k v (r_kv s)). lia.
Qed.
Lemma framed_Delete k : k ≠ SupplyKey → Str.has_prefix k REC = false →
  Str.has_prefix k META = false → framed (Delete k).
Proof.
  intros Hk Hr Hm s a s' Hd%modify_Ok. subst s'. split_and!; [|simpl|done]; cbn [r_kv].
  - by rewrite lookup_delete_ne.
  - unfold collateral. rewrite !count_delete_other by done. lia.
Qed.
Lemma framed_bank_emit l : framed (bank (bk_EmitEvents l)).
Proof.
  intros s a s' (b & Hb & ->)%zoom_Ok. apply bk_emit_law in Hb. split_and!; [done|done|].
  exact Hb.
Qed.
Lemma framed_Get k : framed (Get k).
Proof. apply framed_gets. Qed.
Lemma framed_PrefixIterator p : framed (PrefixIterator p).
Proof. apply framed_gets. Qed.
Lemma framed_emit ty attrs : framed (emit ty attrs).
Proof. apply framed_bank_emit. Qed.

Lemma prefix_cut k p q r :
  Str.has_prefix k p = true → Str.has_prefix p q = false → Str.has_prefix q p = false →
  Str.has_prefix k q = false ∧ (Str.has_prefix r p = false → k ≠ r).
Proof.
  intros [x ->]%Str.has_prefix_spec Hpq Hqp. split.
  - destruct (Str.has_prefix (p +:+ x) q) eqn:E; [|done].
    apply Str.has_prefix_spec in E as [y E]. apply Str.prefix_comparable in E as [E|E]; congruence.
  - intros Hr <-. by rewrite Str.has_prefix_app in Hr.
Qed.

Lemma framed_reset : framed resetEnergyStore.
Proof.
  intros s a s' Hr. unfold resetEnergyStore in Hr.
  apply Mbind_Ok in Hr as (items & s1 & [-> ->]%gets_Ok & Hr).
  apply Mbind_Ok in Hr as (u & s2 & Hr & Hd).
  apply frame_trans with s2; [|by eapply framed_Delete in Hd].
  assert (∀ items s u s', (∀ x, x ∈ items → Str.has_prefix x.1 EnergyByAddressPrefix = true) →
    for_each (λ item : string * value, Delete item.1) items s = (Ok u, s') → frame s s') as Hloop.
  { clear. induction items as [|x items IH]; intros s u s' Hp; simpl.
    - intros [_ ->]%mret_Ok. apply frame_refl.
    - intros (v & s1 & H1 & H2)%Mbind_Ok. apply frame_trans with s1.
      + assert (Str.has_prefix x.1 EnergyByAddressPrefix = true) as Hx by (apply Hp; left).
        eapply framed_Delete in H1; [done|..].
        * by apply (prefix_cut _ _ REC SupplyKey Hx).
        * by apply (prefix_cut _ _ REC SupplyKey Hx).
        * by apply (prefix_cut _ _ META SupplyKey Hx).
      + eapply IH; [|exact H2]. intros y Hy. apply Hp. by right. }
  eapply Hloop; [|exact Hr]. intros [k v] [_ Hk]%prefix_iter_elem. done.
Qed.

End facts.

Ltac framed_tac :=
  cbv zeta;
  repeat lazymatch goal with
  | |- framed resetEnergyStore => apply framed_reset
  | |- framed (mbind _ _) => apply framed_bind; [|intros ?]; cbv zeta
  | |- framed (lift _) => apply framed_lift
  | |- framed (gets _) => apply framed_gets
  | |- framed (mret _) => apply framed_ret
  | |- framed (Get _) => apply framed_Get
  | |- framed (PrefixIterator _) => apply framed_PrefixIterator
  | |- framed (emit _ _) => apply framed_emit
  | |- framed (for_each _ _) => apply framed_for_each; intros ?
  | |- framed (Set_ _ _) => apply framed_Set; discriminate
  | |- framed (match ?x with _ => _ end) => destruct x
  end.

(** The messages among the values of some entries. *)
Definition decoded {A} (dec : string → outcome A) (items : list (string * value)) : list A :=
  omap (λ x, match x.2 with
             | VBytes b => match dec b with Ok a => Some a | _ => None end
             | _ => None
             end) items.

(** The keys handed back for [n] RECs: internal records first, each group in
    key order. *)
Definition returned_keys (n : nat) (kv : gmap string value) : list string :=
  first_keys n REC kv ++ first_keys (n - count REC kv) META kv.

Section ops.
Context {B : Type} `{BankLaws B}.
Context (DecodeAndConvert : string → option (string * string)) (accPrefix : string).
Context (denoms : Denoms.registry).
Implicit Types (s : State B).

Lemma framed_DepositCollateral creator rec :
  framed (DepositCollateral (B:=B) DecodeAndConvert accPrefix creator rec).
Proof. unfold DepositCollateral. framed_tac. Qed.

Lemma framed_AddEnergy creator a h : framed (AddEnergy (B:=B) creator a h).
Proof. unfold AddEnergy. framed_tac. Qed.

Lemma framed_create_one i : framed (create_one (B:=B) i).
Proof. unfold create_one, contributors. framed_tac. Qed.

Lemma framed_CreateRECRecord count : framed (CreateRECRecord (B:=B) count).
Proof.
  unfold CreateRECRecord. generalize (@nil string), 0. induction (Z.to_nat count); intros l i;
    cbn [create_loop]; [apply framed_ret|]. apply framed_bind; [apply framed_create_one|auto].
Qed.

Lemma framed_AppendTxNode node : framed (AppendTxNode (B:=B) node).
Proof. unfold AppendTxNode, GetAllTxHashes. framed_tac. Qed.

Lemma framed_msg_AddEnergy c t a h : framed (msg_AddEnergy (B:=B) c t a h).
Proof. unfold msg_AddEnergy, contributors. framed_tac. apply framed_AddEnergy. Qed.

Lemma framed_msg_CreateRECRecord c n : framed (msg_CreateRECRecord (B:=B) c n).
Proof. unfold msg_CreateRECRecord. framed_tac. apply framed_CreateRECRecord. Qed.

Lemma framed_msg_AppendTxHash c nc hs r n : framed (msg_AppendTxHash (B:=B) c nc hs r n).
Proof. unfold msg_AppendTxHash. framed_tac. apply framed_AppendTxNode. Qed.

(** ** Handing back RECs *)

Lemma return_loop_run {A} (dec : string → outcome A) items r n acc s :
  let k := Z.to_nat (n - r) in
  return_loop dec items r n acc s =
  (Ok (acc ++ decoded dec (take k items), r + Z.of_nat (k `min` length items)),
   mkState (r_bank s) (delete_all (take k items).*1 (r_kv s))).
Proof.
  revert r acc s. induction items as [|[key v] items IH]; intros r acc s k; subst k.
  { cbn [return_loop]. rewrite take_nil. simpl. rewrite app_nil_r, Nat.min_0_r, Z.add_0_r.
    by destruct s. }
  cbn [return_loop]. destruct (Z.ltb_spec r n) as [Hlt|Hge].
  - replace (Z.to_nat (n - r)) with (S (Z.to_nat (n - (r + 1)))) by lia.
    cbn [firstn take]. unfold Delete. rewrite modify_bind, IH. cbn [r_kv r_bank fmap list_fmap length].
    rewrite delete_all_cons. f_equal. f_equal. f_equal; [|lia].
    unfold decoded. cbn [omap list_omap snd].
    destruct v as [b|f|l|nd]; [destruct (dec b)|..]; try done; by rewrite <-app_assoc.
  - replace (Z.to_nat (n - r)) with O by lia. simpl. rewrite app_nil_r, Z.add_0_r. by destruct s.
Qed.

Lemma returned_keys_elem n kv k : k ∈ returned_keys n kv →
  (Str.has_prefix k REC = true ∨ Str.has_prefix k META = true) ∧ is_Some (kv !! k).
Proof. intros [[? ?]%first_keys_elem|[? ?]%first_keys_elem]%elem_of_app; auto. Qed.

Lemma returned_keys_NoDup n kv : NoDup (returned_keys n kv).
Proof.
  apply NoDup_app. split_and!; [apply first_keys_NoDup| |apply first_keys_NoDup].
  intros k [H1 _]%first_keys_elem [H2 _]%first_keys_elem.
  by rewrite (proj1 (prefix_cut k REC META "" H1 eq_refl eq_refl)) in H2.
Qed.

Lemma collateral_returned n kv : Z.of_nat n <= collateral kv →
  length (returned_keys n kv) = n ∧
  collateral (delete_all (returned_keys n kv) kv) = collateral kv - Z.of_nat n.
Proof.
  intros Hn. unfold collateral in *.
  assert (length (returned_keys n kv) = n) as Hl.
  { unfold returned_keys. rewrite length_app, !first_keys_length. lia. }
  split; [done|]. unfold returned_keys in *. rewrite delete_all_app. rewrite length_app in Hl.
  rewrite !first_keys_length in Hl.
  set (k1 := first_keys n REC kv). set (k2 := first_keys _ META kv).
  assert (∀ k, k ∈ k1 → Str.has_prefix k META = false) as H1.
  { intros k [Hk _]%first_keys_elem. by apply (prefix_cut k REC META ""). }
  assert (∀ k, k ∈ k2 → Str.has_prefix k REC = false) as H2.
  { intros k [Hk _]%first_keys_elem. by apply (prefix_cut k META REC ""). }
  rewrite (count_delete_all_other REC k2) by done.
  rewrite (count_delete_all REC k1 kv), <-(count_delete_all_other META k1 kv H1);
    [|apply first_keys_NoDup|intros k; apply first_keys_elem].
  rewrite (count_delete_all META k2 (delete_all k1 kv)); [|apply first_keys_NoDup|].
  - assert (length k1 + length k2 = n)%nat; [|lia]. subst k1 k2. by rewrite !first_keys_length.
  - intros k Hk. pose proof (first_keys_elem _ _ _ _ Hk) as [Hp Hs]. split; [done|].
    rewrite lookup_delete_all, decide_False; [done|]. intros Hk1. by rewrite H1 in Hp.
Qed.

Lemma meta_walk_after n (kv : gmap string value) :
  KVStorePrefixIterator (delete_all (first_keys n REC kv) kv) META = KVStorePrefixIterator kv META.
Proof.
  apply prefix_iter_ext. intros k Hk. rewrite lookup_delete_all, decide_False; [done|].
  intros [Hr _]%first_keys_elem.
  by rewrite (proj1 (prefix_cut k META REC "" Hk eq_refl eq_refl)) in Hr.
Qed.

(** The REC part of a burn, success and shortage in one equation. *)
Lemma return_recs_run n s : 0 <= n →
  let k := Z.to_nat n in
  return_recs n s =
  ((if collateral (r_kv s) <? n then Err "not enough collateral"
    else Ok (decoded RECRecord_Unmarshal (take k (KVStorePrefixIterator (r_kv s) REC)),
             decoded RECMeta_Unmarshal
               (take (k - count REC (r_kv s)) (KVStorePrefixIterator (r_kv s) META)))),
   mkState (r_bank s) (delete_all (returned_keys k (r_kv s)) (r_kv s))).
Proof.
  intros Hn k. unfold return_recs, PrefixIterator. rewrite gets_bind.
  change (RecRecordKey +:+ "/") with REC. change (RecMetaKey +:+ "/") with META.
  pose proof (return_loop_run RECRecord_Unmarshal (KVStorePrefixIterator (r_kv s) REC) 0 n [] s)
    as H1. cbv zeta in H1. rewrite Z.sub_0_r in H1. fold k in H1.
  rewrite (Mbind_run _ _ _ _ _ H1). clear H1. rewrite prefix_iter_length.
  unfold collateral, returned_keys. fold (first_keys k REC (r_kv s)).
  destruct (Z.ltb_spec (0 + Z.of_nat (k `min` count REC (r_kv s))) n) as [Hlt|Hge].
  - assert (k `min` count REC (r_kv s) = count REC (r_kv s))%nat as Hk by lia.
    rewrite Hk. set (s1 := mkState (r_bank s) _).
    pose proof (return_loop_run RECMeta_Unmarshal (KVStorePrefixIterator (r_kv s) META)
                  (0 + Z.of_nat (count REC (r_kv s))) n [] s1) as H2. cbv zeta in H2.
    replace (Z.to_nat (n - (0 + Z.of_nat (count REC (r_kv s)))))
      with (k - count REC (r_kv s))%nat in H2 by lia.
    erewrite Mbind_run; [|rewrite gets_bind; subst s1; cbn [r_kv];
      rewrite meta_walk_after; exact H2].
    cbn beta iota. rewrite prefix_iter_length, delete_all_app. cbn [r_kv r_bank].
    destruct (Z.ltb_spec (Z.of_nat (count REC (r_kv s)) + Z.of_nat (count META (r_kv s))) n).
    + by rewrite (proj2 (Z.ltb_lt _ _)) by lia.
    + by rewrite (proj2 (Z.ltb_ge _ _)) by lia.
  - erewrite Mbind_run; [|reflexivity]. cbn beta iota.
    replace (k - count REC (r_kv s))%nat with O by lia. unfold first_keys at 2.
    rewrite !take_0. cbn [fmap list_fmap]. rewrite app_nil_r.
    rewrite !(proj2 (Z.ltb_ge _ _)) by lia. done.
Qed.

Lemma return_recs_Ok n s rs ms s' : 0 <= n → return_recs n s = (Ok (rs, ms), s') →
  let k := Z.to_nat n in
  n <= collateral (r_kv s) ∧
  rs = decoded RECRecord_Unmarshal (take k (KVStorePrefixIterator (r_kv s) REC)) ∧
  ms = decoded RECMeta_Unmarshal
         (take (k - count REC (r_kv s)) (KVStorePrefixIterator (r_kv s) META)) ∧
  s' = mkState (r_bank s) (delete_all (returned_keys k (r_kv s)) (r_kv s)).
Proof.
  intros Hn. rewrite return_recs_run by done. destruct (Z.ltb_spec (collateral (r_kv s)) n); [done|].
  by intros [= <- <- <-].
Qed.

(** ** The bank operations *)

Lemma bank_Ok {A} (m : M B A) s a s' : bank m s = (Ok a, s') →
  ∃ b, m (r_bank s) = (Ok a, b) ∧ s' = mkState b (r_kv s).
Proof. intros (b & Hm & ->)%zoom_Ok. eauto. Qed.

Lemma NewCoins_one_Ok c l : Coins.NewCoins [c] = Ok l →
  wf l ∧ 0 <= Amount c ∧ ∀ d, sum_of d l = coin_sum (Denom c) (Amount c) d.
Proof.
  intros [Hw Hs]%NewCoins_Ok.
  assert (∀ d, sum_of d l = coin_sum (Denom c) (Amount c) d) as Hs'.
  { intros d. rewrite Hs. unfold coin_sum. simpl. lia. }
  split_and!; [done| |done]. pose proof (wf_sum_nonneg (Denom c) l Hw) as Hn.
  rewrite Hs' in Hn. unfold coin_sum in Hn. by rewrite String.eqb_refl in Hn.
Qed.

(** What a successful [RewardSolarPower] does. *)
Lemma RewardSolarPower_Ok to amount s z u s' :
  supply_is (r_kv s) z → bk_ok (r_bank s) →
  RewardSolarPower DecodeAndConvert accPrefix to amount s = (Ok u, s') →
  ∃ amt toAddr ma,
    Int.NewIntFromString amount = Some amt ∧ 0 <= amt ∧
    AccAddressFromBech32 DecodeAndConvert accPrefix to = Ok toAddr ∧
    bk_GetModuleAddress ModuleName = Some ma ∧
    Int.valid (z + amt) ∧ z + amt <= collateral (r_kv s) * 1000000 ∧
    r_kv s' = <[SupplyKey := VBytes (supply_bytes (z + amt))]> (r_kv s) ∧
    bk_ok (r_bank s') ∧
    (∀ d, bk_sup (r_bank s') d = bk_sup (r_bank s) d + coin_sum "aeil" amt d) ∧
    (∀ x d, bk_bal (r_bank s') x d = bk_bal (r_bank s) x d
              + gets_coins ma (coin_sum "aeil" (amt / 10)) x d
              + gets_coins toAddr (coin_sum "aeil" (amt - amt / 10)) x d).
Proof.
  intros Hs Hb Hr. pose proof (supply_is_valid _ _ Hs) as Hvz. unfold RewardSolarPower in Hr.
  apply Mbind_Ok in Hr as (amt & ? & [Hp%or_err_Ok ->]%lift_Ok & Hr).
  apply Mbind_Ok in Hr as (coinAmt & ? & [Hq ->]%lift_Ok & Hr).
  apply Int.Quo_Ok in Hq as [_ ->]. change (Int.NewInt 1) with 1 in Hr. rewrite Z.quot_1_r in Hr.
  unfold GetTotalCollateral, PrefixIterator in Hr.
  rewrite (Mbind_run _ _ s (collateral (r_kv s)) s) in Hr.
  2:{ rewrite !gets_bind. cbn. unfold collateral, Int.NewInt. by rewrite !prefix_iter_length. }
  rewrite (Mbind_run _ _ s _ s (GetSupply_run s z Hs)), minted_of_run, lift_bind in Hr by done.
  apply Mbind_Ok in Hr as (newTotal & ? & [[-> Hvt]%Int.Add_Ok ->]%lift_Ok & Hr).
  apply Mbind_Ok in Hr as (value & ? & [Hm ->]%lift_Ok & Hr).
  apply Mbind_Ok in Hr as (? & ? & [Hgt%fail_if_Ok ->]%lift_Ok & Hr).
  apply Mbind_Ok in Hr as (coinsTotal & ? & [(Hamt & Hwt & Hst)%coins_of_Ok ->]%lift_Ok & Hr).
  apply Mbind_Ok in Hr as (fee & ? & [Hfee ->]%lift_Ok & Hr).
  apply fee_of_Ok in Hfee as ->; [|done].
  apply Mbind_Ok in Hr as (feeCoins & ? & [_ ->]%lift_Ok & Hr).
  apply Mbind_Ok in Hr as (userAmt & ? & [[-> _]%Int.Sub_Ok ->]%lift_Ok & Hr).
  apply Mbind_Ok in Hr as (userCoins & ? & [(_ & Hwu & Hsu)%coins_of_Ok ->]%lift_Ok & Hr).
  apply Mbind_Ok in Hr as (toAddr & ? & [Hto ->]%lift_Ok & Hr).
  apply Mbind_Ok in Hr as (? & ? & (b1 & Hmint & ->)%bank_Ok & Hr).
  apply Mbind_Ok in Hr as (? & ? & (b2 & Hsend & ->)%bank_Ok & Hr). cbn [r_bank r_kv] in *.
  rewrite SetSupply_run in Hr by done. injection Hr as _ <-. cbn [r_bank r_kv].
  apply bk_mint_law in Hmint as (ma & Hma & _ & Hok1 & Hbal1 & Hsup1); [|done].
  apply bk_send_from_law in Hsend as (ma' & Hma' & _ & Hok2 & Hbal2 & Hsup2); [|done].
  assert (ma' = ma) as -> by congruence.
  exists amt, toAddr, ma. split_and!; try done.
  - assert (value = collateral (r_kv s) * 1000000) as ->.
    { unfold Int.Mul in Hm. repeat case_match; try done. by injection Hm as <-. }
    unfold Int.GT in Hgt. by apply Z.ltb_ge in Hgt.
  - intros d. by rewrite Hsup2, Hsup1, Hst.
  - intros y d. rewrite Hbal2, Hbal1. unfold gets_coins. rewrite Hst, Hsu. unfold coin_sum.
    repeat case_match; lia.
Qed.

(** What a successful [BurnStableCoin] does. *)
Lemma BurnStableCoin_Ok target amount s z rs ms s' :
  supply_is (r_kv s) z → 0 <= z → bk_ok (r_bank s) →
  BurnStableCoin DecodeAndConvert accPrefix denoms target amount s = (Ok (rs, ms), s') →
  ∃ coin addr ma,
    Parse.ParseCoinNormalized denoms
      (if Str.has_suffix amount "aeil" then amount else amount +:+ "aeil") = Ok coin ∧
    AccAddressFromBech32 DecodeAndConvert accPrefix target = Ok addr ∧
    bk_GetModuleAddress ModuleName = Some ma ∧ 0 <= Amount coin ∧
    let n := Z.to_nat (Amount coin / 1000000) in
    Amount coin / 1000000 <= collateral (r_kv s) ∧
    rs = decoded RECRecord_Unmarshal (take n (KVStorePrefixIterator (r_kv s) REC)) ∧
    ms = decoded RECMeta_Unmarshal
           (take (n - count REC (r_kv s)) (KVStorePrefixIterator (r_kv s) META)) ∧
    Int.valid (Z.max 0 (z - Amount coin)) ∧
    r_kv s' = <[SupplyKey := VBytes (supply_bytes (Z.max 0 (z - Amount coin)))]>
                (delete_all (returned_keys n (r_kv s)) (r_kv s)) ∧
    bk_ok (r_bank s') ∧
    (∀ d, bk_sup (r_bank s') d = bk_sup (r_bank s) d - coin_sum (Denom coin) (Amount coin) d ∧
          coin_sum (Denom coin) (Amount coin) d <= bk_sup (r_bank s) d) ∧
    (∀ x d, bk_bal (r_bank s') x d = bk_bal (r_bank s) x d
              - gets_coins addr (coin_sum (Denom coin) (Amount coin)) x d).
Proof.
  intros Hs Hz Hb Hr. unfold BurnStableCoin in Hr. cbv zeta in Hr.
  apply Mbind_Ok in Hr as (coin & ? & [Hp ->]%lift_Ok & Hr).
  apply Mbind_Ok in Hr as (addr & ? & [Ha ->]%lift_Ok & Hr).
  apply Mbind_Ok in Hr as (coins & ? & [(Hw & Hamt & Hsum)%NewCoins_one_Ok ->]%lift_Ok & Hr).
  apply Mbind_Ok in Hr as (? & ? & (b1 & Hsend & ->)%bank_Ok & Hr).
  apply Mbind_Ok in Hr as (? & ? & (b2 & Hburn & ->)%bank_Ok & Hr). cbn [r_bank r_kv] in *.
  apply bk_send_to_law in Hsend as (ma & Hma & _ & Hok1 & Hbal1 & Hsup1); [|done].
  apply bk_burn_law in Hburn as (ma' & Hma' & _ & Hok2 & Hbal2 & Hsup2 & Hle); [|done].
  assert (ma' = ma) as -> by congruence.
  apply Mbind_Ok in Hr as (q & ? & [[_ ->]%Int.Quo_Ok ->]%lift_Ok & Hr).
  change (Int.NewInt 1000000) with 1000000 in Hr. rewrite Z.quot_div_nonneg in Hr by lia.
  set (s1 := mkState b2 (r_kv s)) in Hr. set (n := Amount coin / 1000000) in *.
  apply Mbind_Ok in Hr as ([rs1 ms1] & s2 & Hret & Hr).
  apply Mbind_Ok in Hr as (? & s3 & Hlow & [[= <- <-] ->]%mret_Ok).
  assert (0 <= n) as Hn by (apply Z.div_pos; lia).
  assert (n <= collateral (r_kv s) ∧
    rs = decoded RECRecord_Unmarshal (take (Z.to_nat n) (KVStorePrefixIterator (r_kv s) REC)) ∧
    ms = decoded RECMeta_Unmarshal
      (take (Z.to_nat n - count REC (r_kv s)) (KVStorePrefixIterator (r_kv s) META)) ∧
    s2 = mkState b2 (delete_all (returned_keys (Z.to_nat n) (r_kv s)) (r_kv s)))
    as (Hcol & -> & -> & ->).
  { destruct (Int.IsPositive n) eqn:E.
    - apply Mbind_Ok in Hret as (n' & ? & [[-> _]%Int.Int64_Ok ->]%lift_Ok & Hret).
      by apply return_recs_Ok in Hret.
    - apply Int.IsPositive_false in E. replace n with 0 by lia.
      apply mret_Ok in Hret as [[= -> ->] ->]. subst s1. cbn.
      rewrite take_0. unfold collateral. split_and!; [lia|done|done|done]. }
  apply (lower_supply_Ok _ _ z) in Hlow as [Hv ->]; [| |done].
  2:{ cbn [r_kv]. unfold supply_is. rewrite lookup_delete_all, decide_False; [exact Hs|].
      intros [[Hx|Hx] _]%returned_keys_elem; done. }
  exists coin, addr, ma. cbn [r_bank r_kv]. split_and!; try done.
  - intros d. rewrite Hsup2, <-!Hsum. specialize (Hle d). rewrite Hsup1 in *. lia.
  - intros y d. rewrite Hbal2, Hbal1. unfold gets_coins. rewrite !Hsum.
    repeat case_match; lia.
Qed.

(** [RemoveCollateral] deletes like the burn, one REC per 1000 mcnl. *)
Lemma delete_loop_run items r n s :
  let k := Z.to_nat (n - r) in
  delete_loop items r n s =
  (Ok (r + Z.of_nat (k `min` length items)),
   mkState (r_bank s) (delete_all (take k items).*1 (r_kv s))).
Proof.
  revert r s. induction items as [|[key v] items IH]; intros r s k; subst k.
  { cbn [delete_loop]. rewrite take_nil. simpl. rewrite Nat.min_0_r, Z.add_0_r. by destruct s. }
  cbn [delete_loop]. destruct (Z.ltb_spec r n) as [Hlt|Hge].
  - replace (Z.to_nat (n - r)) with (S (Z.to_nat (n - (r + 1)))) by lia.
    cbn [firstn take]. unfold Delete. rewrite modify_bind, IH. cbn [r_kv r_bank fmap list_fmap length].
    rewrite delete_all_cons. f_equal. f_equal. lia.
  - replace (Z.to_nat (n - r)) with O by lia. simpl. rewrite Z.add_0_r. by destruct s.
Qed.

Lemma RemoveCollateral_Ok from amount s u s' :
  RemoveCollateral denoms from amount s = (Ok u, s') →
  ∃ coin, Parse.ParseCoinNormalized denoms amount = Ok coin ∧ Denom coin = "mcnl" ∧
    let q := Z.quot (Amount coin) 1000 in
    q ≠ 0 ∧ q <= collateral (r_kv s) ∧
    s' = mkState (r_bank s) (delete_all (returned_keys (Z.to_nat q) (r_kv s)) (r_kv s)).
Proof.
  intros Hr. unfold RemoveCollateral in Hr.
  apply Mbind_Ok in Hr as (coin & ? & [Hp ->]%lift_Ok & Hr).
  apply Mbind_Ok in Hr as (? & ? & [Hd%fail_if_Ok ->]%lift_Ok & Hr).
  apply negb_false_iff, String.eqb_eq in Hd.
  apply Mbind_Ok in Hr as (q & ? & [[_ ->]%Int.Quo_Ok ->]%lift_Ok & Hr).
  apply Mbind_Ok in Hr as (? & ? & [Hz%fail_if_Ok ->]%lift_Ok & Hr). apply Int.IsZero_false in Hz.
  apply Mbind_Ok in Hr as (n & ? & [[-> _]%Int.Int64_Ok ->]%lift_Ok & Hr).
  change (Int.NewInt 1000) with 1000 in *. set (q := Z.quot (Amount coin) 1000) in *.
  exists coin. split; [done|]. split; [done|]. split; [done|]. cbv zeta. fold q.
  unfold PrefixIterator in Hr. rewrite gets_bind in Hr.
  change (RecRecordKey +:+ "/") with REC in Hr. change (RecMetaKey +:+ "/") with META in Hr.
  pose proof (delete_loop_run (KVStorePrefixIterator (r_kv s) REC) 0 q s) as H1.
  cbv zeta in H1. rewrite Z.sub_0_r, prefix_iter_length in H1. set (k := Z.to_nat q) in *.
  rewrite (Mbind_run _ _ _ _ _ H1) in Hr. clear H1.
  unfold collateral, returned_keys. fold (first_keys k REC (r_kv s)) in Hr.
  destruct (Z.ltb_spec (0 + Z.of_nat (k `min` count REC (r_kv s))) q) as [Hlt|Hge].
  - assert (k `min` count REC (r_kv s) = count REC (r_kv s))%nat as Hk by lia.
    rewrite Hk in Hr. set (s1 := mkState _ _) in Hr.
    pose proof (delete_loop_run (KVStorePrefixIterator (r_kv s) META)
                  (0 + Z.of_nat (count REC (r_kv s))) q s1) as H2. cbv zeta in H2.
    replace (Z.to_nat (q - (0 + Z.of_nat (count REC (r_kv s)))))
      with (k - count REC (r_kv s))%nat in H2 by lia.
    erewrite Mbind_run in Hr; [|rewrite gets_bind; subst s1; cbn [r_kv];
      rewrite meta_walk_after; exact H2].
    rewrite prefix_iter_length in Hr. apply lift_Ok in Hr as [Hf%fail_if_Ok ->].
    apply Z.ltb_ge in Hf. split; [lia|]. subst s1. cbn [r_kv r_bank]. by rewrite delete_all_app.
  - erewrite Mbind_run in Hr; [|reflexivity]. apply lift_Ok in Hr as [Hf%fail_if_Ok ->].
    replace (k - count REC (r_kv s))%nat with O by lia.
    change (first_keys 0 META (r_kv s)) with (@nil string). rewrite app_nil_r. split; [lia|done].
Qed.

Lemma BurnModuleStableCoins_Ok s z u s' :
  supply_is (r_kv s) z → 0 <= z → bk_ok (r_bank s) →
  BurnModuleStableCoins s = (Ok u, s') →
  ∃ ma, bk_GetModuleAddress ModuleName = Some ma ∧
    let held := bk_bal (r_bank s) ma "mcnl" in
    (held = 0 ∧ s' = s) ∨
    (0 < held ∧ Int.valid (Z.max 0 (z - held)) ∧ bk_ok (r_bank s') ∧
     r_kv s' = <[SupplyKey := VBytes (supply_bytes (Z.max 0 (z - held)))]> (r_kv s) ∧
     (∀ d, bk_sup (r_bank s') d = bk_sup (r_bank s) d - coin_sum "mcnl" held d)).
Proof.
  intros Hs Hz Hb Hr. unfold BurnModuleStableCoins in Hr.
  apply Mbind_Ok in Hr as (ma & ? & [Hma%or_err_Ok ->]%lift_Ok & Hr).
  apply Mbind_Ok in Hr as (bal & ? & (b0 & Hbal & ->)%bank_Ok & Hr).
  apply bk_GetBalance_law in Hbal as [-> ->]. cbn [Amount] in Hr.
  destruct s as [b kv]. cbn [r_bank r_kv] in *. exists ma. split; [done|]. cbv zeta.
  destruct (bk_bal_range b ma "mcnl" Hb) as [Hge _].
  destruct (Int.IsZero (bk_bal b ma "mcnl")) eqn:E.
  - left. apply Int.IsZero_true in E. by apply mret_Ok in Hr as [_ ->].
  - right. apply Int.IsZero_false in E.
    apply Mbind_Ok in Hr as (coins & ? & [(Hw & _ & Hsum)%NewCoins_one_Ok ->]%lift_Ok & Hr).
    apply Mbind_Ok in Hr as (? & ? & (b1 & Hburn & ->)%bank_Ok & Hr).
    apply bk_burn_law in Hburn as (? & _ & _ & Hok & _ & Hsup & _); [|done].
    apply (lower_supply_Ok _ _ z) in Hr as [Hv ->]; [|done|done]. cbn [r_bank r_kv] in *.
    split_and!; [lia|done|done|done|]. intros d. by rewrite Hsup, Hsum.
Qed.

Lemma DistributeRewardPercent_Ok creator address percent s u s' : bk_ok (r_bank s) →
  DistributeRewardPercent DecodeAndConvert accPrefix creator address percent s = (Ok u, s') →
  ∃ ma addr, bk_GetModuleAddress ModuleName = Some ma ∧
    AccAddressFromBech32 DecodeAndConvert accPrefix address = Ok addr ∧
    10000 <= bk_bal (r_bank s) ma "aeil" ∧ r_kv s' = r_kv s ∧ bk_ok (r_bank s') ∧
    (∀ d, bk_sup (r_bank s') d = bk_sup (r_bank s) d) ∧
    (∀ x d, bk_bal (r_bank s') x d = bk_bal (r_bank s) x d
              - gets_coins ma (coin_sum "aeil" 10000) x d
              + gets_coins addr (coin_sum "aeil" 10000) x d).
Proof.
  intros Hb Hr. unfold DistributeRewardPercent in Hr.
  apply Mbind_Ok in Hr as (? & ? & [_ ->]%lift_Ok & Hr).
  apply Mbind_Ok in Hr as (ma & ? & [Hma%or_err_Ok ->]%lift_Ok & Hr).
  apply Mbind_Ok in Hr as (bal & ? & (b0 & Hbal & ->)%bank_Ok & Hr).
  apply bk_GetBalance_law in Hbal as [-> ->]. cbn [Amount] in Hr.
  apply Mbind_Ok in Hr as (? & ? & [Hlt%fail_if_Ok ->]%lift_Ok & Hr). apply Z.ltb_ge in Hlt.
  apply Mbind_Ok in Hr as (c & ? & [Hc ->]%lift_Ok & Hr).
  assert (c = mkCoin "aeil" 10000) as ->.
  { unfold Coin1.NewCoin in Hc. apply bind_Ok in Hc as (? & _ & [= <-]). done. }
  apply Mbind_Ok in Hr as (coins & ? & [(Hw & _ & Hsum)%NewCoins_one_Ok ->]%lift_Ok & Hr).
  apply Mbind_Ok in Hr as (addr & ? & [Ha ->]%lift_Ok & Hr).
  apply Mbind_Ok in Hr as (? & ? & (b1 & Hsend & ->)%bank_Ok & Hr). cbn [r_bank r_kv] in *.
  apply bk_send_from_law in Hsend as (ma' & Hma' & _ & Hok & Hbal & Hsup); [|done].
  assert (ma' = ma) as -> by congruence.
  apply bank_Ok in Hr as (b2 & (Hok2 & Hbal2 & Hsup2)%bk_emit_law & ->). cbn [r_bank r_kv] in *.
  exists ma, addr. split_and!; try done; [auto|..].
  - intros d. by rewrite Hsup2, Hsup.
  - intros y d. rewrite Hbal2, Hbal. unfold gets_coins. rewrite !Hsum. cbn [Denom Amount].
    repeat case_match; lia.
Qed.

End ops.
