(* ===== verification/Gas.v ===== *)
(** * Gas: store/types/gas.go and store/gaskv/store.go

    The two gas meters with their [uint64] arithmetic, and the store wrapper
    that charges every access before it reaches the parent store. *)

From Stdlib Require Import ZArith Lia Ascii String.
From stdpp Require Import base tactics option list gmap sorting strings.
From S2P Require Import Prelude GoStd Wire Store.

Local Open Scope Z_scope.

Module Gas.

Definition MaxUint64 : Z := 2 ^ 64 - 1.

Inductive GasMeter :=
  | basicGasMeter (limit consumed : Z)
  | infiniteGasMeter (consumed : Z).

Definition NewGasMeter (limit : Z) : GasMeter := basicGasMeter limit 0.
Definition NewInfiniteGasMeter : GasMeter := infiniteGasMeter 0.

Definition GasConsumed (g : GasMeter) : Z :=
  match g with basicGasMeter _ c => c | infiniteGasMeter c => c end.
Definition Limit (g : GasMeter) : Z :=
  match g with basicGasMeter l _ => l | infiniteGasMeter _ => 0 end.
Definition IsPastLimit (g : GasMeter) : bool :=
  match g with basicGasMeter l c => l <? c | infiniteGasMeter _ => false end.
Definition IsOutOfGas (g : GasMeter) : bool :=
  match g with basicGasMeter l c => l <=? c | infiniteGasMeter _ => false end.
Definition GasConsumedToLimit (g : GasMeter) : Z :=
  match g with
  | basicGasMeter l c => if IsPastLimit g then l else c
  | infiniteGasMeter c => c
  end.

(** The sum and the overflow flag; [MaxUint64-a] does not wrap. *)
Definition addUint64Overflow (a b : Z) : Z * bool :=
  if MaxUint64 - a <? b then (0, true) else (wrapu64 (a + b), false).

Definition ConsumeGas (amount : Z) : M GasMeter () := λ g,
  match g with
  | basicGasMeter limit consumed =>
      let '(consumed, overflow) := addUint64Overflow consumed amount in
      if overflow then (Panic "ErrorGasOverflow", basicGasMeter limit MaxUint64)
      else if limit <? consumed then (Panic "ErrorOutOfGas", basicGasMeter limit consumed)
      else (Ok (), basicGasMeter limit consumed)
  | infiniteGasMeter consumed =>
      let '(consumed, overflow) := addUint64Overflow consumed amount in
      if overflow then (Panic "ErrorGasOverflow", infiniteGasMeter consumed)
      else (Ok (), infiniteGasMeter consumed)
  end.

Definition RefundGas (amount : Z) : M GasMeter () := λ g,
  if GasConsumed g <? amount then (Panic "ErrorNegativeGasConsumed", g)
  else match g with
       | basicGasMeter limit consumed => (Ok (), basicGasMeter limit (consumed - amount))
       | infiniteGasMeter consumed => (Ok (), infiniteGasMeter (consumed - amount))
       end.

Record GasConfig := mkGasConfig {
  HasCost : Z; DeleteCost : Z; ReadCostFlat : Z; ReadCostPerByte : Z;
  WriteCostFlat : Z; WriteCostPerByte : Z; IterNextCostFlat : Z }.

Definition KVGasConfig : GasConfig := mkGasConfig 1000 1000 1000 3 2000 30 30.
Definition TransientGasConfig : GasConfig := mkGasConfig 100 100 100 0 200 3 3.

(** ** gaskv *)

Section gaskv.
Context (cfg : GasConfig).

(** The meter and the parent store; values are byte strings. *)
Record gaskv := mkGaskv { meter : GasMeter; parent : gmap string string }.

Definition charge (amount : Z) : M gaskv () :=
  zoom meter (λ g s, mkGaskv g (parent s)) (ConsumeGas amount).

(** [cost * Gas(len(bz))], a [uint64] product. *)
Definition per_byte (cost : Z) (bz : string) : Z := wrapu64 (cost * Wire.slen bz).

Definition Get (key : string) : M gaskv (option string) :=
  _ ← charge (ReadCostFlat cfg);
  value ← gets (λ s, parent s !! key);
  _ ← charge (per_byte (ReadCostPerByte cfg) key);
  _ ← charge (per_byte (ReadCostPerByte cfg) (default "" value));
  mret value.

Definition Set_ (key value : string) : M gaskv () :=
  _ ← lift (panic_if (String.eqb key "") "key is nil");
  _ ← charge (WriteCostFlat cfg);
  _ ← charge (per_byte (WriteCostPerByte cfg) key);
  _ ← charge (per_byte (WriteCostPerByte cfg) value);
  modify (λ s, mkGaskv (meter s) (<[key := value]> (parent s))).

Definition Has (key : string) : M gaskv bool :=
  _ ← charge (HasCost cfg);
  gets (λ s, bool_decide (is_Some (parent s !! key))).

Definition Delete (key : string) : M gaskv () :=
  _ ← charge (DeleteCost cfg);
  modify (λ s, mkGaskv (meter s) (delete key (parent s))).

(** [consumeSeekGas] at a position of the walk. *)
Definition consumeSeekGas (rest : list (string * string)) : M gaskv () :=
  _ ← match rest with
      | (key, value) :: _ =>
          _ ← charge (per_byte (ReadCostPerByte cfg) key);
          charge (per_byte (ReadCostPerByte cfg) value)
      | [] => mret ()
      end;
  charge (IterNextCostFlat cfg).

(** A whole walk: [Iterator], then [Next] at every entry. *)
Fixpoint walk (rest : list (string * string)) : M gaskv () :=
  match rest with
  | [] => mret ()
  | _ :: rest' => _ ← consumeSeekGas rest; walk rest'
  end.

Definition iterate (start : string) (stop : option string) : M gaskv (list (string * string)) :=
  items ← gets (λ s, Store.Iterator (parent s) start stop);
  _ ← consumeSeekGas items;
  _ ← walk items;
  mret items.

(** What the operations cost. *)
Definition get_cost (key : string) (value : option string) : Z :=
  ReadCostFlat cfg + per_byte (ReadCostPerByte cfg) key +
  per_byte (ReadCostPerByte cfg) (default "" value).
Definition set_cost (key value : string) : Z :=
  WriteCostFlat cfg + per_byte (WriteCostPerByte cfg) key + per_byte (WriteCostPerByte cfg) value.
End gaskv.

(** ** Facts *)

Definition meter_ok (g : GasMeter) : Prop :=
  0 <= GasConsumed g <= MaxUint64 ∧ 0 <= Limit g <= MaxUint64.

Lemma ConsumeGas_ok a g : meter_ok g → 0 <= a → meter_ok (ConsumeGas a g).2.
Proof.
  unfold meter_ok, ConsumeGas, addUint64Overflow.
  destruct g as [l c|c]; simpl; intros [Hc Hl] Ha; destruct (Z.ltb_spec (MaxUint64 - c) a); simpl;
    unfold MaxUint64, wrapu64 in *; try lia; rewrite Z.mod_small by lia; try case_match; simpl; lia.
Qed.

Lemma ConsumeGas_Ok a g u g' : meter_ok g → 0 <= a → ConsumeGas a g = (Ok u, g') →
  GasConsumed g' = GasConsumed g + a ∧ Limit g' = Limit g ∧ IsPastLimit g' = false.
Proof.
  unfold meter_ok, ConsumeGas, addUint64Overflow.
  destruct g as [l c|c]; simpl; intros [Hc Hl] Ha; destruct (Z.ltb_spec (MaxUint64 - c) a);
    try done; unfold MaxUint64, wrapu64 in *; rewrite Z.mod_small by lia.
  - destruct (Z.ltb_spec l (c + a)) as [|Hle]; [done|]. intros [= <- <-]. simpl.
    split_and!; [done|done|]. by apply Z.ltb_ge.
  - intros [= <- <-]. done.
Qed.

Lemma ConsumeGas_basic limit c a : 0 <= c <= MaxUint64 → 0 <= limit <= MaxUint64 → 0 <= a →
  ConsumeGas a (basicGasMeter limit c) =
    (if c + a <=? limit then Ok ()
     else if MaxUint64 <? c + a then Panic "ErrorGasOverflow" else Panic "ErrorOutOfGas",
     basicGasMeter limit (Z.min (c + a) MaxUint64)).
Proof.
  intros Hc Hl Ha. unfold ConsumeGas, addUint64Overflow.
  destruct (Z.ltb_spec (MaxUint64 - c) a).
  - rewrite (proj2 (Z.leb_gt _ _)), (proj2 (Z.ltb_lt _ _)), Z.min_r by lia. done.
  - unfold wrapu64. rewrite Z.mod_small by (unfold MaxUint64 in *; lia).
    rewrite Z.min_l by lia. destruct (Z.leb_spec (c + a) limit).
    + by rewrite (proj2 (Z.ltb_ge limit (c + a))) by lia.
    + rewrite (proj2 (Z.ltb_lt limit (c + a))), (proj2 (Z.ltb_ge MaxUint64 _)) by lia. done.
Qed.

Lemma charge_Ok a s u s' : charge a s = (Ok u, s') →
  ∃ g, ConsumeGas a (meter s) = (Ok u, g) ∧ s' = mkGaskv g (parent s).
Proof. intros (g & Hg & ->)%zoom_Ok. eauto. Qed.

Lemma per_byte_nonneg c bz : 0 <= per_byte c bz.
Proof. unfold per_byte, wrapu64. apply Z.mod_pos_bound. lia. Qed.

(** A charge touches only the meter. *)
Definition keeps_parent {A} (m : M gaskv A) : Prop := ∀ s, parent (m s).2 = parent s.
Lemma keeps_charge a : keeps_parent (charge a).
Proof. intros s. unfold charge, zoom. by destruct (ConsumeGas a (meter s)). Qed.
Lemma keeps_bind {A C} (m : M gaskv A) (f : A → M gaskv C) :
  keeps_parent m → (∀ a, keeps_parent (f a)) → keeps_parent (m ≫= f).
Proof.
  intros Hm Hf s. specialize (Hm s). unfold mbind, M_bind.
  destruct (m s) as [[a|e|e] s1]; simpl in *; [|done..]. by rewrite Hf.
Qed.
Lemma keeps_ret {A} (a : A) : keeps_parent (mret a : M gaskv A).
Proof. done. Qed.
Lemma keeps_gets {A} (f : gaskv → A) : keeps_parent (gets f).
Proof. done. Qed.

(** A sequence of charges adds up. *)
Definition costs {A} (m : M gaskv A) (s : gaskv) (c : Z) : Prop :=
  ∀ a s', meter_ok (meter s) → m s = (Ok a, s') →
    meter_ok (meter s') ∧ GasConsumed (meter s') = GasConsumed (meter s) + c.

Lemma costs_charge a s : 0 <= a → costs (charge a) s a.
Proof.
  intros Ha u s' Hm (g & Hg & ->)%charge_Ok. simpl. split.
  - pose proof (ConsumeGas_ok a _ Hm Ha) as Hok. by rewrite Hg in Hok.
  - by eapply ConsumeGas_Ok in Hg as [? _].
Qed.
Lemma costs_bind {A C} (m : M gaskv A) (f : A → M gaskv C) s c1 c2 :
  costs m s c1 → (∀ a s', m s = (Ok a, s') → costs (f a) s' c2) → costs (m ≫= f) s (c1 + c2).
Proof.
  intros Hm Hf a s' Hok (x & s1 & H1 & H2)%Mbind_Ok.
  destruct (Hm _ _ Hok H1) as [Hok1 Hc1]. destruct (Hf _ _ H1 _ _ Hok1 H2). split; [done|lia].
Qed.
Lemma costs_pure {A} (m : M gaskv A) s : (∀ a s', m s = (Ok a, s') → meter s' = meter s) →
  costs m s 0.
Proof. intros Hm a s' Hok Hr. rewrite (Hm _ _ Hr). split; [done|lia]. Qed.

Lemma costs_eq {A} (m : M gaskv A) s c c' : costs m s c → c = c' → costs m s c'.
Proof. by intros ? <-. Qed.

(** The charges of a walk over [items] after the first seek. *)
Definition entry_cost (cfg : GasConfig) (x : string * string) : Z :=
  per_byte (ReadCostPerByte cfg) x.1 + per_byte (ReadCostPerByte cfg) x.2.
Definition walk_cost (cfg : GasConfig) (items : list (string * string)) : Z :=
  foldr (λ x n, entry_cost cfg x + IterNextCostFlat cfg + n) 0 items.
Definition iterate_cost (cfg : GasConfig) (items : list (string * string)) : Z :=
  from_option (entry_cost cfg) 0 (head items) + IterNextCostFlat cfg + walk_cost cfg items.

Lemma costs_seek cfg rest s : 0 <= IterNextCostFlat cfg →
  costs (consumeSeekGas cfg rest) s (from_option (entry_cost cfg) 0 (head rest) + IterNextCostFlat cfg).
Proof.
  intros Hi. unfold consumeSeekGas. apply costs_bind; [|intros; by apply costs_charge].
  destruct rest as [|[k v] rest].
  - apply costs_pure. intros a s' [_ ->]%mret_Ok. done.
  - apply costs_bind; intros; apply costs_charge, per_byte_nonneg.
Qed.

Lemma costs_walk cfg items s : 0 <= IterNextCostFlat cfg → costs (walk cfg items) s (walk_cost cfg items).
Proof.
  intros Hi. revert s. induction items as [|x items IH]; intros s.
  - apply costs_pure. intros a s' [_ ->]%mret_Ok. done.
  - apply costs_bind; [by apply (costs_seek cfg (x :: items))|]. intros. apply IH.
Qed.

Lemma keeps_seek cfg rest : keeps_parent (consumeSeekGas cfg rest).
Proof.
  apply keeps_bind; [|intros; apply keeps_charge]. destruct rest as [|[k v] rest]; [done|].
  apply keeps_bind; intros; apply keeps_charge.
Qed.
Lemma keeps_walk cfg items : keeps_parent (walk cfg items).
Proof.
  induction items as [|x items IH]; [done|]. apply keeps_bind; [apply keeps_seek|done].
Qed.

Lemma gas_sum_run limit amts c : 0 <= c <= limit → limit < MaxUint64 →
  Forall (λ a, 0 <= a <= MaxUint64) amts →
  let total := foldr Z.add 0 amts in
  let r := for_each ConsumeGas amts (basicGasMeter limit c) in
  if c + total <=? limit then r = (Ok (), basicGasMeter limit (c + total))
  else is_ok r.1 = false ∧ IsPastLimit r.2 = true ∧ GasConsumedToLimit r.2 = limit.
Proof.
  intros Hc Hl Hall. revert c Hc. induction Hall as [|a amts Ha Hall IH]; intros c Hc total r.
  - subst total r. simpl. rewrite Z.add_0_r, (proj2 (Z.leb_le _ _)) by lia. done.
  - subst total r. cbn [for_each foldr].
    pose proof (ConsumeGas_basic limit c a ltac:(lia) ltac:(lia) ltac:(lia)) as Hrun.
    assert (0 <= foldr Z.add 0 amts) as Hnn.
    { clear -Hall. induction Hall as [|x l [? _] _ IH]; simpl; lia. }
    destruct (Z.leb_spec (c + a) limit) as [Hle|Hgt].
    + rewrite Z.min_l in Hrun by lia. rewrite (Mbind_run _ _ _ _ _ Hrun), Z.add_assoc.
      apply IH. lia.
    + rewrite (proj2 (Z.leb_gt _ _)) by lia. unfold mbind, M_bind. rewrite Hrun.
      cbn [snd fst IsPastLimit GasConsumedToLimit].
      by destruct (MaxUint64 <? c + a); cbn [snd fst is_ok IsPastLimit GasConsumedToLimit];
        rewrite (proj2 (Z.ltb_lt limit _)) by lia.
Qed.

(** ** The store operations *)

Lemma keeps_Ok {A} (m : M gaskv A) s a s' : keeps_parent m → m s = (Ok a, s') → parent s' = parent s.
Proof. intros Hk Hr. specialize (Hk s). by rewrite Hr in Hk. Qed.

(** A write behind charges: without success the parent is untouched. *)
Lemma guarded_write {A} (m : M gaskv A) (f : gaskv → gaskv) s :
  keeps_parent m →
  is_ok ((m ≫= λ _, modify f) s).1 = false → parent ((m ≫= λ _, modify f) s).2 = parent s.
Proof.
  intros Hk. specialize (Hk s). unfold mbind, M_bind. by destruct (m s) as [[a|e|e] s1].
Qed.

Definition set_prefix (cfg : GasConfig) (key value : string) : M gaskv () :=
  _ ← lift (panic_if (String.eqb key "") "key is nil");
  _ ← charge (WriteCostFlat cfg);
  _ ← charge (per_byte (WriteCostPerByte cfg) key);
  charge (per_byte (WriteCostPerByte cfg) value).
Lemma keeps_Set_prefix cfg key value : keeps_parent (set_prefix cfg key value).
Proof.
  repeat (apply keeps_bind; [done || apply keeps_charge|intros ?]). apply keeps_charge.
Qed.
Lemma Set_assoc cfg key value s : Set_ cfg key value s =
  (set_prefix cfg key value ≫= λ _, modify (λ s, mkGaskv (meter s) (<[key := value]> (parent s)))) s.
Proof.
  unfold Set_, set_prefix, mbind, M_bind. by repeat case_match; simplify_eq.
Qed.

Lemma Get_spec cfg key s v s' : Get cfg key s = (Ok v, s') →
  v = parent s !! key ∧ parent s' = parent s.
Proof.
  intros Hr. unfold Get in Hr.
  apply Mbind_Ok in Hr as (? & s1 & H1 & Hr). apply Mbind_Ok in Hr as (w & ? & [-> ->]%gets_Ok & Hr).
  apply Mbind_Ok in Hr as (? & s2 & H2 & Hr). apply Mbind_Ok in Hr as (? & s3 & H3 & [-> ->]%mret_Ok).
  apply keeps_Ok in H1; [|apply keeps_charge]. apply keeps_Ok in H2; [|apply keeps_charge].
  apply keeps_Ok in H3; [|apply keeps_charge]. split; congruence.
Qed.
Lemma costs_Get cfg key s : 0 <= ReadCostFlat cfg →
  ∀ v s', meter_ok (meter s) → Get cfg key s = (Ok v, s') →
  GasConsumed (meter s') = GasConsumed (meter s) + get_cost cfg key v.
Proof.
  intros H0 v s' Hm Hr. destruct (Get_spec _ _ _ _ _ Hr) as [-> _].
  assert (costs (Get cfg key) s (get_cost cfg key (parent s !! key))) as Hc; [|by destruct (Hc _ _ Hm Hr)].
  eapply costs_eq.
  - unfold Get. apply costs_bind; [by apply costs_charge|]. intros ? s1 H1.
    apply keeps_Ok in H1; [|apply keeps_charge].
    apply costs_bind; [apply costs_pure; by intros ? ? [_ ->]%gets_Ok|]. intros w s2 [-> ->]%gets_Ok.
    rewrite H1. apply costs_bind; [apply costs_charge, per_byte_nonneg|]. intros.
    apply costs_bind; [apply costs_charge, per_byte_nonneg|]. intros.
    apply costs_pure. by intros ? ? [_ ->]%mret_Ok.
  - unfold get_cost. lia.
Qed.

Lemma Has_spec cfg key s v s' : Has cfg key s = (Ok v, s') →
  v = bool_decide (is_Some (parent s !! key)) ∧ parent s' = parent s.
Proof.
  intros (? & s1 & H1 & [-> ->]%gets_Ok)%Mbind_Ok.
  apply keeps_Ok in H1; [|apply keeps_charge]. by rewrite H1.
Qed.
Lemma costs_Has cfg key s : 0 <= HasCost cfg → 
  ∀ v s', meter_ok (meter s) → Has cfg key s = (Ok v, s') →
  GasConsumed (meter s') = GasConsumed (meter s) + HasCost cfg.
Proof.
  intros H0 v s' Hm (? & s1 & H1 & [-> ->]%gets_Ok)%Mbind_Ok. by destruct (costs_charge _ _ H0 _ _ Hm H1).
Qed.

Lemma Set_spec cfg key value s u s' : Set_ cfg key value s = (Ok u, s') →
  parent s' = <[key := value]> (parent s).
Proof.
  rewrite Set_assoc. intros (? & s1 & H1 & ->%modify_Ok)%Mbind_Ok.
  apply keeps_Ok in H1; [|apply keeps_Set_prefix]. simpl. by rewrite H1.
Qed.
Lemma costs_Set cfg key value s : 0 <= WriteCostFlat cfg →
  ∀ u s', meter_ok (meter s) → Set_ cfg key value s = (Ok u, s') →
  GasConsumed (meter s') = GasConsumed (meter s) + set_cost cfg key value.
Proof.
  intros H0 u s' Hm Hr.
  assert (costs (Set_ cfg key value) s (set_cost cfg key value)) as Hc; [|by destruct (Hc _ _ Hm Hr)].
  eapply costs_eq.
  - unfold Set_. apply costs_bind; [apply costs_pure; by intros ? ? [_ ->]%lift_Ok|]. intros.
    apply costs_bind; [by apply costs_charge|]. intros.
    apply costs_bind; [apply costs_charge, per_byte_nonneg|]. intros.
    apply costs_bind; [apply costs_charge, per_byte_nonneg|]. intros.
    apply costs_pure. by intros ? ? ->%modify_Ok.
  - unfold set_cost. lia.
Qed.

Lemma Delete_spec cfg key s u s' : Delete cfg key s = (Ok u, s') →
  parent s' = delete key (parent s).
Proof.
  intros (? & s1 & H1 & ->%modify_Ok)%Mbind_Ok.
  apply keeps_Ok in H1; [|apply keeps_charge]. simpl. by rewrite H1.
Qed.
Lemma costs_Delete cfg key s : 0 <= DeleteCost cfg →
  ∀ u s', meter_ok (meter s) → Delete cfg key s = (Ok u, s') →
  GasConsumed (meter s') = GasConsumed (meter s) + DeleteCost cfg.
Proof.
  intros H0 u s' Hm (? & s1 & H1 & ->%modify_Ok)%Mbind_Ok. by destruct (costs_charge _ _ H0 _ _ Hm H1).
Qed.

Lemma iterate_spec cfg start stop s items s' : iterate cfg start stop s = (Ok items, s') →
  items = Store.Iterator (parent s) start stop ∧ parent s' = parent s.
Proof.
  intros Hr. unfold iterate in Hr. rewrite gets_bind in Hr.
  apply Mbind_Ok in Hr as (? & s1 & H1 & Hr). apply Mbind_Ok in Hr as (? & s2 & H2 & [-> ->]%mret_Ok).
  apply keeps_Ok in H1; [|apply keeps_seek]. apply keeps_Ok in H2; [|apply keeps_walk].
  split; congruence.
Qed.
Lemma costs_iterate cfg start stop s : 0 <= IterNextCostFlat cfg →
  ∀ items s', meter_ok (meter s) → iterate cfg start stop s = (Ok items, s') →
  GasConsumed (meter s') = GasConsumed (meter s) + iterate_cost cfg items.
Proof.
  intros H0 items s' Hm Hr. destruct (iterate_spec _ _ _ _ _ _ Hr) as [-> _].
  set (items := Store.Iterator (parent s) start stop) in *.
  unfold iterate in Hr. rewrite gets_bind in Hr. fold items in Hr.
  apply Mbind_Ok in Hr as (? & s1 & H1 & Hr). apply Mbind_Ok in Hr as (? & s2 & H2 & [_ ->]%mret_Ok).
  apply (costs_seek cfg items s H0) in H1 as [Hm1 H1]; [|done].
  apply (costs_walk cfg items s1 H0) in H2 as [_ H2]; [|done]. unfold iterate_cost. lia.
Qed.

(** ** Properties *)

(** Gas accounting.  Charging amounts one after the other on a fresh meter
    succeeds exactly when they add up to no more than the limit, and then the
    meter shows the sum; otherwise the run panics, the meter is past its limit
    and what is billed to the block ([GasConsumedToLimit]) is the limit, also
    when the [uint64] sum would wrap around. *)
Theorem GasMeter_accounting (limit : Z) (amts : list Z) :
  0 <= limit < MaxUint64 → Forall (λ a, 0 <= a <= MaxUint64) amts →
  let total := foldr Z.add 0 amts in
  let r := for_each ConsumeGas amts (NewGasMeter limit) in
  (total <= limit → r = (Ok (), basicGasMeter limit total)) ∧
  (limit < total → is_ok r.1 = false ∧ IsPastLimit r.2 = true ∧ GasConsumedToLimit r.2 = limit).
Proof.
  intros Hl Hall total r. pose proof (gas_sum_run limit amts 0 ltac:(lia) ltac:(lia) Hall) as Hrun.
  cbv zeta in Hrun. fold total in Hrun. fold (NewGasMeter limit) in Hrun. fold r in Hrun.
  destruct (Z.leb_spec (0 + total) limit); split; intros; try lia; done.
Qed.

Lemma GasMeter_accounting_witness :
  is_ok (for_each ConsumeGas [7; MaxUint64; 1] (NewGasMeter 10)).1 = false.
Proof.
  refine (proj1 (proj2 (GasMeter_accounting 10 [7; MaxUint64; 1] _ _) _)).
  - unfold MaxUint64; lia.
  - unfold MaxUint64; repeat constructor; lia.
  - vm_compute; reflexivity.
Defined.

(** The gas-metered store behaves like the plain store it wraps and bills
    exactly: a call that succeeds returns what the map holds and adds the
    configured cost to the meter; a write that runs out of gas leaves the
    store as it was.  A full walk is billed one seek per entry and one more
    for the first. *)
Theorem gaskv_refines (cfg : GasConfig) (s : gaskv) (key value : string) (start : string)
    (stop : option string) :
  meter_ok (meter s) →
  Forall (λ c, 0 <= c) [HasCost cfg; DeleteCost cfg; ReadCostFlat cfg; WriteCostFlat cfg;
                        IterNextCostFlat cfg] →
  (∀ v s', Get cfg key s = (Ok v, s') →
     v = parent s !! key ∧ parent s' = parent s ∧
     GasConsumed (meter s') = GasConsumed (meter s) + get_cost cfg key v) ∧
  (∀ v s', Has cfg key s = (Ok v, s') →
     v = bool_decide (is_Some (parent s !! key)) ∧ parent s' = parent s ∧
     GasConsumed (meter s') = GasConsumed (meter s) + HasCost cfg) ∧
  (∀ u s', Set_ cfg key value s = (Ok u, s') →
     parent s' = <[key := value]> (parent s) ∧
     GasConsumed (meter s') = GasConsumed (meter s) + set_cost cfg key value) ∧
  (is_ok (Set_ cfg key value s).1 = false → parent (Set_ cfg key value s).2 = parent s) ∧
  (∀ u s', Delete cfg key s = (Ok u, s') →
     parent s' = delete key (parent s) ∧
     GasConsumed (meter s') = GasConsumed (meter s) + DeleteCost cfg) ∧
  (is_ok (Delete cfg key s).1 = false → parent (Delete cfg key s).2 = parent s) ∧
  (∀ items s', iterate cfg start stop s = (Ok items, s') →
     items = Store.Iterator (parent s) start stop ∧ parent s' = parent s ∧
     GasConsumed (meter s') = GasConsumed (meter s) + iterate_cost cfg items).
Proof.
  intros Hm Hcfg. rewrite !Forall_cons in Hcfg. destruct Hcfg as (H1 & H2 & H3 & H4 & H5 & _).
  split_and!.
  - intros v s' Hr. destruct (Get_spec cfg key s v s' Hr) as [-> Hp].
    split_and!; [done|done|]. by apply (costs_Get cfg key s H3 _ s' Hm).
  - intros v s' Hr. destruct (Has_spec cfg key s v s' Hr) as [-> Hp].
    split_and!; [done|done|]. by apply (costs_Has cfg key s H1 _ s' Hm Hr).
  - intros u s' Hr. split; [by eapply Set_spec|]. by apply (costs_Set cfg key value s H4 u s' Hm).
  - rewrite Set_assoc. apply guarded_write, keeps_Set_prefix.
  - intros u s' Hr. split; [by eapply Delete_spec|]. by apply (costs_Delete cfg key s H2 u s' Hm).
  - apply guarded_write. apply keeps_charge.
  - intros items s' Hr. destruct (iterate_spec cfg start stop s items s' Hr) as [-> Hp].
    split_and!; [done|done|]. by apply (costs_iterate cfg start stop s H5 _ s' Hm).
Qed.
(** A small metered store. *)
Definition demo_gaskv : gaskv := mkGaskv (NewGasMeter 5000) (<["k" := "value"]> ∅).

Lemma gaskv_refines_witness :
  GasConsumed (meter (snd (Get KVGasConfig "k" demo_gaskv))) = 0 + get_cost KVGasConfig "k" (Some "value").
Proof.
  assert (meter_ok (meter demo_gaskv)) as Hm by (vm_compute; repeat split; discriminate).
  assert (Forall (λ c, 0 <= c) [HasCost KVGasConfig; DeleteCost KVGasConfig; ReadCostFlat KVGasConfig;
            WriteCostFlat KVGasConfig; IterNextCostFlat KVGasConfig]) as Hc
    by (repeat constructor; vm_compute; discriminate).
  exact (proj2 (proj2 (proj1 (gaskv_refines KVGasConfig demo_gaskv "k" "" "" None Hm Hc) (Some "value") _
    (run_ok (Get KVGasConfig "k") demo_gaskv (Some "value") ltac:(vm_compute; reflexivity))))).
Defined.

End Gas.
