(* ===== verification/BaseApp.v ===== *)
(** * Running transactions: baseapp/baseapp.go

    [runTx] with its modes, the branching of the store around the ante handler
    and around the messages, the block gas meter and the recovery of panics.
    The transaction decoder, the ante handler and the gas a transaction has
    used by the time it is billed are parameters. *)

From Stdlib Require Import ZArith Lia Ascii String.
From stdpp Require Import base tactics option list relations strings.
From S2P Require Import Prelude GoStd Gas.

Local Open Scope Z_scope.

Module BaseApp.
Import Gas.

Inductive runTxMode := runTxModeCheck | runTxModeReCheck | runTxModeSimulate | runTxModeDeliver.

Definition is_deliver (mode : runTxMode) : bool :=
  match mode with runTxModeDeliver => true | _ => false end.
Definition is_simulate (mode : runTxMode) : bool :=
  match mode with runTxModeSimulate => true | _ => false end.

(** The fields of the context that depend on the mode and on the transaction;
    the contexts of checking and simulating come from the check state. *)
Record TxContext := mkTxContext { IsCheckTx : bool; IsReCheckTx : bool; TxBytes : string }.

Definition getContextForTx (mode : runTxMode) (txBytes : string) : TxContext :=
  mkTxContext (negb (is_deliver mode))
    (match mode with runTxModeReCheck => true | _ => false end) txBytes.

Section baseapp.
Context {St Tx Msg Resp : Type}.

(** The multistore branches for block execution and for checking, and the
    meter of the block. *)
Record App := mkApp { deliverState : St; checkState : St; blockGasMeter : GasMeter }.

Context (txDecoder : string → outcome Tx) (GetMsgs : Tx → list Msg).
Context (ValidateBasic : Msg → outcome ()).
Context (anteHandler : option (TxContext → Tx → bool → M St ())).
(** The handler of the service router or of the legacy router. *)
Context (Handler : Msg → option (M St Resp)).
(** [ctx.GasMeter().GasConsumedToLimit()] when the block is billed. *)
Context (txGas : runTxMode → string → App → Z).

Definition validateBasicTxMsgs (msgs : list Msg) : outcome () :=
  _ ← fail_if (match msgs with [] => true | _ => false end) "must contain at least one message";
  fold_out (λ _, ValidateBasic) () msgs.

Definition getState (mode : runTxMode) (app : App) : St :=
  if is_deliver mode then deliverState app else checkState app.

(** Messages are not executed in the two check modes. *)
Fixpoint runMsgs (mode : runTxMode) (msgs : list Msg) : M St (list Resp) :=
  match msgs with
  | [] => mret []
  | msg :: rest =>
      match mode with
      | runTxModeCheck | runTxModeReCheck => mret []
      | _ =>
          match Handler msg with
          | None => lift (Err "can't route message")
          | Some handler =>
              r ← handler;
              rs ← runMsgs mode rest;
              mret (r :: rs)
          end
      end
  end.

(** The state of one run: the store the transaction writes to, the block
    meter, and whether the block has been billed. *)
Record Run := mkRun { run_store : St; run_gas : GasMeter; billed : bool }.

Definition consumeBlockGas (amount : Z) : M Run () := λ r,
  if billed r then (Ok (), r)
  else let '(o, g) := ConsumeGas amount (run_gas r) in (o, mkRun (run_store r) g true).

(** Run on a branch of the store and write it back on success. *)
Definition on_branch {A} (m : M St A) : M Run A :=
  zoom run_store (λ st r, mkRun st (run_gas r) (billed r)) (commit m).

Definition run_ante (mode : runTxMode) (txBytes : string) (tx : Tx) : M Run () :=
  match anteHandler with
  | None => mret ()
  | Some ante => on_branch (ante (getContextForTx mode txBytes) tx (is_simulate mode))
  end.

Definition run_msgs (mode : runTxMode) (amount : Z) (msgs : list Msg) : M Run (list Resp) := λ r,
  match runMsgs mode msgs (run_store r) with
  | (Ok rs, st) =>
      if is_deliver mode then
        (_ ← consumeBlockGas amount;
         _ ← modify (λ r, mkRun st (run_gas r) (billed r));
         mret rs) r
      else (Ok rs, r)
  | (o, _) => (o, r)
  end.

Definition body (mode : runTxMode) (amount : Z) (txBytes : string) : M Run (list Resp) :=
  tx ← lift (txDecoder txBytes);
  _ ← lift (validateBasicTxMsgs (GetMsgs tx));
  _ ← run_ante mode txBytes tx;
  run_msgs mode amount (GetMsgs tx).

(** The deferred calls: bill the block if it was not billed, then turn a
    panic into an error. *)
Definition deferred {A} (mode : runTxMode) (amount : Z) (m : M Run A) : M Run A := λ r,
  let '(o, r1) := m r in
  let '(o, r2) :=
    if is_deliver mode then
      match consumeBlockGas amount r1 with
      | (Ok _, r2) => (o, r2)
      | (Err e, r2) => (Err e, r2)
      | (Panic e, r2) => (Panic e, r2)
      end
    else (o, r1) in
  match o with
  | Panic e => (Err ("recovered: " +:+ e), r2)
  | _ => (o, r2)
  end.

Definition runTx (mode : runTxMode) (txBytes : string) : M App (list Resp) := λ app,
  if is_deliver mode && IsOutOfGas (blockGasMeter app)
  then (Err "no block gas left to run tx", app)
  else
    let amount := txGas mode txBytes app in
    let '(o, r) := deferred mode amount (body mode amount txBytes)
                     (mkRun (getState mode app) (blockGasMeter app) false) in
    match mode with
    | runTxModeDeliver => (o, mkApp (run_store r) (checkState app) (run_gas r))
    | runTxModeSimulate => (o, app)
    | _ => (o, mkApp (deliverState app) (run_store r) (blockGasMeter app))
    end.

(** One delivered transaction, as a step of the block state. *)
Inductive deliver_step : St → St → Prop :=
  | deliver_tx txBytes app : deliver_step (deliverState app)
      (deliverState (runTx runTxModeDeliver txBytes app).2).

(** ** Facts *)

Lemma on_branch_cases {A} (m : M St A) r :
  (∃ a st, m (run_store r) = (Ok a, st) ∧ on_branch m r = (Ok a, mkRun st (run_gas r) (billed r))) ∨
  (∃ o, is_ok o = false ∧ on_branch m r = (o, r)).
Proof.
  unfold on_branch, zoom, commit. destruct (m (run_store r)) as [[a|e|e] st].
  - left. eauto.
  - right. exists (Err e). by destruct r.
  - right. exists (Panic e). by destruct r.
Qed.

Lemma run_ante_cases mode txBytes tx r :
  (∃ st, run_ante mode txBytes tx r = (Ok (), mkRun st (run_gas r) (billed r)) ∧
     match anteHandler with
     | None => st = run_store r
     | Some ante => ante (getContextForTx mode txBytes) tx (is_simulate mode) (run_store r) = (Ok (), st)
     end) ∨
  (∃ o, is_ok o = false ∧ run_ante mode txBytes tx r = (o, r)).
Proof.
  unfold run_ante. destruct anteHandler as [ante|].
  - destruct (on_branch_cases (ante (getContextForTx mode txBytes) tx (is_simulate mode)) r) as [([] & st & H1 & H2)|H1]; eauto.
  - left. exists (run_store r). by destruct r.
Qed.

Lemma consumeBlockGas_store amount r : run_store (consumeBlockGas amount r).2 = run_store r.
Proof.
  unfold consumeBlockGas. destruct (billed r); [done|]. by destruct (ConsumeGas amount (run_gas r)).
Qed.

Lemma consumeBlockGas_billed amount r : billed (consumeBlockGas amount r).2 = true.
Proof.
  unfold consumeBlockGas. destruct (billed r) eqn:E; [done|].
  by destruct (ConsumeGas amount (run_gas r)).
Qed.

(** The messages run to the end and their writes are kept, or nothing is. *)
Lemma run_msgs_cases mode amount msgs r :
  (∃ rs st r', runMsgs mode msgs (run_store r) = (Ok rs, st) ∧
     run_msgs mode amount msgs r = (Ok rs, r') ∧
     run_store r' = if is_deliver mode then st else run_store r) ∨
  (∃ o r', is_ok o = false ∧ run_msgs mode amount msgs r = (o, r') ∧ run_store r' = run_store r).
Proof.
  unfold run_msgs. destruct (runMsgs mode msgs (run_store r)) as [[rs|e|e] st];
    [|right; eexists _, r; split_and!; [|reflexivity|]; done..].
  destruct (is_deliver mode); [|left; by exists rs, st, r].
  pose proof (consumeBlockGas_store amount r) as Hs. unfold mbind, M_bind.
  destruct (consumeBlockGas amount r) as [[u|e|e] r1]; simpl in *.
  - left. do 3 eexists. split_and!; done.
  - right. by exists (Err e), r1.
  - right. by exists (Panic e), r1.
Qed.

(** What can have happened to the store by the end of a run in mode
    [mode]. *)
Inductive outcome_of (mode : runTxMode) (txBytes : string) (st : St) :
    outcome (list Resp) → St → Prop :=
  | run_aborted o : is_ok o = false → outcome_of mode txBytes st o st
  | run_failed o tx st1 : is_ok o = false → txDecoder txBytes = Ok tx →
      match anteHandler with
      | None => st1 = st
      | Some ante => ante (getContextForTx mode txBytes) tx (is_simulate mode) st = (Ok (), st1)
      end → outcome_of mode txBytes st o st1
  | run_done tx st1 rs st2 : txDecoder txBytes = Ok tx →
      validateBasicTxMsgs (GetMsgs tx) = Ok () →
      match anteHandler with
      | None => st1 = st
      | Some ante => ante (getContextForTx mode txBytes) tx (is_simulate mode) st = (Ok (), st1)
      end →
      runMsgs mode (GetMsgs tx) st1 = (Ok rs, st2) →
      outcome_of mode txBytes st (Ok rs) (if is_deliver mode then st2 else st1).

Lemma bind_cases {S A C} (m : M S A) (f : A → M S C) s o s' : (m ≫= f) s = (o, s') →
  (∃ a s1, m s = (Ok a, s1) ∧ f a s1 = (o, s')) ∨
  (is_ok o = false ∧ ∃ o1, m s = (o1, s') ∧ is_ok o1 = false).
Proof.
  unfold mbind, M_bind. destruct (m s) as [[a|e|e] s1]; intros E; simplify_eq; [left; eauto|right..];
    (split; [done|]); eauto.
Qed.

Lemma body_outcome mode amount txBytes r o r' :
  body mode amount txBytes r = (o, r') → outcome_of mode txBytes (run_store r) o (run_store r').
Proof.
  unfold body. intros [(tx & ? & [Hd ->]%lift_Ok & H)|(Ho & ? & [= _ <-] & _)]%bind_cases;
    [|by constructor].
  apply bind_cases in H as [([] & ? & [Hv ->]%lift_Ok & H)|(Ho & ? & [= _ <-] & _)];
    [|by constructor].
  apply bind_cases in H as [([] & r1 & Ha & H)|(Ho & o1 & Ha & Ho1)];
    destruct (run_ante_cases mode txBytes tx r) as [(st1 & Ha' & Hst)|(o2 & Ho2 & Ha')];
    rewrite Ha' in Ha; simplify_eq; [|by constructor].
  destruct (run_msgs_cases mode amount (GetMsgs tx) (mkRun st1 (run_gas r) (billed r)))
    as [(rs & st & r1 & Hm & Hr & Hs)|(o1 & r1 & Ho & Hr & Hs)]; rewrite Hr in H;
    injection H as <- <-; rewrite Hs; cbn [run_store] in *.
  - by apply run_done with tx.
  - by apply run_failed with tx.
Qed.

Lemma deferred_store {A} mode amount (m : M Run A) r :
  run_store (deferred mode amount m r).2 = run_store (m r).2.
Proof.
  unfold deferred. destruct (m r) as [o r1] eqn:E. simpl.
  destruct (is_deliver mode); [|by destruct o].
  pose proof (consumeBlockGas_store amount r1) as Hs.
  destruct (consumeBlockGas amount r1) as [[u|e|e] r2]; simpl in *; by destruct o.
Qed.

Lemma deferred_ok {A} mode amount (m : M Run A) r :
  is_ok (m r).1 = false → is_ok (deferred mode amount m r).1 = false.
Proof.
  unfold deferred. destruct (m r) as [[a|e|e] r1]; [done|..];
    (destruct (is_deliver mode); [|done]); destruct (consumeBlockGas amount r1) as [[] ?]; done.
Qed.

(** A run that succeeds in a block has billed it before writing, so the
    deferred billing does nothing more. *)
Lemma body_billed amount txBytes r rs r' :
  body runTxModeDeliver amount txBytes r = (Ok rs, r') → billed r' = true.
Proof.
  unfold body. intros (tx & ? & _ & H)%Mbind_Ok. apply Mbind_Ok in H as (? & ? & _ & H).
  apply Mbind_Ok in H as (? & r1 & _ & H). unfold run_msgs in H.
  destruct (runMsgs runTxModeDeliver (GetMsgs tx) (run_store r1)) as [[rs'|e|e] st]; [|done..].
  cbn [is_deliver] in H. apply Mbind_Ok in H as (? & r2 & Hb & H).
  apply Mbind_Ok in H as (? & ? & ->%modify_Ok & [_ ->]%mret_Ok). simpl.
  pose proof (consumeBlockGas_billed amount r1) as Hb'. by rewrite Hb in Hb'.
Qed.

Lemma deferred_body mode amount txBytes r :
  let '(o, r') := body mode amount txBytes r in
  let '(o', r'') := deferred mode amount (body mode amount txBytes) r in
  run_store r'' = run_store r' ∧
  match o with
  | Ok rs => o' = Ok rs
  | _ => ∃ e, o' = Err e
  end.
Proof.
  pose proof (deferred_store mode amount (body mode amount txBytes) r) as Hst.
  unfold deferred in *. destruct (body mode amount txBytes r) as [o r1] eqn:E. simpl in Hst.
  destruct (is_deliver mode) eqn:Hd; [|destruct o; eauto].
  destruct o as [rs|e|e].
  - assert (billed r1 = true) as Hb.
    { destruct mode; try done. by eapply body_billed. }
    unfold consumeBlockGas in *. rewrite Hb in *. done.
  - destruct (consumeBlockGas amount r1) as [[u|e'|e'] r2]; simpl in *; eauto.
  - destruct (consumeBlockGas amount r1) as [[u|e'|e'] r2]; simpl in *; eauto.
Qed.

(** What one delivered transaction does. *)
Lemma runTx_deliver txBytes app :
  ∃ o, outcome_of runTxModeDeliver txBytes (deliverState app) o
         (deliverState (runTx runTxModeDeliver txBytes app).2) ∧
       match o with
       | Ok rs => (runTx runTxModeDeliver txBytes app).1 = Ok rs
       | _ => ∃ e, (runTx runTxModeDeliver txBytes app).1 = Err e
       end ∧
       checkState (runTx runTxModeDeliver txBytes app).2 = checkState app.
Proof.
  unfold runTx. cbn [is_deliver andb].
  destruct (IsOutOfGas (blockGasMeter app)).
  { exists (Err ""). split_and!; [by constructor|simpl; eauto|done]. }
  set (amount := txGas _ _ _). set (r := mkRun _ _ _).
  pose proof (body_outcome runTxModeDeliver amount txBytes r _ _ (surjective_pairing _)) as Ho.
  pose proof (deferred_body runTxModeDeliver amount txBytes r) as Hd.
  destruct (body runTxModeDeliver amount txBytes r) as [o r1].
  destruct (deferred _ amount _ r) as [o' r2]. destruct Hd as [Hs Hd]. simpl in *.
  rewrite Hs. eauto.
Qed.

Lemma runTx_deliver_atomic txBytes app :
  let '(o, app') := runTx runTxModeDeliver txBytes app in
  (∀ e, o ≠ Panic e) ∧
  checkState app' = checkState app ∧
  (∀ rs, o = Ok rs →
     ∃ tx st1, txDecoder txBytes = Ok tx ∧ validateBasicTxMsgs (GetMsgs tx) = Ok () ∧
       match anteHandler with
       | None => st1 = deliverState app
       | Some ante => ante (getContextForTx runTxModeDeliver txBytes) tx false (deliverState app) = (Ok (), st1)
       end ∧
       runMsgs runTxModeDeliver (GetMsgs tx) st1 = (Ok rs, deliverState app')) ∧
  (∀ e, o = Err e →
     deliverState app' = deliverState app ∨
     ∃ tx ante, txDecoder txBytes = Ok tx ∧ anteHandler = Some ante ∧
       ante (getContextForTx runTxModeDeliver txBytes) tx false (deliverState app) = (Ok (), deliverState app')).
Proof.
  destruct (runTx_deliver txBytes app) as (o & Ho & Hres & Hcs).
  destruct (runTx runTxModeDeliver txBytes app) as [o' app']. simpl in *.
  revert Ho. generalize (deliverState app'). intros st' Ho.
  destruct Ho as [o Ho|o tx st1 Ho Hd Ha|tx st1 rs st2 Hd Hv Ha Hr].
  - destruct o as [rs|e|e]; [done|destruct Hres as [e' ->]..]; (split_and!; [done..|by left]).
  - assert (∃ e, o' = Err e) as [e ->] by (destruct o; done).
    split_and!; [done..|]. intros e' _. destruct anteHandler as [ante|]; [right|by left].
    by exists tx, ante.
  - subst o'. split_and!; [done..| |done]. intros rs' [= <-]. by exists tx, st1.
Qed.

Lemma runTx_simulate txBytes app :
  let '(o, app') := runTx runTxModeSimulate txBytes app in (∀ e, o ≠ Panic e) ∧ app' = app.
Proof.
  unfold runTx. cbn [is_deliver andb]. set (amount := txGas _ _ _). set (r := mkRun _ _ _).
  pose proof (deferred_body runTxModeSimulate amount txBytes r) as Hd.
  destruct (body _ amount txBytes r) as [o r1]. destruct (deferred _ amount _ r) as [o' r2].
  destruct Hd as [_ Hd]. split; [|done]. intros e ->. destruct o; naive_solver.
Qed.

Lemma runMsgs_check mode msgs st rs st' : mode = runTxModeCheck ∨ mode = runTxModeReCheck →
  runMsgs mode msgs st = (Ok rs, st') → rs = [].
Proof. intros [-> | ->]; destruct msgs; simpl; by intros [-> _]%mret_Ok. Qed.

Lemma runTx_check mode txBytes app : mode = runTxModeCheck ∨ mode = runTxModeReCheck →
  let '(o, app') := runTx mode txBytes app in
  (∀ e, o ≠ Panic e) ∧ deliverState app' = deliverState app ∧
  blockGasMeter app' = blockGasMeter app ∧
  (∀ rs, o = Ok rs → rs = [] ∧ ∃ tx, txDecoder txBytes = Ok tx ∧
     match anteHandler with
     | None => checkState app' = checkState app
     | Some ante => ante (getContextForTx mode txBytes) tx false (checkState app) = (Ok (), checkState app')
     end) ∧
  (is_ok o = false → checkState app' ≠ checkState app →
   ∃ tx ante, txDecoder txBytes = Ok tx ∧ anteHandler = Some ante ∧
     ante (getContextForTx mode txBytes) tx false (checkState app) = (Ok (), checkState app')).
Proof.
  intros Hm. assert (is_deliver mode = false ∧ is_simulate mode = false) as [Hdm Hsm]
    by (by destruct Hm as [-> | ->]).
  unfold runTx. rewrite Hdm. cbn [andb]. set (amount := txGas _ _ _).
  unfold getState. rewrite Hdm. set (r := mkRun _ _ _).
  pose proof (body_outcome mode amount txBytes r _ _ (surjective_pairing _)) as Ho.
  pose proof (deferred_body mode amount txBytes r) as Hd.
  destruct (body mode amount txBytes r) as [o r1]. destruct (deferred mode amount _ r) as [o' r2].
  destruct Hd as [Hs Hd]. simpl in Ho.
  assert (∀ e, o' ≠ Panic e) as Hnp by (intros e ->; destruct o; naive_solver).
  assert (∀ rs, o' = Ok rs → rs = [] ∧ ∃ tx, txDecoder txBytes = Ok tx ∧
     match anteHandler with
     | None => run_store r2 = checkState app
     | Some ante => ante (getContextForTx mode txBytes) tx false (checkState app) = (Ok (), run_store r2)
     end) as Hsucc.
  { rewrite Hs. revert Ho. generalize (run_store r1). intros st' Ho rs Hrs.
    destruct Ho as [o Ho|o tx st1 Ho Hdc Ha|tx st1 rs' st2 Hdc Hv Ha Hr];
      [destruct o; naive_solver..|]. rewrite Hsm in Ha. rewrite Hdm.
    assert (rs' = []) as -> by (by apply (runMsgs_check mode _ _ _ _ Hm) in Hr).
    split; [congruence|]. by exists tx. }
  assert (is_ok o' = false → run_store r2 ≠ checkState app →
    ∃ tx ante, txDecoder txBytes = Ok tx ∧ anteHandler = Some ante ∧
      ante (getContextForTx mode txBytes) tx false (checkState app) = (Ok (), run_store r2)) as Hk.
  { rewrite Hs. revert Ho. generalize (run_store r1). intros st' Ho Hok Hne.
    destruct Ho as [o Ho|o tx st1 Ho Hdc Ha|tx st1 rs st2 _ _ _ _];
      [done| |by rewrite Hd in Hok].
    rewrite Hsm in Ha. destruct anteHandler as [ante|]; [by exists tx, ante|done]. }
  by destruct Hm as [-> | ->].
Qed.

(** An assertion the ante handler and the handlers of valid messages keep is
    kept by the run of a block's transactions. *)
Definition ante_keeps (I : St → Prop) : Prop :=
  match anteHandler with
  | None => True
  | Some ante => ∀ ctx tx sim st st', I st → ante ctx tx sim st = (Ok (), st') → I st'
  end.
Definition handlers_keep (allowed : Msg → Prop) (I : St → Prop) : Prop :=
  ∀ msg h st r st', allowed msg → Handler msg = Some h → ValidateBasic msg = Ok () → I st →
    h st = (Ok r, st') → I st'.

Lemma validateBasic_all msgs : validateBasicTxMsgs msgs = Ok () →
  Forall (λ m, ValidateBasic m = Ok ()) msgs.
Proof.
  unfold validateBasicTxMsgs. intros (? & _ & H)%bind_Ok. clear -H.
  induction msgs as [|m msgs IH]; [done|]. cbn [fold_out] in H.
  apply bind_Ok in H as ([] & H1 & H2). constructor; auto.
Qed.

Lemma runMsgs_keeps allowed (I : St → Prop) mode msgs st rs st' : handlers_keep allowed I →
  Forall allowed msgs → Forall (λ m, ValidateBasic m = Ok ()) msgs → I st →
  runMsgs mode msgs st = (Ok rs, st') → I st'.
Proof.
  intros Hk Hall Hv. revert st rs.
  induction Hv as [|m msgs Hm _ IH]; intros st rs Hi Hr; simpl in Hr.
  - by apply mret_Ok in Hr as [_ ->].
  - apply Forall_cons in Hall as [Hm' Hall].
    destruct mode; try (by apply mret_Ok in Hr as [_ ->]);
      (destruct (Handler m) as [h|] eqn:Eh; [|done]);
      apply Mbind_Ok in Hr as (r & s1 & H1 & Hr); apply Mbind_Ok in Hr as (rs' & s2 & H2 & Hr);
      apply mret_Ok in Hr as [_ ->]; eauto.
Qed.

Lemma runTx_keeps allowed (I : St → Prop) txBytes app :
  (∀ tx, txDecoder txBytes = Ok tx → Forall allowed (GetMsgs tx)) → ante_keeps I → handlers_keep allowed I →
  I (deliverState app) → I (deliverState (runTx runTxModeDeliver txBytes app).2).
Proof.
  intros Hall Ha Hk Hi.
  destruct (runTx_deliver txBytes app) as (o & Ho & _). unfold ante_keeps in *.
  revert Ho. generalize (deliverState (runTx runTxModeDeliver txBytes app).2). intros st3 Ho.
  destruct Ho as [o _|o tx st1 _ _ Hante|tx st1 rs st2 Hd Hv Hante Hr]; [done|..].
  - destruct anteHandler; [by eapply Ha|by subst].
  - assert (I st1) as Hi1 by (destruct anteHandler; [by eapply Ha|by subst]).
    simpl. eapply runMsgs_keeps;
      [exact Hk|by apply Hall|by apply validateBasic_all|exact Hi1|exact Hr].
Qed.

Lemma deliver_step_keeps allowed (I : St → Prop) st st' :
  (∀ tx, Forall allowed (GetMsgs tx)) → ante_keeps I → handlers_keep allowed I →
  deliver_step st st' → I st → I st'.
Proof. intros Hall Ha Hk [txBytes app]. apply runTx_keeps with allowed; auto. Qed.

Lemma deliver_steps_keep allowed (I : St → Prop) st st' :
  (∀ tx, Forall allowed (GetMsgs tx)) → ante_keeps I → handlers_keep allowed I →
  rtc deliver_step st st' → I st → I st'.
Proof.
  intros Hall Ha Hk. induction 1 as [|x y z Hs _ IH]; [done|]. intros Hi. apply IH.
  by apply (deliver_step_keeps allowed I x y).
Qed.

(** ** Properties *)

End baseapp.
Arguments App St : clear implicits.
End BaseApp.
