(* ===== verification/ABCI.v ===== *)
(** * Blocks: baseapp/abci.go and the block functions of baseapp/baseapp.go

    The calls by which consensus drives the application.  The multistore is
    one value; a branch of it with the context over it is a value of the same
    type, which carries the header.  What a server answers to a transaction is
    the outcome of [runTx]; gas figures, events, telemetry and tracing are
    left out, and halting the process is an answer of [Commit].  The parameter
    store, the genesis initializer and the block callbacks of the application
    are parameters. *)

From Stdlib Require Import ZArith Lia Ascii String.
From stdpp Require Import base tactics option list relations strings.
From S2P Require Import Prelude GoStd Gas BaseApp.

Local Open Scope Z_scope.

Module ABCI.
Import Gas BaseApp.

Record Header := mkHeader { Height : Z; Time : Z }.

(** Of the consensus parameters: [Block.MaxGas] and
    [Evidence.MaxAgeNumBlocks]. *)
Record ConsensusParams := mkConsensusParams { MaxGas : option Z; MaxAgeNumBlocks : option Z }.

(** The options of the node; [KeepEvery] is of the pruning options. *)
Record Options := mkOptions {
  minRetainBlocks : Z; KeepEvery : Z; snapshotInterval : Z; snapshotKeepRecent : Z;
  haltHeight : Z; haltTime : Z }.

Section abci.
Context {St Tx Msg Resp Val BlockResp : Type}.

(** The committed multistore with its version and the initial version, and
    the branches for delivering and checking. *)
Record Server := mkServer {
  cms : St; version : Z; initialVersion : Z; initialHeight : Z;
  deliver : option St; check : option St; blockGas : GasMeter }.

Definition set_deliver (d : option St) (s : Server) : Server :=
  mkServer (cms s) (version s) (initialVersion s) (initialHeight s) d (check s) (blockGas s).
Definition set_check (c : option St) (s : Server) : Server :=
  mkServer (cms s) (version s) (initialVersion s) (initialHeight s) (deliver s) c (blockGas s).
Definition set_gas (g : GasMeter) (s : Server) : Server :=
  mkServer (cms s) (version s) (initialVersion s) (initialHeight s) (deliver s) (check s) g.

(** A new context with the header over a branch, and the header of one. *)
Context (with_header : Header → St → St) (header_of : St → Header).
(** The parameter store, when there is one: reading and writing. *)
Context (paramStore : option ((St → ConsensusParams) * (ConsensusParams → St → St))).
Context (initChainer : option (M St (list Val))) (val_sort : list Val → list Val) (val_eqb : Val → Val → bool).
Context (beginBlocker endBlocker : option (Header → M St BlockResp)).
Context (opts : Options).
Context (txDecoder : string → outcome Tx) (GetMsgs : Tx → list Msg).
Context (ValidateBasic : Msg → outcome ()).
Context (anteHandler : option (TxContext → Tx → bool → M St ())).
Context (Handler : Msg → option (M St Resp)).
Context (txGas : runTxMode → string → App St → Z).

Definition nil_pointer {A} : M Server A := lift (Panic "nil pointer dereference").

(** An operation on the deliver state, which has no error to return. *)
Definition on_deliver {A} (m : M St A) : M Server A := λ s,
  match deliver s with
  | None => nil_pointer s
  | Some d => let '(o, d') := m d in (must o, set_deliver (Some d') s)
  end.

Definition LastBlockHeight (s : Server) : Z := version s.

Definition setCheckState (h : Header) : M Server () :=
  modify (λ s, set_check (Some (with_header h (cms s))) s).
Definition setDeliverState (h : Header) : M Server () :=
  modify (λ s, set_deliver (Some (with_header h (cms s))) s).

Definition GetConsensusParams (d : St) : option ConsensusParams :=
  match paramStore with None => None | Some (get, _) => Some (get d) end.

Definition StoreConsensusParams (cp : ConsensusParams) : M St () :=
  match paramStore with
  | None => lift (Panic "cannot store consensus params with no params store set")
  | Some (_, set) => modify (set cp)
  end.

Definition getMaximumBlockGas (d : St) : outcome Z :=
  match GetConsensusParams d ≫= MaxGas with
  | None => Ok 0
  | Some maxGas =>
      if maxGas <? -1 then Panic "invalid maximum block gas"
      else if maxGas =? -1 then Ok 0 else Ok (wrapu64 maxGas)
  end.

Definition validateHeight (h : Header) (s : Server) : outcome () :=
  _ ← fail_if (Height h <? 1) "invalid height";
  let expectedHeight :=
    if (LastBlockHeight s =? 0) && (1 <? initialHeight s) then initialHeight s
    else wrap64 (LastBlockHeight s + 1) in
  fail_if (negb (Height h =? expectedHeight)) "invalid height".

(** ** The calls *)

(** The check of the validators: they agree after sorting, which sorts the
    answer in place. *)
Definition same_validators (req res : list Val) : outcome (list Val) :=
  match req with
  | [] => Ok res
  | _ =>
      _ ← panic_if (negb (length req =? length res)%nat) "len(RequestInitChain.Validators) != len(GenesisValidators)";
      _ ← panic_if (negb (forallb (λ '(a, b), val_eqb a b) (zip (val_sort res) (val_sort req)))) "genesisValidators != req.Validators";
      Ok (val_sort res)
  end.

Definition InitChain (time InitialHeight : Z) (params : option ConsensusParams) (validators : list Val) :
    M Server (list Val) :=
  let initHeader := mkHeader (if 1 <? InitialHeight then InitialHeight else 0) time in
  _ ← (if 1 <? InitialHeight then
         modify (λ s, mkServer (cms s) (version s) InitialHeight InitialHeight (deliver s) (check s) (blockGas s))
       else mret ());
  _ ← setDeliverState initHeader;
  _ ← setCheckState initHeader;
  _ ← match params with None => mret () | Some cp => on_deliver (StoreConsensusParams cp) end;
  match initChainer with
  | None => mret []
  | Some init =>
      _ ← modify (set_gas NewInfiniteGasMeter);
      res ← on_deliver init;
      lift (same_validators validators res)
  end.

Definition run_blocker (b : option (Header → M St BlockResp)) : M Server (option BlockResp) :=
  match b with
  | None => mret None
  | Some f => r ← on_deliver (λ d, f (header_of d) d); mret (Some r)
  end.

Definition BeginBlock (h : Header) : M Server (option BlockResp) :=
  v ← gets (validateHeight h);
  _ ← lift (must v);
  d ← gets deliver;
  _ ← match d with
      | None => setDeliverState h
      | Some d => modify (set_deliver (Some (with_header h d)))
      end;
  d ← gets deliver;
  maxGas ← lift (d ← or_panic d "nil pointer dereference"; getMaximumBlockGas d);
  _ ← modify (set_gas (if 0 <? maxGas then NewGasMeter maxGas else NewInfiniteGasMeter));
  run_blocker beginBlocker.

Definition EndBlock : M Server (option BlockResp) := run_blocker endBlocker.

(** The branch that a mode does not use is not looked at. *)
Definition app_of (s : Server) : (App St) :=
  mkApp (default (cms s) (deliver s)) (default (cms s) (check s)) (blockGas s).
Definition run (mode : runTxMode) (tx : string) : M Server (outcome (list Resp)) := λ s,
  match (if is_deliver mode then deliver s else check s) with
  | None => nil_pointer s
  | Some _ =>
      let '(o, a) := runTx txDecoder GetMsgs ValidateBasic anteHandler Handler txGas mode tx (app_of s) in
      (Ok o, mkServer (cms s) (version s) (initialVersion s) (initialHeight s)
               ((λ _, deliverState a) <$> deliver s) ((λ _, checkState a) <$> check s) (blockGasMeter a))
  end.

Definition CheckTx (recheck : bool) (tx : string) : M Server (outcome (list Resp)) :=
  run (if recheck then runTxModeReCheck else runTxModeCheck) tx.
Definition DeliverTx (tx : string) : M Server (outcome (list Resp)) := run runTxModeDeliver tx.
Definition Simulate (tx : string) : M Server (outcome (list Resp)) := run runTxModeSimulate tx.

Definition minNonZero (x y : Z) : Z :=
  if x =? 0 then y else if y =? 0 then x else if x <? y then x else y.

Definition GetBlockRetentionHeight (d : St) (commitHeight : Z) : Z :=
  if minRetainBlocks opts =? 0 then 0
  else
    let retentionHeight :=
      match GetConsensusParams d ≫= MaxAgeNumBlocks with
      | Some age => if 0 <? age then wrap64 (commitHeight - age) else 0
      | None => 0
      end in
    let statePruningOffset := wrap64 (KeepEvery opts) in
    if (0 <? statePruningOffset) && negb (statePruningOffset <? commitHeight) then 0
    else
      let retentionHeight :=
        if 0 <? statePruningOffset
        then minNonZero retentionHeight (commitHeight - Z.rem commitHeight statePruningOffset)
        else retentionHeight in
      let retentionHeight :=
        if (0 <? snapshotInterval opts) && (0 <? snapshotKeepRecent opts)
        then minNonZero retentionHeight
               (wrap64 (commitHeight - wrap64 (snapshotInterval opts * snapshotKeepRecent opts)))
        else retentionHeight in
      let retentionHeight := minNonZero retentionHeight (wrap64 (commitHeight - wrap64 (minRetainBlocks opts))) in
      if retentionHeight <=? 0 then 0 else retentionHeight.

(** store/rootmulti/store.go: the version of the next commit. *)
Definition next_version (s : Server) : Z :=
  if (version s =? 0) && (1 <? initialVersion s) then initialVersion s else wrap64 (version s + 1).

(** The answer: the height below which blocks may go, and whether the process
    is halted. *)
Definition Commit : M Server (Z * bool) := λ s,
  match deliver s with
  | None => nil_pointer s
  | Some d =>
      let header := header_of d in
      let retainHeight := GetBlockRetentionHeight d (Height header) in
      let s1 := mkServer d (next_version s) (initialVersion s) (initialHeight s) None
                  (Some (with_header header d)) (blockGas s) in
      let halt := (0 <? haltHeight opts) && (haltHeight opts <=? wrapu64 (Height header)) ||
                  (0 <? haltTime opts) && (wrap64 (haltTime opts) <=? Time header) in
      (Ok (retainHeight, halt), s1)
  end.

End abci.
Arguments Server : clear implicits.
Arguments mkServer {St} _ _ _ _ _ _ _.
End ABCI.
