(* ===== verification/ABCIProps.v ===== *)
(** * Blocks: isolation of the mempool, block structure, retention *)

From Stdlib Require Import ZArith Lia Ascii String.
From stdpp Require Import base tactics option list relations strings.
From S2P Require Import Prelude GoStd Gas BaseApp ABCI.

Local Open Scope Z_scope.

Module ABCIProps.
Import Gas BaseApp ABCI.

Section props.
Context {St Tx Msg Resp Val BlockResp : Type}.
Context (with_header : Header → St → St) (header_of : St → Header).
Context (paramStore : option ((St → ConsensusParams) * (ConsensusParams → St → St))).
Context (initChainer : option (M St (list Val))) (val_sort : list Val → list Val) (val_eqb : Val → Val → bool).
Context (beginBlocker endBlocker : option (Header → M St BlockResp)).
Context (opts : Options).
Context (txDecoder : string → outcome Tx) (GetMsgs : Tx → list Msg).
Context (ValidateBasic : Msg → outcome ()).
Context (anteHandler : option (TxContext → Tx → bool → M St ())).
Context (Handler : Msg → option (M St Resp)).
Context (txGas : runTxMode → string → App St → Z).
Implicit Types s : Server St.

(** ** Calls *)

Inductive Call :=
  | InitChainCall (time InitialHeight : Z) (params : option ConsensusParams) (validators : list Val)
  | BeginBlockCall (h : Header)
  | DeliverTxCall (tx : string)
  | EndBlockCall
  | CommitCall
  | CheckTxCall (recheck : bool) (tx : string)
  | SimulateCall (tx : string).

Inductive Answer :=
  | AValidators (l : list Val)
  | ABlock (r : option BlockResp)
  | ATx (o : outcome (list Resp))
  | ACommit (retainHeight : Z) (halt : bool).

Definition consensus (c : Call) : bool :=
  match c with CheckTxCall _ _ | SimulateCall _ => false | _ => true end.

Abbreviation do_BeginBlock := (BeginBlock with_header header_of paramStore beginBlocker).
Abbreviation do_EndBlock := (EndBlock header_of endBlocker).
Abbreviation do_run := (run txDecoder GetMsgs ValidateBasic anteHandler Handler txGas).
Abbreviation do_DeliverTx := (DeliverTx txDecoder GetMsgs ValidateBasic anteHandler Handler txGas).
Abbreviation do_Commit := (Commit with_header header_of paramStore opts).
Abbreviation do_InitChain := (InitChain with_header paramStore initChainer val_sort val_eqb).

Definition serve (c : Call) : M (Server St) Answer :=
  match c with
  | InitChainCall time height params vals => r ← do_InitChain time height params vals; mret (AValidators r)
  | BeginBlockCall h => r ← do_BeginBlock h; mret (ABlock r)
  | DeliverTxCall tx => r ← do_DeliverTx tx; mret (ATx r)
  | EndBlockCall => r ← do_EndBlock; mret (ABlock r)
  | CommitCall => r ← do_Commit; mret (ACommit r.1 r.2)
  | CheckTxCall recheck tx =>
      r ← CheckTx txDecoder GetMsgs ValidateBasic anteHandler Handler txGas recheck tx; mret (ATx r)
  | SimulateCall tx => r ← Simulate txDecoder GetMsgs ValidateBasic anteHandler Handler txGas tx; mret (ATx r)
  end.

(** The calls of a run with their answers; an error or a panic ends it. *)
Fixpoint serve_all (calls : list Call) : Server St → list (Call * outcome Answer) * Server St := λ s,
  match calls with
  | [] => ([], s)
  | c :: rest =>
      match serve c s with
      | (Ok a, s1) => let '(l, s2) := serve_all rest s1 in ((c, Ok a) :: l, s2)
      | (o, s1) => ([(c, o)], s1)
      end
  end.

(** ** The mempool and the simulations do not matter *)

(** Everything but the check state, of which it matters that it is there. *)
Definition same_consensus s s' : Prop :=
  is_Some (check s) ∧ is_Some (check s') ∧
  s' = set_check (check s') s.

Lemma same_consensus_refl s : is_Some (check s) → same_consensus s s.
Proof. intros H. split_and!; [done|done|]. by destruct s. Qed.

Lemma check_simulate_keep mode tx s : is_deliver mode = false → is_Some (check s) →
  ∃ o s', do_run mode tx s = (Ok o, s') ∧ same_consensus s s'.
Proof.
  intros Hm [c Hc]. unfold run. rewrite Hm, Hc.
  destruct (runTx _ _ _ _ _ _ mode tx (app_of s)) as [o a] eqn:E. do 2 eexists. split; [done|].
  split; [by rewrite Hc|]. split; [done|]. unfold set_check. cbn.
  assert (deliverState a = deliverState (app_of s) ∧ blockGasMeter a = blockGasMeter (app_of s)) as [-> ->].
  { unfold runTx in E. rewrite Hm in E. cbn [andb] in E. destruct (deferred _ _ _ _) as [o' r].
    destruct mode; try done; by injection E as _ <-. }
  unfold app_of. cbn. by destruct (deliver s).
Qed.

(** The gas a delivered transaction is billed depends on what delivering
    reads. *)
Hypothesis txGas_deliver : ∀ b a a', deliverState a = deliverState a' → blockGasMeter a = blockGasMeter a' →
  txGas runTxModeDeliver b a = txGas runTxModeDeliver b a'.

Lemma runTx_deliver_same b (a a' : App St) : deliverState a = deliverState a' → blockGasMeter a = blockGasMeter a' →
  let r := runTx txDecoder GetMsgs ValidateBasic anteHandler Handler txGas runTxModeDeliver b a in
  let r' := runTx txDecoder GetMsgs ValidateBasic anteHandler Handler txGas runTxModeDeliver b a' in
  r.1 = r'.1 ∧ deliverState r.2 = deliverState r'.2 ∧ blockGasMeter r.2 = blockGasMeter r'.2 ∧
  checkState r.2 = checkState a ∧ checkState r'.2 = checkState a'.
Proof using txGas_deliver.
  intros Hd Hg. unfold runTx. cbn [is_deliver andb]. rewrite <- Hg.
  destruct (IsOutOfGas (blockGasMeter a)); [done|]. unfold getState. cbn [is_deliver].
  rewrite (txGas_deliver b a a' Hd Hg), Hd. by destruct (deferred _ _ _ _).
Qed.

(** Operations that do not look at the check state. *)
Definition blind {A} (m : M (Server St) A) : Prop := ∀ s s', same_consensus s s' →
  (m s).1 = (m s').1 ∧ same_consensus (m s).2 (m s').2.

Lemma blind_lift {A} (o : outcome A) : blind (lift o).
Proof. by intros s s' H. Qed.
Lemma blind_ret {A} (a : A) : blind (mret a).
Proof. by intros s s' H. Qed.
Lemma blind_gets {A} (f : Server St → A) : (∀ s c, f (set_check c s) = f s) → blind (gets f).
Proof. intros Hf s s' (H1 & H2 & H3). split; [|done]. cbn. by rewrite H3, Hf. Qed.
Lemma blind_modify (f : Server St → Server St) :
  (∀ s c, is_Some (check s) → is_Some c → same_consensus (f s) (f (set_check c s))) → blind (modify f).
Proof. intros Hf s s' (H1 & H2 & H3). split; [done|]. cbn. rewrite H3. by apply Hf. Qed.
Lemma blind_bind {A B} (m : M (Server St) A) (f : A → M (Server St) B) :
  blind m → (∀ a, blind (f a)) → blind (m ≫= f).
Proof.
  intros Hm Hf s s' H. destruct (Hm s s' H) as [H1 H2]. unfold mbind, M_bind.
  destruct (m s) as [o t], (m s') as [o' t']. cbn in *. subst o'. destruct o; [by apply Hf|done..].
Qed.
Lemma blind_on_deliver {A} (m : M St A) : blind (on_deliver m).
Proof.
  intros s s' (H1 & H2 & H3). unfold on_deliver. rewrite H3. cbn. destruct (deliver s) as [d|]; [|by rewrite H3 in *].
  destruct (m d) as [o d']. split; [done|]. split_and!; done.
Qed.

Ltac blinds := repeat match goal with
  | |- blind (mbind _ _) => apply blind_bind; [|intros ?]
  | |- blind (lift _) => apply blind_lift
  | |- blind (mret _) => apply blind_ret
  | |- blind (gets _) => apply blind_gets; done
  | |- blind (on_deliver _) => apply blind_on_deliver
  | |- blind (modify _) => apply blind_modify; intros; by split_and!
  | |- blind (if ?b then _ else _) => destruct b
  | |- blind (match ?o with _ => _ end) => destruct o
  end.

Lemma blind_run_deliver tx : blind (do_run runTxModeDeliver tx).
Proof using txGas_deliver.
  intros s s' (H1 & H2 & H3). unfold run. cbn [is_deliver]. destruct (deliver s) as [d|] eqn:Ed; rewrite H3; cbn; rewrite Ed; [|by rewrite H3 in *].
  destruct (runTx_deliver_same tx (app_of s) (app_of (set_check (check s') s))) as (E1 & E2 & E3 & _); [done..|].
  unfold set_check in *. cbn in *.
  destruct (runTx _ _ _ _ _ _ _ _ (app_of s)) as [o a], (runTx _ _ _ _ _ _ _ _ (app_of _)) as [o' a']. cbn in *. subst o'.
  split; [done|]. destruct H1 as [c Hc], H2 as [c' Hc']. split_and!; cbn; [by rewrite Hc|by rewrite Hc'|].
  unfold set_check. cbn. by rewrite E2, E3.
Qed.

Lemma blind_serve c : consensus c = true → blind (serve c).
Proof using txGas_deliver.
  destruct c; intros Hc; try done; cbn [serve].
  - unfold InitChain, setDeliverState, setCheckState. blinds.
  - unfold BeginBlock, setDeliverState, run_blocker. blinds.
  - apply blind_bind; [apply blind_run_deliver|intros; apply blind_ret].
  - unfold EndBlock, run_blocker. blinds.
  - apply blind_bind; [|intros; apply blind_ret]. intros s s' (H1 & H2 & H3). unfold Commit. rewrite H3. cbn.
    destruct (deliver s) as [d|]; [by split_and!|by rewrite H3 in *].
Qed.

Abbreviation bare_calls := (filter (λ c, consensus c = true)).

Lemma isolated_from calls s s' : same_consensus s s' →
  filter (λ ca, consensus ca.1 = true) (serve_all calls s).1 = (serve_all (bare_calls calls) s').1 ∧
  same_consensus (serve_all calls s).2 (serve_all (bare_calls calls) s').2.
Proof using txGas_deliver.
  revert s s'. induction calls as [|c calls IH]; intros s s' H; [done|]. rewrite filter_cons.
  destruct (decide (consensus c = true)) as [Hc|Hc].
  - cbn [serve_all]. destruct (blind_serve c Hc s s' H) as [H1 H2].
    destruct (serve c s) as [o t], (serve c s') as [o' t']. cbn [fst snd] in *. subst o'.
    destruct o as [a|e|e]; cbn [fst snd]; [|rewrite filter_cons_True by done; done..]. destruct (IH t t' H2) as [I1 I2].
    destruct (serve_all calls t) as [l u], (serve_all (bare_calls calls) t') as [l' u']. cbn [fst snd] in *.
    rewrite filter_cons_True by done. by rewrite I1.
  - cbn [serve_all]. assert (∃ a t, serve c s = (Ok a, t) ∧ same_consensus s t) as (a & t & -> & Ht).
    { destruct c; try done; cbn [serve].
      - destruct (check_simulate_keep (if recheck then runTxModeReCheck else runTxModeCheck) tx s) as (o & t & E & Ht);
          [by destruct recheck|apply H|]. rewrite (Mbind_run _ _ _ _ _ E). eauto.
      - destruct (check_simulate_keep runTxModeSimulate tx s) as (o & t & E & Ht); [done|apply H|].
        rewrite (Mbind_run _ _ _ _ _ E). eauto. }
    destruct (IH t s') as [I1 I2].
    { destruct H as (H1 & H2 & H3), Ht as (_ & H4 & H5). split_and!; [done|done|]. by rewrite H5, H3. }
    destruct (serve_all calls t) as [l u]. cbn [fst snd] in *. by rewrite filter_cons_False.
Qed.


(** ** Blocks *)

Fixpoint deliver_all (txs : list string) : M (Server St) (list (outcome (list Resp))) :=
  match txs with
  | [] => mret []
  | tx :: txs => r ← do_DeliverTx tx; rs ← deliver_all txs; mret (r :: rs)
  end.
Definition run_block (h : Header) (txs : list string) : M (Server St) (list (outcome (list Resp))) :=
  _ ← do_BeginBlock h; rs ← deliver_all txs; _ ← do_EndBlock; _ ← do_Commit; mret rs.

Abbreviation step := (deliver_step txDecoder GetMsgs ValidateBasic anteHandler Handler txGas).

(** What a block callback does to the state of the block. *)
Definition blocker_step (b : option (Header → M St BlockResp)) (d d' : St) : Prop :=
  match b with None => d' = d | Some f => ∃ r, f (header_of d) d = (Ok r, d') end.

Lemma run_blocker_Ok b s r s' d : deliver s = Some d → run_blocker header_of b s = (Ok r, s') →
  ∃ d', blocker_step b d d' ∧ s' = set_deliver (Some d') s.
Proof.
  intros Hd H. unfold run_blocker in H. destruct b as [f|].
  - apply Mbind_Ok in H as (r' & s1 & H & [_ ->]%mret_Ok). unfold on_deliver in H. rewrite Hd in H.
    destruct (f (header_of d) d) as [[] d'] eqn:E; [|done..]. injection H as <- <-. exists d'. split; [by eexists|done].
  - apply mret_Ok in H as [_ ->]. exists d. split; [done|]. destruct s. cbn in *. by subst.
Qed.

Lemma DeliverTx_Ok tx s o s' d : deliver s = Some d → do_DeliverTx tx s = (Ok o, s') →
  ∃ d' g, step d d' ∧ s' = mkServer (cms s) (version s) (initialVersion s) (initialHeight s) (Some d') (check s) g.
Proof.
  intros Hd H. unfold DeliverTx, run in H. cbn [is_deliver] in H. rewrite Hd in H.
  pose proof (runTx_deliver txDecoder GetMsgs ValidateBasic anteHandler Handler txGas tx (app_of s)) as (_ & _ & _ & Hc).
  pose proof (deliver_tx txDecoder GetMsgs ValidateBasic anteHandler Handler txGas tx (app_of s)) as Hst.
  unfold app_of in *. rewrite Hd in *. cbn [default deliverState] in *.
  destruct (runTx _ _ _ _ _ _ _ _ _) as [o' a]. injection H as <- <-. cbn in *. rewrite Hc. eexists _, _. split; [exact Hst|].
  by destruct (check s).
Qed.

Lemma deliver_all_Ok txs s rs s' d : deliver s = Some d → deliver_all txs s = (Ok rs, s') →
  ∃ d' g, nsteps step (length txs) d d' ∧ length rs = length txs ∧
    s' = mkServer (cms s) (version s) (initialVersion s) (initialHeight s) (Some d') (check s) g.
Proof.
  revert s rs d. induction txs as [|tx txs IH]; intros s rs d Hd H; cbn [deliver_all] in H.
  - apply mret_Ok in H as [-> ->]. exists d, (blockGas s). split_and!; [constructor|done|]. destruct s. cbn in *. by subst.
  - apply Mbind_Ok in H as (o & s1 & (d1 & g & Hst & ->)%(DeliverTx_Ok _ _ _ _ d) & H); [|done].
    apply Mbind_Ok in H as (rs' & s2 & H & [-> ->]%mret_Ok). apply (IH _ _ d1) in H as (d' & g' & Hn & Hl & ->); [|done].
    exists d', g'. split_and!; [by econstructor|simpl; lia|done].
Qed.

Lemma BeginBlock_Ok h s r s' : do_BeginBlock h s = (Ok r, s') →
  validateHeight h s = Ok () ∧ ∃ d g, let d0 := with_header h (default (cms s) (deliver s)) in
    blocker_step beginBlocker d0 d ∧
    s' = mkServer (cms s) (version s) (initialVersion s) (initialHeight s) (Some d) (check s) g.
Proof.
  intros H. unfold BeginBlock in H. apply Mbind_Ok in H as (v & ? & [-> ->]%gets_Ok & H).
  apply Mbind_Ok in H as ([] & ? & [Hv%(proj1 (must_Ok _ _)) ->]%lift_Ok & H). split; [done|].
  apply Mbind_Ok in H as (d & ? & [-> ->]%gets_Ok & H). apply Mbind_Ok in H as ([] & s1 & H1 & H).
  assert (s1 = set_deliver (Some (with_header h (default (cms s) (deliver s)))) s) as ->.
  { destruct (deliver s); by apply modify_Ok in H1. }
  apply Mbind_Ok in H as (d & ? & [-> ->]%gets_Ok & H). apply Mbind_Ok in H as (maxGas & ? & [_ ->]%lift_Ok & H).
  apply Mbind_Ok in H as ([] & ? & ->%modify_Ok & H).
  apply (run_blocker_Ok _ _ _ _ (with_header h (default (cms s) (deliver s)))) in H as (d' & Hb & ->); [|done].
  by eexists d', _.
Qed.

Lemma expected_next h s : initialHeight s = initialVersion s → validateHeight h s = Ok () →
  next_version s = Height h ∧ 1 <= Height h.
Proof.
  intros Hi H. unfold validateHeight in H. apply bind_Ok in H as ([] & H1%fail_if_Ok & H2%fail_if_Ok).
  apply negb_false_iff, Z.eqb_eq in H2. apply Z.ltb_ge in H1. split; [|done]. rewrite H2. unfold next_version, LastBlockHeight.
  by rewrite Hi.
Qed.


End props.

(** ** Retention *)

Section retention.
Context {St : Type} (paramStore : option ((St → ConsensusParams) * (ConsensusParams → St → St))) (opts : Options).

(** The bounds on the height below which blocks are pruned that are in force;
    the heights are those of the code's variables. *)
Definition retention_bounds (d : St) (height : Z) : list Z :=
  match GetConsensusParams paramStore d ≫= MaxAgeNumBlocks with
  | Some age => if 0 <? age then [height - age] else []
  | None => []
  end ++
  (if 0 <? KeepEvery opts then [height - height mod KeepEvery opts] else []) ++
  (if (0 <? snapshotInterval opts) && (0 <? snapshotKeepRecent opts)
   then [height - snapshotInterval opts * snapshotKeepRecent opts] else []) ++
  [height - minRetainBlocks opts].

(** A running minimum that is zero before the first bound. *)
Definition lowest (x : Z) (l : list Z) : Prop := (l = [] ∧ x = 0) ∨ (x ≠ 0 ∧ ∀ b, b ∈ l → x <= b).

Lemma lowest_step x l v : lowest x l → v ≠ 0 → lowest (minNonZero x v) (l ++ [v]).
Proof.
  intros H Hv. right. unfold minNonZero. destruct H as [[-> ->]|[Hx Hl]].
  - split; [done|]. by intros b ->%list_elem_of_singleton.
  - destruct (Z.eqb_spec x 0), (Z.eqb_spec v 0); try done. split; [by case_match|].
    intros b [Hb%Hl| ->%list_elem_of_singleton]%elem_of_app; destruct (Z.ltb_spec x v); lia.
Qed.

Lemma lowest_opt (c : bool) x l v : lowest x l → (c = true → v ≠ 0) →
  lowest (if c then minNonZero x v else x) (l ++ if c then [v] else []).
Proof. intros H Hv. destruct c; [by apply lowest_step, Hv|by rewrite app_nil_r]. Qed.

(** Pruning respects every retention rule.  Blocks are reported as prunable
    below a height that is zero or, under each rule in force (the evidence age,
    the heights at which state is persisted, the snapshots to serve, the
    minimum of the node), at most the height that rule allows; unless one of
    these heights is exactly zero. *)
Theorem retention_respects_rules (d : St) (height : Z) :
  0 < height < 2 ^ 63 → 0 < minRetainBlocks opts < 2 ^ 63 → 0 <= KeepEvery opts < 2 ^ 63 →
  0 <= snapshotInterval opts → 0 <= snapshotKeepRecent opts →
  snapshotInterval opts * snapshotKeepRecent opts < 2 ^ 63 →
  (∀ age, GetConsensusParams paramStore d ≫= MaxAgeNumBlocks = Some age → age < 2 ^ 63) →
  (∀ b, b ∈ retention_bounds d height → b = 0 → height < KeepEvery opts) →
  let r := GetBlockRetentionHeight paramStore opts d height in
  0 <= r ∧ ∀ b, b ∈ retention_bounds d height → r <= Z.max 0 b.
Proof.
  intros Hh Hm Hk Hi Hr Hp Hage Hb. cbn zeta.
  assert (∀ z, - 2 ^ 63 <= z < 2 ^ 63 → wrap64 z = z) as Hw by (intros z Hz; apply wrap64_id; unfold is_int64; lia).
  unfold GetBlockRetentionHeight, retention_bounds in *. destruct (Z.eqb_spec (minRetainBlocks opts) 0); [lia|].
  rewrite (Hw (KeepEvery opts)), (Hw (minRetainBlocks opts)), (Hw (_ * _)), (Hw (height - _ * _)), (Hw (height - minRetainBlocks opts)) by nia.
  set (age := GetConsensusParams paramStore d ≫= MaxAgeNumBlocks) in *.
  set (l0 := match age with Some a => if 0 <? a then [height - a] else [] | None => [] end) in *.
  set (r0 := match age with Some a => if 0 <? a then wrap64 (height - a) else 0 | None => 0 end).
  destruct ((0 <? KeepEvery opts) && negb (KeepEvery opts <? height)) eqn:Ek; [split; [done|lia]|].
  assert ((0 <? KeepEvery opts) = true → KeepEvery opts < height) as Hlt.
  { intros E. rewrite E in Ek. by apply negb_false_iff, Z.ltb_lt in Ek. }
  rewrite !app_assoc in *. set (bounds := _ ++ [height - minRetainBlocks opts]) in *.
  assert (∀ b, b ∈ bounds → b ≠ 0) as Hnz.
  { intros b Hin E. specialize (Hb b Hin E). destruct (Z.ltb_spec 0 (KeepEvery opts)); [specialize (Hlt eq_refl)|]; lia. }
  assert (lowest r0 l0) as H0.
  { unfold r0, l0 in *. destruct age as [a|]; [|by left]. destruct (Z.ltb_spec 0 a); [right|by left].
    rewrite Hw by (specialize (Hage a eq_refl); lia). split; [apply Hnz; set_solver|by intros b ->%list_elem_of_singleton]. }
  assert (∀ x, lowest x bounds →
    0 <= (if x <=? 0 then 0 else x) ∧ ∀ b, b ∈ bounds → (if x <=? 0 then 0 else x) <= Z.max 0 b) as Hend.
  { intros x Hx. destruct (Z.leb_spec x 0); (split; [lia|]); [lia|]. intros b Hin.
    destruct Hx as [[-> _]|[_ Hx]]; [by apply not_elem_of_nil in Hin|]. specialize (Hx b Hin). lia. }
  apply Hend, lowest_step; [|apply Hnz; set_solver]. apply lowest_opt; [|intros E; apply Hnz; unfold bounds; rewrite E; set_solver].
  assert (∀ v, v = height - height mod KeepEvery opts → ((0 <? KeepEvery opts) = true → v ≠ 0) →
    lowest (if 0 <? KeepEvery opts then minNonZero r0 v else r0) (l0 ++ (if 0 <? KeepEvery opts then [height - height mod KeepEvery opts] else []))) as Hv.
  { intros v -> Hv. by apply lowest_opt. }
  destruct (Z.ltb_spec 0 (KeepEvery opts)); [|by rewrite app_nil_r].
  apply Hv; [by rewrite Z.rem_mod_nonneg by lia|]. intros _. rewrite Z.rem_mod_nonneg by lia.
  pose proof (Z.mod_pos_bound height (KeepEvery opts) ltac:(lia)). specialize (Hlt eq_refl). lia.
Qed.

End retention.

(** A retention rule whose height is zero is lost.  With an evidence age of
    100 blocks, at height 100 the blocks below 90 are reported as prunable,
    although none may go: the minimum takes a zero for a rule that is not
    set. *)
Theorem retention_forgets_zero :
  let params := Some (λ _ : unit, mkConsensusParams None (Some 100), λ (_ : ConsensusParams) (d : unit), d) in
  let opts := mkOptions 10 0 0 0 0 0 in
  GetBlockRetentionHeight params opts tt 99 = 0 ∧
  GetBlockRetentionHeight params opts tt 100 = 90 ∧
  GetBlockRetentionHeight params opts tt 101 = 1.
Proof. done. Qed.

(** ** An instance: a log of the messages delivered *)

Definition toy_St : Type := Header * list string.
Definition toy_header (h : Header) (st : toy_St) : toy_St := (h, st.2).
Definition toy_handler (m : string) : option (M toy_St ()) :=
  if String.eqb m "bad" then None else Some (modify (λ st, (st.1, st.2 ++ [m]))).
Definition toy_opts : Options := mkOptions 10 0 0 0 0 0.
Definition toy_server : Server toy_St :=
  mkServer (mkHeader 0 0, []) 0 0 0 None (Some (mkHeader 0 0, [])) NewInfiniteGasMeter.
Definition toy_block : Header → list string → M (Server toy_St) (list (outcome (list ()))) :=
  run_block (BlockResp := ()) toy_header fst None None None toy_opts (λ b, Ok b) (λ b, [b]) (λ _, Ok ()) None toy_handler (λ _ _ _, 0).
Definition toy_calls : list (Call (Val := ())) :=
  [CheckTxCall false "a"; BeginBlockCall (mkHeader 1 5); SimulateCall "bad"; DeliverTxCall "a"; DeliverTxCall "bad";
   CheckTxCall true "b"; EndBlockCall; CommitCall].



Lemma retention_respects_rules_witness :
  let params := Some (λ _ : unit, mkConsensusParams None (Some 100), λ (_ : ConsensusParams) (d : unit), d) in
  GetBlockRetentionHeight params (mkOptions 10 50 20 3 0 0) tt 120 = 20 ∧
  ∀ b, b ∈ [20; 100; 60; 110] → GetBlockRetentionHeight params (mkOptions 10 50 20 3 0 0) tt 120 <= Z.max 0 b.
Proof.
  split; [vm_compute; reflexivity|].
  refine (proj2 (retention_respects_rules (Some (λ _ : unit, mkConsensusParams None (Some 100), λ (_ : ConsensusParams) (d : unit), d))
    (mkOptions 10 50 20 3 0 0) tt 120 _ _ _ _ _ _ _ _)); try (cbn; lia).
  - intros age [= <-]. lia.
  - intros b Hb ->. change (0 ∈ [20; 100; 60; 110]) in Hb. by repeat (apply elem_of_cons in Hb as [?|Hb]; [done|]); apply not_elem_of_nil in Hb.
Defined.

End ABCIProps.
