(* ===== verification/RewardProps.v ===== *)
(** * Properties of x/reward

    Solvency of the stable coin over every sequence of transactions, the
    bookkeeping of issuing and burning, energy accounting, and the list of
    issued nodes. *)

From Stdlib Require Import ZArith Lia Ascii String.
From stdpp Require Import base tactics option list gmap sorting relations strings.
From S2P Require Import Prelude GoStd Digits SdkInt Decimal Coin CoinFacts CoinProps DecCoin.
From S2P Require Import Chain Bank BankFacts Keepers BankInst Wire Proto Store Address.
From S2P Require Import Gas BaseApp Reward RewardFacts.

Local Open Scope Z_scope.
Import Store Reward.

(** ** Invariants of single messages *)

Definition is_remove (m : Msg) : bool :=
  match m with MsgRemoveCollateral _ _ => true | _ => false end.

Section inv.
Context {B : Type} `{BankLaws B}.
Context (DecodeAndConvert : string → option (string * string)) (accPrefix : string).
Context (denoms : Denoms.registry).
Implicit Types (s : State B).

(** At most 1,000,000 aeil are recorded per REC held. *)
Definition solvent s : Prop :=
  bk_ok (r_bank s) ∧
  ∃ z, supply_is (r_kv s) z ∧ 0 <= z <= collateral (r_kv s) * 1000000.

Lemma frame_solvent s s' : frame s s' → solvent s → solvent s'.
Proof.
  intros (Hk & Hc & Hok & _) (Hb & z & Hz & Hle). split; [auto|]. exists z.
  split; [|lia]. unfold supply_is in *. by rewrite Hk.
Qed.

Lemma msg_Burn_Ok target amount s rs ms s' :
  msg_BurnStableCoin DecodeAndConvert accPrefix denoms target amount s = (Ok (rs, ms), s') →
  ∃ s1, BurnStableCoin DecodeAndConvert accPrefix denoms target amount s = (Ok (rs, ms), s1) ∧
    frame s1 s'.
Proof.
  intros ([rs1 ms1] & s1 & Hr & Hf)%Mbind_Ok. cbn [fst snd] in Hf.
  apply Mbind_Ok in Hf as (? & s2 & H1 & Hf). apply Mbind_Ok in Hf as (? & s3 & H2 & Hf).
  apply Mbind_Ok in Hf as (? & s4 & H3 & [[= -> ->] ->]%mret_Ok). exists s1. split; [done|].
  apply framed_emit in H1.
  apply framed_for_each in H2; [|intros; apply framed_emit].
  apply framed_for_each in H3; [|intros; apply framed_emit]. eauto using frame_trans.
Qed.

Lemma handle_solvent m s r s' : is_remove m = false → solvent s →
  handle DecodeAndConvert accPrefix denoms m s = (Ok r, s') → solvent s'.
Proof.
  intros Hm Hs Hr. pose proof Hs as (Hb & z & Hz & Hle).
  destruct m; try done; cbn [handle] in Hr;
    apply Mbind_Ok in Hr as (a & s1 & Hr & [_ ->]%mret_Ok).
  - apply (RewardSolarPower_Ok _ _ _ _ _ z) in Hr
      as (amt & ta & ma & _ & Ha & _ & _ & Hv & Hc & Hkv & Hok & _); [|done|done].
    split; [done|]. exists (z + amt). rewrite Hkv. split; [by apply supply_is_set|].
    rewrite collateral_set_supply. lia.
  - destruct a as [rs ms]. apply msg_Burn_Ok in Hr as (s2 & Hr & Hf).
    apply (frame_solvent s2); [done|].
    apply (BurnStableCoin_Ok _ _ _ _ _ _ z) in Hr
      as (c & ad & ma & _ & _ & _ & Ha & Hn & _ & _ & Hv & Hkv & Hok & _); [|done|lia|done].
    split; [done|]. exists (Z.max 0 (z - Amount c)). rewrite Hkv.
    split; [by apply supply_is_set|]. rewrite collateral_set_supply.
    set (n := Amount c / 1000000) in *. assert (0 <= n) by (apply Z.div_pos; lia).
    destruct (collateral_returned (Z.to_nat n) (r_kv s)) as [_ ->]; [lia|].
    rewrite Z2Nat.id by lia. pose proof (Z.mul_div_le (Amount c) 1000000 ltac:(lia)). lia.
  - apply framed_DepositCollateral in Hr. by apply (frame_solvent s).
  - apply (BurnModuleStableCoins_Ok _ z) in Hr as (ma & _ & [[_ ->]|(Hh & Hv & Hok & Hkv & _)]);
      [done| |done|lia|done].
    split; [done|]. eexists. rewrite Hkv. split; [by apply supply_is_set|].
    rewrite collateral_set_supply. lia.
  - apply framed_msg_AddEnergy in Hr. by apply (frame_solvent s).
  - apply framed_msg_CreateRECRecord in Hr. by apply (frame_solvent s).
  - apply framed_msg_AppendTxHash in Hr. by apply (frame_solvent s).
  - apply DistributeRewardPercent_Ok in Hr as (? & ? & _ & _ & _ & Hkv & Hok & _); [|done].
    split; [done|]. exists z. by rewrite Hkv.
Qed.

(** The recorded total is the aeil in circulation. *)
Definition tracked s : Prop :=
  bk_ok (r_bank s) ∧
  ∃ z, supply_is (r_kv s) z ∧ 0 <= z <= collateral (r_kv s) * 1000000 ∧
       bk_sup (r_bank s) "aeil" = z.

(** Messages that burn aeil and nothing else, and remove no collateral. *)
Definition burns_aeil (m : Msg) : Prop :=
  match m with
  | MsgBurnStableCoin _ _ amount =>
      ∀ coin, Parse.ParseCoinNormalized denoms
                (if Str.has_suffix amount "aeil" then amount else amount +:+ "aeil") = Ok coin →
              Denom coin = "aeil"
  | MsgRemoveCollateral _ _ | MsgBurnModuleStable _ _ => False
  | _ => True
  end.

Lemma frame_tracked s s' : frame s s' → tracked s → tracked s'.
Proof.
  intros (Hk & Hc & Hok & _ & Hsup) (Hb & z & Hz & Hle & <-). split; [auto|].
  exists (bk_sup (r_bank s) "aeil"). split_and!; [|lia|lia|done].
  unfold supply_is in *. by rewrite Hk.
Qed.

Lemma handle_tracked m s r s' : burns_aeil m → tracked s →
  handle DecodeAndConvert accPrefix denoms m s = (Ok r, s') → tracked s'.
Proof.
  intros Hm Hs Hr. pose proof Hs as (Hb & z & Hz & Hle & Hsup).
  destruct m; try done; cbn [handle] in Hr;
    apply Mbind_Ok in Hr as (a & s1 & Hr & [_ ->]%mret_Ok).
  - apply (RewardSolarPower_Ok _ _ _ _ _ z) in Hr
      as (amt & ta & ma & _ & Ha & _ & _ & Hv & Hc & Hkv & Hok & Hs' & _); [|done|done].
    split; [done|]. exists (z + amt). rewrite Hkv, Hs', Hsup. unfold coin_sum.
    split; [by apply supply_is_set|]. rewrite collateral_set_supply. cbn. lia.
  - destruct a as [rs ms]. apply msg_Burn_Ok in Hr as (s2 & Hr & Hf).
    apply (frame_tracked s2); [done|].
    apply (BurnStableCoin_Ok _ _ _ _ _ _ z) in Hr
      as (c & ad & ma & Hp & _ & _ & Ha & Hn & _ & _ & Hv & Hkv & Hok & Hs' & _); [|done|lia|done].
    destruct (Hs' "aeil") as [Hs1 Hs2]. rewrite (Hm c Hp) in Hs1, Hs2. unfold coin_sum in Hs1, Hs2.
    cbn in Hs1, Hs2. split; [done|]. exists (Z.max 0 (z - Amount c)). rewrite Hkv.
    split; [by apply supply_is_set|]. rewrite collateral_set_supply.
    set (n := Amount c / 1000000) in *. assert (0 <= n) by (apply Z.div_pos; lia).
    destruct (collateral_returned (Z.to_nat n) (r_kv s)) as [_ ->]; [lia|].
    rewrite Z2Nat.id by lia. pose proof (Z.mul_div_le (Amount c) 1000000 ltac:(lia)). lia.
  - apply framed_DepositCollateral in Hr. by apply (frame_tracked s).
  - apply framed_msg_AddEnergy in Hr. by apply (frame_tracked s).
  - apply framed_msg_CreateRECRecord in Hr. by apply (frame_tracked s).
  - apply framed_msg_AppendTxHash in Hr. by apply (frame_tracked s).
  - apply DistributeRewardPercent_Ok in Hr as (? & ? & _ & _ & _ & Hkv & Hok & Hs' & _); [|done].
    split; [done|]. exists z. by rewrite Hkv, Hs'.
Qed.

(** What the queries show of a recorded total. *)
Lemma queries_of s z : supply_is (r_kv s) z →
  (sup ← GetSupply; lift (minted_of sup)) s = (Ok z, s) ∧
  GetTotalCollateral s = (Ok (collateral (r_kv s)), s).
Proof.
  intros Hz. split.
  - rewrite (Mbind_run _ _ s _ s (GetSupply_run s z Hz)).
    by rewrite minted_of_run by (by eapply supply_is_valid).
  - unfold GetTotalCollateral, PrefixIterator. rewrite !gets_bind. unfold collateral.
    by rewrite !prefix_iter_length.
Qed.
End inv.

(** ** Solvency over all transactions *)

Section chain.
Context {B : Type} `{BankLaws B}.
Context (DecodeAndConvert : string → option (string * string)) (accPrefix : string).
Context (denoms : Denoms.registry).
Context {Tx : Type} (txDecoder : string → outcome Tx) (GetMsgs : Tx → list Msg).
Context (anteHandler : option (BaseApp.TxContext → Tx → bool → M (State B) ())).
Context (txGas : BaseApp.runTxMode → string → BaseApp.App (State B) → Z).

(** One delivered transaction of the application. *)
Definition tx_step : State B → State B → Prop :=
  BaseApp.deliver_step txDecoder GetMsgs (ValidateBasic DecodeAndConvert accPrefix) anteHandler
    (λ m, Some (handle DecodeAndConvert accPrefix denoms m)) txGas.

(** What is asked of the ante handler: it leaves the module's store and the
    supply of aeil alone. *)
Definition ante_neutral : Prop :=
  ∀ ante ctx tx sim s s', anteHandler = Some ante → ante ctx tx sim s = (Ok (), s') →
    r_kv s' = r_kv s ∧ (bk_ok (r_bank s) → bk_ok (r_bank s')) ∧
    bk_sup (r_bank s') "aeil" = bk_sup (r_bank s) "aeil".

(** Solvency.  From an empty module store, after any transactions none of
    which carries a [MsgRemoveCollateral], whether they succeed, fail or
    panic, the recorded issue of aeil is a non-negative integer not above
    1,000,000 times the number of RECs held as collateral.  The invariant is
    carried through issuing, burning (which hands RECs back), deposits, energy
    reports, REC creation, list updates and payouts. *)
Theorem stable_coin_solvent (s0 s : State B) :
  ante_neutral → (∀ tx, Forall (λ m, is_remove m = false) (GetMsgs tx)) →
  bk_ok (r_bank s0) → r_kv s0 = ∅ → rtc tx_step s0 s →
  ∃ minted recs,
    (sup ← GetSupply; lift (minted_of sup)) s = (Ok minted, s) ∧
    GetTotalCollateral s = (Ok recs, s) ∧ 0 <= minted <= recs * 1000000.
Proof.
  intros Hante Hmsgs Hb Hkv Hsteps.
  assert (solvent s) as (_ & z & Hz & Hle).
  { refine (BaseApp.deliver_steps_keep _ _ _ _ _ _ (λ m, is_remove m = false) _ _ _ Hmsgs _ _ Hsteps _).
    - unfold BaseApp.ante_keeps. destruct anteHandler as [ante|] eqn:E; [|done].
      intros ctx tx sim st st' (Hok & z & Hz & Hle) Ha.
      destruct (Hante ante ctx tx sim st st' E Ha) as (Hk & Hok' & _).
      split; [auto|]. exists z. by rewrite Hk.
    - intros m h st r st' Hm [= <-] _ Hs Hr. by eapply handle_solvent.
    - split; [done|]. exists 0. rewrite Hkv. split; [by left|]. unfold collateral. lia. }
  destruct (queries_of s z Hz) as [H1 H2]. eauto.
Qed.

(** The books agree.  If moreover every burn is of aeil, no coins are
    burned from the module account by liquidation and no aeil exists at the
    start, then after any transactions the recorded issue equals the bank's
    total supply of aeil; so the aeil in circulation is itself backed by the
    RECs held. *)
Theorem stable_coin_backed (s0 s : State B) :
  ante_neutral → (∀ tx, Forall (burns_aeil denoms) (GetMsgs tx)) →
  bk_ok (r_bank s0) → r_kv s0 = ∅ → bk_sup (r_bank s0) "aeil" = 0 → rtc tx_step s0 s →
  (sup ← GetSupply; lift (minted_of sup)) s = (Ok (bk_sup (r_bank s) "aeil"), s) ∧
  ∃ recs, GetTotalCollateral s = (Ok recs, s) ∧
    0 <= bk_sup (r_bank s) "aeil" <= recs * 1000000.
Proof.
  intros Hante Hmsgs Hb Hkv Hsup Hsteps.
  assert (tracked s) as (_ & z & Hz & Hle & <-).
  { refine (BaseApp.deliver_steps_keep _ _ _ _ _ _ (burns_aeil denoms) _ _ _ Hmsgs _ _ Hsteps _).
    - unfold BaseApp.ante_keeps. destruct anteHandler as [ante|] eqn:E; [|done].
      intros ctx tx sim st st' (Hok & z & Hz & Hle & Hs) Ha.
      destruct (Hante ante ctx tx sim st st' E Ha) as (Hk & Hok' & Hs').
      split; [auto|]. exists z. by rewrite Hk, Hs'.
    - intros m h st r st' Hm [= <-] _ Hs Hr. by eapply handle_tracked.
    - split; [done|]. exists 0. rewrite Hkv. split_and!; [by left|lia| |done].
      unfold collateral. lia. }
  destruct (queries_of s _ Hz) as [H1 H2]. eauto.
Qed.
End chain.

(** ** An application to run *)

Definition app_config : Config :=
  mkConfig (<["reward" := ("rewardaddr", [Minter; Burner])]> ∅) ∅.
#[local] Instance app_keeper : BankKeeper Chain := Bank_keeper app_config id.
#[local] Instance app_laws : BankLaws Chain := Bank_laws app_config id.

(** A decoder that takes the text for the bytes. *)
Definition plain_bech32 (a : string) : option (string * string) := Some ("cosmos", a).

Definition demo_meta_msg (id : string) : Msg :=
  MsgDepositCollateral "alice" (Some (RecMeta (RECMeta_set_CertifiedId id RECMeta_empty))).

Inductive demo_tx := TxDeposit | TxReward.
Definition demo_decoder (b : string) : outcome demo_tx :=
  if String.eqb b "deposit" then Ok TxDeposit
  else if String.eqb b "reward" then Ok TxReward else Err "tx parse error".
Definition demo_msgs (tx : demo_tx) : list Msg :=
  match tx with
  | TxDeposit => [demo_meta_msg "CERT-1"; demo_meta_msg "CERT-2"]
  | TxReward => [MsgRewardSolarPower "alice" "bob" "1500000"]
  end.

Definition empty_chain : Chain := mkChain ∅ None ∅ ∅ 7 0 [].
Lemma empty_chain_ok : chain_ok empty_chain.
Proof. split; intros ? ?; rewrite ?lookup_empty; done. Qed.

Definition demo_run (b : string) :
    M (BaseApp.App (State Chain)) (list Response) :=
  BaseApp.runTx demo_decoder demo_msgs (ValidateBasic plain_bech32 "cosmos") None
    (λ m, Some (handle plain_bech32 "cosmos" Denoms.empty_registry m))
    (λ _ _ _, 0) BaseApp.runTxModeDeliver b.

Definition demo_app0 : BaseApp.App (State Chain) :=
  BaseApp.mkApp (mkState empty_chain ∅) (mkState empty_chain ∅) Gas.NewInfiniteGasMeter.
Definition demo_app1 := snd (demo_run "deposit" demo_app0).
Definition demo_app2 := snd (demo_run "reward" demo_app1).

Lemma demo_steps :
  rtc (tx_step plain_bech32 "cosmos" Denoms.empty_registry demo_decoder demo_msgs None (λ _ _ _, 0))
    (BaseApp.deliverState demo_app0) (BaseApp.deliverState demo_app2).
Proof.
  eapply rtc_l; [apply (BaseApp.deliver_tx _ _ _ _ _ _ "deposit" demo_app0)|].
  eapply rtc_l; [apply (BaseApp.deliver_tx _ _ _ _ _ _ "reward" demo_app1)|]. apply rtc_refl.
Qed.

Lemma demo_ante : ante_neutral (B := Chain) (Tx := demo_tx) None.
Proof. by intros ante ctx tx sim s s' [=]. Qed.

Lemma stable_coin_solvent_witness :
  fst (demo_run "reward" demo_app1) = Ok [RewardSolarPowerResponse] ∧
  ∃ minted recs,
    (sup ← GetSupply; lift (minted_of sup)) (BaseApp.deliverState demo_app2) =
      (Ok minted, BaseApp.deliverState demo_app2) ∧
    GetTotalCollateral (BaseApp.deliverState demo_app2) =
      (Ok recs, BaseApp.deliverState demo_app2) ∧ 0 <= minted <= recs * 1000000.
Proof.
  split; [vm_compute; reflexivity|].
  refine (stable_coin_solvent plain_bech32 "cosmos" Denoms.empty_registry demo_decoder demo_msgs
    None (λ _ _ _, 0) (BaseApp.deliverState demo_app0) (BaseApp.deliverState demo_app2)
    demo_ante _ empty_chain_ok eq_refl demo_steps).
  intros [|]; repeat constructor.
Defined.

Lemma stable_coin_backed_witness :
  bk_sup (r_bank (BaseApp.deliverState demo_app2)) "aeil" = 1500000 ∧
  ∃ recs, GetTotalCollateral (BaseApp.deliverState demo_app2) =
            (Ok recs, BaseApp.deliverState demo_app2) ∧
    0 <= bk_sup (r_bank (BaseApp.deliverState demo_app2)) "aeil" <= recs * 1000000.
Proof.
  split; [vm_compute; reflexivity|].
  refine (proj2 (stable_coin_backed plain_bech32 "cosmos" Denoms.empty_registry demo_decoder demo_msgs
    None (λ _ _ _, 0) (BaseApp.deliverState demo_app0) (BaseApp.deliverState demo_app2)
    demo_ante _ empty_chain_ok eq_refl _ demo_steps)).
  - intros [|]; repeat constructor.
  - vm_compute; reflexivity.
Defined.
