(* ===== verification/RewardOps.v ===== *)
(** * The operations of x/reward, one by one *)

From Stdlib Require Import ZArith Lia Ascii String.
From stdpp Require Import base tactics option list gmap sorting strings.
From S2P Require Import Prelude GoStd Digits SdkInt Decimal Coin CoinFacts CoinProps DecCoin.
From S2P Require Import Chain Bank BankFacts Keepers BankInst Wire Proto Store Address.
From S2P Require Import Gas BaseApp Reward RewardFacts RewardProps.

Local Open Scope Z_scope.
Import Store Reward.

Section ops.
Context {B : Type} `{BankLaws B}.
Context (DecodeAndConvert : string → option (string * string)) (accPrefix : string).
Context (denoms : Denoms.registry).
Implicit Types (s : State B).

(** ** Issuing and burning *)

Lemma RewardSolarPower_rejects to amount s z amt : supply_is (r_kv s) z →
  Int.NewIntFromString amount = Some amt → collateral (r_kv s) * 1000000 < z + amt →
  ∃ o, is_ok o = false ∧ RewardSolarPower DecodeAndConvert accPrefix to amount s = (o, s).
Proof.
  intros Hs Hp Hover. unfold RewardSolarPower. rewrite Hp. cbn [or_err].
  rewrite lift_bind. unfold Int.Quo. cbn [Z.sgn Int.NewInt Z.eqb Pos.eqb]. rewrite lift_bind.
  rewrite Z.quot_1_r. unfold GetTotalCollateral, PrefixIterator.
  rewrite (Mbind_run _ _ s (collateral (r_kv s)) s).
  2:{ rewrite !gets_bind. unfold collateral, Int.NewInt. by rewrite !prefix_iter_length. }
  rewrite (Mbind_run _ _ s _ s (GetSupply_run s z Hs)).
  rewrite minted_of_run, lift_bind by (by eapply supply_is_valid).
  destruct (Int.Add z amt) as [t|e|e] eqn:Ea; [|eexists; split; [|reflexivity]; reflexivity..].
  apply Int.Add_Ok in Ea as [-> _]. rewrite lift_bind. change (Int.NewInt 1000000) with 1000000.
  destruct (Int.Mul (collateral (r_kv s)) 1000000) as [v|e|e] eqn:Em;
    [|eexists; split; [|reflexivity]; reflexivity..].
  rewrite lift_bind. assert (v = collateral (r_kv s) * 1000000) as ->.
  { unfold Int.Mul in Em. repeat case_match; try done. by injection Em as <-. }
  unfold Int.GT. rewrite (proj2 (Z.ltb_lt _ _)) by lia. eexists; split; [|reflexivity]; reflexivity.
Qed.

(** C9: issuing.  A successful [RewardSolarPower] of [amt] Wh mints exactly
    [amt] aeil: the recipient gets nine tenths rounded up, the module account
    keeps one tenth rounded down, no other balance and no other denomination
    changes, the recorded total grows by [amt], the collateral and the rest of
    the store stay, and the new total is covered by the collateral.  An amount
    the collateral does not cover is refused with the state unchanged. *)
Theorem RewardSolarPower_correct (to amount : string) (s : State B) (z : Z) :
  supply_is (r_kv s) z → bk_ok (r_bank s) →
  (∀ u s', RewardSolarPower DecodeAndConvert accPrefix to amount s = (Ok u, s') →
     ∃ amt toAddr ma,
       Int.NewIntFromString amount = Some amt ∧ 0 <= amt ∧
       AccAddressFromBech32 DecodeAndConvert accPrefix to = Ok toAddr ∧
       bk_GetModuleAddress ModuleName = Some ma ∧
       z + amt <= collateral (r_kv s) * 1000000 ∧
       supply_is (r_kv s') (z + amt) ∧ collateral (r_kv s') = collateral (r_kv s) ∧
       (∀ k, k ≠ SupplyKey → r_kv s' !! k = r_kv s !! k) ∧
       bk_ok (r_bank s') ∧
       (∀ d, bk_sup (r_bank s') d = bk_sup (r_bank s) d + if String.eqb d "aeil" then amt else 0) ∧
       (∀ x d, bk_bal (r_bank s') x d = bk_bal (r_bank s) x d +
          if String.eqb d "aeil" then
            (if String.eqb x toAddr then amt - amt / 10 else 0) +
            (if String.eqb x ma then amt / 10 else 0)
          else 0)) ∧
  (∀ amt, Int.NewIntFromString amount = Some amt → collateral (r_kv s) * 1000000 < z + amt →
     ∃ o, is_ok o = false ∧ RewardSolarPower DecodeAndConvert accPrefix to amount s = (o, s)).
Proof.
  intros Hs Hb. split; [|intros; by eapply RewardSolarPower_rejects].
  intros u s' Hr. apply (RewardSolarPower_Ok _ _ _ _ _ z) in Hr
    as (amt & ta & ma & Hp & Ha & Hto & Hma & Hv & Hc & Hkv & Hok & Hsup & Hbal); [|done|done].
  exists amt, ta, ma. rewrite Hkv. split_and!; try done.
  - by apply supply_is_set.
  - apply collateral_set_supply.
  - intros k Hk. by rewrite lookup_insert_ne.
  - intros d. rewrite Hsup. unfold coin_sum. by rewrite String.eqb_sym.
  - intros x d. rewrite Hbal. unfold gets_coins, coin_sum. rewrite (String.eqb_sym "aeil" d).
    destruct (String.eqb d "aeil"), (String.eqb x ma), (String.eqb x ta); lia.
Qed.

(** C10: burning.  A successful [BurnStableCoin] takes the parsed coin from the
    target account and from the bank's supply, hands back one REC per full
    1,000,000 (internal records first, then external ones, each in key order)
    and deletes exactly those entries, lowers the recorded total by the amount
    but not below zero, and changes nothing else in the store.  It cannot
    succeed with fewer RECs than it owes. *)
Theorem BurnStableCoin_correct (target amount : string) (s s' : State B) (z : Z)
    (rs : list RECRecord) (ms : list RECMeta) :
  supply_is (r_kv s) z → 0 <= z → bk_ok (r_bank s) →
  BurnStableCoin DecodeAndConvert accPrefix denoms target amount s = (Ok (rs, ms), s') →
  ∃ coin addr,
    Parse.ParseCoinNormalized denoms
      (if Str.has_suffix amount "aeil" then amount else amount +:+ "aeil") = Ok coin ∧
    AccAddressFromBech32 DecodeAndConvert accPrefix target = Ok addr ∧
    let n := Z.to_nat (Amount coin / 1000000) in
    let recs := KVStorePrefixIterator (r_kv s) "rec_record/" in
    let metas := KVStorePrefixIterator (r_kv s) "rec_meta/" in
    let gone := (take n recs).*1 ++ (take (n - length recs) metas).*1 in
    length gone = n ∧ NoDup gone ∧
    rs = decoded RECRecord_Unmarshal (take n recs) ∧
    ms = decoded RECMeta_Unmarshal (take (n - length recs) metas) ∧
    collateral (r_kv s') = collateral (r_kv s) - Amount coin / 1000000 ∧
    supply_is (r_kv s') (Z.max 0 (z - Amount coin)) ∧
    (∀ k, k ≠ SupplyKey → r_kv s' !! k = if decide (k ∈ gone) then None else r_kv s !! k) ∧
    bk_ok (r_bank s') ∧
    (∀ d, bk_sup (r_bank s') d =
            bk_sup (r_bank s) d - if String.eqb d (Denom coin) then Amount coin else 0) ∧
    (∀ x d, bk_bal (r_bank s') x d = bk_bal (r_bank s) x d -
       if String.eqb x addr && String.eqb d (Denom coin) then Amount coin else 0).
Proof.
  intros Hs Hz Hb Hr. apply (BurnStableCoin_Ok _ _ _ _ _ _ z) in Hr
    as (c & ad & ma & Hp & Had & _ & Ha & Hn & -> & -> & Hv & Hkv & Hok & Hsup & Hbal);
    [|done|done|done].
  exists c, ad. split; [done|]. split; [done|]. cbv zeta. rewrite prefix_iter_length.
  set (n := Z.to_nat (Amount c / 1000000)) in *.
  assert (0 <= Amount c / 1000000) by (apply Z.div_pos; lia).
  destruct (collateral_returned n (r_kv s)) as [Hlen Hcol]; [lia|].
  split; [exact Hlen|]. split; [apply (returned_keys_NoDup n)|]. split; [done|]. split; [done|].
  rewrite Hkv. split; [rewrite collateral_set_supply, Hcol; lia|].
  split; [by apply supply_is_set|].
  split; [intros k Hk; rewrite lookup_insert_ne by done; apply lookup_delete_all|].
  split; [done|]. split.
  - intros d. destruct (Hsup d) as [-> _]. unfold coin_sum. by rewrite String.eqb_sym.
  - intros x d. rewrite Hbal. unfold gets_coins, coin_sum. rewrite (String.eqb_sym (Denom c) d).
    by destruct (String.eqb x ad).
Qed.

(** Distribution.  A successful [DistributeRewardPercent] moves exactly
    10000 aeil from the module account to the recipient, touches no other
    balance, no supply and no entry of the store, and needs 10000 aeil in the
    module account; the percentage that the message carries, and that
    [ValidateBasic] bounds, has no influence. *)
Theorem DistributeRewardPercent_fixed (creator address percent : string) (s : State B) :
  bk_ok (r_bank s) →
  (∀ percent', handle DecodeAndConvert accPrefix denoms
                 (MsgDistributeRewardPercent creator address percent') s =
               handle DecodeAndConvert accPrefix denoms
                 (MsgDistributeRewardPercent creator address percent) s) ∧
  (∀ u s', DistributeRewardPercent DecodeAndConvert accPrefix creator address percent s = (Ok u, s') →
     ∃ ma addr, bk_GetModuleAddress ModuleName = Some ma ∧
       AccAddressFromBech32 DecodeAndConvert accPrefix address = Ok addr ∧
       10000 <= bk_bal (r_bank s) ma "aeil" ∧ r_kv s' = r_kv s ∧ bk_ok (r_bank s') ∧
       (∀ d, bk_sup (r_bank s') d = bk_sup (r_bank s) d) ∧
       (∀ x d, bk_bal (r_bank s') x d = bk_bal (r_bank s) x d +
          if String.eqb d "aeil" then
            (if String.eqb x addr then 10000 else 0) - (if String.eqb x ma then 10000 else 0)
          else 0)).
Proof.
  intros Hb. split; [done|]. intros u s' Hr.
  apply DistributeRewardPercent_Ok in Hr as (ma & ad & Hma & Had & Hge & Hkv & Hok & Hsup & Hbal);
    [|done].
  exists ma, ad. split_and!; try done. intros x d. rewrite Hbal. unfold gets_coins, coin_sum.
  rewrite (String.eqb_sym "aeil" d).
  destruct (String.eqb d "aeil"), (String.eqb x ma), (String.eqb x ad); lia.
Qed.
End ops.

(** ** States to run the operations on *)

#[local] Existing Instance app_keeper.
#[local] Existing Instance app_laws.

Definition rich_chain : Chain :=
  mkChain (<["alice" := mkAccount "alice" 1 None None None 0]> ∅) (Some 2)
    (<[("alice", "aeil") := 2600000]> ∅) (<["aeil" := 2600000]> ∅) 7 0 [].
Lemma rich_chain_ok : chain_ok rich_chain.
Proof.
  split; simpl; intros k z; rewrite lookup_insert_Some; (intros [[? <-]|[_ H]]; [|done]).
  - split; [lia|done].
  - split; [lia|done].
  - by subst.
Qed.

Definition three_recs : gmap string value :=
  <[meta_key "A" := VBytes ""]> (<[meta_key "B" := VBytes ""]>
    (<[rec_key "rec-1-0" := VBytes ""]> (<[SupplyKey := VBytes (supply_bytes 2600000)]> ∅))).
Definition rich_state : State Chain := mkState rich_chain three_recs.
Lemma rich_bank_ok : bk_ok (r_bank rich_state).
Proof. exact rich_chain_ok. Qed.

Lemma rich_supply : supply_is (r_kv rich_state) 2600000.
Proof. right. split; [vm_compute; reflexivity|vm_compute; reflexivity]. Qed.

Definition reward_demo := RewardSolarPower plain_bech32 "cosmos" "bob" "400000".

Lemma RewardSolarPower_correct_witness :
  supply_is (r_kv (snd (reward_demo rich_state))) 3000000 ∧
  ∃ o, is_ok o = false ∧
    RewardSolarPower plain_bech32 "cosmos" "bob" "400001" rich_state = (o, rich_state).
Proof.
  split.
  - destruct (proj1 (RewardSolarPower_correct plain_bech32 "cosmos" "bob" "400000" rich_state 2600000
      rich_supply rich_bank_ok) ()
      (snd (reward_demo rich_state))
      (run_ok reward_demo rich_state () ltac:(vm_compute; reflexivity)))
      as (amt & ta & ma & Hp & _ & _ & _ & _ & Hs & _).
    assert (amt = 400000) as -> by (vm_compute in Hp; congruence). exact Hs.
  - refine (proj2 (RewardSolarPower_correct plain_bech32 "cosmos" "bob" "400001" rich_state 2600000
      rich_supply rich_bank_ok) 400001 _ _); vm_compute; reflexivity.
Defined.

Definition burn_demo := BurnStableCoin plain_bech32 "cosmos" Denoms.empty_registry "alice" "2500000".

Lemma BurnStableCoin_correct_witness :
  collateral (r_kv (snd (burn_demo rich_state))) = 1 ∧
  supply_is (r_kv (snd (burn_demo rich_state))) 100000.
Proof.
  destruct (BurnStableCoin_correct plain_bech32 "cosmos" Denoms.empty_registry "alice" "2500000"
    rich_state (snd (burn_demo rich_state)) 2600000 [RECRecord_empty] [RECMeta_empty]
    rich_supply ltac:(lia) rich_bank_ok
    (run_ok burn_demo rich_state ([RECRecord_empty], [RECMeta_empty]) ltac:(vm_compute; reflexivity)))
    as (coin & ad & Hp & _ & _ & _ & _ & _ & Hc & Hs & _).
  assert (coin = mkCoin "aeil" 2500000) as -> by (vm_compute in Hp; congruence).
  split; [|exact Hs]. rewrite Hc. vm_compute. reflexivity.
Defined.

Definition funded_chain : Chain :=
  mkChain (accounts rich_chain) (Some 2) (<[("rewardaddr", "aeil") := 25000]> ∅) (<["aeil" := 25000]> ∅) 7 0 [].
Lemma funded_chain_ok : chain_ok funded_chain.
Proof.
  split; simpl; intros k z; rewrite lookup_insert_Some; (intros [[? <-]|[_ H]]; [|done]).
  - split; [lia|done].
  - split; [lia|done].
  - by subst.
Qed.
Definition funded_state : State Chain := mkState funded_chain ∅.
Lemma funded_bank_ok : bk_ok (r_bank funded_state).
Proof. exact funded_chain_ok. Qed.
Definition distribute_demo := DistributeRewardPercent plain_bech32 "cosmos" "alice" "bob" "0.5".

Lemma DistributeRewardPercent_fixed_witness :
  is_ok (fst (distribute_demo funded_state)) = true ∧
  r_kv (snd (distribute_demo funded_state)) = ∅ ∧
  bk_sup (r_bank (snd (distribute_demo funded_state))) "aeil" = bk_sup funded_chain "aeil".
Proof.
  split; [vm_compute; reflexivity|].
  destruct (proj2 (DistributeRewardPercent_fixed plain_bech32 "cosmos" Denoms.empty_registry
    "alice" "bob" "0.5" funded_state funded_bank_ok) () (snd (distribute_demo funded_state))
    (run_ok distribute_demo funded_state () ltac:(vm_compute; reflexivity)))
    as (ma & ad & _ & _ & _ & Hkv & _ & Hsup & _).
  split; [exact Hkv|exact (Hsup "aeil")].
Defined.

(** ** RemoveCollateral *)


