(* ===== verification/RewardRun.v ===== *)
(** * When issuing and burning succeed

    Over a bank that keeps the laws and the progress conditions, with a module
    account in order, [RewardSolarPower] and [BurnStableCoin] succeed exactly
    when the collateral and the balance allow it. *)

From Stdlib Require Import ZArith Lia Ascii String.
From stdpp Require Import base tactics option list gmap sorting strings.
From S2P Require Import Prelude GoStd Digits SdkInt Decimal Coin CoinFacts CoinProps DecCoin.
From S2P Require Import Chain Bank BankFacts Keepers BankInst BankRun Wire Proto Store Address.
From S2P Require Import Gas BaseApp Reward RewardFacts RewardProps RewardOps.

Local Open Scope Z_scope.
Import Store Reward.

(** ** Steps of the two operations, run forward *)

Lemma NewCoins_one_run c : reDnm (Denom c) = true → 0 <= Amount c → ∃ l, Coins.NewCoins [c] = Ok l.
Proof.
  intros Hd Ha. eexists. apply NewCoins_run; [repeat constructor|]. by constructor.
Qed.

Lemma coins_of_run denom a : reDnm denom = true → 0 <= a → ∃ l, coins_of denom a = Ok l.
Proof.
  intros Hd Ha. unfold coins_of. rewrite NewCoin_run by done. cbn [mbind outcome_bind].
  by apply NewCoins_one_run.
Qed.

Lemma fee_of_run amt : 0 <= amt → Int.valid amt → fee_of amt = Ok (amt / 10).
Proof.
  intros Ha Hv. unfold fee_of. rewrite Dec.NewDecFromInt_run.
  change (Dec.NewDecWithPrec 1 1) with (Ok 100000000000000000 : outcome Z).
  cbn [mbind outcome_bind]. unfold Dec.Mul.
  replace (amt * Dec.precisionReuse * 100000000000000000)
    with (amt * 100000000000000000 * Dec.precisionReuse) by lia.
  rewrite Dec.chop_multiple, Dec.checked_valid
    by (unfold Dec.valid, Int.valid in *; change (2 ^ 316) with (2 ^ 256 * 2 ^ 60) in *; lia).
  cbn [mbind outcome_bind]. unfold Dec.TruncateInt, Dec.chopPrecisionAndTruncate.
  rewrite Dec.precisionReuse_val, Z.quot_div_nonneg by lia.
  replace 1000000000000000000 with (10 * 100000000000000000) by done.
  rewrite Z.div_mul_cancel_r by lia. unfold Int.NewIntFromBigInt.
  rewrite (proj2 (Int.overflows_false _)); [done|]. unfold Int.valid in *.
  pose proof (Z.div_pos amt 10 Ha ltac:(lia)).
  pose proof (Z.div_le_upper_bound amt 10 amt ltac:(lia) ltac:(lia)). lia.
Qed.

Lemma bank_run {B A} (m : M B A) (s : State B) a b : m (r_bank s) = (Ok a, b) →
  bank m s = (Ok a, mkState b (r_kv s)).
Proof. intros H. unfold bank, zoom. by rewrite H. Qed.

Lemma lower_supply_run {B} amount (s : State B) z : supply_is (r_kv s) z → 0 <= z → 0 <= amount →
  Int.valid amount → ∃ s', lower_supply amount s = (Ok (), s').
Proof.
  intros Hs Hz Ha Hva. pose proof (supply_is_valid _ _ Hs) as Hv. unfold lower_supply.
  rewrite (Mbind_run _ _ s _ s (GetSupply_run s z Hs)), minted_of_run, lift_bind by done.
  assert (Int.valid (z - amount)) as Hd by (unfold Int.valid in *; lia).
  rewrite (proj2 (Int.Sub_Ok z amount (z - amount)) (conj eq_refl Hd)), lift_bind.
  rewrite SetSupply_run; [eauto|]. by destruct (Int.IsNegative (z - amount)).
Qed.

Section progress.
Context {B : Type} `{BankProgress B}.
Context (DecodeAndConvert : string → option (string * string)) (accPrefix : string).
Context (denoms : Denoms.registry).
Implicit Types (s : State B).

(** Room for [a] more of [d], everywhere it may go. *)
Definition room (b : B) (d : string) (a : Z) (addrs : list string) : Prop :=
  Int.valid (bk_sup b d + a) ∧ Forall (λ x, Int.valid (bk_bal b x d + a)) addrs.

Lemma room_bal b d a x l : bk_ok b → Int.valid (bk_bal b x d + a) →
  (∀ d', sum_of d' l = coin_sum d a d') → ∀ d', Int.valid (bk_bal b x d' + sum_of d' l).
Proof.
  intros Hb Hr Hl d'. rewrite Hl. unfold coin_sum. destruct (String.eqb_spec d d') as [<-|]; [done|].
  rewrite Z.add_0_r. by apply bk_bal_range.
Qed.
Lemma room_sup b d a l : bk_ok b → Int.valid (bk_sup b d + a) →
  (∀ d', sum_of d' l = coin_sum d a d') → ∀ d', Int.valid (bk_sup b d' + sum_of d' l).
Proof.
  intros Hb Hr Hl d'. rewrite Hl. unfold coin_sum. destruct (String.eqb_spec d d') as [<-|]; [done|].
  rewrite Z.add_0_r. by apply bk_sup_range.
Qed.
Lemma covered b d a x l : bk_ok b → a <= bk_bal b x d →
  (∀ d', sum_of d' l = coin_sum d a d') → ∀ d', sum_of d' l <= bk_bal b x d'.
Proof.
  intros Hb Hr Hl d'. rewrite Hl. unfold coin_sum. destruct (String.eqb_spec d d') as [<-|]; [done|].
  by apply bk_bal_range.
Qed.

(** The front of [RewardSolarPower], up to the bank. *)
Lemma issue_bank amt toAddr ma b l lu : bk_ok b → bk_ready ModuleName b →
  bk_GetModuleAddress ModuleName = Some ma → bk_takes toAddr → toAddr ≠ ma →
  0 <= amt → room b "aeil" amt [ma; toAddr] →
  coins_of "aeil" amt = Ok l → coins_of "aeil" (amt - amt / 10) = Ok lu →
  ∃ b1 b2, bk_MintCoins ModuleName l b = (Ok (), b1) ∧
    bk_SendCoinsFromModuleToAccount ModuleName toAddr lu b1 = (Ok (), b2).
Proof.
  intros Hb Hr Hma Ht Hne Ha [Hsup [Hrm [Hrt _]%Forall_cons]%Forall_cons]
    (_ & Hw & Hl)%coins_of_Ok (_ & Hwu & Hlu)%coins_of_Ok.
  assert (0 <= amt / 10 <= amt) as Hq
    by (split; [apply Z.div_pos; lia|apply Z.div_le_upper_bound; lia]).
  destruct (bk_mint_progress b ModuleName ma l) as (b1 & Hm1 & Hr1 & Hp1); try done;
    [by eapply room_bal|by eapply room_sup|].
  destruct (bk_mint_law _ _ _ _ _ Hb Hm1) as (ma' & Hma' & _ & Hok1 & Hbal1 & _).
  assert (ma' = ma) as -> by congruence.
  destruct (bk_send_from_progress b1 ModuleName ma toAddr lu) as (b2 & Hm2); try done.
  - eapply covered; [done| |exact Hlu]. rewrite Hbal1. unfold gets_coins. rewrite String.eqb_refl, Hl.
    unfold coin_sum. rewrite String.eqb_refl. pose proof (bk_bal_range b ma "aeil" Hb). lia.
  - eapply room_bal; [done| |exact Hlu]. rewrite Hbal1. unfold gets_coins.
    rewrite (proj2 (String.eqb_neq _ _)) by done.
    pose proof (bk_bal_range b toAddr "aeil" Hb). unfold Int.valid in *. lia.
  - eauto.
Qed.

(** C19: issuing succeeds whenever it should.  With a module account that may
    mint, a recipient that may be paid and amounts that stay in range,
    [RewardSolarPower] of a non-negative amount succeeds exactly when the
    recorded total after it is covered by the collateral. *)
Theorem RewardSolarPower_succeeds (to amount : string) (s : State B) (z amt : Z)
    (toAddr ma : string) :
  supply_is (r_kv s) z → 0 <= z → bk_ok (r_bank s) → bk_ready ModuleName (r_bank s) →
  bk_GetModuleAddress ModuleName = Some ma →
  Int.NewIntFromString amount = Some amt → 0 <= amt →
  AccAddressFromBech32 DecodeAndConvert accPrefix to = Ok toAddr → bk_takes toAddr → toAddr ≠ ma →
  Int.valid (collateral (r_kv s) * 1000000) → room (r_bank s) "aeil" amt [ma; toAddr] →
  is_ok (RewardSolarPower DecodeAndConvert accPrefix to amount s).1 = true ↔
  z + amt <= collateral (r_kv s) * 1000000.
Proof.
  intros Hs Hz Hb Hr Hma Hp Ha Hto Ht Hne Hvc Hroom. split.
  { intros Hok. destruct (Z.le_gt_cases (z + amt) (collateral (r_kv s) * 1000000)) as [|Hover]; [done|].
    destruct (RewardSolarPower_rejects DecodeAndConvert accPrefix to amount s z amt Hs Hp)
      as (o & Ho & E); [lia|]. rewrite E in Hok. cbn [fst] in Hok. congruence. }
  intros Hcov. pose proof (Int.NewIntFromString_valid _ _ Hp) as Hva.
  assert (0 <= amt / 10 <= amt) as Hq
    by (split; [apply Z.div_pos; lia|apply Z.div_le_upper_bound; lia]).
  assert (0 <= collateral (r_kv s)) as Hc0 by (unfold collateral; lia).
  destruct (coins_of_run "aeil" amt) as [l Hl]; [done..|].
  destruct (coins_of_run "aeil" (amt / 10)) as [lf Hlf]; [done|lia|].
  destruct (coins_of_run "aeil" (amt - amt / 10)) as [lu Hlu]; [done|lia|].
  destruct (issue_bank amt toAddr ma (r_bank s) l lu) as (b1 & b2 & Hm1 & Hm2); try done.
  assert (Int.valid (z + amt)) as Hvt by (unfold Int.valid in *; lia).
  unfold RewardSolarPower. rewrite Hp. cbn [or_err]. rewrite lift_bind.
  rewrite Int.Quo_pos, lift_bind by done. rewrite Z.div_1_r. unfold GetTotalCollateral, PrefixIterator.
  rewrite (Mbind_run _ _ s (collateral (r_kv s)) s).
  2:{ rewrite !gets_bind. unfold collateral, Int.NewInt. by rewrite !prefix_iter_length. }
  rewrite (Mbind_run _ _ s _ s (GetSupply_run s z Hs)).
  rewrite minted_of_run, lift_bind by (by eapply supply_is_valid).
  rewrite (proj2 (Int.Add_Ok z amt (z + amt)) (conj eq_refl Hvt)), lift_bind.
  rewrite (proj2 (Int.Mul_Ok (collateral (r_kv s)) (Int.NewInt 1000000) (collateral (r_kv s) * 1000000)
    ltac:(unfold Int.valid in *; lia) ltac:(done)) (conj eq_refl Hvc)), lift_bind.
  unfold Int.GT at 1. rewrite (proj2 (Z.ltb_ge _ _)) by lia. cbn [fail_if]. rewrite lift_bind.
  rewrite Hl, lift_bind, fee_of_run, lift_bind, Hlf, lift_bind by done.
  rewrite Int.Sub_nonneg, lift_bind, Hlu, lift_bind, Hto, lift_bind by done.
  rewrite (Mbind_run _ _ _ _ _ (bank_run _ s _ _ Hm1)).
  rewrite (Mbind_run _ _ _ _ _ (bank_run _ (mkState b1 (r_kv s)) _ _ Hm2)).
  by rewrite SetSupply_run.
Qed.

Lemma burn_bank c addr ma b l : bk_ok b → bk_ready ModuleName b →
  bk_GetModuleAddress ModuleName = Some ma → bk_pays b addr → addr ≠ ma → 0 <= Amount c →
  Amount c <= bk_bal b addr (Denom c) → Amount c <= bk_sup b (Denom c) →
  Int.valid (bk_bal b ma (Denom c) + Amount c) → Coins.NewCoins [c] = Ok l →
  ∃ b1 b2, bk_SendCoinsFromAccountToModule addr ModuleName l b = (Ok (), b1) ∧
    bk_BurnCoins ModuleName l b1 = (Ok (), b2).
Proof.
  intros Hb Hr Hma Hp Hne Ha Hle Hls Hv (Hw & _ & Hl)%NewCoins_one_Ok.
  destruct (bk_send_to_progress b addr ModuleName ma l) as (b1 & Hm1 & Hr1); try done;
    [by eapply covered|by eapply room_bal|].
  destruct (bk_send_to_law _ _ _ _ _ _ Hb Hm1) as (ma' & Hma' & _ & Hok1 & Hbal1 & Hsup1).
  assert (ma' = ma) as -> by congruence.
  destruct (bk_burn_progress b1 ModuleName ma l) as (b2 & Hm2); try done.
  - eapply covered; [done| |exact Hl]. rewrite Hbal1. unfold gets_coins.
    rewrite String.eqb_refl, (proj2 (String.eqb_neq _ _)), Hl by done.
    unfold coin_sum. rewrite String.eqb_refl. pose proof (bk_bal_range b ma (Denom c) Hb). lia.
  - intros d. rewrite Hsup1, Hl. unfold coin_sum.
    destruct (String.eqb_spec (Denom c) d) as [<-|]; [done|]. by apply bk_sup_range.
  - eauto.
Qed.

(** The part of a burn after the bank. *)
Lemma burn_tail (c : Coin) (s : State B) z : supply_is (r_kv s) z → 0 <= z → 0 <= Amount c →
  Int.valid (Amount c) → Amount c / 1000000 <= collateral (r_kv s) → collateral (r_kv s) < 2 ^ 63 →
  ∃ r s', (resp ← (if Int.IsPositive (Amount c / 1000000) then
                     n ← lift (Int.Int64 (Amount c / 1000000)); return_recs n
                   else mret ([], []));
           _ ← lower_supply (Amount c); mret resp) s = (Ok r, s').
Proof.
  intros Hs Hz Ha Hv Hle Hc. set (n := Amount c / 1000000) in *.
  assert (0 <= n) by (apply Z.div_pos; lia).
  assert (∃ r s1, (if Int.IsPositive n then n' ← lift (Int.Int64 n); return_recs n'
                   else mret ([], [])) s = (Ok r, s1) ∧ r_kv s1 !! SupplyKey = r_kv s !! SupplyKey)
    as (r & s1 & Hs1 & Hk).
  { destruct (Int.IsPositive n); [|by eexists _, s].
    rewrite (proj2 (Int.Int64_Ok n n)), lift_bind, return_recs_run by lia.
    rewrite (proj2 (Z.ltb_ge _ _)) by done. eexists _, _. split; [reflexivity|]. cbn [r_kv].
    rewrite lookup_delete_all, decide_False; [done|].
    intros [[Hx|Hx] _]%returned_keys_elem; done. }
  rewrite (Mbind_run _ _ _ _ _ Hs1).
  destruct (lower_supply_run (Amount c) s1 z) as (s2 & Hs2); try done.
  { unfold supply_is in *. by rewrite Hk. }
  rewrite (Mbind_run _ _ _ _ _ Hs2). eauto.
Qed.

(** C20: burning succeeds whenever it should.  With a module account that may
    burn, an account whose coins are free and a supply that contains its
    balance, [BurnStableCoin] succeeds exactly when the account holds the
    amount and the collateral has a REC for every full 1,000,000. *)
Theorem BurnStableCoin_succeeds (target amount : string) (s : State B) (z : Z) (coin : Coin)
    (addr ma : string) :
  supply_is (r_kv s) z → 0 <= z → bk_ok (r_bank s) → bk_ready ModuleName (r_bank s) →
  bk_GetModuleAddress ModuleName = Some ma →
  Parse.ParseCoinNormalized denoms
    (if Str.has_suffix amount "aeil" then amount else amount +:+ "aeil") = Ok coin →
  reDnm (Denom coin) = true → 0 <= Amount coin →
  AccAddressFromBech32 DecodeAndConvert accPrefix target = Ok addr →
  bk_pays (r_bank s) addr → addr ≠ ma → collateral (r_kv s) < 2 ^ 63 →
  bk_bal (r_bank s) addr (Denom coin) <= bk_sup (r_bank s) (Denom coin) →
  Int.valid (bk_bal (r_bank s) ma (Denom coin) + Amount coin) →
  is_ok (BurnStableCoin DecodeAndConvert accPrefix denoms target amount s).1 = true ↔
  Amount coin <= bk_bal (r_bank s) addr (Denom coin) ∧ Amount coin / 1000000 <= collateral (r_kv s).
Proof.
  intros Hs Hz Hb Hr Hma Hp Hd Ha Hto Hpay Hne Hc63 Hbs Hroom. split.
  { destruct (BurnStableCoin _ _ _ target amount s) as [[[rs ms]|e|e] s'] eqn:E; [|done..]. intros _.
    apply (BurnStableCoin_Ok _ _ _ _ _ _ z) in E
      as (c & ad & ma' & Hp' & Had & _ & _ & Hn & _ & _ & _ & _ & Hok & _ & Hbal); [|done..].
    assert (c = coin) as -> by congruence. assert (ad = addr) as -> by congruence.
    split; [|done]. pose proof (bk_bal_range _ addr (Denom coin) Hok) as [Hn0 _].
    rewrite Hbal in Hn0. unfold gets_coins, coin_sum in Hn0. rewrite !String.eqb_refl in Hn0. lia. }
  intros [Hle Hcol]. destruct (NewCoins_one_run coin) as [l Hl]; [done..|].
  destruct (burn_bank coin addr ma (r_bank s) l) as (b1 & b2 & Hm1 & Hm2); try done; [lia|].
  pose proof (bk_bal_range _ addr (Denom coin) Hb) as [_ Hvb].
  destruct (burn_tail coin (mkState b2 (r_kv s)) z) as (r & s' & Htail); try done.
  { unfold Int.valid in *. lia. }
  unfold BurnStableCoin. cbv zeta. rewrite Hp, lift_bind, Hto, lift_bind, Hl, lift_bind.
  rewrite (Mbind_run _ _ _ _ _ (bank_run _ s _ _ Hm1)).
  rewrite (Mbind_run _ _ _ _ _ (bank_run _ (mkState b1 (r_kv s)) _ _ Hm2)).
  change (Int.NewInt 1000000) with 1000000. rewrite Int.Quo_pos, lift_bind by lia.
  cbn [r_kv]. by rewrite Htail.
Qed.
End progress.

(** ** Witnesses: the bank keeper of the demo application *)

#[local] Existing Instance app_keeper.
#[local] Existing Instance app_laws.
#[local] Instance app_progress : BankProgress Chain := Bank_progress app_config id.

Lemma rich_ready : bk_ready ModuleName (r_bank rich_state).
Proof.
  exists "rewardaddr", [Minter; Burner]. split_and!; try (vm_compute; reflexivity).
  - cbn. lia.
  - intros acc Hacc. vm_compute in Hacc. discriminate Hacc.
Qed.

Lemma bob_takes : bk_takes "bob".
Proof. split; [cbn; lia|]. apply not_elem_of_empty. Qed.
Lemma rich_room : room (r_bank rich_state) "aeil" 400000 ["rewardaddr"; "bob"].
Proof. split; [reflexivity|]. repeat constructor. Qed.

Lemma RewardSolarPower_succeeds_witness :
  is_ok (fst (reward_demo rich_state)) = true.
Proof.
  apply (RewardSolarPower_succeeds plain_bech32 "cosmos" "bob" "400000" rich_state 2600000
    400000 "bob" "rewardaddr" rich_supply ltac:(lia) rich_bank_ok rich_ready eq_refl
    ltac:(vm_compute; reflexivity) ltac:(lia) ltac:(vm_compute; reflexivity) bob_takes
    ltac:(discriminate) ltac:(vm_compute; reflexivity) rich_room).
  vm_compute. discriminate.
Defined.

Lemma rich_pays : bk_pays (r_bank rich_state) "alice".
Proof. split; [cbn; lia|]. intros acc Hacc. vm_compute in Hacc. by injection Hacc as <-. Qed.

Lemma BurnStableCoin_succeeds_witness :
  is_ok (fst (burn_demo rich_state)) = true.
Proof.
  apply (BurnStableCoin_succeeds plain_bech32 "cosmos" Denoms.empty_registry "alice" "2500000"
    rich_state 2600000 (mkCoin "aeil" 2500000) "alice" "rewardaddr" rich_supply ltac:(lia) rich_bank_ok
    rich_ready eq_refl ltac:(vm_compute; reflexivity) eq_refl ltac:(done)
    ltac:(vm_compute; reflexivity) rich_pays ltac:(discriminate) ltac:(vm_compute; reflexivity)
    ltac:(vm_compute; discriminate) ltac:(vm_compute; reflexivity)).
  split; vm_compute; discriminate.
Defined.
