(* ===== verification/RewardEnergy.v ===== *)
(** * Energy accounting and the creation of RECs (addREC.go) *)

From Stdlib Require Import ZArith Lia Ascii String.
From stdpp Require Import base tactics option list gmap sorting strings.
From S2P Require Import Prelude GoStd Digits SdkInt Chain Keepers Wire Proto Store Address.
From S2P Require Import Reward RewardFacts RewardProps.

Local Open Scope Z_scope.
Import Store Reward Wire.

Section energy.
Context {B : Type} `{BankKeeper B}.
Implicit Types (s : State B) (kv : gmap string value).

(** The store after [AddEnergy], and the number of RECs. *)
Definition energy_after (creator : string) (a : Z) (h : string) kv : Z * gmap string value :=
  let total := F64.add (float_of (kv !! TotalEnergyKey)) a in
  let recs := int64_of_float (F64.div_trunc total 1000000) in
  let kv := <[TotalEnergyKey := VFloat total]> kv in
  let kv := <[energy_key creator := VFloat (F64.add (float_of (kv !! energy_key creator)) a)]> kv in
  let kv := <[EnergyTxKey := VStrings (strings_of (kv !! EnergyTxKey) ++ [h])]> kv in
  (recs, if 0 <? recs
         then <[TotalEnergyKey := VFloat (F64.sub total (F64.of_int64 (wrap64 (recs * 1000000))))]> kv
         else kv).

Lemma AddEnergy_run creator a h s :
  AddEnergy creator a h s =
  (Ok (energy_after creator a h (r_kv s)).1,
   mkState (r_bank s) (energy_after creator a h (r_kv s)).2).
Proof.
  unfold AddEnergy, energy_after, Get, Set_. rewrite gets_bind. cbv zeta. rewrite modify_bind.
  rewrite gets_bind, modify_bind, gets_bind, modify_bind. cbn [r_kv r_bank].
  destruct (0 <? _); [by rewrite modify_bind|by rewrite mret_bind].
Qed.

Lemma recs_exact t : 0 <= t < 2 ^ 52 →
  int64_of_float (F64.div_trunc t 1000000) = t / 1000000.
Proof.
  intros Ht. rewrite F64.div_trunc_exact by done. unfold int64_of_float, is_int64.
  assert (0 <= t / 1000000) by (apply Z.div_pos; lia).
  assert (t / 1000000 < 2 ^ 52) by (apply Z.div_lt_upper_bound; lia).
  by rewrite (proj2 (andb_true_iff _ _)) by lia.
Qed.

Lemma remaining_exact t : 0 <= t < 2 ^ 52 →
  F64.sub t (F64.of_int64 (wrap64 (t / 1000000 * 1000000))) = t mod 1000000.
Proof.
  intros Ht. pose proof (Z.div_mod t 1000000 ltac:(lia)) as E.
  pose proof (Z.mod_pos_bound t 1000000 ltac:(lia)) as Hm.
  assert (0 <= t / 1000000) by (apply Z.div_pos; lia).
  rewrite wrap64_id by (unfold is_int64; lia). unfold F64.of_int64, F64.sub.
  rewrite (F64.round_small (t / 1000000 * 1000000)) by lia. rewrite F64.round_small by lia. lia.
Qed.

Lemma energy_key_ne creator : energy_key creator ≠ TotalEnergyKey ∧ energy_key creator ≠ EnergyTxKey.
Proof. split; discriminate. Qed.

Lemma energy_total creator a h kv :
  let t := float_of (kv !! TotalEnergyKey) in
  0 <= t → 0 <= a → t + a < 2 ^ 52 →
  (energy_after creator a h kv).1 = (t + a) / 1000000 ∧
  (energy_after creator a h kv).2 !! TotalEnergyKey = Some (VFloat ((t + a) mod 1000000)).
Proof.
  intros t Ht Ha Hb. destruct (energy_key_ne creator) as [Hk1 Hk2].
  assert (F64.add t a = t + a) as E by (unfold F64.add; by rewrite F64.round_small by lia).
  unfold energy_after. fold t. rewrite E. rewrite recs_exact by lia. cbn [fst snd]. split; [done|].
  destruct (Z.ltb_spec 0 ((t + a) / 1000000)).
  - rewrite lookup_insert_eq. by rewrite remaining_exact by lia.
  - rewrite !lookup_insert_ne, lookup_insert_eq by done. do 2 f_equal.
    assert (0 <= (t + a) / 1000000) by (apply Z.div_pos; lia).
    pose proof (Z.div_mod (t + a) 1000000 ltac:(lia)). lia.
Qed.

Lemma energy_other creator a h kv k :
  k ≠ TotalEnergyKey → k ≠ energy_key creator → k ≠ EnergyTxKey →
  (energy_after creator a h kv).2 !! k = kv !! k.
Proof.
  intros H1 H2 H3. unfold energy_after. cbn [snd]. destruct (0 <? _); by rewrite !lookup_insert_ne.
Qed.

(** One energy report.  While the running total stays below 2^52 Wh the
    [float64] arithmetic is exact: [AddEnergy] answers the number of full
    1,000,000 Wh in the total, keeps the rest as the new total, adds the
    amount to the reporter's account, appends the transaction hash, and
    touches nothing else. *)
Theorem AddEnergy_exact (creator h : string) (a : Z) (s : State B) :
  let t := float_of (r_kv s !! TotalEnergyKey) in
  let e := float_of (r_kv s !! energy_key creator) in
  0 <= t → 0 <= a → t + a < 2 ^ 52 → Z.abs (e + a) < 2 ^ 53 →
  ∃ s', AddEnergy creator a h s = (Ok ((t + a) / 1000000), s') ∧
    r_kv s' !! TotalEnergyKey = Some (VFloat ((t + a) mod 1000000)) ∧
    r_kv s' !! energy_key creator = Some (VFloat (e + a)) ∧
    r_kv s' !! EnergyTxKey = Some (VStrings (strings_of (r_kv s !! EnergyTxKey) ++ [h])) ∧
    (∀ k, k ≠ TotalEnergyKey → k ≠ energy_key creator → k ≠ EnergyTxKey →
       r_kv s' !! k = r_kv s !! k) ∧
    r_bank s' = r_bank s.
Proof.
  intros t e Ht Ha Hb He. destruct (energy_total creator a h (r_kv s) Ht Ha Hb) as [Hr Htot].
  rewrite AddEnergy_run, Hr. eexists. split; [reflexivity|]. cbn [r_kv r_bank].
  destruct (energy_key_ne creator) as [Hk1 Hk2].
  split; [exact Htot|]. unfold energy_after in *. cbn [fst snd] in *.
  split_and!; [| |intros; by apply (energy_other creator a h)|done].
  - destruct (0 <? _); repeat (rewrite lookup_insert_eq || rewrite lookup_insert_ne by done);
      unfold F64.add at 1; by rewrite F64.round_small.
  - by destruct (0 <? _); repeat (rewrite lookup_insert_eq || rewrite lookup_insert_ne by done).
Qed.

(** Reports one after the other; the RECs they earn are added up. *)
Fixpoint add_reports (l : list (string * Z * string)) : M (State B) Z :=
  match l with
  | [] => mret 0
  | (creator, a, h) :: l' =>
      recs ← AddEnergy creator a h;
      rest ← add_reports l';
      mret (recs + rest)
  end.
Definition energy_sum (l : list (string * Z * string)) : Z := foldr (λ r n, r.1.2 + n) 0 l.

(** No energy is lost or counted twice.  Over any sequence of reports of
    up to 2^51 Wh each, what was carried over plus everything reported equals
    1,000,000 Wh for every REC earned plus what is carried over at the end,
    which is less than one REC. *)
Theorem AddEnergy_conserves (l : list (string * Z * string)) (s : State B) :
  Forall (λ r, 0 <= r.1.2 <= 2 ^ 51) l →
  0 <= float_of (r_kv s !! TotalEnergyKey) < 1000000 →
  ∃ recs s', add_reports l s = (Ok recs, s') ∧
    let left := float_of (r_kv s' !! TotalEnergyKey) in
    float_of (r_kv s !! TotalEnergyKey) + energy_sum l = recs * 1000000 + left ∧
    0 <= left < 1000000.
Proof.
  intros Hall. revert s. induction Hall as [|[[c a] h] l Ha _ IH]; intros s Ht.
  { exists 0, s. cbn. split; [done|]. lia. }
  cbn [fst snd] in Ha. set (t := float_of (r_kv s !! TotalEnergyKey)) in *.
  destruct (energy_total c a h (r_kv s)) as [Hr Htot]; [lia|lia|fold t; lia|]. fold t in Hr, Htot.
  pose proof (Z.mod_pos_bound (t + a) 1000000 ltac:(lia)) as Hm.
  pose proof (Z.div_mod (t + a) 1000000 ltac:(lia)) as Hd.
  destruct (IH (mkState (r_bank s) (energy_after c a h (r_kv s)).2)) as (recs & s' & Hrun & Hsum & Hlt).
  { cbn [r_kv]. rewrite Htot. cbn [float_of]. lia. }
  exists ((t + a) / 1000000 + recs), s'. cbn [add_reports].
  rewrite (Mbind_run _ _ _ _ _ (AddEnergy_run c a h s)), (Mbind_run _ _ _ _ _ Hrun), Hr.
  split; [done|]. cbv zeta in *. cbn [r_kv] in Hsum. rewrite Htot in Hsum. cbn [float_of] in Hsum.
  cbn [energy_sum foldr fst snd]. fold (energy_sum l). lia.
Qed.

(** ** CreateRECRecord *)

Definition rec_id (height i : Z) : string :=
  "rec-" +:+ Big.to_string height +:+ "-" +:+ Big.to_string i.

(** The record made in round [i] from state [s]. *)
Definition rec_at s (i : Z) : RECRecord :=
  let height := bk_BlockHeight (r_bank s) in
  mkRECRecord (rec_id height i) (Time.RFC3339 (bk_BlockTime (r_bank s))) height "1000000"
    (contributor_of <$> KVStorePrefixIterator (r_kv s) EnergyByAddressPrefix)
    (strings_of (r_kv s !! EnergyTxKey)) "".

Lemma create_one_run i s :
  slen (RECRecord_MarshalToSizedBuffer (rec_at s i)) < 2 ^ 63 →
  create_one i s =
  (Ok (rec_id (bk_BlockHeight (r_bank s)) i),
   mkState (r_bank s)
     (<[rec_key (rec_id (bk_BlockHeight (r_bank s)) i) :=
        VBytes (RECRecord_MarshalToSizedBuffer (rec_at s i))]> (r_kv s))).
Proof.
  intros Hl. unfold create_one, contributors, PrefixIterator, Get, Set_.
  rewrite (Mbind_run _ _ s (contributor_of <$> KVStorePrefixIterator (r_kv s) EnergyByAddressPrefix) s)
    by done.
  rewrite !gets_bind. cbv zeta. fold (rec_id (bk_BlockHeight (r_bank s)) i).
  change (mkRECRecord _ _ _ _ _ _ _) with (rec_at s i).
  pose proof (RECRecord_Size_length (rec_at s i) Hl) as Hs.
  assert (RECRecord_Marshal (rec_at s i) = Ok (RECRecord_MarshalToSizedBuffer (rec_at s i))) as ->
    by (by apply marshal_exact).
  by rewrite lift_bind, modify_bind.
Qed.

(** The records do not feed back into the energy accounts. *)
Lemma rec_at_stable s k v i :
  Str.has_prefix k "rec_record/" = true →
  rec_at (mkState (r_bank s) (<[k := v]> (r_kv s))) i = rec_at s i.
Proof.
  intros Hk. unfold rec_at. cbn [r_bank r_kv]. rewrite lookup_insert_ne.
  2:{ intros ->. done. }
  f_equal. f_equal. apply prefix_iter_ext. intros k' Hk'. rewrite lookup_insert_ne; [done|].
  intros ->. by rewrite (proj1 (prefix_cut k' "rec_record/" EnergyByAddressPrefix "" Hk eq_refl eq_refl)) in Hk'.
Qed.

(** Storing the records [f j] of several rounds. *)
Fixpoint put_recs (height : Z) (f : Z → RECRecord) (l : list Z) kv : gmap string value :=
  match l with
  | [] => kv
  | j :: l' => put_recs height f l'
      (<[rec_key (rec_id height j) := VBytes (RECRecord_MarshalToSizedBuffer (f j))]> kv)
  end.

Lemma create_loop_run n i acc s :
  (∀ j, i <= j < i + Z.of_nat n → slen (RECRecord_MarshalToSizedBuffer (rec_at s j)) < 2 ^ 63) →
  create_loop n i acc s =
  (Ok (acc ++ (rec_id (bk_BlockHeight (r_bank s)) <$> seqZ i (Z.of_nat n))),
   mkState (r_bank s)
     (put_recs (bk_BlockHeight (r_bank s)) (rec_at s) (seqZ i (Z.of_nat n)) (r_kv s))).
Proof.
  revert i acc s. induction n as [|n IH]; intros i acc s Hl.
  { cbn. rewrite app_nil_r. by destruct s. }
  cbn [create_loop]. rewrite (Mbind_run _ _ _ _ _ (create_one_run i s (Hl i ltac:(lia)))).
  set (h := bk_BlockHeight (r_bank s)) in *. set (k := rec_key (rec_id h i)).
  rewrite IH.
  - cbn [r_bank r_kv]. fold h. rewrite (seqZ_cons i (Z.of_nat (S n))) by lia.
    replace (Z.pred (Z.of_nat (S n))) with (Z.of_nat n) by lia.
    change (Z.succ i) with (i + 1). cbn [fmap list_fmap put_recs].
    rewrite <-app_assoc. f_equal. f_equal. fold k.
    set (m := <[k := VBytes (RECRecord_MarshalToSizedBuffer (rec_at s i))]> (r_kv s)).
    assert (∀ j, rec_at (mkState (r_bank s) m) j = rec_at s j) as E
      by (intros j; by apply rec_at_stable).
    generalize dependent (rec_at (mkState (r_bank s) m)). intros f E. clearbody m. clear -E.
    revert m.
    induction (seqZ (i + 1) (Z.of_nat n)) as [|j l IHl]; intros m; [done|].
    cbn [put_recs]. by rewrite E, IHl.
  - intros j Hj. rewrite rec_at_stable by done. apply Hl. lia.
Qed.

Lemma rec_id_inj h i j : Int.valid i → Int.valid j → rec_id h i = rec_id h j → i = j.
Proof.
  intros Hi Hj E. unfold rec_id in E. repeat apply Str.app_inj_l in E.
  pose proof (Int.NewIntFromString_String i Hi) as H1. unfold Int.to_String in H1. rewrite E in H1.
  change (Big.to_string j) with (Int.to_String j) in H1.
  rewrite Int.NewIntFromString_String in H1 by done. congruence.
Qed.
Lemma rec_key_inj a b : rec_key a = rec_key b → a = b.
Proof. unfold rec_key. intros E. by do 2 apply Str.app_inj_l in E. Qed.

Lemma put_recs_other h f l kv k : (∀ j, j ∈ l → k ≠ rec_key (rec_id h j)) →
  put_recs h f l kv !! k = kv !! k.
Proof.
  revert kv. induction l as [|j l IH]; intros kv Hk; [done|]. cbn [put_recs].
  rewrite IH by (intros; apply Hk; by right). rewrite lookup_insert_ne; [done|].
  intros E. by apply (Hk j); [left|].
Qed.
Lemma put_recs_lookup h f l kv j : NoDup l → Forall Int.valid l → j ∈ l →
  put_recs h f l kv !! rec_key (rec_id h j) =
  Some (VBytes (RECRecord_MarshalToSizedBuffer (f j))).
Proof.
  intros Hnd Hv. revert kv. induction Hnd as [|i l Hi Hnd IH]; intros kv Hj; [by apply elem_of_nil in Hj|].
  apply Forall_cons in Hv as [Hvi Hv]. cbn [put_recs].
  apply elem_of_cons in Hj as [->|Hj]; [|by apply IH].
  rewrite put_recs_other, lookup_insert_eq; [done|].
  intros j Hj E%rec_key_inj. rewrite Forall_forall in Hv.
  apply rec_id_inj in E; [by subst|done|by apply Hv].
Qed.
Lemma put_recs_count h f l kv : NoDup l → Forall Int.valid l →
  (∀ j, j ∈ l → kv !! rec_key (rec_id h j) = None) →
  collateral (put_recs h f l kv) = collateral kv + Z.of_nat (length l).
Proof.
  intros Hnd Hv. revert kv. induction Hnd as [|i l Hi Hnd IH]; intros kv Hn; [cbn; lia|].
  apply Forall_cons in Hv as [Hvi Hv]. cbn [put_recs length]. rewrite IH.
  - unfold collateral. rewrite count_insert by done.
    rewrite decide_False by (rewrite Hn by left; by intros [? ?]).
    rewrite (count_insert_other "rec_meta/") by done. lia.
  - done.
  - intros j Hj. rewrite lookup_insert_ne; [apply Hn; by right|].
    intros E%rec_key_inj. rewrite Forall_forall in Hv. apply rec_id_inj in E; [by subst|done|by apply Hv].
Qed.

(** C34: creating RECs.  [CreateRECRecord count] issues [count] records with
    the distinct ids rec-height-0, rec-height-1, ... in this order; each one is
    stored under its id, decodes to the block's height and time, the 1,000,000
    Wh it stands for and the contributors and transactions of the open period;
    nothing else in the store changes, and the collateral grows by [count]
    unless ids of this block were already taken. *)
Theorem CreateRECRecord_correct (count : Z) (s : State B) :
  0 <= count < 2 ^ 63 → is_int64 (bk_BlockHeight (r_bank s)) = true →
  (∀ j, 0 <= j < count → slen (RECRecord_MarshalToSizedBuffer (rec_at s j)) < 2 ^ 63) →
  let ids := rec_id (bk_BlockHeight (r_bank s)) <$> seqZ 0 count in
  ∃ s', CreateRECRecord count s = (Ok ids, s') ∧ NoDup ids ∧ r_bank s' = r_bank s ∧
    (∀ j, 0 <= j < count → ∃ b,
       r_kv s' !! rec_key (rec_id (bk_BlockHeight (r_bank s)) j) = Some (VBytes b) ∧
       RECRecord_Unmarshal b = Ok (rec_at s j)) ∧
    (∀ k, (∀ id, id ∈ ids → k ≠ rec_key id) → r_kv s' !! k = r_kv s !! k) ∧
    ((∀ id, id ∈ ids → r_kv s !! rec_key id = None) →
       collateral (r_kv s') = collateral (r_kv s) + count).
Proof.
  intros Hc Hh Hl ids. set (h := bk_BlockHeight (r_bank s)) in *.
  assert (Z.of_nat (Z.to_nat count) = count) as Ec by lia.
  unfold CreateRECRecord. rewrite create_loop_run by (intros j Hj; apply Hl; lia).
  rewrite Ec. fold h. cbn [app]. eexists. split; [reflexivity|]. cbn [r_bank r_kv].
  assert (Forall Int.valid (seqZ 0 count)) as Hv.
  { apply Forall_forall. intros j Hj%elem_of_seqZ. unfold Int.valid.
    apply Z.lt_trans with (2 ^ 63); [lia|done]. }
  pose proof (NoDup_seqZ 0 count) as Hnd. split_and!.
  - apply NoDup_fmap_2_strong; [|done]. intros i j Hi Hj. rewrite Forall_forall in Hv.
    apply rec_id_inj; by apply Hv.
  - done.
  - intros j Hj. eexists. split.
    + apply put_recs_lookup; [done|done|]. apply elem_of_seqZ. lia.
    + apply RECRecord_roundtrip; [by apply Hl|]. split_and!; [done|done|].
      cbn. apply Forall_fmap, Forall_true. done.
  - intros k Hk. apply put_recs_other. intros j Hj. apply Hk.
    by apply list_elem_of_fmap_2.
  - intros Hfresh. rewrite put_recs_count; [rewrite length_seqZ; lia|done|done|].
    intros j Hj. apply Hfresh. by apply list_elem_of_fmap_2.
Qed.
End energy.

(** ** Runs *)

#[local] Existing Instance app_keeper.

Definition energy_state : State Chain :=
  mkState empty_chain (<[TotalEnergyKey := VFloat 400000]> ∅).

Lemma AddEnergy_exact_witness :
  ∃ s', AddEnergy "alice" 1700000 "TX1" energy_state = (Ok 2, s') ∧
        r_kv s' !! TotalEnergyKey = Some (VFloat 100000).
Proof.
  destruct (AddEnergy_exact "alice" "TX1" 1700000 energy_state
    ltac:(vm_compute; discriminate) ltac:(vm_compute; discriminate)
    ltac:(vm_compute; reflexivity) ltac:(vm_compute; reflexivity)) as (s' & H1 & H2 & _).
  exists s'. split; [exact H1|exact H2].
Defined.

Lemma AddEnergy_conserves_witness :
  ∃ recs s', add_reports [("alice", 900000, "T1"); ("bob", 800000, "T2")] energy_state = (Ok recs, s') ∧
    400000 + 1700000 = recs * 1000000 + float_of (r_kv s' !! TotalEnergyKey).
Proof.
  destruct (AddEnergy_conserves [("alice", 900000, "T1"); ("bob", 800000, "T2")] energy_state)
    as (recs & s' & H1 & H2 & _).
  - repeat constructor; vm_compute; discriminate.
  - vm_compute; split; [discriminate|reflexivity].
  - exists recs, s'. split; [exact H1|exact H2].
Defined.

Lemma CreateRECRecord_correct_witness :
  ∃ s', CreateRECRecord 2 energy_state = (Ok ["rec-7-0"; "rec-7-1"], s') ∧
        collateral (r_kv s') = collateral (r_kv energy_state) + 2.
Proof.
  destruct (CreateRECRecord_correct 2 energy_state) as (s' & H1 & _ & _ & _ & _ & H2).
  - lia.
  - vm_compute; reflexivity.
  - intros j Hj. assert (j = 0 ∨ j = 1) as [-> | ->] by lia; vm_compute; reflexivity.
  - exists s'. split; [exact H1|]. apply H2. intros id Hid.
    change (rec_id _ <$> seqZ 0 2) with ["rec-7-0"; "rec-7-1"] in Hid.
    repeat (apply elem_of_cons in Hid as [->|Hid]; [vm_compute; reflexivity|]).
    by apply elem_of_nil in Hid.
Defined.
