(* ===== verification/RewardList.v ===== *)
(** * The linked list of issued nodes (link.go, TxNodeList of query.go) *)

From Stdlib Require Import ZArith Lia Ascii String.
From stdpp Require Import base tactics option list gmap sorting strings.
From S2P Require Import Prelude GoStd Digits Chain Keepers Wire Proto Store Address.
From S2P Require Import Reward RewardFacts RewardProps.

Local Open Scope Z_scope.
Import Store Reward.

(** ** The list a store represents *)

Definition next_of (rest : list TxNodeTx) : string :=
  match rest with [] => "" | m :: _ => RecId m end.

Fixpoint path (kv : gmap string value) (nodes : list TxNodeTx) : Prop :=
  match nodes with
  | [] => True
  | n :: rest =>
      kv !! node_key (RecId n) = Some (VNode n) ∧ Next n = next_of rest ∧ path kv rest
  end.

Fixpoint last_of (n : TxNodeTx) (rest : list TxNodeTx) : TxNodeTx :=
  match rest with [] => n | m :: rest' => last_of m rest' end.

Record represents (kv : gmap string value) (nodes : list TxNodeTx) : Prop := mkRepresents {
  rep_ids : NoDup (RecId <$> nodes);
  rep_nonempty : Forall (λ n, RecId n ≠ "") nodes;
  rep_path : path kv nodes;
  rep_ends :
    match nodes with
    | [] => kv !! TxListHeadKey = None
    | n :: rest => kv !! TxListHeadKey = Some (VBytes (RecId n)) ∧
        kv !! TxListTailKey = Some (VBytes (RecId (last_of n rest)))
    end }.

Definition set_next (n : TxNodeTx) (next : string) : TxNodeTx :=
  mkTxNode (TxHashes n) (Creator n) (RecId n) next.

(** The list with [new] hung after its last node. *)
Fixpoint link (nodes : list TxNodeTx) (new : TxNodeTx) : list TxNodeTx :=
  match nodes with
  | [] => [new]
  | [n] => [set_next n (RecId new); new]
  | n :: rest => n :: link rest new
  end.

(** ** The walk *)

Lemma walk_path kv nodes fuel : path kv nodes → Forall (λ n, RecId n ≠ "") nodes →
  (length nodes <= fuel)%nat → walk kv fuel (next_of nodes) = Some (Ok nodes).
Proof.
  revert fuel. induction nodes as [|n rest IH]; intros fuel Hp Hne Hf; [by destruct fuel|].
  destruct Hp as (Hn & Hnext & Hp). apply Forall_cons in Hne as [Hne Hrest]. cbn [next_of].
  destruct fuel as [|f]; [simpl in Hf; lia|]. cbn [walk].
  rewrite (proj2 (String.eqb_neq _ _)) by done. rewrite Hn, Hnext, IH; [done|done|done|].
  simpl in Hf. lia.
Qed.

(** ** Emptying the energy accounts *)

Section list.
Context {B : Type} `{BankKeeper B}.
Implicit Types (s : State B) (kv : gmap string value).

Lemma delete_each_run (items : list (string * value)) s :
  for_each (λ item, Delete item.1) items s =
  (Ok (), mkState (r_bank s) (delete_all items.*1 (r_kv s))).
Proof.
  revert s. induction items as [|x items IH]; intros s; cbn [for_each].
  - by destruct s.
  - rewrite (Mbind_run (Delete x.1) _ s () (mkState (r_bank s) (delete x.1 (r_kv s))) eq_refl).
    by rewrite IH.
Qed.

Definition reset_kv kv : gmap string value :=
  delete EnergyTxKey (delete_all (KVStorePrefixIterator kv EnergyByAddressPrefix).*1 kv).

Lemma resetEnergyStore_run s :
  resetEnergyStore s = (Ok (), mkState (r_bank s) (reset_kv (r_kv s))).
Proof.
  unfold resetEnergyStore, PrefixIterator. rewrite gets_bind.
  by rewrite (Mbind_run _ _ _ _ _ (delete_each_run _ s)).
Qed.

Definition energy_entry (k : string) : bool :=
  String.eqb k EnergyTxKey || Str.has_prefix k EnergyByAddressPrefix.

Lemma lookup_reset kv k :
  reset_kv kv !! k = if energy_entry k then None else kv !! k.
Proof.
  unfold reset_kv, energy_entry. destruct (String.eqb_spec k EnergyTxKey) as [->|Hne].
  { by rewrite lookup_delete_eq. }
  rewrite lookup_delete_ne, lookup_delete_all by done. simpl.
  destruct (Str.has_prefix k EnergyByAddressPrefix) eqn:E.
  - case_decide as Hk; [done|]. apply eq_None_not_Some. intros [v Hv]. apply Hk.
    apply list_elem_of_fmap. exists (k, v). split; [done|]. by apply prefix_iter_elem.
  - rewrite decide_False; [done|]. intros ([k' v] & -> & Hk)%list_elem_of_fmap.
    apply prefix_iter_elem in Hk as [_ Hk]. simpl in *. congruence.
Qed.

Lemma path_ext kv kv' nodes :
  (∀ n, n ∈ nodes → kv' !! node_key (RecId n) = kv !! node_key (RecId n)) →
  path kv nodes → path kv' nodes.
Proof.
  induction nodes as [|n rest IH]; intros Hk Hp; [done|]. destruct Hp as (Hn & Hnext & Hp).
  split_and!; [rewrite Hk; [done|left]|done|]. apply IH; [|done]. intros m Hm. apply Hk. by right.
Qed.

Lemma node_key_inj a b : node_key a = node_key b → a = b.
Proof. apply Str.app_inj_l. Qed.

Lemma path_insert kv nodes k v :
  (∀ n, n ∈ nodes → k ≠ node_key (RecId n)) → path kv nodes → path (<[k := v]> kv) nodes.
Proof. intros Hk. apply path_ext. intros n Hn. by rewrite lookup_insert_ne by (by apply Hk). Qed.

Lemma path_last kv n rest : path kv (n :: rest) →
  kv !! node_key (RecId (last_of n rest)) = Some (VNode (last_of n rest)).
Proof.
  revert n. induction rest as [|m rest IH]; intros n Hp; [apply Hp|]. apply IH, Hp.
Qed.

Lemma last_of_elem n rest : last_of n rest ∈ n :: rest.
Proof.
  revert n. induction rest as [|m rest IH]; intros n; [left|]. cbn [last_of]. right. apply IH.
Qed.

Lemma link_cons n m rest new : link (n :: m :: rest) new = n :: link (m :: rest) new.
Proof. done. Qed.

Lemma link_ids nodes new : RecId <$> link nodes new = (RecId <$> nodes) ++ [RecId new].
Proof.
  induction nodes as [|n [|m rest] IH]; [done|done|]. rewrite link_cons. cbn [fmap list_fmap].
  by rewrite IH.
Qed.

Lemma link_head n rest new : next_of (link (n :: rest) new) = RecId n.
Proof. by destruct rest. Qed.

(** Hanging a stored node [new] after the last one. *)
Lemma path_link kv n rest new : NoDup (RecId <$> n :: rest) → path kv (n :: rest) →
  RecId new ∉ RecId <$> n :: rest → Next new = "" → kv !! node_key (RecId new) = Some (VNode new) →
  path (<[node_key (RecId (last_of n rest)) := VNode (set_next (last_of n rest) (RecId new))]> kv)
    (link (n :: rest) new).
Proof.
  revert n. induction rest as [|m rest IH]; intros n Hnd Hp Hnew Hnext Hst.
  - cbn [link last_of path set_next RecId Next next_of]. rewrite lookup_insert_eq.
    rewrite lookup_insert_ne; [done|]. intros E%node_key_inj. apply Hnew. rewrite <-E. left.
  - rewrite link_cons. cbn [last_of path]. destruct Hp as (Hn & Hnx & Hp).
    apply NoDup_cons in Hnd as [Hni Hnd]. split_and!.
    + rewrite lookup_insert_ne; [done|]. intros E%node_key_inj. apply Hni. rewrite <-E.
      exact (list_elem_of_fmap_2 RecId (m :: rest) _ (last_of_elem m rest)).
    + by rewrite link_head.
    + apply IH; try done. intros Hx. apply Hnew. by right.
Qed.

Lemma link_last_of n rest new : ∃ m r, link (n :: rest) new = m :: r ∧ RecId m = RecId n ∧
  last_of m r = new.
Proof.
  revert n. induction rest as [|x rest IH]; intros n; [by eexists _, _|].
  destruct (IH x) as (m & r & E & _ & Hl). rewrite link_cons, E. exists n, (m :: r). done.
Qed.

(** The node [AppendTxNode] stores. *)
Definition stored_node (node : TxNodeTx) kv : TxNodeTx :=
  mkTxNode (strings_of (kv !! EnergyTxKey)) (Creator node) (RecId node) (Next node).

Lemma path_reset kv nodes : path kv nodes → path (reset_kv kv) nodes.
Proof. apply path_ext. intros n _. by rewrite lookup_reset. Qed.

Definition append_kv (nodes : list TxNodeTx) (new : TxNodeTx) kv : gmap string value :=
  let kv1 := <[node_key (RecId new) := VNode new]> kv in
  reset_kv
    match nodes with
    | [] => <[TxListTailKey := VBytes (RecId new)]> (<[TxListHeadKey := VBytes (RecId new)]> kv1)
    | n :: rest =>
        <[TxListTailKey := VBytes (RecId new)]>
          (<[node_key (RecId (last_of n rest)) := VNode (set_next (last_of n rest) (RecId new))]> kv1)
    end.

Lemma AppendTxNode_run node s nodes : represents (r_kv s) nodes →
  RecId node ∉ RecId <$> nodes →
  AppendTxNode node s =
  (Ok (), mkState (r_bank s) (append_kv nodes (stored_node node (r_kv s)) (r_kv s))).
Proof.
  intros [Hnd Hne Hp Hends] Hfresh. unfold AppendTxNode, GetAllTxHashes, Get, Set_.
  rewrite (Mbind_run _ _ s (strings_of (r_kv s !! EnergyTxKey)) s) by done. cbv zeta.
  fold (stored_node node (r_kv s)). set (new := stored_node node (r_kv s)).
  change (RecId node) with (RecId new) in Hfresh.
  rewrite modify_bind, gets_bind. cbn [r_kv r_bank]. rewrite lookup_insert_ne by discriminate.
  destruct nodes as [|n rest].
  - rewrite Hends, !modify_bind, resetEnergyStore_run. done.
  - destruct Hends as [-> Htail]. rewrite gets_bind. cbn [r_kv].
    rewrite lookup_insert_ne, Htail by discriminate. cbn [bytes_of]. rewrite gets_bind. cbn [r_kv].
    rewrite lookup_insert_ne.
    + rewrite (path_last _ _ _ Hp), !modify_bind, resetEnergyStore_run. done.
    + intros E%node_key_inj. apply Hfresh. rewrite E. apply list_elem_of_fmap_2, last_of_elem.
Qed.

Lemma link_nonempty nodes new : Forall (λ n, RecId n ≠ "") nodes → RecId new ≠ "" →
  Forall (λ n, RecId n ≠ "") (link nodes new).
Proof.
  intros H1 H2. assert (Forall (λ i, i ≠ "") (RecId <$> link nodes new)) as Hf.
  { rewrite link_ids. apply Forall_app. split; [by apply Forall_fmap|by constructor]. }
  by rewrite Forall_fmap in Hf.
Qed.

Lemma append_represents nodes new kv : represents kv nodes →
  RecId new ∉ RecId <$> nodes → RecId new ≠ "" → Next new = "" →
  represents (append_kv nodes new kv) (link nodes new).
Proof.
  intros [Hnd Hne Hp Hends] Hfresh Hid Hnext. unfold append_kv. split.
  - rewrite link_ids. apply NoDup_app. split_and!; [done| |apply NoDup_singleton].
    by intros x Hx ->%list_elem_of_singleton.
  - by apply link_nonempty.
  - apply path_reset. assert (path (<[node_key (RecId new) := VNode new]> kv) nodes) as Hp1.
    { apply path_insert; [|done]. intros n Hn E%node_key_inj. apply Hfresh. rewrite E.
      by apply list_elem_of_fmap_2. }
    destruct nodes as [|n rest].
    + cbn [link path next_of]. rewrite !lookup_insert_ne, lookup_insert_eq by discriminate. done.
    + apply path_insert; [intros; discriminate|].
      apply path_link; [done|done|done|done|apply lookup_insert_eq].
  - destruct nodes as [|n rest]; cbn [link].
    + rewrite !lookup_reset. cbn. by rewrite lookup_insert_ne, !lookup_insert_eq by discriminate.
    + change (match rest with
              | [] => [set_next n (RecId new); new]
              | _ :: _ => n :: link rest new
              end) with (link (n :: rest) new).
      destruct (link_last_of n rest new) as (m & r & -> & Hm & Hl). rewrite Hm, Hl, !lookup_reset.
      cbn. rewrite lookup_insert_eq. destruct Hends as [Hh _].
      by rewrite !lookup_insert_ne by discriminate.
Qed.


(** A node that points to itself is never left. *)
Lemma walk_self kv id n fuel : id ≠ "" → kv !! node_key id = Some (VNode n) → Next n = id →
  walk kv fuel id = None.
Proof.
  intros Hid Hn Hnext. induction fuel as [|f IH]; cbn [walk];
    rewrite (proj2 (String.eqb_neq _ _)) by done; [done|]. by rewrite Hn, Hnext, IH.
Qed.

Lemma walk_into kv kv' n rest fuel :
  NoDup (RecId <$> n :: rest) → Forall (λ n, RecId n ≠ "") (n :: rest) → path kv (n :: rest) →
  (∀ m, m ∈ n :: rest → RecId m ≠ RecId (last_of n rest) →
     kv' !! node_key (RecId m) = kv !! node_key (RecId m)) →
  (∀ fuel, walk kv' fuel (RecId (last_of n rest)) = None) →
  walk kv' fuel (RecId n) = None.
Proof.
  revert n fuel. induction rest as [|m rest IH]; intros n fuel Hnd Hne Hp Hext Hloop; [done|].
  destruct Hp as (Hn & Hnext & Hp). apply NoDup_cons in Hnd as [Hni Hnd].
  apply Forall_cons in Hne as [Hid Hne].
  destruct fuel as [|f]; cbn [walk]; rewrite (proj2 (String.eqb_neq _ _)) by done; [done|].
  rewrite Hext, Hn, Hnext; [|left|].
  - cbn [next_of]. rewrite IH; [done|done|done|done| |done].
    intros x Hx Hxl. apply Hext; [by right|done].
  - intros E. apply Hni. rewrite E.
    exact (list_elem_of_fmap_2 RecId (m :: rest) _ (last_of_elem m rest)).
Qed.

End list.

(** ** Runs *)

#[local] Existing Instance app_keeper.

Definition node_a := mkTxNode ["T1"; "T2"] "alice" "rec-7-0" "".
Definition listed_state : State Chain :=
  mkState empty_chain (<[node_key "rec-7-0" := VNode node_a]>
    (<[TxListHeadKey := VBytes "rec-7-0"]> (<[TxListTailKey := VBytes "rec-7-0"]> ∅))).
Lemma listed_represents : represents (r_kv listed_state) [node_a].
Proof.
  split; [apply NoDup_singleton|by repeat constructor| |]; repeat split; vm_compute; reflexivity.
Qed.


