(* ===== verification/Modules.v ===== *)
(** * x/mapping and x/light_tx

    The device registry and the intake of light transactions.  The bech32
    codec and the protobuf encoding of the light_tx messages (golang/protobuf
    by reflection, no generated code) are parameters. *)

From Stdlib Require Import ZArith Lia Ascii String.
From stdpp Require Import base tactics option list gmap sorting strings.
From S2P Require Import Prelude GoStd Chain Wire Store Address.

Local Open Scope Z_scope.

Module Mapping.
Section mapping.
Context (DecodeAndConvert : string → option (string * string)) (accPrefix : string).
(** [sdk.AccAddress.String]. *)
Context (addr_String : string → string).

(** The module's store: raw addresses under "device:" keys. *)
Abbreviation State := (gmap string string).

Record MsgRegisterDevice := mkMsgRegisterDevice {
  Creator : string; DeviceId : string; MsgAddress : string }.

Definition device_key (deviceID : string) : string := "device:" +:+ deviceID.

Definition SetDeviceMapping (deviceID address : string) : M State () :=
  modify (λ s, <[device_key deviceID := address]> s).

Definition GetDeviceAddress (deviceID : string) : M State (string * bool) :=
  bz ← gets (λ s, s !! device_key deviceID);
  match bz with
  | None => mret ("", false)
  | Some b => mret (b, true)
  end.

(** [GetAddressFromDeviceID]; [None] is a nil request. *)
Definition GetAddressFromDeviceID (req : option string) : M State string :=
  deviceId ← lift (or_err req "empty request");
  r ← GetDeviceAddress deviceId;
  _ ← lift (fail_if (negb r.2) ("device_id " +:+ deviceId +:+ " not found"));
  mret (addr_String r.1).

Definition RegisterDevice (msg : MsgRegisterDevice) : M State () :=
  address ← lift (Address.AccAddressFromBech32 DecodeAndConvert accPrefix (MsgAddress msg));
  SetDeviceMapping (DeviceId msg) address.

Definition ValidateBasic (msg : MsgRegisterDevice) : outcome () :=
  _ ← fail_if (String.eqb (Creator msg) "") "creator address cannot be empty";
  _ ← fail_if (String.eqb (DeviceId msg) "") "device ID cannot be empty";
  fail_if (String.eqb (MsgAddress msg) "") "mapped address cannot be empty".

Definition GetSigners (msg : MsgRegisterDevice) : outcome (list string) :=
  creator ← must (Address.AccAddressFromBech32 DecodeAndConvert accPrefix (Creator msg));
  Ok [creator].

(** ** Facts *)

Lemma device_key_inj a b : device_key a = device_key b → a = b.
Proof. apply Str.app_inj_l. Qed.

Lemma GetAddress_run d s :
  GetAddressFromDeviceID (Some d) s =
  (match s !! device_key d with Some b => Ok (addr_String b) 
   | None => Err ("device_id " +:+ d +:+ " not found") end, s).
Proof.
  unfold GetAddressFromDeviceID, GetDeviceAddress, mbind, M_bind, gets, lift, or_err.
  by destruct (s !! device_key d).
Qed.

(** The last registration of a device in a sequence of messages. *)
Fixpoint registered (d : string) (msgs : list MsgRegisterDevice) : option string :=
  match msgs with
  | [] => None
  | m :: rest =>
      match registered d rest with
      | Some a => Some a
      | None =>
          if String.eqb (DeviceId m) d then
            match Address.AccAddressFromBech32 DecodeAndConvert accPrefix (MsgAddress m) with
            | Ok a => Some a
            | _ => None
            end
          else None
      end
  end.

(** Deliver messages one by one; a failed one is discarded. *)
Fixpoint deliver (msgs : list MsgRegisterDevice) (s : State) : State :=
  match msgs with
  | [] => s
  | m :: rest => deliver rest (commit (RegisterDevice m) s).2
  end.

Lemma RegisterDevice_run m s :
  (commit (RegisterDevice m) s).2 =
  match Address.AccAddressFromBech32 DecodeAndConvert accPrefix (MsgAddress m) with
  | Ok a => <[device_key (DeviceId m) := a]> s
  | _ => s
  end.
Proof.
  unfold RegisterDevice, commit, mbind, M_bind, lift.
  by destruct (Address.AccAddressFromBech32 DecodeAndConvert accPrefix (MsgAddress m)).
Qed.

(** The device registry.  After any sequence of [MsgRegisterDevice],
    succeeding or not, querying a device answers the address of the last
    message that registered it with a valid address, falls back to what was
    stored before, and reports an unknown device as an error; devices do not
    interfere, and queries change nothing.  (The creator of a message plays no
    part: any signer can rebind any device.) *)
Theorem device_registry_correct (msgs : list MsgRegisterDevice) (s : State) (d : string) :
  GetAddressFromDeviceID (Some d) (deliver msgs s) =
  (match registered d msgs with
   | Some a => Ok (addr_String a)
   | None => (GetAddressFromDeviceID (Some d) s).1
   end, deliver msgs s).
Proof.
  revert s. induction msgs as [|m msgs IH]; intros s; cbn [deliver registered].
  - by rewrite GetAddress_run.
  - rewrite IH. destruct (registered d msgs) as [a|]; [done|]. f_equal.
    rewrite RegisterDevice_run, !GetAddress_run. cbn [fst].
    destruct (Address.AccAddressFromBech32 _ _ (MsgAddress m)) as [a|e|e];
      [|by destruct (String.eqb _ d)..].
    destruct (String.eqb_spec (DeviceId m) d) as [<-|Hne].
    + by rewrite lookup_insert_eq.
    + rewrite lookup_insert_ne; [done|]. intros E%device_key_inj. done.
Qed.
End mapping.
End Mapping.

Module LightTx.
Section light_tx.
(** [float64] values with [fmt.Sprintf("%f", x)]. *)
Context {Float : Type} (print_float : Float → string).

Record Location := mkLocation { Latitude : Float; Longitude : Float }.
Record SolarData := mkSolarData {
  DeviceId : string; Timestamp : string; TotalEnergy : Float; SolarLocation : option Location }.
Record RECMeta := mkRECMeta {
  FacilityId : string; FacilityName : string; MetaLocation : string; TechnologyType : string;
  CapacityMw : string; RegistrationDate : string; CertifiedId : string; IssueDate : string;
  GenerationStartDate : string; GenerationEndDate : string; MeasuredVolume_MWh : string;
  RetiredDate : string; RetirementPurpose : string; Status : string; MetaTimestamp : string }.

(** The oneof of [MsgSendLightTx]; the pointers inside can be nil. *)
Inductive Payload :=
  | Original (data : option SolarData)
  | Rec (data : option RECMeta).
Record MsgSendLightTx := mkMsgSendLightTx {
  Creator : string; payload : option Payload; Hash : string; Signature : string; Pubkey : string }.

Context (DecodeAndConvert : string → option (string * string)) (accPrefix : string).
(** [gogoproto.Marshal] of a [RECMeta] without generated code. *)
Context (Marshal : RECMeta → outcome string).

Record State := mkState { store : gmap string string; events : list Event }.

Definition EmitEvent (ty : string) (attrs : list (string * string)) : M State () :=
  modify (λ s, mkState (store s) (events s ++ [mkEvent ty ((λ x, (x.1, AStr x.2)) <$> attrs)])).

Definition meta_key (id : string) : string := "rec_meta" +:+ "/" +:+ id.

Definition SendLightTx (msg : MsgSendLightTx) : M State string :=
  _ ← match payload msg with
      | Some (Original data) =>
          d ← lift (or_panic data "nil pointer dereference");
          _ ← lift (or_panic (SolarLocation d) "nil pointer dereference");
          EmitEvent "light_tx_solar"
            [("creator", Creator msg); ("device_id", DeviceId d); ("hash", Hash msg);
             ("timestamp", Timestamp d); ("total_energy", print_float (TotalEnergy d))]
      | Some (Rec data) =>
          d ← lift (or_panic data "nil pointer dereference");
          bz ← lift (Marshal d);
          _ ← modify (λ s, mkState (<[meta_key (CertifiedId d) := bz]> (store s)) (events s));
          EmitEvent "light_tx_recmeta"
            [("creator", Creator msg); ("facility_id", FacilityId d);
             ("facility_name", FacilityName d); ("location", MetaLocation d);
             ("technology_type", TechnologyType d); ("capacity_mw", CapacityMw d);
             ("registration_date", RegistrationDate d); ("certified_id", CertifiedId d);
             ("issue_date", IssueDate d); ("generation_start", GenerationStartDate d);
             ("generation_end", GenerationEndDate d); ("measured_volume", MeasuredVolume_MWh d);
             ("retired_date", RetiredDate d); ("retirement_purpose", RetirementPurpose d);
             ("status", Status d); ("timestamp", MetaTimestamp d); ("hash", Hash msg);
             ("signature", Signature msg); ("pubkey", Pubkey msg)]
      | None => lift (Err "unknown payload type")
      end;
  mret "OK".

Definition ValidateBasic (msg : MsgSendLightTx) : outcome () :=
  _ ← match Address.AccAddressFromBech32 DecodeAndConvert accPrefix (Creator msg) with
      | Ok _ => Ok () | _ => Err "invalid creator address" end;
  _ ← match payload msg with
      | Some (Original d) => fail_if (if d is None then true else false) "original solar data is nil"
      | Some (Rec d) => fail_if (if d is None then true else false) "REC metadata is nil"
      | None => Err "either SolarData or RECMeta must be provided"
      end;
  _ ← fail_if (String.eqb (Signature msg) "") "signature is required";
  fail_if (String.eqb (Pubkey msg) "") "pubkey is required".

Definition GetSigners (msg : MsgSendLightTx) : outcome (list string) :=
  creator ← must (Address.AccAddressFromBech32 DecodeAndConvert accPrefix (Creator msg)); Ok [creator].

(** ** What a valid message does *)

(** The attributes under which the event of a message identifies it. *)
Definition attr_of (name : string) (e : Event) : list attr :=
  snd <$> filter (λ x, x.1 = name) (ev_attrs e).

Definition failed {A} (r : outcome A * State) (s : State) : Prop := is_ok r.1 = false ∧ r.2 = s.

Lemma emitted ty attrs s :
  EmitEvent ty attrs s =
  (Ok (), mkState (store s) (events s ++ [mkEvent ty ((λ x, (x.1, AStr x.2)) <$> attrs)])).
Proof. done. Qed.

(** The intake of light transactions, for messages that pass
    [ValidateBasic].  Solar data leaves the store alone and succeeds exactly
    when it carries a location: without one (which [ValidateBasic] does not
    check) the handler panics before doing anything.  A certificate succeeds
    exactly when it can be encoded, is stored under its own certified id and
    under no other key, and replaces an earlier one.  Every success appends
    one event, with the creator and the hash of the message; every failure
    leaves the state as it was. *)
Theorem SendLightTx_correct (msg : MsgSendLightTx) (s : State) :
  ValidateBasic msg = Ok () →
  match payload msg with
  | Some (Original (Some d)) =>
      match SolarLocation d with
      | None => SendLightTx msg s = (Panic "nil pointer dereference", s)
      | Some _ => ∃ e, SendLightTx msg s = (Ok "OK", mkState (store s) (events s ++ [e])) ∧
          ev_type e = "light_tx_solar" ∧ attr_of "creator" e = [AStr (Creator msg)] ∧
          attr_of "hash" e = [AStr (Hash msg)] ∧ attr_of "device_id" e = [AStr (DeviceId d)]
      end
  | Some (Rec (Some d)) =>
      match Marshal d with
      | Ok bz => ∃ e, SendLightTx msg s =
            (Ok "OK", mkState (<[meta_key (CertifiedId d) := bz]> (store s)) (events s ++ [e])) ∧
          ev_type e = "light_tx_recmeta" ∧ attr_of "creator" e = [AStr (Creator msg)] ∧
          attr_of "hash" e = [AStr (Hash msg)] ∧ attr_of "certified_id" e = [AStr (CertifiedId d)] ∧
          ∀ d', CertifiedId d' ≠ CertifiedId d →
            (SendLightTx msg s).2.(store) !! meta_key (CertifiedId d') =
            store s !! meta_key (CertifiedId d')
      | _ => failed (SendLightTx msg s) s
      end
  | _ => False
  end.
Proof.
  intros (u & _ & (u1 & Hp & _)%bind_Ok)%bind_Ok.
  destruct msg as [cr [[[d|]|[d|]]|] h sg pk]; cbn [payload Creator Hash] in *; try discriminate Hp.
  - destruct d as [dev ts en [l|]]; cbn [SolarLocation].
    + eexists. unfold SendLightTx, mbind, M_bind, lift, or_panic. cbn [payload SolarLocation].
      rewrite emitted. split; [reflexivity|]. done.
    + reflexivity.
  - unfold SendLightTx, mbind, M_bind, lift, or_panic, modify. cbn [payload].
    destruct (Marshal d) as [bz|e|e] eqn:Hm; [|done..].
    eexists. rewrite emitted. split; [reflexivity|]. split_and!; [done..|].
    intros d' Hd. cbn. apply lookup_insert_ne. intros E%Str.app_inj_l%Str.app_inj_l. by symmetry in E.
Qed.
End light_tx.

(** A message carrying a certificate, with a toy address text and encoding. *)
Definition demo_meta : RECMeta :=
  mkRECMeta "F1" "Plant" "Seoul" "solar" "5" "2024" "CERT-1" "2024" "a" "b" "10" "" "" "active" "t".
Definition demo_msg : MsgSendLightTx (Float := Z) :=
  mkMsgSendLightTx "alice" (Some (Rec (Some demo_meta))) "h" "sig" "pk".
Definition demo_decode (t : string) : option (string * string) :=
  if String.eqb t "" then None else Some ("cosmos", t).

Lemma SendLightTx_correct_witness :
  ∃ e, SendLightTx (λ _, "0.0") (λ d, Ok (CertifiedId d)) demo_msg (mkState ∅ []) =
       (Ok "OK", mkState {["rec_meta/CERT-1" := "CERT-1"]} [e]) ∧
       ev_type e = "light_tx_recmeta".
Proof.
  destruct (SendLightTx_correct (λ _, "0.0") demo_decode "cosmos" (λ d, Ok (CertifiedId d))
    demo_msg (mkState ∅ []) ltac:(vm_compute; reflexivity)) as (e & He & Ht & _).
  exists e. split; [exact He|exact Ht].
Defined.
End LightTx.
