(* ===== verification/Context.v ===== *)
(** * The context of a transaction

    The parts of [sdk.Context] the ante handler works on: the state of x/auth
    and x/bank, the store of the fee grants, and the gas meter.  The keepers
    run inside it. *)

From Stdlib Require Import ZArith Lia Ascii String.
From stdpp Require Import base tactics option list gmap strings.
From S2P Require Import Prelude GoStd Digits SdkInt Coin MultiSig Chain Gas.

Local Open Scope Z_scope.

Record Ctx (G : Type) := mkCtx { chain : Chain; grants : G; gasMeter : Gas.GasMeter }.
Arguments mkCtx {G} _ _ _.
Arguments chain {G} _.
Arguments grants {G} _.
Arguments gasMeter {G} _.

Section context.
Context {G : Type}.

Definition on_chain {A} : M Chain A → M (Ctx G) A :=
  zoom chain (λ c x, mkCtx c (grants x) (gasMeter x)).
Definition on_grants {A} : M G A → M (Ctx G) A :=
  zoom grants (λ g x, mkCtx (chain x) g (gasMeter x)).
(** [ctx.GasMeter().ConsumeGas]. *)
Definition ConsumeGas (amount : Z) : M (Ctx G) () :=
  zoom gasMeter (λ m x, mkCtx (chain x) (grants x) m) (Gas.ConsumeGas amount).
Definition WithGasMeter (m : Gas.GasMeter) (x : Ctx G) : Ctx G := mkCtx (chain x) (grants x) m.

(** What a successful step does, component by component. *)
Lemma on_chain_Ok {A} (m : M Chain A) x a x' : on_chain m x = (Ok a, x') →
  ∃ c, m (chain x) = (Ok a, c) ∧ x' = mkCtx c (grants x) (gasMeter x).
Proof. unfold on_chain, zoom. destruct (m (chain x)) as [o c] eqn:E. intros [= -> <-]. eauto. Qed.

Lemma on_grants_Ok {A} (m : M G A) x a x' : on_grants m x = (Ok a, x') →
  ∃ g, m (grants x) = (Ok a, g) ∧ x' = mkCtx (chain x) g (gasMeter x).
Proof. unfold on_grants, zoom. destruct (m (grants x)) as [o c] eqn:E. intros [= -> <-]. eauto. Qed.

Lemma ctx_gas_Ok n x u x' : ConsumeGas n x = (Ok u, x') →
  ∃ g, Gas.ConsumeGas n (gasMeter x) = (Ok (), g) ∧ x' = WithGasMeter g x.
Proof.
  unfold ConsumeGas, zoom. destruct (Gas.ConsumeGas n (gasMeter x)) as [o c]. intros [= -> <-].
  destruct u. by exists c.
Qed.
End context.
