(* ===== verification/Feegrant.v ===== *)
(** * x/feegrant: allowances to pay fees from another account

    The three kinds of allowance, the keeper, the message server and genesis.
    An allowance travels in a protobuf [Any], which has the encoded value and,
    beside it, the decoded one; methods work on the decoded value, encoding an
    outer message copies the inner [Any]'s bytes.  The bytes are represented by
    what they decode to.  Times are in nanoseconds; which of them protobuf can
    encode is a parameter.  The gas of store accesses is charged by the
    caller. *)

From Stdlib Require Import ZArith Lia Ascii String.
From stdpp Require Import base tactics option list gmap strings.
From S2P Require Import Prelude GoStd Digits SdkInt Coin MultiSig Chain Bank Store Gas Context.

Local Open Scope Z_scope.

Module Feegrant.

(** ** Allowances *)

(** A limit that is nil does not bind. *)
Record BasicAllowance := mkBasic { SpendLimit : option (list Coin); Expiration : option Z }.

Record PeriodicAllowance := mkPeriodic {
  p_Basic : BasicAllowance; Period : Z; PeriodSpendLimit : list Coin; PeriodCanSpend : list Coin;
  PeriodReset : Z }.

(** An [AllowedMsgAllowance] has an [Any]: [value] is its encoded value ([None]
    for a nil [Any]) and [cached] the decoded one. *)
#[warnings="-register-all"]
Inductive FeeAllowanceI :=
  | Basic (b : BasicAllowance)
  | Periodic (p : PeriodicAllowance)
  | AllowedMsg (value cached : option FeeAllowanceI) (AllowedMessages : list string).

Definition expired (e : option Z) (blockTime : Z) : bool :=
  match e with Some e => e <? blockTime | None => false end.

(** The results of [Accept]: whether to remove the grant, the error, and the
    allowance as the method leaves it. *)
Definition BasicAllowance_Accept (a : BasicAllowance) (blockTime : Z) (fee : list Coin)
    : outcome (bool * option string * BasicAllowance) :=
  if expired (Expiration a) blockTime then Ok (true, Some "fee limit expired: basic allowance", a)
  else
    match SpendLimit a with
    | Some limit =>
        '(left_, invalid) ← Coins.SafeSub limit fee;
        if invalid : bool then Ok (false, Some "fee limit exceeded: basic allowance", a)
        else Ok (Coins.IsZero left_, None, mkBasic (Some left_) (Expiration a))
    | None => Ok (false, None, a)
    end.

Definition tryResetPeriod (a : PeriodicAllowance) (blockTime : Z) : outcome PeriodicAllowance :=
  if blockTime <? PeriodReset a then Ok a
  else
    let limit := default [] (SpendLimit (p_Basic a)) in
    '(_, isNeg) ← Coins.SafeSub limit (PeriodSpendLimit a);
    let canSpend := if isNeg && negb (Coins.Empty limit) then limit else PeriodSpendLimit a in
    let reset := PeriodReset a + Period a in
    let reset := if reset <? blockTime then blockTime + Period a else reset in
    Ok (mkPeriodic (p_Basic a) (Period a) (PeriodSpendLimit a) canSpend reset).

Definition with_CanSpend (c : list Coin) (a : PeriodicAllowance) : PeriodicAllowance :=
  mkPeriodic (p_Basic a) (Period a) (PeriodSpendLimit a) c (PeriodReset a).
Definition with_SpendLimit (l : list Coin) (a : PeriodicAllowance) : PeriodicAllowance :=
  mkPeriodic (mkBasic (Some l) (Expiration (p_Basic a))) (Period a) (PeriodSpendLimit a)
    (PeriodCanSpend a) (PeriodReset a).

Definition PeriodicAllowance_Accept (a : PeriodicAllowance) (blockTime : Z) (fee : list Coin)
    : outcome (bool * option string * PeriodicAllowance) :=
  if expired (Expiration (p_Basic a)) blockTime then Ok (true, Some "fee limit expired: absolute limit", a)
  else
    a ← tryResetPeriod a blockTime;
    '(canSpend, isNeg) ← Coins.SafeSub (PeriodCanSpend a) fee;
    let a := with_CanSpend canSpend a in
    if isNeg : bool then Ok (false, Some "fee limit exceeded: period limit", a)
    else
      match SpendLimit (p_Basic a) with
      | Some limit =>
          '(left_, isNeg) ← Coins.SafeSub limit fee;
          let a := with_SpendLimit left_ a in
          if isNeg : bool then Ok (false, Some "fee limit exceeded: absolute limit", a)
          else Ok (Coins.IsZero left_, None, a)
      | None => Ok (false, None, a)
      end.

Definition gasCostPerIteration : Z := 10.

(** One charge per allowed message, then one per message up to the first that
    is not allowed. *)
Fixpoint msgs_allowed (allowed urls : list string) : M Gas.GasMeter bool :=
  match urls with
  | [] => mret true
  | url :: urls =>
      _ ← Gas.ConsumeGas gasCostPerIteration;
      if existsb (String.eqb url) allowed then msgs_allowed allowed urls else mret false
  end.

Definition allMsgTypesAllowed (allowed urls : list string) : M Gas.GasMeter bool :=
  _ ← for_each (λ _, Gas.ConsumeGas gasCostPerIteration) allowed;
  msgs_allowed allowed urls.

Fixpoint Accept (a : FeeAllowanceI) (blockTime : Z) (fee : list Coin) (urls : list string)
    : M Gas.GasMeter (bool * option string * FeeAllowanceI) :=
  match a with
  | Basic b => '(remove, err, b) ← lift (BasicAllowance_Accept b blockTime fee); mret (remove, err, Basic b)
  | Periodic p => '(remove, err, p) ← lift (PeriodicAllowance_Accept p blockTime fee); mret (remove, err, Periodic p)
  | AllowedMsg value cached allowed =>
      ok ← allMsgTypesAllowed allowed urls;
      if negb ok then mret (false, Some "message does not exist in allowed messages", a)
      else
        match value, cached with
        | None, _ => lift (Panic "nil pointer dereference")
        | Some _, None => mret (false, Some "failed to get allowance", a)
        | Some _, Some inner =>
            '(remove, err, inner) ← Accept inner blockTime fee urls;
            mret (remove, err, AllowedMsg value (Some inner) allowed)
        end
  end.

Definition BasicAllowance_ValidateBasic (a : BasicAllowance) : outcome () :=
  _ ← match SpendLimit a with
      | Some limit =>
          _ ← fail_if (negb (Coins.IsValid limit)) "send amount is invalid";
          fail_if (negb (Coins.IsAllPositive limit)) "spend limit must be positive"
      | None => Ok ()
      end;
  fail_if (match Expiration a with Some e => e / 10 ^ 9 <? 0 | None => false end)
    "expiration time cannot be negative".

Definition PeriodicAllowance_ValidateBasic (a : PeriodicAllowance) : outcome () :=
  _ ← BasicAllowance_ValidateBasic (p_Basic a);
  _ ← fail_if (negb (Coins.IsValid (PeriodSpendLimit a))) "spend amount is invalid";
  _ ← fail_if (negb (Coins.IsAllPositive (PeriodSpendLimit a))) "spend limit must be positive";
  _ ← fail_if (negb (Coins.IsValid (PeriodCanSpend a))) "can spend amount is invalid";
  _ ← fail_if (Coins.IsAnyNegative (PeriodCanSpend a)) "can spend must not be negative";
  _ ← match SpendLimit (p_Basic a) with
      | Some limit =>
          b ← Coins.DenomsSubsetOf (PeriodSpendLimit a) limit;
          fail_if (negb b) "period spend limit has different currency than basic spend limit"
      | None => Ok ()
      end;
  fail_if (Period a <? 0) "negative clock step".

Fixpoint Allowance_ValidateBasic (a : FeeAllowanceI) : outcome () :=
  match a with
  | Basic b => BasicAllowance_ValidateBasic b
  | Periodic p => PeriodicAllowance_ValidateBasic p
  | AllowedMsg value cached allowed =>
      _ ← fail_if (match value with None => true | _ => false end) "allowance should not be empty";
      _ ← fail_if (length allowed =? 0)%nat "allowed messages shouldn't be empty";
      match cached with
      | None => Err "failed to get allowance"
      | Some inner => Allowance_ValidateBasic inner
      end
  end.

(** ** Encoding *)

Section encoding.
(** Whether [StdTimeMarshal] accepts a time. *)
Context (time_fits : Z → bool).

(** What the encoded form decodes to: an empty repeated field comes back as
    nil. *)
Definition encode_Basic (b : BasicAllowance) : outcome BasicAllowance :=
  _ ← fail_if (match Expiration b with Some e => negb (time_fits e) | None => false end) "bad timestamp";
  Ok (mkBasic (match SpendLimit b with Some [] => None | l => l end) (Expiration b)).

Definition encode (a : FeeAllowanceI) : outcome FeeAllowanceI :=
  match a with
  | Basic b => Basic <$> encode_Basic b
  | Periodic p =>
      b ← encode_Basic (p_Basic p);
      _ ← fail_if (negb (time_fits (PeriodReset p))) "bad timestamp";
      Ok (Periodic (mkPeriodic b (Period p) (PeriodSpendLimit p) (PeriodCanSpend p) (PeriodReset p)))
  | AllowedMsg value _ allowed => Ok (AllowedMsg value None allowed)
  end.
End encoding.

(** Decoding also decodes the inner [Any] ([UnpackInterfaces]). *)
Fixpoint unpack (a : FeeAllowanceI) : FeeAllowanceI :=
  match a with
  | AllowedMsg value _ allowed =>
      AllowedMsg value (match value with Some v => Some (unpack v) | None => None end) allowed
  | _ => a
  end.

(** ** The keeper *)

(** A stored grant; [g_Allowance] is the encoded allowance. *)
Record Grant := mkGrant { Granter : string; Grantee : string; g_Allowance : FeeAllowanceI }.

Definition FeeAllowanceKeyPrefix : string := String (byteN 0) "".
Definition FeeAllowancePrefixByGrantee (grantee : string) : outcome string :=
  p ← MustLengthPrefix grantee; Ok (FeeAllowanceKeyPrefix +:+ p).
Definition FeeAllowanceKey (granter grantee : string) : outcome string :=
  p ← FeeAllowancePrefixByGrantee grantee;
  q ← MustLengthPrefix granter;
  Ok (p +:+ q).

Abbreviation Grants := (gmap string Grant).

Section keeper.
Context {Msg : Type} (MsgTypeURL : Msg → string).
Context (addr_String : string → string) (AccAddressFromBech32 : string → outcome string).
Context (time_fits : Z → bool).

Definition grant_event (ty granter grantee : string) : Event :=
  mkEvent ty [("granter", AStr granter); ("grantee", AStr grantee)].
Definition emit (e : Event) : M (Ctx Grants) () := on_chain (EmitEvent e).

Definition NewGrant (granter grantee : string) (feeAllowance : FeeAllowanceI) : outcome Grant :=
  any ← encode time_fits feeAllowance;
  Ok (mkGrant (addr_String granter) (addr_String grantee) any).

Definition GrantAllowance (granter grantee : string) (feeAllowance : FeeAllowanceI) : M (Ctx Grants) () :=
  granteeAcc ← on_chain (GetAccount grantee);
  _ ← match granteeAcc with
      | None => acc ← on_chain (NewAccountWithAddress grantee); on_chain (SetAccount acc)
      | Some _ => mret ()
      end;
  key ← lift (FeeAllowanceKey granter grantee);
  grant ← lift (NewGrant granter grantee feeAllowance);
  _ ← on_grants (modify (<[key := grant]>));
  emit (grant_event "set_feegrant" (Granter grant) (Grantee grant)).

Definition getGrant (granter grantee : string) : M (Ctx Grants) Grant :=
  key ← lift (FeeAllowanceKey granter grantee);
  g ← on_grants (gets (λ m, m !! key));
  lift (or_err g "fee-grant not found").

Definition GetAllowance (granter grantee : string) : M (Ctx Grants) FeeAllowanceI :=
  grant ← getGrant granter grantee;
  mret (unpack (g_Allowance grant)).

Definition revokeAllowance (granter grantee : string) : M (Ctx Grants) () :=
  _ ← getGrant granter grantee;
  key ← lift (FeeAllowanceKey granter grantee);
  _ ← on_grants (modify (delete key));
  emit (grant_event "revoke_feegrant" (addr_String granter) (addr_String grantee)).

(** A call whose error is dropped. *)
Definition ignore_err {S} (m : M S ()) : M S () := λ s,
  match m s with (Err _, s') => (Ok (), s') | r => r end.

Definition UseGrantedFees (granter grantee : string) (fee : list Coin) (msgs : list Msg) : M (Ctx Grants) () :=
  grant ← GetAllowance granter grantee;
  blockTime ← gets (λ x, blockTime (chain x));
  '(remove, err, grant) ← zoom gasMeter (λ g x, WithGasMeter g x)
                            (Accept grant blockTime fee (map MsgTypeURL msgs));
  if remove : bool then
    _ ← ignore_err (revokeAllowance granter grantee);
    match err with
    | Some e => lift (Err e)
    | None => emit (grant_event "use_feegrant" (addr_String granter) (addr_String grantee))
    end
  else
    match err with
    | Some e => lift (Err e)
    | None =>
        _ ← emit (grant_event "use_feegrant" (addr_String granter) (addr_String grantee));
        GrantAllowance granter grantee grant
    end.

(** ** Genesis *)

Definition InitGenesis (allowances : list Grant) : M (Ctx Grants) () :=
  for_each (λ f,
    granter ← lift (AccAddressFromBech32 (Granter f));
    grantee ← lift (AccAddressFromBech32 (Grantee f));
    GrantAllowance granter grantee (unpack (g_Allowance f))) allowances.

(** [IterateAllFeeAllowances] with the callback that collects. *)
Definition ExportGenesis : M (Ctx Grants) (list Grant) :=
  on_grants (gets (λ m, map snd (Store.KVStorePrefixIterator m FeeAllowanceKeyPrefix))).

Definition ValidateGenesis (allowances : list Grant) : outcome () :=
  fold_out (λ _ f, Allowance_ValidateBasic (unpack (g_Allowance f))) () allowances.

(** ** Messages *)

(** The allowance of a decoded message is unpacked; [None] when it is not
    one. *)
Record MsgGrantAllowance := mkMsgGrantAllowance {
  mg_Granter : string; mg_Grantee : string; mg_Allowance : option FeeAllowanceI }.
Record MsgRevokeAllowance := mkMsgRevokeAllowance { mr_Granter : string; mr_Grantee : string }.

Definition check_pair (granter grantee e : string) : outcome () :=
  _ ← fail_if (String.eqb granter "") "missing granter address";
  _ ← fail_if (String.eqb grantee "") "missing grantee address";
  fail_if (String.eqb grantee granter) e.

Definition GetFeeAllowanceI (msg : MsgGrantAllowance) : outcome FeeAllowanceI :=
  or_err (mg_Allowance msg) "failed to get allowance".

Definition MsgGrantAllowance_ValidateBasic (msg : MsgGrantAllowance) : outcome () :=
  _ ← check_pair (mg_Granter msg) (mg_Grantee msg) "cannot self-grant fee authorization";
  allowance ← GetFeeAllowanceI msg;
  Allowance_ValidateBasic allowance.
Definition MsgRevokeAllowance_ValidateBasic (msg : MsgRevokeAllowance) : outcome () :=
  check_pair (mr_Granter msg) (mr_Grantee msg) "addresses must be different".

Definition MsgGrantAllowance_GetSigners (msg : MsgGrantAllowance) : outcome (list string) :=
  granter ← must (AccAddressFromBech32 (mg_Granter msg)); Ok [granter].
Definition MsgRevokeAllowance_GetSigners (msg : MsgRevokeAllowance) : outcome (list string) :=
  granter ← must (AccAddressFromBech32 (mr_Granter msg)); Ok [granter].

(** The lookup's error is dropped. *)
Definition has_allowance (granter grantee : string) : M (Ctx Grants) bool := λ x,
  match GetAllowance granter grantee x with
  | (Ok _, x') => (Ok true, x')
  | (Err _, x') => (Ok false, x')
  | (Panic e, x') => (Panic e, x')
  end.

Definition msg_GrantAllowance (msg : MsgGrantAllowance) : M (Ctx Grants) () :=
  grantee ← lift (AccAddressFromBech32 (mg_Grantee msg));
  granter ← lift (AccAddressFromBech32 (mg_Granter msg));
  dup ← has_allowance granter grantee;
  _ ← lift (fail_if dup "fee allowance already exists");
  allowance ← lift (GetFeeAllowanceI msg);
  GrantAllowance granter grantee allowance.

Definition msg_RevokeAllowance (msg : MsgRevokeAllowance) : M (Ctx Grants) () :=
  grantee ← lift (AccAddressFromBech32 (mr_Grantee msg));
  granter ← lift (AccAddressFromBech32 (mr_Granter msg));
  revokeAllowance granter grantee.

End keeper.
End Feegrant.
