(* ===== verification/Ante.v ===== *)
(** * The ante handler: x/auth/ante, types/handler.go, x/auth/types/params.go

    The decorators that check a transaction before its messages run, each
    calling the next one, chained in the order of ante.go.  The transaction is
    the wrapper of x/auth/tx, so the type assertions of the decorators hold.

    Parameters: verifying with a plain key, the address of a key, the bytes to
    sign, the bech32 text of addresses and the signers of a message; the amino
    length of a mock signature (used when simulating); and what the store
    accesses of a keeper call cost, which depends on stored encodings.  That
    cost is charged when the call is made. *)

From Stdlib Require Import ZArith Lia Ascii String.
From stdpp Require Import base tactics option list gmap strings.
From S2P Require Import Prelude GoStd Digits SdkInt Decimal Coin DecCoin MultiSig Chain Bank Wire Gas Tx BaseApp Context.

Local Open Scope Z_scope.

Module Ante.
Import BitArray MultiSig.

(** ** Parameters of x/auth *)

Record Params := mkParams {
  MaxMemoCharacters : Z; TxSigLimit : Z; TxSizeCostPerByte : Z;
  par_SigVerifyCostED25519 : Z; SigVerifyCostSecp256k1 : Z }.

Definition NewParams (maxMemo txSigLimit txSizeCost costED costSecp : Z) : Params :=
  mkParams maxMemo txSigLimit txSizeCost costED costSecp.
Definition DefaultParams : Params := NewParams 256 7 10 590 1000.
Definition SigVerifyCostSecp256r1 (p : Params) : Z := SigVerifyCostSecp256k1 p / 2.

Definition Params_Validate (p : Params) : outcome () :=
  _ ← fail_if (TxSigLimit p =? 0) "invalid tx signature limit";
  _ ← fail_if (par_SigVerifyCostED25519 p =? 0) "invalid ED25519 signature verification cost";
  _ ← fail_if (SigVerifyCostSecp256k1 p =? 0) "invalid SECK256k1 signature verification cost";
  _ ← fail_if (MaxMemoCharacters p =? 0) "invalid max memo characters";
  fail_if (TxSizeCostPerByte p =? 0) "invalid tx size cost per byte".

(** ** Signature data *)

Fixpoint isIncompleteSignature (data : SignatureData) : bool :=
  match data with
  | NoData => true
  | SingleSignatureData _ sig => String.eqb sig ""
  | MultiSignatureData _ sigs =>
      match sigs with [] => true | _ => existsb isIncompleteSignature sigs end
  end.

Fixpoint OnlyLegacyAminoSigners (sigData : SignatureData) : bool :=
  match sigData with
  | SingleSignatureData mode _ => mode =? SIGN_MODE_LEGACY_AMINO_JSON
  | MultiSignatureData _ sigs => forallb OnlyLegacyAminoSigners sigs
  | NoData => false
  end.

Fixpoint CountSubKeys (pub : PubKey) : Z :=
  match pub with
  | LegacyAminoPubKey _ keys => foldr Z.add 0 (map CountSubKeys keys)
  | _ => 1
  end.

(** [sigs = append(sigs, nestedSigs...)] over the nested data. *)
Fixpoint concat_out {A} (l : list (outcome (list A))) : outcome (list A) :=
  match l with
  | [] => Ok []
  | o :: l => x ← o; y ← concat_out l; Ok (x ++ y)
  end.

Fixpoint signatureDataToBz (data : SignatureData) : outcome (list string) :=
  match data with
  | NoData => Err "got empty SignatureData"
  | SingleSignatureData _ sig => Ok [sig]
  | MultiSignatureData _ datas =>
      sigs ← concat_out (map signatureDataToBz datas);
      aggregatedSig ← Tx.MultiSignature_Marshal (Tx.mkMultiSignature sigs "");
      Ok (sigs ++ [aggregatedSig])
  end.

(** ** Gas of signature verification *)

(** The loop over the bits; [consume] has one consumer per key. *)
Fixpoint multisig_gas (bA : option CompactBitArray) (n : nat) (i : Z)
    (consume : list (SignatureData → M Gas.GasMeter ())) (sigs : list SignatureData)
    : M Gas.GasMeter () :=
  match n with
  | O => mret ()
  | S n =>
      b ← lift (GetIndex bA i);
      if b : bool then
        c ← lift (or_panic (consume !! Z.to_nat i) "index out of range");
        match sigs with
        | [] => lift (Panic "index out of range")
        | data :: sigs => _ ← c data; multisig_gas bA n (i + 1) consume sigs
        end
      else multisig_gas bA n (i + 1) consume sigs
  end.

Definition ConsumeMultisignatureVerificationGas (bA : option CompactBitArray)
    (sigs : list SignatureData) (consume : list (SignatureData → M Gas.GasMeter ())) : M Gas.GasMeter () :=
  multisig_gas bA (Z.to_nat (Count bA)) 0 consume sigs.

Fixpoint key_gas (p : Params) (pubkey : PubKey) (data : SignatureData) : M Gas.GasMeter () :=
  match pubkey with
  | ed25519_PubKey _ =>
      _ ← Gas.ConsumeGas (par_SigVerifyCostED25519 p);
      lift (Err "ED25519 public keys are unsupported")
  | secp256k1_PubKey _ => Gas.ConsumeGas (SigVerifyCostSecp256k1 p)
  | secp256r1_PubKey _ => Gas.ConsumeGas (SigVerifyCostSecp256r1 p)
  | LegacyAminoPubKey _ keys =>
      match data with
      | MultiSignatureData bA sigs =>
          ConsumeMultisignatureVerificationGas bA sigs (map (key_gas p) keys)
      | _ => lift (Err "expected MultiSignatureData")
      end
  | other_PubKey _ => lift (Err "unrecognized public key type")
  end.

Definition DefaultSigVerificationGasConsumer (sig : Tx.SignatureV2) (p : Params) : M Gas.GasMeter () :=
  match Tx.sv_PubKey sig with
  | None => lift (Err "unrecognized public key type")
  | Some pubkey => key_gas p pubkey (Tx.sv_Data sig)
  end.

(** ** Decorators *)

(** The calls of a keeper whose store accesses are charged. *)
Inductive call :=
  | CGetParams
  | CGetAccount (addr : string)
  | CSetAccount (acc : Account)
  | CUseGrantedFees (granter grantee : string) (fee : list Coin)
  | CSend (from : string) (fee : list Coin).

Record SignerData := mkSignerData { sd_ChainID : string; sd_AccountNumber : Z; sd_Sequence : Z }.

(** What the node and the chain fix: the local minimum gas prices, the chain
    id and the parameters. *)
Record Env := mkEnv { MinGasPrices : list DecCoin; ChainID : string; params : Params }.

Definition FeeCollectorName : string := "fee_collector".

Section ante.
Context {G Msg : Type}.
Context (cfg : Config) (addr_String : string → string).
Context (AccAddressFromBech32 : string → outcome string).
Context (msg_GetSigners : Msg → outcome (list string)).
Context (pk_Address : PubKey → outcome string).
Context (plain_verify : PubKey → string → string → bool).
Context (GetSignBytes : Z → SignerData → Tx.Tx Msg → outcome string).
Context (simSecp256k1Pubkey : PubKey) (simSig_len : PubKey → Z).
(** [FeegrantKeeper.UseGrantedFees]; the keeper may be nil. *)
Context (feegrantKeeper : option (string → string → list Coin → list Msg → M (Ctx G) ())).
Context (store_gas : call → Ctx G → Z).
Context (env : Env) (tc : BaseApp.TxContext).
Implicit Types (tx : Tx.Tx Msg) (simulate : bool) (next : M (Ctx G) ()).

Abbreviation GetSigners := (Tx.GetSigners msg_GetSigners AccAddressFromBech32 addr_String).

Definition charged {A} (c : call) (m : M (Ctx G) A) : M (Ctx G) A :=
  cost ← gets (store_gas c);
  _ ← ConsumeGas cost;
  m.

Definition GetParams : M (Ctx G) Params := charged CGetParams (mret (params env)).
Definition getAccount (addr : string) : M (Ctx G) (option Account) :=
  charged (CGetAccount addr) (on_chain (GetAccount addr)).
Definition setAccount (acc : Account) : M (Ctx G) () :=
  charged (CSetAccount acc) (on_chain (SetAccount acc)).

Definition GetSignerAcc (addr : string) : M (Ctx G) Account :=
  acc ← getAccount addr;
  lift (or_err acc "account does not exist").

(** [SetPubKey] is refused by module accounts. *)
Definition SetPubKey (acc : Account) (pk : PubKey) : outcome Account :=
  match acc_module acc with
  | Some _ => Err "not supported for module accounts"
  | None => Ok (mkAccount (acc_address acc) (acc_number acc) (acc_module acc) (acc_vesting acc)
                  (Some pk) (acc_sequence acc))
  end.

Definition SetSequence (acc : Account) (seq : Z) : Account :=
  mkAccount (acc_address acc) (acc_number acc) (acc_module acc) (acc_vesting acc) (acc_pubkey acc) seq.

(** *** setup.go *)

Definition SetGasMeter simulate (gasLimit : Z) (ctx : Ctx G) : Ctx G :=
  if simulate || (blockHeight (chain ctx) =? 0)
  then WithGasMeter Gas.NewInfiniteGasMeter ctx
  else WithGasMeter (Gas.NewGasMeter gasLimit) ctx.

(** The deferred function: a panic for lack of gas becomes an error. *)
Definition recover_gas (m : M (Ctx G) ()) : M (Ctx G) () := λ ctx,
  match m ctx with
  | (Panic e, ctx') => (if String.eqb e "ErrorOutOfGas" then Err "out of gas" else Panic e, ctx')
  | r => r
  end.

Definition SetUpContextDecorator tx simulate next : M (Ctx G) () :=
  gas ← lift (Tx.GetGas tx);
  _ ← modify (SetGasMeter simulate gas);
  recover_gas next.

(** *** ext.go *)

Definition RejectExtensionOptionsDecorator tx simulate next : M (Ctx G) () :=
  b ← lift (Tx.body tx);
  _ ← lift (fail_if (negb (length (Tx.ExtensionOptions b) =? 0)%nat) "unknown extension options");
  next.

(** *** fee.go *)

Definition requiredFee (glDec : Z) (gp : DecCoin) : outcome Coin :=
  fee ← Dec.Mul (Amount gp) glDec;
  c ← Dec.Ceil fee;
  i ← Dec.RoundInt c;
  Coin1.NewCoin (Denom gp) i.

Fixpoint requiredFees_loop (glDec : Z) (gps : list DecCoin) : outcome (list Coin) :=
  match gps with
  | [] => Ok []
  | gp :: gps => c ← requiredFee glDec gp; cs ← requiredFees_loop glDec gps; Ok (c :: cs)
  end.

Definition requiredFees (gas : Z) : outcome (list Coin) :=
  glDec ← Dec.NewDec (wrap64 gas);
  requiredFees_loop glDec (MinGasPrices env).

Definition MempoolFeeDecorator tx simulate next : M (Ctx G) () :=
  feeCoins ← lift (Tx.GetFee tx);
  gas ← lift (Tx.GetGas tx);
  _ ← (if BaseApp.IsCheckTx tc && negb simulate && negb (DecCoins.IsZero (MinGasPrices env)) then
         required ← lift (requiredFees gas);
         ok ← lift (Coins.IsAnyGTE feeCoins required);
         lift (fail_if (negb ok) "insufficient fees")
       else mret ());
  next.

(** *** basic.go *)

Definition ValidateBasicDecorator tx simulate next : M (Ctx G) () :=
  if BaseApp.IsReCheckTx tc then next
  else
    _ ← lift (Tx.ValidateBasic msg_GetSigners AccAddressFromBech32 addr_String tx);
    next.

Definition TxTimeoutHeightDecorator tx simulate next : M (Ctx G) () :=
  timeoutHeight ← lift (Tx.GetTimeoutHeight tx);
  height ← gets (λ ctx, blockHeight (chain ctx));
  _ ← lift (fail_if ((0 <? timeoutHeight) && (timeoutHeight <? wrapu64 height)) "tx timeout height");
  next.

Definition ValidateMemoDecorator tx simulate next : M (Ctx G) () :=
  p ← GetParams;
  memo ← lift (Tx.GetMemo tx);
  _ ← lift (fail_if (MaxMemoCharacters p <? Wire.slen memo) "memo too large");
  next.

(** The gas of one signature that is not filled in yet. *)
Definition sim_sig_gas (p : Params) (sig : option Tx.SignatureV2) (signer : string) : M (Ctx G) () :=
  if match sig with Some s => negb (isIncompleteSignature (Tx.sv_Data s)) | None => false end then mret ()
  else
    acc ← getAccount signer;
    let pubkey := default simSecp256k1Pubkey (acc ≫= acc_pubkey) in
    let cost := wrapu64 (simSig_len pubkey + 6) in
    let cost := match pubkey with
                | LegacyAminoPubKey _ _ => wrapu64 (cost * TxSigLimit p)
                | _ => cost
                end in
    ConsumeGas (wrapu64 (TxSizeCostPerByte p * cost)).

Fixpoint sim_sigs_gas (p : Params) (sigs : list Tx.SignatureV2) (signers : list string) : M (Ctx G) () :=
  match signers with
  | [] => mret ()
  | signer :: signers =>
      _ ← sim_sig_gas p (head sigs) signer;
      sim_sigs_gas p (tail sigs) signers
  end.

Definition ConsumeTxSizeGasDecorator tx simulate next : M (Ctx G) () :=
  p ← GetParams;
  _ ← ConsumeGas (wrapu64 (TxSizeCostPerByte p * Wire.slen (BaseApp.TxBytes tc)));
  _ ← (if simulate then
         sigs ← lift (Tx.GetSignaturesV2 tx);
         signers ← lift (GetSigners tx);
         sim_sigs_gas p sigs signers
       else mret ());
  next.

(** *** fee.go: paying the fee *)

Definition DeductFees (acc : Account) (fees : list Coin) : M (Ctx G) () :=
  _ ← lift (fail_if (negb (Coins.IsValid fees)) "invalid fee amount");
  charged (CSend (acc_address acc) fees)
    (on_chain (SendCoinsFromAccountToModule cfg addr_String (acc_address acc) FeeCollectorName fees)).

(** The account the fee comes from, and the use of the grant when it is not
    the payer's. *)
Definition deductFeesFrom tx (fee : list Coin) (feePayer : string) (feeGranter : option string)
    : M (Ctx G) string :=
  match feeGranter with
  | None => mret feePayer
  | Some granter =>
      match feegrantKeeper with
      | None => lift (Err "fee grants are not enabled")
      | Some UseGrantedFees =>
          _ ← (if String.eqb granter feePayer then mret ()
               else charged (CUseGrantedFees granter feePayer fee)
                      (UseGrantedFees granter feePayer fee (Tx.GetMsgs tx)));
          mret granter
      end
  end.

Definition DeductFeeDecorator tx simulate next : M (Ctx G) () :=
  _ ← lift (or_err (GetModuleAddress cfg FeeCollectorName) "Fee collector module account has not been set");
  fee ← lift (Tx.GetFee tx);
  feePayer ← lift (Tx.FeePayer msg_GetSigners AccAddressFromBech32 addr_String tx);
  feeGranter ← lift (Tx.FeeGranter AccAddressFromBech32 tx);
  from ← deductFeesFrom tx fee feePayer feeGranter;
  a ← getAccount from;
  acc ← lift (or_err a "fee payer address does not exist");
  _ ← (if Coins.IsZero fee then mret () else DeductFees acc fee);
  _ ← on_chain (EmitEvents [mkEvent "tx" [("fee", AStr (Coins.to_String fee))]]);
  next.

(** *** sigverify.go *)

(** One round of the loop that stores public keys. *)
Definition set_pubkey simulate (pk : PubKey) (signer : option string) : M (Ctx G) () :=
  signer ← lift (or_panic signer "index out of range");
  _ ← (if simulate then mret ()
       else addr ← lift (pk_Address pk);
            lift (fail_if (negb (String.eqb addr signer)) "pubKey does not match signer address"));
  acc ← GetSignerAcc signer;
  match acc_pubkey acc with
  | Some _ => mret ()
  | None => acc ← lift (SetPubKey acc pk); setAccount acc
  end.

Fixpoint set_pubkeys simulate (pubkeys : list (option PubKey)) (signers : list string) : M (Ctx G) () :=
  match pubkeys with
  | [] => mret ()
  | pk :: pubkeys =>
      _ ← match pk with
          | Some pk => set_pubkey simulate pk (head signers)
          | None => if simulate then set_pubkey simulate simSecp256k1Pubkey (head signers) else mret ()
          end;
      set_pubkeys simulate pubkeys (tail signers)
  end.

Fixpoint sig_events (sigs : list Tx.SignatureV2) (signers : list string) : outcome (list Event) :=
  match sigs with
  | [] => Ok []
  | sig :: sigs =>
      signer ← or_panic (head signers) "index out of range";
      sigBzs ← signatureDataToBz (Tx.sv_Data sig);
      rest ← sig_events sigs (tail signers);
      Ok (mkEvent "tx" [("acc_seq", AStr (addr_String signer +:+ "/" +:+ Big.to_string (Tx.sv_Sequence sig)))]
          :: map (λ bz, mkEvent "tx" [("signature", AStr (Base64.EncodeToString bz))]) sigBzs ++ rest)
  end.

Definition SetPubKeyDecorator tx simulate next : M (Ctx G) () :=
  pubkeys ← lift (Tx.GetPubKeys tx);
  signers ← lift (GetSigners tx);
  _ ← set_pubkeys simulate pubkeys signers;
  sigs ← lift (Tx.GetSignaturesV2 tx);
  events ← lift (sig_events sigs signers);
  _ ← on_chain (EmitEvents events);
  next.

Fixpoint sig_count (limit : Z) (pubKeys : list (option PubKey)) (sigCount : Z) : outcome () :=
  match pubKeys with
  | [] => Ok ()
  | pk :: pubKeys =>
      let sigCount := sigCount + match pk with Some pk => CountSubKeys pk | None => 1 end in
      _ ← fail_if (limit <? sigCount) "too many signatures";
      sig_count limit pubKeys sigCount
  end.

Definition ValidateSigCountDecorator tx simulate next : M (Ctx G) () :=
  p ← GetParams;
  pubKeys ← lift (Tx.GetPubKeys tx);
  _ ← lift (sig_count (TxSigLimit p) pubKeys 0);
  next.

Fixpoint consume_sigs simulate (p : Params) (sigs : list Tx.SignatureV2) (signers : list string) : M (Ctx G) () :=
  match sigs with
  | [] => mret ()
  | sig :: sigs =>
      signer ← lift (or_panic (head signers) "index out of range");
      signerAcc ← GetSignerAcc signer;
      let pubKey := match acc_pubkey signerAcc with
                    | None => if simulate then Some simSecp256k1Pubkey else None
                    | pk => pk
                    end in
      _ ← zoom gasMeter (λ m ctx, WithGasMeter m ctx)
            (DefaultSigVerificationGasConsumer
               (Tx.mkSignatureV2 pubKey (Tx.sv_Data sig) (Tx.sv_Sequence sig)) p);
      consume_sigs simulate p sigs (tail signers)
  end.

Definition SigGasConsumeDecorator tx simulate next : M (Ctx G) () :=
  p ← GetParams;
  sigs ← lift (Tx.GetSignaturesV2 tx);
  signers ← lift (GetSigners tx);
  _ ← consume_sigs simulate p sigs signers;
  next.

Definition signer_data (genesis : bool) (acc : Account) : SignerData :=
  mkSignerData (ChainID env) (if genesis then 0 else acc_number acc) (acc_sequence acc).

Definition verify_sig tx simulate (sig : Tx.SignatureV2) (signer : string) : M (Ctx G) () :=
  acc ← GetSignerAcc signer;
  let pubKey := acc_pubkey acc in
  _ ← lift (fail_if (negb simulate && bool_decide (pubKey = None)) "pubkey on account is not set");
  _ ← lift (fail_if (negb (Tx.sv_Sequence sig =? acc_sequence acc)) "account sequence mismatch");
  genesis ← gets (λ ctx, blockHeight (chain ctx) =? 0);
  let signerData := signer_data genesis acc in
  if simulate then mret ()
  else match pubKey with
       | None => mret ()
       | Some pubKey =>
           match VerifySignature plain_verify (λ mode, GetSignBytes mode signerData tx) pubKey (Tx.sv_Data sig) with
           | Err _ => lift (Err (if OnlyLegacyAminoSigners (Tx.sv_Data sig)
                                 then "signature verification failed; please verify account number, sequence and chain-id"
                                 else "signature verification failed; please verify account number and chain-id"))
           | o => lift o
           end
       end.

Fixpoint verify_sigs tx simulate (sigs : list Tx.SignatureV2) (signers : list string) : M (Ctx G) () :=
  match sigs with
  | [] => mret ()
  | sig :: sigs =>
      signer ← lift (or_panic (head signers) "index out of range");
      _ ← verify_sig tx simulate sig signer;
      verify_sigs tx simulate sigs (tail signers)
  end.

Definition SigVerificationDecorator tx simulate next : M (Ctx G) () :=
  if BaseApp.IsReCheckTx tc then next
  else
    sigs ← lift (Tx.GetSignaturesV2 tx);
    signers ← lift (GetSigners tx);
    _ ← lift (fail_if (negb (length sigs =? length signers)%nat) "invalid number of signer");
    _ ← verify_sigs tx simulate sigs signers;
    next.

(** A signer without an account is a nil interface. *)
Definition increment_one (addr : string) : M (Ctx G) () :=
  a ← getAccount addr;
  acc ← lift (or_panic a "nil pointer dereference");
  setAccount (SetSequence acc (wrapu64 (acc_sequence acc + 1))).

Definition IncrementSequenceDecorator tx simulate next : M (Ctx G) () :=
  signers ← lift (GetSigners tx);
  _ ← for_each increment_one signers;
  next.

(** *** types/handler.go and ante.go *)

Abbreviation decorator := (Tx.Tx Msg → bool → M (Ctx G) () → M (Ctx G) ()).

Inductive AnteDecorator := Terminator | Decorator (AnteHandle : decorator).

Fixpoint run_chain (chain : list AnteDecorator) tx simulate : M (Ctx G) () :=
  match chain with
  | [] => lift (Panic "nil pointer dereference")
  | Terminator :: _ => mret ()
  | Decorator f :: chain => f tx simulate (run_chain chain tx simulate)
  end.

Definition terminated (chain : list AnteDecorator) : bool :=
  match last chain with Some Terminator => true | _ => false end.

Definition ChainAnteDecorators (chain : list AnteDecorator) : option (Tx.Tx Msg → bool → M (Ctx G) ()) :=
  match chain with
  | [] => None
  | _ => Some (run_chain (if terminated chain then chain else chain ++ [Terminator]))
  end.

Definition anteDecorators : list AnteDecorator :=
  map Decorator [
    SetUpContextDecorator;
    RejectExtensionOptionsDecorator;
    MempoolFeeDecorator;
    ValidateBasicDecorator;
    TxTimeoutHeightDecorator;
    ValidateMemoDecorator;
    ConsumeTxSizeGasDecorator;
    DeductFeeDecorator;
    SetPubKeyDecorator;
    ValidateSigCountDecorator;
    SigGasConsumeDecorator;
    SigVerificationDecorator;
    IncrementSequenceDecorator].

Definition NewAnteHandler : option (Tx.Tx Msg → bool → M (Ctx G) ()) := ChainAnteDecorators anteDecorators.

End ante.
End Ante.
