(* ===== verification/ClientTx.v ===== *)
(** * Building and signing transactions: client/tx/factory.go and tx.go,
      the builder of x/auth/tx/builder.go, client/broadcast.go

    A builder is the transaction it wraps; the bytes it caches are dropped by
    every setter, so the cache is not part of the model.  Packing a message
    into an [Any], the sign bytes, the transaction encoder and the keyring are
    parameters. *)

From Stdlib Require Import ZArith Lia Ascii String.
From stdpp Require Import base tactics option list strings.
From S2P Require Import Prelude GoStd Float64 Digits SdkInt Decimal Coin DecCoin MultiSig Chain Wire Tx TxCodec.
From S2P Require Import Gas BaseApp Context Ante.

Local Open Scope Z_scope.

Module ClientTx.
Import BitArray MultiSig Ante Float64.

(** ** The builder *)

Section builder.
Context {Msg : Type}.
(** [codectypes.NewAnyWithValue] of a message and of a key. *)
Context (NewAnyWithValue : Msg → outcome ()) (key_Any : PubKey → outcome ()).
Implicit Types w : Tx.Tx Msg.

Definition newBuilder : Tx.Tx Msg :=
  Tx.mkTx (Some (Tx.mkTxBody [] "" 0 [])) (Some (Tx.mkAuthInfo [] (Some (Tx.mkFee [] 0 "" "")))) [].

(** An assignment through [w.tx.Body] and through [w.tx.AuthInfo]. *)
Definition on_body (f : Tx.TxBody Msg → Tx.TxBody Msg) w : outcome (Tx.Tx Msg) :=
  b ← Tx.body w; Ok (Tx.mkTx (Some (f b)) (Tx.tx_AuthInfo w) (Tx.Signatures w)).
Definition on_authInfo (f : Tx.AuthInfo → Tx.AuthInfo) w : outcome (Tx.Tx Msg) :=
  a ← Tx.authInfo w; Ok (Tx.mkTx (Tx.Body w) (Some (f a)) (Tx.Signatures w)).
(** The setters of the fee make one when there is none. *)
Definition on_fee (f : Tx.Fee → Tx.Fee) : Tx.Tx Msg → outcome (Tx.Tx Msg) :=
  on_authInfo (λ a, Tx.mkAuthInfo (Tx.SignerInfos a) (Some (f (default (Tx.mkFee [] 0 "" "") (Tx.ai_Fee a))))).

Definition SetMsgs (msgs : list Msg) w : outcome (Tx.Tx Msg) :=
  _ ← fold_out (λ _, NewAnyWithValue) () msgs;
  on_body (λ b, Tx.mkTxBody msgs (Tx.Memo b) (Tx.TimeoutHeight b) (Tx.ExtensionOptions b)) w.
Definition SetTimeoutHeight (height : Z) : Tx.Tx Msg → outcome (Tx.Tx Msg) :=
  on_body (λ b, Tx.mkTxBody (Tx.Messages b) (Tx.Memo b) height (Tx.ExtensionOptions b)).
Definition SetMemo (memo : string) : Tx.Tx Msg → outcome (Tx.Tx Msg) :=
  on_body (λ b, Tx.mkTxBody (Tx.Messages b) memo (Tx.TimeoutHeight b) (Tx.ExtensionOptions b)).
Definition SetGasLimit (limit : Z) : Tx.Tx Msg → outcome (Tx.Tx Msg) :=
  on_fee (λ f, Tx.mkFee (Tx.fee_Amount f) limit (Tx.Payer f) (Tx.Granter f)).
Definition SetFeeAmount (coins : list Coin) : Tx.Tx Msg → outcome (Tx.Tx Msg) :=
  on_fee (λ f, Tx.mkFee coins (Tx.GasLimit f) (Tx.Payer f) (Tx.Granter f)).

Fixpoint signer_infos (signatures : list Tx.SignatureV2) : outcome (list Tx.SignerInfo * list string) :=
  match signatures with
  | [] => Ok ([], [])
  | sig :: rest =>
      '(modeInfo, rawSig) ← Tx.SignatureDataToModeInfoAndSig (Tx.sv_Data sig);
      _ ← match Tx.sv_PubKey sig with
          | Some pk => key_Any pk
          | None => Err "Expecting non nil value to create a new Any"
          end;
      '(infos, rawSigs) ← signer_infos rest;
      Ok (Tx.mkSignerInfo (Tx.sv_PubKey sig) modeInfo (Tx.sv_Sequence sig) :: infos, rawSig :: rawSigs)
  end.
Definition setSignerInfos (infos : list Tx.SignerInfo) : Tx.Tx Msg → outcome (Tx.Tx Msg) :=
  on_authInfo (λ a, Tx.mkAuthInfo infos (Tx.ai_Fee a)).
Definition setSignatures (sigs : list string) w : Tx.Tx Msg := Tx.mkTx (Tx.Body w) (Tx.tx_AuthInfo w) sigs.
Definition SetSignatures (signatures : list Tx.SignatureV2) w : outcome (Tx.Tx Msg) :=
  '(signerInfos, rawSigs) ← signer_infos signatures;
  w ← setSignerInfos signerInfos w;
  Ok (setSignatures rawSigs w).

(** ** The factory *)

(** What of a keyring is used: a key by its name, signing with it, and the
    keys it lists. *)
Record Keyring := mkKeyring {
  kr_Key : string → outcome PubKey;
  kr_Sign : string → string → outcome string;
  kr_List : list PubKey }.

Record Factory := mkFactory {
  keybase : option Keyring; accountNumber : Z; sequence : Z; gas : Z; timeoutHeight : Z;
  gasAdjustment : float64; chainID : string; memo : string; fees : list Coin;
  gasPrices : list DecCoin; signMode : Z }.

Definition BuildUnsignedTx (f : Factory) (msgs : list Msg) : outcome (Tx.Tx Msg) :=
  _ ← fail_if (String.eqb (chainID f) "") "chain ID required but not specified";
  fees ← (if negb (DecCoins.IsZero (gasPrices f)) then
            _ ← fail_if (negb (Coins.IsZero (fees f))) "cannot provide both fees and gas prices";
            glDec ← Dec.NewDec (wrap64 (gas f));
            requiredFees_loop glDec (gasPrices f)
          else Ok (fees f));
  tx ← SetMsgs msgs newBuilder;
  tx ← SetMemo (memo f) tx;
  tx ← SetFeeAmount fees tx;
  tx ← SetGasLimit (gas f) tx;
  SetTimeoutHeight (timeoutHeight f) tx.

Context (TxEncoder : Tx.Tx Msg → outcome string).

Definition BuildSimTx (f : Factory) (msgs : list Msg) : outcome string :=
  txb ← BuildUnsignedTx f msgs;
  pk ← match keybase f with
       | None => Ok (secp256k1_PubKey "")
       | Some kr => or_err (head (kr_List kr)) "cannot build signature for simulation, key infos slice is empty"
       end;
  txb ← SetSignatures [Tx.mkSignatureV2 (Some pk) (SingleSignatureData (signMode f) "") (sequence f)] txb;
  TxEncoder txb.

(** [CalculateGas]: [Simulate] asks a node for the gas used. *)
Definition CalculateGas {W} (Simulate : string → M W Z) (f : Factory) (msgs : list Msg) : M W Z :=
  txBytes ← lift (BuildSimTx f msgs);
  gasUsed ← Simulate txBytes;
  mret (to_uint64 (trunc (mul (gasAdjustment f) (of_Z gasUsed)))).

(** ** Signing *)

Context (msg_GetSigners : Msg → outcome (list string)).
Context (AccAddressFromBech32 : string → outcome string) (addr_String : string → string).
Context (GetSignBytes : Z → SignerData → Tx.Tx Msg → outcome string) (DefaultMode : Z).

Definition checkMultipleSigners (mode : Z) w : outcome () :=
  if mode =? TxCodec.SIGN_MODE_DIRECT then
    signers ← Tx.GetSigners msg_GetSigners AccAddressFromBech32 addr_String w;
    fail_if (1 <? length signers)%nat
      "Signing in DIRECT mode is only supported for transactions with one signer only"
  else Ok ().

Definition Sign (txf : Factory) (name : string) w (overwriteSig : bool) : outcome (Tx.Tx Msg) :=
  kr ← or_err (keybase txf) "keybase must be set prior to signing a transaction";
  let mode := if signMode txf =? 0 then DefaultMode else signMode txf in
  _ ← checkMultipleSigners mode w;
  pubKey ← kr_Key kr name;
  let signerData := mkSignerData (chainID txf) (accountNumber txf) (sequence txf) in
  let sig := Tx.mkSignatureV2 (Some pubKey) (SingleSignatureData mode "") (sequence txf) in
  prevSignatures ← (if overwriteSig then Ok [] else Tx.GetSignaturesV2 w);
  w ← SetSignatures [sig] w;
  bytesToSign ← GetSignBytes mode signerData w;
  sigBytes ← kr_Sign kr name bytesToSign;
  let sig := Tx.mkSignatureV2 (Some pubKey) (SingleSignatureData mode sigBytes) (sequence txf) in
  if overwriteSig then SetSignatures [sig] w
  else SetSignatures (prevSignatures ++ [sig]) w.

End builder.

(** ** Broadcasting *)

(** The two halves of a [ResultBroadcastTxCommit]. *)
Record ABCIResponse := mkABCIResponse {
  abci_Code : Z; abci_Data : string; abci_Log : string; abci_Logs : list (list Event) }.
Record CommitResult := mkCommitResult { CheckTx : ABCIResponse; DeliverTx : ABCIResponse; cr_Hash : string }.

(** A [sdk.TxResponse]: [Logs] are the logs that [ParseABCILogs] finds in the
    raw log, none when it is not JSON; [Data] is kept as the bytes that its
    hexadecimal text stands for. *)
Record TxResponse := mkTxResponse {
  TxHash : string; Code : Z; Data : string; RawLog : string; Logs : list (list Event) }.

Definition NewResponseFormatBroadcastTxCommit (res : CommitResult) : TxResponse :=
  let half := if negb (abci_Code (CheckTx res) =? 0) then CheckTx res else DeliverTx res in
  mkTxResponse (cr_Hash res) (abci_Code half) (abci_Data half) (abci_Log half) (abci_Logs half).

(** [strings.ToLower] on the letters of ASCII. *)
Definition lower_char (c : ascii) : ascii :=
  let n := N_of_ascii c in if (65 <=? n)%N && (n <=? 90)%N then ascii_of_N (n + 32) else c.
Fixpoint ToLower (s : string) : string :=
  match s with "" => "" | String c s => String (lower_char c) (ToLower s) end.

(** The text of an error and the printed hash of the transaction. *)
Definition CheckTendermintError (err txHash : string) : option TxResponse :=
  let errStr := ToLower err in
  if Str.contains errStr "tx already exists in cache" then Some (mkTxResponse txHash 19 "" "" [])
  else if Str.contains errStr "mempool is full" then Some (mkTxResponse txHash 20 "" "" [])
  else if Str.contains errStr "tx too large" then Some (mkTxResponse txHash 21 "" "" [])
  else None.

(** [BroadcastTxCommit]: [node_BroadcastTxCommit] is the call to the node and
    [tx_Hash] the hash of a transaction. *)
Definition BroadcastTxCommit {W} (node_BroadcastTxCommit : string → M W CommitResult)
    (tx_Hash : string → string) (txBytes : string) : M W TxResponse := λ w,
  match node_BroadcastTxCommit txBytes w with
  | (Ok res, w') => (Ok (NewResponseFormatBroadcastTxCommit res), w')
  | (Err e, w') =>
      (match CheckTendermintError e (tx_Hash txBytes) with Some r => Ok r | None => Err e end, w')
  | (Panic e, w') => (Panic e, w')
  end.

End ClientTx.
