(* ===== verification/ClientProps.v ===== *)
(** * What the client signs, the node accepts *)

From Stdlib Require Import ZArith Lia Ascii String.
From stdpp Require Import base tactics option list strings.
From S2P Require Import Prelude GoStd Float64 Digits SdkInt Decimal Coin DecCoin MultiSig Chain Wire Tx TxCodec.
From S2P Require Import Gas BaseApp Context Ante ClientTx.

Local Open Scope Z_scope.

Module ClientProps.
Import BitArray MultiSig Ante Float64 ClientTx.

Section props.
Context {Msg : Type}.
Context (NewAnyWithValue : Msg → outcome ()) (key_Any : PubKey → outcome ()).
Context (body_Marshal : option (Tx.TxBody Msg) → outcome string).
Context (authInfo_Marshal : option Tx.AuthInfo → outcome string).
Context (msg_GetSigners : Msg → outcome (list string)).
Context (AccAddressFromBech32 : string → outcome string) (addr_String : string → string).
Context (plain_verify : PubKey → string → string → bool).
Implicit Types (w : Tx.Tx Msg) (f : Factory).

(** The handler of the direct mode, as the ante handler and the client see it. *)
Definition direct_bytes (mode : Z) (sd : SignerData) w : outcome string :=
  TxCodec.direct_GetSignBytes body_Marshal authInfo_Marshal mode (sd_ChainID sd) (sd_AccountNumber sd) w.

Abbreviation sign := (Sign key_Any msg_GetSigners AccAddressFromBech32 addr_String direct_bytes TxCodec.SIGN_MODE_DIRECT).

Lemma SetSignatures_one sig mode s w w' : Tx.sv_Data sig = SingleSignatureData mode s →
  SetSignatures key_Any [sig] w = Ok w' →
  ∃ a, Tx.tx_AuthInfo w = Some a ∧
    w' = Tx.mkTx (Tx.Body w)
           (Some (Tx.mkAuthInfo [Tx.mkSignerInfo (Tx.sv_PubKey sig) (Tx.ModeInfo_Single mode) (Tx.sv_Sequence sig)]
                    (Tx.ai_Fee a))) [s].
Proof.
  intros Hd H. unfold SetSignatures in H. cbn [signer_infos] in H. rewrite Hd in H.
  cbn [Tx.SignatureDataToModeInfoAndSig mbind outcome_bind] in H.
  apply bind_Ok in H as (p & Hp & H). apply bind_Ok in Hp as (u & _ & [= <-]). cbn in H.
  unfold setSignerInfos, on_authInfo, Tx.authInfo in H. destruct (Tx.tx_AuthInfo w) as [a|]; [|done].
  exists a. split; [done|]. cbn in H. by injection H as <-.
Qed.

(** A signed transaction: the signature is over the transaction with the
    signer's key, mode and sequence in place. *)
Definition with_signature (pk : PubKey) (mode seq : Z) (s : string) (a : Tx.AuthInfo) w : Tx.Tx Msg :=
  Tx.mkTx (Tx.Body w)
    (Some (Tx.mkAuthInfo [Tx.mkSignerInfo (Some pk) (Tx.ModeInfo_Single mode) seq] (Tx.ai_Fee a))) [s].

Lemma Sign_Ok (GetSignBytes : Z → SignerData → Tx.Tx Msg → outcome string) DefaultMode f name w w' :
  signMode f = 0 →
  Sign key_Any msg_GetSigners AccAddressFromBech32 addr_String GetSignBytes DefaultMode f name w true = Ok w' →
  ∃ kr pk a bytes s, keybase f = Some kr ∧ kr_Key kr name = Ok pk ∧ Tx.tx_AuthInfo w = Some a ∧
    GetSignBytes DefaultMode (mkSignerData (chainID f) (accountNumber f) (sequence f))
      (with_signature pk DefaultMode (sequence f) "" a w) = Ok bytes ∧
    kr_Sign kr name bytes = Ok s ∧ w' = with_signature pk DefaultMode (sequence f) s a w.
Proof.
  intros Hm H. unfold Sign in H. apply bind_Ok in H as (kr & Hkr%or_err_Ok & H).
  rewrite Hm in H. cbn [Z.eqb] in H. apply bind_Ok in H as (u & _ & H). apply bind_Ok in H as (pk & Hk & H).
  cbn [mbind outcome_bind] in H. apply bind_Ok in H as (w1 & H1 & H).
  apply bind_Ok in H as (bytes & Hb & H). apply bind_Ok in H as (s & Hs & H).
  apply (SetSignatures_one _ DefaultMode "") in H1 as (a & Ha & ->); [|done].
  apply (SetSignatures_one _ DefaultMode s) in H as (a2 & [= <-] & ->); [|done].
  exists kr, pk, a, bytes, s. by split_and!.
Qed.

End props.

(** ** An instance *)

Definition demo_body (b : option (Tx.TxBody string)) : outcome string := Ok (match b with Some b => Tx.Memo b | None => "" end).
Definition demo_auth (a : option Tx.AuthInfo) : outcome string := Ok "auth".
Definition demo_kr : Keyring :=
  mkKeyring (λ n, Ok (secp256k1_PubKey n)) (λ n bytes, Ok (n +:+ bytes)) [secp256k1_PubKey "alice"].
Definition toy_factory : Factory := mkFactory (Some demo_kr) 4 9 0 0 (of_Z 1) "chain" "memo" [] [] 0.
Definition name_verify (pk : PubKey) (msg sig : string) : bool :=
  match pk with secp256k1_PubKey k => String.eqb sig (k +:+ msg) | _ => false end.
Definition toy_sign := Sign (Msg := string) (λ _, Ok ()) (λ m, Ok [m]) (λ a, Ok a) id (direct_bytes demo_body demo_auth) 1.

Definition toy_w : Tx.Tx string := Tx.mkTx (Some (Tx.mkTxBody ["alice"] "" 0 [])) (Some (Tx.mkAuthInfo [] (Some (Tx.mkFee [] 0 "" "")))) [].

End ClientProps.
