(* ===== verification/AnteFacts.v ===== *)
(** * Facts about the ante handler

    An accepted transaction has passed every decorator in turn; what each of
    them does to the accounts, the money and the gas. *)

From Stdlib Require Import ZArith Lia Ascii String.
From stdpp Require Import base tactics option list gmap strings.
From S2P Require Import Prelude GoStd Digits SdkInt Decimal Coin CoinFacts DecCoin MultiSig Chain Bank.
From S2P Require Import BankFacts Keepers BankInst AccountFacts Wire Gas Tx BaseApp Context Ante.

Local Open Scope Z_scope.

Module AnteFacts.
Import BitArray MultiSig Ante.

(** ** Relations between contexts *)

Section relations.
Context {G : Type}.
Implicit Types x : Ctx G.

(** The money is the same. *)
Definition money x x' : Prop :=
  (chain_ok (chain x) → chain_ok (chain x')) ∧
  balances (chain x') = balances (chain x) ∧ supply (chain x') = supply (chain x).
#[global] Instance money_preorder : PreOrder money.
Proof. split; [done|]. intros x y z (A1 & A2 & A3) (B1 & B2 & B3). split_and!; [auto|congruence..]. Qed.

(** The accounts are framed. *)
Definition framed x x' : Prop :=
  chain_ok (chain x) → chain_ok (chain x') ∧ acc_frame (chain x) (chain x').
#[global] Instance framed_preorder : PreOrder framed.
Proof.
  split; [done|]. intros x y z A B Hx. destruct (A Hx) as [Hy F1]. destruct (B Hy) as [Hz F2].
  split; [done|]. by transitivity (chain y).
Qed.

(** A key an account has was there before or is the key of its address. *)
Context (pk_Address : PubKey → outcome string).
Definition keyed x x' : Prop := chain_ok (chain x) → chain_ok (chain x') ∧
  ∀ a acc' pk, accounts (chain x') !! a = Some acc' → acc_pubkey acc' = Some pk →
    (∃ acc, accounts (chain x) !! a = Some acc ∧ acc_pubkey acc = Some pk) ∨ pk_Address pk = Ok a.
#[global] Instance keyed_preorder : PreOrder keyed.
Proof.
  split; [intros x; split; eauto|]. intros x y z A B Hx. destruct (A Hx) as [Hy F1].
  destruct (B Hy) as [Hz F2]. split; [done|]. intros a acc pk Ha Hpk.
  destruct (F2 _ _ _ Ha Hpk) as [(acc1 & H1 & H2)|?]; eauto.
Qed.

(** The meter: within its limit, never lowered. *)
Definition metered x x' : Prop := Gas.meter_ok (gasMeter x) →
  Gas.meter_ok (gasMeter x') ∧
  (∀ l c, gasMeter x = Gas.basicGasMeter l c → ∃ c', gasMeter x' = Gas.basicGasMeter l c') ∧
  Gas.GasConsumed (gasMeter x) <= Gas.GasConsumed (gasMeter x') ∧
  (Gas.IsPastLimit (gasMeter x) = false → Gas.IsPastLimit (gasMeter x') = false).
#[global] Instance metered_preorder : PreOrder metered.
Proof.
  split; [intros x Hx; split_and!; [done|eauto|done|done]|].
  intros x y z A B Hx. destruct (A Hx) as (Hy & L1 & C1 & P1).
  destruct (B Hy) as (Hz & L2 & C2 & P2). split_and!; [done| |lia|auto].
  intros l c (c' & Hc)%L1. eauto.
Qed.

Lemma metered_same x x' : gasMeter x' = gasMeter x → metered x x'.
Proof. intros E Hx. rewrite E. split_and!; [done|eauto|done|done]. Qed.

Lemma chain_ok_insert s acc : chain_ok s → chain_ok (set_accounts (<[acc_address acc := acc]> (accounts s)) s).
Proof.
  intros [H1 H2 H3]. split; [done|done|]. intros a acc'. simpl.
  intros [[<- <-]|[_ ?]]%lookup_insert_Some; [done|auto].
Qed.

(** A relation that does not look at events and grants, and holds of charges
    of a [good] amount. *)
Class Sound (R : Ctx G → Ctx G → Prop) (good : Z → Prop) : Prop := {
  sound_pre :: PreOrder R;
  sound_events x e : R x (mkCtx (set_events e (chain x)) (grants x) (gasMeter x));
  sound_gas n x g : good n → Gas.ConsumeGas n (gasMeter x) = (Ok (), g) → R x (WithGasMeter g x) }.

#[global] Instance money_sound : Sound money (λ _, True).
Proof.
  split; [typeclasses eauto| |done]. intros x e. split_and!; [|done..]. apply chain_ok_events.
Qed.
#[global] Instance framed_sound : Sound framed (λ _, True).
Proof.
  split; [typeclasses eauto| |done]. intros x e Hx. split; [by apply chain_ok_events|]. by apply acc_frame_same.
Qed.
#[global] Instance keyed_sound : Sound keyed (λ _, True).
Proof.
  split; [typeclasses eauto| |].
  - intros x e Hx. split; [by apply chain_ok_events|]. simpl. eauto.
  - intros n x g _ _ Hx. split; [done|]. simpl. eauto.
Qed.
#[global] Instance metered_sound : Sound metered (λ n, 0 <= n).
Proof.
  split; [typeclasses eauto|intros x e; by apply metered_same|]. intros n x g Hn Hg Hok.
  pose proof (Gas.ConsumeGas_ok n _ Hok Hn) as Hok'. rewrite Hg in Hok'. pose proof Hg as Hg'.
  eapply Gas.ConsumeGas_Ok in Hg as (Hc & Hl & Hp); [|done|done]. simpl. split_and!; [done| |lia|done].
  intros l c E. rewrite E in Hg'. unfold Gas.ConsumeGas, Gas.addUint64Overflow in Hg'.
  repeat case_match; simplify_eq; eauto.
Qed.

Lemma acc_same_keyed x c g m : acc_same (chain x) c → (chain_ok (chain x) → chain_ok c) → keyed x (mkCtx c g m).
Proof.
  intros [A1 A2 _ _] Hok Hx. split; [auto|]. simpl. intros a acc' pk Ha Hpk.
  destruct (accounts (chain x) !! a) as [acc|] eqn:E.
  - pose proof (lookup_weaken _ _ _ _ E A1). simplify_eq. eauto.
  - destruct (A2 _ _ E Ha) as [_ ?]. congruence.
Qed.
End relations.

Section facts.
Context {G Msg : Type}.
Context (cfg : Config) (addr_String : string → string).
Context (AccAddressFromBech32 : string → outcome string).
Context (msg_GetSigners : Msg → outcome (list string)).
Context (pk_Address : PubKey → outcome string).
Context (plain_verify : PubKey → string → string → bool).
Context (GetSignBytes : Z → SignerData → Tx.Tx Msg → outcome string).
Context (simSecp256k1Pubkey : PubKey) (simSig_len : PubKey → Z).
Context (feegrantKeeper : option (string → string → list Coin → list Msg → M (Ctx G) ())).
Context (store_gas : call → Ctx G → Z).
Context (env : Env) (tc : BaseApp.TxContext).
Implicit Types (tx : Tx.Tx Msg) (simulate : bool) (x : Ctx G).

Abbreviation GetSigners := (Tx.GetSigners msg_GetSigners AccAddressFromBech32 addr_String).
Abbreviation getAccount := (Ante.getAccount store_gas).
Abbreviation setAccount := (Ante.setAccount store_gas).
Abbreviation GetSignerAcc := (Ante.GetSignerAcc store_gas).

(** ** Single steps *)

Section sound.
Context (R : Ctx G → Ctx G → Prop) (good : Z → Prop) `{HR : !Sound R good}.
Context (good_store : ∀ c x, good (store_gas c x)) (good_wrap : ∀ z, good (wrapu64 z)).
Context (good_ed : good (par_SigVerifyCostED25519 (params env)))
        (good_k1 : good (SigVerifyCostSecp256k1 (params env)))
        (good_r1 : good (SigVerifyCostSecp256r1 (params env))).

Lemma steps_gas n : good n → steps R (@ConsumeGas G n).
Proof using HR. intros Hn x u x' (g & Hg & ->)%ctx_gas_Ok. by eapply sound_gas. Qed.

Lemma steps_charged {A} c (m : M (Ctx G) A) : steps R m → steps R (charged store_gas c m).
Proof using HR good_store.
  intros Hm x a x' H. unfold charged in H. inv_ok. transitivity x3; [|by eapply Hm].
  eapply steps_gas; [|done]. apply good_store.
Qed.

Lemma steps_GetParams : steps R (GetParams store_gas env).
Proof using HR good_store. apply steps_charged. stepping. Qed.

Lemma steps_getAccount addr : steps R (getAccount addr).
Proof using HR good_store.
  apply steps_charged. intros x a x' (c & [-> ->]%gets_Ok & ->)%on_chain_Ok. by destruct x.
Qed.

Lemma steps_GetSignerAcc addr : steps R (GetSignerAcc addr).
Proof using HR good_store. unfold Ante.GetSignerAcc. stepping. apply steps_getAccount. Qed.

Lemma steps_EmitEvents l : steps R (@on_chain G () (EmitEvents l)).
Proof using HR. intros x a x' (c & ->%modify_Ok & ->)%on_chain_Ok. apply sound_events. Qed.

Lemma steps_sim_sigs_gas p sigs signers :
  steps R (sim_sigs_gas simSecp256k1Pubkey simSig_len store_gas p sigs signers).
Proof using HR good_store good_wrap.
  revert sigs. induction signers as [|signer signers IH]; intros sigs; simpl; [stepping|].
  unfold sim_sig_gas. stepping; auto using steps_getAccount, steps_gas.
Qed.

(** Gas meters. *)
Definition on_meter {A} (m : M Gas.GasMeter A) : M (Ctx G) A := zoom gasMeter (λ g x, WithGasMeter g x) m.

Lemma on_meter_bind {A B} (m : M Gas.GasMeter A) (f : A → M Gas.GasMeter B) :
  steps R (on_meter m) → (∀ a, steps R (on_meter (f a))) → steps R (on_meter (m ≫= f)).
Proof using HR.
  intros Hm Hf x b x' (g & (a & g1 & H1 & H2)%Mbind_Ok & ->)%zoom_Ok.
  transitivity (WithGasMeter g1 x).
  - apply (Hm x a). apply zoom_Ok. eauto.
  - apply (Hf a _ b). apply zoom_Ok. by exists g.
Qed.
Lemma on_meter_lift {A} (o : outcome A) : steps R (on_meter (lift o)).
Proof using HR. intros x a x' (g & [_ ->]%lift_Ok & ->)%zoom_Ok. by destruct x. Qed.
Lemma on_meter_gas n : good n → steps R (on_meter (Gas.ConsumeGas n)).
Proof using HR. intros Hn x [] x' (g & Hg & ->)%zoom_Ok. by eapply sound_gas. Qed.

Lemma steps_multisig_gas bA n i consume sigs :
  (∀ c d, c ∈ consume → steps R (on_meter (c d))) → steps R (on_meter (multisig_gas bA n i consume sigs)).
Proof using HR.
  intros Hc. revert i sigs. induction n as [|n IH]; intros i sigs; simpl; [apply (on_meter_lift (Ok ()))|].
  apply on_meter_bind; [apply on_meter_lift|]. intros [|]; [|auto].
  intros x a x' (g & (c & g1 & [Hl%or_panic_Ok ->]%lift_Ok & Hr)%Mbind_Ok & ->)%zoom_Ok.
  assert (c ∈ consume) as Hin by (by eapply list_elem_of_lookup_2).
  destruct sigs as [|d sigs]; [done|].
  refine (on_meter_bind (c d) (λ _, multisig_gas bA n (i + 1) consume sigs) _ _ x a _ _); [auto|auto|].
  apply zoom_Ok. eauto.
Qed.

Lemma PubKey_nested_ind (Q : PubKey → Prop) :
  (∀ k, Q (secp256k1_PubKey k)) → (∀ k, Q (secp256r1_PubKey k)) → (∀ k, Q (ed25519_PubKey k)) →
  (∀ t keys, Forall Q keys → Q (LegacyAminoPubKey t keys)) → (∀ k, Q (other_PubKey k)) → ∀ pk, Q pk.
Proof.
  intros H1 H2 H3 H4 H5. fix IH 1. intros [k|k|k|t keys|k]; [apply H1|apply H2|apply H3|apply H4|apply H5].
  induction keys as [|k keys IHk]; constructor; [apply IH|exact IHk].
Qed.

Lemma steps_key_gas pk data : steps R (on_meter (key_gas (params env) pk data)).
Proof using HR good_ed good_k1 good_r1.
  revert data. induction pk as [k|k|k|t keys IH|k] using PubKey_nested_ind; intros data; cbn [key_gas].
  - by apply on_meter_gas.
  - by apply on_meter_gas.
  - apply on_meter_bind; [by apply on_meter_gas|]. intros. apply on_meter_lift.
  - destruct data as [| |bA sigs]; [apply on_meter_lift..|]. apply steps_multisig_gas.
    intros c d (k & -> & Hk)%list_elem_of_fmap. rewrite Forall_forall in IH. by apply IH.
  - apply on_meter_lift.
Qed.

Lemma steps_consume_sigs simulate p sigs signers : p = params env →
  steps R (consume_sigs simSecp256k1Pubkey store_gas simulate p sigs signers).
Proof using HR good_ed good_k1 good_r1 good_store.
  intros ->. revert signers. induction sigs as [|sig sigs IH]; intros signers; simpl; [stepping|].
  stepping; auto using steps_GetSignerAcc.
  unfold DefaultSigVerificationGasConsumer. cbn [Tx.sv_PubKey Tx.sv_Data].
  destruct (match acc_pubkey _ with Some _ => _ | None => _ end) as [pk|];
    [apply steps_key_gas|apply on_meter_lift].
Qed.

Lemma steps_verify_sigs tx simulate sigs signers :
  steps R (verify_sigs plain_verify GetSignBytes store_gas env tx simulate sigs signers).
Proof using HR good_store.
  revert signers. induction sigs as [|sig sigs IH]; intros signers; simpl; [stepping|].
  stepping; auto. unfold verify_sig. stepping; auto using steps_GetSignerAcc.
  all: stepping.
Qed.
End sound.

(** ** One decorator after the other *)

Abbreviation d_SetUp := (SetUpContextDecorator (G := G) (Msg := Msg)).
Abbreviation d_Reject := (RejectExtensionOptionsDecorator (G := G) (Msg := Msg)).
Abbreviation d_Mempool := (MempoolFeeDecorator (G := G) (Msg := Msg) env tc).
Abbreviation d_Basic := (ValidateBasicDecorator (G := G) addr_String AccAddressFromBech32 msg_GetSigners tc).
Abbreviation d_Timeout := (TxTimeoutHeightDecorator (G := G) (Msg := Msg)).
Abbreviation d_Memo := (ValidateMemoDecorator (Msg := Msg) store_gas env).
Abbreviation d_Size := (ConsumeTxSizeGasDecorator addr_String AccAddressFromBech32 msg_GetSigners
  simSecp256k1Pubkey simSig_len store_gas env tc).
Abbreviation d_Fee := (DeductFeeDecorator cfg addr_String AccAddressFromBech32 msg_GetSigners feegrantKeeper store_gas).
Abbreviation d_PubKey := (SetPubKeyDecorator addr_String AccAddressFromBech32 msg_GetSigners pk_Address
  simSecp256k1Pubkey store_gas).
Abbreviation d_Count := (ValidateSigCountDecorator (Msg := Msg) store_gas env).
Abbreviation d_SigGas := (SigGasConsumeDecorator addr_String AccAddressFromBech32 msg_GetSigners
  simSecp256k1Pubkey store_gas env).
Abbreviation d_Verify := (SigVerificationDecorator addr_String AccAddressFromBech32 msg_GetSigners
  plain_verify GetSignBytes store_gas env tc).
Abbreviation d_Sequence := (IncrementSequenceDecorator addr_String AccAddressFromBech32 msg_GetSigners store_gas).

Abbreviation handler := (NewAnteHandler cfg addr_String AccAddressFromBech32 msg_GetSigners pk_Address
  plain_verify GetSignBytes simSecp256k1Pubkey simSig_len feegrantKeeper store_gas env tc).

Abbreviation deco := (Tx.Tx Msg → bool → M (Ctx G) () → M (Ctx G) ()).

Definition sequential (D : deco) : Prop := ∀ tx simulate next x x',
  D tx simulate next x = (Ok (), x') ↔
  ∃ y, D tx simulate (mret ()) x = (Ok (), y) ∧ next y = (Ok (), x').

(** A body whose last call is [next]. *)
Lemma seq_bind {A} (m : M (Ctx G) A) (f g : A → M (Ctx G) ()) (next : M (Ctx G) ()) x x' :
  (∀ a y, f a y = (Ok (), x') ↔ ∃ z, g a y = (Ok (), z) ∧ next z = (Ok (), x')) →
  (m ≫= f) x = (Ok (), x') ↔ ∃ z, (m ≫= g) x = (Ok (), z) ∧ next z = (Ok (), x').
Proof.
  intros H. rewrite Mbind_Ok. split.
  - intros (a & y & H1 & (z & H2 & H3)%H). exists z. rewrite Mbind_Ok. eauto.
  - intros (z & (a & y & H1 & H2)%Mbind_Ok & H3). exists a, y. rewrite H. eauto.
Qed.
Lemma seq_next (next : M (Ctx G) ()) x x' :
  next x = (Ok (), x') ↔ ∃ z, (mret () : M (Ctx G) ()) x = (Ok (), z) ∧ next z = (Ok (), x').
Proof. split; [intros H; by exists x|]. by intros (z & [= <-] & ?). Qed.

Ltac sequence := intros tx simulate next x x'; unfold RejectExtensionOptionsDecorator, MempoolFeeDecorator,
  ValidateBasicDecorator, TxTimeoutHeightDecorator, ValidateMemoDecorator, ConsumeTxSizeGasDecorator,
  DeductFeeDecorator, SetPubKeyDecorator, ValidateSigCountDecorator, SigGasConsumeDecorator,
  SigVerificationDecorator, IncrementSequenceDecorator;
  try (destruct (BaseApp.IsReCheckTx tc)); repeat (apply seq_bind; intros ? ?); apply seq_next.

Lemma recover_gas_Ok (m : M (Ctx G) ()) x x' : recover_gas m x = (Ok (), x') ↔ m x = (Ok (), x').
Proof.
  unfold recover_gas. destruct (m x) as [[u|e|e] y]; [done|done|]. split; [|done].
  by destruct (String.eqb e "ErrorOutOfGas").
Qed.

Lemma seq_SetUp : sequential d_SetUp.
Proof.
  intros tx simulate next x x'. unfold SetUpContextDecorator. do 2 (apply seq_bind; intros ? ?).
  rewrite recover_gas_Ok, seq_next. split; intros (z & H1 & H2); exists z; (split; [|done]).
  - by apply recover_gas_Ok.
  - by apply recover_gas_Ok in H1.
Qed.

(** The decorators of the chain, in order. *)
Definition checks : list deco := [d_Reject; d_Mempool; d_Basic; d_Timeout; d_Memo].
Definition early : list deco := checks ++ [d_Size].
Definition late : list deco := [d_Count; d_SigGas].

Lemma decorators_sequential :
  Forall sequential (d_SetUp :: early ++ d_Fee :: d_PubKey :: late ++ [d_Verify; d_Sequence]).
Proof.
  unfold early, checks, late. cbn [app]. apply Forall_cons_2; [apply seq_SetUp|].
  repeat (apply Forall_cons_2; [sequence|]). apply Forall_nil_2.
Qed.

Fixpoint path (ds : list deco) tx simulate x x' : Prop :=
  match ds with
  | [] => x' = x
  | D :: ds => ∃ y, D tx simulate (mret ()) x = (Ok (), y) ∧ path ds tx simulate y x'
  end.

Lemma path_app ds1 ds2 tx simulate x x' :
  path (ds1 ++ ds2) tx simulate x x' ↔ ∃ y, path ds1 tx simulate x y ∧ path ds2 tx simulate y x'.
Proof.
  revert x. induction ds1 as [|D ds1 IH]; intros x; simpl.
  - split; [intros; by exists x|]. by intros (y & -> & ?).
  - split.
    + intros (y & H1 & (z & H2 & H3)%IH). eauto.
    + intros (z & (y & H1 & H2) & H3). exists y. rewrite IH. eauto.
Qed.

Lemma path_steps R ds tx simulate x x' : PreOrder R →
  Forall (λ D : deco, steps R (D tx simulate (mret ()))) ds → path ds tx simulate x x' → R x x'.
Proof.
  intros HR Hds. revert x. induction Hds as [|D ds HD _ IH]; intros x; simpl; [by intros ->|].
  intros (y & H1 & H2). transitivity y; [by eapply HD|auto].
Qed.

Lemma chain_path ds tx simulate x x' : Forall sequential ds →
  run_chain (map Decorator ds ++ [Terminator]) tx simulate x = (Ok (), x') ↔ path ds tx simulate x x'.
Proof.
  intros Hds. revert x. induction Hds as [|D ds HD _ IH]; intros x; simpl.
  - split; [by intros [= <-]|by intros ->].
  - rewrite (HD tx simulate). split; intros (y & H1 & H2); exists y; (split; [done|]); by apply IH.
Qed.

(** An accepted transaction has passed every decorator, in the order of
    ante.go. *)
Lemma accepted_path h tx simulate x x' : handler = Some h →
  h tx simulate x = (Ok (), x') ↔
  path (d_SetUp :: early ++ d_Fee :: d_PubKey :: late ++ [d_Verify; d_Sequence]) tx simulate x x'.
Proof. intros [= <-]. rewrite <- chain_path by apply decorators_sequential. done. Qed.

Section sound_decorators.
Context (R : Ctx G → Ctx G → Prop) (good : Z → Prop) `{HR : !Sound R good}.
Context (good_store : ∀ c x, good (store_gas c x)) (good_wrap : ∀ z, good (wrapu64 z)).
Context (good_ed : good (par_SigVerifyCostED25519 (params env)))
        (good_k1 : good (SigVerifyCostSecp256k1 (params env)))
        (good_r1 : good (SigVerifyCostSecp256r1 (params env))).

Lemma steps_early tx simulate : Forall (λ D : deco, steps R (D tx simulate (mret ()))) early.
Proof using HR good_store good_wrap.
  unfold early, checks. cbn [app]. unfold RejectExtensionOptionsDecorator, MempoolFeeDecorator, ValidateBasicDecorator,
    TxTimeoutHeightDecorator, ValidateMemoDecorator, ConsumeTxSizeGasDecorator.
  repeat (apply Forall_cons_2; [stepping|]); [..|apply Forall_nil_2].
  all: eauto using steps_GetParams, steps_gas, steps_sim_sigs_gas.
Qed.

Lemma steps_GetParams_bind {A} (k : Params → M (Ctx G) A) :
  steps R (k (params env)) → steps R (GetParams store_gas env ≫= k).
Proof using HR good_store.
  intros Hk x a x' (p & y & H1 & H2)%Mbind_Ok. transitivity y; [by eapply steps_GetParams|].
  unfold GetParams, charged in H1. inv_ok. by eapply Hk.
Qed.

Lemma steps_late tx simulate : Forall (λ D : deco, steps R (D tx simulate (mret ()))) late.
Proof using HR good_store good_ed good_k1 good_r1.
  unfold late, ValidateSigCountDecorator, SigGasConsumeDecorator.
  repeat (apply Forall_cons_2; [apply steps_GetParams_bind; stepping|]); [..|apply Forall_nil_2].
  eauto using steps_consume_sigs.
Qed.

Lemma steps_Verify tx simulate : steps R (d_Verify tx simulate (mret ())).
Proof using HR good_store.
  unfold SigVerificationDecorator. stepping. eauto using steps_verify_sigs.
Qed.
End sound_decorators.

(** ** Paying the fee *)

(** What a fee grant keeper promises: it leaves the money alone, changes no
    account (it may create the grantee's) and only charges gas. *)
Definition granted x x' : Prop :=
  money x x' ∧ acc_same (chain x) (chain x') ∧ metered x x'.

Class FeegrantLaws : Prop :=
  fk_law use granter grantee fee msgs : feegrantKeeper = Some use → steps granted (use granter grantee fee msgs).

Definition took_fee (from coll : string) (fee : list Coin) (s s' : Chain) : Prop :=
  chain_ok s' ∧ (∀ a d, bal s' a d = bal s a d + at_addr from (λ d, - sum_of d fee) a d
                                             + at_addr coll (λ d, sum_of d fee) a d) ∧
  (∀ d, sup s' d = sup s d) ∧ (∀ d, total s' d = total s d).

Lemma sum_of_zero d l : Coins.IsZero l = true → sum_of d l = 0.
Proof.
  unfold Coins.IsZero. induction l as [|c l IH]; simpl; [done|]. intros [Hc Hl]%andb_true_iff.
  apply Int.IsZero_true in Hc. specialize (IH Hl). case_match; lia.
Qed.

Lemma took_nothing from coll fee s s' : Coins.IsZero fee = true → chain_ok s' →
  balances s' = balances s → supply s' = supply s → took_fee from coll fee s s'.
Proof.
  intros Hz Hok Hb Hs. split_and!; [done|..].
  - intros a d. unfold bal, at_addr. rewrite Hb, sum_of_zero by done. repeat case_match; lia.
  - intros d. unfold sup. by rewrite Hs.
  - intros d. unfold total. by rewrite Hb.
Qed.

Lemma took_fee_trans from coll fee s1 s2 s3 s4 : took_fee from coll fee s2 s3 →
  balances s2 = balances s1 → supply s2 = supply s1 → chain_ok s4 → balances s4 = balances s3 →
  supply s4 = supply s3 → took_fee from coll fee s1 s4.
Proof.
  intros (Hok & Hb & Hs & Ht) B1 S1 Hok4 B2 S2. split_and!; [done|..]; intros; unfold bal, sup, total in *;
    rewrite ?B2, ?S2; rewrite <- ?B1, <- ?S1; auto.
Qed.

Lemma send_fee acc coll fee x u x' : chain_ok (chain x) → GetModuleAddress cfg FeeCollectorName = Some coll →
  DeductFees cfg addr_String store_gas acc fee x = (Ok u, x') →
  wf fee ∧ took_fee (acc_address acc) coll fee (chain x) (chain x') ∧ acc_same (chain x) (chain x').
Proof.
  intros Hok Hcoll H. unfold DeductFees, charged in H. inv_ok.
  match goal with Hg : ConsumeGas _ _ = _ |- _ => apply ctx_gas_Ok in Hg as (g & _ & ->) end.
  match goal with Hs : on_chain _ _ = _ |- _ => apply on_chain_Ok in Hs as (c & Hs & ->); pose proof (steps_to_module _ _ _ _ _ _ _ _ Hs) as Hsame; rename Hs into Hsend end.
  simpl in *. unfold SendCoinsFromAccountToModule in Hsend.
  apply module_account_Ok in Hsend as (ma & s1 & Hm & Hok1 & [Hb1 Hs1] & Hsend); [|done].
  apply SendCoins_Ok in Hsend as (Hw & Hok' & [Hb Ht Hs]); [|done].
  assert (acc_address ma = coll) as Hma by congruence. rewrite Hma in Hb.
  split_and!; [done| |done]. split_and!; [done|..]; intros.
  - rewrite Hb. unfold bal. rewrite Hb1. lia.
  - rewrite Hs. unfold sup. rewrite Hs1. lia.
  - rewrite Ht. unfold total. rewrite Hb1. lia.
Qed.

(** The lookups and charges around a keeper call. *)
Lemma getAccount_Ok addr x a x' : getAccount addr x = (Ok a, x') →
  a = accounts (chain x) !! addr ∧ chain x' = chain x ∧ grants x' = grants x.
Proof.
  intros H. unfold Ante.getAccount, charged in H. inv_ok.
  match goal with Hg : ConsumeGas _ _ = _ |- _ => apply ctx_gas_Ok in Hg as (g & _ & ->) end.
  match goal with Hs : on_chain _ _ = _ |- _ => apply on_chain_Ok in Hs as (c & [-> ->]%gets_Ok & ->) end.
  done.
Qed.

Lemma setAccount_Ok acc x u x' : setAccount acc x = (Ok u, x') →
  chain x' = set_accounts (<[acc_address acc := acc]> (accounts (chain x))) (chain x) ∧ grants x' = grants x.
Proof.
  intros H. unfold Ante.setAccount, charged in H. inv_ok.
  match goal with Hg : ConsumeGas _ _ = _ |- _ => apply ctx_gas_Ok in Hg as (g & _ & ->) end.
  match goal with Hs : on_chain _ _ = _ |- _ => apply on_chain_Ok in Hs as (c & ->%modify_Ok & ->) end.
  done.
Qed.

Lemma GetSignerAcc_Ok addr x acc x' : GetSignerAcc addr x = (Ok acc, x') →
  accounts (chain x) !! addr = Some acc ∧ chain x' = chain x ∧ grants x' = grants x.
Proof.
  intros H. unfold Ante.GetSignerAcc in H. inv_ok.
  match goal with Hg : Ante.getAccount _ _ _ = _ |- _ => apply getAccount_Ok in Hg as (? & ? & ?) end.
  by simplify_eq.
Qed.

Section with_grants.
Context {FL : FeegrantLaws}.

(** A granter other than the payer pays only if the keeper lets it. *)
Definition grant_used tx (fee : list Coin) (payer : string) (granter : option string) : Prop :=
  ∀ gr, granter = Some gr → ∃ use, feegrantKeeper = Some use ∧
    (gr = payer ∨ ∃ y u y', use gr payer fee (Tx.GetMsgs tx) y = (Ok u, y')).

Lemma deductFeesFrom_Ok tx fee payer granter x from x' :
  deductFeesFrom feegrantKeeper store_gas tx fee payer granter x = (Ok from, x') →
  from = default payer granter ∧ grant_used tx fee payer granter ∧
  money x x' ∧ acc_same (chain x) (chain x').
Proof using FL.
  intros H. unfold deductFeesFrom in H. destruct granter as [gr|]; [|by inv_ok].
  destruct feegrantKeeper as [use|] eqn:Efk; [|by inv_ok]. inv_ok. split; [done|]. unfold grant_used.
  destruct (String.eqb_spec gr payer) as [->|Hne]; inv_ok.
  { split; [|done]. intros gr [= <-]. by exists use; split; [|left]. }
  unfold charged in *. inv_ok.
  match goal with Hg : ConsumeGas _ _ = _ |- _ => apply ctx_gas_Ok in Hg as (g & _ & ->) end.
  match goal with Hu : use _ _ _ _ _ = _ |- _ =>
    destruct (fk_law use _ _ _ _ Efk _ _ _ Hu) as (Hm & Ha & _); rename Hu into Huse end.
  split; [|by split]. intros gr' [= <-]. exists use. split; [done|]. right. by do 3 eexists.
Qed.

Lemma fee_Ok tx simulate x x' : chain_ok (chain x) → d_Fee tx simulate (mret ()) x = (Ok (), x') →
  ∃ coll fee payer granter acc, GetModuleAddress cfg FeeCollectorName = Some coll ∧ Tx.GetFee tx = Ok fee ∧
    Tx.FeePayer msg_GetSigners AccAddressFromBech32 addr_String tx = Ok payer ∧
    Tx.FeeGranter AccAddressFromBech32 tx = Ok granter ∧ grant_used tx fee payer granter ∧
    accounts (chain x') !! default payer granter = Some acc ∧ (Coins.IsZero fee = false → wf fee) ∧
    took_fee (default payer granter) coll fee (chain x) (chain x') ∧ acc_same (chain x) (chain x').
Proof using FL.
  intros Hok H. unfold DeductFeeDecorator in H.
  apply Mbind_Ok in H as (coll & y & [Hcoll%or_err_Ok ->]%lift_Ok & H).
  apply Mbind_Ok in H as (fee & y & [Hfee ->]%lift_Ok & H).
  apply Mbind_Ok in H as (payer & y & [Hpayer ->]%lift_Ok & H).
  apply Mbind_Ok in H as (granter & y & [Hgranter ->]%lift_Ok & H).
  apply Mbind_Ok in H as (from & x1 & (-> & Hfk & (Hok1 & Hb1 & Hs1) & Hsame1)%deductFeesFrom_Ok & H).
  apply Mbind_Ok in H as (a & x2 & (-> & Hx2 & _)%getAccount_Ok & H).
  apply Mbind_Ok in H as (acc & y & [Hacc%or_err_Ok ->]%lift_Ok & H).
  apply Mbind_Ok in H as ([] & x3 & Hded & H).
  apply Mbind_Ok in H as ([] & x4 & (c & ->%modify_Ok & ->)%on_chain_Ok & [_ ->]%mret_Ok). simpl.
  exists coll, fee, payer, granter, acc. specialize (Hok1 Hok).
  assert ((Coins.IsZero fee = false → wf fee) ∧ took_fee (default payer granter) coll fee (chain x1) (chain x3) ∧
    acc_same (chain x1) (chain x3)) as (Hw & Htook & Hsame2).
  { destruct (Coins.IsZero fee) eqn:Ez.
    - apply mret_Ok in Hded as [_ ->]. rewrite Hx2. split_and!; [done| |done]. by apply took_nothing.
    - apply (send_fee _ coll) in Hded as (Hw & Htook & Hsame); [|by rewrite Hx2|done]. rewrite Hx2 in Htook, Hsame.
      rewrite (ok_acc _ Hok1 _ _ Hacc) in Htook. done. }
  split_and!; try done.
  - by eapply lookup_weaken, Hsame2.
  - eapply took_fee_trans; try done. by apply chain_ok_events, Htook.
  - transitivity (chain x1); [done|]. transitivity (chain x3); [done|]. by apply acc_same_eq.
Qed.
End with_grants.

(** ** Storing public keys *)

Definition enrolled simulate x x' : Prop :=
  money x x' ∧ framed x x' ∧ (simulate = false → keyed pk_Address x x').
#[local] Instance enrolled_preorder simulate : PreOrder (enrolled simulate).
Proof.
  split; [intros x; by split_and!|]. intros x y z (A1 & A2 & A3) (B1 & B2 & B3).
  split_and!; [by transitivity y..|]. intros Hs. transitivity y; auto.
Qed.

Lemma enrolled_same simulate x x' : chain x' = chain x → enrolled simulate x x'.
Proof.
  intros E. split_and!.
  - split_and!; by rewrite E.
  - intros Hx. by rewrite E.
  - intros _ Hx. rewrite E. split; [done|eauto].
Qed.

Lemma enrolled_key simulate signer acc pk x x' : accounts (chain x) !! signer = Some acc → acc_pubkey acc = None →
  (simulate = false → pk_Address pk = Ok signer) →
  chain x' = set_accounts (<[acc_address acc := mkAccount (acc_address acc) (acc_number acc) (acc_module acc)
    (acc_vesting acc) (Some pk) (acc_sequence acc)]> (accounts (chain x))) (chain x) → enrolled simulate x x'.
Proof.
  intros Ha Hn Hpk Hx'. set (acc' := mkAccount _ _ _ _ _ _) in *.
  assert (chain_ok (chain x) → chain_ok (chain x')) as Hok.
  { rewrite Hx'. apply (chain_ok_insert _ acc'). }
  split_and!.
  - split_and!; [done|by rewrite Hx'..].
  - intros Hx. split; [auto|]. rewrite (ok_acc _ Hx _ _ Ha) in Hx'.
    eapply (acc_frame_update _ _ signer acc acc'); rewrite ?Hx'; try done.
    split; try done. cbn [acc_pubkey acc']. congruence.
  - intros Hs Hx. split; [auto|]. rewrite Hx'. simpl. rewrite (ok_acc _ Hx _ _ Ha). intros a acc1 pk1.
    intros [[<- <-]|[_ ?]]%lookup_insert_Some; [|eauto]. cbn [acc_pubkey acc']. intros [= <-]. auto.
Qed.

Lemma steps_set_pubkey simulate pk signer :
  steps (enrolled simulate) (set_pubkey pk_Address store_gas simulate pk signer).
Proof.
  intros x u x' H. unfold set_pubkey in H.
  apply Mbind_Ok in H as (sgn & y & [-> %or_panic_Ok ->]%lift_Ok & H).
  apply Mbind_Ok in H as (v & y & Hchk & H).
  assert (y = x ∧ (simulate = false → pk_Address pk = Ok sgn)) as [-> Haddr].
  { destruct simulate; inv_ok; [done|]. split; [done|].
    match goal with He : negb _ = false |- _ => apply negb_false_iff, String.eqb_eq in He as -> end. done. }
  apply Mbind_Ok in H as (acc & x1 & (Ha & Hx1 & _)%GetSignerAcc_Ok & H).
  destruct (acc_pubkey acc) as [pk'|] eqn:Epk; inv_ok; [by apply enrolled_same|].
  unfold SetPubKey in *. destruct (acc_module acc) eqn:Em; inv_ok; [done|].
  match goal with Hs : Ante.setAccount _ _ _ = _ |- _ => apply setAccount_Ok in Hs as [Hx' _] end.
  rewrite Hx1 in Hx'. eapply enrolled_key; [done|done|done|]. by rewrite Hx', Em.
Qed.

Lemma steps_PubKey tx simulate : steps (enrolled simulate) (d_PubKey tx simulate (mret ())).
Proof.
  unfold SetPubKeyDecorator. stepping.
  - generalize dependent a0. induction a as [|pk pks IH]; intros signers; simpl; stepping;
      auto using steps_set_pubkey.
  - intros x u x' (c & ->%modify_Ok & ->)%on_chain_Ok. split_and!.
    + apply (sound_events (R := money)).
    + apply (sound_events (R := framed)).
    + intros _. apply (sound_events (R := keyed pk_Address)).
Qed.

(** ** Checking signatures *)

(** The signature is that of the account's key, over this transaction, this
    chain, and the account's number and sequence. *)
Definition verified (s : Chain) tx (sig : Tx.SignatureV2) (signer : string) : Prop :=
  ∃ acc pk, accounts s !! signer = Some acc ∧ acc_pubkey acc = Some pk ∧
    Tx.sv_Sequence sig = acc_sequence acc ∧
    VerifySignature plain_verify
      (λ mode, GetSignBytes mode (signer_data env (blockHeight s =? 0) acc) tx) pk (Tx.sv_Data sig) = Ok ().

Lemma verify_sig_Ok tx sig signer x u x' :
  verify_sig plain_verify GetSignBytes store_gas env tx false sig signer x = (Ok u, x') →
  verified (chain x) tx sig signer ∧ chain x' = chain x.
Proof.
  intros H. unfold verify_sig in H.
  apply Mbind_Ok in H as (acc & x1 & (Ha & Hx1 & _)%GetSignerAcc_Ok & H).
  apply Mbind_Ok in H as (v & y & [Hn%fail_if_Ok ->]%lift_Ok & H).
  apply Mbind_Ok in H as (v' & y & [Hs%fail_if_Ok ->]%lift_Ok & H).
  apply Mbind_Ok in H as (gen & y & [-> ->]%gets_Ok & H).
  apply negb_false_iff, Z.eqb_eq in Hs. apply bool_decide_eq_false in Hn.
  destruct (acc_pubkey acc) as [pk|] eqn:Epk; [|done]. rewrite Hx1 in H.
  destruct (VerifySignature _ _ _ _) as [[]|e|e] eqn:Ev; [|done..].
  apply lift_Ok in H as [_ ->]. split; [|done]. by exists acc, pk.
Qed.

Lemma verify_sigs_Ok tx sigs signers x u x' : length sigs = length signers →
  verify_sigs plain_verify GetSignBytes store_gas env tx false sigs signers x = (Ok u, x') →
  Forall2 (verified (chain x) tx) sigs signers ∧ chain x' = chain x.
Proof.
  revert signers x. induction sigs as [|sig sigs IH]; intros [|signer signers] x Hl H; try done; simpl in H.
  - apply mret_Ok in H as [_ ->]. by split; [constructor|].
  - apply Mbind_Ok in H as (sg & y & [[= <-] ->]%lift_Ok & H).
    apply Mbind_Ok in H as (v & y & [Hv Hy]%verify_sig_Ok & H).
    apply IH in H as [Hs Hx']; [|simpl in Hl; lia]. rewrite Hy in *. split; [by constructor|done].
Qed.

Lemma Verify_Ok tx x x' : BaseApp.IsReCheckTx tc = false → d_Verify tx false (mret ()) x = (Ok (), x') →
  ∃ sigs signers, Tx.GetSignaturesV2 tx = Ok sigs ∧ GetSigners tx = Ok signers ∧
    Forall2 (verified (chain x) tx) sigs signers ∧ chain x' = chain x.
Proof.
  intros Hrc H. unfold SigVerificationDecorator in H. rewrite Hrc in H.
  apply Mbind_Ok in H as (sigs & y & [Hsigs ->]%lift_Ok & H).
  apply Mbind_Ok in H as (signers & y & [Hsigners ->]%lift_Ok & H).
  apply Mbind_Ok in H as (v & y & [Hl%fail_if_Ok ->]%lift_Ok & H).
  apply Mbind_Ok in H as (v' & y & [Hv Hy]%verify_sigs_Ok & [_ ->]%mret_Ok);
    [|by apply negb_false_iff, Nat.eqb_eq in Hl].
  by exists sigs, signers.
Qed.

(** ** Counting sequences up *)

Definition occ (a : string) (l : list string) : nat := length (filter (a =.) l).
Definition bump (n : nat) (q : Z) : Z := Nat.iter n (λ q, wrapu64 (q + 1)) q.

Lemma bump_small n q : 0 <= q → q + Z.of_nat n < 2 ^ 64 → bump n q = q + Z.of_nat n.
Proof.
  intros Hq. induction n as [|n IH]; intros Hn; simpl; [lia|]. unfold bump in *. rewrite IH by lia.
  unfold wrapu64. rewrite Z.mod_small; lia.
Qed.
Lemma bump_S n q : bump n (wrapu64 (q + 1)) = bump (S n) q.
Proof. unfold bump. by rewrite Nat.iter_succ_r. Qed.

Definition bumped (signers : list string) (s s' : Chain) : Prop :=
  ∀ a, accounts s' !! a = (λ acc, SetSequence acc (bump (occ a signers) (acc_sequence acc))) <$> accounts s !! a.

Lemma increment_one_Ok addr x u x' : chain_ok (chain x) → increment_one store_gas addr x = (Ok u, x') →
  ∃ acc, accounts (chain x) !! addr = Some acc ∧
    chain x' = set_accounts (<[addr := SetSequence acc (wrapu64 (acc_sequence acc + 1))]> (accounts (chain x))) (chain x).
Proof.
  intros Hok H. unfold increment_one in H.
  apply Mbind_Ok in H as (a & x1 & (-> & Hx1 & _)%getAccount_Ok & H).
  apply Mbind_Ok in H as (acc & y & [Hacc%or_panic_Ok ->]%lift_Ok & [Hx' _]%setAccount_Ok).
  exists acc. split; [done|]. rewrite Hx', Hx1. unfold SetSequence. cbn [acc_address].
  by rewrite (ok_acc _ Hok _ _ Hacc).
Qed.

Lemma increment_Ok signers x u x' : chain_ok (chain x) → for_each (increment_one store_gas) signers x = (Ok u, x') →
  chain_ok (chain x') ∧ money x x' ∧ bumped signers (chain x) (chain x') ∧
  blockHeight (chain x') = blockHeight (chain x) ∧ ∀ a, a ∈ signers → is_Some (accounts (chain x) !! a).
Proof.
  revert x. induction signers as [|addr signers IH]; intros x Hok H; simpl in H.
  - apply mret_Ok in H as [_ ->]. split_and!; try done; [|by intros a ?%not_elem_of_nil].
    intros a. destruct (accounts (chain x) !! a) as [[]|]; done.
  - apply Mbind_Ok in H as (v & y & (acc & Ha & Hy)%increment_one_Ok & H); [|done].
    assert (chain_ok (chain y)) as Hok1.
    { rewrite Hy. pose proof (chain_ok_insert _ (SetSequence acc (wrapu64 (acc_sequence acc + 1))) Hok) as Hi.
      cbn [SetSequence acc_address] in Hi. by rewrite (ok_acc _ Hok _ _ Ha) in Hi. }
    apply IH in H as (Hok' & (_ & Hb & Hs) & Hbump & Hh & Hin); [|done]. split_and!; [done|..].
    + split_and!; [done|by rewrite Hb, Hy|by rewrite Hs, Hy].
    + intros a. rewrite Hbump, Hy. cbn [accounts set_accounts]. unfold occ. rewrite filter_cons.
      destruct (decide (a = addr)) as [->|Hne].
      * rewrite lookup_insert_eq, Ha. simpl. f_equal. unfold SetSequence. cbn [acc_sequence]. by rewrite bump_S.
      * rewrite lookup_insert_ne by done. done.
    + by rewrite Hh, Hy.
    + intros a [->|Hin']%elem_of_cons; [by rewrite Ha|]. destruct (Hin a Hin') as [acc' Hacc'].
      rewrite Hy in Hacc'. cbn [accounts set_accounts] in Hacc'.
      destruct (decide (a = addr)) as [->|Hne]; [by rewrite Ha|]. rewrite lookup_insert_ne in Hacc' by done. eauto.
Qed.

Lemma Sequence_Ok tx simulate x x' : chain_ok (chain x) → d_Sequence tx simulate (mret ()) x = (Ok (), x') →
  ∃ signers, GetSigners tx = Ok signers ∧ chain_ok (chain x') ∧ money x x' ∧
    bumped signers (chain x) (chain x') ∧ blockHeight (chain x') = blockHeight (chain x) ∧
    ∀ a, a ∈ signers → is_Some (accounts (chain x) !! a).
Proof.
  intros Hok H. unfold IncrementSequenceDecorator in H.
  apply Mbind_Ok in H as (signers & y & [Hsg ->]%lift_Ok & H).
  apply Mbind_Ok in H as (v & y & Hinc%increment_Ok & [_ ->]%mret_Ok); [|done]. eauto.
Qed.

(** ** An accepted transaction *)

Lemma SetUp_Ok tx simulate x x' : d_SetUp tx simulate (mret ()) x = (Ok (), x') →
  ∃ gas, Tx.GetGas tx = Ok gas ∧ x' = SetGasMeter simulate gas x.
Proof.
  intros H. unfold SetUpContextDecorator in H.
  apply Mbind_Ok in H as (gas & y & [Hg ->]%lift_Ok & H).
  apply Mbind_Ok in H as (v & y & ->%modify_Ok & H). apply recover_gas_Ok, mret_Ok in H as [_ ->]. eauto.
Qed.

Lemma SetGasMeter_chain simulate gas x : chain (SetGasMeter simulate gas x) = chain x.
Proof. unfold SetGasMeter. by case_match. Qed.

(** The states between the groups of decorators. *)
Record stages tx simulate x x0 x1 x2 x3 x4 x5 x' : Prop := {
  st_setup : ∃ gas, Tx.GetGas tx = Ok gas ∧ x0 = SetGasMeter simulate gas x;
  st_early : path early tx simulate x0 x1;
  st_fee : d_Fee tx simulate (mret ()) x1 = (Ok (), x2);
  st_keys : d_PubKey tx simulate (mret ()) x2 = (Ok (), x3);
  st_late : path late tx simulate x3 x4;
  st_verify : d_Verify tx simulate (mret ()) x4 = (Ok (), x5);
  st_sequence : d_Sequence tx simulate (mret ()) x5 = (Ok (), x') }.

Lemma accepted_stages h tx simulate x x' : handler = Some h → h tx simulate x = (Ok (), x') →
  ∃ x0 x1 x2 x3 x4 x5, stages tx simulate x x0 x1 x2 x3 x4 x5 x'.
Proof.
  intros Hh H. rewrite (accepted_path h) in H by done. destruct H as (x0 & H0%SetUp_Ok & H).
  apply path_app in H as (x1 & H1 & x2 & H2 & x3 & H3 & H). apply path_app in H as (x4 & H4 & x5 & H5 & x6 & H6 & ->).
  by exists x0, x1, x2, x3, x4, x5.
Qed.

Section accepted.
Context {FL : FeegrantLaws}.

(** Everything but the sequences: what has happened when the signatures have
    been checked. *)
Lemma stages_before tx simulate x x0 x1 x2 x3 x4 x5 x' : chain_ok (chain x) →
  stages tx simulate x x0 x1 x2 x3 x4 x5 x' →
  ∃ coll fee payer granter, GetModuleAddress cfg FeeCollectorName = Some coll ∧ Tx.GetFee tx = Ok fee ∧
    Tx.FeePayer msg_GetSigners AccAddressFromBech32 addr_String tx = Ok payer ∧
    Tx.FeeGranter AccAddressFromBech32 tx = Ok granter ∧ grant_used tx fee payer granter ∧
    (Coins.IsZero fee = false → wf fee) ∧
    took_fee (default payer granter) coll fee (chain x) (chain x4) ∧
    acc_frame (chain x) (chain x4) ∧ (simulate = false → keyed pk_Address x x4).
Proof using FL.
  intros Hok [(gas & _ & ->) H1 H2 H3 H4 _ _].
  assert (money (SetGasMeter simulate gas x) x1 ∧ framed (SetGasMeter simulate gas x) x1 ∧
    keyed pk_Address (SetGasMeter simulate gas x) x1) as ((A1 & A2 & A3) & A4 & A5).
  { split_and!; (eapply path_steps; [typeclasses eauto|by apply (steps_early _ (λ _, True))|done]). }
  assert (money x3 x4 ∧ framed x3 x4 ∧ keyed pk_Address x3 x4) as ((C1 & C2 & C3) & C4 & C5).
  { split_and!; (eapply path_steps; [typeclasses eauto|by apply (steps_late _ (λ _, True))|done]). }
  unfold framed, keyed in *. rewrite SetGasMeter_chain in *. destruct (A4 Hok) as [Hok1 F1].
  destruct (fee_Ok _ _ _ _ Hok1 H2) as (coll & fee & payer & granter & acc & E1 & E2 & E3 & E4 & E5 & E6 & E7 & E8 & E9).
  destruct (steps_PubKey _ _ _ _ _ H3) as ((B1 & B2 & B3) & B4 & B5). pose proof (proj1 E8) as Hok2.
  destruct (B4 Hok2) as [Hok3 F3]. destruct (C4 Hok3) as [Hok4 F4].
  exists coll, fee, payer, granter. split_and!; try done.
  - eapply took_fee_trans; try done; congruence.
  - transitivity (chain x1); [done|]. transitivity (chain x2); [by apply acc_same_frame|]. by transitivity (chain x3).
  - intros Hs. assert (keyed pk_Address x x1) as K1 by exact A5.
    assert (keyed pk_Address x1 x2) as K2 by (destruct x2; by apply acc_same_keyed).
    assert (keyed pk_Address x3 x4) as K4 by exact C5.
    assert (keyed pk_Address x x4) as K by (transitivity x1; [done|]; transitivity x2; [done|]; transitivity x3; auto).
    exact K.
Qed.

Lemma bumped_seq signers s s' a : bumped signers s s' → (∀ a, a ∈ signers → is_Some (accounts s !! a)) →
  seq_of s' a = bump (occ a signers) (seq_of s a).
Proof.
  intros Hb Hin. unfold seq_of. rewrite Hb. destruct (accounts s !! a) as [acc|] eqn:E; [done|]. simpl.
  assert (occ a signers = 0%nat) as ->; [|done]. unfold occ. apply length_zero_iff_nil.
  destruct (filter (a =.) signers) as [|b l] eqn:Ef; [done|].
  assert (b ∈ filter (a =.) signers) as [<- Hb']%list_elem_of_filter by (rewrite Ef; left).
  destruct (Hin a Hb'). congruence.
Qed.

(** Accounts stay. *)
Lemma stages_known tx simulate x x0 x1 x2 x3 x4 x5 x' a : chain_ok (chain x) →
  stages tx simulate x x0 x1 x2 x3 x4 x5 x' → is_Some (accounts (chain x) !! a) → is_Some (accounts (chain x') !! a).
Proof using FL.
  intros Hok St [acc Ha].
  destruct (stages_before _ _ _ _ _ _ _ _ _ _ Hok St) as (coll & fee & payer & granter & _ & _ & _ & _ & _ & _ & Htook & Hf & _).
  destruct St as [_ _ _ _ _ Hv Hs]. pose proof (proj1 Htook) as Hok4.
  pose proof (steps_Verify framed (λ _, True) (λ _ _, I) _ _ _ _ _ Hv Hok4) as (Hok5 & Hf5).
  apply Sequence_Ok in Hs as (signers & _ & _ & _ & Hb & _); [|done]. rewrite Hb.
  apply (af_old _ _ Hf) in Ha as (acc4 & Ha4 & _). apply (af_old _ _ Hf5) in Ha4 as (acc5 & -> & _). by eexists.
Qed.

Lemma stages_spec tx simulate x x0 x1 x2 x3 x4 x5 x' : chain_ok (chain x) →
  stages tx simulate x x0 x1 x2 x3 x4 x5 x' →
  ∃ coll fee payer granter signers, GetModuleAddress cfg FeeCollectorName = Some coll ∧ Tx.GetFee tx = Ok fee ∧
    Tx.FeePayer msg_GetSigners AccAddressFromBech32 addr_String tx = Ok payer ∧
    Tx.FeeGranter AccAddressFromBech32 tx = Ok granter ∧ grant_used tx fee payer granter ∧
    (Coins.IsZero fee = false → wf fee) ∧ GetSigners tx = Ok signers ∧
    took_fee (default payer granter) coll fee (chain x) (chain x') ∧
    ∀ a, seq_of (chain x') a = bump (occ a signers) (seq_of (chain x) a).
Proof using FL.
  intros Hok St.
  destruct (stages_before _ _ _ _ _ _ _ _ _ _ Hok St) as (coll & fee & payer & granter & E1 & E2 & E3 & E4 & E5 & E6 & Htook & Hf & _).
  destruct St as [_ _ _ _ _ Hv Hs]. pose proof (proj1 Htook) as Hok4.
  pose proof (steps_Verify money (λ _, True) (λ _ _, I) _ _ _ _ _ Hv) as (Hok5 & Hb5 & Hs5).
  pose proof (steps_Verify framed (λ _, True) (λ _ _, I) _ _ _ _ _ Hv Hok4) as (_ & Hf5).
  apply Sequence_Ok in Hs as (signers & Hsg & Hok' & (_ & Hb' & Hs') & Hb & _ & Hin); [|auto].
  exists coll, fee, payer, granter, signers. split_and!; try done.
  - eapply took_fee_trans; try done; congruence.
  - intros a. rewrite (bumped_seq _ _ _ _ Hb Hin). f_equal.
    rewrite (acc_frame_seq _ _ _ Hf5). by apply acc_frame_seq.
Qed.
End accepted.

(** ** Gas *)

Section gas.
Context {FL : FeegrantLaws}.
Context (store_nonneg : ∀ c x, 0 <= store_gas c x).
Context (params_nonneg : 0 <= par_SigVerifyCostED25519 (params env) ∧ 0 <= SigVerifyCostSecp256k1 (params env)).

Lemma metered_on_chain {A} (m : M Chain A) : steps metered (@on_chain G A m).
Proof. intros x a x' (c & _ & ->)%on_chain_Ok. by apply metered_same. Qed.

Lemma wrapu64_nonneg z : 0 <= wrapu64 z.
Proof. unfold wrapu64. apply Z.mod_pos_bound. lia. Qed.

Lemma metered_charged {A} c (m : M (Ctx G) A) : steps metered m → steps metered (charged store_gas c m).
Proof using store_nonneg. by apply (steps_charged _ (λ n, 0 <= n)). Qed.

Lemma metered_early tx simulate x x' : path early tx simulate x x' → metered x x'.
Proof using store_nonneg.
  eapply path_steps; [typeclasses eauto|].
  apply (steps_early _ (λ n, 0 <= n)); [done|apply wrapu64_nonneg].
Qed.

(** The size of the transaction is paid for. *)
Lemma size_gas tx simulate x x' : Gas.meter_ok (gasMeter x) → path early tx simulate x x' →
  wrapu64 (TxSizeCostPerByte (params env) * Wire.slen (BaseApp.TxBytes tc)) <= Gas.GasConsumed (gasMeter x').
Proof using store_nonneg.
  intros Hm (y & H1 & z & H2 & ->)%path_app. set (n := wrapu64 _).
  assert (metered x y) as Hxy.
  { eapply path_steps; [typeclasses eauto| |exact H1].
    pose proof (steps_early _ (λ n, 0 <= n) store_nonneg wrapu64_nonneg tx simulate) as He.
    by apply Forall_app in He as [? _]. }
  destruct (Hxy Hm) as (Hy & _). unfold ConsumeTxSizeGasDecorator in H2.
  apply Mbind_Ok in H2 as (p & y1 & H3 & H2).
  pose proof (steps_GetParams metered (λ n, 0 <= n) store_nonneg _ _ _ H3 Hy) as (Hy1 & _).
  assert (p = params env) as -> by (unfold GetParams, charged in H3; by inv_ok).
  apply Mbind_Ok in H2 as (u & y2 & (g & Hg & ->)%ctx_gas_Ok & H2).
  pose proof (Gas.ConsumeGas_ok n _ Hy1 (wrapu64_nonneg _)) as Hok. fold n in Hg. rewrite Hg in Hok.
  apply Gas.ConsumeGas_Ok in Hg as (Hc & _ & _); [|done|apply wrapu64_nonneg].
  apply Mbind_Ok in H2 as (v & y3 & H4 & [_ ->]%mret_Ok).
  assert (steps metered (if simulate then
      sigs ← lift (Tx.GetSignaturesV2 tx); signers ← lift (GetSigners tx);
      sim_sigs_gas simSecp256k1Pubkey simSig_len store_gas (params env) sigs signers else mret ())) as Hsim.
  { stepping. apply (steps_sim_sigs_gas _ (λ n, 0 <= n)); [done|apply wrapu64_nonneg]. }
  pose proof (Hsim _ _ _ H4) as Hz.
  destruct (Hz Hok) as (_ & _ & Hle & _). simpl in Hle. destruct Hy1. lia.
Qed.

Lemma metered_late tx simulate x x' : path late tx simulate x x' → metered x x'.
Proof using store_nonneg params_nonneg.
  eapply path_steps; [typeclasses eauto|]. destruct params_nonneg.
  apply (steps_late _ (λ n, 0 <= n)); try done. apply Z.div_pos; lia.
Qed.

Lemma metered_getAccount addr : steps metered (getAccount addr).
Proof using store_nonneg. apply metered_charged, metered_on_chain. Qed.

Lemma metered_setAccount acc : steps metered (setAccount acc).
Proof using store_nonneg. apply metered_charged, metered_on_chain. Qed.

Lemma metered_Fee tx simulate : steps metered (d_Fee tx simulate (mret ())).
Proof using FL store_nonneg.
  unfold DeductFeeDecorator, DeductFees. stepping; auto using metered_getAccount, metered_charged, metered_on_chain.
  unfold deductFeesFrom. destruct feegrantKeeper as [use|] eqn:E; stepping. apply metered_charged.
  intros x u x' Hu. by apply (fk_law use _ _ _ _ E) in Hu as (_ & _ & ?).
Qed.

Lemma metered_PubKey tx simulate : steps metered (d_PubKey tx simulate (mret ())).
Proof using store_nonneg.
  assert (∀ pk signer, steps metered (set_pubkey pk_Address store_gas simulate pk signer)) as Hset.
  { intros pk signer. unfold set_pubkey, Ante.GetSignerAcc.
    stepping; auto using metered_getAccount, metered_setAccount. }
  unfold SetPubKeyDecorator. stepping; auto using metered_on_chain.
  generalize dependent a0. induction a as [|pk pks IH]; intros signers; simpl; stepping; auto.
Qed.

Lemma metered_Verify tx simulate : steps metered (d_Verify tx simulate (mret ())).
Proof using store_nonneg. by apply (steps_Verify _ (λ n, 0 <= n)). Qed.

Lemma metered_Sequence tx simulate : steps metered (d_Sequence tx simulate (mret ())).
Proof using store_nonneg.
  unfold IncrementSequenceDecorator, increment_one.
  stepping; auto using metered_getAccount, metered_setAccount.
Qed.
End gas.

End facts.
End AnteFacts.
