(* ===== verification/FeegrantProps.v ===== *)
(** * What fee grants promise

    The keeper of x/feegrant meets the contract the ante handler relies on;
    basic and periodic allowances are budgets; a restricted allowance is not
    debited. *)

From Stdlib Require Import ZArith Lia Ascii String.
From stdpp Require Import base tactics option list gmap strings.
From S2P Require Import Prelude GoStd Digits SdkInt Coin CoinFacts CoinProps MultiSig Chain Bank BankFacts.
From S2P Require Import AccountFacts Store Gas Context Feegrant Ante AnteFacts.

Local Open Scope Z_scope.

Module FeegrantProps.
Import Feegrant AnteFacts.

(** ** Limits *)

(** A set of coins a limit can be. *)
Definition limit_ok (l : list Coin) : Prop := wf l ∧ in_range l.

Lemma SafeSub_limit a b : limit_ok a → limit_ok b →
  ∃ diff neg, Coins.SafeSub a b = Ok (diff, neg) ∧ (neg = false ↔ ∀ d, sum_of d b <= sum_of d a) ∧
    (neg = false → limit_ok diff ∧ ∀ d, sum_of d diff = sum_of d a - sum_of d b).
Proof.
  intros [Ha Hra] [Hb Hrb].
  destruct (SafeSub_spec a b Ha Hb Hra Hrb) as (diff & neg & Hs & Hso & Hz & Hd & Hden & Hneg).
  exists diff, neg. split_and!; [done|done|]. intros Hn. split; [|done].
  pose proof (proj1 Hneg Hn) as Hle. split; [split; [done|]|]; apply Forall_forall; intros c Hc.
  - rewrite Forall_forall in Hden, Hz. split; [by apply Hden|]. specialize (Hz c Hc).
    specialize (Hle (Denom c)). specialize (Hd (Denom c)). rewrite (sum_of_elem c) in Hd by done.
    unfold nonzero in Hz. lia.
  - specialize (Hle (Denom c)). specialize (Hd (Denom c)). rewrite (sum_of_elem c) in Hd by done.
    pose proof (wf_sum_nonneg (Denom c) b Hb). pose proof (sum_of_valid (Denom c) a (proj1 Ha) Hra) as Hv.
    unfold Int.valid in *. lia.
Qed.

Lemma IsZero_nil l : limit_ok l → Coins.IsZero l = true ↔ l = [].
Proof.
  intros [[_ Hok] _]. split; [|by intros ->]. destruct l as [|c l]; [done|]. simpl.
  intros [Hz _]%andb_true_iff. apply Int.IsZero_true in Hz. apply Forall_cons in Hok as [[_ ?] _]. lia.
Qed.

(** ** The contract with the ante handler *)

#[global] Instance granted_sound {G} : Sound (@granted G) (λ n, 0 <= n).
Proof.
  split.
  - split.
    + intros x. split_and!; reflexivity.
    + intros x y z (A1 & A2 & A3) (B1 & B2 & B3). split_and!; [by transitivity y|by transitivity (chain y)|by transitivity y].
  - intros x e. split_and!; [apply (sound_events (R := money))|by apply acc_same_eq|by apply metered_same].
  - intros n x g Hn Hg. split_and!; [by eapply (sound_gas (R := money))|by apply acc_same_eq|].
    by eapply (sound_gas (R := metered)).
Qed.

Section contract.
Context {Msg : Type} (MsgTypeURL : Msg → string) (addr_String : string → string) (time_fits : Z → bool).

Abbreviation on_meter := (AnteFacts.on_meter (G := Grants)).

Lemma granted_grants (x : Ctx Grants) g : granted x (mkCtx (chain x) g (gasMeter x)).
Proof. split_and!; [split_and!; done|by apply acc_same_eq|by apply metered_same]. Qed.

Lemma steps_on_grants {A} (m : M Grants A) : steps granted (on_grants m).
Proof. intros x a x' (g & _ & ->)%on_grants_Ok. apply granted_grants. Qed.

Lemma steps_emit_grant e : steps granted (emit e).
Proof. intros x a x' (c & ->%modify_Ok & ->)%on_chain_Ok. apply sound_events. Qed.

Lemma steps_new_account grantee :
  steps (λ x x' : Ctx Grants, granted x x')
    (granteeAcc ← on_chain (GetAccount grantee);
     match granteeAcc with
     | None => acc ← on_chain (NewAccountWithAddress grantee); on_chain (SetAccount acc)
     | Some _ => mret ()
     end).
Proof.
  intros x u x' H. apply Mbind_Ok in H as (a & y & (c & [-> ->]%gets_Ok & ->)%on_chain_Ok & H).
  destruct (accounts (chain x) !! grantee) as [acc|] eqn:E.
  - apply mret_Ok in H as [_ ->]. apply granted_grants.
  - apply Mbind_Ok in H as (acc & y & (c & Hn & ->)%on_chain_Ok & (c' & ->%modify_Ok & ->)%on_chain_Ok).
    unfold NewAccountWithAddress, NewAccount, GetNextAccountNumber in Hn. inv_ok. split_and!.
    + split_and!; [|done|done]. intros [H1 H2 H3]. split; [done|done|]. simpl.
      intros a acc [[<- <-]|[_ ?]]%lookup_insert_Some; [done|auto].
    + by eapply acc_same_insert.
    + by apply metered_same.
Qed.

Lemma steps_GrantAllowance granter grantee a : steps granted (GrantAllowance addr_String time_fits granter grantee a).
Proof.
  intros x u x' H. unfold GrantAllowance in H. apply Mbind_Ok in H as (ga & y & H1 & H).
  apply Mbind_Ok in H as (v & y1 & H2 & H). transitivity y1.
  - apply (steps_new_account grantee x v). apply Mbind_Ok. eauto.
  - revert H. apply (λ Hs : steps granted (key ← lift (FeeAllowanceKey granter grantee);
      grant ← lift (NewGrant addr_String time_fits granter grantee a);
      _ ← on_grants (modify (<[key := grant]>));
      emit (grant_event "set_feegrant" (Granter grant) (Grantee grant))), Hs y1 u x').
    stepping; auto using steps_on_grants, steps_emit_grant.
Qed.

Lemma steps_getGrant granter grantee : steps granted (getGrant granter grantee).
Proof. unfold getGrant. stepping. apply steps_on_grants. Qed.

Lemma steps_revoke granter grantee : steps granted (revokeAllowance addr_String granter grantee).
Proof. unfold revokeAllowance. stepping; auto using steps_getGrant, steps_on_grants, steps_emit_grant. Qed.

Lemma FeeAllowanceI_nested_ind (Q : FeeAllowanceI → Prop) :
  (∀ b, Q (Basic b)) → (∀ p, Q (Periodic p)) →
  (∀ value cached allowed, (∀ a, value = Some a → Q a) → (∀ a, cached = Some a → Q a) → Q (AllowedMsg value cached allowed)) →
  ∀ a, Q a.
Proof.
  intros H1 H2 H3. fix IH 1. intros [b|p|value cached allowed]; [apply H1|apply H2|apply H3].
  - destruct value as [v|]; intros a E; [|discriminate]. injection E as <-. apply IH.
  - destruct cached as [c|]; intros a E; [|discriminate]. injection E as <-. apply IH.
Qed.

Lemma steps_iteration : steps granted (on_meter (Gas.ConsumeGas gasCostPerIteration)).
Proof. by apply (on_meter_gas _ (λ n, 0 <= n)). Qed.

Lemma steps_msgs allowed urls : steps granted (on_meter (allMsgTypesAllowed allowed urls)).
Proof.
  apply (on_meter_bind _ (λ n, 0 <= n)).
  - induction allowed as [|m allowed IH]; simpl; [apply (on_meter_lift _ (λ n, 0 <= n) (Ok ()))|].
    apply (on_meter_bind _ (λ n, 0 <= n)); [apply steps_iteration|done].
  - intros _. induction urls as [|url urls IH]; simpl; [apply (on_meter_lift _ (λ n, 0 <= n) (Ok true))|].
    apply (on_meter_bind _ (λ n, 0 <= n)); [apply steps_iteration|]. intros _.
    destruct (existsb _ _); [done|]. apply (on_meter_lift _ (λ n, 0 <= n) (Ok false)).
Qed.

Lemma steps_Accept a t fee urls : steps granted (on_meter (Accept a t fee urls)).
Proof.
  assert (∀ A (o : outcome A), steps granted (on_meter (lift o))) as Hl
    by (intros; apply (on_meter_lift _ (λ n, 0 <= n))).
  assert (∀ A (v : A), steps granted (on_meter (mret v))) as Hr by (intros A v; apply (Hl A (Ok v))).
  induction a as [b|p|value cached allowed _ IH] using FeeAllowanceI_nested_ind; cbn [Accept].
  - apply (on_meter_bind _ (λ n, 0 <= n)); [apply Hl|]. intros [[??]?]. apply Hr.
  - apply (on_meter_bind _ (λ n, 0 <= n)); [apply Hl|]. intros [[??]?]. apply Hr.
  - apply (on_meter_bind _ (λ n, 0 <= n)); [apply steps_msgs|]. intros [|]; [|apply Hr].
    destruct value as [v|]; [|apply Hl]. destruct cached as [c|]; [|apply Hr].
    apply (on_meter_bind _ (λ n, 0 <= n)); [by apply IH|]. intros [[??]?]. apply Hr.
Qed.

(** What the lookup of a grant does. *)
Lemma getGrant_run granter grantee (x : Ctx Grants) : getGrant granter grantee x =
  (key ← FeeAllowanceKey granter grantee; or_err (grants x !! key) "fee-grant not found", x).
Proof.
  unfold getGrant, mbind, M_bind, lift. destruct (FeeAllowanceKey granter grantee) as [key|e|e]; [|done..].
  by destruct x.
Qed.

Lemma revoke_run granter grantee (x : Ctx Grants) : revokeAllowance addr_String granter grantee x =
  match (key ← FeeAllowanceKey granter grantee; g ← or_err (grants x !! key) "fee-grant not found"; Ok key) with
  | Ok key => (Ok (), mkCtx (set_events (events (chain x) ++ [grant_event "revoke_feegrant" (addr_String granter)
                       (addr_String grantee)]) (chain x)) (delete key (grants x)) (gasMeter x))
  | Err e => (Err e, x)
  | Panic e => (Panic e, x)
  end.
Proof.
  unfold revokeAllowance, mbind, M_bind. rewrite getGrant_run. unfold lift, mbind, outcome_bind.
  destruct (FeeAllowanceKey granter grantee) as [key|e|e]; [|done..]. by destruct (grants x !! key).
Qed.

Lemma steps_ignore_revoke granter grantee :
  steps granted (ignore_err (revokeAllowance addr_String granter grantee)).
Proof.
  intros x u x'. unfold ignore_err. rewrite revoke_run.
  destruct (_ ≫= _) as [key|e|e]; intros [= <- <-] || done; [|reflexivity].
  transitivity (mkCtx (chain x) (delete key (grants x)) (gasMeter x)); [apply granted_grants|].
  refine (sound_events (R := granted) (good := λ n, 0 <= n) (mkCtx (chain x) (delete key (grants x)) (gasMeter x)) _).
Qed.

(** The keeper meets the contract. *)
#[export] Instance feegrant_laws : FeegrantLaws (Some (UseGrantedFees MsgTypeURL addr_String time_fits)).
Proof.
  intros use granter grantee fee msgs [= <-]. unfold UseGrantedFees, GetAllowance. stepping;
    auto using steps_getGrant, steps_emit_grant, steps_GrantAllowance, steps_ignore_revoke.
  apply steps_Accept.
Qed.

(** ** Using a grant *)

Abbreviation use := (UseGrantedFees MsgTypeURL addr_String time_fits).

Lemma GrantAllowance_Ok granter grantee a x u x' key : FeeAllowanceKey granter grantee = Ok key →
  GrantAllowance addr_String time_fits granter grantee a x = (Ok u, x') →
  ∃ any, encode time_fits a = Ok any ∧
    grants x' = <[key := mkGrant (addr_String granter) (addr_String grantee) any]> (grants x).
Proof.
  intros Hk H. unfold GrantAllowance in H. apply Mbind_Ok in H as (ga & y & (c & _ & ->)%on_chain_Ok & H).
  apply Mbind_Ok in H as (v & y1 & H2 & H).
  assert (grants y1 = grants x) as Hy1.
  { destruct ga; [by apply mret_Ok in H2 as [_ ->]|].
    by apply Mbind_Ok in H2 as (acc & z & (c1 & _ & ->)%on_chain_Ok & (c2 & _ & ->)%on_chain_Ok). }
  apply Mbind_Ok in H as (k & y2 & [Hk2 ->]%lift_Ok & H). rewrite Hk in Hk2. injection Hk2 as <-.
  apply Mbind_Ok in H as (grant & y2 & [Hg ->]%lift_Ok & H).
  apply Mbind_Ok in H as (w & y2 & (g & ->%modify_Ok & ->)%on_grants_Ok & (c1 & _ & ->)%on_chain_Ok). simpl.
  unfold NewGrant in Hg. apply bind_Ok in Hg as (any & Hany & [= <-]). exists any. by rewrite Hy1.
Qed.

Lemma use_Ok granter grantee key fee msgs x u x' : FeeAllowanceKey granter grantee = Ok key →
  use granter grantee fee msgs x = (Ok u, x') →
  ∃ g remove a' m', grants x !! key = Some g ∧
    Accept (unpack (g_Allowance g)) (blockTime (chain x)) fee (map MsgTypeURL msgs) (gasMeter x)
      = (Ok (remove, None, a'), m') ∧
    if remove : bool then grants x' = delete key (grants x)
    else ∃ any, encode time_fits a' = Ok any ∧
      grants x' = <[key := mkGrant (addr_String granter) (addr_String grantee) any]> (grants x).
Proof.
  intros Hk H. unfold UseGrantedFees, GetAllowance in H. apply Mbind_Ok in H as (al & y & H1 & H).
  apply Mbind_Ok in H1 as (g & y1 & Hg & [-> ->]%mret_Ok). rewrite getGrant_run, Hk in Hg. simpl in Hg.
  injection Hg as Hg <-. apply or_err_Ok in Hg.
  apply Mbind_Ok in H as (t & y & [-> ->]%gets_Ok & H).
  apply Mbind_Ok in H as ([[remove err] a'] & y & (m' & Hacc & ->)%zoom_Ok & H).
  assert (err = None) as ->.
  { destruct remove, err; [|done| |done]; [apply Mbind_Ok in H as (? & ? & _ & H)|]; by apply lift_Ok in H as [? _]. }
  exists g, remove, a', m'. split_and!; [done|done|]. destruct remove.
  - apply Mbind_Ok in H as (v & y & Hrev & (c & _ & ->)%on_chain_Ok). simpl.
    unfold ignore_err in Hrev. rewrite revoke_run, Hk in Hrev. simpl in Hrev. rewrite Hg in Hrev. simpl in Hrev.
    by injection Hrev as <- <-.
  - apply Mbind_Ok in H as (v & y & (c & _ & ->)%on_chain_Ok & H).
    by apply (GrantAllowance_Ok _ _ _ _ _ _ key) in H.
Qed.

(** Uses of one grant, with anything in between that leaves it alone. *)
Inductive history (granter grantee key : string) : option Grant → list (list Coin) → option Grant → Prop :=
  | h_nil g : history granter grantee key g [] g
  | h_use x fee msgs x' fees g' : use granter grantee fee msgs x = (Ok (), x') →
      history granter grantee key (grants x' !! key) fees g' →
      history granter grantee key (grants x !! key) (fee :: fees) g'.

Definition spent (d : string) (fees : list (list Coin)) : Z := foldr Z.add 0 (map (sum_of d) fees).

(** One use of a basic allowance. *)
Lemma use_basic granter grantee key fee msgs x u x' a b L exp : FeeAllowanceKey granter grantee = Ok key →
  grants x !! key = Some (mkGrant a b (Basic (mkBasic (Some L) exp))) → limit_ok L → limit_ok fee →
  use granter grantee fee msgs x = (Ok u, x') →
  (∀ d, sum_of d fee <= sum_of d L) ∧
  ∃ L', limit_ok L' ∧ (∀ d, sum_of d L' = sum_of d L - sum_of d fee) ∧
    grants x' !! key = match L' with
                       | [] => None
                       | _ => Some (mkGrant (addr_String granter) (addr_String grantee) (Basic (mkBasic (Some L') exp)))
                       end.
Proof.
  intros Hk Hg HL Hf H. apply (use_Ok _ _ key) in H as (g & remove & a' & m' & Hg' & Hacc & Hres); [|done].
  rewrite Hg in Hg'. injection Hg' as <-. cbn [unpack g_Allowance Accept] in Hacc.
  apply Mbind_Ok in Hacc as ([[r e] b'] & m1 & [Hb ->]%lift_Ok & [Heq ->]%mret_Ok). injection Heq as <- <- ->.
  unfold BasicAllowance_Accept in Hb. destruct (expired _ _); [done|]. cbn [SpendLimit] in Hb.
  destruct (SafeSub_limit L fee HL Hf) as (L' & neg & Hs & Hneg & Hpos). rewrite Hs in Hb. simpl in Hb.
  destruct neg; [done|]. injection Hb as <- <-. destruct (Hpos eq_refl) as [HL' Hd]. split; [by apply Hneg|].
  exists L'. split_and!; [done|done|]. pose proof (IsZero_nil L' HL') as Hz.
  destruct (Coins.IsZero L') eqn:Ez.
  - rewrite (proj1 Hz) by done. rewrite Hres. apply lookup_delete_eq.
  - destruct Hres as (any & Hany & ->). rewrite lookup_insert_eq. cbn [encode] in Hany.
    apply fmap_Ok in Hany as (b0 & Hb0 & ->). unfold encode_Basic in Hb0. cbn [Expiration SpendLimit] in Hb0.
    apply bind_Ok in Hb0 as (v & _ & Hb0). destruct L' as [|c L']; [done|]. by injection Hb0 as <-.
Qed.

Lemma spent_cons d fee fees : spent d (fee :: fees) = sum_of d fee + spent d fees.
Proof. done. Qed.

(** C30: a basic allowance is a budget.  Over any uses of a grant with a spend
    limit, at any times and with any other activity in between, the fees
    accepted never exceed the limit in any denomination; what remains of the
    limit is exactly the limit less what was spent, and a grant that is used up
    is removed, after which no use is accepted. *)
Theorem basic_allowance_budget (granter grantee key a b : string) L exp fees g' :
  FeeAllowanceKey granter grantee = Ok key → limit_ok L → L ≠ [] → Forall limit_ok fees →
  history granter grantee key (Some (mkGrant a b (Basic (mkBasic (Some L) exp)))) fees g' →
  (∀ d, spent d fees <= sum_of d L) ∧
  match g' with
  | None => ∀ d, spent d fees = sum_of d L
  | Some g => ∃ L', g_Allowance g = Basic (mkBasic (Some L') exp) ∧ L' ≠ [] ∧ limit_ok L' ∧
                ∀ d, sum_of d L' = sum_of d L - spent d fees
  end.
Proof.
  intros Hk HL Hne Hfees H. remember (Some (mkGrant a b (Basic (mkBasic (Some L) exp)))) as g0 eqn:Eg.
  revert a b L HL Hne Hfees Eg. induction H as [g|x fee msgs x' fees g' Huse Hhist IH]; intros a b L HL Hne Hfees Eg.
  - subst g. cbn. split; [intros d; unfold spent; simpl; apply wf_sum_nonneg, HL|].
    exists L. split_and!; [done..|]. intros d. unfold spent. simpl. lia.
  - apply Forall_cons in Hfees as [Hf Hfees].
    destruct (use_basic _ _ _ _ _ _ _ _ _ _ _ _ Hk Eg HL Hf Huse) as (Hle & L' & HL' & Hd & Hg).
    destruct L' as [|c L'].
    + assert (fees = [] ∧ g' = None) as [-> ->].
      { rewrite Hg in Hhist. clear -Hhist Hk. inversion Hhist as [|? ? ? ? ? ? Hu' _ Heq]; [done|]. exfalso.
        apply (use_Ok _ _ key) in Hu' as (? & ? & ? & ? & Hsome & _); congruence. }
      split; intros d; rewrite spent_cons; unfold spent; simpl; specialize (Hd d); simpl in Hd; lia.
    + destruct (IH _ _ _ HL' ltac:(done) Hfees Hg) as [Hs Hend]. split.
      { intros d. rewrite spent_cons. specialize (Hs d). specialize (Hd d). lia. }
      destruct g' as [g'|].
      * destruct Hend as (L2 & ? & ? & ? & Hd2). exists L2. split_and!; [done..|].
        intros d. rewrite spent_cons, Hd2, Hd. lia.
      * intros d. rewrite spent_cons, Hend, Hd. lia.
Qed.

(** ** Restricted allowances *)

Definition restricted (granter grantee : string) L (allowed : list string) : Grant :=
  mkGrant (addr_String granter) (addr_String grantee)
    (AllowedMsg (Some (Basic (mkBasic (Some L) None))) None allowed).

Lemma GrantAllowance_run granter grantee key a any x acc : FeeAllowanceKey granter grantee = Ok key →
  accounts (chain x) !! grantee = Some acc → encode time_fits a = Ok any →
  ∃ x', GrantAllowance addr_String time_fits granter grantee a x = (Ok (), x') ∧
    grants x' = <[key := mkGrant (addr_String granter) (addr_String grantee) any]> (grants x).
Proof.
  intros Hk Ha He. unfold GrantAllowance.
  rewrite (Mbind_run _ _ _ (Some acc) (mkCtx (chain x) (grants x) (gasMeter x))).
  2: { unfold on_chain, zoom, GetAccount, gets. by rewrite Ha. }
  rewrite mret_bind, Hk, lift_bind. unfold NewGrant. rewrite He. by eexists.
Qed.

Lemma use_restricted granter grantee key fee msgs x L allowed acc m : FeeAllowanceKey granter grantee = Ok key →
  grants x !! key = Some (restricted granter grantee L allowed) → accounts (chain x) !! grantee = Some acc →
  limit_ok L → limit_ok fee → (∀ d, sum_of d fee <= sum_of d L) → (∃ d, sum_of d fee ≠ sum_of d L) →
  allMsgTypesAllowed allowed (map MsgTypeURL msgs) (gasMeter x) = (Ok true, m) →
  ∃ x', use granter grantee fee msgs x = (Ok (), x') ∧
    grants x' !! key = Some (restricted granter grantee L allowed).
Proof.
  intros Hk Hg Ha HL Hf Hle [d Hne] Hm. unfold UseGrantedFees, GetAllowance.
  rewrite (Mbind_run _ _ _ (unpack (g_Allowance (restricted granter grantee L allowed))) x).
  2: { unfold mbind, M_bind. rewrite getGrant_run, Hk. simpl. by rewrite Hg. }
  rewrite gets_bind. destruct (SafeSub_limit L fee HL Hf) as (L' & neg & Hs & Hneg & Hpos).
  assert (neg = false) as -> by by apply Hneg. destruct (Hpos eq_refl) as [HL' Hd].
  assert (Coins.IsZero L' = false) as Hz.
  { destruct (Coins.IsZero L') eqn:E; [|done]. apply IsZero_nil in E as ->; [|done].
    specialize (Hd d). simpl in Hd. lia. }
  rewrite (Mbind_run _ _ _ (false, None, AllowedMsg (Some (Basic (mkBasic (Some L) None)))
    (Some (Basic (mkBasic (Some L') None))) allowed) (WithGasMeter m x)).
  2: { unfold zoom. cbn [unpack g_Allowance restricted Accept]. rewrite (Mbind_run _ _ _ true m) by done.
       cbn [negb]. unfold BasicAllowance_Accept. cbn [SpendLimit Expiration expired]. rewrite Hs.
       cbn [mbind outcome_bind]. rewrite Hz. done. }
  rewrite (Mbind_run _ _ _ () (mkCtx (set_events (events (chain x) ++ [grant_event "use_feegrant"
    (addr_String granter) (addr_String grantee)]) (chain x)) (grants x) m)) by done.
  destruct (GrantAllowance_run granter grantee key (AllowedMsg (Some (Basic (mkBasic (Some L) None)))
    (Some (Basic (mkBasic (Some L') None))) allowed) _ (mkCtx (set_events (events (chain x) ++
    [grant_event "use_feegrant" (addr_String granter) (addr_String grantee)]) (chain x)) (grants x) m)
    acc Hk Ha eq_refl) as (x' & H' & Hg').
  exists x'. split; [exact H'|]. rewrite Hg'. apply lookup_insert_eq.
Qed.

(** C31: an allowance restricted to message types is not debited.  The spend
    limit inside an [AllowedMsgAllowance] is checked against each fee but never
    lowered, because the inner [Any] is written back unchanged: if one fee below
    the limit is accepted, the stored grant is the same afterwards and the same
    fee is accepted any number of times, past any total. *)
Theorem restricted_allowance_not_debited (granter grantee key : string) fee msgs (x : Ctx Grants) L allowed acc m :
  FeeAllowanceKey granter grantee = Ok key → grants x !! key = Some (restricted granter grantee L allowed) →
  accounts (chain x) !! grantee = Some acc → limit_ok L → limit_ok fee →
  (∀ d, sum_of d fee <= sum_of d L) → (∃ d, sum_of d fee ≠ sum_of d L) →
  allMsgTypesAllowed allowed (map MsgTypeURL msgs) (gasMeter x) = (Ok true, m) →
  ∀ n, history granter grantee key (grants x !! key) (replicate n fee) (grants x !! key) ∧
       ∀ d, spent d (replicate n fee) = Z.of_nat n * sum_of d fee.
Proof.
  intros Hk Hg Ha HL Hf Hle Hne Hm n. split.
  - induction n as [|n IH]; [constructor|]. cbn [replicate].
    destruct (use_restricted granter grantee key fee msgs x L allowed acc m) as (x' & Huse & Hg'); try done.
    eapply h_use; [exact Huse|]. rewrite Hg', <- Hg. exact IH.
  - intros d. induction n as [|n IH]; [done|]. cbn [replicate]. rewrite spent_cons, IH. lia.
Qed.

End contract.

(** ** Periodic allowances *)

(** The coins available at a use: those left in the period, or a new top-up. *)
Definition available (p : PeriodicAllowance) (t : Z) : list Coin :=
  if t <? PeriodReset p then PeriodCanSpend p
  else match SpendLimit (p_Basic p) with
       | Some (c :: L) =>
           if existsb (λ c', sum_of (Denom c') (c :: L) <? Amount c') (PeriodSpendLimit p) then c :: L
           else PeriodSpendLimit p
       | _ => PeriodSpendLimit p
       end.
Definition next_reset (p : PeriodicAllowance) (t : Z) : Z :=
  if t <? PeriodReset p then PeriodReset p
  else if PeriodReset p + Period p <? t then t + Period p else PeriodReset p + Period p.

Lemma sum_le_coins a b : wf a → wf b →
  (∀ d, sum_of d b <= sum_of d a) ↔ existsb (λ c, sum_of (Denom c) a <? Amount c) b = false.
Proof.
  intros Ha Hb. rewrite <- not_true_iff_false, existsb_exists. split.
  - intros Hle (c & Hc%list_elem_of_In & Hlt%Z.ltb_lt). specialize (Hle (Denom c)).
    rewrite (sum_of_elem c b) in Hle by (done || apply Hb). lia.
  - intros Hn d. destruct (decide (sum_of d b = 0)) as [->|Hne]; [by apply wf_sum_nonneg|].
    assert (∃ c, c ∈ b ∧ Denom c = d) as (c & Hc & <-).
    { clear -Hne. induction b as [|c b IH]; [done|]. simpl in Hne. destruct (String.eqb_spec (Denom c) d).
      - exists c. split; [left|done].
      - destruct IH as (c' & ? & ?); [lia|]. exists c'. split; [by right|done]. }
    rewrite (sum_of_elem c b) by (done || apply Hb). apply Z.le_ngt. intros Hlt. apply Hn. exists c.
    split; [by apply list_elem_of_In|by apply Z.ltb_lt].
Qed.

Definition periodic_ok (p : PeriodicAllowance) : Prop :=
  limit_ok (default [] (SpendLimit (p_Basic p))) ∧ limit_ok (PeriodSpendLimit p) ∧ limit_ok (PeriodCanSpend p).

Lemma tryResetPeriod_run p t : periodic_ok p →
  tryResetPeriod p t = Ok (mkPeriodic (p_Basic p) (Period p) (PeriodSpendLimit p) (available p t) (next_reset p t)).
Proof.
  intros (HL & Hps & Hcs). unfold tryResetPeriod, available, next_reset.
  destruct (t <? PeriodReset p); [by destruct p|].
  destruct (SafeSub_limit _ _ HL Hps) as (diff & neg & Hs & Hneg & _). rewrite Hs. cbn [mbind outcome_bind].
  do 2 f_equal. rewrite sum_le_coins in Hneg by apply HL || apply Hps.
  destruct (SpendLimit (p_Basic p)) as [[|c L]|]; cbn [default Coins.Empty length Nat.eqb negb] in *.
  - by rewrite andb_false_r.
  - rewrite andb_true_r. destruct neg, (existsb _ _); naive_solver.
  - by rewrite andb_false_r.
Qed.

Lemma available_ok p t : periodic_ok p → limit_ok (available p t).
Proof.
  intros (HL & Hps & Hcs). unfold available. destruct (t <? PeriodReset p); [done|].
  destruct (SpendLimit (p_Basic p)) as [[|c L]|]; [done| |done]. by destruct (existsb _ _).
Qed.

(** A periodic allowance, use by use.  A use is accepted exactly when the
    allowance has not expired and the fee is within the coins available in the
    period and within the absolute limit, if there is one; then both are
    lowered by the fee, the next reset is as announced, and the grant is
    removed when the absolute limit is used up.  At or after the reset time the
    available coins are topped up to the period limit or, when in some
    denomination the period limit is above what is left of the absolute limit,
    to the absolute limit. *)
Theorem periodic_accept_correct (p : PeriodicAllowance) (t : Z) (fee : list Coin) :
  periodic_ok p → limit_ok fee →
  ∃ remove err p', PeriodicAllowance_Accept p t fee = Ok (remove, err, p') ∧
    (err = None ↔ expired (Expiration (p_Basic p)) t = false ∧
       (∀ d, sum_of d fee <= sum_of d (available p t)) ∧
       (∀ L, SpendLimit (p_Basic p) = Some L → ∀ d, sum_of d fee <= sum_of d L)) ∧
    (err = None → periodic_ok p' ∧ PeriodReset p' = next_reset p t ∧
       (∀ d, sum_of d (PeriodCanSpend p') = sum_of d (available p t) - sum_of d fee) ∧
       match SpendLimit (p_Basic p), SpendLimit (p_Basic p') with
       | Some L, Some L' => (∀ d, sum_of d L' = sum_of d L - sum_of d fee) ∧ (remove = true ↔ L' = [])
       | None, None => remove = false
       | _, _ => False
       end).
Proof.
  intros Hp Hf. unfold PeriodicAllowance_Accept. destruct (expired _ t) eqn:Ee.
  { do 3 eexists. split; [done|]. split; [|done]. naive_solver. }
  rewrite tryResetPeriod_run by done. cbn [mbind outcome_bind PeriodCanSpend].
  destruct (SafeSub_limit _ _ (available_ok p t Hp) Hf) as (can & neg & Hs & Hneg & Hpos). rewrite Hs.
  cbn [mbind outcome_bind with_CanSpend p_Basic]. destruct Hp as (HL & Hps & Hcs).
  destruct neg.
  { do 3 eexists. split; [done|]. split; [|done]. split; [done|]. intros (_ & Hle & _). by apply Hneg in Hle. }
  destruct (Hpos eq_refl) as [Hcan Hd]. pose proof (proj1 Hneg eq_refl) as Hle.
  destruct (SpendLimit (p_Basic p)) as [L|] eqn:EL.
  - change (limit_ok L) in HL. destruct (SafeSub_limit _ _ HL Hf) as (L' & neg & Hs' & Hneg' & Hpos'). rewrite Hs'. cbn [mbind outcome_bind].
    destruct neg.
    { do 3 eexists. split; [done|]. split; [|done]. split; [done|]. intros (_ & _ & H). specialize (H L eq_refl). by apply Hneg' in H. }
    destruct (Hpos' eq_refl) as [HL' Hd']. do 3 eexists. split; [done|]. split.
    { split; [|done]. intros _. split_and!; [done|done|]. intros L0 [= <-]. by apply Hneg'. }
    intros _. cbn. split_and!; [done..|]. rewrite <- (IsZero_nil L' HL'). done.
  - do 3 eexists. split; [done|]. split; [naive_solver|]. intros _. cbn. rewrite EL. split_and!; try done.
    unfold periodic_ok. cbn. by rewrite EL.
Qed.

(** The top-up is not the lesser of the two limits.  A comment promises that
    a period's coins are topped up to the minimum of the period limit and the
    absolute limit; with two denominations the code can hand out more than the
    period limit.  Here the period limit is 10 of each coin, and 100 of one are
    accepted in one period. *)
Theorem period_limit_exceeded :
  let p := mkPeriodic (mkBasic (Some [mkCoin "aaa" 5; mkCoin "bbb" 200]) None) 1000
             [mkCoin "aaa" 10; mkCoin "bbb" 10] [] 0 in
  PeriodicAllowance_ValidateBasic p = Ok () ∧
  PeriodicAllowance_Accept p 500 [mkCoin "bbb" 100] =
    Ok (false, None, mkPeriodic (mkBasic (Some [mkCoin "aaa" 5; mkCoin "bbb" 100]) None) 1000
                       [mkCoin "aaa" 10; mkCoin "bbb" 10] [mkCoin "aaa" 5; mkCoin "bbb" 100] 1000).
Proof. vm_compute. split; reflexivity. Qed.


(** ** Instances *)

Definition demo_chain : Chain :=
  mkChain (<["ee" := mkAccount "ee" 1 None None None 0]> ∅) (Some 2) ∅ ∅ 7 100 [].
Definition demo_key : string := String (byteN 0) (String (byteN 2) ("ee" +:+ String (byteN 2) "gg")).
Definition demo_use : list Coin → Ctx Grants → outcome () * Ctx Grants :=
  λ fee, UseGrantedFees (Msg := string) id id (λ _, true) "gg" "ee" fee ["send"].
Definition coin_list (n : Z) : list Coin := [mkCoin "aaa" n].

Lemma coin_list_ok n : 0 < n → Int.valid n → limit_ok (coin_list n).
Proof. intros Hn Hv. split; [split|]; repeat constructor; done. Qed.

Lemma coin_list_le d m n : 0 <= m <= n → sum_of d (coin_list m) <= sum_of d (coin_list n).
Proof. intros H. unfold coin_list. cbn [sum_of Denom Amount]. case_match; lia. Qed.

Definition demo_ctx : Ctx Grants :=
  mkCtx demo_chain {[demo_key := mkGrant "gg" "ee" (Basic (mkBasic (Some (coin_list 10)) None))]} Gas.NewInfiniteGasMeter.
Definition demo_ctx1 : Ctx Grants := (demo_use (coin_list 4) demo_ctx).2.
Definition demo_ctx2 : Ctx Grants := (demo_use (coin_list 6) demo_ctx1).2.

Lemma demo_history : history (Msg := string) id id (λ _, true) "gg" "ee" demo_key
  (Some (mkGrant "gg" "ee" (Basic (mkBasic (Some (coin_list 10)) None)))) [coin_list 4; coin_list 6] None.
Proof.
  refine (h_use _ _ _ _ _ _ demo_ctx (coin_list 4) ["send"] demo_ctx1 _ _ _ _); [vm_compute; reflexivity|].
  refine (h_use _ _ _ _ _ _ demo_ctx1 (coin_list 6) ["send"] demo_ctx2 _ _ _ _); [vm_compute; reflexivity|].
  assert (grants demo_ctx2 !! demo_key = None) as -> by (vm_compute; reflexivity). constructor.
Qed.

Lemma basic_allowance_budget_witness : spent "aaa" [coin_list 4; coin_list 6] = sum_of "aaa" (coin_list 10).
Proof.
  refine (proj2 (basic_allowance_budget (Msg := string) id id (λ _, true) "gg" "ee" demo_key "gg" "ee" (coin_list 10) None
    [coin_list 4; coin_list 6] None eq_refl (coin_list_ok 10 _ _) _ _ demo_history) "aaa"); [done|done|done|].
  repeat constructor; apply coin_list_ok; done.
Defined.

Definition demo_restricted : Ctx Grants :=
  mkCtx demo_chain {[demo_key := restricted id "gg" "ee" (coin_list 10) ["send"]]} Gas.NewInfiniteGasMeter.

Lemma restricted_allowance_not_debited_witness :
  history (Msg := string) id id (λ _, true) "gg" "ee" demo_key (grants demo_restricted !! demo_key)
    (replicate 1000 (coin_list 9)) (grants demo_restricted !! demo_key) ∧
  sum_of "aaa" (coin_list 10) < spent "aaa" (replicate 1000 (coin_list 9)).
Proof.
  pose proof (restricted_allowance_not_debited (Msg := string) id id (λ _, true) "gg" "ee" demo_key (coin_list 9)
    ["send"] demo_restricted (coin_list 10) ["send"] (mkAccount "ee" 1 None None None 0) (Gas.infiniteGasMeter 20)
    eq_refl eq_refl eq_refl (coin_list_ok 10 ltac:(done) ltac:(done)) (coin_list_ok 9 ltac:(done) ltac:(done))) as H.
  destruct (H ltac:(intros d; apply coin_list_le; lia) ltac:(by exists "aaa") eq_refl 1000%nat) as [H1 H2].
  split; [exact H1|]. rewrite H2. reflexivity.
Defined.

Definition demo_periodic : PeriodicAllowance :=
  mkPeriodic (mkBasic (Some (coin_list 100)) None) 1000 (coin_list 10) (coin_list 3) 400.

Lemma periodic_accept_correct_witness :
  ∃ remove err p', PeriodicAllowance_Accept demo_periodic 500 (coin_list 7) = Ok (remove, err, p') ∧ err = None ∧
    ∀ d, sum_of d (PeriodCanSpend p') = sum_of d (coin_list 10) - sum_of d (coin_list 7).
Proof.
  destruct (periodic_accept_correct demo_periodic 500 (coin_list 7)) as (r & e & p' & H1 & H2 & H3).
  - split_and!; apply coin_list_ok; done.
  - apply coin_list_ok; done.
  - exists r, e, p'. assert (e = None) as ->.
    { apply H2. split_and!; [done|..]; [intros d; change (available demo_periodic 500) with (coin_list 10); apply coin_list_le; lia|].
      intros L [= <-] d. apply coin_list_le. lia. }
    split_and!; [done|done|]. by destruct (H3 eq_refl) as (_ & _ & Hd & _).
Defined.
End FeegrantProps.
