(* ===== verification/AnteProps.v ===== *)
(** * What an accepted transaction has been checked for, and what it paid *)

From Stdlib Require Import ZArith Lia Ascii String.
From stdpp Require Import base tactics option list gmap sorting strings.
From S2P Require Import Prelude GoStd Digits SdkInt Decimal Coin CoinFacts CoinProps DecCoin MultiSig Chain.
From S2P Require Import Bank BankFacts Keepers BankInst AccountFacts Wire Gas Tx BaseApp Context Ante.
From S2P Require Import AnteFacts.

Local Open Scope Z_scope.

Module AnteProps.
Import BitArray MultiSig Ante AnteFacts.

Section props.
Context {G Msg : Type}.
Context (cfg : Config) (addr_String : string → string).
Context (AccAddressFromBech32 : string → outcome string).
Context (msg_GetSigners : Msg → outcome (list string)).
Context (pk_Address : PubKey → outcome string).
Context (plain_verify : PubKey → string → string → bool).
Context (GetSignBytes : Z → SignerData → Tx.Tx Msg → outcome string).
Context (simSecp256k1Pubkey : PubKey) (simSig_len : PubKey → Z).
Context (feegrantKeeper : option (string → string → list Coin → list Msg → M (Ctx G) ())).
Context (store_gas : call → Ctx G → Z).
Context (env : Env) (tc : BaseApp.TxContext).
Implicit Types (tx : Tx.Tx Msg) (x : Ctx G).

Abbreviation GetSigners := (Tx.GetSigners msg_GetSigners AccAddressFromBech32 addr_String).
Abbreviation handler := (NewAnteHandler cfg addr_String AccAddressFromBech32 msg_GetSigners pk_Address
  plain_verify GetSignBytes simSecp256k1Pubkey simSig_len feegrantKeeper store_gas env tc).

(** Signature [sig] of [tx] is by a key of [signer] that was stored before or
    hashes to the address, over the chain id, the account number and the
    sequence the account had. *)
Definition authentic (s s' : Chain) tx (sig : Tx.SignatureV2) (signer : string) : Prop :=
  ∃ acc pk, accounts s' !! signer = Some acc ∧ acc_pubkey acc = Some pk ∧
    ((∃ acc0, accounts s !! signer = Some acc0 ∧ acc_pubkey acc0 = Some pk) ∨ pk_Address pk = Ok signer) ∧
    Tx.sv_Sequence sig = seq_of s signer ∧
    VerifySignature plain_verify
      (λ mode, GetSignBytes mode (mkSignerData (ChainID env)
         (if blockHeight s =? 0 then 0 else acc_number acc) (seq_of s signer)) tx)
      pk (Tx.sv_Data sig) = Ok ().

Lemma verified_authentic (x x4 x' : Ctx G) tx sig signer signers : chain_ok (chain x) →
  keyed pk_Address x x4 → acc_frame (chain x) (chain x4) → bumped signers (chain x4) (chain x') →
  verified plain_verify GetSignBytes env (chain x4) tx sig signer →
  authentic (chain x) (chain x') tx sig signer.
Proof.
  intros Hok Hk Hf Hb (acc & pk & Ha & Hpk & Hs & Hv). destruct (Hk Hok) as [_ Hk'].
  exists (SetSequence acc (bump (occ signer signers) (acc_sequence acc))), pk.
  assert (acc_sequence acc = seq_of (chain x) signer) as Hq.
  { rewrite <- (acc_frame_seq _ _ signer Hf). unfold seq_of. by rewrite Ha. }
  unfold signer_data in Hv. rewrite (af_height _ _ Hf), Hq in Hv.
  split_and!; [|done|by eapply Hk'|congruence|exact Hv]. by rewrite Hb, Ha.
Qed.


(** C8: the fee is paid, by the right account, and nothing else moves.  When
    the ante handler accepts a transaction, the fee it states (valid coins,
    unless it is zero) has gone from the fee granter, if one is named and its
    grant was used successfully, otherwise from the fee payer, to the fee
    collector; no other balance, no total and no supply has changed. *)
Theorem ante_charges_fee {FL : FeegrantLaws feegrantKeeper} h tx simulate x x' :
  chain_ok (chain x) → handler = Some h → h tx simulate x = (Ok (), x') →
  ∃ coll fee payer granter, GetModuleAddress cfg FeeCollectorName = Some coll ∧ Tx.GetFee tx = Ok fee ∧
    Tx.FeePayer msg_GetSigners AccAddressFromBech32 addr_String tx = Ok payer ∧
    Tx.FeeGranter AccAddressFromBech32 tx = Ok granter ∧
    grant_used feegrantKeeper tx fee payer granter ∧
    (Coins.IsZero fee = false → Coins.IsValid fee = true) ∧ chain_ok (chain x') ∧
    let from := default payer granter in
    (∀ d, total (chain x') d = total (chain x) d ∧ sup (chain x') d = sup (chain x) d) ∧
    (from ≠ coll → ∀ d, sum_of d fee <= bal (chain x) from d ∧
       bal (chain x') from d = bal (chain x) from d - sum_of d fee ∧
       bal (chain x') coll d = bal (chain x) coll d + sum_of d fee) ∧
    (∀ a d, a ≠ coll → a ≠ from → bal (chain x') a d = bal (chain x) a d).
Proof.
  intros Hok Hh H.
  destruct (accepted_stages _ _ _ _ _ _ _ _ _ _ _ _ _ h tx simulate x x' Hh H) as (x0 & x1 & x2 & x3 & x4 & x5 & St).
  destruct (stages_spec _ _ _ _ _ _ _ _ _ _ _ _ _ _ _ _ _ _ _ _ _ _ _ Hok St)
    as (coll & fee & payer & granter & signers & E1 & E2 & E3 & E4 & E5 & E6 & _ & (Hok' & Hb & Hsup & Htot) & _).
  exists coll, fee, payer, granter. split_and!; try done.
  - intros Hz. apply IsValid_wf. auto.
  - cbv zeta. set (from := default payer granter) in *. split_and!.
    + intros d. by rewrite Htot, Hsup.
    + intros Hne d. pose proof (bal_range _ from d Hok') as [Hr _].
      rewrite !Hb in *. unfold at_addr in *. rewrite !String.eqb_refl in *.
      rewrite (proj2 (String.eqb_neq from coll)), (proj2 (String.eqb_neq coll from)) in * by congruence. lia.
    + intros a d H1 H2. rewrite Hb. unfold at_addr. rewrite !(proj2 (String.eqb_neq _ _)) by done. lia.
Qed.

(** ** Minimum gas prices *)

Lemma NewDec_run i : Dec.NewDec i = Ok (i * Dec.precisionReuse).
Proof. reflexivity. Qed.

Lemma Ceil_Ok d r : 0 <= d → Dec.Ceil d = Ok r → ∃ q, r = q * Dec.precisionReuse ∧ d <= q * Dec.precisionReuse.
Proof.
  intros Hd H. unfold Dec.Ceil in H. cbv zeta in H. rewrite !Dec.NewDecFromBigInt_run in H. rewrite Dec.precisionReuse_val in *.
  set (p := 1000000000000000000) in *. assert (0 < p) by done.
  pose proof (Z.quot_rem' d p). pose proof (Z.rem_bound_pos d p Hd ltac:(done)).
  destruct (Z.eqb_spec (Z.rem d p) 0); [injection H as <-; eexists; split; [done|nia]|].
  destruct (Z.eqb_spec (Z.sgn (Z.rem d p)) (-1)); [lia|]. injection H as <-. eexists; split; [done|nia].
Qed.

Lemma requiredFee_Ok gas gp c : 0 <= gas → 0 <= Amount gp →
  requiredFee (gas * Dec.precisionReuse) gp = Ok c →
  Denom c = Denom gp ∧ Amount gp * gas <= Amount c * Dec.precisionReuse.
Proof.
  intros Hg Hp H. unfold requiredFee, Dec.Mul, Dec.RoundInt, Dec.checked, Int.NewIntFromBigInt in H.
  rewrite Z.mul_assoc, Dec.chop_multiple in H. apply bind_Ok in H as (f & Hf & H).
  destruct (Dec.overflows _); [done|]. injection Hf as <-.
  apply bind_Ok in H as (r & (q & -> & Hq)%Ceil_Ok & H); [|nia]. rewrite Dec.chop_multiple in H.
  apply bind_Ok in H as (i & Hi & (-> & _ & _)%NewCoin_Ok). destruct (Int.overflows q); [done|]. by injection Hi as <-.
Qed.

Lemma requiredFees_loop_Ok gas gps required : 0 <= gas → Forall (λ gp, 0 <= Amount gp) gps →
  requiredFees_loop (gas * Dec.precisionReuse) gps = Ok required →
  Forall2 (λ gp c, Denom c = Denom gp ∧ Amount gp * gas <= Amount c * Dec.precisionReuse) gps required.
Proof.
  intros Hg Hp. revert required. induction Hp as [|gp gps Hgp _ IH]; intros required H; simpl in H.
  - injection H as <-. constructor.
  - apply bind_Ok in H as (c & Hc%requiredFee_Ok & H); [|done..].
    apply bind_Ok in H as (cs & Hcs%IH & [= <-]). by constructor.
Qed.

Lemma any_out_true {A} (f : A → outcome bool) l : any_out f l = Ok true → ∃ a, a ∈ l ∧ f a = Ok true.
Proof.
  induction l as [|a l IH]; simpl; [done|]. intros (b & Hb & H)%bind_Ok. destruct b.
  - exists a. split; [left|done].
  - destruct (IH H) as (a' & ? & ?). exists a'. split; [by right|done].
Qed.

Lemma ssorted_denoms gps (cs : list Coin) : Forall2 (λ gp c : Coin, Denom c = Denom gp) gps cs →
  StronglySorted coin_lt gps → StronglySorted coin_lt cs.
Proof.
  induction 1 as [|gp c gps cs Hd Hall IH]; [done|]. rewrite !StronglySorted_cons. intros [Hlt Hs].
  split; [|auto]. clear IH Hs. induction Hall as [|gp' c' gps cs Hd' _ IH]; constructor.
  - apply Forall_cons in Hlt as [Hlt _]. unfold coin_lt in *. by rewrite Hd, Hd'.
  - apply Forall_cons in Hlt as [_ Hlt]. auto.
Qed.

Lemma sum_of_nonzero d l : sum_of d l ≠ 0 → ∃ c, c ∈ l ∧ Denom c = d.
Proof.
  induction l as [|c l IH]; simpl; [done|]. intros H. destruct (String.eqb_spec (Denom c) d) as [<-|].
  - exists c. split; [left|done].
  - destruct IH as (c' & ? & ?); [lia|]. exists c'. split; [by right|done].
Qed.

Lemma ValidateBasic_gas tx gas : Tx.ValidateBasic msg_GetSigners AccAddressFromBech32 addr_String tx = Ok () →
  Tx.GetGas tx = Ok gas → gas <= Tx.MaxGasWanted.
Proof.
  intros Hvb Hgas. unfold Tx.ValidateBasic in Hvb.
  apply bind_Ok in Hvb as (b & _ & Hvb). apply bind_Ok in Hvb as (ai & Hai%or_err_Ok & Hvb).
  apply bind_Ok in Hvb as (f & Hf%or_err_Ok & Hvb). apply bind_Ok in Hvb as (w & Hw%fail_if_Ok & _).
  unfold Tx.GetGas, Tx.fee_of, Tx.authInfo, Tx.nil_panic in Hgas. rewrite Hai in Hgas. cbn in Hgas.
  rewrite Hf in Hgas. injection Hgas as <-. by apply Z.ltb_ge.
Qed.

(** [IsAnyGTE] finds a coin of the fee and its counterpart. *)
Lemma IsAnyGTE_true fee required : StronglySorted coin_lt required → Coins.IsAnyGTE fee required = Ok true →
  ∃ coin c, coin ∈ fee ∧ c ∈ required ∧ Denom coin = Denom c ∧ Amount c <= Amount coin.
Proof.
  intros Hs H. unfold Coins.IsAnyGTE in H. case_match; [done|].
  apply any_out_true in H as (coin & Hcoin & Hc). apply bind_Ok in Hc as (amt & Hamt & Hc).
  unfold Coins.AmountOf in Hamt. apply bind_Ok in Hamt as (w & _ & Hamt). rewrite AmountOf_sum in Hamt by done.
  injection Hamt as <-. injection Hc as Hc. apply andb_true_iff in Hc as [Hge Hnz].
  apply negb_true_iff in Hnz. apply Int.IsZero_false in Hnz. unfold Int.GTE in Hge. 
  destruct (sum_of_nonzero _ _ Hnz) as (c & Hc & Hd). rewrite <- Hd, sum_of_elem in Hge by done.
  exists coin, c. split_and!; [done..|lia].
Qed.

(** The mempool's price is met.  With minimum gas prices set, a
    transaction is let into the mempool only if in some denomination that has
    a price the fee offered is at least price times gas, compared exactly (the
    decimal product and the rounding lose nothing). *)
Theorem mempool_fee_covers_price h tx x x' :
  StronglySorted coin_lt (MinGasPrices env) → Forall (λ gp, 0 <= Amount gp) (MinGasPrices env) →
  DecCoins.IsZero (MinGasPrices env) = false → BaseApp.IsCheckTx tc = true → BaseApp.IsReCheckTx tc = false →
  (∀ gas, Tx.GetGas tx = Ok gas → 0 <= gas) →
  handler = Some h → h tx false x = (Ok (), x') →
  ∃ fee gas coin price, Tx.GetFee tx = Ok fee ∧ Tx.GetGas tx = Ok gas ∧ coin ∈ fee ∧
    price ∈ MinGasPrices env ∧ Denom coin = Denom price ∧
    Amount price * gas <= Amount coin * 10 ^ 18.
Proof.
  intros Hsort Hnn Hz Hck Hrc Hgas0 Hh H.
  destruct (accepted_stages _ _ _ _ _ _ _ _ _ _ _ _ _ h tx false x x' Hh H) as (x0 & x1 & _ & _ & _ & _ & [_ He _ _ _ _ _]).
  destruct He as (y1 & _ & y2 & Hmem & y3 & Hbasic & _). unfold MempoolFeeDecorator in Hmem.
  apply Mbind_Ok in Hmem as (fee & y & [Hfee ->]%lift_Ok & Hmem).
  apply Mbind_Ok in Hmem as (gas & y & [Hgas ->]%lift_Ok & Hmem).
  apply Mbind_Ok in Hmem as (u & y & Hchk & _). rewrite Hck, Hz in Hchk. cbn [andb negb] in Hchk.
  apply Mbind_Ok in Hchk as (required & z & [Hreq ->]%lift_Ok & Hchk).
  apply Mbind_Ok in Hchk as (ok & z & [Hany ->]%lift_Ok & [Hok%fail_if_Ok _]%lift_Ok).
  apply negb_false_iff in Hok as ->.
  assert (0 <= gas <= Tx.MaxGasWanted) as Hgr.
  { split; [auto|]. unfold ValidateBasicDecorator in Hbasic. rewrite Hrc in Hbasic.
    apply Mbind_Ok in Hbasic as ([] & y4 & [Hvb _]%lift_Ok & _). by eapply ValidateBasic_gas. }
  unfold requiredFees in Hreq. rewrite NewDec_run in Hreq. cbn [mbind outcome_bind] in Hreq.
  replace (wrap64 gas) with gas in Hreq
    by (unfold wrap64, Tx.MaxGasWanted in *; rewrite Z.mod_small; lia).
  apply requiredFees_loop_Ok in Hreq; [|lia|done].
  apply IsAnyGTE_true in Hany as (coin & c & Hcoin & [i Hi]%list_elem_of_lookup_1 & Hd & Hge).
  2: { eapply ssorted_denoms; [|exact Hsort]. eapply Forall2_impl; [exact Hreq|]. by intros ?? [? _]. }
  destruct (Forall2_lookup_r _ _ _ _ _ Hreq Hi) as (price & Hp & Hdp & Hle).
  exists fee, gas, coin, price. split_and!; [done..|by eapply list_elem_of_lookup_2|congruence|].
  rewrite Dec.precisionReuse_val in Hle. change (10 ^ 18) with 1000000000000000000. lia.
Qed.

(** ** Gas *)

Lemma GetGas_panic tx e : Tx.GetGas tx = Panic e → e = "nil pointer dereference".
Proof.
  unfold Tx.GetGas, Tx.fee_of, Tx.authInfo, Tx.nil_panic. destruct (Tx.tx_AuthInfo tx) as [ai|]; simpl.
  - destruct (Tx.ai_Fee ai); [done|]. by intros [= <-].
  - by intros [= <-].
Qed.

Lemma SetUp_recovers tx simulate (next : M (Ctx G) ()) x :
  (SetUpContextDecorator tx simulate next x).1 ≠ Panic "ErrorOutOfGas".
Proof.
  unfold SetUpContextDecorator, mbind, M_bind, lift, modify, recover_gas.
  destruct (Tx.GetGas tx) as [gas|e|e] eqn:E; [|done|].
  - destruct (next _) as [[u|e|e] y]; [done|done|]. simpl.
    destruct (String.eqb_spec e "ErrorOutOfGas"); [done|congruence].
  - apply GetGas_panic in E as ->. done.
Qed.

(** Gas is bounded by what the transaction asked for.  Running out of gas
    in any decorator is returned as an error, never as a panic.  An accepted
    transaction (outside genesis and simulation) leaves a meter whose limit is
    the gas it asked for, which it has not exceeded, and has paid at least for
    the bytes it occupies. *)
Theorem ante_gas_bounded {FL : FeegrantLaws feegrantKeeper} h tx x :
  (∀ c x, 0 <= store_gas c x) →
  0 <= par_SigVerifyCostED25519 (params env) ∧ 0 <= SigVerifyCostSecp256k1 (params env) →
  (∀ gas, Tx.GetGas tx = Ok gas → 0 <= gas <= Gas.MaxUint64) → handler = Some h →
  (∀ simulate, (h tx simulate x).1 ≠ Panic "ErrorOutOfGas") ∧
  (∀ x', blockHeight (chain x) ≠ 0 → h tx false x = (Ok (), x') →
     ∃ gas, Tx.GetGas tx = Ok gas ∧ Gas.Limit (gasMeter x') = gas ∧ Gas.GasConsumed (gasMeter x') <= gas ∧
       wrapu64 (TxSizeCostPerByte (params env) * Wire.slen (BaseApp.TxBytes tc)) <= Gas.GasConsumed (gasMeter x')).
Proof.
  intros Hst Hpar Hgas Hh. split.
  - injection Hh as <-. intros simulate. apply SetUp_recovers.
  - intros x' Hht H.
    destruct (accepted_stages _ _ _ _ _ _ _ _ _ _ _ _ _ h tx false x x' Hh H) as (x0 & x1 & x2 & x3 & x4 & x5 & St).
    destruct St as [(gas & Eg & Hx0) H1 H2 H3 H4 H5 H6]. specialize (Hgas _ Eg).
    assert (gasMeter x0 = Gas.NewGasMeter gas) as Hm0.
    { subst x0. unfold SetGasMeter. by rewrite (proj2 (Z.eqb_neq _ _)) by done. }
    assert (Gas.meter_ok (gasMeter x0)) as Hok0 by (rewrite Hm0; split; simpl; unfold Gas.MaxUint64 in *; lia).
    pose proof (size_gas _ _ _ _ _ _ _ _ Hst _ _ _ _ Hok0 H1) as Hsize.
    apply metered_early in H1; [|done]. apply metered_Fee in H2; [|done|done]. apply metered_PubKey in H3; [|done].
    apply metered_late in H4; [|done..]. apply metered_Verify in H5; [|done]. apply metered_Sequence in H6; [|done].
    assert (metered x1 x') as Hx1 by (etrans; [exact H2|]; etrans; [exact H3|]; etrans; [exact H4|]; by etrans).
    destruct (H1 Hok0) as (Hok1 & L1 & C1 & P1). destruct (Hx1 Hok1) as (_ & L' & C' & P').
    destruct (L1 _ _ Hm0) as (c1 & Hm1). destruct (L' _ _ Hm1) as (c' & Hm'). rewrite Hm0, Hm' in *. simpl in *.
    exists gas. split_and!; [done|done| |lia]. apply Z.ltb_ge, P', P1, Z.ltb_ge. lia.
Qed.
End props.

(** ** An instance

    Messages name their signer, keys are named after their address, and a
    signature is the key's name followed by the sign bytes. *)

Definition demo_cfg : Config := mkConfig (<[FeeCollectorName := ("collector", [])]> ∅) ∅.
Definition demo_bech32 (a : string) : outcome string := if String.eqb a "" then Err "empty" else Ok a.
Definition demo_signers (m : string) : outcome (list string) := Ok [m].
Definition demo_address (pk : PubKey) : outcome string :=
  match pk with secp256k1_PubKey k => Ok k | _ => Ok "" end.
Definition demo_verify (pk : PubKey) (msg sig : string) : bool :=
  match pk with secp256k1_PubKey k => String.eqb sig (k +:+ msg) | _ => false end.
Definition demo_sign_bytes (mode : Z) (sd : SignerData) (tx : Tx.Tx string) : outcome string :=
  Ok ("/" +:+ sd_ChainID sd +:+ "/" +:+ Big.to_string (sd_Sequence sd)).
Definition demo_env : Env := mkEnv [mkCoin "aeil" (5 * 10 ^ 12)] "demo" DefaultParams.
Definition demo_tc : BaseApp.TxContext := BaseApp.getContextForTx BaseApp.runTxModeCheck "bytes".
Definition demo_tx : Tx.Tx string :=
  Tx.mkTx (Some (Tx.mkTxBody ["alice"] "" 0 []))
    (Some (Tx.mkAuthInfo [Tx.mkSignerInfo (Some (secp256k1_PubKey "alice")) (Tx.ModeInfo_Single 1) 0]
             (Some (Tx.mkFee [mkCoin "aeil" 4] 200000 "" ""))))
    ["alice/demo/0"].
Definition demo_ctx : Ctx () := mkCtx demo_chain () Gas.NewInfiniteGasMeter.
Definition demo_store_gas (c : call) (x : Ctx ()) : Z := 1000.

Definition demo_handler : Tx.Tx string → bool → M (Ctx ()) () :=
  run_chain (map Decorator
    [SetUpContextDecorator; RejectExtensionOptionsDecorator; MempoolFeeDecorator demo_env demo_tc;
     ValidateBasicDecorator id demo_bech32 demo_signers demo_tc; TxTimeoutHeightDecorator;
     ValidateMemoDecorator demo_store_gas demo_env;
     ConsumeTxSizeGasDecorator id demo_bech32 demo_signers (secp256k1_PubKey "") (λ _, 100) demo_store_gas demo_env demo_tc;
     DeductFeeDecorator demo_cfg id demo_bech32 demo_signers None demo_store_gas;
     SetPubKeyDecorator id demo_bech32 demo_signers demo_address (secp256k1_PubKey "") demo_store_gas;
     ValidateSigCountDecorator demo_store_gas demo_env;
     SigGasConsumeDecorator id demo_bech32 demo_signers (secp256k1_PubKey "") demo_store_gas demo_env;
     SigVerificationDecorator id demo_bech32 demo_signers demo_verify demo_sign_bytes demo_store_gas demo_env demo_tc;
     IncrementSequenceDecorator id demo_bech32 demo_signers demo_store_gas] ++ [Terminator]).

Lemma demo_is_handler : NewAnteHandler demo_cfg id demo_bech32 demo_signers demo_address demo_verify demo_sign_bytes
  (secp256k1_PubKey "") (λ _, 100) None demo_store_gas demo_env demo_tc = Some demo_handler.
Proof. reflexivity. Qed.

Lemma demo_accepts : demo_handler demo_tx false demo_ctx = (Ok (), (demo_handler demo_tx false demo_ctx).2).
Proof. apply run_ok. vm_compute. reflexivity. Qed.

#[local] Instance demo_no_grants : FeegrantLaws (G := ()) (Msg := string) None.
Proof. by intros use granter grantee fee msgs [=]. Qed.


Lemma ante_charges_fee_witness :
  bal (chain (demo_handler demo_tx false demo_ctx).2) "alice" "aeil" = 6 ∧
  ∀ d, sup (chain (demo_handler demo_tx false demo_ctx).2) d = sup demo_chain d.
Proof.
  destruct (ante_charges_fee demo_cfg id demo_bech32 demo_signers demo_address demo_verify demo_sign_bytes
    (secp256k1_PubKey "") (λ _, 100) None demo_store_gas demo_env demo_tc demo_handler demo_tx false demo_ctx _
    demo_chain_ok demo_is_handler demo_accepts) as (coll & fee & payer & granter & _ & _ & _ & _ & _ & _ & _ & Hs & _).
  split; [vm_compute; reflexivity|]. intros d. apply Hs.
Defined.

Lemma mempool_fee_covers_price_witness :
  ∃ fee gas coin price, Tx.GetFee demo_tx = Ok fee ∧ Tx.GetGas demo_tx = Ok gas ∧ coin ∈ fee ∧
    price ∈ MinGasPrices demo_env ∧ Denom coin = Denom price ∧ Amount price * gas <= Amount coin * 10 ^ 18.
Proof.
  refine (mempool_fee_covers_price demo_cfg id demo_bech32 demo_signers demo_address demo_verify demo_sign_bytes
    (secp256k1_PubKey "") (λ _, 100) None demo_store_gas demo_env demo_tc demo_handler demo_tx demo_ctx _
    _ _ eq_refl eq_refl eq_refl _ demo_is_handler demo_accepts).
  - repeat constructor.
  - repeat constructor. done.
  - intros gas [= <-]. done.
Defined.

Lemma ante_gas_bounded_witness :
  Gas.GasConsumed (gasMeter (demo_handler demo_tx false demo_ctx).2) <= 200000.
Proof.
  destruct (ante_gas_bounded demo_cfg id demo_bech32 demo_signers demo_address demo_verify demo_sign_bytes
    (secp256k1_PubKey "") (λ _, 100) None demo_store_gas demo_env demo_tc demo_handler demo_tx demo_ctx)
    as [_ H]; [done|done| |reflexivity|].
  - intros gas [= <-]. unfold Gas.MaxUint64. lia.
  - destruct (H _ ltac:(done) demo_accepts) as (gas & [= <-] & _ & Hle & _). exact Hle.
Defined.
End AnteProps.
