(* ===== verification/RewardAccounts.v ===== *)
(** * The bank's state under the handlers of x/reward

    The handlers reach the accounts and balances only through the bank
    keeper, so any relation its operations keep is kept by every message. *)

From Stdlib Require Import ZArith Lia Ascii String.
From stdpp Require Import base tactics option list gmap strings.
From S2P Require Import Prelude GoStd Digits SdkInt Decimal Coin DecCoin Chain Keepers Wire Proto Store Address Reward.

Local Open Scope Z_scope.
Import Reward.

Section rel.
Context {B : Type} `{BankKeeper B}.
Context (DecodeAndConvert : string → option (string * string)) (accPrefix : string).
Context (denoms : Denoms.registry).
Context (Rb : B → B → Prop) {Hpre : PreOrder Rb}.
Context (K_get : ∀ a d, steps Rb (bk_GetBalance a d))
        (K_from : ∀ m a l, steps Rb (bk_SendCoinsFromModuleToAccount m a l))
        (K_to : ∀ a m l, steps Rb (bk_SendCoinsFromAccountToModule a m l))
        (K_mint : ∀ m l, steps Rb (bk_MintCoins m l))
        (K_burn : ∀ m l, steps Rb (bk_BurnCoins m l))
        (K_emit : ∀ l, steps Rb (bk_EmitEvents l)).

Definition bank_rel (s s' : State B) : Prop := Rb (r_bank s) (r_bank s').
#[local] Instance bank_rel_preorder : PreOrder bank_rel.
Proof using Hpre. split; [intros s; unfold bank_rel; done|]. intros s1 s2 s3 H1 H2. unfold bank_rel in *. by transitivity (r_bank s2). Qed.

Lemma rel_bank {A} (m : M B A) : steps Rb m → steps bank_rel (bank m).
Proof. intros Hm s a s' (b & Hb & ->)%zoom_Ok. by eapply Hm. Qed.
Lemma rel_Set key v : steps bank_rel (Set_ key v).
Proof using Hpre. apply steps_modify. intros s. by unfold bank_rel. Qed.
Lemma rel_Delete key : steps bank_rel (Delete key).
Proof using Hpre. apply steps_modify. intros s. by unfold bank_rel. Qed.

Lemma rel_GetSupply : steps bank_rel GetSupply.
Proof using Hpre. unfold GetSupply, Get. stepping. Qed.
Lemma rel_SetSupply s : steps bank_rel (SetSupply s).
Proof using Hpre. unfold SetSupply. stepping. apply rel_Set. Qed.
Lemma rel_total : steps bank_rel GetTotalCollateral.
Proof using Hpre. unfold GetTotalCollateral, PrefixIterator. stepping. Qed.
Lemma rel_lower n : steps bank_rel (lower_supply n).
Proof using Hpre. unfold lower_supply. stepping; auto using rel_GetSupply, rel_SetSupply. Qed.
Lemma rel_emit ty attrs : steps bank_rel (emit ty attrs).
Proof using Hpre K_emit. apply rel_bank, K_emit. Qed.

Lemma rel_return {A} (dec : string → outcome A) items returned n acc :
  steps bank_rel (return_loop dec items returned n acc).
Proof using Hpre.
  revert returned acc. induction items as [|[key v] items IH]; intros returned acc; simpl; stepping; auto using rel_Delete.
Qed.
Lemma rel_delete items deleted n : steps bank_rel (delete_loop items deleted n).
Proof using Hpre.
  revert deleted. induction items as [|[key v] items IH]; intros deleted; simpl; stepping; auto using rel_Delete.
Qed.
Lemma rel_create todo i ids : steps bank_rel (create_loop todo i ids).
Proof using Hpre.
  revert i ids. induction todo as [|n IH]; intros i ids; simpl; stepping; auto.
  unfold create_one, contributors, PrefixIterator, Get. stepping. apply rel_Set.
Qed.

Lemma rel_Append node : steps bank_rel (AppendTxNode node).
Proof using Hpre.
  unfold AppendTxNode, GetAllTxHashes, resetEnergyStore, Get, PrefixIterator.
  stepping; auto using rel_Set, rel_Delete.
Qed.
Lemma rel_AddEnergy creator n h : steps bank_rel (AddEnergy creator n h).
Proof using Hpre. unfold AddEnergy, Get. stepping; auto using rel_Set. Qed.

Lemma rel_BurnStableCoin target amount : steps bank_rel (BurnStableCoin DecodeAndConvert accPrefix denoms target amount).
Proof using Hpre K_to K_burn.
  unfold BurnStableCoin, return_recs, PrefixIterator. stepping; auto using rel_return, rel_lower, rel_bank.
  all: stepping; auto using rel_return.
Qed.

(** Every message. *)
Lemma handle_bank_rel m : steps bank_rel (handle DecodeAndConvert accPrefix denoms m).
Proof using Hpre K_get K_from K_to K_mint K_burn K_emit.
  destruct m; cbn [handle]; apply steps_bind; try typeclasses eauto; try (intros; stepping).
  - unfold RewardSolarPower. stepping; auto using rel_total, rel_GetSupply, rel_SetSupply, rel_bank.
  - unfold msg_BurnStableCoin. stepping; auto using rel_BurnStableCoin, rel_emit.
  - unfold DepositCollateral. stepping; auto using rel_Set.
  - unfold RemoveCollateral, PrefixIterator. stepping; auto using rel_delete.
  - unfold BurnModuleStableCoins. stepping; auto using rel_lower, rel_bank.
  - unfold msg_AddEnergy, contributors, PrefixIterator. stepping; auto using rel_AddEnergy, rel_emit.
  - unfold msg_CreateRECRecord, CreateRECRecord. stepping; auto using rel_create, rel_emit.
  - unfold msg_AppendTxHash. stepping; auto using rel_Append, rel_emit.
  - unfold DistributeRewardPercent. stepping; auto using rel_bank.
Qed.
End rel.
