(* ===== verification/Node.v ===== *)
(** * The application: messages, ante handler and modules wired to [runTx]

    The messages of x/reward, x/light_tx, x/mapping, x/bank ([MsgSend]) and
    x/feegrant with their signers and stateless checks, their handlers, and the default ante handler
    over the modules' state, as simapp/app.go wires them. *)

From Stdlib Require Import ZArith Lia Ascii String.
From stdpp Require Import base tactics option list gmap strings.
From S2P Require Import Prelude GoStd Float64 Digits SdkInt Decimal Coin DecCoin MultiSig Chain Bank Keepers BankInst.
From S2P Require Import Address Gas BaseApp Tx Context Feegrant Ante Reward Modules.

Local Open Scope Z_scope.

Module Node.
Import MultiSig Ante Float64.

Inductive Msg :=
  | RewardMsg (m : Reward.Msg)
  | MsgSend (FromAddress ToAddress : string) (Amount : list Coin)
  | GrantMsg (m : Feegrant.MsgGrantAllowance)
  | RevokeMsg (m : Feegrant.MsgRevokeAllowance)
  | LightMsg (m : LightTx.MsgSendLightTx (Float := float64))
  | DeviceMsg (m : Mapping.MsgRegisterDevice).

Inductive Response :=
  | RewardResponse (r : Reward.Response)
  | MsgSendResponse
  | MsgGrantAllowanceResponse
  | MsgRevokeAllowanceResponse
  | MsgSendLightTxResponse (status : string)
  | MsgRegisterDeviceResponse.

(** The stores: x/auth, x/bank and x/reward; x/feegrant; x/light_tx;
    x/mapping. *)
Record State := mkNode {
  app : Reward.State Chain; allowances : Feegrant.Grants;
  light_store : gmap string string; devices : gmap string string }.

Section node.
Context (cfg : Config) (addr_String : string → string).
Context (DecodeAndConvert : string → option (string * string)) (accPrefix : string).
Context (denoms : Denoms.registry) (SendEnabledDenom : string → bool).
Context (time_fits : Z → bool) (MsgTypeURL : Msg → string).
Context (print_float : float64 → string) (light_Marshal : LightTx.RECMeta → outcome string).
Context (pk_Address : PubKey → outcome string).
Context (plain_verify : PubKey → string → string → bool).
Context (GetSignBytes : Z → SignerData → Tx.Tx Msg → outcome string).
Context (simSecp256k1Pubkey : PubKey) (simSig_len : PubKey → Z).
Context (store_gas : call → Ctx Feegrant.Grants → Z).
Context (env : Env).

#[local] Instance node_bank : BankKeeper Chain := Bank_keeper cfg addr_String.

Definition AccAddressFromBech32 : string → outcome string :=
  Address.AccAddressFromBech32 DecodeAndConvert accPrefix.

(** ** Signers and stateless checks *)

Definition creator_of (m : Reward.Msg) : string :=
  match m with
  | Reward.MsgRewardSolarPower creator _ _ => creator
  | Reward.MsgBurnStableCoin creator _ _ => creator
  | Reward.MsgDepositCollateral creator _ => creator
  | Reward.MsgRemoveCollateral creator _ => creator
  | Reward.MsgBurnModuleStable creator _ => creator
  | Reward.MsgAddEnergy creator _ _ _ => creator
  | Reward.MsgCreateRECRecord creator _ => creator
  | Reward.MsgAppendTxHash creator _ _ _ _ => creator
  | Reward.MsgDistributeRewardPercent creator _ _ => creator
  end.

Definition reward_GetSigners (m : Reward.Msg) : outcome (list string) :=
  creator ← must (AccAddressFromBech32 (creator_of m)); Ok [creator].

Definition MsgSend_ValidateBasic (from to : string) (amount : list Coin) : outcome () :=
  _ ← AccAddressFromBech32 from;
  _ ← AccAddressFromBech32 to;
  _ ← fail_if (negb (Coins.IsValid amount)) "invalid coins";
  fail_if (negb (Coins.IsAllPositive amount)) "invalid coins".

Definition MsgSend_GetSigners (from : string) : outcome (list string) :=
  from ← must (AccAddressFromBech32 from); Ok [from].

Definition GetSigners (msg : Msg) : outcome (list string) :=
  match msg with
  | RewardMsg m => reward_GetSigners m
  | MsgSend from _ _ => MsgSend_GetSigners from
  | GrantMsg m => Feegrant.MsgGrantAllowance_GetSigners AccAddressFromBech32 m
  | RevokeMsg m => Feegrant.MsgRevokeAllowance_GetSigners AccAddressFromBech32 m
  | LightMsg m => LightTx.GetSigners DecodeAndConvert accPrefix m
  | DeviceMsg m => Mapping.GetSigners DecodeAndConvert accPrefix m
  end.

Definition ValidateBasic (msg : Msg) : outcome () :=
  match msg with
  | RewardMsg m => Reward.ValidateBasic DecodeAndConvert accPrefix m
  | MsgSend from to amount => MsgSend_ValidateBasic from to amount
  | GrantMsg m => Feegrant.MsgGrantAllowance_ValidateBasic m
  | RevokeMsg m => Feegrant.MsgRevokeAllowance_ValidateBasic m
  | LightMsg m => LightTx.ValidateBasic DecodeAndConvert accPrefix m
  | DeviceMsg m => Mapping.ValidateBasic m
  end.

(** ** Handlers *)

(** Run on the context: the application starts it with an infinite meter. *)
Definition ctx_of (s : State) : Ctx Feegrant.Grants :=
  mkCtx (Reward.r_bank (app s)) (allowances s) Gas.NewInfiniteGasMeter.
Definition with_ctx (x : Ctx Feegrant.Grants) (s : State) : State :=
  mkNode (Reward.mkState (chain x) (Reward.r_kv (app s))) (grants x) (light_store s) (devices s).
Definition in_ctx {A} (m : M (Ctx Feegrant.Grants) A) : M State A := zoom ctx_of with_ctx m.

Definition on_app {A} (m : M (Reward.State Chain) A) : M State A :=
  zoom app (λ a s, mkNode a (allowances s) (light_store s) (devices s)) m.

(** x/light_tx writes its store and emits to the event manager of the context. *)
Definition light_of (s : State) : LightTx.State :=
  LightTx.mkState (light_store s) (events (Reward.r_bank (app s))).
Definition with_light (l : LightTx.State) (s : State) : State :=
  mkNode (Reward.mkState (set_events (LightTx.events l) (Reward.r_bank (app s))) (Reward.r_kv (app s)))
    (allowances s) (LightTx.store l) (devices s).
Definition on_light {A} (m : M LightTx.State A) : M State A := zoom light_of with_light m.

Definition on_devices {A} (m : M (gmap string string) A) : M State A :=
  zoom devices (λ d s, mkNode (app s) (allowances s) (light_store s) d) m.

Definition Handler (msg : Msg) : option (M State Response) :=
  Some match msg with
       | RewardMsg m =>
           r ← on_app (Reward.handle DecodeAndConvert accPrefix denoms m); mret (RewardResponse r)
       | MsgSend from to amount =>
           _ ← on_app (Reward.bank (Send cfg addr_String AccAddressFromBech32 SendEnabledDenom from to amount));
           mret MsgSendResponse
       | GrantMsg m =>
           _ ← in_ctx (Feegrant.msg_GrantAllowance addr_String AccAddressFromBech32 time_fits m);
           mret MsgGrantAllowanceResponse
       | RevokeMsg m =>
           _ ← in_ctx (Feegrant.msg_RevokeAllowance addr_String AccAddressFromBech32 m);
           mret MsgRevokeAllowanceResponse
       | LightMsg m =>
           status ← on_light (LightTx.SendLightTx print_float light_Marshal m);
           mret (MsgSendLightTxResponse status)
       | DeviceMsg m =>
           _ ← on_devices (Mapping.RegisterDevice DecodeAndConvert accPrefix m);
           mret MsgRegisterDeviceResponse
       end.

(** ** The ante handler *)

Definition feegrantKeeper : option (string → string → list Coin → list Msg → M (Ctx Feegrant.Grants) ()) :=
  Some (Feegrant.UseGrantedFees MsgTypeURL addr_String time_fits).

Definition anteHandler (tc : BaseApp.TxContext) (tx : Tx.Tx Msg) (simulate : bool) : M State () :=
  in_ctx (match NewAnteHandler cfg addr_String AccAddressFromBech32 GetSigners pk_Address plain_verify
                  GetSignBytes simSecp256k1Pubkey simSig_len feegrantKeeper store_gas env tc with
          | Some h => h tx simulate
          | None => lift (Panic "nil pointer dereference")
          end).

(** ** Transactions *)

Context (txDecoder : string → outcome (Tx.Tx Msg)).
Context (txGas : BaseApp.runTxMode → string → BaseApp.App State → Z).

Definition runTx : BaseApp.runTxMode → string → M (BaseApp.App State) (list Response) :=
  BaseApp.runTx txDecoder Tx.GetMsgs ValidateBasic (Some anteHandler) Handler txGas.

Definition tx_step : State → State → Prop :=
  BaseApp.deliver_step txDecoder Tx.GetMsgs ValidateBasic (Some anteHandler) Handler txGas.

End node.
End Node.
