(* ===== verification/AppCodec.v ===== *)
(** * Messages and keys in transactions

    The interfaces of Go whose values travel in [Any]s: public keys
    (crypto/keys) and the messages of the application.  secp256r1 keys, fee
    allowances and light transactions are encoded by code outside src/, which
    is a parameter. *)

From Stdlib Require Import ZArith Lia Ascii String.
From stdpp Require Import base tactics option list gmap strings.
From S2P Require Import Prelude GoStd Float64 Digits SdkInt Coin MultiSig Wire Proto WireMsg SdkMsgs TxProto.
From S2P Require Import Unknown Reward RewardMsgs Descriptors InterfaceRegistry Tx TxCodec TxDecoder TxDecoderFacts TxDecoderProps.
From S2P Require Import Modules Feegrant Node.

Local Open Scope Z_scope.

Module AppCodec.
Import Wire WireMsg Unknown Descriptors BitArray MultiSig TxDecoder TxDecoderFacts TxDecoderProps.

(** The types the modules have registered resolve to their descriptors. *)
Definition implementations : list (string * list FieldDescriptor) :=
  filter (λ d, is_Some (InterfaceRegistry.typeURLMap InterfaceRegistry.app_registry !! ("/" +:+ d.1))) descriptors.
Class AppURLs `{Registry} := app_urls : ∀ name md, (name, md) ∈ implementations → Resolve ("/" +:+ name) = Some md.

(** ** Values of one message type inside an interface *)

Definition via {T A} `{Codec T} (conv : T → A) (v : string) : outcome A :=
  t ← c_Unmarshal c_zero v; Ok (conv t).

Section via.
Context `{PL : ProtowireLaws} `{AT : AppTypes} `{AU : !AppURLs}.
Context {T A : Type} `{LT : CodecLaws T} `{DT : !Described T}.

Lemma via_unpacks (t : T) (conv : T → A) v : plain t → c_Marshal t = Ok v → slen v < 2 ^ 63 → via conv v = Ok (conv t).
Proof using LT.
  intros Hp Hm Hl. destruct (c_Marshal_fits t v Hm Hl) as [Hf ->]. unfold via. by rewrite codec_inverse.
Qed.
Lemma via_found (t : T) (conv : T → A) v o a : o = Some (via conv) → conv t = a → plain t →
  c_Marshal t = Ok v → slen v < 2 ^ 63 → ∃ f, o = Some f ∧ f v = Ok a.
Proof using LT. intros -> <- Hp Hm Hl. exists (via conv). split; [done|]. by apply via_unpacks. Qed.
Lemma via_resolves (t : T) v : (d_name T, d_fields T) ∈ implementations → known t → c_Marshal t = Ok v → slen v < 2 ^ 63 →
  ∃ md, Resolve ("/" +:+ d_name T) = Some md ∧ accepts md v.
Proof using AU LT.
  intros Hin Hk Hm Hl. destruct (c_Marshal_fits t v Hm Hl) as [Hf ->]. exists (d_fields T).
  split; [by apply AU|]. by apply described.
Qed.
End via.

Ltac is_implementation := apply (bool_decide_unpack _); vm_compute; exact I.

(** ** Public keys *)

Section keys.
(** Keys whose encoding is elsewhere. *)
Context (other_name : PubKey → string) (other_Marshal : PubKey → outcome string).
Context (other_imap : string → option (string → outcome PubKey)).

Definition key_name (pk : PubKey) : string :=
  match pk with
  | secp256k1_PubKey _ => "cosmos.crypto.secp256k1.PubKey"
  | ed25519_PubKey _ => "cosmos.crypto.ed25519.PubKey"
  | LegacyAminoPubKey _ _ => "cosmos.crypto.multisig.LegacyAminoPubKey"
  | _ => other_name pk
  end.
(** The keys of a multisignature key are packed. *)
Fixpoint key_Marshal (pk : PubKey) : outcome string :=
  match pk with
  | secp256k1_PubKey key => c_Marshal (Sdk.secp256k1_PubKey.mk key)
  | ed25519_PubKey key => c_Marshal (Sdk.ed25519_PubKey.mk key)
  | LegacyAminoPubKey threshold keys =>
      anys ← each (λ k, bz ← key_Marshal k; Ok (Sdk.Any.mk ("/" +:+ key_name k) bz "")) keys;
      c_Marshal (Sdk.LegacyAminoPubKey.mk threshold anys)
  | _ => other_Marshal pk
  end.

(** [Unmarshal] and [UnpackInterfaces] of the type of a URL, nested at most
    [n] deep.  A nested key that was not unpacked cannot be used; it has no
    type URL, and such an [Any] is refused before keys are unpacked. *)
Fixpoint key_imap (n : nat) (url : string) : option (string → outcome PubKey) :=
  match n with
  | O => None
  | S n =>
      if String.eqb url "/cosmos.crypto.secp256k1.PubKey" then
        Some (via (λ t, secp256k1_PubKey (Sdk.secp256k1_PubKey.Key t)))
      else if String.eqb url "/cosmos.crypto.ed25519.PubKey" then
        Some (via (λ t, ed25519_PubKey (Sdk.ed25519_PubKey.Key t)))
      else if String.eqb url "/cosmos.crypto.multisig.LegacyAminoPubKey" then
        Some (λ v,
          t ← Sdk.LegacyAminoPubKey.Unmarshal c_zero v;
          keys ← each (λ any, f ← or_err (key_imap n (Sdk.Any.TypeUrl any)) "no concrete type registered for type URL";
                              f (Sdk.Any.Value any)) (Sdk.LegacyAminoPubKey.PubKeys t);
          Ok (LegacyAminoPubKey (Sdk.LegacyAminoPubKey.Threshold t) keys))
      else other_imap url
  end.

Definition key_unmarshal (url v : string) : outcome PubKey :=
  f ← or_err (key_imap (S (String.length v)) url) "out of fuel"; f v.

#[global] Instance key_interface : Interface PubKey := {|
  TxDecoder.MessageName := key_name;
  proto_Marshal := key_Marshal;
  imap url := match key_imap 1 url with
              | None => None
              | Some _ => Some (key_unmarshal url)
              end |}.

(** Keys of the two plain types, and of multisignatures of such keys. *)
#[warnings="-register-all"]
Inductive key_ok : PubKey → Prop :=
  | ok_secp256k1 key : key_ok (secp256k1_PubKey key)
  | ok_ed25519 key : key_ok (ed25519_PubKey key)
  | ok_multisig threshold keys : 0 <= threshold < 2 ^ 32 → Forall key_ok keys → key_ok (LegacyAminoPubKey threshold keys).

Lemma any_values_inside (anys : list Sdk.Any.t) threshold any : any ∈ anys →
  (String.length (Sdk.Any.Value any) < String.length (c_enc (Sdk.LegacyAminoPubKey.mk threshold anys)))%nat.
Proof.
  intros Hin. pose proof (Pb.concat_map_length (enc_msg 0x12) anys any Hin). pose proof (Pb.enc_bytes_length 0x12 (c_enc any)).
  pose proof (value_inside any). unfold enc_msg in *. cbn [c_enc Sdk.LegacyAminoPubKey.codec].
  unfold Sdk.LegacyAminoPubKey.MarshalToSizedBuffer. rewrite !Str.length_app.
  cbn [Sdk.LegacyAminoPubKey.PubKeys]. unfold enc_msg. lia.
Qed.

Lemma key_imap_multisig n : key_imap (S n) "/cosmos.crypto.multisig.LegacyAminoPubKey" =
  Some (λ v,
    t ← Sdk.LegacyAminoPubKey.Unmarshal c_zero v;
    keys ← each (λ any, f ← or_err (key_imap n (Sdk.Any.TypeUrl any)) "no concrete type registered for type URL";
                        f (Sdk.Any.Value any)) (Sdk.LegacyAminoPubKey.PubKeys t);
    Ok (LegacyAminoPubKey (Sdk.LegacyAminoPubKey.Threshold t) keys)).
Proof. done. Qed.

Lemma key_unpacks n pk v : key_ok pk → key_Marshal pk = Ok v → slen v < 2 ^ 63 → (String.length v < n)%nat →
  ∃ f, key_imap n ("/" +:+ key_name pk) = Some f ∧ f v = Ok pk.
Proof.
  revert pk v. induction n as [|n IH]; intros pk v Hk Hm Hl Hn; [lia|]. destruct Hk as [key|key|threshold keys Ht Hkeys].
  - eexists. split; [reflexivity|]. by rewrite (via_unpacks (Sdk.secp256k1_PubKey.mk key)).
  - eexists. split; [reflexivity|]. by rewrite (via_unpacks (Sdk.ed25519_PubKey.mk key)).
  - eexists. split; [apply key_imap_multisig|]. cbn beta. cbn [key_Marshal] in Hm. apply bind_Ok in Hm as (anys & Ea & Hm).
    destruct (c_Marshal_fits _ v Hm Hl) as [Hf ->]. apply each_Forall2 in Ea.
    assert (Forall (λ any, Sdk.Any.unrecognized any = "") anys) as Hun.
    { clear -Ea. induction Ea as [|k any keys anys Hany _ IHl]; constructor; [|done].
      apply bind_Ok in Hany as (bz & _ & Hany). by injection Hany as <-. }
    assert (plain (Sdk.LegacyAminoPubKey.mk threshold anys)) as Hpl by (split; [exact Ht|exact Hun]).
    rewrite (codec_inverse (Sdk.LegacyAminoPubKey.mk threshold anys) Hpl Hf
      : Sdk.LegacyAminoPubKey.Unmarshal c_zero _ = Ok _).
    cbn [mbind outcome_bind Sdk.LegacyAminoPubKey.PubKeys Sdk.LegacyAminoPubKey.Threshold].
    assert (∀ any, any ∈ anys → (String.length (Sdk.Any.Value any) < n)%nat ∧ slen (Sdk.Any.Value any) < 2 ^ 63) as Hsm.
    { intros any Hin. pose proof (any_values_inside anys threshold any Hin). unfold fits, slen in *. lia. }
    rewrite (each_Ok _ anys keys); [done|]. clear -Ea Hsm Hkeys IH.
    induction Ea as [|k any keys anys Hany _ IHl]; constructor.
    + apply Forall_cons in Hkeys as [Hk _]. apply bind_Ok in Hany as (bz & Hbz & Hany). injection Hany as <-.
      destruct (Hsm (Sdk.Any.mk ("/" +:+ key_name k) bz "") ltac:(by left)) as [Hn Hl]. cbn [Sdk.Any.TypeUrl Sdk.Any.Value] in *.
      destruct (IH k bz Hk Hbz Hl Hn) as (f & -> & Hf). done.
    + apply Forall_cons in Hkeys as [_ Hkeys]. apply IHl; [done|]. intros any' Hin. apply Hsm. by right.
Qed.

Lemma via_returns {T A} `{L : CodecLaws T} (conv : T → A) v : returns (via conv v).
Proof. unfold via. pose proof (codec_total (A := T) c_zero v). by destruct (c_Unmarshal (A := T) c_zero v). Qed.

Lemma key_imap_returns n url f v : (∀ url f v, other_imap url = Some f → returns (f v)) →
  key_imap n url = Some f → returns (f v).
Proof.
  intros Ho. revert url f v. induction n as [|n IH]; intros url f v; [done|]. cbn [key_imap].
  destruct (String.eqb url _); [intros [= <-]; apply via_returns|].
  destruct (String.eqb url _); [intros [= <-]; apply via_returns|].
  destruct (String.eqb url _); [|apply Ho]. intros [= <-].
  apply returns_bind; [exact (codec_total (A := Sdk.LegacyAminoPubKey.t) c_zero v)|]. intros t _.
  apply returns_bind; [|done]. apply each_returns. intros any.
  destruct (key_imap n (Sdk.Any.TypeUrl any)) as [g|] eqn:E; [|done]. cbn [or_err mbind outcome_bind]. by apply (IH _ _ _ E).
Qed.
Lemma key_returns url f v : (∀ url f v, other_imap url = Some f → returns (f v)) →
  imap (A := PubKey) url = Some f → returns (f v).
Proof.
  intros Ho. cbn [imap key_interface]. destruct (key_imap 1 url); [|done]. intros [= <-]. unfold key_unmarshal.
  destruct (key_imap (S (String.length v)) url) as [g|] eqn:E; [|done]. cbn [or_err mbind outcome_bind]. by apply (key_imap_returns _ _ _ _ Ho E).
Qed.

Section key_laws.
Context `{PL : ProtowireLaws} `{AT : AppTypes} `{AU : !AppURLs}.

Lemma key_resolves n pk v : key_ok pk → key_Marshal pk = Ok v → slen v < 2 ^ 63 → (String.length v < n)%nat →
  ∃ md, Resolve ("/" +:+ key_name pk) = Some md ∧ accepts md v.
Proof using PL AT AU.
  revert pk v. induction n as [|n IH]; intros pk v Hk Hm Hl Hn; [lia|]. destruct Hk as [key|key|threshold keys Ht Hkeys].
  - exact (via_resolves (Sdk.secp256k1_PubKey.mk key) v ltac:(is_implementation) I Hm Hl).
  - exact (via_resolves (Sdk.ed25519_PubKey.mk key) v ltac:(is_implementation) I Hm Hl).
  - cbn [key_Marshal] in Hm. apply bind_Ok in Hm as (anys & Ea & Hm).
    refine (via_resolves (Sdk.LegacyAminoPubKey.mk threshold anys) v ltac:(is_implementation) _ Hm Hl).
    destruct (c_Marshal_fits _ v Hm Hl) as [Hf ->]. apply each_Forall2 in Ea.
    assert (∀ any, any ∈ anys → (String.length (Sdk.Any.Value any) < n)%nat ∧ slen (Sdk.Any.Value any) < 2 ^ 63) as Hsm.
    { intros any Hin. pose proof (any_values_inside anys threshold any Hin). unfold fits, slen in *. lia. }
    change (Forall known_any anys). clear -Ea Hsm Hkeys IH. induction Ea as [|k any keys anys Hany _ IHl]; constructor.
    + apply Forall_cons in Hkeys as [Hk _]. apply bind_Ok in Hany as (bz & Hbz & Hany). injection Hany as <-.
      destruct (Hsm (Sdk.Any.mk ("/" +:+ key_name k) bz "") ltac:(by left)) as [Hn Hl]. cbn [Sdk.Any.TypeUrl Sdk.Any.Value] in *.
      split; [done|]. by apply IH.
    + apply Forall_cons in Hkeys as [_ Hkeys]. apply IHl; [done|]. intros any' Hin. apply Hsm. by right.
Qed.

#[global, refine] Instance key_interface_laws : InterfaceLaws PubKey := { packable := key_ok }.
Proof using PL AT AU.
  - intros pk v Hk Hm Hl. cbn [imap TxDecoder.MessageName key_interface].
    destruct (key_unpacks (S (String.length v)) pk v Hk Hm Hl ltac:(lia)) as (f & Hf & Hfv).
    destruct (key_imap 1 _) eqn:E1; [|by destruct Hk].
    exists (key_unmarshal ("/" +:+ key_name pk)). split; [done|]. unfold key_unmarshal. by rewrite Hf.
  - intros pk v Hk Hm Hl. by apply (key_resolves (S (String.length v)) pk v); [| | |lia].
Defined.
End key_laws.
End keys.

(** ** The messages of x/reward *)

(** The protobuf name of a message. *)
Definition reward_name (m : Reward.Msg) : string :=
  "cosmos.reward.v1beta1." +:+
  match m with
  | Reward.MsgRewardSolarPower _ _ _ => "MsgRewardSolarPower"
  | Reward.MsgBurnStableCoin _ _ _ => "MsgBurnStableCoin"
  | Reward.MsgDepositCollateral _ _ => "MsgDepositCollateral"
  | Reward.MsgRemoveCollateral _ _ => "MsgRemoveCollateral"
  | Reward.MsgBurnModuleStable _ _ => "MsgBurnModuleStable"
  | Reward.MsgAddEnergy _ _ _ _ => "MsgAddEnergy"
  | Reward.MsgCreateRECRecord _ _ => "MsgCreateRECRecord"
  | Reward.MsgAppendTxHash _ _ _ _ _ => "MsgAppendTxHash"
  | Reward.MsgDistributeRewardPercent _ _ _ => "MsgDistributeRewardPercent"
  end.
Definition reward_Marshal (m : Reward.Msg) : outcome string :=
  match m with
  | Reward.MsgRewardSolarPower c a x => c_Marshal (MsgRewardSolarPower.mk c a x "")
  | Reward.MsgBurnStableCoin c a x => c_Marshal (MsgBurnStableCoin.mk c a x "")
  | Reward.MsgDepositCollateral c r => c_Marshal (MsgDepositCollateral.mk c r "")
  | Reward.MsgRemoveCollateral c x => c_Marshal (MsgRemoveCollateral.mk c x "")
  | Reward.MsgBurnModuleStable c x => c_Marshal (MsgBurnModuleStable.mk c x "")
  | Reward.MsgAddEnergy c t x h => c_Marshal (MsgAddEnergy.mk c t x h "")
  | Reward.MsgCreateRECRecord c n => c_Marshal (MsgCreateRECRecord.mk c n "")
  | Reward.MsgAppendTxHash c nc hs r nx => c_Marshal (MsgAppendTxHash.mk c hs nc r nx "")
  | Reward.MsgDistributeRewardPercent c a p => c_Marshal (MsgDistributeRewardPercent.mk c a p "")
  end.
Definition reward_types : list (string * (string → outcome Reward.Msg)) :=
  [("/cosmos.reward.v1beta1.MsgRewardSolarPower", via (λ t, Reward.MsgRewardSolarPower
      (MsgRewardSolarPower.Creator t) (MsgRewardSolarPower.Address t) (MsgRewardSolarPower.Amount t)));
   ("/cosmos.reward.v1beta1.MsgBurnStableCoin", via (λ t, Reward.MsgBurnStableCoin
      (MsgBurnStableCoin.Creator t) (MsgBurnStableCoin.TargetAddr t) (MsgBurnStableCoin.Amount t)));
   ("/cosmos.reward.v1beta1.MsgDepositCollateral", via (λ t, Reward.MsgDepositCollateral
      (MsgDepositCollateral.Creator t) (MsgDepositCollateral.RecType t)));
   ("/cosmos.reward.v1beta1.MsgRemoveCollateral", via (λ t, Reward.MsgRemoveCollateral
      (MsgRemoveCollateral.Creator t) (MsgRemoveCollateral.Amount t)));
   ("/cosmos.reward.v1beta1.MsgBurnModuleStable", via (λ t, Reward.MsgBurnModuleStable
      (MsgBurnModuleStable.Creator t) (MsgBurnModuleStable.Amount t)));
   ("/cosmos.reward.v1beta1.MsgAddEnergy", via (λ t, Reward.MsgAddEnergy
      (MsgAddEnergy.Creator t) (MsgAddEnergy.To t) (MsgAddEnergy.Amount t) (MsgAddEnergy.TxHash t)));
   ("/cosmos.reward.v1beta1.MsgCreateRECRecord", via (λ t, Reward.MsgCreateRECRecord
      (MsgCreateRECRecord.Creator t) (MsgCreateRECRecord.Count t)));
   ("/cosmos.reward.v1beta1.MsgAppendTxHash", via (λ t, Reward.MsgAppendTxHash
      (MsgAppendTxHash.Creator t) (MsgAppendTxHash.NodeCreator t) (MsgAppendTxHash.TxHashes t)
      (MsgAppendTxHash.RecId t) (MsgAppendTxHash.Next t)));
   ("/cosmos.reward.v1beta1.MsgDistributeRewardPercent", via (λ t, Reward.MsgDistributeRewardPercent
      (MsgDistributeRewardPercent.Creator t) (MsgDistributeRewardPercent.Address t) (MsgDistributeRewardPercent.Percent t)))].

Definition assoc {A} (url : string) (l : list (string * A)) : option A :=
  snd <$> find (λ p, String.eqb p.1 url) l.

(** Counts are 64-bit numbers; the records of a deposit have no unknown
    fields, and their heights are 64-bit numbers. *)
Definition reward_ok (m : Reward.Msg) : Prop :=
  match m with
  | Reward.MsgCreateRECRecord _ n => is_int64 n = true
  | Reward.MsgDepositCollateral _ (Some (Reward.RecRecord r)) => RECRecord_plain r
  | Reward.MsgDepositCollateral _ (Some (Reward.RecMeta r)) => RECMeta_unrecognized r = ""
  | _ => True
  end.

#[global] Instance reward_interface : Interface Reward.Msg := {|
  TxDecoder.MessageName := reward_name; proto_Marshal := reward_Marshal; imap url := assoc url reward_types |}.

Lemma assoc_elem {A} url (l : list (string * A)) a : assoc url l = Some a → ∃ u, (u, a) ∈ l.
Proof.
  unfold assoc. destruct (find _ l) as [[u a']|] eqn:E; [|done]. cbn. intros [= ->].
  apply find_some in E as [E _]. exists u. by apply list_elem_of_In.
Qed.

Lemma reward_returns url f v : imap (A := Reward.Msg) url = Some f → returns (f v).
Proof.
  assert (Forall (λ p, ∀ v, returns (p.2 v)) reward_types) as Hall by (repeat constructor; intros; apply via_returns).
  intros [u Hin]%assoc_elem. by apply (proj1 (Forall_forall _ _) Hall (u, f)).
Qed.

Section reward_laws.
Context `{PL : ProtowireLaws} `{AT : AppTypes} `{AU : !AppURLs}.

Lemma deposit_plain c r : reward_ok (Reward.MsgDepositCollateral c r) →
  plain (MsgDepositCollateral.mk c r "") ∧ known (MsgDepositCollateral.mk c r "").
Proof using PL AT.
  destruct r as [[r|r]|]; cbn [reward_ok]; intros Hr; split; (split; [|done]); try done.
  destruct Hr as (_ & H2 & H3). split; [exact H3|exact H2].
Qed.

#[global, refine] Instance reward_interface_laws : InterfaceLaws Reward.Msg := { packable := reward_ok }.
Proof using PL AT AU.
  - intros m v Hok Hm Hl. destruct m as [c a x|c a x|c r|c x|c x|c t x h|c n|c nc hs r nx|c a p]; cbn [proto_Marshal reward_interface reward_Marshal] in Hm.
    + by eapply (via_found (MsgRewardSolarPower.mk c a x "")); [reflexivity|reflexivity|..].
    + by eapply (via_found (MsgBurnStableCoin.mk c a x "")); [reflexivity|reflexivity|..].
    + by eapply (via_found (MsgDepositCollateral.mk c r "")); [reflexivity|reflexivity|apply deposit_plain|..].
    + by eapply (via_found (MsgRemoveCollateral.mk c x "")); [reflexivity|reflexivity|..].
    + by eapply (via_found (MsgBurnModuleStable.mk c x "")); [reflexivity|reflexivity|..].
    + by eapply (via_found (MsgAddEnergy.mk c t x h "")); [reflexivity|reflexivity|..].
    + by eapply (via_found (MsgCreateRECRecord.mk c n "")); [reflexivity|reflexivity|..].
    + by eapply (via_found (MsgAppendTxHash.mk c hs nc r nx "")); [reflexivity|reflexivity|..].
    + by eapply (via_found (MsgDistributeRewardPercent.mk c a p "")); [reflexivity|reflexivity|..].
  - intros m v Hok Hm Hl. destruct m as [c a x|c a x|c r|c x|c x|c t x h|c n|c nc hs r nx|c a p]; cbn [proto_Marshal reward_interface reward_Marshal] in Hm.
    + exact (via_resolves (MsgRewardSolarPower.mk c a x "") v ltac:(is_implementation) eq_refl Hm Hl).
    + exact (via_resolves (MsgBurnStableCoin.mk c a x "") v ltac:(is_implementation) eq_refl Hm Hl).
    + exact (via_resolves (MsgDepositCollateral.mk c r "") v ltac:(is_implementation) (proj2 (deposit_plain c r Hok)) Hm Hl).
    + exact (via_resolves (MsgRemoveCollateral.mk c x "") v ltac:(is_implementation) eq_refl Hm Hl).
    + exact (via_resolves (MsgBurnModuleStable.mk c x "") v ltac:(is_implementation) eq_refl Hm Hl).
    + exact (via_resolves (MsgAddEnergy.mk c t x h "") v ltac:(is_implementation) eq_refl Hm Hl).
    + exact (via_resolves (MsgCreateRECRecord.mk c n "") v ltac:(is_implementation) eq_refl Hm Hl).
    + exact (via_resolves (MsgAppendTxHash.mk c hs nc r nx "") v ltac:(is_implementation) eq_refl Hm Hl).
    + exact (via_resolves (MsgDistributeRewardPercent.mk c a p "") v ltac:(is_implementation) eq_refl Hm Hl).
Defined.
End reward_laws.

(** ** The messages of the application *)

Section messages.
(** Messages whose encoding is elsewhere: grants of fee allowances, and light
    transactions. *)
Context (other_name : Node.Msg → string) (other_Marshal : Node.Msg → outcome string).
Context (other_imap : string → option (string → outcome Node.Msg)).

Definition msg_name (m : Node.Msg) : string :=
  match m with
  | Node.RewardMsg m => reward_name m
  | Node.MsgSend _ _ _ => "cosmos.bank.v1beta1.MsgSend"
  | Node.RevokeMsg _ => "cosmos.feegrant.v1beta1.MsgRevokeAllowance"
  | Node.DeviceMsg _ => "cosmos.mapping.v1beta1.MsgRegisterDevice"
  | _ => other_name m
  end.
Definition msg_Marshal (m : Node.Msg) : outcome string :=
  match m with
  | Node.RewardMsg m => reward_Marshal m
  | Node.MsgSend from to amount => c_Marshal (Sdk.MsgSend.mk from to (map pack_coin amount))
  | Node.RevokeMsg m => c_Marshal (Sdk.MsgRevokeAllowance.mk (Feegrant.mr_Granter m) (Feegrant.mr_Grantee m))
  | Node.DeviceMsg m => c_Marshal (Sdk.MsgRegisterDevice.mk (Mapping.Creator m) (Mapping.DeviceId m) (Mapping.MsgAddress m))
  | _ => other_Marshal m
  end.
Definition view_send (t : Sdk.MsgSend.t) : outcome Node.Msg :=
  coins ← each view_coin (Sdk.MsgSend.Amount t);
  Ok (Node.MsgSend (Sdk.MsgSend.FromAddress t) (Sdk.MsgSend.ToAddress t) coins).
Definition msg_imap (url : string) : option (string → outcome Node.Msg) :=
  match assoc url reward_types with
  | Some f => Some (λ v, m ← f v; Ok (Node.RewardMsg m))
  | None =>
      if String.eqb url "/cosmos.bank.v1beta1.MsgSend" then
        Some (λ v, t ← Sdk.MsgSend.Unmarshal c_zero v; view_send t)
      else if String.eqb url "/cosmos.feegrant.v1beta1.MsgRevokeAllowance" then
        Some (via (λ t, Node.RevokeMsg (Feegrant.mkMsgRevokeAllowance
                (Sdk.MsgRevokeAllowance.Granter t) (Sdk.MsgRevokeAllowance.Grantee t))))
      else if String.eqb url "/cosmos.mapping.v1beta1.MsgRegisterDevice" then
        Some (via (λ t, Node.DeviceMsg (Mapping.mkMsgRegisterDevice
                (Sdk.MsgRegisterDevice.Creator t) (Sdk.MsgRegisterDevice.DeviceId t) (Sdk.MsgRegisterDevice.Address t))))
      else other_imap url
  end.
#[global] Instance msg_interface : Interface Node.Msg := {|
  TxDecoder.MessageName := msg_name; proto_Marshal := msg_Marshal; imap := msg_imap |}.

Definition msg_ok (m : Node.Msg) : Prop :=
  match m with
  | Node.RewardMsg m => reward_ok m
  | Node.MsgSend _ _ amount => Forall (λ c, Int.valid (Amount c)) amount
  | Node.RevokeMsg _ | Node.DeviceMsg _ => True
  | Node.GrantMsg _ | Node.LightMsg _ => False
  end.

Section msg_laws.
Context `{PL : ProtowireLaws} `{AT : AppTypes} `{AU : !AppURLs}.

#[global, refine] Instance msg_interface_laws : InterfaceLaws Node.Msg := { packable := msg_ok }.
Proof using PL AT AU.
  - intros m v Hok Hm Hl. destruct m as [m|from to amount|m|[g e]|m|[c d a]]; cbn [msg_ok] in Hok; try done.
    + destruct (any_unpacks (InterfaceLaws := reward_interface_laws) m v Hok Hm Hl) as (f & Hf & Hfv).
      exists (λ v, m ← f v; Ok (Node.RewardMsg m)). cbn [imap TxDecoder.MessageName msg_interface msg_name reward_interface] in *.
      unfold msg_imap. rewrite Hf. split; [done|]. by rewrite Hfv.
    + exists (λ v, t ← Sdk.MsgSend.Unmarshal c_zero v; view_send t). split; [reflexivity|].
      cbn [proto_Marshal msg_interface msg_Marshal] in Hm. destruct (c_Marshal_fits _ v Hm Hl) as [Hf ->].
      assert (plain (Sdk.MsgSend.mk from to (map pack_coin amount))) as Hp by (apply Forall_fmap; exact Hok).
      rewrite (codec_inverse _ Hp Hf : Sdk.MsgSend.Unmarshal c_zero _ = Ok _). cbn [mbind outcome_bind].
      unfold view_send. cbn [Sdk.MsgSend.Amount]. by rewrite view_pack_coins.
    + by eapply (via_found (Sdk.MsgRevokeAllowance.mk g e)); [reflexivity|reflexivity|..].
    + by eapply (via_found (Sdk.MsgRegisterDevice.mk c d a)); [reflexivity|reflexivity|..].
  - intros m v Hok Hm Hl. destruct m as [m|from to amount|m|[g e]|m|[c d a]]; cbn [msg_ok] in Hok; try done.
    + exact (any_resolves (InterfaceLaws := reward_interface_laws) m v Hok Hm Hl).
    + refine (via_resolves (Sdk.MsgSend.mk from to (map pack_coin amount)) v ltac:(is_implementation) _ Hm Hl).
      apply Forall_fmap, Forall_true. done.
    + exact (via_resolves (Sdk.MsgRevokeAllowance.mk g e) v ltac:(is_implementation) I Hm Hl).
    + exact (via_resolves (Sdk.MsgRegisterDevice.mk c d a) v ltac:(is_implementation) I Hm Hl).
Defined.
End msg_laws.
End messages.

End AppCodec.
