(* ===== verification/CodecExamples.v ===== *)
(** * The codec on concrete transactions

    An instance of what the decoder uses of other code, with which the
    theorems about it are applied: parsing functions over the varints of Wire,
    and the registry of the modules. *)

From Stdlib Require Import ZArith Lia Ascii String.
From stdpp Require Import base tactics option list gmap strings.
From S2P Require Import Prelude GoStd Float64 Digits SdkInt Coin MultiSig Wire Proto WireMsg SdkMsgs TxProto.
From S2P Require Import Unknown Reward RewardMsgs Descriptors InterfaceRegistry Tx TxCodec TxDecoder TxDecoderFacts TxDecoderProps.
From S2P Require Import Modules Feegrant Node AppCodec.

Local Open Scope Z_scope.

Module CodecExamples.
Import Wire WireMsg Unknown Descriptors BitArray MultiSig TxDecoder TxDecoderFacts TxDecoderProps AppCodec.

(** ** Parsing *)

Definition p_varint (s : string) : Z * Z :=
  match read_varint s with Ok (v, r) => (v, slen s - slen r) | _ => (0, -1) end.
Definition p_tag (s : string) : Z * Z * Z :=
  match read_varint s with
  | Ok (v, r) => if (v / 8 <? 1) || (2 ^ 29 <=? v / 8) then (0, 0, -1) else (v / 8, v mod 8, slen s - slen r)
  | _ => (0, 0, -1)
  end.
Definition p_value (num typ : Z) (s : string) : Z :=
  match typ with
  | 0 => (p_varint s).2
  | 1 => if slen s <? 8 then -1 else 8
  | 2 => let '(n, m) := p_varint s in if (m <? 0) || (n <? 0) || (slen s <? m + n) then -1 else m + n
  | 5 => if slen s <? 4 then -1 else 4
  | _ => -1
  end.
Definition p_field (s : string) : Z * Z * Z :=
  let '(num, typ, m) := p_tag s in
  if m <? 0 then (0, 0, m)
  else let n := p_value num typ (Str.drop (Z.to_nat m) s) in
       if n <? 0 then (0, 0, n) else (num, typ, m + n).
Definition p_scalar (t : FieldType) : bool :=
  match t with TYPE_STRING | TYPE_BYTES | TYPE_MESSAGE | TYPE_GROUP => false | _ => true end.
#[export] Instance p_wire : Protowire := {|
  ConsumeTag := p_tag; ConsumeVarint := p_varint; ConsumeFieldValue := p_value; ConsumeField := p_field; IsScalar := p_scalar |}.

Lemma read_varint_prefix n shift acc s v r : read_varint_loop n shift acc s = Ok (v, r) →
  ∃ p, s = p +:+ r ∧ ∀ r', read_varint_loop n shift acc (p +:+ r') = Ok (v, r').
Proof.
  revert shift acc s. induction n as [|n IH]; intros shift acc [|c s] E; try done. cbn [read_varint_loop] in E.
  destruct (byte_val c <? 128) eqn:Ec.
  - injection E as <- <-. exists (String c ""). split; [done|]. intros r'. rewrite Str.app_cons. cbn [read_varint_loop]. by rewrite Ec.
  - apply IH in E as (p & -> & Hp). exists (String c p). split; [done|]. intros r'. rewrite Str.app_cons. cbn [read_varint_loop]. by rewrite Ec.
Qed.
Lemma read_varint_split s v r : read_varint s = Ok (v, r) → ∃ p, s = p +:+ r ∧ 1 <= slen p ∧ ∀ r', read_varint (p +:+ r') = Ok (v, r').
Proof.
  intros E. destruct (read_varint_prefix _ _ _ _ _ _ E) as (p & -> & Hp). exists p. split_and!; [done| |done].
  destruct p as [|c p]; [|rewrite slen_cons; pose proof (slen_nonneg p); lia]. by specialize (Hp "").
Qed.
Lemma p_varint_app v r : 0 <= v < 2 ^ 64 → p_varint (encodeVarint v +:+ r) = (v, slen (encodeVarint v)).
Proof. intros Hv. unfold p_varint. rewrite read_encodeVarint by done. rewrite slen_app. f_equal. lia. Qed.
Lemma p_tag_app num typ r : 1 <= num < 2 ^ 29 → 0 <= typ < 6 →
  p_tag (encodeVarint (num * 8 + typ) +:+ r) = (num, typ, slen (encodeVarint (num * 8 + typ))).
Proof.
  intros Hn Ht. unfold p_tag. rewrite read_encodeVarint by lia. rewrite slen_app.
  assert ((num * 8 + typ) / 8 = num) as -> by (symmetry; apply Z.div_unique with typ; lia).
  assert ((num * 8 + typ) mod 8 = typ) as -> by (symmetry; apply Z.mod_unique with num; lia).
  rewrite (proj2 (Z.ltb_ge num 1)), (proj2 (Z.leb_gt _ num)) by lia. cbn [orb]. f_equal. lia.
Qed.
Lemma p_varint_length s : (p_varint s).2 < 0 ∨ 0 < (p_varint s).2 <= slen s.
Proof.
  unfold p_varint. destruct (read_varint s) as [[v r]| |] eqn:E; [|left; simpl; lia..].
  apply read_varint_split in E as (p & -> & Hp & _). right. cbn [snd]. rewrite slen_app. pose proof (slen_nonneg r). lia.
Qed.
Lemma p_tag_length s : (p_tag s).2 < 0 ∨ 0 < (p_tag s).2 <= slen s.
Proof.
  unfold p_tag. destruct (read_varint s) as [[v r]| |] eqn:E; [|left; simpl; lia..].
  apply read_varint_split in E as (p & -> & Hp & _). case_match; [left; simpl; lia|].
  right. cbn [snd]. rewrite slen_app. pose proof (slen_nonneg r). lia.
Qed.
Lemma p_value_bytes num s r : slen s < 2 ^ 63 →
  p_value num 2 (encodeVarint (slen s) +:+ (s +:+ r)) = slen (encodeVarint (slen s)) + slen s.
Proof.
  intros Hs. pose proof (slen_nonneg s). pose proof (slen_nonneg r). cbn [p_value]. rewrite p_varint_app by lia. rewrite !slen_app.
  pose proof (slen_nonneg (encodeVarint (slen s))).
  by rewrite (proj2 (Z.ltb_ge _ 0)), (proj2 (Z.ltb_ge _ 0)), (proj2 (Z.ltb_ge _ _)) by lia.
Qed.
Lemma p_value_length num typ s : p_value num typ s <= slen s.
Proof.
  pose proof (slen_nonneg s). unfold p_value. pose proof (p_varint_length s) as Hv.
  repeat case_match; simplify_eq/=; try lia;
    repeat match goal with
    | H : _ || _ = false |- _ => apply orb_false_iff in H as [? ?]
    | H : (_ <? _) = false |- _ => apply Z.ltb_ge in H
    end; lia.
Qed.

Lemma drop_slen a b : Str.drop (Z.to_nat (slen a)) (a +:+ b) = b.
Proof. unfold slen. by rewrite Nat2Z.id, Str.drop_app. Qed.

#[export] Instance p_wire_laws : ProtowireLaws.
Proof.
  split.
  - exact p_tag_app.
  - exact p_varint_app.
  - intros num v r Hv. cbn [ConsumeFieldValue p_wire p_value]. by rewrite p_varint_app.
  - exact p_value_bytes.
  - intros num s r Hn Hs. cbn [ConsumeField p_wire]. unfold p_field. rewrite p_tag_app by lia.
    pose proof (slen_nonneg (encodeVarint (num * 8 + 2))). pose proof (slen_nonneg (encodeVarint (slen s))). pose proof (slen_nonneg s).
    rewrite (proj2 (Z.ltb_ge _ 0)) by done. rewrite drop_slen, p_value_bytes by done.
    by rewrite (proj2 (Z.ltb_ge _ 0)) by lia.
  - exact p_tag_length.
  - exact p_value_length.
  - intros num s n <- Hn. cbn [ConsumeFieldValue ConsumeVarint p_wire p_value] in *. unfold p_varint in *.
    destruct (read_varint s) as [[v r]| |] eqn:E; [|done..]. apply read_varint_split in E as (p & -> & Hp & Hr).
    cbn [snd] in *. rewrite slen_app in *. pose proof (slen_nonneg r).
    destruct ((_ <? 0) || (v <? 0) || _) eqn:Eb; [done|]. apply orb_false_iff in Eb as [Eb1 Eb2].
    apply orb_false_iff in Eb1 as [_ Eb1]. apply Z.ltb_ge in Eb1, Eb2.
    replace (slen p + slen r - slen r + v) with (slen p + v) in * by lia.
    assert (Str.take (Z.to_nat (slen p + v)) (p +:+ r) = p +:+ Str.take (Z.to_nat v) r) as ->.
    { replace (Z.to_nat (slen p + v)) with (String.length p + Z.to_nat v)%nat by (unfold slen; lia).
      clear. induction p as [|c p IH]; [done|]. rewrite !Str.app_cons. cbn [String.length Nat.add Str.take]. by rewrite IH. }
    rewrite Hr. cbn [snd]. rewrite slen_app. lia.
  - intros s. cbn [ConsumeField p_wire]. unfold p_field. pose proof (p_tag_length s) as Ht.
    destruct (p_tag s) as [[num typ] m]. cbn [snd] in Ht. destruct (Z.ltb_spec m 0); [left; done|].
    pose proof (p_value_length num typ (Str.drop (Z.to_nat m) s)) as Hv. set (n := p_value _ _ _) in *.
    destruct (Z.ltb_spec n 0); [left; done|]. right. cbn [snd]. unfold slen in *. rewrite drop_length in Hv. lia.
  - intros t Ht. cbn [IsScalar p_wire]. set_unfold in Ht. naive_solver.
Qed.

(** ** The registry of the modules *)

#[export] Instance p_registry : Registry := {|
  MessageType name := assoc name descriptors;
  Resolve url := match InterfaceRegistry.Resolve url InterfaceRegistry.app_registry with Ok t => assoc t descriptors | _ => None end |}.

Lemma descriptors_named name md : assoc name descriptors = Some md → named_messages md.
Proof.
  assert (Forall (λ p, Forall (λ fd, fd_TypeName fd = "" ∨ fd_Type fd = TYPE_MESSAGE ∨ fd_Type fd = TYPE_ENUM) p.2) descriptors) as Hall.
  { apply (bool_decide_unpack _). by vm_compute. }
  intros [u Hin]%assoc_elem fd Hfd Hne. apply (proj1 (Forall_forall _ _) Hall) in Hin.
  apply (proj1 (Forall_forall _ _) Hin) in Hfd. naive_solver.
Qed.

#[export] Instance p_types : AppTypes.
Proof.
  intros name md Hin. cbn [MessageType p_registry].
  assert (Forall (λ p, assoc p.1 descriptors = Some p.2) descriptors) as Hall by (repeat constructor).
  by apply (proj1 (Forall_forall _ _) Hall (name, md)).
Qed.
#[export] Instance p_urls : AppURLs.
Proof.
  intros name md Hin. cbn [Resolve p_registry].
  assert (Forall (λ p, Resolve ("/" +:+ p.1) = Some p.2) implementations) as Hall.
  { apply (bool_decide_unpack _). by vm_compute. }
  by apply (proj1 (Forall_forall _ _) Hall (name, md)).
Qed.

#[export] Instance p_keys : Interface PubKey := key_interface (λ _, "") (λ _, Err "not encoded here") (λ _, None).
#[export] Instance p_keys_laws : InterfaceLaws PubKey := key_interface_laws _ _ _.
#[export] Instance p_msgs : Interface Node.Msg := msg_interface (λ _, "") (λ _, Err "not encoded here") (λ _, None).
#[export] Instance p_msgs_laws : InterfaceLaws Node.Msg := msg_interface_laws _ _ _.

(** ** A transaction with a multisignature key *)

Definition two_keys : PubKey := LegacyAminoPubKey 1 [secp256k1_PubKey "key1"; ed25519_PubKey "key2"].
Definition demo_body : Tx.TxBody Node.Msg :=
  Tx.mkTxBody [Node.RewardMsg (Reward.MsgRewardSolarPower "cosmos1bridge" "cosmos1panel" "1500");
               Node.MsgSend "cosmos1bridge" "cosmos1alice" [mkCoin "stake" 25];
               Node.RewardMsg (Reward.MsgCreateRECRecord "cosmos1bridge" 3)] "light-tx" 100 [].
Definition demo_authInfo : Tx.AuthInfo :=
  Tx.mkAuthInfo
    [Tx.mkSignerInfo (Some (secp256k1_PubKey "key0")) (Tx.ModeInfo_Single 1) 7;
     Tx.mkSignerInfo (Some two_keys)
       (Tx.ModeInfo_Multi (Some (mkBitArray 2 [128])) [Tx.ModeInfo_Single 127]) 0]
    (Some (Tx.mkFee [mkCoin "stake" 5000] 200000 "" "")).
Definition demo_tx : Tx.Tx Node.Msg := Tx.mkTx (Some demo_body) (Some demo_authInfo) ["sig0"; "sig1"].
Definition demo_bytes : string :=
  match TxCodec.DefaultTxEncoder body_Marshal authInfo_Marshal demo_tx with Ok b => b | _ => "" end.

Lemma demo_encodes : TxCodec.DefaultTxEncoder body_Marshal authInfo_Marshal demo_tx = Ok demo_bytes.
Proof. by vm_compute. Qed.
Lemma demo_small : slen (enc_bytes 0xa "padding" +:+ demo_bytes) < 2 ^ 63.
Proof. by vm_compute. Qed.
Lemma demo_small' : slen demo_bytes < 2 ^ 63.
Proof. by vm_compute. Qed.
Lemma demo_body_ok : body_ok demo_body.
Proof.
  split_and!; [|done|done]. repeat (apply Forall_cons; split); done.
Qed.
Lemma demo_authInfo_ok : authInfo_ok demo_authInfo.
Proof.
  split.
  - apply Forall_cons; split; [|apply Forall_singleton].
    + split_and!; [constructor|right; by constructor|done].
    + split_and!; [constructor; [done|repeat constructor]| |done]. right. constructor; [by split; [|apply Forall_singleton]|].
      apply Forall_singleton. by constructor.
  - split; [|done]. apply Forall_singleton. by vm_compute.
Qed.
Lemma demo_body_bytes : TxCodec.getBodyBytes body_Marshal demo_tx ≠ Ok "".
Proof. intros E. apply (f_equal (λ o, match o with Ok s => String.length s | _ => O end)) in E. vm_compute in E. lia. Qed.

Lemma decoder_inverts_encoder_witness : ∃ w, DefaultTxDecoder (Msg := Node.Msg) demo_bytes = Ok w ∧ view w = Ok demo_tx ∧
  (∀ mode chainID accnum, w_direct_GetSignBytes mode chainID accnum w =
     TxCodec.direct_GetSignBytes body_Marshal authInfo_Marshal mode chainID accnum demo_tx) ∧
  w_DefaultTxEncoder w = Ok demo_bytes.
Proof.
  exact (decoder_inverts_encoder demo_tx demo_body demo_authInfo demo_bytes eq_refl eq_refl demo_body_ok demo_authInfo_ok
    demo_encodes demo_small').
Defined.

Lemma padded_transaction_accepted_witness :
  DefaultTxDecoder (Msg := Node.Msg) (enc_bytes 0xa "padding" +:+ demo_bytes) = DefaultTxDecoder (Msg := Node.Msg) demo_bytes ∧
  slen demo_bytes + slen "padding" < slen (enc_bytes 0xa "padding" +:+ demo_bytes) ∧
  ∃ w, DefaultTxDecoder (Msg := Node.Msg) demo_bytes = Ok w ∧ view w = Ok demo_tx.
Proof.
  exact (padded_transaction_accepted demo_tx demo_body demo_authInfo demo_bytes "padding" eq_refl eq_refl demo_body_ok
    demo_authInfo_ok demo_encodes demo_body_bytes demo_small).
Defined.

Lemma DefaultTxDecoder_total_witness : returns (DefaultTxDecoder (Msg := Reward.Msg) "not a transaction").
Proof.
  refine (DefaultTxDecoder_total _ _ _ _ "not a transaction").
  - exact descriptors_named.
  - intros url md. cbn [Resolve p_registry]. destruct (InterfaceRegistry.Resolve _ _); [apply descriptors_named|done..].
  - exact reward_returns.
  - intros url f v. by apply (key_returns (λ _, "") (λ _, Err "not encoded here") (λ _, None)).
Defined.
End CodecExamples.
