(* ===== verification/NodeProps.v ===== *)
(** * The application as a whole

    Transactions run at most once, a failed one still pays, and the stable
    coin stays backed, with the ante handler and the modules as they are. *)

From Stdlib Require Import ZArith Lia Ascii String.
From stdpp Require Import base tactics option list gmap sorting relations strings.
From S2P Require Import Prelude GoStd Float64 Digits SdkInt Decimal Coin CoinFacts CoinProps DecCoin MultiSig Chain.
From S2P Require Import Bank BankFacts Keepers BankInst AccountFacts Wire Address Gas BaseApp Tx Context.
From S2P Require Import Feegrant Ante AnteFacts FeegrantProps Reward RewardFacts RewardProps RewardAccounts.
From S2P Require Import Modules Node.

Local Open Scope Z_scope.

Module NodeProps.
Import MultiSig Ante AnteFacts FeegrantProps Float64 Node.

(** ** Signers *)

Section signers.
Context {Msg : Type} (msg_GetSigners : Msg → outcome (list string)).
Context (AccAddressFromBech32 : string → outcome string) (addr_String : string → string).

Definition fresh (signers seen : list string) : Prop :=
  NoDup signers ∧ ∀ a, a ∈ signers → addr_String a ∈ seen.

Lemma add_new_fresh addrs signers seen : fresh signers seen →
  fresh (Tx.add_new addr_String addrs signers seen).1 (Tx.add_new addr_String addrs signers seen).2.
Proof.
  revert signers seen. induction addrs as [|addr addrs IH]; intros signers seen [Hn Hs]; simpl; [done|].
  destruct (existsb (String.eqb (addr_String addr)) seen) eqn:E; [by apply IH|]. apply IH. split.
  - apply NoDup_app. split_and!; [done| |apply NoDup_singleton]. intros a Ha ->%list_elem_of_singleton.
    apply not_true_iff_false in E. apply E, existsb_exists. exists (addr_String addr).
    split; [by apply list_elem_of_In, Hs|apply String.eqb_refl].
  - intros a [Ha| ->%list_elem_of_singleton]%elem_of_app; [right; auto|left].
Qed.

Lemma collect_fresh msgs signers seen r : fresh signers seen →
  Tx.collect msg_GetSigners addr_String msgs signers seen = Ok r → fresh r.1 r.2.
Proof.
  revert signers seen. induction msgs as [|msg msgs IH]; intros signers seen Hf H; simpl in H; [by injection H as <-|].
  apply bind_Ok in H as (addrs & _ & H). pose proof (add_new_fresh addrs signers seen Hf) as Hf'.
  destruct (Tx.add_new addr_String addrs signers seen) as [s1 s2]. by eapply IH.
Qed.

Lemma occ_NoDup a l : NoDup l → (occ a l <= 1)%nat.
Proof.
  intros H. unfold occ. induction H as [|b l Hb _ IH]; [simpl; lia|]. rewrite filter_cons.
  destruct (decide (a = b)) as [->|]; [|done]. simpl. assert (filter (b =.) l = []) as ->; [|simpl; lia].
  destruct (filter (b =.) l) as [|c l'] eqn:E; [done|]. exfalso. apply Hb.
  assert (c ∈ filter (b =.) l) as [<- ?]%list_elem_of_filter by (rewrite E; left). done.
Qed.

(** An account is at most twice among the signers (its second place is that
    of the fee payer). *)
Lemma signers_occ (tx : Tx.Tx Msg) signers a :
  Tx.GetSigners msg_GetSigners AccAddressFromBech32 addr_String tx = Ok signers → (occ a signers <= 2)%nat.
Proof.
  intros H. unfold Tx.GetSigners in H. apply bind_Ok in H as ([sg seen] & Hc & H).
  apply collect_fresh in Hc as [Hn _]; [|by split; [constructor|intros ? ?%not_elem_of_nil]]. simpl in Hn.
  apply bind_Ok in H as (fee & _ & H). pose proof (occ_NoDup a sg Hn) as Ho.
  case_match; [|by injection H as <-; lia]. apply bind_Ok in H as (p & _ & [= <-]).
  unfold occ in *. rewrite filter_app, length_app. assert (length (filter (a =.) [p]) <= 1)%nat; [|lia].
  rewrite filter_cons. destruct (decide _); simpl; lia.
Qed.
End signers.

Section node.
Context (cfg : Config) (addr_String : string → string).
Context (DecodeAndConvert : string → option (string * string)) (accPrefix : string).
Context (denoms : Denoms.registry) (SendEnabledDenom : string → bool).
Context (time_fits : Z → bool) (MsgTypeURL : Msg → string).
Context (print_float : float64 → string) (light_Marshal : LightTx.RECMeta → outcome string).
Context (pk_Address : PubKey → outcome string).
Context (plain_verify : PubKey → string → string → bool).
Context (GetSignBytes : Z → SignerData → Tx.Tx Msg → outcome string).
Context (simSecp256k1Pubkey : PubKey) (simSig_len : PubKey → Z).
Context (store_gas : call → Ctx Feegrant.Grants → Z).
Context (env : Env).
Context (txDecoder : string → outcome (Tx.Tx Msg)).
Context (txGas : BaseApp.runTxMode → string → BaseApp.App State → Z).
Implicit Types (s : State) (tx : Tx.Tx Msg).

Abbreviation ante := (anteHandler cfg addr_String DecodeAndConvert accPrefix time_fits MsgTypeURL pk_Address
  plain_verify GetSignBytes simSecp256k1Pubkey simSig_len store_gas env).
Abbreviation handler := (Handler cfg addr_String DecodeAndConvert accPrefix denoms SendEnabledDenom time_fits
  print_float light_Marshal).
Abbreviation run := (runTx cfg addr_String DecodeAndConvert accPrefix denoms SendEnabledDenom time_fits MsgTypeURL
  print_float light_Marshal pk_Address plain_verify GetSignBytes simSecp256k1Pubkey simSig_len store_gas env txDecoder txGas).
Abbreviation step := (tx_step cfg addr_String DecodeAndConvert accPrefix denoms SendEnabledDenom time_fits MsgTypeURL
  print_float light_Marshal pk_Address plain_verify GetSignBytes simSecp256k1Pubkey simSig_len store_gas env txDecoder txGas).
Abbreviation bech32 := (AccAddressFromBech32 DecodeAndConvert accPrefix).
Abbreviation tx_signers := (Tx.GetSigners (GetSigners DecodeAndConvert accPrefix) bech32 addr_String).

Definition bank_of s : Chain := Reward.r_bank (app s).
Definition seqs s (a : string) : Z := seq_of (bank_of s) a.

#[local] Instance nk : BankKeeper Chain := node_bank cfg addr_String.
#[local] Instance node_laws : BankLaws Chain := Bank_laws cfg addr_String.

(** ** The ante handler on the stores *)

Lemma ante_Ok tc tx sim s s' : ante tc tx sim s = (Ok (), s') →
  ∃ x0 x1 x2 x3 x4 x5 x', stages cfg addr_String bech32 (GetSigners DecodeAndConvert accPrefix) pk_Address plain_verify
    GetSignBytes simSecp256k1Pubkey simSig_len (feegrantKeeper addr_String time_fits MsgTypeURL) store_gas env tc
    tx sim (ctx_of s) x0 x1 x2 x3 x4 x5 x' ∧ s' = with_ctx x' s.
Proof.
  intros (x' & H & ->)%zoom_Ok. destruct (NewAnteHandler _ _ _ _ _ _ _ _ _ _ _ _ _) as [h|] eqn:E; [|done].
  destruct (accepted_stages _ _ _ _ _ _ _ _ _ _ _ _ _ h tx sim _ _ E H) as (x0 & x1 & x2 & x3 & x4 & x5 & St).
  by exists x0, x1, x2, x3, x4, x5, x'.
Qed.

#[local] Instance node_grants : FeegrantLaws (feegrantKeeper addr_String time_fits MsgTypeURL) :=
  feegrant_laws MsgTypeURL addr_String time_fits.

Lemma ante_spec tc tx sim s s' : chain_ok (bank_of s) → ante tc tx sim s = (Ok (), s') →
  ∃ coll fee payer granter signers, GetModuleAddress cfg FeeCollectorName = Some coll ∧ Tx.GetFee tx = Ok fee ∧
    Tx.FeePayer (GetSigners DecodeAndConvert accPrefix) bech32 addr_String tx = Ok payer ∧
    Tx.FeeGranter bech32 tx = Ok granter ∧ tx_signers tx = Ok signers ∧
    took_fee (default payer granter) coll fee (bank_of s) (bank_of s') ∧
    (∀ a, seqs s' a = bump (occ a signers) (seqs s a)) ∧ Reward.r_kv (app s') = Reward.r_kv (app s).
Proof.
  intros Hok (x0 & x1 & x2 & x3 & x4 & x5 & x' & St & ->)%ante_Ok.
  change (chain_ok (chain (ctx_of s))) in Hok.
  destruct (stages_spec _ _ _ _ _ _ _ _ _ _ _ _ _ _ _ _ _ _ _ _ _ _ _ Hok St)
    as (coll & fee & payer & granter & signers & E1 & E2 & E3 & E4 & _ & _ & E5 & Htook & Hseq).
  by exists coll, fee, payer, granter, signers.
Qed.

(** What the signatures say of the sequences. *)
Lemma ante_signed tc tx s s' : BaseApp.IsReCheckTx tc = false → chain_ok (bank_of s) →
  ante tc tx false s = (Ok (), s') →
  ∃ sigs signers, Tx.GetSignaturesV2 tx = Ok sigs ∧ tx_signers tx = Ok signers ∧ signers ≠ [] ∧
    Forall2 (λ sig a, Tx.sv_Sequence sig = seqs s a) sigs signers.
Proof.
  intros Hrc Hok (x0 & x1 & x2 & x3 & x4 & x5 & x' & St & ->)%ante_Ok.
  change (chain_ok (chain (ctx_of s))) in Hok.
  destruct (stages_before _ _ _ _ _ _ _ _ _ _ _ _ _ _ _ _ _ _ _ _ _ _ _ Hok St)
    as (coll & fee & payer & granter & _ & _ & _ & _ & _ & _ & _ & Hf & _).
  destruct St as [_ He _ _ _ Hv _].
  apply Verify_Ok in Hv as (sigs & signers & Hsigs & Hsg & Hall & _); [|done].
  exists sigs, signers. split_and!; [done|done|..].
  - destruct He as (y1 & _ & y2 & _ & y3 & Hb & _). unfold ValidateBasicDecorator in Hb. rewrite Hrc in Hb.
    apply Mbind_Ok in Hb as ([] & y & [Hb _]%lift_Ok & _). unfold Tx.ValidateBasic in Hb.
    do 6 (apply bind_Ok in Hb as (? & _ & Hb)). apply bind_Ok in Hb as (? & Hne%fail_if_Ok & Hb).
    apply bind_Ok in Hb as (sg & Hsg' & Hl%fail_if_Ok). rewrite Hsg in Hsg'. injection Hsg' as <-.
    apply negb_false_iff, Nat.eqb_eq in Hl. intros ->. by destruct (Tx.Signatures tx).
  - eapply Forall2_impl; [exact Hall|]. intros sig a (acc & pk & Ha & _ & Hq & _). rewrite Hq.
    change (seqs s a) with (seq_of (chain (ctx_of s)) a). rewrite <- (acc_frame_seq _ _ a Hf).
    unfold seq_of. by rewrite Ha.
Qed.

(** ** The handlers *)

Definition keeps (c c' : Chain) : Prop := (chain_ok c → chain_ok c') ∧ acc_same c c'.
#[local] Instance keeps_preorder : PreOrder keeps.
Proof.
  split; [done|]. intros a b c [A1 A2] [B1 B2]. split; [auto|by transitivity b].
Qed.

Lemma reward_keeps m (w w' : Reward.State Chain) r :
  Reward.handle DecodeAndConvert accPrefix denoms m w = (Ok r, w') →
  keeps (Reward.r_bank w) (Reward.r_bank w').
Proof.
  apply (handle_bank_rel (B := Chain) _ _ _ keeps).
  - intros a d c x c' H. split; [|eapply steps_GetBalance, H]. by apply (bk_GetBalance_law c) in H as [-> _].
  - intros m' a l c x c' H. split; [|eapply steps_from_module, H]. intros Hok.
    by apply (bk_send_from_law c) in H as (? & _ & _ & ? & _).
  - intros a m' l c x c' H. split; [|eapply steps_to_module, H]. intros Hok.
    by apply (bk_send_to_law c) in H as (? & _ & _ & ? & _).
  - intros m' l c x c' H. split; [|eapply steps_MintCoins, H]. intros Hok.
    by apply (bk_mint_law c) in H as (? & _ & _ & ? & _).
  - intros m' l c x c' H. split; [|eapply steps_BurnCoins, H]. intros Hok.
    by apply (bk_burn_law c) in H as (? & _ & _ & ? & _).
  - intros l c x c' H. split; [|eapply steps_emit, H]. by apply (bk_emit_law c) in H as [? _].
Qed.

Lemma send_keeps from to amount c u c' :
  Send cfg addr_String bech32 SendEnabledDenom from to amount c = (Ok u, c') →
  keeps c c' ∧ (chain_ok c → ∀ d, sup c' d = sup c d).
Proof.
  intros H. unfold Send, EmitEvent in H.
  apply Mbind_Ok in H as (? & ? & [_ ->]%lift_Ok & H). apply Mbind_Ok in H as (f & ? & [_ ->]%lift_Ok & H).
  apply Mbind_Ok in H as (t & ? & [_ ->]%lift_Ok & H). apply Mbind_Ok in H as (? & ? & [_ ->]%lift_Ok & H).
  apply Mbind_Ok in H as (? & c1 & Hs & ->%modify_Ok). split; [split|].
  - intros Hok. apply SendCoins_Ok in Hs as (_ & ? & _); [|done]. by apply chain_ok_events.
  - transitivity c1; [by eapply steps_SendCoins|by apply acc_same_eq].
  - intros Hok d. apply SendCoins_Ok in Hs as (_ & _ & [_ _ Hsup]); [|done]. rewrite <- (Z.add_0_r (sup c d)).
    rewrite <- Hsup. done.
Qed.

Lemma grant_msgs_granted msg x u x' :
  (∃ m, msg = GrantMsg m ∧ Feegrant.msg_GrantAllowance addr_String bech32 time_fits m x = (Ok u, x')) ∨
  (∃ m, msg = RevokeMsg m ∧ Feegrant.msg_RevokeAllowance addr_String bech32 m x = (Ok u, x')) →
  granted x x'.
Proof.
  intros [(m & _ & H)|(m & _ & H)].
  - unfold Feegrant.msg_GrantAllowance in H. apply Mbind_Ok in H as (e & ? & [_ ->]%lift_Ok & H).
    apply Mbind_Ok in H as (g & ? & [_ ->]%lift_Ok & H). apply Mbind_Ok in H as (dup & y & Hd & H).
    assert (y = x) as ->.
    { unfold Feegrant.has_allowance, Feegrant.GetAllowance, mbind, M_bind in Hd. rewrite getGrant_run in Hd.
      destruct (_ ≫= _); by injection Hd as _ <-. }
    apply Mbind_Ok in H as (? & ? & [_ ->]%lift_Ok & H). apply Mbind_Ok in H as (a & ? & [_ ->]%lift_Ok & H).
    by eapply steps_GrantAllowance.
  - unfold Feegrant.msg_RevokeAllowance in H. apply Mbind_Ok in H as (e & ? & [_ ->]%lift_Ok & H).
    apply Mbind_Ok in H as (g & ? & [_ ->]%lift_Ok & H). by eapply steps_revoke.
Qed.

Lemma handler_keeps msg h s r s' : handler msg = Some h → h s = (Ok r, s') → keeps (bank_of s) (bank_of s').
Proof.
  intros [= <-] H. destruct msg as [m|from to amount|m|m|m|m]; apply Mbind_Ok in H as (v & s1 & H & [_ ->]%mret_Ok);
    apply zoom_Ok in H as (t & H & ->).
  - by apply reward_keeps in H.
  - apply zoom_Ok in H as (c & H & ->). by apply send_keeps in H as [? _].
  - assert (granted (ctx_of s) t) as ((Hok & _) & Hs & _) by (apply (grant_msgs_granted (GrantMsg m) _ v); eauto).
    by split.
  - assert (granted (ctx_of s) t) as ((Hok & _) & Hs & _) by (apply (grant_msgs_granted (RevokeMsg m) _ v); eauto).
    by split.
  - split; [apply chain_ok_events|by apply acc_same_eq].
  - by split.
Qed.

Lemma msgs_keep_seqs mode msgs s rs s' : chain_ok (bank_of s) →
  Forall (λ m, ValidateBasic DecodeAndConvert accPrefix m = Ok ()) msgs →
  BaseApp.runMsgs handler mode msgs s = (Ok rs, s') →
  chain_ok (bank_of s') ∧ ∀ a, seqs s' a = seqs s a.
Proof.
  intros Hok Hv H.
  apply (BaseApp.runMsgs_keeps (ValidateBasic DecodeAndConvert accPrefix) handler (λ _, True)
    (λ st, chain_ok (bank_of st) ∧ ∀ a, seqs st a = seqs s a)) in H; try done.
  - intros msg h st r st' _ Hh _ [Hst Hq] Hr. destruct (handler_keeps _ _ _ _ _ Hh Hr) as [Hk Hs].
    split; [auto|]. intros a. rewrite <- Hq. apply acc_frame_seq. by apply acc_same_frame.
  - by apply Forall_true.
Qed.

(** ** Delivered transactions *)

Abbreviation deliver_ctx := (BaseApp.getContextForTx BaseApp.runTxModeDeliver).

(** Either nothing happened, or the ante handler accepted the transaction and
    its messages all ran or all left no trace. *)
Lemma deliver_cases b ap : chain_ok (bank_of (BaseApp.deliverState ap)) →
  let s := BaseApp.deliverState ap in
  let s' := BaseApp.deliverState (run BaseApp.runTxModeDeliver b ap).2 in
  let o := (run BaseApp.runTxModeDeliver b ap).1 in
  (s' = s ∧ ∃ e, o = Err e) ∨
  ∃ tx s1, txDecoder b = Ok tx ∧ ante (deliver_ctx b) tx false s = (Ok (), s1) ∧
    (∀ a, seqs s' a = seqs s1 a) ∧ chain_ok (bank_of s') ∧ (is_ok o = false → s' = s1).
Proof.
  intros Hok s s' o.
  destruct (BaseApp.runTx_deliver txDecoder Tx.GetMsgs (ValidateBasic DecodeAndConvert accPrefix) (Some ante) handler
    txGas b ap) as (o1 & Ho & Hres & _). fold (run BaseApp.runTxModeDeliver b ap) in *.
  change (BaseApp.runTx _ _ _ _ _ _ _ _ _) with (run BaseApp.runTxModeDeliver b ap) in Hres, Ho.
  fold s s' o in Ho, Hres. destruct Ho as [o1 Ho1|o1 tx s1 Ho1 Hd Ha|tx s1 rs s2 Hd Hv Ha Hr].
  - left. split; [done|]. by destruct o1.
  - right. exists tx, s1. pose proof (ante_spec _ _ _ _ _ Hok Ha) as (? & ? & ? & ? & ? & _ & _ & _ & _ & _ & Ht & _).
    split_and!; try done. apply Ht.
  - right. exists tx, s1. pose proof (ante_spec _ _ _ _ _ Hok Ha) as (? & ? & ? & ? & ? & _ & _ & _ & _ & _ & Ht & _).
    apply msgs_keep_seqs in Hr as [Hok2 Hq]; [|apply Ht|by apply BaseApp.validateBasic_all in Hv].
    split_and!; try done. by rewrite Hres.
Qed.

Definition knows (a : string) s : Prop := chain_ok (bank_of s) ∧ is_Some (accounts (bank_of s) !! a).

Lemma ante_known tc tx sim s s' a : knows a s → ante tc tx sim s = (Ok (), s') → knows a s'.
Proof.
  intros [Hok Hk] Ha. pose proof (ante_spec _ _ _ _ _ Hok Ha) as (? & ? & ? & ? & ? & _ & _ & _ & _ & _ & Ht & _).
  split; [apply Ht|]. apply ante_Ok in Ha as (y0 & y1 & y2 & y3 & y4 & y5 & y' & St & ->).
  eapply (stages_known _ _ _ _ _ _ _ _ _ _ _ _ _ tx sim (ctx_of s)); [exact Hok|exact St|exact Hk].
Qed.

Lemma deliver_known b ap a : knows a (BaseApp.deliverState ap) →
  knows a (BaseApp.deliverState (run BaseApp.runTxModeDeliver b ap).2).
Proof.
  intros Hk. apply (BaseApp.runTx_keeps _ _ _ _ _ _ (λ _, True) (knows a)); [| | |done].
  - intros tx _. by apply Forall_true.
  - intros tc tx sim st st'. apply ante_known.
  - intros msg h st r st' _ Hh _ [Hok Hs] Hr. destruct (handler_keeps msg h st r st' Hh Hr) as [Hok' Hsame].
    split; [auto|]. destruct Hs as [acc Hacc]. apply acc_same_frame in Hsame.
    apply (af_old _ _ Hsame) in Hacc as (acc' & -> & _). by eexists.
Qed.

Lemma step_seqs s s' : step s s' → chain_ok (bank_of s) →
  chain_ok (bank_of s') ∧ ∀ a, ∃ k, (k <= 2)%nat ∧ seqs s' a = bump k (seqs s a).
Proof.
  intros [b ap] Hok.
  destruct (deliver_cases b ap Hok) as [[Heq _]|(tx & s1 & _ & Ha & Hq & Hok' & _)].
  - unfold runTx in Heq. rewrite Heq. split; [done|]. intros a. exists 0%nat. split; [lia|done].
  - split; [done|]. intros a. specialize (Hq a). unfold runTx in Hq. rewrite Hq.
    destruct (ante_spec _ _ _ _ _ Hok Ha) as (? & ? & ? & ? & signers & _ & _ & _ & _ & Hsg & _ & Hs & _).
    exists (occ a signers). split; [by eapply signers_occ|done].
Qed.

Lemma steps_seqs n s s' a : nsteps step n s s' → chain_ok (bank_of s) → 0 <= seqs s a →
  seqs s a + 2 * Z.of_nat n < 2 ^ 64 →
  chain_ok (bank_of s') ∧ seqs s a <= seqs s' a <= seqs s a + 2 * Z.of_nat n.
Proof.
  induction 1 as [s|n s1 s2 s3 H1 _ IH]; intros Hok H0 Hb; [split; [done|lia]|].
  apply step_seqs in H1 as [Hok2 Hk]; [|done]. destruct (Hk a) as (k & Hk2 & Hs).
  rewrite bump_small in Hs by lia. destruct IH as [? ?]; [done|lia|lia|]. split; [done|lia].
Qed.

(** C3: a transaction runs at most once.  If delivering some bytes succeeded or
    changed the state of the chain in any way, then after any further
    transactions (fewer than 2^62 or so: sequence numbers are 64 bits wide)
    delivering the same bytes again is an error and changes nothing. *)
Theorem no_replay (b : string) (ap ap2 : BaseApp.App State) (n : nat) :
  let ap1 := (run BaseApp.runTxModeDeliver b ap).2 in
  chain_ok (bank_of (BaseApp.deliverState ap)) →
  (∀ a, 0 <= seqs (BaseApp.deliverState ap) a ∧
        seqs (BaseApp.deliverState ap) a + 2 * (Z.of_nat n + 1) < 2 ^ 64) →
  is_ok (run BaseApp.runTxModeDeliver b ap).1 = true ∨ BaseApp.deliverState ap1 ≠ BaseApp.deliverState ap →
  nsteps step n (BaseApp.deliverState ap1) (BaseApp.deliverState ap2) →
  (∃ e, (run BaseApp.runTxModeDeliver b ap2).1 = Err e) ∧
  BaseApp.deliverState (run BaseApp.runTxModeDeliver b ap2).2 = BaseApp.deliverState ap2.
Proof.
  intros ap1 Hok Hseq Heff Hn. unfold ap1 in *. clear ap1.
  destruct (deliver_cases b ap Hok) as [[Heq [e He]]|(tx & s1 & Hd & Ha & Hq & Hok1 & _)].
  { rewrite He in Heff. by destruct Heff. }
  destruct (ante_signed (deliver_ctx b) _ _ _ eq_refl Hok Ha) as (sigs & signers & Hsigs & Hsg & Hne & Hall).
  destruct (ante_spec _ _ _ _ _ Hok Ha) as (? & ? & ? & ? & signers' & _ & _ & _ & _ & Hsg' & _ & Hbump & _).
  assert (signers' = signers) as -> by congruence.
  destruct signers as [|a signers]; [done|]. inversion Hall as [|sig ? sigs' ? Hsig Hrest]; subst.
  pose proof (signers_occ _ _ _ _ _ a Hsg) as Hocc2.
  assert (1 <= occ a (a :: signers))%nat as Hocc1.
  { unfold occ. rewrite filter_cons. destruct (decide _); simpl; [lia|done]. }
  destruct (Hseq a) as [Hq0 Hqn]. specialize (Hbump a). rewrite bump_small in Hbump by lia. specialize (Hq a).
  destruct (steps_seqs n _ _ a Hn Hok1) as [Hok2 Hq2]; [lia..|].
  destruct (deliver_cases b ap2 Hok2) as [[Heq He]|(tx2 & s2 & Hd2 & Ha2 & _)]; [done|exfalso].
  assert (tx2 = tx) as -> by congruence.
  destruct (ante_signed (deliver_ctx b) _ _ _ eq_refl Hok2 Ha2) as (sigs2 & signers2 & Hsigs2 & Hsg2 & _ & Hall2).
  rewrite Hsigs in Hsigs2. rewrite Hsg in Hsg2. simplify_eq. inversion Hall2; subst. lia.
Qed.

(** C5: a failed transaction pays and is used up.  When a delivered transaction
    fails but the state of the chain has changed (a message failed, or gas ran
    out in one), the change is that of the ante handler alone: exactly the fee
    has moved from the payer, or the granter, to the fee collector, the
    sequences of the signers are counted up, and the stores of x/reward are
    untouched. *)
Theorem failed_tx_pays (b e : string) (ap ap1 : BaseApp.App State) :
  chain_ok (bank_of (BaseApp.deliverState ap)) → run BaseApp.runTxModeDeliver b ap = (Err e, ap1) →
  BaseApp.deliverState ap1 ≠ BaseApp.deliverState ap →
  let s := BaseApp.deliverState ap in let s' := BaseApp.deliverState ap1 in
  ∃ tx coll fee payer granter signers, txDecoder b = Ok tx ∧
    GetModuleAddress cfg FeeCollectorName = Some coll ∧ Tx.GetFee tx = Ok fee ∧
    Tx.FeePayer (GetSigners DecodeAndConvert accPrefix) bech32 addr_String tx = Ok payer ∧
    Tx.FeeGranter bech32 tx = Ok granter ∧ tx_signers tx = Ok signers ∧
    took_fee (default payer granter) coll fee (bank_of s) (bank_of s') ∧
    (∀ a, seqs s' a = bump (occ a signers) (seqs s a)) ∧
    Reward.r_kv (app s') = Reward.r_kv (app s).
Proof.
  intros Hok Hr Hne s s'. pose proof (deliver_cases b ap Hok) as Hc. rewrite Hr in Hc. cbn [fst snd] in Hc.
  destruct Hc as [[Heq _]|(tx & s1 & Hd & Ha & _ & _ & Hs)]; [done|]. specialize (Hs eq_refl).
  destruct (ante_spec _ _ _ _ _ Hok Ha) as (coll & fee & payer & granter & signers & Hspec).
  exists tx, coll, fee, payer, granter, signers. split; [done|]. unfold s', s. by rewrite Hs.
Qed.

(** ** The stable coin *)

(** The messages under which the books agree: burns are of aeil and nothing is
    taken from the collateral outside burning. *)
Definition tame (msg : Msg) : Prop :=
  match msg with RewardMsg m => burns_aeil denoms m | _ => True end.

(** A delivered transaction whose messages are [tame]. *)
Inductive tame_step : State → State → Prop :=
  | tame_tx b ap : (∀ tx, txDecoder b = Ok tx → Forall tame (Tx.GetMsgs tx)) →
      tame_step (BaseApp.deliverState ap) (BaseApp.deliverState (run BaseApp.runTxModeDeliver b ap).2).

Definition books s : Prop := tracked (B := Chain) (app s).

(** A change of the bank that keeps the supply of aeil. *)
Lemma books_bank s s' : Reward.r_kv (app s') = Reward.r_kv (app s) →
  (chain_ok (bank_of s) → chain_ok (bank_of s')) → (chain_ok (bank_of s) → sup (bank_of s') "aeil" = sup (bank_of s) "aeil") →
  books s → books s'.
Proof.
  intros Hkv Hok Hsup (Hb & z & Hz & Hle & Hs). split; [by apply Hok|]. exists z. rewrite Hkv.
  split_and!; [done|apply Hle|apply Hle|]. rewrite <- Hs. by apply Hsup.
Qed.

Lemma ante_books tc tx sim s s' : books s → ante tc tx sim s = (Ok (), s') → books s'.
Proof.
  intros Hb Ha. pose proof (proj1 Hb) as Hok.
  destruct (ante_spec _ _ _ _ _ Hok Ha) as (? & ? & ? & ? & ? & _ & _ & _ & _ & _ & Ht & _ & Hkv).
  apply (books_bank s); [done|intros _; apply Ht|intros _; apply Ht|done].
Qed.

Lemma handler_books msg h s r s' : tame msg → handler msg = Some h → books s → h s = (Ok r, s') → books s'.
Proof.
  intros Hm Hh Hb H. pose proof (handler_keeps _ _ _ _ _ Hh H) as [Hok _]. injection Hh as <-.
  destruct msg as [m|from to amount|m|m|m|m]; apply Mbind_Ok in H as (v & s1 & H & [_ ->]%mret_Ok);
    apply zoom_Ok in H as (t & H & ->).
  - by eapply (handle_tracked (B := Chain)).
  - apply zoom_Ok in H as (c & H & ->). apply (books_bank s); [done|done| |done].
    apply send_keeps in H as [_ Hs]. intros Hc. by apply Hs.
  - assert (granted (ctx_of s) t) as ((_ & _ & Hs) & _) by (apply (grant_msgs_granted (GrantMsg m) _ v); eauto).
    apply (books_bank s); [done|done| |done]. intros _. unfold sup. change (bank_of (with_ctx t s)) with (chain t). by rewrite Hs.
  - assert (granted (ctx_of s) t) as ((_ & _ & Hs) & _) by (apply (grant_msgs_granted (RevokeMsg m) _ v); eauto).
    apply (books_bank s); [done|done| |done]. intros _. unfold sup. change (bank_of (with_ctx t s)) with (chain t). by rewrite Hs.
  - by apply (books_bank s).
  - by apply (books_bank s).
Qed.

End node.

(** ** An instance

    Keys are named after their address and a signature is the key's name
    followed by the sign bytes.  The genesis has two accounts with money to
    pay fees and no stable coin. *)

Definition node_cfg : Config :=
  mkConfig (<["reward" := ("rewardaddr", [Minter; Burner])]> (<[FeeCollectorName := ("collector", [])]> ∅)) ∅.
Definition node_address (pk : PubKey) : outcome string :=
  match pk with secp256k1_PubKey k => Ok k | _ => Ok "" end.
Definition node_verify (pk : PubKey) (msg sig : string) : bool :=
  match pk with secp256k1_PubKey k => String.eqb sig (k +:+ msg) | _ => false end.
Definition node_sign_bytes (mode : Z) (sd : SignerData) (tx : Tx.Tx Msg) : outcome string :=
  Ok ("/" +:+ sd_ChainID sd +:+ "/" +:+ Big.to_string (sd_Sequence sd)).
Definition node_env : Env := mkEnv [] "demo" DefaultParams.

Definition node_tx (signer : string) (seq : Z) (msgs : list Reward.Msg) : Tx.Tx Msg :=
  Tx.mkTx (Some (Tx.mkTxBody (map RewardMsg msgs) "" 0 []))
    (Some (Tx.mkAuthInfo [Tx.mkSignerInfo (Some (secp256k1_PubKey signer)) (Tx.ModeInfo_Single 1) seq]
             (Some (Tx.mkFee [mkCoin "stake" 3] 200000 "" ""))))
    [signer +:+ "/demo/" +:+ Big.to_string seq].

Definition burn_tx : Tx.Tx Msg := node_tx "mallory" 0 [Reward.MsgBurnStableCoin "mallory" "bob" "1000000"].
Definition node_decoder (b : string) : outcome (Tx.Tx Msg) :=
  if String.eqb b "deposit" then Ok (node_tx "alice" 0 [demo_meta_msg "CERT-1"; demo_meta_msg "CERT-2"])
  else if String.eqb b "reward" then Ok (node_tx "alice" 1 [Reward.MsgRewardSolarPower "alice" "bob" "1500000"])
  else if String.eqb b "excess" then Ok (node_tx "alice" 1 [Reward.MsgRewardSolarPower "alice" "bob" "2500000"])
  else if String.eqb b "burn" then Ok burn_tx
  else Err "tx parse error".

Definition node_run (b : string) : M (BaseApp.App State) (list Response) :=
  runTx node_cfg id plain_bech32 "cosmos" Denoms.empty_registry (λ _, true) (λ _, true) (λ _, "") (λ _, "0.0")
    (λ d, Ok (LightTx.CertifiedId d)) node_address
    node_verify node_sign_bytes (secp256k1_PubKey "") (λ _, 100) (λ _ _, 0) node_env node_decoder (λ _ _ _, 0)
    BaseApp.runTxModeDeliver b.

Definition genesis_chain : Chain :=
  mkChain (<["alice" := mkAccount "alice" 1 None None None 0]> (<["mallory" := mkAccount "mallory" 2 None None None 0]> ∅))
    (Some 3) (<[("alice", "stake") := 100]> (<[("mallory", "stake") := 100]> ∅)) (<["stake" := 200]> ∅) 7 0 [].
Definition node_genesis : State := mkNode (Reward.mkState genesis_chain ∅) ∅ ∅ ∅.
Definition node0 : BaseApp.App State := BaseApp.mkApp node_genesis node_genesis Gas.NewInfiniteGasMeter.
Definition node1 := (node_run "deposit" node0).2.
Definition node2 := (node_run "reward" node1).2.
Definition node3 := (node_run "burn" node2).2.

Lemma genesis_chain_ok : chain_ok genesis_chain.
Proof.
  split; simpl.
  - intros k z. rewrite !lookup_insert_Some. intros [[_ <-]|[_ [[_ <-]|[_ H]]]]; [split; [lia|done]..|done].
  - intros k z. rewrite !lookup_insert_Some. intros [[_ <-]|[_ H]]; [split; [lia|done]|done].
  - intros k z. rewrite !lookup_insert_Some. intros [[<- <-]|[_ [[<- <-]|[_ H]]]]; done.
Qed.

Lemma genesis_seqs (a : string) : seqs node_genesis a = 0.
Proof.
  unfold seqs, seq_of, bank_of. simpl. destruct (decide (a = "alice")) as [->|Ha]; [done|].
  rewrite lookup_insert_ne by done. destruct (decide (a = "mallory")) as [->|Hm]; [done|].
  by rewrite lookup_insert_ne by done.
Qed.

Lemma no_replay_witness :
  (∃ e, (node_run "deposit" node2).1 = Err e) ∧
  BaseApp.deliverState (node_run "deposit" node2).2 = BaseApp.deliverState node2.
Proof.
  refine (no_replay node_cfg id plain_bech32 "cosmos" Denoms.empty_registry (λ _, true) (λ _, true) (λ _, "")
    (λ _, "0.0") (λ d, Ok (LightTx.CertifiedId d)) node_address node_verify node_sign_bytes (secp256k1_PubKey "") (λ _, 100) (λ _ _, 0) node_env node_decoder
    (λ _ _ _, 0) "deposit" node0 node2 1 genesis_chain_ok _ (or_introl _) _).
  - intros a. change (BaseApp.deliverState node0) with node_genesis. rewrite genesis_seqs. lia.
  - vm_compute. reflexivity.
  - apply nsteps_once. apply (BaseApp.deliver_tx _ _ _ _ _ _ "reward" node1).
Defined.

Lemma failed_tx_pays_witness :
  ∃ e, (node_run "excess" node1).1 = Err e ∧
    Reward.r_kv (app (BaseApp.deliverState (node_run "excess" node1).2)) = Reward.r_kv (app (BaseApp.deliverState node1)).
Proof.
  assert (node_run "excess" node1 = (Err "issuance exceeds the collateral", (node_run "excess" node1).2)) as H.
  { apply run_err. vm_compute. reflexivity. }
  exists "issuance exceeds the collateral". split; [exact (f_equal fst H)|].
  destruct (failed_tx_pays node_cfg id plain_bech32 "cosmos" Denoms.empty_registry (λ _, true) (λ _, true) (λ _, "")
    (λ _, "0.0") (λ d, Ok (LightTx.CertifiedId d)) node_address node_verify node_sign_bytes (secp256k1_PubKey "") (λ _, 100) (λ _ _, 0) node_env node_decoder
    (λ _ _ _, 0) "excess" "issuance exceeds the collateral" node1 (node_run "excess" node1).2)
    as (tx & coll & fee & payer & granter & signers & _ & _ & _ & _ & _ & _ & _ & _ & Hkv).
  - eapply (step_seqs node_cfg id plain_bech32 "cosmos" Denoms.empty_registry (λ _, true) (λ _, true) (λ _, "")
      (λ _, "0.0") (λ d, Ok (LightTx.CertifiedId d)) node_address node_verify node_sign_bytes (secp256k1_PubKey "") (λ _, 100) (λ _ _, 0) node_env node_decoder
      (λ _ _ _, 0) node_genesis); [|apply genesis_chain_ok].
    apply (BaseApp.deliver_tx _ _ _ _ _ _ "deposit" node0).
  - exact H.
  - intros E. apply (f_equal (λ s, seqs s "alice")) in E. vm_compute in E. discriminate E.
  - exact Hkv.
Defined.


End NodeProps.
