(* ===== verification/Broadcaster.v ===== *)
(** * The bridge's transactions: fullnode_bridge/tx, fullnode_bridge/types

    The bridge signs every transaction with one account and keeps the
    account's sequence in a global cache: a call counts it up, a failure reads
    it again from the chain and counts it down.  The node is a set of calls on
    a state [W]; the lock that makes the functions exclusive is that they run
    one after the other.  The client context is complete, as
    [NewClientCtx045] makes it.  Printing is left out. *)

From Stdlib Require Import ZArith Lia Ascii String.
From stdpp Require Import base tactics option list gmap strings.
From S2P Require Import Prelude GoStd Float64 Digits SdkInt Decimal Coin DecCoin MultiSig Chain Wire Proto Tx TxCodec.
From S2P Require Import Gas BaseApp Context Ante ClientTx WireMsg SdkMsgs Reward RewardMsgs Modules Node.

Local Open Scope Z_scope.

Module Broadcaster.
Import MultiSig Ante Float64 ClientTx WireMsg.

(** ** types/messages.go *)

Record Location := mkLocation { Latitude : float64; Longitude : float64 }.
Record SolarData := mkSolarData {
  DeviceID : string; Timestamp : string; TotalEnergy : float64; SolarLocation : Location }.
Record RECMeta := mkRECMeta {
  FacilityID : string; FacilityName : string; MetaLocation : string; TechnologyType : string;
  CapacityMW : string; RegistrationDate : string; CertifiedId : string; IssueDate : string;
  GenerationStartDate : string; GenerationEndDate : string; MeasuredVolumeMWh : string;
  RetiredDate : string; RetirementPurpose : string; Status : string; MetaTimestamp : string }.
Record LightTxMessage := mkLightTxMessage {
  Original : option SolarData; REC : option RECMeta; Hash : string; Signature : string; Pubkey : string }.

(** ** Reading responses *)

(** The attributes of the events of a log, in order. *)
Definition attrs_of (types : list string) (log : list Event) : list (string * attr) :=
  flat_map (λ ev, if existsb (String.eqb (ev_type ev)) types then ev_attrs ev else []) log.

(** [fmt.Sscan(value, &recs)] into an [int64]: blanks, a sign and a number; on
    an error the variable keeps its value. *)
Definition Sscan_int64 (value : string) (old : Z) : Z :=
  let s := Str.trim_space value in
  let neg := Str.has_prefix s "-" in
  let s := if neg || Str.has_prefix s "+" then Str.drop 1 s else s in
  match Big.nat_scan 0 s with
  | Some (n, _) => let z := if neg then - n else n in if is_int64 z then z else old
  | None => old
  end.

(** The loop over the attributes of the add_energy events. *)
Fixpoint read_energy (attrs : list (string * attr)) (recs : Z) (contributors : option json) : Z * option json :=
  match attrs with
  | [] => (recs, contributors)
  | (key, value) :: attrs =>
      if String.eqb key "recs" then
        read_energy attrs (match value with AStr s => Sscan_int64 s recs | AJson _ => recs end) contributors
      else if String.eqb key "contributors" then
        read_energy attrs recs (match value with AJson j => Some j | AStr _ => contributors end)
      else read_energy attrs recs contributors
  end.

Definition rec_ids (attrs : list (string * attr)) : list string :=
  flat_map (λ kv, if String.eqb kv.1 "rec_id" then match kv.2 with AStr v => [v] | AJson _ => [] end else []) attrs.

(** First the first log, then, when it has none, the messages of all logs. *)
Definition recIDs_of (res : TxResponse) : list string :=
  let recIDs := match Logs res with
                | log :: _ => rec_ids (attrs_of ["message"; "create_rec_record"] log)
                | [] => []
                end in
  match recIDs with
  | [] => flat_map (λ log, rec_ids (attrs_of ["message"] log)) (Logs res)
  | _ => recIDs
  end.

(** The records and metas of a burn, from the data of a response: a
    [TxMsgData] with a [MsgBurnStableCoinResponse] in its first entry.  Every
    failure to decode is printed and leaves them empty. *)
Abbreviation BurnResponse := (list RECRecord * list Proto.RECMeta)%type.
Definition burn_response (data : string) : BurnResponse :=
  match Sdk.TxMsgData.Unmarshal c_zero data with
  | Ok msgData =>
      match Sdk.TxMsgData.Data msgData with
      | d :: _ =>
          match MsgBurnStableCoinResponse.Unmarshal c_zero (Sdk.MsgData.Data d) with
          | Ok r => (MsgBurnStableCoinResponse.RecRecords r, MsgBurnStableCoinResponse.RecMetas r)
          | _ => ([], [])
          end
      | [] => ([], [])
      end
  | _ => ([], [])
  end.

Record BurnResultMessage := mkBurnResult {
  br_Address : string; br_Status : string; br_TxHash : string;
  br_RecRecords : list RECRecord; br_RecMetas : list Proto.RECMeta }.

(** ** The sequence cache *)

Record Cache := mkCache { accNumCache : Z; seqCache : Z; cacheInitialized : bool }.
Record St (W : Type) := mkSt { cache : Cache; world : W }.
Arguments mkSt {W} _ _.
Arguments cache {W} _.
Arguments world {W} _.

(** What the client context fixes: the chain, the keyring, the name of the key
    and the text of its address. *)
Record ClientCtx := mkClientCtx { ChainID : string; keyring : Keyring; FromName : string; From : string }.

(** The calls to the node: the account number and sequence of the address, the
    gas used by a simulated transaction, a broadcast, the height of the last
    block. *)
Record NodeClient (W : Type) := mkNodeClient {
  GetAccountNumberSequence : M W (Z * Z);
  Simulate : string → M W Z;
  node_BroadcastTxCommit : string → M W CommitResult;
  LatestBlockHeight : M W Z }.
Arguments mkNodeClient {W} _ _ _ _.
Arguments GetAccountNumberSequence {W} _.
Arguments Simulate {W} _.
Arguments node_BroadcastTxCommit {W} _ _.
Arguments LatestBlockHeight {W} _.

(** What differs between the functions: the memo, the margin on the gas, and
    after which failures they wait for a block. *)
Record Opts := mkOpts { o_memo : string; o_margin : float64; wait_sign : bool; wait_broadcast : bool; wait_code : bool }.

Section broadcaster.
Context {W : Type} (node : NodeClient W) (ctx : ClientCtx).
Context (NewAnyWithValue : Node.Msg → outcome ()) (key_Any : PubKey → outcome ()).
Context (TxEncoder : Tx.Tx Node.Msg → outcome string) (tx_Hash : string → string).
Context (msg_GetSigners : Node.Msg → outcome (list string)).
Context (AccAddressFromBech32 : string → outcome string) (addr_String : string → string).
Context (GetSignBytes : Z → SignerData → Tx.Tx Node.Msg → outcome string) (DefaultMode : Z).
(** How often a wait asks for the height before it is given up; the source
    asks for ever. *)
Context (polls : nat).
Implicit Types s : St W.

Definition on_node {A} (m : M W A) : M (St W) A := zoom world (λ w s, mkSt (cache s) w) m.
Definition set_cache (c : Cache) : M (St W) () := modify (λ s, mkSt c (world s)).

(** [if !cacheInitialized { ... } else { seqCache++ }] *)
Definition next_sequence : M (St W) () :=
  c ← gets cache;
  if cacheInitialized c then set_cache (mkCache (accNumCache c) (wrapu64 (seqCache c + 1)) true)
  else
    '(accNum, seq) ← on_node (GetAccountNumberSequence node);
    set_cache (mkCache accNum seq true).

Definition forceSyncAccountSequence : M (St W) Z := λ s,
  match on_node (GetAccountNumberSequence node) s with
  | (Ok (accNum, seq), s) =>
      (Ok (wrapu64 (seq - 1)), mkSt (mkCache accNum seq (cacheInitialized (cache s))) (world s))
  | (Err _, s) => (Ok (seqCache (cache s)), s)
  | (Panic e, s) => (Panic e, s)
  end.

(** [seqCache = forceSyncAccountSequence(clientCtx)] *)
Definition resync : M (St W) () :=
  seq ← forceSyncAccountSequence;
  c ← gets cache;
  set_cache (mkCache (accNumCache c) seq (cacheInitialized c)).

(** The status is nil after an error. *)
Definition height : M (St W) Z := λ s,
  match on_node (LatestBlockHeight node) s with
  | (Err _, s) => (Panic "nil pointer dereference", s)
  | r => r
  end.
Fixpoint wait_loop (n : nat) (curHeight : Z) : M (St W) () :=
  match n with
  | O => lift (Panic "no new block")
  | S n => h ← height; if curHeight <? h then mret () else wait_loop n curHeight
  end.
Definition waitForNextBlock : M (St W) () := curHeight ← height; wait_loop polls curHeight.

(** On an error of [m], [cleanup] runs before it is returned. *)
Definition on_err {A} (m : M (St W) A) (cleanup : M (St W) ()) : M (St W) A := λ s,
  match m s with
  | (Err e, s) => match cleanup s with
                  | (Ok _, s) => (Err e, s)
                  | (Err e', s) => (Err e', s)
                  | (Panic e', s) => (Panic e', s)
                  end
  | r => r
  end.
Definition when (b : bool) (m : M (St W) ()) : M (St W) () := if b then m else mret ().

(** ** Fees *)

Definition GasPrices : string := "0.025stake".
(** The error of the parser is dropped, with no coins. *)
Definition gas_prices : outcome (list DecCoin) :=
  match Parse.ParseDecCoins GasPrices with Err _ => Ok [] | o => o end.

Definition fees_for (gasLimit : Z) : outcome (list Coin) :=
  gasPrices ← gas_prices;
  decGas ← Dec.NewDec (wrap64 gasLimit);
  decFees ← DecCoins.MulDec gasPrices decGas;
  '(fees, _) ← DecCoins.TruncateDecimal decFees;
  if Coins.IsZero fees then
    c ← Coin1.NewInt64Coin "stake" 1;
    Coins.NewCoins [c]
  else Ok fees.

Definition gas_limit (margin : float64) (gasWanted : Z) : Z :=
  wrapu64 (to_uint64 (trunc (mul (of_Z gasWanted) margin)) + 10000).

(** ** Sending a transaction *)

Definition factory (o : Opts) (c : Cache) : outcome Factory :=
  prices ← must (Parse.ParseDecCoins GasPrices);
  Ok (mkFactory (Some (keyring ctx)) (accNumCache c) (seqCache c) 0 0 (lit 12 10) (ChainID ctx) (o_memo o) [] prices 0).

Abbreviation calculate_gas := (CalculateGas NewAnyWithValue key_Any TxEncoder (Simulate node)).
Abbreviation sign := (Sign key_Any msg_GetSigners AccAddressFromBech32 addr_String GetSignBytes DefaultMode).

(** From the factory to the checked response. *)
Definition submit (o : Opts) (msgs : list Node.Msg) (txBuilder : Tx.Tx Node.Msg) : M (St W) TxResponse :=
  c ← gets cache;
  txf ← lift (factory o c);
  gasWanted ← on_err (on_node (calculate_gas txf msgs)) resync;
  let gasLimit := gas_limit (o_margin o) gasWanted in
  txBuilder ← lift (SetGasLimit gasLimit txBuilder);
  fees ← lift (fees_for gasLimit);
  txBuilder ← lift (SetFeeAmount fees txBuilder);
  txBuilder ← on_err (lift (sign txf (FromName ctx) txBuilder true))
                (_ ← resync; when (wait_sign o) waitForNextBlock);
  txBytes ← on_err (lift (TxEncoder txBuilder)) resync;
  res ← on_err (on_node (BroadcastTxCommit (node_BroadcastTxCommit node) tx_Hash txBytes))
          (_ ← resync; when (wait_broadcast o) waitForNextBlock);
  if Code res =? 0 then mret res
  else
    _ ← resync;
    _ ← when (wait_code o) waitForNextBlock;
    lift (Err "DeliverTx failed").

(** The functions with one message: set it, take a sequence, submit. *)
Definition send (o : Opts) (msg : Node.Msg) : M (St W) TxResponse :=
  txBuilder ← lift (SetMsgs NewAnyWithValue [msg] newBuilder);
  _ ← next_sequence;
  submit o [msg] txBuilder.

(** ** The functions *)

Definition light_meta (m : RECMeta) : LightTx.RECMeta :=
  LightTx.mkRECMeta (FacilityID m) (FacilityName m) (MetaLocation m) (TechnologyType m) (CapacityMW m)
    (RegistrationDate m) (CertifiedId m) (IssueDate m) (GenerationStartDate m) (GenerationEndDate m)
    (MeasuredVolumeMWh m) (RetiredDate m) (RetirementPurpose m) (Status m) (MetaTimestamp m).
Definition light_payload (msg : LightTxMessage) : option (LightTx.Payload (Float := float64)) :=
  match Original msg, REC msg with
  | Some d, _ =>
      Some (LightTx.Original (Some (LightTx.mkSolarData (DeviceID d) (Timestamp d) (TotalEnergy d)
        (Some (LightTx.mkLocation (Latitude (SolarLocation d)) (Longitude (SolarLocation d)))))))
  | None, Some m => Some (LightTx.Rec (Some (light_meta m)))
  | None, None => None
  end.

(** [strconv.FormatInt(int64(math.Round(power)), 10)] *)
Definition wh (power : float64) : Z := to_int64 (round power).

Definition BroadcastLightTxWithReward (msg : LightTxMessage) (addr : string) (power : float64) : M (St W) string :=
  _ ← lift (fail_if (leb power (of_Z 0)) "no energy to reward");
  _ ← next_sequence;
  payload ← lift (or_err (light_payload msg) "no valid LightTx data");
  let lightMsg := Node.LightMsg (LightTx.mkMsgSendLightTx (From ctx) (Some payload) (Hash msg) (Signature msg) (Pubkey msg)) in
  let rewardMsg := Node.RewardMsg (Reward.MsgRewardSolarPower (From ctx) addr (Big.to_string (wh power))) in
  txBuilder ← on_err (lift (SetMsgs NewAnyWithValue [lightMsg; rewardMsg] newBuilder)) resync;
  res ← submit (mkOpts "light-tx" (lit 13 10) false false false) [lightMsg; rewardMsg] txBuilder;
  _ ← waitForNextBlock;
  mret (TxHash res).

Definition AddEnergyCLI (toAddr : string) (whAmt : Z) (txHash : string) : M (St W) (Z * option json) :=
  res ← send (mkOpts "add-energy" (lit 13 10) false false false)
          (Node.RewardMsg (Reward.MsgAddEnergy (From ctx) toAddr (Int.to_String whAmt) txHash));
  log ← lift (or_panic (head (Logs res)) "index out of range");
  let r := read_energy (attrs_of ["add_energy"] log) 0 None in
  _ ← waitForNextBlock;
  mret r.

Definition CreateRECRecordCLI (count : Z) : M (St W) (list string) :=
  res ← send (mkOpts "create-rec-record" (lit 13 10) false false false)
          (Node.RewardMsg (Reward.MsgCreateRECRecord (From ctx) count));
  let recIDs := recIDs_of res in
  _ ← waitForNextBlock;
  mret recIDs.

Definition CreateBlockCLI (nodeCreator recID : string) : M (St W) string :=
  res ← send (mkOpts "append-tx-hash" (lit 12 10) true true true)
          (Node.RewardMsg (Reward.MsgAppendTxHash (From ctx) nodeCreator [] recID ""));
  mret (TxHash res).

Definition BlockCreatorRewardPercentCLI (address percent : string) : M (St W) string :=
  res ← send (mkOpts "distribute-reward-percent" (lit 13 10) false false false)
          (Node.RewardMsg (Reward.MsgDistributeRewardPercent (From ctx) address percent));
  _ ← waitForNextBlock;
  mret (TxHash res).

Definition BurnStableCoinCLI (targetAddr amount : string) : M (St W) BurnResultMessage :=
  let amount := if Str.contains amount "aeil" then amount else amount +:+ "aeil" in
  res ← send (mkOpts "burn-stable-coin" (lit 12 10) true true true)
          (Node.RewardMsg (Reward.MsgBurnStableCoin (From ctx) targetAddr amount));
  let resp := if String.eqb (Data res) "" then ([], []) else burn_response (Data res) in
  mret (mkBurnResult targetAddr "success" (TxHash res) resp.1 resp.2).

End broadcaster.
End Broadcaster.
