(* ===== verification/Results.v ===== *)
(** * The data of results: [runMsgs] of baseapp/baseapp.go and
      [WrapServiceResult] of types/result.go

    What a transaction returns to its sender: the responses of its messages,
    encoded in a [TxMsgData]; and what the bridge reads back of it. *)

From Stdlib Require Import ZArith Lia Ascii String.
From stdpp Require Import base tactics option list gmap strings.
From S2P Require Import Prelude GoStd Float64 Digits SdkInt Coin MultiSig Wire Proto WireMsg SdkMsgs TxProto.
From S2P Require Import Unknown Reward RewardMsgs Descriptors InterfaceRegistry Tx TxCodec TxDecoder TxDecoderFacts TxDecoderProps.
From S2P Require Import Modules Feegrant Node AppCodec Broadcaster.

Local Open Scope Z_scope.

Module Results.
Import Wire WireMsg TxDecoder TxDecoderFacts AppCodec Broadcaster.

(** [WrapServiceResult]: the response of a handler, encoded. *)
Definition reward_response_Marshal (r : Reward.Response) : outcome string :=
  match r with
  | Reward.RewardSolarPowerResponse => c_Marshal (MsgRewardSolarPowerResponse.mk "")
  | Reward.BurnStableCoinResponse recs metas => c_Marshal (MsgBurnStableCoinResponse.mk recs metas "")
  | Reward.DepositCollateralResponse => c_Marshal (MsgDepositCollateralResponse.mk "")
  | Reward.RemoveCollateralResponse => c_Marshal (MsgRemoveCollateralResponse.mk "")
  | Reward.BurnModuleStableResponse => c_Marshal (MsgBurnModuleStableResponse.mk "" "")
  | Reward.AddEnergyResponse recs => c_Marshal (MsgAddEnergyResponse.mk recs "")
  | Reward.CreateRECRecordResponse ids => c_Marshal (MsgCreateRECRecordResponse.mk ids "")
  | Reward.AppendTxHashResponse node =>
      c_Marshal (MsgAppendTxHashResponse.mk
        (Some (TxNodeTx.mk (Reward.TxHashes node) (Reward.Creator node) (Reward.RecId node) (Reward.Next node) "")) "")
  | Reward.DistributeRewardPercentResponse => c_Marshal (MsgDistributeRewardPercentResponse.mk "" "")
  end.

Section results.
(** The response of a light transaction is encoded elsewhere. *)
Context (light_response_Marshal : string → outcome string) (MsgTypeURL : Node.Msg → string).

Definition response_Marshal (r : Node.Response) : outcome string :=
  match r with
  | Node.RewardResponse r => reward_response_Marshal r
  | Node.MsgSendResponse => c_Marshal Sdk.MsgSendResponse.mk
  | Node.MsgGrantAllowanceResponse => c_Marshal Sdk.MsgGrantAllowanceResponse.mk
  | Node.MsgRevokeAllowanceResponse => c_Marshal Sdk.MsgRevokeAllowanceResponse.mk
  | Node.MsgSendLightTxResponse status => light_response_Marshal status
  | Node.MsgRegisterDeviceResponse => c_Marshal (Sdk.MsgRegisterDeviceResponse.mk "")
  end.

(** The data that [runMsgs] returns. *)
Definition msg_data (mr : Node.Msg * Node.Response) : outcome Sdk.MsgData.t :=
  data ← response_Marshal mr.2; Ok (Sdk.MsgData.mk (MsgTypeURL mr.1) data).
Definition runMsgs_data (msgs : list Node.Msg) (responses : list Node.Response) : outcome string :=
  datas ← each msg_data (zip msgs responses);
  c_Marshal (Sdk.TxMsgData.mk datas).

Lemma data_inside (d : Sdk.MsgData.t) : slen (Sdk.MsgData.Data d) <= slen (c_enc d).
Proof.
  pose proof (slen_le_enc_str 0x12 (Sdk.MsgData.Data d)) as H. unfold c_enc, Sdk.MsgData.codec, Sdk.MsgData.MarshalToSizedBuffer.
  rewrite !slen_app. pose proof (slen_nonneg (enc_str 0xa (Sdk.MsgData.MsgType d))). change (slen "") with 0. lia.
Qed.

(** C26: a burn gets its certificates.  The records and metas that
    [BurnStableCoin] returned are the ones the bridge reads from the data of
    the transaction's result, in order, when the burn is the transaction's
    first message. *)
Theorem burn_response_read msg recs metas msgs responses data :
  runMsgs_data (msg :: msgs) (Node.RewardResponse (Reward.BurnStableCoinResponse recs metas) :: responses) = Ok data →
  slen data < 2 ^ 63 → Forall RECRecord_plain recs → Forall (λ m, RECMeta_unrecognized m = "") metas →
  burn_response data = (recs, metas).
Proof.
  intros E Hl Hr Hm. unfold runMsgs_data in E. apply bind_Ok in E as (datas & Ed & E). cbn [zip zip_with each] in Ed.
  apply bind_Ok in Ed as (d & Hd & Ed). apply bind_Ok in Ed as (ds & _ & Ed). injection Ed as <-.
  unfold msg_data in Hd. cbn [snd fst response_Marshal reward_response_Marshal] in Hd.
  apply bind_Ok in Hd as (bz & Hbz & Hd). injection Hd as <-.
  destruct (c_Marshal_fits _ data E Hl) as [Hf ->]. unfold burn_response.
  assert (plain (Sdk.TxMsgData.mk (Sdk.MsgData.mk (MsgTypeURL msg) bz :: ds))) as Hp by by apply Forall_true.
  rewrite (codec_inverse _ Hp Hf : Sdk.TxMsgData.Unmarshal c_zero _ = Ok _). cbn [Sdk.TxMsgData.Data Sdk.MsgData.Data].
  assert (slen bz < 2 ^ 63) as Hs.
  { pose proof (data_inside (Sdk.MsgData.mk (MsgTypeURL msg) bz)) as H1. cbn [Sdk.MsgData.Data] in H1.
    unfold fits, c_enc, Sdk.TxMsgData.codec, Sdk.TxMsgData.MarshalToSizedBuffer in Hf. cbn [Sdk.TxMsgData.Data concat_map] in Hf.
    rewrite !slen_app in Hf. pose proof (slen_le_enc_msg 0xa (Sdk.MsgData.mk (MsgTypeURL msg) bz)).
    pose proof (slen_nonneg (concat_map (enc_msg 0xa) ds)). change (slen "") with 0 in Hf. lia. }
  destruct (c_Marshal_fits _ bz Hbz Hs) as [Hfb ->].
  assert (plain (MsgBurnStableCoinResponse.mk recs metas "")) as Hpb by by split_and!.
  by rewrite (codec_inverse _ Hpb Hfb : MsgBurnStableCoinResponse.Unmarshal c_zero _ = Ok _).
Qed.
End results.

Definition demo_record : RECRecord := mkRECRecord "REC-1" "2025-01-01" 12 "1000" [mkContributor "cosmos1panel" "1000" ""] ["hash"] "".
Definition demo_data : string :=
  match runMsgs_data (λ _, Err "") (λ _, "/cosmos.reward.v1beta1.MsgBurnStableCoin")
          [Node.RewardMsg (Reward.MsgBurnStableCoin "bridge" "panel" "5")]
          [Node.RewardResponse (Reward.BurnStableCoinResponse [demo_record] [])] with Ok d => d | _ => "" end.
Lemma burn_response_read_witness : burn_response demo_data = ([demo_record], []).
Proof.
  refine (burn_response_read (λ _, Err "") (λ _, "/cosmos.reward.v1beta1.MsgBurnStableCoin")
    (Node.RewardMsg (Reward.MsgBurnStableCoin "bridge" "panel" "5")) [demo_record] [] [] [] demo_data _ _ _ _).
  - vm_compute. reflexivity.
  - vm_compute. reflexivity.
  - apply (proj2 (Forall_singleton _ _)). split_and!; [done|done|by apply (proj2 (Forall_singleton _ _))].
  - constructor.
Defined.

End Results.
