(* ===== verification/BroadcasterProps.v ===== *)
(** * The bridge's transactions: what it signs, and the sequence cache *)

From Stdlib Require Import ZArith Lia Ascii String.
From stdpp Require Import base tactics option list gmap relations strings.
From S2P Require Import Prelude GoStd Float64 Digits SdkInt Decimal Coin CoinFacts DecCoin MultiSig Chain Bank BankFacts.
From S2P Require Import Keepers BankInst Wire Proto Tx TxCodec.
From S2P Require Import Gas BaseApp Context Ante ClientTx ClientProps Reward Modules Node Broadcaster.

Local Open Scope Z_scope.

Module BroadcasterProps.
Import MultiSig Ante Float64 ClientTx Broadcaster.

(** The transaction carries one signature, made with the sequence [q]. *)
Definition signed_as {Msg} (tx : Tx.Tx Msg) (q : Z) : Prop :=
  ∃ sig, Tx.GetSignaturesV2 tx = Ok [sig] ∧ Tx.sv_Sequence sig = q.

(** What the bridge relies on from a node, and gives it in turn: the account
    it signs with is used by nobody else, so only its own transactions change
    the sequence, and a transaction of it that both halves of the response
    accept counts it up.  The node may expect that, when [synced], a
    transaction is signed with the sequence the account has. *)
Class NodeLaws {W} (node : NodeClient W) (TxEncoder : Tx.Tx Node.Msg → outcome string)
    (signers : Tx.Tx Node.Msg → outcome (list string)) (addr : string)
    (ok : W → Prop) (chain_seq : W → Z) (synced : Prop) : Prop := {
  nl_range w : ok w → 0 <= chain_seq w < 2 ^ 64;
  nl_account w o w' : ok w → GetAccountNumberSequence node w = (o, w') →
    ok w' ∧ chain_seq w' = chain_seq w ∧ ∃ n, o = Ok (n, chain_seq w);
  nl_simulate b w o w' : ok w → Simulate node b w = (o, w') → ok w' ∧ chain_seq w' = chain_seq w;
  nl_height w o w' : ok w → LatestBlockHeight node w = (o, w') → (∀ e, o ≠ Panic e) →
    ok w' ∧ chain_seq w' = chain_seq w;
  nl_commit tx b w o w' : ok w → TxEncoder tx = Ok b → signers tx = Ok [addr] →
    (synced → signed_as tx (chain_seq w)) → node_BroadcastTxCommit node b w = (o, w') → (∀ e, o ≠ Panic e) →
    ok w' ∧ ∀ res, o = Ok res → abci_Code (CheckTx res) = 0 → abci_Code (DeliverTx res) = 0 →
      chain_seq w' = wrapu64 (chain_seq w + 1) }.

(** ** Fees *)

Definition stake_price : DecCoin := mkCoin "stake" (25 * 10 ^ 15).

Lemma gas_prices_run : gas_prices = Ok [stake_price].
Proof. by vm_compute. Qed.

Lemma int64_valid z k : - 2 ^ 63 <= z < 2 ^ 63 → 0 <= k <= 10 ^ 20 → Dec.overflows (k * z) = false.
Proof.
  intros Hz Hk. apply Dec.dec_in_range. unfold Dec.valid.
  apply Z.le_lt_trans with (10 ^ 20 * 2 ^ 63); [rewrite Z.abs_mul, (Z.abs_eq k) by lia; nia|done].
Qed.

Lemma MulDec_price z : - 2 ^ 63 <= z < 2 ^ 63 → z ≠ 0 →
  DecCoins.MulDec [stake_price] (z * Dec.precisionReuse) = Ok [mkCoin "stake" (25 * 10 ^ 15 * z)].
Proof.
  intros Hz Hne. unfold DecCoins.MulDec, fold_out, DecCoins.scale_step, Dec.Mul, Dec.checked, stake_price. cbn [Amount Denom].
  rewrite Z.mul_assoc, Dec.chop_multiple, int64_valid by lia. cbn [mbind outcome_bind].
  assert (∀ d, DecCoin1.IsZero (mkCoin d (25 * 10 ^ 15 * z)) = false) as Hnz.
  { intros d. unfold DecCoin1.IsZero, Dec.IsZero. cbn [Amount]. apply Z.eqb_neq. lia. }
  rewrite Hnz. unfold DecCoins.Add, DecCoins.safeAdd. cbn [CoinSet.merge_add]. rewrite filter_cons_True; [done|].
  unfold CoinSet.isZero. cbn [Amount]. apply Z.eqb_neq. lia.
Qed.

Lemma truncate_price z : - 2 ^ 63 <= z < 2 ^ 63 →
  DecCoin1.TruncateDecimal (mkCoin "stake" (25 * 10 ^ 15 * z)) =
  c ← Coin1.NewCoin "stake" (Z.quot z 40);
  d ← DecCoin1.NewDecCoinFromDec "stake" (25 * 10 ^ 15 * Z.rem z 40);
  Ok (c, d).
Proof.
  intros Hz. unfold DecCoin1.TruncateDecimal, Dec.TruncateInt, Dec.chopPrecisionAndTruncate, Int.NewIntFromBigInt. cbn [Amount Denom].
  assert (Z.quot (25 * 10 ^ 15 * z) Dec.precisionReuse = Z.quot z 40) as ->.
  { rewrite Dec.precisionReuse_val. change 1000000000000000000 with (25 * 10 ^ 15 * 40).
    apply Z.quot_mul_cancel_l; lia. }
  pose proof (Z.quot_rem' z 40) as Hqr. pose proof (Z.rem_bound_abs z 40 ltac:(lia)) as Hr.
  assert (Int.overflows (Z.quot z 40) = false) as ->.
  { apply Int.overflows_false. unfold Int.valid. assert (2 ^ 63 < 2 ^ 255) by done. lia. }
  cbn [mbind outcome_bind]. unfold DecCoin1.ToDec.
  change (Dec.NewDecFromInt (Z.quot z 40)) with (Ok (Z.quot z 40 * Dec.precisionReuse)). cbn [mbind outcome_bind].
  unfold Dec.Sub, Dec.checked. rewrite Dec.precisionReuse_val.
  replace (25 * 10 ^ 15 * z - Z.quot z 40 * 1000000000000000000) with (25 * 10 ^ 15 * Z.rem z 40) by lia.
  by rewrite int64_valid by lia.
Qed.

Lemma wrap64_range x : - 2 ^ 63 <= wrap64 x < 2 ^ 63.
Proof. unfold wrap64. pose proof (Z.mod_pos_bound (x + 2 ^ 63) (2 ^ 64) ltac:(done)). lia. Qed.

Lemma NewDecCoin_run a : 0 <= a → DecCoin1.NewDecCoinFromDec "stake" a = Ok (mkCoin "stake" a).
Proof.
  intros Ha. unfold DecCoin1.NewDecCoinFromDec. change (mustValidateDenom "stake") with (Ok ()).
  cbn [mbind outcome_bind]. unfold Dec.IsNegative. by destruct (Z.eqb_spec (Z.sgn a) (-1)); [lia|].
Qed.

Lemma truncate_prices z : 0 < z < 2 ^ 63 → ∃ d, DecCoins.TruncateDecimal [mkCoin "stake" (25 * 10 ^ 15 * z)] =
  Ok (if z <? 40 then [] else [mkCoin "stake" (z / 40)], d).
Proof.
  intros Hz. unfold DecCoins.TruncateDecimal. cbn [fold_out DecCoins.truncate_step]. rewrite truncate_price by lia.
  rewrite Z.quot_div_nonneg, Z.rem_mod_nonneg by lia.
  pose proof (Z.div_mod z 40 ltac:(lia)). pose proof (Z.mod_pos_bound z 40 ltac:(lia)).
  rewrite NewCoin_run by (done || lia). cbn [mbind outcome_bind]. rewrite NewDecCoin_run by lia. cbn [mbind outcome_bind].
  unfold Coin1.IsZero, Int.IsZero, Int.Sign. cbn [Amount].
  assert ((if Z.sgn (z / 40) =? 0 then Ok [] else Coins.Add [] [mkCoin "stake" (z / 40)]) =
    Ok (if z <? 40 then [] else [mkCoin "stake" (z / 40)])) as ->.
  { destruct (Z.ltb_spec z 40); [by rewrite Z.div_small by lia|].
    destruct (Z.eqb_spec (Z.sgn (z / 40)) 0); [lia|]. unfold Coins.Add, Coins.safeAdd. cbn.
    rewrite decide_True; [done|]. apply Z.eqb_neq. cbn. lia. }
  cbn [mbind outcome_bind]. destruct (DecCoin1.IsZero _); by eexists.
Qed.

(** The fee for a gas limit: a fortieth, rounded down, but at least one. *)
Lemma fees_for_run gas : 0 <= wrap64 gas →
  fees_for gas = Ok [mkCoin "stake" (if wrap64 gas <? 40 then 1 else wrap64 gas / 40)].
Proof.
  intros H0. pose proof (wrap64_range gas) as Hr. unfold fees_for. rewrite gas_prices_run. cbn [mbind outcome_bind].
  change (Dec.NewDec (wrap64 gas)) with (Ok (wrap64 gas * Dec.precisionReuse)). cbn [mbind outcome_bind].
  set (z := wrap64 gas) in *. destruct (decide (z = 0)) as [->|Hne]; [by vm_compute|].
  rewrite MulDec_price by lia. cbn [mbind outcome_bind]. destruct (truncate_prices z ltac:(lia)) as [d ->].
  cbn [mbind outcome_bind]. destruct (Z.ltb_spec z 40); [done|].
  assert (Coins.IsZero [mkCoin "stake" (z / 40)] = false) as ->; [|done].
  unfold Coins.IsZero. cbn. unfold Coin1.IsZero, Int.IsZero, Int.Sign. cbn. pose proof (Z.div_le_lower_bound z 40 1). lia.
Qed.

Lemma Ceil_price z : 0 <= z → Dec.Ceil (25 * 10 ^ 15 * z) = Ok ((z + 39) / 40 * Dec.precisionReuse).
Proof.
  intros Hz. unfold Dec.Ceil. cbv zeta. rewrite !Dec.NewDecFromBigInt_run, Dec.precisionReuse_val.
  change 1000000000000000000 with (25 * 10 ^ 15 * 40). rewrite Z.quot_mul_cancel_l, Z.mul_rem_distr_l by lia.
  rewrite Z.quot_div_nonneg, Z.rem_mod_nonneg by lia.
  pose proof (Z.div_mod z 40 ltac:(lia)). pose proof (Z.mod_pos_bound z 40 ltac:(lia)).
  pose proof (Z.div_mod (z + 39) 40 ltac:(lia)). pose proof (Z.mod_pos_bound (z + 39) 40 ltac:(lia)).
  destruct (Z.eqb_spec (25 * 10 ^ 15 * (z mod 40)) 0); [f_equal; nia|].
  destruct (Z.eqb_spec (Z.sgn (25 * 10 ^ 15 * (z mod 40))) (-1)); [lia|]. f_equal. nia.
Qed.

Lemma requiredFees_price env gas : MinGasPrices env = [stake_price] → 0 <= wrap64 gas →
  requiredFees env gas = Ok [mkCoin "stake" ((wrap64 gas + 39) / 40)].
Proof.
  intros He H0. pose proof (wrap64_range gas) as Hr. unfold requiredFees. rewrite He.
  change (Dec.NewDec (wrap64 gas)) with (Ok (wrap64 gas * Dec.precisionReuse)). set (z := wrap64 gas) in *.
  cbn [mbind outcome_bind requiredFees_loop]. unfold requiredFee, Dec.Mul, Dec.RoundInt, Dec.checked, stake_price. cbn [Amount Denom].
  rewrite Z.mul_assoc, Dec.chop_multiple, int64_valid by lia. cbn [mbind outcome_bind]. rewrite Ceil_price by lia.
  cbn [mbind outcome_bind]. rewrite Dec.chop_multiple. unfold Int.NewIntFromBigInt.
  pose proof (Z.div_mod (z + 39) 40 ltac:(lia)). pose proof (Z.mod_pos_bound (z + 39) 40 ltac:(lia)).
  assert (Int.overflows ((z + 39) / 40) = false) as ->.
  { apply Int.overflows_false. unfold Int.valid. assert (2 ^ 63 < 2 ^ 255) by done. lia. }
  cbn [mbind outcome_bind]. by rewrite NewCoin_run by (done || lia).
Qed.

Lemma fees_for_no_err gas e : fees_for gas ≠ Err e.
Proof.
  destruct (decide (0 <= wrap64 gas)) as [H|H]; [by rewrite fees_for_run|].
  pose proof (wrap64_range gas) as Hr. unfold fees_for. rewrite gas_prices_run. cbn [mbind outcome_bind].
  change (Dec.NewDec (wrap64 gas)) with (Ok (wrap64 gas * Dec.precisionReuse)). cbn [mbind outcome_bind].
  rewrite MulDec_price by lia. cbn [mbind outcome_bind]. unfold DecCoins.TruncateDecimal. cbn [fold_out DecCoins.truncate_step].
  rewrite truncate_price by lia. set (z := wrap64 gas) in *.
  pose proof (Z.quot_rem' z 40). pose proof (Z.rem_bound_abs z 40 ltac:(lia)). pose proof (Z.rem_sign_nz z 40).
  assert (∀ q, q < 0 → Coin1.NewCoin "stake" q = Panic "negative coin amount") as Hneg.
  { intros q Hq. unfold Coin1.NewCoin, Coin1.Validate. change (ValidateDenom "stake") with (Ok ()).
    cbn. unfold Int.IsNegative, Int.Sign. by destruct (Z.eqb_spec (Z.sgn q) (-1)); [|lia]. }
  destruct (decide (Z.quot z 40 < 0)). { rewrite (Hneg (Z.quot z 40)) by assumption. done. } rewrite (NewCoin_run "stake" (Z.quot z 40)) by (done || lia). cbn [mbind outcome_bind].
  unfold DecCoin1.NewDecCoinFromDec. change (mustValidateDenom "stake") with (Ok ()). cbn [mbind outcome_bind].
  assert (Dec.IsNegative (25 * 10 ^ 15 * Z.rem z 40) = true) as ->; [|done].
  assert (Z.rem z 40 < 0) by lia. apply Z.eqb_eq, Z.sgn_neg. lia.
Qed.

(** The bridge's fee misses the price it is computed from.  Against a node
    whose minimum gas price is the 0.025stake that the bridge uses itself, the
    fee for a positive gas limit is enough exactly when the limit is below 40
    or a multiple of 40: the bridge rounds the product down, the node rounds
    it up. *)
Theorem bridge_fee_rounding (env : Env) (gas : Z) :
  MinGasPrices env = [stake_price] → 0 < gas < 2 ^ 63 →
  ∃ fee required, fees_for gas = Ok fee ∧ requiredFees env gas = Ok required ∧
    Coins.IsAnyGTE fee required = Ok (bool_decide (gas < 40 ∨ gas mod 40 = 0)).
Proof.
  intros He Hg. assert (wrap64 gas = gas) as Hw by (apply wrap64_id; unfold is_int64; lia).
  eexists _, _. split_and!; [by rewrite fees_for_run by lia|by rewrite (requiredFees_price env) by (done || lia)|].
  rewrite Hw. set (fee := if gas <? 40 then 1 else gas / 40). unfold Coins.IsAnyGTE. cbn [length Nat.eqb any_out Denom Amount].
  change (Coins.AmountOf [mkCoin "stake" ((gas + 39) / 40)] "stake") with (Ok ((gas + 39) / 40)). cbn [mbind outcome_bind].
  pose proof (Z.div_mod (gas + 39) 40 ltac:(lia)). pose proof (Z.mod_pos_bound (gas + 39) 40 ltac:(lia)).
  pose proof (Z.div_mod gas 40 ltac:(lia)). pose proof (Z.mod_pos_bound gas 40 ltac:(lia)).
  unfold Int.IsZero, Int.Sign, Int.GTE. destruct (Z.eqb_spec (Z.sgn ((gas + 39) / 40)) 0); [lia|]. rewrite andb_true_r.
  unfold fee. destruct (Z.ltb_spec gas 40).
  - rewrite bool_decide_true by lia. destruct (Z.leb_spec ((gas + 39) / 40) 1); [done|lia].
  - destruct (Z.leb_spec ((gas + 39) / 40) (gas / 40)).
    + by rewrite bool_decide_true by lia.
    + by rewrite bool_decide_false by lia.
Qed.

Lemma bridge_fee_rounding_witness : ∃ fee required,
  fees_for 100001 = Ok fee ∧ requiredFees (mkEnv [stake_price] "demo" DefaultParams) 100001 = Ok required ∧
  Coins.IsAnyGTE fee required = Ok false.
Proof. exact (bridge_fee_rounding (mkEnv [stake_price] "demo" DefaultParams) 100001 eq_refl (conj eq_refl eq_refl)). Defined.

Section props.
Context {W : Type} (node : NodeClient W) (ctx : ClientCtx).
Context (NewAnyWithValue : Node.Msg → outcome ()) (key_Any : PubKey → outcome ()).
Context (TxEncoder : Tx.Tx Node.Msg → outcome string) (tx_Hash : string → string).
Context (DecodeAndConvert : string → option (string * string)) (accPrefix : string) (addr_String : string → string).
Context (GetSignBytes : Z → SignerData → Tx.Tx Node.Msg → outcome string).
Context (polls : nat) (addr : string) (ok : W → Prop) (chain_seq : W → Z) (synced : Prop).

Abbreviation bech32 := (Node.AccAddressFromBech32 DecodeAndConvert accPrefix).
Abbreviation msg_signers := (Node.GetSigners DecodeAndConvert accPrefix).
Abbreviation tx_signers := (Tx.GetSigners msg_signers bech32 addr_String).
Abbreviation DIRECT := TxCodec.SIGN_MODE_DIRECT.
Abbreviation sign := (Sign key_Any msg_signers bech32 addr_String GetSignBytes DIRECT).
Abbreviation do_submit := (submit node ctx NewAnyWithValue key_Any TxEncoder tx_Hash msg_signers bech32
  addr_String GetSignBytes DIRECT polls).
Abbreviation do_light := (BroadcastLightTxWithReward node ctx NewAnyWithValue key_Any TxEncoder tx_Hash msg_signers bech32
  addr_String GetSignBytes DIRECT polls).
Abbreviation do_energy := (AddEnergyCLI node ctx NewAnyWithValue key_Any TxEncoder tx_Hash msg_signers bech32
  addr_String GetSignBytes DIRECT polls).
Abbreviation do_rec := (CreateRECRecordCLI node ctx NewAnyWithValue key_Any TxEncoder tx_Hash msg_signers bech32
  addr_String GetSignBytes DIRECT polls).
Abbreviation do_block := (CreateBlockCLI node ctx NewAnyWithValue key_Any TxEncoder tx_Hash msg_signers bech32
  addr_String GetSignBytes DIRECT polls).
Abbreviation do_percent := (BlockCreatorRewardPercentCLI node ctx NewAnyWithValue key_Any TxEncoder tx_Hash msg_signers bech32
  addr_String GetSignBytes DIRECT polls).
Abbreviation do_burn := (BurnStableCoinCLI node ctx NewAnyWithValue key_Any TxEncoder tx_Hash msg_signers bech32
  addr_String GetSignBytes DIRECT polls).
Abbreviation do_send := (send node ctx NewAnyWithValue key_Any TxEncoder tx_Hash msg_signers bech32
  addr_String GetSignBytes DIRECT polls).

Context {laws : NodeLaws node TxEncoder tx_signers addr ok chain_seq synced}.
(** The context's address is the text of the account. *)
Hypothesis from_addr : bech32 (From ctx) = Ok addr.

Implicit Types (s : St W) (tx : Tx.Tx Node.Msg).

(** ** Predicates on the cache *)

(** What is said of the cache and of the chain's sequence. *)
Definition view (J : Cache → Z → Prop) s : Prop := ok (world s) ∧ J (cache s) (chain_seq (world s)).
(** Between calls: counting up gives the sequence of the chain. *)
Definition in_step : St W → Prop :=
  view (λ c q, cacheInitialized c = true → wrapu64 (seqCache c + 1) = q).
(** During a call: the cache holds the sequence [q0] to sign with, which is
    the chain's when [synced]. *)
Definition holding (q0 : Z) : St W → Prop :=
  view (λ c q, cacheInitialized c = true ∧ seqCache c = q0 ∧ (synced → q = q0)).
Definition taken : St W → Prop := view (λ c q, cacheInitialized c = true ∧ (synced → q = seqCache c)).
(** What holds between calls: the node is sound and, when [synced], the cache
    is in step. *)
Definition between s : Prop := ok (world s) ∧ (synced → in_step s).

Lemma next_sequence_taken : hoare between (next_sequence node) (λ _, taken) (λ _, False).
Proof using laws.
  intros [[n q i] w] [Hok Hin]. unfold next_sequence, gets. cbn. destruct i; cbn.
  - split_and!; [done|done|]. intros Hs. symmetry. by apply Hin.
  - unfold mbind, M_bind, on_node, zoom. cbn. destruct (GetAccountNumberSequence node w) as [o w'] eqn:E.
    apply nl_account in E as (Hok' & Hq & n' & ->); [|done]. by split_and!.
Qed.

Lemma resync_in_step : hoare (λ s, ok (world s)) (resync node) (λ _, in_step) (λ _, False).
Proof using laws.
  intros [[n q i] w] Hok. unfold resync, forceSyncAccountSequence, mbind, M_bind, on_node, zoom. cbn in *.
  destruct (GetAccountNumberSequence node w) as [o w'] eqn:E.
  apply nl_account in E as (Hok' & Hq & n' & ->); [|done]. cbn. split; [done|]. intros _. cbn. rewrite Hq.
  pose proof (nl_range w Hok). unfold wrapu64. rewrite Zplus_mod_idemp_l, Z.sub_add. by apply Z.mod_small.
Qed.

Lemma read_view {A} (m : M W A) J :
  (∀ w o w', ok w → m w = (o, w') → (∀ e, o ≠ Panic e) → ok w' ∧ chain_seq w' = chain_seq w) →
  hoare (view J) (on_node m) (λ _, view J) (view J).
Proof.
  intros Hm [c w] [Hok HJ]. unfold on_node, zoom. cbn in *. destruct (m w) as [o w'] eqn:E.
  specialize (Hm _ _ _ Hok E). destruct o as [a|e|e]; [..|done]; destruct Hm as [Hok' Hq]; try done;
    (split; cbn; [done|by rewrite Hq]).
Qed.

Lemma height_view J : hoare (view J) (height node) (λ _, view J) (λ _, False).
Proof using laws.
  intros s Hs. pose proof (read_view (LatestBlockHeight node) J nl_height s Hs) as H. unfold height.
  by destruct (on_node _ s) as [[] ?].
Qed.

Lemma wait_view J : hoare (view J) (waitForNextBlock node polls) (λ _, view J) (λ _, False).
Proof using laws.
  apply hoare_bind with (λ _, view J); [apply height_view|]. intros h0. induction polls as [|n IH]; [by intros s _|].
  apply hoare_bind with (λ _, view J); [apply height_view|]. intros h. destruct (h0 <? h); [apply (hoare_ret () (λ _, view J))|exact IH].
Qed.

Lemma cleanup_in_step b :
  hoare (λ s, ok (world s)) (_ ← resync node; when b (waitForNextBlock node polls)) (λ _, in_step) (λ _, False).
Proof using laws.
  apply hoare_bind with (λ _, in_step); [apply resync_in_step|]. intros _.
  destruct b; [apply wait_view|apply (hoare_ret () (λ _, in_step))].
Qed.

Lemma hoare_on_err {A} P (m : M (St W) A) cleanup Q :
  hoare P m Q (λ s, ok (world s)) → hoare (λ s, ok (world s)) cleanup (λ _, in_step) (λ _, False) →
  hoare P (on_err m cleanup) Q in_step.
Proof.
  intros Hm Hc s Hs. specialize (Hm s Hs). unfold on_err. destruct (m s) as [[a|e|e] s1]; [done| |done].
  specialize (Hc s1 Hm). by destruct (cleanup s1) as [[] ?].
Qed.

Lemma broadcast_in_step q0 tx b : TxEncoder tx = Ok b → tx_signers tx = Ok [addr] → signed_as tx q0 →
  hoare (holding q0) (on_node (BroadcastTxCommit (node_BroadcastTxCommit node) tx_Hash b))
    (λ res s, ok (world s) ∧ (Code res = 0 → synced → in_step s)) (λ s, ok (world s)).
Proof using laws.
  intros Hb Hsg Hsi [c w] [Hok (Hi & Hc0 & Hs)]. unfold on_node, zoom, BroadcastTxCommit. cbn in *.
  destruct (node_BroadcastTxCommit node b w) as [o w'] eqn:E.
  assert (synced → signed_as tx (chain_seq w)) as Hsy by (intros Hsy; by rewrite (Hs Hsy)).
  pose proof (nl_commit tx b w o w' Hok Hb Hsg Hsy E) as Hc.
  destruct o as [res|e|e]; [destruct Hc as [Hok' Hc]; [done|]|destruct Hc as [Hok' _]; [done|]|done];
    [|unfold CheckTendermintError; repeat case_match; simplify_eq; try done; by split].
  split; [done|]. unfold NewResponseFormatBroadcastTxCommit. cbn. intros H0 Hsy'. split; [done|]. intros _. cbn.
  rewrite Hc0, <- (Hs Hsy'). destruct (Z.eqb_spec (abci_Code (CheckTx res)) 0) as [E0|]; cbn in H0; [|done].
  symmetry. by apply (Hc res).
Qed.

(** ** The transactions *)

(** The signers depend on the messages and on the payer of the fee. *)
Lemma signers_same tx tx' l : tx_signers tx = Ok l → Tx.Body tx' = Tx.Body tx →
  (∀ f, Tx.fee_of tx = Ok f → ∃ f', Tx.fee_of tx' = Ok f' ∧ Tx.Payer f' = Tx.Payer f) → tx_signers tx' = Ok l.
Proof.
  intros H Hb Hf. unfold Tx.GetSigners, Tx.GetMsgs in *. rewrite Hb. apply bind_Ok in H as ([sg seen] & Hc & H).
  rewrite Hc. cbn. apply bind_Ok in H as (f & Hfee & H). destruct (Hf f Hfee) as (f' & Hf' & Hp).
  rewrite Hf'. cbn. by rewrite Hp.
Qed.

Lemma on_fee_signers (g : Tx.Fee → Tx.Fee) tx tx' l : (∀ f, Tx.Payer (g f) = Tx.Payer f) →
  tx_signers tx = Ok l → on_fee g tx = Ok tx' → tx_signers tx' = Ok l.
Proof.
  intros Hg H Ho. unfold on_fee, on_authInfo in Ho. apply bind_Ok in Ho as (a & Ha & [= <-]).
  apply signers_same with tx; [done|done|]. intros f Hf. unfold Tx.fee_of in *. rewrite Ha in Hf. cbn in *.
  apply or_panic_Ok in Hf. rewrite Hf. cbn. by eexists.
Qed.

Lemma Sign_signers f name tx tx' l : signMode f = 0 → tx_signers tx = Ok l →
  sign f name tx true = Ok tx' → tx_signers tx' = Ok l ∧ signed_as tx' (sequence f).
Proof.
  intros Hm H Hs. apply ClientProps.Sign_Ok in Hs as (kr & pk & a & bytes & s & _ & _ & Ha & _ & _ & ->); [|done].
  split; [|by eexists]. apply signers_same with tx; [done|done|]. intros f'. unfold Tx.fee_of, Tx.authInfo.
  rewrite Ha. cbn. intros Hf. by exists f'.
Qed.

Lemma msgs_signers msgs tx : msgs ≠ [] → Forall (λ m, msg_signers m = Ok [addr]) msgs →
  SetMsgs NewAnyWithValue msgs newBuilder = Ok tx → tx_signers tx = Ok [addr].
Proof.
  intros Hne Hall H. apply bind_Ok in H as (u & _ & [= <-]). unfold Tx.GetSigners. cbn [Tx.GetMsgs Tx.Body Tx.Messages].
  assert (∀ seen, (addr_String addr) ∈ seen → Tx.collect msg_signers addr_String msgs [addr] seen = Ok ([addr], seen)) as Hc.
  { clear Hne. intros seen Hin. induction Hall as [|m msgs Hm _ IH]; [done|]. cbn [Tx.collect]. rewrite Hm. cbn.
    assert (existsb (String.eqb (addr_String addr)) seen = true) as ->; [|done].
    apply existsb_exists. exists (addr_String addr). split; [by apply list_elem_of_In|apply String.eqb_refl]. }
  destruct Hall as [|m msgs Hm Hall]; [done|]. cbn [Tx.collect]. rewrite Hm. cbn.
  specialize (Hc [addr_String addr]). cbn [Tx.collect] in Hc. rewrite Hm in Hc. cbn in Hc.
  rewrite String.eqb_refl in Hc. cbn in Hc. rewrite Hc by by left. done.
Qed.
(** ** The cache over the calls *)

Lemma calculate_reads f msgs w o w' : ok w →
  CalculateGas NewAnyWithValue key_Any TxEncoder (Simulate node) f msgs w = (o, w') →
  ok w' ∧ chain_seq w' = chain_seq w.
Proof using laws.
  intros Hok H. unfold CalculateGas in H.
  apply BaseApp.bind_cases in H as [(b & w1 & [_ ->]%lift_Ok & H)|(_ & ? & [= _ <-] & _)]; [|done].
  apply BaseApp.bind_cases in H as [(g & w1 & Hs & [= _ <-])|(_ & ? & Hs & _)]; by eapply nl_simulate.
Qed.

Lemma factory_signMode o c txf : factory ctx o c = Ok txf →
  signMode txf = 0 ∧ sequence txf = seqCache c ∧ accountNumber txf = accNumCache c ∧
  chainID txf = ChainID ctx ∧ keybase txf = Some (keyring ctx).
Proof. intros (p & _ & [= <-])%bind_Ok. done. Qed.

Lemma lift_no_err {A} J (o : outcome A) : (∀ e, o ≠ Err e) →
  hoare (view J) (lift o) (λ a s, view J s ∧ o = Ok a) in_step.
Proof. intros H s Hs. unfold lift. destruct o; [done|by destruct (H e)|done]. Qed.

Lemma on_fee_no_err (g : Tx.Fee → Tx.Fee) tx e : on_fee g tx ≠ Err e.
Proof. unfold on_fee, on_authInfo, Tx.authInfo, Tx.nil_panic. by destruct (Tx.tx_AuthInfo tx). Qed.

Lemma factory_no_err o c e : factory ctx o c ≠ Err e.
Proof. unfold factory. by destruct (Parse.ParseDecCoins GasPrices). Qed.

Lemma on_err_lift {A} J (o : outcome A) cleanup :
  hoare (λ s, ok (world s)) cleanup (λ _, in_step) (λ _, False) →
  hoare (view J) (on_err (lift o) cleanup) (λ a s, view J s ∧ o = Ok a) in_step.
Proof.
  intros Hc. apply hoare_on_err; [|done]. eapply hoare_weaken; [apply (hoare_lift (view J))|..]; [done|done|].
  by intros s [? _].
Qed.

(** A call that has taken its sequence leaves the cache in step: after an
    error always, after a success when the sequence was the chain's. *)
Lemma refused_in_step o : hoare (λ s, ok (world s))
  (_ ← resync node; _ ← when (wait_code o) (waitForNextBlock node polls); lift (Err "DeliverTx failed"))
  (λ (_ : TxResponse), in_step) in_step.
Proof using laws.
  eapply hoare_bind; [eapply hoare_weaken; [apply resync_in_step|done|intros ? s Hs; exact Hs|done]|]. intros [].
  eapply hoare_bind with (λ _, in_step).
  { destruct (wait_code o); [|apply (hoare_ret () (λ _, in_step))]. by eapply hoare_weaken; [apply wait_view|..]. }
  intros []. eapply hoare_weaken; [apply (hoare_lift in_step)|done|by intros ? s [? _]|done].
Qed.

Lemma submit_in_step o msgs tx : tx_signers tx = Ok [addr] →
  hoare taken (do_submit o msgs tx) (λ _, between) in_step.
Proof using laws.
  intros Hsg. unfold submit.
  apply hoare_bind with (λ c, holding (seqCache c)); [by intros s (? & ? & ?); split_and!|]. intros c.
  eapply hoare_bind; [apply lift_no_err, factory_no_err|].
  intros txf. apply hoare_pure. intros (Hm & Hq & _)%factory_signMode.
  apply hoare_bind with (λ _, holding (seqCache c)).
  { apply hoare_on_err; [|apply resync_in_step].
    eapply hoare_weaken; [apply read_view; intros w x w' H1 H2 _; by eapply calculate_reads|done|done|by intros s [? _]]. }
  intros gasWanted. eapply hoare_bind; [apply lift_no_err, on_fee_no_err|]. intros tx1. apply hoare_pure. intros H1.
  eapply hoare_bind; [apply lift_no_err, fees_for_no_err|]. intros fees. apply hoare_pure. intros _.
  eapply hoare_bind; [apply lift_no_err, on_fee_no_err|]. intros tx2. apply hoare_pure. intros H2.
  assert (tx_signers tx2 = Ok [addr]) as Hsg2 by (eapply on_fee_signers, H2; [done|by eapply on_fee_signers, H1]).
  eapply hoare_bind; [apply on_err_lift, cleanup_in_step|]. intros tx3. apply hoare_pure. intros H3.
  eapply Sign_signers in H3 as [Hsg3 Hsi]; [|done..]. rewrite Hq in Hsi.
  eapply hoare_bind; [apply on_err_lift, resync_in_step|]. intros b. apply hoare_pure. intros Hb.
  eapply hoare_bind; [apply hoare_on_err; [by eapply broadcast_in_step|apply cleanup_in_step]|]. intros res.
  destruct (Z.eqb_spec (Code res) 0) as [E|E].
  - eapply hoare_weaken; [apply (hoare_ret res (λ _, between))|intros s [? Hs]; by split; auto|done|done].
  - eapply hoare_weaken; [apply refused_in_step|by intros s [? _]| |done]. intros a s Hs. by split; [apply Hs|].
Qed.

Lemma in_step_between s : in_step s → between s.
Proof. intros Hs. by split; [apply Hs|]. Qed.

Lemma wait_between : hoare between (waitForNextBlock node polls) (λ _, between) (λ _, False).
Proof using laws.
  eapply hoare_weaken with (P := view (λ c q, synced → cacheInitialized c = true → wrapu64 (seqCache c + 1) = q));
    [apply wait_view|..]; [intros s [H1 H2]|intros _ s [H1 H2]|done];
    (split; [done|]); intros Hsy; [by apply H2|by split; auto].
Qed.

Lemma wait_ret {A} (a : A) E : hoare between (_ ← waitForNextBlock node polls; mret a) (λ _, between) E.
Proof using laws.
  apply hoare_bind with (λ _, between); [by eapply hoare_weaken; [apply wait_between|..]|].
  intros []. apply (hoare_ret a (λ _, between)).
Qed.

(** After any call the cache is as good as before, and after a failed one
    whose messages were packed it is in step whatever it was. *)
Lemma send_between o msg : msg_signers msg = Ok [addr] →
  hoare between (do_send o msg) (λ _, between) (λ s, between s ∧ (NewAnyWithValue msg = Ok () → in_step s)).
Proof using laws.
  intros Hm. unfold send. eapply hoare_bind with (λ tx s, between s ∧ SetMsgs NewAnyWithValue [msg] newBuilder = Ok tx).
  { intros s Hs. unfold lift. destruct (SetMsgs _ _ _) eqn:E; [done| |done]. split; [done|]. intros Hp.
    unfold SetMsgs in E. cbn [fold_out] in E. by rewrite Hp in E. }
  intros tx. apply hoare_pure. intros Htx%msgs_signers; [|done|by constructor].
  apply hoare_bind with (λ _, taken); [by eapply hoare_weaken; [apply next_sequence_taken|..]|].
  intros []. eapply hoare_weaken; [by apply submit_in_step|done|done|]. intros s Hs. by split; [apply in_step_between|].
Qed.

(** ** Sequences of calls *)

Inductive Call :=
  | CallLight (msg : LightTxMessage) (to : string) (power : float64)
  | CallAddEnergy (to : string) (whAmt : Z) (txHash : string)
  | CallCreateREC (count : Z)
  | CallCreateBlock (nodeCreator recID : string)
  | CallRewardPercent (address percent : string)
  | CallBurn (target amount : string).

Definition run_call (c : Call) : M (St W) () :=
  match c with
  | CallLight msg to power => _ ← do_light msg to power; mret ()
  | CallAddEnergy to whAmt txHash => _ ← do_energy to whAmt txHash; mret ()
  | CallCreateREC count => _ ← do_rec count; mret ()
  | CallCreateBlock creator recID => _ ← do_block creator recID; mret ()
  | CallRewardPercent address percent => _ ← do_percent address percent; mret ()
  | CallBurn target amount => _ ← do_burn target amount; mret ()
  end.

(** A light transaction has data, or no power. *)
Definition sensible (c : Call) : Prop :=
  match c with
  | CallLight msg _ power => light_payload msg = None → leb power (of_Z 0) = true
  | _ => True
  end.
Definition call_msgs (c : Call) : list Node.Msg :=
  match c with
  | CallLight msg to power =>
      [Node.LightMsg (LightTx.mkMsgSendLightTx (From ctx) (light_payload msg) (Hash msg) (Signature msg) (Pubkey msg));
       Node.RewardMsg (Reward.MsgRewardSolarPower (From ctx) to (Big.to_string (wh power)))]
  | CallAddEnergy to whAmt txHash => [Node.RewardMsg (Reward.MsgAddEnergy (From ctx) to (Int.to_String whAmt) txHash)]
  | CallCreateREC count => [Node.RewardMsg (Reward.MsgCreateRECRecord (From ctx) count)]
  | CallCreateBlock creator recID => [Node.RewardMsg (Reward.MsgAppendTxHash (From ctx) creator [] recID "")]
  | CallRewardPercent address percent => [Node.RewardMsg (Reward.MsgDistributeRewardPercent (From ctx) address percent)]
  | CallBurn target amount =>
      [Node.RewardMsg (Reward.MsgBurnStableCoin (From ctx) target
         (if Str.contains amount "aeil" then amount else amount +:+ "aeil"))]
  end.

Lemma call_signers c : Forall (λ m, msg_signers m = Ok [addr]) (call_msgs c).
Proof using from_addr.
  assert (∀ m, Node.creator_of m = From ctx → msg_signers (Node.RewardMsg m) = Ok [addr]) as Hr.
  { intros m Hm. cbn. unfold Node.reward_GetSigners. by rewrite Hm, from_addr. }
  destruct c; cbn [call_msgs]; rewrite ?Forall_cons, ?Forall_nil; split_and?; try done; try by apply Hr.
  unfold Node.GetSigners, LightTx.GetSigners. cbn. unfold Node.AccAddressFromBech32 in from_addr. by rewrite from_addr.
Qed.

Lemma light_between msg to power : sensible (CallLight msg to power) →
  hoare between (do_light msg to power) (λ _, between) (λ s, between s ∧ (leb power (of_Z 0) = false → in_step s)).
Proof using laws from_addr.
  intros Hsen. unfold BroadcastLightTxWithReward.
  apply hoare_bind with (λ _ s, between s ∧ leb power (of_Z 0) = false).
  { intros s Hs. unfold lift. destruct (leb power (of_Z 0)); by split. }
  intros []. apply hoare_pure. intros Hp.
  apply hoare_bind with (λ _, taken); [by eapply hoare_weaken; [apply next_sequence_taken|..]|].
  intros []. pose proof (call_signers (CallLight msg to power)) as Hsg. cbn [call_msgs sensible] in Hsg, Hsen.
  destruct (light_payload msg) as [payload|]; [|by rewrite Hsen in Hp]. apply hoare_run_lift.
  eapply hoare_weaken with (P := taken) (Q := λ _, between) (E := in_step);
    [|done|done|by intros s Hs; split; [apply in_step_between|]].
  eapply hoare_bind; [apply on_err_lift, resync_in_step|]. intros tx. apply hoare_pure. intros Htx%msgs_signers; [|done|done].
  eapply hoare_bind; [by apply submit_in_step|]. intros res. by apply wait_ret.
Qed.

(** A call, as its callers see it: an error is printed, a panic ends the
    program. *)
Definition attempt (m : M (St W) ()) : M (St W) () := λ s,
  match m s with (Err _, s') => (Ok (), s') | r => r end.
Definition run_calls (calls : list Call) : M (St W) () := for_each (λ c, attempt (run_call c)) calls.

(** The messages can be packed and the light data have power. *)
Definition packable (c : Call) : Prop :=
  match c with
  | CallLight _ _ power => leb power (of_Z 0) = false
  | c => Forall (λ m, NewAnyWithValue m = Ok ()) (call_msgs c)
  end.

Lemma run_call_between c : sensible c →
  hoare between (run_call c) (λ _, between) (λ s, between s ∧ (packable c → in_step s)).
Proof using laws from_addr.
  intros Hsen. pose proof (call_signers c) as Hsg.
  destruct c as [msg to power|to whAmt txHash|count|creator recID|address percent|target amount]; cbn [run_call];
    (eapply hoare_bind; [|intros x; apply (hoare_ret () (λ _, between))]);
    [by apply light_between|cbn [packable call_msgs] in *; apply (proj1 (Forall_singleton _ _)) in Hsg..].
  all: unfold AddEnergyCLI, CreateRECRecordCLI, CreateBlockCLI, BlockCreatorRewardPercentCLI, BurnStableCoinCLI.
  all: eapply hoare_bind; [eapply hoare_weaken; [by apply send_between|done|intros a s Hs; exact Hs|]|].
  all: try (intros s [Hb Hs]; split; [exact Hb|]; intros Hp; apply Hs; by apply (proj1 (Forall_singleton _ _)) in Hp).
  all: intros res; try (apply (hoare_ret _ (λ _, between))).
  - apply hoare_bind with (λ _, between).
    { intros s Hs. unfold lift. by destruct (head (Logs res)). }
    intros log. by apply wait_ret.
  - by apply wait_ret.
  - by apply wait_ret.
Qed.

Lemma run_calls_between calls : Forall sensible calls → hoare between (run_calls calls) (λ _, between) (λ _, False).
Proof using laws from_addr.
  induction 1 as [|c calls Hc _ IH]; [apply (hoare_ret () (λ _, between))|].
  apply hoare_bind with (λ _, between); [|intros []; apply IH]. intros s Hs. pose proof (run_call_between c Hc s Hs) as H.
  unfold attempt. destruct (run_call c s) as [[]?]; [done|by destruct H|done].
Qed.

End props.

(** ** A node that records what it is sent *)

(** Every broadcast is noted with the sequence the account had. *)
Definition logged {W} (node : NodeClient W) (chain_seq : W → Z) : NodeClient (W * list (string * Z)) :=
  let on {A} (m : M W A) : M (W * list (string * Z)) A := zoom fst (λ w wl, (w, snd wl)) m in
  mkNodeClient (on (GetAccountNumberSequence node)) (λ b, on (Simulate node b))
    (λ b wl, let '(o, w) := node_BroadcastTxCommit node b wl.1 in (o, (w, wl.2 ++ [(b, chain_seq wl.1)])))
    (on (LatestBlockHeight node)).

Definition log_ok {W} (TxEncoder : Tx.Tx Node.Msg → outcome string) (ok : W → Prop) (wl : W * list (string * Z)) : Prop :=
  ok wl.1 ∧ Forall (λ bq, ∃ tx, TxEncoder tx = Ok bq.1 ∧ signed_as tx bq.2) wl.2.

#[export] Instance logged_laws {W} (node : NodeClient W) TxEncoder signers addr ok chain_seq :
  NodeLaws node TxEncoder signers addr ok chain_seq True →
  NodeLaws (logged node chain_seq) TxEncoder signers addr (log_ok TxEncoder ok) (chain_seq ∘ fst) True.
Proof.
  intros L. split.
  - intros w [Hok _]. exact (nl_range (NodeLaws := L) _ Hok).
  - intros [w l] o wl' [Hok Hl] H. cbn in *. unfold zoom in H. cbn in H.
    destruct (GetAccountNumberSequence node w) as [o' w'] eqn:E. injection H as <- <-.
    apply (nl_account (NodeLaws := L)) in E as (? & ? & ?); [|done]. by split_and!.
  - intros b [w l] o wl' [Hok Hl] H. cbn in *. unfold zoom in H. cbn in H.
    destruct (Simulate node b w) as [o' w'] eqn:E. injection H as <- <-.
    apply (nl_simulate (NodeLaws := L)) in E as (? & ?); [|done]. by split_and!.
  - intros [w l] o wl' [Hok Hl] H Hnp. cbn in *. unfold zoom in H. cbn in H.
    destruct (LatestBlockHeight node w) as [o' w'] eqn:E. injection H as <- <-.
    apply (nl_height (NodeLaws := L)) in E as (? & ?); [|done..]. by split_and!.
  - intros tx b [w l] o wl' [Hok Hl] Hb Hsg Hsi H Hnp. cbn in *.
    destruct (node_BroadcastTxCommit node b w) as [o' w'] eqn:E. injection H as <- <-.
    apply (nl_commit (NodeLaws := L) tx) in E as (? & ?); [|done..]. split; [|done]. split; [done|]. apply Forall_app. split; [done|].
    apply Forall_singleton. exists tx. split; [done|]. by apply Hsi.
Qed.

(** ** The ids of new RECs *)

Section recs.
Context (cfg : Config) (addr_String : string → string).
#[local] Instance rec_bank : BankKeeper Chain := Bank_keeper cfg addr_String.

Lemma create_loop_bank n i acc (s : Reward.State Chain) ids s' : Reward.create_loop n i acc s = (Ok ids, s') →
  length ids = (length acc + n)%nat ∧ Reward.r_bank s' = Reward.r_bank s.
Proof.
  revert i acc s. induction n as [|n IH]; intros i acc s H; cbn [Reward.create_loop] in H.
  - apply mret_Ok in H as [-> ->]. split; [lia|done].
  - apply Mbind_Ok in H as (id & s1 & H1 & H). apply IH in H as [-> ->]. rewrite length_app. split; [simpl; lia|].
    unfold Reward.create_one, Reward.contributors, Reward.PrefixIterator, Reward.Get, Reward.Set_ in H1. by inv_ok.
Qed.

(** The bridge learns of one REC only.  When a [MsgCreateRECRecord] for
    [count] records succeeds, [count] ids are issued and returned, but the
    events carry the first alone: whatever else the response holds, the ids
    the bridge reads from it, and makes blocks for, are that one. *)
Theorem bridge_reads_one_rec_id (creator action hash data raw : string) (count : Z)
    (s s' : Reward.State Chain) (ids : list string) :
  Reward.msg_CreateRECRecord creator count s = (Ok ids, s') →
  length ids = Z.to_nat count ∧
  ∃ first evs, head ids = Some first ∧ events (Reward.r_bank s') = events (Reward.r_bank s) ++ evs ∧
    recIDs_of (mkTxResponse hash 0 data raw [mkEvent "message" [("action", AStr action)] :: evs]) = [first].
Proof.
  intros H. unfold Reward.msg_CreateRECRecord in H. apply Mbind_Ok in H as (l & s1 & H1 & H).
  apply create_loop_bank in H1 as [Hl Hb]. apply Mbind_Ok in H as (first & ? & [Hf%or_panic_Ok ->]%lift_Ok & H).
  apply Mbind_Ok in H as ([] & s2 & He & [-> ->]%mret_Ok). split; [done|]. exists first. unfold Reward.emit, Reward.bank in He.
  apply zoom_Ok in He as (c & He & ->). apply modify_Ok in He as ->. eexists. split_and!; [done|cbn; by rewrite Hb|done].
Qed.
End recs.

Lemma bridge_reads_one_rec_id_witness :
  ∃ first evs s', Reward.msg_CreateRECRecord (H := Bank_keeper (mkConfig ∅ ∅) id) "alice" 2
      (Reward.mkState (mkChain ∅ (Some 0) ∅ ∅ 7 0 []) ∅) = (Ok ["rec-7-0"; "rec-7-1"], s') ∧ first = "rec-7-0" ∧
    recIDs_of (mkTxResponse "HASH" 0 "" "" [mkEvent "message" [("action", AStr "create")] :: evs]) = [first].
Proof.
  assert (Reward.msg_CreateRECRecord (H := Bank_keeper (mkConfig ∅ ∅) id) "alice" 2
    (Reward.mkState (mkChain ∅ (Some 0) ∅ ∅ 7 0 []) ∅) = (Ok ["rec-7-0"; "rec-7-1"], _)) as H
    by (apply run_ok; vm_compute; reflexivity).
  destruct (bridge_reads_one_rec_id (mkConfig ∅ ∅) id "alice" "create" "HASH" "" "" 2 _ _ _ H)
    as (_ & first & evs & Hf & _ & Hr).
  eexists first, evs, _. split_and!; [exact H|by injection Hf|exact Hr].
Defined.

(** ** Theorems *)

Section theorems.
Context {W : Type} (node : NodeClient W) (ctx : ClientCtx).
Context (NewAnyWithValue : Node.Msg → outcome ()) (key_Any : PubKey → outcome ()).
Context (TxEncoder : Tx.Tx Node.Msg → outcome string) (tx_Hash : string → string).
Context (DecodeAndConvert : string → option (string * string)) (accPrefix : string) (addr_String : string → string).
Context (GetSignBytes : Z → SignerData → Tx.Tx Node.Msg → outcome string).
Context (polls : nat) (addr : string) (ok : W → Prop) (chain_seq : W → Z).
Abbreviation bech32 := (Node.AccAddressFromBech32 DecodeAndConvert accPrefix).
Abbreviation tx_signers := (Tx.GetSigners (Node.GetSigners DecodeAndConvert accPrefix) bech32 addr_String).


(** A failure repairs the cache.  Whatever the cached sequence, when a call
    whose messages can be packed fails, the next transaction will be signed
    with the sequence the account has on the chain. *)
Theorem bridge_resyncs_on_error (c : Call) (s s' : St W) (e : string) :
  NodeLaws node TxEncoder tx_signers addr ok chain_seq False → bech32 (From ctx) = Ok addr →
  sensible c → packable ctx NewAnyWithValue c → ok (world s) →
  run_call node ctx NewAnyWithValue key_Any TxEncoder tx_Hash DecodeAndConvert accPrefix addr_String
    GetSignBytes polls c s = (Err e, s') →
  in_step ok chain_seq s'.
Proof.
  intros L Hfrom Hsen Hp Hok H.
  pose proof (run_call_between node ctx NewAnyWithValue key_Any TxEncoder tx_Hash DecodeAndConvert
    accPrefix addr_String GetSignBytes polls addr ok chain_seq False Hfrom c Hsen s) as Hr.
  rewrite H in Hr. by apply Hr.
Qed.

End theorems.
End BroadcasterProps.
