(* ===== verification/BridgeNode.v ===== *)
(** * The bridge against the application

    The node the bridge talks to, made of the application behind the block
    interface: queries read the committed store, a broadcast is checked, and
    when the check accepts it, delivered in the next block, among other
    transactions.  It satisfies what the bridge relies on as long as nobody
    else signs with the bridge's account. *)

From Stdlib Require Import ZArith Lia Ascii String.
From stdpp Require Import base tactics option list gmap relations strings.
From S2P Require Import Prelude GoStd Float64 Digits SdkInt Decimal Coin CoinFacts DecCoin MultiSig Chain Bank BankFacts.
From S2P Require Import AccountFacts Keepers BankInst Wire Proto Address Gas BaseApp ABCI ABCIProps Tx TxCodec Context Feegrant Ante.
From S2P Require Import AnteFacts ClientTx ClientProps Reward RewardFacts RewardProps Modules Node NodeProps Broadcaster BroadcasterProps.

Local Open Scope Z_scope.

Module BridgeNode.
Import MultiSig Ante AnteFacts Float64 ClientTx Node NodeProps ABCI Broadcaster BroadcasterProps.

(** The context over a branch: header and event manager are new. *)
Definition with_header (h : Header) (s : State) : State :=
  let c := Reward.r_bank (app s) in
  mkNode (Reward.mkState (mkChain (accounts c) (globalAccountNumber c) (balances c) (supply c) (Height h) (Time h) []) (Reward.r_kv (app s)))
    (allowances s) (light_store s) (devices s).
Definition header_of (s : State) : Header := mkHeader (blockHeight (bank_of s)) (blockTime (bank_of s)).

Section client.
Context (cfg : Config) (addr_String : string → string).
Context (DecodeAndConvert : string → option (string * string)) (accPrefix : string).
Context (denoms : Denoms.registry) (SendEnabledDenom : string → bool).
Context (time_fits : Z → bool) (MsgTypeURL : Msg → string).
Context (print_float : float64 → string) (light_Marshal : LightTx.RECMeta → outcome string).
Context (pk_Address : PubKey → outcome string).
Context (plain_verify : PubKey → string → string → bool).
Context (GetSignBytes : Z → SignerData → Tx.Tx Msg → outcome string).
Context (simSecp256k1Pubkey : PubKey) (simSig_len : PubKey → Z).
Context (store_gas : call → Ctx Feegrant.Grants → Z).
Context (env : Env).
Context (txDecoder : string → outcome (Tx.Tx Msg)).
Context (txGas : BaseApp.runTxMode → string → BaseApp.App State → Z).
Context (paramStore : option ((State → ConsensusParams) * (ConsensusParams → State → State))).
Context (beginBlocker endBlocker : option (Header → M State ())) (opts : Options).
(** The transactions before and after ours in its block, and the block's
    time. *)
Context (others : string → Server State → list string * list string * Z).
Context (gasUsed : string → Server State → Z) (tx_Hash : string → string).
(** The ABCI code of an error, and the data and logs of responses. *)
Context (abciCode : string → Z) (resp_Data : list Response → string) (resp_Logs : list Response → list (list Event)).

Abbreviation on_server f := (f txDecoder Tx.GetMsgs (ValidateBasic DecodeAndConvert accPrefix)
  (Some (anteHandler cfg addr_String DecodeAndConvert accPrefix time_fits MsgTypeURL pk_Address plain_verify
     GetSignBytes simSecp256k1Pubkey simSig_len store_gas env))
  (Handler cfg addr_String DecodeAndConvert accPrefix denoms SendEnabledDenom time_fits print_float light_Marshal) txGas).
Abbreviation begin_block := (BeginBlock with_header header_of paramStore beginBlocker).
Abbreviation end_block := (EndBlock header_of endBlocker).
Abbreviation commit_block := (Commit with_header header_of paramStore opts).
Abbreviation deliver_txs := (on_server (ABCIProps.deliver_all (St := State))).

(** [AccountRetriever.GetAccountNumberSequence] over the query server of
    x/auth. *)
Definition query_account (addr : string) : M (Server State) (Z * Z) := λ s,
  (match accounts (bank_of (cms s)) !! addr with
   | Some acc => Ok (acc_number acc, acc_sequence acc)
   | None => Err "account not found"
   end, s).

Definition simulate_tx (b : string) : M (Server State) Z :=
  gas ← gets (gasUsed b);
  o ← on_server ABCI.Simulate b;
  match o with Ok _ => mret gas | Err e => lift (Err e) | Panic e => lift (Err e) end.

Definition respond (o : outcome (list Response)) : ABCIResponse :=
  match o with
  | Ok rs => mkABCIResponse 0 (resp_Data rs) "" (resp_Logs rs)
  | Err e | Panic e => mkABCIResponse (abciCode e) "" e []
  end.

Definition commit_tx (b : string) : M (Server State) CommitResult :=
  o ← on_server ABCI.CheckTx false b;
  match o with
  | Ok _ =>
      '(before, after, time) ← gets (others b);
      height ← gets next_version;
      _ ← begin_block (mkHeader height time);
      _ ← deliver_txs before;
      r ← on_server ABCI.DeliverTx b;
      _ ← deliver_txs after;
      _ ← end_block;
      _ ← commit_block;
      mret (mkCommitResult (respond o) (respond r) (tx_Hash b))
  | _ => mret (mkCommitResult (respond o) (mkABCIResponse 0 "" "" []) (tx_Hash b))
  end.

(** Time passes between two queries of the status: a block of the others. *)
Definition next_block : M (Server State) () :=
  '(before, after, time) ← gets (others "");
  height ← gets next_version;
  _ ← begin_block (mkHeader height time);
  _ ← deliver_txs (before ++ after);
  _ ← end_block;
  _ ← commit_block;
  mret ().

Definition app_node (addr : string) : NodeClient (Server State) :=
  mkNodeClient (query_account addr) simulate_tx commit_tx (_ ← next_block; gets LastBlockHeight).

(** ** The laws *)

Context (addr : string) (TxEncoder : Tx.Tx Msg → outcome string).
Abbreviation bech32 := (AccAddressFromBech32 DecodeAndConvert accPrefix).
Abbreviation tx_signers := (Tx.GetSigners (GetSigners DecodeAndConvert accPrefix) bech32 addr_String).

(** Decoding inverts encoding. *)
Hypothesis decode_encode : ∀ tx b, TxEncoder tx = Ok b → txDecoder b = Ok tx.
(** Nobody else signs with the account. *)
Hypothesis others_not_ours : ∀ b s b' tx signers, b' ∈ (others b s).1.1 ++ (others b s).1.2 →
  txDecoder b' = Ok tx → tx_signers tx = Ok signers → addr ∉ signers.
Hypothesis error_codes : ∀ e, abciCode e ≠ 0.

(** What is kept of the state of a block: it is sound, the account is there
    and has the sequence [q]. *)
Definition held (q : Z) (d : State) : Prop := knows addr d ∧ seqs d addr = q.

Hypothesis begin_keeps : ∀ q d d', ABCIProps.blocker_step header_of beginBlocker d d' → held q d → held q d'.
Hypothesis end_keeps : ∀ q d d', ABCIProps.blocker_step header_of endBlocker d d' → held q d → held q d'.
Abbreviation run_tx := (runTx cfg addr_String DecodeAndConvert accPrefix denoms SendEnabledDenom time_fits MsgTypeURL
  print_float light_Marshal pk_Address plain_verify GetSignBytes simSecp256k1Pubkey simSig_len store_gas env txDecoder txGas).

(** The same server with another block under way. *)
Definition in_block (s : Server State) (d : State) (s' : Server State) : Prop :=
  ∃ g, s' = mkServer (cms s) (version s) (initialVersion s) (initialHeight s) (Some d) (check s) g.

Lemma deliver_run b s o s' d : deliver s = Some d → on_server ABCI.DeliverTx b s = (Ok o, s') →
  ∃ ap, BaseApp.deliverState ap = d ∧ o = (run_tx BaseApp.runTxModeDeliver b ap).1 ∧
    in_block s (BaseApp.deliverState (run_tx BaseApp.runTxModeDeliver b ap).2) s'.
Proof.
  intros Hd H. exists (app_of s). unfold ABCI.DeliverTx, run in H. cbn [BaseApp.is_deliver] in H. rewrite Hd in H.
  split; [unfold app_of; by rewrite Hd|].
  pose proof (BaseApp.runTx_deliver txDecoder Tx.GetMsgs (ValidateBasic DecodeAndConvert accPrefix)
    (Some (anteHandler cfg addr_String DecodeAndConvert accPrefix time_fits MsgTypeURL pk_Address plain_verify
     GetSignBytes simSecp256k1Pubkey simSig_len store_gas env))
    (Handler cfg addr_String DecodeAndConvert accPrefix denoms SendEnabledDenom time_fits print_float light_Marshal) txGas b (app_of s))
    as (_ & _ & _ & Hc).
  unfold runTx in *. destruct (BaseApp.runTx _ _ _ _ _ _ _ _ _) as [o' a]. injection H as <- <-. split; [done|].
  cbn in *. eexists. rewrite Hc. by destruct (check s).
Qed.

Lemma deliver_tx_held b q ap : let s := BaseApp.deliverState ap in
  let r := run_tx BaseApp.runTxModeDeliver b ap in held q s →
  knows addr (BaseApp.deliverState r.2) ∧
  (seqs (BaseApp.deliverState r.2) addr = q ∧ is_ok r.1 = false ∨
   ∃ tx signers, txDecoder b = Ok tx ∧ tx_signers tx = Ok signers ∧
     seqs (BaseApp.deliverState r.2) addr = bump (occ addr signers) q).
Proof.
  intros s r [Hk Hq]. split; [by apply deliver_known|].
  destruct (deliver_cases cfg addr_String DecodeAndConvert accPrefix denoms SendEnabledDenom time_fits MsgTypeURL
    print_float light_Marshal pk_Address plain_verify GetSignBytes simSecp256k1Pubkey simSig_len store_gas env txDecoder txGas
    b ap (proj1 Hk)) as [[Heq [e He]]|(tx & s1 & Hd & Ha & Hs & _ & _)].
  - left. unfold r. by rewrite Heq, He.
  - right. apply ante_spec in Ha as (coll & fee & payer & granter & signers & _ & _ & _ & _ & Hsg & _ & Hseq & _); [|apply Hk].
    exists tx, signers. split_and!; [done|done|]. unfold r. by rewrite Hs, Hseq, <- Hq.
Qed.

Lemma bump_absent q signers : addr ∉ signers → bump (occ addr signers) q = q.
Proof.
  intros H. assert (occ addr signers = 0%nat) as ->; [|done]. unfold occ. apply length_zero_iff_nil.
  destruct (filter (addr =.) signers) as [|b l] eqn:Ef; [done|].
  assert (b ∈ filter (addr =.) signers) as [<- Hb]%list_elem_of_filter by (rewrite Ef; left). done.
Qed.

Definition foreign (b : string) : Prop :=
  ∀ tx signers, txDecoder b = Ok tx → tx_signers tx = Ok signers → addr ∉ signers.

Lemma deliver_foreign b q s o s' d : foreign b → deliver s = Some d → held q d →
  on_server ABCI.DeliverTx b s = (Ok o, s') → ∃ d', in_block s d' s' ∧ held q d'.
Proof.
  intros Hf Hd Hh H. apply (deliver_run _ _ _ _ d) in H as (ap & <- & -> & Hb); [|done].
  eexists. split; [exact Hb|]. destruct (deliver_tx_held b q ap Hh) as [Hk [[Hq _]|(tx & signers & Ht & Hsg & Hq)]]; [by split|].
  split; [done|]. rewrite Hq. apply bump_absent. by eapply Hf.
Qed.

Lemma deliver_all_foreign bs q s rs s' d : Forall foreign bs → deliver s = Some d → held q d →
  deliver_txs bs s = (Ok rs, s') → ∃ d', in_block s d' s' ∧ held q d'.
Proof.
  intros Hf. revert s rs d. induction Hf as [|b bs Hb _ IH]; intros s rs d Hd Hh H; cbn [ABCIProps.deliver_all] in H.
  - apply mret_Ok in H as [_ ->]. exists d. split; [|done]. exists (blockGas s). destruct s. cbn in *. by subst.
  - apply Mbind_Ok in H as (o & s1 & H1 & H). apply Mbind_Ok in H as (rs' & s2 & H2 & [_ ->]%mret_Ok).
    apply (deliver_foreign _ q _ _ _ d) in H1 as (d1 & [g ->] & Hh1); [|done..].
    apply (IH _ _ d1) in H2 as (d2 & [g2 ->] & Hh2); [|done..]. exists d2. split; [by eexists|done].
Qed.

Lemma deliver_ours tx b q s o s' d : txDecoder b = Ok tx → tx_signers tx = Ok [addr] → deliver s = Some d → held q d →
  on_server ABCI.DeliverTx b s = (Ok o, s') →
  ∃ d' q', in_block s d' s' ∧ held q' d' ∧ (q' = q ∨ q' = wrapu64 (q + 1)) ∧ (is_ok o = true → q' = wrapu64 (q + 1)).
Proof.
  intros Ht Hsg Hd Hh H. apply (deliver_run _ _ _ _ d) in H as (ap & <- & -> & Hb); [|done].
  destruct (deliver_tx_held b q ap Hh) as [Hk [[Hq Ho]|(tx' & signers & Ht' & Hsg' & Hq)]].
  - eexists _, q. split_and!; [exact Hb|by split|by left|by rewrite Ho].
  - eexists _, (wrapu64 (q + 1)). split_and!; [exact Hb| |by right|done]. split; [done|]. rewrite Hq.
    rewrite Ht in Ht'. injection Ht' as <-. rewrite Hsg in Hsg'. injection Hsg' as <-. unfold occ.
    rewrite filter_cons_True by done. done.
Qed.

(** A server between blocks, with the account at a sequence of 64 bits. *)
Definition node_ok (s : Server State) : Prop :=
  deliver s = None ∧ is_Some (check s) ∧ initialHeight s = initialVersion s ∧ knows addr (cms s) ∧
  0 <= seqs (cms s) addr < 2 ^ 64.
Definition node_seq (s : Server State) : Z := seqs (cms s) addr.

Lemma check_keeps mode b s o s' : BaseApp.is_deliver mode = false → node_ok s → on_server run mode b s = (o, s') →
  (∃ r, o = Ok r) ∧ node_ok s' ∧ cms s' = cms s.
Proof.
  intros Hm (Hd & Hc & Hi & Hk & Hq) H.
  destruct (ABCIProps.check_simulate_keep txDecoder Tx.GetMsgs (ValidateBasic DecodeAndConvert accPrefix)
    (Some (anteHandler cfg addr_String DecodeAndConvert accPrefix time_fits MsgTypeURL pk_Address plain_verify
     GetSignBytes simSecp256k1Pubkey simSig_len store_gas env))
    (Handler cfg addr_String DecodeAndConvert accPrefix denoms SendEnabledDenom time_fits print_float light_Marshal) txGas
    mode b s Hm Hc) as (r & t & E & (_ & Hc' & Ht)).
  rewrite E in H. injection H as <- <-. split; [by eexists|]. rewrite Ht. by split.
Qed.

Lemma knows_header h d : knows addr d → knows addr (with_header h d).
Proof.
  intros [Hok Hk]. split; [|done]. destruct Hok as [H1 H2 H3]. by split.
Qed.

(** Opening a block, and closing one. *)
Lemma begin_held s h r s' : node_ok s → begin_block h s = (Ok r, s') →
  ∃ d, in_block s d s' ∧ held (node_seq s) d.
Proof using begin_keeps.
  intros (Hd & Hc & Hi & Hk & Hq) (_ & d & g & Hblk & ->)%ABCIProps.BeginBlock_Ok. cbn zeta in Hblk. rewrite Hd in Hblk.
  exists d. split; [by eexists|]. eapply begin_keeps; [exact Hblk|]. by split; [apply knows_header|].
Qed.

Lemma finish_held q s d s1 s2 s' r1 r2 : is_Some (check s) → initialHeight s = initialVersion s → in_block s d s1 →
  held q d → 0 <= q < 2 ^ 64 → end_block s1 = (Ok r1, s2) → commit_block s2 = (Ok r2, s') →
  node_ok s' ∧ node_seq s' = q.
Proof using end_keeps.
  intros Hc Hi [g ->] Hh Hq He Hcm. apply (ABCIProps.run_blocker_Ok _ _ _ _ _ d) in He as (d' & Hend & ->); [|done].
  apply (end_keeps q) in Hend as [Hk' Hq']; [|done]. unfold Commit in Hcm. cbn in Hcm. injection Hcm as _ <-.
  split; [|done]. split_and!; [done|by eexists|done|done|cbn; rewrite Hq'; lia..].
Qed.

Lemma others_foreign b s : Forall foreign (others b s).1.1 ∧ Forall foreign (others b s).1.2.
Proof using others_not_ours.
  assert (∀ b', b' ∈ (others b s).1.1 ++ (others b s).1.2 → foreign b') as Hall.
  { intros b' Hin t l Ht Hl. by apply (others_not_ours b s b' t l). }
  split; apply Forall_forall; intros x Hx; apply Hall, elem_of_app; auto.
Qed.

Lemma block_of_others s u s' : node_ok s → next_block s = (Ok u, s') → node_ok s' ∧ node_seq s' = node_seq s.
Proof using others_not_ours begin_keeps end_keeps.
  intros Hok H. unfold next_block in H. apply Mbind_Ok in H as ([[before after] time] & ? & [Hoth ->]%gets_Ok & H).
  destruct (others_foreign "" s) as [Hbef Haft]. rewrite <- Hoth in Hbef, Haft. cbn in Hbef, Haft.
  apply Mbind_Ok in H as (height & ? & [-> ->]%gets_Ok & H).
  apply Mbind_Ok in H as (r1 & s2 & (d0 & [g ->] & Hh)%begin_held & H); [|done].
  apply Mbind_Ok in H as (r2 & s3 & (d1 & [g1 ->] & Hh1)%(deliver_all_foreign _ (node_seq s) _ _ _ d0) & H);
    [|by apply Forall_app|done|done].
  apply Mbind_Ok in H as (r3 & s4 & He & H). apply Mbind_Ok in H as (r4 & s5 & Hcm & [_ ->]%mret_Ok).
  eapply (finish_held _ s d1); [apply Hok|apply Hok|by eexists|exact Hh1|apply Hok|exact He|exact Hcm].
Qed.

Lemma block_of_tx tx b s res s' : TxEncoder tx = Ok b → tx_signers tx = Ok [addr] → node_ok s →
  commit_tx b s = (Ok res, s') →
  node_ok s' ∧ (abci_Code (ClientTx.CheckTx res) = 0 → abci_Code (ClientTx.DeliverTx res) = 0 → node_seq s' = wrapu64 (node_seq s + 1)).
Proof using decode_encode others_not_ours error_codes begin_keeps end_keeps.
  intros Hb%decode_encode Hsg Hok H. unfold commit_tx in H. apply Mbind_Ok in H as (o & s1 & H1 & H).
  apply (check_keeps BaseApp.runTxModeCheck) in H1 as (_ & Hok1 & Hcms); [|done..].
  assert (node_seq s1 = node_seq s) as <- by (unfold node_seq; by rewrite Hcms).
  destruct o as [rs|e|e]; cycle 1.
  { apply mret_Ok in H as [-> ->]. split; [done|]. cbn. by intros ?%error_codes. }
  { apply mret_Ok in H as [-> ->]. split; [done|]. cbn. by intros ?%error_codes. }
  apply Mbind_Ok in H as ([[before after] time] & ? & [Hoth ->]%gets_Ok & H).
  destruct (others_foreign b s1) as [Hbef Haft]. rewrite <- Hoth in Hbef, Haft. cbn in Hbef, Haft.
  apply Mbind_Ok in H as (height & ? & [-> ->]%gets_Ok & H).
  apply Mbind_Ok in H as (r1 & s2 & (d0 & [g ->] & Hh)%begin_held & H); [|done].
  apply Mbind_Ok in H as (r2 & s3 & (d1 & [g1 ->] & Hh1)%(deliver_all_foreign _ (node_seq s1) _ _ _ d0) & H); [|done..].
  apply Mbind_Ok in H as (r & s4 & (d2 & q' & [g2 ->] & Hh2 & Hq2 & Hr)%(deliver_ours tx _ (node_seq s1) _ _ _ d1) & H); [|done..].
  apply Mbind_Ok in H as (r3 & s5 & (d3 & [g3 ->] & Hh3)%(deliver_all_foreign _ q' _ _ _ d2) & H); [|done..].
  apply Mbind_Ok in H as (r4 & s6 & He & H). apply Mbind_Ok in H as (r5 & s7 & Hcm & [-> ->]%mret_Ok).
  assert (node_ok s7 ∧ node_seq s7 = q') as [Hok' Hq'].
  { eapply (finish_held q' s1 d3); [apply Hok1|apply Hok1|by eexists|exact Hh3| |exact He|exact Hcm].
    destruct Hq2 as [->| ->]; [apply Hok1|by apply Z.mod_pos_bound]. }
  split; [done|]. intros _ Hcode. rewrite Hq'. apply Hr. destruct r; [done|by destruct (error_codes e)..].
Qed.

(** No call of the block interface returns an error. *)
Definition no_err {A} (m : M (Server State) A) : Prop := ∀ s e, (m s).1 ≠ Err e.
Lemma no_err_bind {A B} (m : M (Server State) A) (f : A → M (Server State) B) :
  no_err m → (∀ a, no_err (f a)) → no_err (m ≫= f).
Proof.
  intros Hm Hf s e. specialize (Hm s). unfold mbind, M_bind. destruct (m s) as [[a|e'|e'] s1]; [apply Hf|by destruct (Hm e')|done].
Qed.
Lemma no_err_ret {A} (a : A) : no_err (mret a).
Proof. done. Qed.
Lemma no_err_blocker (b : option (Header → M State ())) : no_err (run_blocker header_of b).
Proof.
  unfold run_blocker. destruct b; [|apply no_err_ret]. apply no_err_bind; [|intros; apply no_err_ret].
  intros s e. unfold on_deliver. destruct (deliver s) as [d|]; [|done]. by destruct (m _ _) as [[]?].
Qed.
Lemma no_err_run mode b : no_err (on_server run mode b).
Proof.
  intros s e. unfold run. destruct (if BaseApp.is_deliver mode then _ else _); [|done]. by destruct (BaseApp.runTx _ _ _ _ _ _ _ _ _).
Qed.
Lemma no_err_deliver_all bs : no_err (deliver_txs bs).
Proof.
  induction bs as [|b bs IH]; cbn [ABCIProps.deliver_all]; [apply no_err_ret|]. apply no_err_bind; [apply no_err_run|].
  intros r. apply no_err_bind; [done|]. intros; apply no_err_ret.
Qed.
Lemma no_err_BeginBlock h : no_err (begin_block h).
Proof.
  unfold BeginBlock. apply no_err_bind; [done|]. intros v. apply no_err_bind; [by destruct v|]. intros [].
  apply no_err_bind; [done|]. intros d. apply no_err_bind; [by destruct d|]. intros [].
  apply no_err_bind; [done|]. intros d'. apply no_err_bind; [|intros; apply no_err_bind; [done|intros; apply no_err_blocker]].
  intros s e. unfold lift. destruct d' as [d'|]; [|done]. cbn. unfold getMaximumBlockGas. by repeat case_match.
Qed.
Lemma no_err_commit b : no_err (commit_tx b).
Proof.
  unfold commit_tx. apply no_err_bind; [apply no_err_run|]. intros o. destruct o; [|apply no_err_ret..].
  apply no_err_bind; [done|]. intros [[before after] time]. apply no_err_bind; [done|]. intros height.
  apply no_err_bind; [apply no_err_BeginBlock|]. intros _. apply no_err_bind; [apply no_err_deliver_all|]. intros _.
  apply no_err_bind; [apply no_err_run|]. intros r. apply no_err_bind; [apply no_err_deliver_all|]. intros _.
  apply no_err_bind; [apply no_err_blocker|]. intros _. apply no_err_bind; [|intros; apply no_err_ret].
  intros s e. unfold Commit. by destruct (deliver s).
Qed.

Lemma no_err_next_block : no_err next_block.
Proof.
  unfold next_block. apply no_err_bind; [done|]. intros [[before after] time]. apply no_err_bind; [done|]. intros height.
  apply no_err_bind; [apply no_err_BeginBlock|]. intros _. apply no_err_bind; [apply no_err_deliver_all|]. intros _.
  apply no_err_bind; [apply no_err_blocker|]. intros _. apply no_err_bind; [|intros; apply no_err_ret].
  intros s e. unfold Commit. by destruct (deliver s).
Qed.

#[export] Instance app_node_laws (synced : Prop) :
  NodeLaws (app_node addr) TxEncoder tx_signers addr node_ok node_seq synced.
Proof using decode_encode others_not_ours error_codes begin_keeps end_keeps.
  split.
  - intros s (_ & _ & _ & _ & H). exact H.
  - intros s o s' Hok [= <- <-]. split_and!; [done|done|]. destruct Hok as (_ & _ & _ & [_ [acc Ha]] & _).
    exists (acc_number acc). unfold node_seq, seqs, seq_of. by rewrite Ha.
  - intros b s o s' Hok H. cbn in H. unfold simulate_tx in H. rewrite gets_bind in H.
    apply BaseApp.bind_cases in H as [(r & s1 & H1 & H)|(_ & o1 & H1 & _)];
      apply (check_keeps BaseApp.runTxModeSimulate) in H1 as (_ & Hok1 & Hcms); try done; unfold node_seq.
    + assert (s' = s1) as -> by (destruct r; by injection H). by rewrite Hcms.
    + by rewrite Hcms.
  - intros s o s' Hok H Hnp. cbn in H. unfold mbind, M_bind in H. destruct (next_block s) as [[u|e|e] s1] eqn:E.
    + injection H as _ <-. by eapply block_of_others.
    + destruct (no_err_next_block s e). by rewrite E.
    + injection H as <- _. by destruct (Hnp e).
  - intros tx b s o s' Hok Hb Hsg _ H Hnp. cbn in H. destruct o as [res|e|e]; [|by destruct (no_err_commit b s e); rewrite H|by destruct (Hnp e)].
    apply (block_of_tx tx) in H as [Hok' Hc]; [|done..]. split; [done|]. intros res' [= <-]. exact Hc.
Qed.

End client.

(** ** A run

    The bridge signs as alice and creates two RECs and then one more.  The
    encoder knows the four transactions that this takes (two are simulated,
    two delivered). *)

Definition bridge_tx (k : string * string * list Coin * Z * Z * Z * Z) : Tx.Tx Msg :=
  let '(memo, sig, fee, gas, mode, q, count) := k in
  Tx.mkTx (Some (Tx.mkTxBody [RewardMsg (Reward.MsgCreateRECRecord "alice" count)] memo 0 []))
    (Some (Tx.mkAuthInfo [Tx.mkSignerInfo (Some (secp256k1_PubKey "alice")) (Tx.ModeInfo_Single mode) q]
             (Some (Tx.mkFee fee gas "" "")))) [sig].
Definition read_tx (tx : Tx.Tx Msg) : option (string * string * list Coin * Z * Z * Z * Z) :=
  match tx with
  | Tx.mkTx (Some (Tx.mkTxBody [RewardMsg (Reward.MsgCreateRECRecord c count)] memo 0 []))
      (Some (Tx.mkAuthInfo [Tx.mkSignerInfo (Some (secp256k1_PubKey k)) (Tx.ModeInfo_Single mode) q]
               (Some (Tx.mkFee fee gas "" "")))) [sig] =>
      if String.eqb c "alice" && String.eqb k "alice" then Some (memo, sig, fee, gas, mode, q, count) else None
  | _ => None
  end.

Lemma read_tx_Some tx k : read_tx tx = Some k → tx = bridge_tx k.
Proof.
  unfold read_tx. intros H. repeat (case_match; try done). simplify_eq.
  match goal with E : _ && _ = true |- _ => apply andb_true_iff in E as [->%String.eqb_eq ->%String.eqb_eq] end. done.
Qed.

Definition rec_sim (q count : Z) := ("create-rec-record", "", [mkCoin "stake" 0], 0, 0, q, count).
Definition rec_real (q count : Z) := ("", "alice/demo/" +:+ Big.to_string q, [mkCoin "stake" 2200], 88000, 1, q, count).
Definition demo_table : list (string * (string * string * list Coin * Z * Z * Z * Z)) :=
  [("sim0", rec_sim 0 2); ("tx0", rec_real 0 2); ("sim1", rec_sim 1 1); ("tx1", rec_real 1 1)].
Fixpoint find_name (l : list (string * (string * string * list Coin * Z * Z * Z * Z))) k : outcome string :=
  match l with
  | [] => Err "cannot encode"
  | (b, k') :: l => if decide (k = k') then Ok b else find_name l k
  end.
Definition demo_encoder (tx : Tx.Tx Msg) : outcome string :=
  match read_tx tx with Some k => find_name demo_table k | None => Err "cannot encode" end.
Definition demo_decoder (b : string) : outcome (Tx.Tx Msg) :=
  match find (λ e, String.eqb e.1 b) demo_table with Some e => Ok (bridge_tx e.2) | None => Err "tx parse error" end.

Lemma demo_decode_encode tx b : demo_encoder tx = Ok b → demo_decoder b = Ok tx.
Proof.
  unfold demo_encoder. destruct (read_tx tx) as [k|] eqn:E; [|done]. apply read_tx_Some in E as ->.
  unfold demo_table. cbn [find_name]. repeat case_decide; subst; intros [= <-]; done.
Qed.

Definition demo_chain : Chain :=
  mkChain (<["alice" := mkAccount "alice" 1 None None None 0]> ∅) (Some 3) (<[("alice", "stake") := 100000]> ∅)
    (<["stake" := 100000]> ∅) 0 0 [].
Definition demo_state : State := mkNode (Reward.mkState demo_chain ∅) ∅ ∅ ∅.
Definition demo_server : Server State :=
  mkServer demo_state 0 0 0 None (Some demo_state) Gas.NewInfiniteGasMeter.
Definition demo_node : NodeClient (Server State) :=
  app_node node_cfg id plain_bech32 "cosmos" Denoms.empty_registry (λ _, true) (λ _, true) (λ _, "") (λ _, "0.0")
    (λ d, Ok (LightTx.CertifiedId d)) node_address node_verify node_sign_bytes (secp256k1_PubKey "") (λ _, 100) (λ _ _, 0)
    node_env demo_decoder (λ _ _ _, 0) None None None (mkOptions 0 0 0 0 0 0) (λ _ _, ([], [], 0)) (λ _ _, 50000) (λ b, b)
    (λ _, 1) (λ _, "") (λ _, []) "alice".
Definition alice_kr : Keyring :=
  mkKeyring (λ n, Ok (secp256k1_PubKey n)) (λ n bytes, Ok (n +:+ bytes)) [secp256k1_PubKey "alice"].
Definition alice_ctx : ClientCtx := mkClientCtx "demo" alice_kr "alice" "alice".

Lemma demo_laws (synced : Prop) :
  NodeLaws demo_node demo_encoder
    (Tx.GetSigners (GetSigners plain_bech32 "cosmos") (AccAddressFromBech32 plain_bech32 "cosmos") id) "alice"
    (node_ok "alice") (node_seq "alice") synced.
Proof.
  apply app_node_laws; [apply demo_decode_encode| |done|by intros q d d' ->|by intros q d d' ->].
  intros b s b' tx signers Hin. by apply not_elem_of_nil in Hin.
Qed.

Lemma demo_server_ok : node_ok "alice" demo_server.
Proof.
  split; [done|]. split; [by eexists|]. split; [done|]. split; [|done]. split; [|by eexists]. split; simpl.
  - intros k z. rewrite lookup_insert_Some. intros [[_ <-]|[_ H]]; [split; [lia|done]|done].
  - intros k z. rewrite lookup_insert_Some. intros [[_ <-]|[_ H]]; [split; [lia|done]|done].
  - intros k z. rewrite lookup_insert_Some. intros [[<- <-]|[_ H]]; done.
Qed.

Definition demo_run := run_calls (logged demo_node (node_seq "alice")) alice_ctx (λ _, Ok ()) (λ _, Ok ()) demo_encoder
  (λ b, b) plain_bech32 "cosmos" id node_sign_bytes 3 [CallCreateREC 2; CallCreateREC 1]
  (mkSt (mkCache 0 0 false) (demo_server, [])).

Lemma demo_run_ok : demo_run.1 = Ok ().
Proof. vm_compute. reflexivity. Qed.

Lemma split_run {W L} (r : outcome () * St (W * L)) : r.1 = Ok () →
  r = (Ok (), mkSt (cache r.2) ((world r.2).1, (world r.2).2)).
Proof. destruct r as [o [c [w l]]]. cbn. by intros ->. Qed.


Definition stale : St (Server State) := mkSt (mkCache 1 7 true) demo_server.
Definition stale_run := run_call demo_node alice_ctx (λ _, Ok ()) (λ _, Ok ()) demo_encoder
  (λ b, b) plain_bech32 "cosmos" id node_sign_bytes 3 (CallCreateREC 2).

Lemma bridge_resyncs_on_error_witness :
  (stale_run stale).1 = Err "cannot encode" ∧ in_step (node_ok "alice") (node_seq "alice") (stale_run stale).2.
Proof.
  assert (stale_run stale = (Err "cannot encode", (stale_run stale).2)) as H by (apply run_err; vm_compute; reflexivity).
  split; [exact (f_equal fst H)|].
  refine (bridge_resyncs_on_error demo_node alice_ctx (λ _, Ok ()) (λ _, Ok ()) demo_encoder (λ b, b)
    plain_bech32 "cosmos" id node_sign_bytes 3 "alice" (node_ok "alice") (node_seq "alice") (CallCreateREC 2) stale _
    "cannot encode" (demo_laws False) _ I _ demo_server_ok H).
  - vm_compute. reflexivity.
  - repeat constructor.
Defined.

End BridgeNode.
