(* ===== verification/Bridge.v ===== *)
(** * The bridge: fullnode_bridge/consumer

    The consumers of the message topics, the vote timers and the worker of the
    transaction queue, as steps on the variables they share.  A goroutine that
    sleeps or waits for the queue is an entry of the state; everything between
    two waits is one step, as the mutex and the single worker make it.
    Messages come decoded from JSON, with a value for what could not be
    decoded; what is sent goes to an outbox.  The hashes and the bech32
    functions of the address are parameters, and so is the node behind the
    transactions (Broadcaster).  Printing is left out. *)

From Stdlib Require Import ZArith Lia ZifyNat Ascii String.
From stdpp Require Import base tactics option list gmap relations strings.
From S2P Require Import Prelude GoStd Float64 Digits SdkInt Decimal Coin DecCoin MultiSig Chain Wire Proto Tx TxCodec.
From S2P Require Import Gas BaseApp Context Ante ClientTx Reward Modules Node Broadcaster.

Local Open Scope Z_scope.

(** ** base64.StdEncoding *)
Module Base64.

Definition value (c : ascii) : option Z :=
  let n := Z.of_N (N_of_ascii c) in
  if (65 <=? n) && (n <=? 90) then Some (n - 65)
  else if (97 <=? n) && (n <=? 122) then Some (n - 71)
  else if (48 <=? n) && (n <=? 57) then Some (n + 4)
  else if n =? 43 then Some 62 else if n =? 47 then Some 63 else None.

Definition byte_of (z : Z) : ascii := ascii_of_N (Z.to_N (z mod 256)).

(** Line breaks are skipped. *)
Fixpoint strip (s : string) : string :=
  match s with
  | EmptyString => ""
  | String c r => if Ascii.eqb c (ascii_of_N 10) || Ascii.eqb c (ascii_of_N 13) then strip r else String c (strip r)
  end.

(** Four characters at a time; the last group may end in padding. *)
Fixpoint decode_groups (s : string) : option string :=
  match s with
  | EmptyString => Some ""
  | String a (String b (String c (String d r))) =>
      x ← value a; y ← value b;
      if Ascii.eqb c "=" then
        if Ascii.eqb d "=" && String.eqb r "" then Some (String (byte_of (x * 4 + y / 16)) "") else None
      else
        z ← value c;
        let first2 := λ t, String (byte_of (x * 4 + y / 16)) (String (byte_of (y * 16 + z / 4)) t) in
        if Ascii.eqb d "=" then if String.eqb r "" then Some (first2 "") else None
        else
          w ← value d;
          rest ← decode_groups r;
          Some (first2 (String (byte_of (z * 64 + w)) rest))
  | _ => None
  end.
Definition DecodeString (s : string) : option string := decode_groups (strip s).

Lemma decode_ex : map DecodeString ["aGVsbG8="; "aGVsbG8"; "aA=="; "aGVs" +:+ String (ascii_of_N 10) "bG8h"; "a?=="; "=aaa"; ""; "aA==aA=="] =
  [Some "hello"; None; Some "h"; Some "hello!"; None; None; Some ""; None].
Proof. vm_compute. reflexivity. Qed.
End Base64.

Module Bridge.
Import MultiSig Ante Float64 ClientTx Broadcaster.

(** ** Messages *)

Record SignatureEntry := mkEntry { e_TxMsg : LightTxMessage; e_Address : string; e_Timestamp : Z }.
Record DeviceToAddressMessage := mkDeviceToAddress { da_DeviceID : string; da_Address : string; da_SenderID : string }.
Record BlockCreatorMsg := mkBlockCreator { bc_Creator : string; bc_Contribution : float64; bc_FullnodeID : string }.
Record BurnMessage := mkBurnMessage { bm_Address : string; bm_Coin : string }.
(** A burn request: decoded, or what decoding left before its error. *)
Inductive BurnRequest := BurnOk (m : BurnMessage) | BurnBad (m : BurnMessage).

(** What the bridge sends. *)
Inductive OutMsg :=
  | DeviceRequest (m : DeviceToAddressMessage)
  | Validators (fullnode_id : string) (validators : list string) (timestamp : Z)
  | Contributors (fullnode_id : string) (contributors : option json)
  | BurnFailed (m : BurnMessage)
  | BurnResult (m : BurnResultMessage).

(** The closures in the queue. *)
Inductive Task :=
  | LightTask (msg : LightTxMessage) (userAddress : string) (power : float64)
  | BlockTask (creator : string)
  | BurnTask (req : BurnRequest).

Definition FullnodeID : string := "node_A".
Definition QueueSize : nat := 100.

(** ** State *)

Record BState (W : Type) := mkB {
  VoteMap : gmap string (list SignatureEntry);
  DeviceIDs : gmap string string;
  deviceAddressMap : gmap string string;
  RECCount : Z;
  VoteMemberCount : Z;
  TxQueue : list Task;
  timers : list string;               (** vote timers asleep, by hash *)
  voted : list LightTxMessage;        (** timers that have taken their vote *)
  senders : list Task;                (** goroutines waiting to enqueue *)
  outbox : list OutMsg;
  txs : St W }.
Arguments mkB {W} _ _ _ _ _ _ _ _ _ _ _.
Arguments VoteMap {W} _.
Arguments DeviceIDs {W} _.
Arguments deviceAddressMap {W} _.
Arguments RECCount {W} _.
Arguments VoteMemberCount {W} _.
Arguments TxQueue {W} _.
Arguments timers {W} _.
Arguments voted {W} _.
Arguments senders {W} _.
Arguments outbox {W} _.
Arguments txs {W} _.

Section bridge.
Context {W : Type} (node : NodeClient W) (ctx : ClientCtx).
Context (NewAnyWithValue : Node.Msg → outcome ()) (key_Any : PubKey → outcome ()).
Context (TxEncoder : Tx.Tx Node.Msg → outcome string) (tx_Hash : string → string).
Context (msg_GetSigners : Node.Msg → outcome (list string)).
Context (AccAddressFromBech32 : string → outcome string) (addr_String : string → string).
Context (GetSignBytes : Z → SignerData → Tx.Tx Node.Msg → outcome string) (DefaultMode : Z).
Context (polls : nat).
(** sha256, ripemd160, and the two functions of btcutil's bech32. *)
Context (sha256 ripemd160 : string → string).
Context (ConvertBits : string → outcome (list Z)) (bech32_Encode : string → list Z → outcome string).
Implicit Types s : BState W.

Abbreviation light_tx := (BroadcastLightTxWithReward node ctx NewAnyWithValue key_Any TxEncoder tx_Hash msg_GetSigners
  AccAddressFromBech32 addr_String GetSignBytes DefaultMode polls).
Abbreviation add_energy := (AddEnergyCLI node ctx NewAnyWithValue key_Any TxEncoder tx_Hash msg_GetSigners
  AccAddressFromBech32 addr_String GetSignBytes DefaultMode polls).
Abbreviation create_rec := (CreateRECRecordCLI node ctx NewAnyWithValue key_Any TxEncoder tx_Hash msg_GetSigners
  AccAddressFromBech32 addr_String GetSignBytes DefaultMode polls).
Abbreviation create_block := (CreateBlockCLI node ctx NewAnyWithValue key_Any TxEncoder tx_Hash msg_GetSigners
  AccAddressFromBech32 addr_String GetSignBytes DefaultMode polls).
Abbreviation reward_percent := (BlockCreatorRewardPercentCLI node ctx NewAnyWithValue key_Any TxEncoder tx_Hash
  msg_GetSigners AccAddressFromBech32 addr_String GetSignBytes DefaultMode polls).
Abbreviation burn_coin := (BurnStableCoinCLI node ctx NewAnyWithValue key_Any TxEncoder tx_Hash msg_GetSigners
  AccAddressFromBech32 addr_String GetSignBytes DefaultMode polls).

(** ** Light votes *)

(** [for len(txMsg.Pubkey)%4 != 0 { txMsg.Pubkey += "=" }]: three rounds are
    enough. *)
Fixpoint pad_loop (fuel : nat) (s : string) : string :=
  match fuel with
  | O => s
  | S n => if (String.length s mod 4 =? 0)%nat then s else pad_loop n (s +:+ "=")
  end.
Definition pad (s : string) : string := pad_loop 3 s.

Definition PubKeyToAddress (pubKeyBytes : string) : outcome string :=
  let pubKeyHash := ripemd160 (sha256 pubKeyBytes) in
  converted ← ConvertBits pubKeyHash;
  bech32_Encode "cosmos" converted.

Definition with_Pubkey (k : string) (m : LightTxMessage) : LightTxMessage :=
  mkLightTxMessage (Original m) (REC m) (Hash m) (Signature m) k.

Definition set_votes v d t o s : BState W :=
  mkB v d (deviceAddressMap s) (RECCount s) (VoteMemberCount s) (TxQueue s) t (voted s) (senders s) o (txs s).

(** The device, or the facility, that a message names. *)
Definition nonempty (x : string) : option string := if String.eqb x "" then None else Some x.
Definition named_device (m : LightTxMessage) : option string :=
  match d ← Original m; nonempty (DeviceID d) with
  | Some d => Some d
  | None => r ← REC m; nonempty (FacilityID r)
  end.

Definition record_vote (m : LightTxMessage) (address : string) (now : Z) s : BState W :=
  let entries := default [] (VoteMap s !! Hash m) ++ [mkEntry m address now] in
  let votes := <[Hash m := entries]> (VoteMap s) in
  let devices := match named_device m with Some d => <[Hash m := d]> (DeviceIDs s) | None => DeviceIDs s end in
  if (length entries =? 1)%nat then
    set_votes votes devices (timers s ++ [Hash m])
      (outbox s ++ [DeviceRequest (mkDeviceToAddress (default "" (devices !! Hash m)) "" FullnodeID)]) s
  else set_votes votes devices (timers s) (outbox s) s.

(** The address of the key of a vote; [None] when the vote is skipped. *)
Definition voter (m : LightTxMessage) : option string :=
  pubkeyBytes ← Base64.DecodeString (Pubkey m);
  if negb (String.length pubkeyBytes =? 33)%nat then None
  else match PubKeyToAddress pubkeyBytes with Ok a => Some a | _ => None end.

Definition ConsumeClaim_light (m : LightTxMessage) (now : Z) s : BState W :=
  let m := with_Pubkey (pad (Pubkey m)) m in
  match voter m with
  | Some address => record_vote m address now s
  | None => s
  end.

(** ** Vote timers *)

Definition unique_addresses (entries : list SignatureEntry) : gset string := list_to_set (e_Address <$> entries).

(** Removes the first entry of a goroutine. *)
Fixpoint remove_one {A} `{EqDecision A} (x : A) (l : list A) : list A :=
  match l with [] => [] | y :: l => if decide (x = y) then l else y :: remove_one x l end.

(** The part of [startVoteTimer] under the mutex and the message to the
    validators; the order of the map's keys is [uniqueList]. *)
Definition startVoteTimer (hash : string) (uniqueList : list string) (now : Z) s : BState W :=
  let t := remove_one hash (timers s) in
  match VoteMap s !! hash with
  | None | Some [] => set_votes (VoteMap s) (DeviceIDs s) t (outbox s) s
  | Some (e :: _) =>
      mkB (delete hash (VoteMap s)) (DeviceIDs s) (deviceAddressMap s) (RECCount s) (VoteMemberCount s) (TxQueue s)
        t (voted s ++ [e_TxMsg e]) (senders s) (outbox s ++ [Validators FullnodeID uniqueList now]) (txs s)
  end.

Definition power_of (m : LightTxMessage) : float64 :=
  match Original m, REC m with
  | Some d, _ => TotalEnergy d
  | None, Some r => mul (ParseFloat (MeasuredVolumeMWh r)) (of_Z 1000000)
  | None, None => of_Z 0
  end.

(** The rest: the address of the device, and the closure for the queue. *)
Definition finish_vote (n : nat) s : BState W :=
  match voted s !! n with
  | None => s
  | Some m =>
      let v := take n (voted s) ++ drop (S n) (voted s) in
      let send := match deviceAddressMap s !! default "" (DeviceIDs s !! Hash m) with
                  | None => []
                  | Some userAddress => [LightTask m userAddress (power_of m)]
                  end in
      mkB (VoteMap s) (DeviceIDs s) (deviceAddressMap s) (RECCount s) (VoteMemberCount s) (TxQueue s) (timers s) v
        (senders s ++ send) (outbox s) (txs s)
  end.

(** ** The other consumers *)

Definition DeviceAddress_handler (response : DeviceToAddressMessage) s : BState W :=
  if negb (String.eqb (da_SenderID response) FullnodeID) then s
  else if String.eqb (da_DeviceID response) "" then s
  else mkB (VoteMap s) (DeviceIDs s) (<[da_DeviceID response := da_Address response]> (deviceAddressMap s))
         (RECCount s) (VoteMemberCount s) (TxQueue s) (timers s) (voted s) (senders s) (outbox s) (txs s).

Definition VoteMember_handler (count : Z) s : BState W :=
  mkB (VoteMap s) (DeviceIDs s) (deviceAddressMap s) (RECCount s) count (TxQueue s) (timers s) (voted s) (senders s)
    (outbox s) (txs s).

Definition wait_to_send (t : Task) s : BState W :=
  mkB (VoteMap s) (DeviceIDs s) (deviceAddressMap s) (RECCount s) (VoteMemberCount s) (TxQueue s) (timers s) (voted s)
    (senders s ++ [t]) (outbox s) (txs s).

Definition handleBlockCreatorMessage (data : BlockCreatorMsg) s : BState W :=
  if negb (String.eqb (bc_FullnodeID data) FullnodeID) then s
  else if RECCount s <=? 0 then s
  else wait_to_send (BlockTask (bc_Creator data)) s.

Definition ConsumeClaim_burn (req : BurnRequest) s : BState W := wait_to_send (BurnTask req) s.

(** [TxQueue <- task]: goes on when there is room. *)
Definition enqueue (n : nat) s : BState W :=
  match senders s !! n with
  | None => s
  | Some t =>
      mkB (VoteMap s) (DeviceIDs s) (deviceAddressMap s) (RECCount s) (VoteMemberCount s) (TxQueue s ++ [t]) (timers s)
        (voted s) (take n (senders s) ++ drop (S n) (senders s)) (outbox s) (txs s)
  end.

(** ** The worker *)

Definition on_txs {A} (m : M (St W) A) : M (BState W) A :=
  zoom txs (λ t s, mkB (VoteMap s) (DeviceIDs s) (deviceAddressMap s) (RECCount s) (VoteMemberCount s) (TxQueue s)
                     (timers s) (voted s) (senders s) (outbox s) t) m.
Definition set_RECCount (n : Z) : M (BState W) () :=
  modify (λ s, mkB (VoteMap s) (DeviceIDs s) (deviceAddressMap s) n (VoteMemberCount s) (TxQueue s) (timers s)
                 (voted s) (senders s) (outbox s) (txs s)).
Definition send_out (o : OutMsg) : M (BState W) () :=
  modify (λ s, mkB (VoteMap s) (DeviceIDs s) (deviceAddressMap s) (RECCount s) (VoteMemberCount s) (TxQueue s) (timers s)
                 (voted s) (senders s) (outbox s ++ [o]) (txs s)).

(** A call whose error is looked at. *)
Definition try_tx {A} (m : M (St W) A) : M (BState W) (option A) := λ s,
  match on_txs m s with
  | (Ok a, s') => (Ok (Some a), s')
  | (Err _, s') => (Ok None, s')
  | (Panic e, s') => (Panic e, s')
  end.

Definition run_light (msg : LightTxMessage) (userAddress : string) (power : float64) : M (BState W) () :=
  r ← try_tx (light_tx msg userAddress power);
  match r with
  | None => mret ()
  | Some txHash =>
      r ← try_tx (add_energy userAddress (Int.NewInt (wh power)) txHash);
      match r with
      | None => mret ()
      | Some (recs, contributors) =>
          if 0 <? recs then
            _ ← set_RECCount recs;
            send_out (Contributors FullnodeID contributors)
          else mret ()
      end
  end.

Definition run_block (creator : string) : M (BState W) () :=
  count ← gets RECCount;
  r ← try_tx (create_rec count);
  match r with
  | None | Some [] => set_RECCount 0
  | Some recIDs =>
      let creator := Str.trim_prefix creator "/" in
      _ ← for_each (λ recID, _ ← try_tx (create_block creator recID); mret ()) recIDs;
      _ ← try_tx (reward_percent creator "0.1");
      set_RECCount 0
  end.

Definition run_burn (req : BurnRequest) : M (BState W) () :=
  match req with
  | BurnBad m => send_out (BurnFailed (mkBurnMessage (bm_Address m) "err"))
  | BurnOk m =>
      r ← try_tx (burn_coin (bm_Address m) (bm_Coin m));
      match r with
      | None => send_out (BurnFailed (mkBurnMessage (bm_Address m) "err"))
      | Some result =>
          send_out (BurnResult (mkBurnResult (bm_Address m) (br_Status result) (br_TxHash result)
                                  (br_RecRecords result) (br_RecMetas result)))
      end
  end.

Definition run_task (t : Task) : M (BState W) () :=
  match t with
  | LightTask msg userAddress power => run_light msg userAddress power
  | BlockTask creator => run_block creator
  | BurnTask req => run_burn req
  end.

Definition pop (q : list Task) s : BState W :=
  mkB (VoteMap s) (DeviceIDs s) (deviceAddressMap s) (RECCount s) (VoteMemberCount s) q (timers s) (voted s)
    (senders s) (outbox s) (txs s).

(** ** Steps *)

(** A consumer that waits to enqueue reads no further message. *)
Definition waits_block (t : Task) : bool := match t with BlockTask _ => true | _ => false end.
Definition waits_burn (t : Task) : bool := match t with BurnTask _ => true | _ => false end.

Inductive step : BState W → BState W → Prop :=
  | step_light m now s : step s (ConsumeClaim_light m now s)
  | step_timer hash uniqueList now s : hash ∈ timers s → NoDup uniqueList →
      (∀ a, a ∈ uniqueList ↔ a ∈ unique_addresses (default [] (VoteMap s !! hash))) →
      step s (startVoteTimer hash uniqueList now s)
  | step_finish n s : step s (finish_vote n s)
  | step_address response s : step s (DeviceAddress_handler response s)
  | step_members count s : step s (VoteMember_handler count s)
  | step_creator data s : forallb (negb ∘ waits_block) (senders s) = true → step s (handleBlockCreatorMessage data s)
  | step_burn req s : forallb (negb ∘ waits_burn) (senders s) = true → step s (ConsumeClaim_burn req s)
  | step_enqueue n s : (length (TxQueue s) < QueueSize)%nat → step s (enqueue n s)
  | step_task t q s s' : TxQueue s = t :: q → run_task t (pop q s) = (Ok (), s') → step s s'.

(** The state at the start: only the cache and the node may be old. *)
Definition initial (t : St W) : BState W := mkB ∅ ∅ ∅ 0 0 [] [] [] [] [] t.

End bridge.

(** Three rounds of padding are enough. *)
Lemma pad_length k : (String.length (pad k) mod 4 = 0)%nat.
Proof.
  unfold pad. cbn [pad_loop]. rewrite !Str.length_app. cbn [String.length].
  repeat match goal with |- context [(?a =? 0)%nat] => destruct (Nat.eqb_spec a 0) end;
    rewrite ?Str.length_app; cbn [String.length]; try done.
  zify. Z.to_euclidean_division_equations. lia.
Qed.
End Bridge.
