(* ===== verification/BridgeProps.v ===== *)
(** * The bridge's votes, queue and transactions *)

From Stdlib Require Import ZArith Lia Ascii String.
From stdpp Require Import base tactics option list gmap relations strings.
From S2P Require Import Prelude GoStd Float64 Digits SdkInt Decimal Coin DecCoin MultiSig Chain Wire Proto Tx TxCodec.
From S2P Require Import Gas BaseApp ABCI Context Ante ClientTx Reward RewardProps Modules Node NodeProps Broadcaster BroadcasterProps.
From S2P Require Import BridgeNode Bridge.

Local Open Scope Z_scope.

Module BridgeProps.
Import MultiSig Ante Float64 ClientTx Broadcaster BroadcasterProps Bridge.

Lemma remove_one_elem {A} `{EqDecision A} (x y : A) l : NoDup l → x ∈ remove_one y l ↔ x ∈ l ∧ x ≠ y.
Proof.
  induction 1 as [|z l Hz Hl IH]; cbn; [set_solver|]. destruct (decide (y = z)) as [->|]; set_solver.
Qed.
Lemma remove_one_NoDup {A} `{EqDecision A} (y : A) l : NoDup l → NoDup (remove_one y l).
Proof.
  induction 1 as [|z l Hz Hl IH]; cbn; [constructor|]. destruct (decide (y = z)); [done|]. constructor; [|done].
  rewrite remove_one_elem by done. naive_solver.
Qed.

Section votes.
Context {W : Type} (sha256 ripemd160 : string → string).
Context (ConvertBits : string → outcome (list Z)) (bech32_Encode : string → list Z → outcome string).
Implicit Types s : BState W.
Abbreviation voter_of := (voter sha256 ripemd160 ConvertBits bech32_Encode).

(** ** What a task leaves alone *)

(** Everything but the REC count, the outbox and the transactions. *)
Definition same_votes s s' : Prop :=
  VoteMap s' = VoteMap s ∧ DeviceIDs s' = DeviceIDs s ∧ deviceAddressMap s' = deviceAddressMap s ∧
  VoteMemberCount s' = VoteMemberCount s ∧ TxQueue s' = TxQueue s ∧ timers s' = timers s ∧ voted s' = voted s ∧
  senders s' = senders s ∧
  ∃ l, outbox s' = outbox s ++ l ∧ Forall (λ o, match o with Validators _ _ _ => False | _ => True end) l.

#[export] Instance same_votes_preorder : PreOrder same_votes.
Proof.
  split; [intros s; split_and!; try done; exists []; by rewrite app_nil_r|].
  intros s1 s2 s3 (A1 & A2 & A3 & A4 & A5 & A6 & A7 & A8 & l & A9 & A10) (B1 & B2 & B3 & B4 & B5 & B6 & B7 & B8 & l' & B9 & B10).
  split_and!; try congruence. exists (l ++ l'). rewrite B9, A9, app_assoc. split; [done|by apply Forall_app].
Qed.

Lemma steps_try {A} (m : M (St W) A) : steps same_votes (try_tx m).
Proof.
  intros s o s' H. unfold try_tx, on_txs, zoom in H. destruct (m (txs s)) as [[a|e|e] t]; [..|done];
    injection H as _ <-; split_and!; try done; exists []; by rewrite app_nil_r.
Qed.
Lemma steps_count n : steps same_votes (set_RECCount n).
Proof. apply steps_modify. intros s. split_and!; try done. exists []. by rewrite app_nil_r. Qed.
Lemma steps_send o : match o with Validators _ _ _ => False | _ => True end → steps same_votes (send_out o).
Proof. intros Ho. apply steps_modify. intros s. split_and!; try done. exists [o]. by split; [|constructor]. Qed.

(** ** Votes and timers *)

(** Every open vote has entries of its hash, by voters with a key, and one
    timer; every list of validators sent names someone, and nobody twice. *)
Definition votes_ok s : Prop :=
  NoDup (timers s) ∧
  (∀ h, h ∈ timers s ↔ is_Some (VoteMap s !! h)) ∧
  (∀ h es, VoteMap s !! h = Some es → es ≠ [] ∧
     Forall (λ e, Hash (e_TxMsg e) = h ∧ voter_of (e_TxMsg e) = Some (e_Address e)) es) ∧
  (∀ id l now, Validators id l now ∈ outbox s → NoDup l ∧ l ≠ []).

Lemma votes_ok_same s s' : same_votes s s' → votes_ok s → votes_ok s'.
Proof.
  intros (A1 & _ & _ & _ & _ & A6 & _ & _ & l & A9 & A10) (V1 & V2 & V3 & V4). unfold votes_ok. rewrite A1, A6, A9.
  split_and!; [done..|]. intros id l' now [Hin|Hin]%elem_of_app; [by eapply V4|].
  rewrite Forall_forall in A10. by apply A10 in Hin.
Qed.

Lemma record_vote_ok m a now s : voter_of m = Some a → votes_ok s → votes_ok (record_vote m a now s).
Proof.
  intros Hv (V1 & V2 & V3 & V4). unfold record_vote. set (old := default [] (VoteMap s !! Hash m)).
  assert (∀ h es, <[Hash m := old ++ [mkEntry m a now]]> (VoteMap s) !! h = Some es → es ≠ [] ∧
    Forall (λ e, Hash (e_TxMsg e) = h ∧ voter_of (e_TxMsg e) = Some (e_Address e)) es) as Hes.
  { intros h es [[<- <-]|[Hne Hl]]%lookup_insert_Some; [|by apply V3]. split; [by destruct old|]. apply Forall_app.
    split; [|by constructor]. unfold old. destruct (VoteMap s !! Hash m) as [es|] eqn:E; [by apply V3 in E as [_ ?]|constructor]. }
  destruct (Nat.eqb_spec (length (old ++ [mkEntry m a now])) 1) as [E|E]; unfold set_votes, votes_ok; cbn.
  - assert (VoteMap s !! Hash m = None) as Hnone.
    { rewrite length_app in E. cbn in E. unfold old in E. destruct (VoteMap s !! Hash m) as [es|] eqn:El; [|done].
      apply V3 in El as [Hne _]. destruct es; [done|cbn in E; lia]. }
    assert (Hash m ∉ timers s) as Hnt by (rewrite V2, Hnone; by intros [??]).
    split_and!; [|..|done|].
    + apply NoDup_app. split_and!; [done| |apply NoDup_singleton]. by intros x Hx ->%list_elem_of_singleton.
    + intros h. rewrite elem_of_app, list_elem_of_singleton, lookup_insert_is_Some, V2. destruct (decide (Hash m = h)); naive_solver.
    + intros id l n [Hin|Hin]%elem_of_app; [by eapply V4|]. by apply list_elem_of_singleton in Hin.
  - assert (is_Some (VoteMap s !! Hash m)) as Hsome.
    { unfold old in E. destruct (VoteMap s !! Hash m); [by eexists|done]. }
    split_and!; [done| |done|done]. intros h. rewrite lookup_insert_is_Some, V2. destruct (decide (Hash m = h)); naive_solver.
Qed.

Lemma light_ok m now s : votes_ok s →
  votes_ok (ConsumeClaim_light sha256 ripemd160 ConvertBits bech32_Encode m now s).
Proof.
  intros H. unfold ConsumeClaim_light. destruct (voter _ _ _ _ _) as [a|] eqn:E; [|done]. by apply record_vote_ok.
Qed.

Lemma timer_ok hash l now s : hash ∈ timers s → NoDup l →
  (∀ a, a ∈ l ↔ a ∈ unique_addresses (default [] (VoteMap s !! hash))) → votes_ok s → votes_ok (startVoteTimer hash l now s).
Proof.
  intros Hin Hl Hall (V1 & V2 & V3 & V4). apply V2 in Hin as [es Hes]. unfold startVoteTimer. rewrite Hes in Hall |- *.
  destruct (V3 _ _ Hes) as [Hne _]. destruct es as [|e es]; [done|]. unfold votes_ok. cbn. split_and!.
  - by apply remove_one_NoDup.
  - intros h. rewrite remove_one_elem by done. rewrite lookup_delete_is_Some, V2. naive_solver.
  - intros h es' [_ H]%lookup_delete_Some. by apply V3.
  - intros id l' n [Hin|[= -> -> ->]%list_elem_of_singleton]%elem_of_app; [by eapply V4|]. split; [done|]. intros ->.
    apply (not_elem_of_nil (e_Address e)), Hall. unfold unique_addresses. cbn. set_solver.
Qed.
End votes.

Section props.
Context {W : Type} (node : NodeClient W) (ctx : ClientCtx).
Context (NewAnyWithValue : Node.Msg → outcome ()) (key_Any : PubKey → outcome ()).
Context (TxEncoder : Tx.Tx Node.Msg → outcome string) (tx_Hash : string → string).
Context (DecodeAndConvert : string → option (string * string)) (accPrefix : string) (addr_String : string → string).
Context (GetSignBytes : Z → SignerData → Tx.Tx Node.Msg → outcome string).
Context (polls : nat).
Context (sha256 ripemd160 : string → string).
Context (ConvertBits : string → outcome (list Z)) (bech32_Encode : string → list Z → outcome string).
Implicit Types s : BState W.

Abbreviation bech32 := (Node.AccAddressFromBech32 DecodeAndConvert accPrefix).
Abbreviation msg_signers := (Node.GetSigners DecodeAndConvert accPrefix).
Abbreviation bridge_step := (step node ctx NewAnyWithValue key_Any TxEncoder tx_Hash msg_signers bech32 addr_String
  GetSignBytes TxCodec.SIGN_MODE_DIRECT polls sha256 ripemd160 ConvertBits bech32_Encode).
Abbreviation do_task := (run_task node ctx NewAnyWithValue key_Any TxEncoder tx_Hash msg_signers bech32 addr_String
  GetSignBytes TxCodec.SIGN_MODE_DIRECT polls).
Abbreviation consume_light := (ConsumeClaim_light sha256 ripemd160 ConvertBits bech32_Encode).
Abbreviation voter_of := (voter sha256 ripemd160 ConvertBits bech32_Encode).

(** ** Steps *)

Lemma task_same t : steps same_votes (do_task t).
Proof.
  destruct t as [msg u p|creator|req]; cbn [run_task].
  - unfold run_light. stepping; try apply steps_try; try apply steps_count; try by apply steps_send.
  - unfold run_block. stepping; try apply steps_try; try apply steps_count.
  - unfold run_burn. stepping; try apply steps_try; try by apply steps_send.
Qed.

Lemma step_votes s s' : bridge_step s s' → votes_ok sha256 ripemd160 ConvertBits bech32_Encode s →
  votes_ok sha256 ripemd160 ConvertBits bech32_Encode s'.
Proof.
  intros [m now s1|hash l now s1 Hin Hl Hall|n s1|resp s1|count s1|data s1 _|req s1 _|n s1 _|t q s1 s2 Hq Ht] H.
  - by apply light_ok.
  - by apply timer_ok.
  - unfold finish_vote. by destruct (voted s1 !! n).
  - unfold DeviceAddress_handler. by repeat case_match.
  - done.
  - unfold handleBlockCreatorMessage. by repeat case_match.
  - done.
  - unfold enqueue. by destruct (senders s1 !! n).
  - apply task_same in Ht. by eapply votes_ok_same.
Qed.

(** C4: every vote is counted once.  In every state the bridge can reach: each
    open vote has exactly one timer, and each timer a vote, so every vote is
    settled once; the entries of a vote are for its hash and by the address of
    a 33-byte key; and each list of voters sent for a reward names someone, and
    nobody twice. *)
Theorem votes_settled_once (t : St W) s : rtc bridge_step (initial t) s →
  NoDup (timers s) ∧
  (∀ h, h ∈ timers s ↔ is_Some (VoteMap s !! h)) ∧
  (∀ h es, VoteMap s !! h = Some es → es ≠ [] ∧
     Forall (λ e, Hash (e_TxMsg e) = h ∧ voter_of (e_TxMsg e) = Some (e_Address e)) es) ∧
  (∀ id l now, Validators id l now ∈ outbox s → NoDup l ∧ l ≠ []).
Proof.
  intros H. change (votes_ok sha256 ripemd160 ConvertBits bech32_Encode s).
  assert (votes_ok sha256 ripemd160 ConvertBits bech32_Encode (initial t)) as H0.
  { split_and!; cbn; [constructor| | |by intros ??? ?%not_elem_of_nil].
    - intros h. rewrite lookup_empty. split; [by intros ?%not_elem_of_nil|by intros [??]].
    - intros h es. by rewrite lookup_empty. }
  induction H as [|s1 s2 s3 H1 _ IH]; [done|]. apply IH. by eapply step_votes.
Qed.

(** ** The queue and the sequence *)

(** A light task carries the power of its message. *)
Definition fit (t : Task) : Prop :=
  match t with LightTask m _ p => p = power_of m | _ => True end.

Lemma fit_sensible m u p : fit (LightTask m u p) → sensible (CallLight m u p).
Proof.
  cbn. intros ->. unfold light_payload, power_of. by destruct (Original m), (REC m).
Qed.

Definition queue_ok s : Prop :=
  (length (TxQueue s) <= QueueSize)%nat ∧ Forall fit (TxQueue s) ∧ Forall fit (senders s).

Lemma Forall_drop_one {A} (P : A → Prop) l n : Forall P l → Forall P (take n l ++ drop (S n) l).
Proof. intros H. apply Forall_app. split; [by apply Forall_take|by apply Forall_drop]. Qed.

Lemma step_queue s s' : bridge_step s s' → queue_ok s → queue_ok s'.
Proof.
  intros [m now s1|hash l now s1 _ _ _|n s1|resp s1|count s1|data s1 _|req s1 _|n s1 Hlen|t q s1 s2 Hq Ht] (Q1 & Q2 & Q3).
  - unfold ConsumeClaim_light, record_vote. destruct (voter _ _ _ _ _); [|done]. by case_match.
  - unfold startVoteTimer. by repeat case_match.
  - unfold finish_vote. destruct (voted s1 !! n) as [m|]; [|done]. split_and!; [done..|]. cbn. apply Forall_app. split; [done|].
    destruct (deviceAddressMap s1 !! _); by repeat constructor.
  - unfold DeviceAddress_handler. by repeat case_match.
  - done.
  - unfold handleBlockCreatorMessage. repeat case_match; try done. split_and!; [done..|]. cbn. apply Forall_app. split; [done|by repeat constructor].
  - split_and!; [done..|]. cbn. apply Forall_app. split; [done|by repeat constructor].
  - unfold enqueue. destruct (senders s1 !! n) as [t|] eqn:E; [|done]. split_and!; cbn.
    + rewrite length_app. cbn. lia.
    + apply Forall_app. split; [done|]. constructor; [|done]. by eapply Forall_lookup_1.
    + by apply Forall_drop_one.
  - apply task_same in Ht as (_ & _ & _ & _ & T1 & _ & _ & T2 & _). cbn in T1, T2. rewrite Hq in Q1, Q2.
    unfold queue_ok. rewrite T1, T2. cbn in Q1. split_and!; [lia|by inversion Q2|done].
Qed.

Section sequence.
Context (addr : string) (ok : W → Prop) (chain_seq : W → Z) (synced : Prop).
Context {laws : NodeLaws node TxEncoder (Tx.GetSigners msg_signers bech32 addr_String) addr ok chain_seq synced}.
Hypothesis from_addr : bech32 (From ctx) = Ok addr.

Abbreviation btw := (between ok chain_seq synced).
Definition keeps_sequence s s' : Prop := btw (txs s) → btw (txs s').
#[local] Instance keeps_sequence_preorder : PreOrder keeps_sequence.
Proof. split; [intros s H; exact H|]. intros s1 s2 s3 H1 H2 H. exact (H2 (H1 H)). Qed.

Lemma steps_call {A} (m : M (St W) A) c : sensible c →
  run_call node ctx NewAnyWithValue key_Any TxEncoder tx_Hash DecodeAndConvert accPrefix addr_String GetSignBytes polls c =
    (_ ← m; mret ()) → steps keeps_sequence (try_tx m).
Proof using laws from_addr.
  intros Hc Hm s o s' H Hs.
  pose proof (run_call_between node ctx NewAnyWithValue key_Any TxEncoder tx_Hash DecodeAndConvert accPrefix addr_String
    GetSignBytes polls addr ok chain_seq synced from_addr c Hc (txs s) Hs) as Hb. rewrite Hm in Hb.
  unfold mbind, M_bind in Hb. unfold try_tx, on_txs, zoom in H. destruct (m (txs s)) as [[a|e|e] t]; [..|done]; injection H as _ <-.
  - exact Hb.
  - apply Hb.
Qed.

Lemma steps_keep_count n : steps keeps_sequence (set_RECCount n).
Proof. apply steps_modify. intros s H. exact H. Qed.
Lemma steps_keep_send o : steps keeps_sequence (send_out o).
Proof. apply steps_modify. intros s H. exact H. Qed.

Lemma task_sequence t : fit t → steps keeps_sequence (do_task t).
Proof using laws from_addr.
  intros Hf. destruct t as [msg u p|creator|req]; cbn [run_task].
  - unfold run_light. stepping; try apply steps_keep_count; try apply steps_keep_send.
    + by apply (steps_call _ (CallLight msg u p) (fit_sensible _ _ _ Hf)).
    + by eapply (steps_call _ (CallAddEnergy _ _ _) I).
  - unfold run_block. stepping; try apply steps_keep_count.
    + by eapply (steps_call _ (CallCreateREC _) I).
    + by eapply (steps_call _ (CallCreateBlock _ _) I).
    + by eapply (steps_call _ (CallRewardPercent _ _) I).
  - unfold run_burn. stepping; try apply steps_keep_send. by eapply (steps_call _ (CallBurn _ _) I).
Qed.

Lemma step_sequence s s' : bridge_step s s' → queue_ok s → keeps_sequence s s'.
Proof using laws from_addr.
  intros [m now s1|hash l now s1 _ _ _|n s1|resp s1|count s1|data s1 _|req s1 _|n s1 Hlen|t q s1 s2 Hq Ht] (_ & Q2 & _) Hb.
  - unfold ConsumeClaim_light, record_vote. destruct (voter _ _ _ _ _); [|done]. by case_match.
  - unfold startVoteTimer. by repeat case_match.
  - unfold finish_vote. by destruct (voted s1 !! n).
  - unfold DeviceAddress_handler. by repeat case_match.
  - done.
  - unfold handleBlockCreatorMessage. by repeat case_match.
  - done.
  - unfold enqueue. by destruct (senders s1 !! n).
  - rewrite Hq in Q2. apply task_sequence in Ht; [by apply Ht|by inversion Q2].
Qed.

End sequence.

(** ** What a vote is worth *)

Definition padded (m : LightTxMessage) : LightTxMessage := with_Pubkey (pad (Pubkey m)) m.

(** Settling a vote: the data of the first entry, the device noted last. *)
Lemma settle_vote hash e es s u : hash ∈ timers s → VoteMap s !! hash = Some (e :: es) → Hash (e_TxMsg e) = hash →
  deviceAddressMap s !! default "" (DeviceIDs s !! hash) = Some u →
  ∃ s', rtc bridge_step s s' ∧ VoteMap s' = delete hash (VoteMap s) ∧ deviceAddressMap s' = deviceAddressMap s ∧
    senders s' = senders s ++ [LightTask (e_TxMsg e) u (power_of (e_TxMsg e))].
Proof.
  intros Hin Hv Hh Hu. set (l := elements (unique_addresses (default [] (VoteMap s !! hash)))).
  set (s1 := startVoteTimer hash l 0 s). exists (finish_vote (length (voted s)) s1). split.
  { eapply rtc_l; [apply (step_timer _ _ _ _ _ _ _ _ _ _ _ _ _ _ _ _ hash l 0); [done|apply NoDup_elements|]|].
    - intros a. apply elem_of_elements.
    - eapply rtc_l; [apply step_finish|apply rtc_refl]. }
  assert (s1 = mkB (delete hash (VoteMap s)) (DeviceIDs s) (deviceAddressMap s) (RECCount s) (VoteMemberCount s) (TxQueue s)
    (remove_one hash (timers s)) (voted s ++ [e_TxMsg e]) (senders s) (outbox s ++ [Validators FullnodeID l 0]) (txs s)) as ->.
  { unfold s1, startVoteTimer. by rewrite Hv. }
  unfold finish_vote. cbn. rewrite list_lookup_middle by done. cbn. rewrite Hh, Hu. done.
Qed.

Lemma new_vote m a s : VoteMap s !! Hash m = None → voter_of (padded m) = Some a →
  let s1 := consume_light m 0 s in
  bridge_step s s1 ∧ Hash m ∈ timers s1 ∧ VoteMap s1 = <[Hash m := [mkEntry (padded m) a 0]]> (VoteMap s) ∧
  DeviceIDs s1 = match named_device m with Some d => <[Hash m := d]> (DeviceIDs s) | None => DeviceIDs s end ∧
  deviceAddressMap s1 = deviceAddressMap s ∧ senders s1 = senders s.
Proof.
  intros Hn Hv. split; [constructor|]. unfold ConsumeClaim_light. fold (padded m). rewrite Hv. unfold record_vote.
  change (Hash (padded m)) with (Hash m). change (named_device (padded m)) with (named_device m). rewrite Hn. cbn.
  split; [|done]. apply elem_of_app. right. by left.
Qed.


(** A later vote takes the reward.  Of two votes for the same hash, the
    data that are rewarded are those of the first, but the reward goes to the
    owner of the device that the second names. *)
Theorem later_vote_takes_reward (m1 m2 : LightTxMessage) (a1 a2 d2 u2 : string) s :
  Hash m2 = Hash m1 → VoteMap s !! Hash m1 = None →
  voter_of (padded m1) = Some a1 → voter_of (padded m2) = Some a2 →
  named_device m2 = Some d2 → deviceAddressMap s !! d2 = Some u2 →
  ∃ s', rtc bridge_step s s' ∧ senders s' = senders s ++ [LightTask (padded m1) u2 (power_of m1)].
Proof.
  intros Hh Hn Hv1 Hv2 Hd2 Hu2. destruct (new_vote m1 a1 s Hn Hv1) as (H1 & H2 & H3 & H4 & H5 & H6).
  set (s1 := consume_light m1 0 s) in *.
  assert (consume_light m2 0 s1 = set_votes (<[Hash m1 := [mkEntry (padded m1) a1 0; mkEntry (padded m2) a2 0]]> (VoteMap s1))
    (<[Hash m1 := d2]> (DeviceIDs s1)) (timers s1) (outbox s1) s1) as E.
  { unfold ConsumeClaim_light. fold (padded m2). rewrite Hv2. unfold record_vote.
    change (Hash (padded m2)) with (Hash m2). change (named_device (padded m2)) with (named_device m2).
    by rewrite Hh, Hd2, H3, lookup_insert_eq. }
  destruct (settle_vote (Hash m1) (mkEntry (padded m1) a1 0) [mkEntry (padded m2) a2 0] (consume_light m2 0 s1) u2)
    as (s3 & R3 & _ & _ & S3); rewrite ?E; cbn; [done|by rewrite lookup_insert_eq|done|by rewrite lookup_insert_eq, H5|].
  exists s3. split; [eapply rtc_l; [exact H1|]; eapply rtc_l; [apply (step_light _ _ _ _ _ _ _ _ _ _ _ _ _ _ _ _ m2 0)|exact R3]|].
  by rewrite S3, E, <- H6.
Qed.

End props.

(** ** A run of the bridge

    Against the node of [BridgeNode]; an address is the key with its hashes
    left out. *)

Definition toy_step : BState (ABCI.Server Node.State) → BState (ABCI.Server Node.State) → Prop :=
  step BridgeNode.demo_node BridgeNode.alice_ctx (λ _, Ok ()) (λ _, Ok ()) BridgeNode.demo_encoder (λ b, b)
    (Node.GetSigners plain_bech32 "cosmos") (Node.AccAddressFromBech32 plain_bech32 "cosmos") id NodeProps.node_sign_bytes
    TxCodec.SIGN_MODE_DIRECT 3 id id (λ s, Ok [Z.of_nat (String.length s)]) (λ p _, Ok p).
Definition toy_key : string := "AAAAAAAAAAAAAAAAAAAAAAAAAAAAAAAAAAAAAAAAAAAA".
Definition toy_data (device : string) : SolarData := mkSolarData device "t" (of_Z 250) (mkLocation (of_Z 0) (of_Z 0)).
Definition toy_vote (device signature : string) : LightTxMessage :=
  mkLightTxMessage (Some (toy_data device)) None "hash" signature toy_key.
Definition toy_txs : St (ABCI.Server Node.State) := mkSt (mkCache 0 0 false) BridgeNode.demo_server.
Definition toy0 : BState (ABCI.Server Node.State) := initial toy_txs.
Definition toy1 := DeviceAddress_handler (mkDeviceToAddress "dev1" "bob" FullnodeID) toy0.
Definition toy2 := DeviceAddress_handler (mkDeviceToAddress "dev2" "mallory" FullnodeID) toy1.
Definition toy3 := ConsumeClaim_light id id (λ s, Ok [Z.of_nat (String.length s)]) (λ p _, Ok p) (toy_vote "dev1" "") 5 toy2.
Definition toy4 := ConsumeClaim_burn (BurnOk (mkBurnMessage "bob" "7")) toy3.
Definition toy5 := enqueue 0 toy4.
Definition toy6 := (run_task BridgeNode.demo_node BridgeNode.alice_ctx (λ _, Ok ()) (λ _, Ok ()) BridgeNode.demo_encoder (λ b, b)
    (Node.GetSigners plain_bech32 "cosmos") (Node.AccAddressFromBech32 plain_bech32 "cosmos") id NodeProps.node_sign_bytes
    TxCodec.SIGN_MODE_DIRECT 3 (BurnTask (BurnOk (mkBurnMessage "bob" "7"))) (pop [] toy5)).

Lemma toy_ran : toy6 = (Ok (), toy6.2).
Proof. apply run_ok. vm_compute. reflexivity. Qed.

Lemma toy_reached : rtc toy_step toy0 toy6.2.
Proof.
  apply rtc_l with toy1; [exact (step_address _ _ _ _ _ _ _ _ _ _ _ _ _ _ _ _ (mkDeviceToAddress "dev1" "bob" FullnodeID) toy0)|].
  apply rtc_l with toy2; [exact (step_address _ _ _ _ _ _ _ _ _ _ _ _ _ _ _ _ (mkDeviceToAddress "dev2" "mallory" FullnodeID) toy1)|].
  apply rtc_l with toy3; [exact (step_light _ _ _ _ _ _ _ _ _ _ _ _ _ _ _ _ (toy_vote "dev1" "") 5 toy2)|].
  apply rtc_l with toy4; [exact (step_burn _ _ _ _ _ _ _ _ _ _ _ _ _ _ _ _ (BurnOk (mkBurnMessage "bob" "7")) toy3 eq_refl)|].
  apply rtc_l with toy5; [apply (step_enqueue _ _ _ _ _ _ _ _ _ _ _ _ _ _ _ _ 0%nat toy4); vm_compute; lia|].
  apply rtc_l with toy6.2; [|apply rtc_refl].
  exact (step_task _ _ _ _ _ _ _ _ _ _ _ _ _ _ _ _ (BurnTask (BurnOk (mkBurnMessage "bob" "7"))) [] toy5 toy6.2 eq_refl toy_ran).
Qed.
Lemma votes_settled_once_witness : NoDup (timers toy6.2) ∧ timers toy6.2 = ["hash"] ∧ is_Some (VoteMap toy6.2 !! "hash").
Proof.
  destruct (votes_settled_once BridgeNode.demo_node BridgeNode.alice_ctx (λ _, Ok ()) (λ _, Ok ()) BridgeNode.demo_encoder (λ b, b)
    plain_bech32 "cosmos" id NodeProps.node_sign_bytes 3 id id (λ s, Ok [Z.of_nat (String.length s)]) (λ p _, Ok p)
    toy_txs toy6.2 toy_reached) as (H1 & H2 & _).
  assert (timers toy6.2 = ["hash"]) as E by (vm_compute; reflexivity).
  split; [exact H1|]. split; [exact E|]. apply H2. rewrite E. by left.
Defined.



Lemma later_vote_takes_reward_witness :
  ∃ s', rtc toy_step toy2 s' ∧ senders s' = [LightTask (toy_vote "dev1" "sig") "mallory" (of_Z 250)].
Proof.
  refine (later_vote_takes_reward BridgeNode.demo_node BridgeNode.alice_ctx (λ _, Ok ()) (λ _, Ok ()) BridgeNode.demo_encoder (λ b, b)
    plain_bech32 "cosmos" id NodeProps.node_sign_bytes 3 id id (λ s, Ok [Z.of_nat (String.length s)]) (λ p _, Ok p)
    (toy_vote "dev1" "sig") (toy_vote "dev2" "") "cosmos" "cosmos" "dev2" "mallory" toy2 _ _ _ _ _ _); vm_compute; reflexivity.
Defined.

End BridgeProps.
